(* ===== verification/_CoqProject ===== *)
-Q . S2P
Prelude.v
Mem.v
CString.v
Crc.v
Hash.v
Sha256.v
Sha1.v
Md5.v
Lmb.v
Circbuf.v
Ctype.v
Vsprintf.v
VStorage.v
Disks.v
Items.v
Sparse.v
Secure.v
Image.v
Nand.v
Burn.v
Iuw.v
Env.v
Cli.v
NandEcc.v
Layout.v
Storage.v
Parted.v
Uimage.v
Atag.v
Gunzip.v
Bootm.v
Bootl.v
