(* ===== verification/Prelude.v ===== *)
(** * A verification of the boot loader's portable core

    The program is U-Boot as Infotm ships it for the iMAPx800 boards
    (imapx800-develop): an ARM boot loader, 32-bit little-endian, that finds
    a system image on one of several storage devices, checks it and starts
    or burns it.  Most of its source is drivers and boards.  This development
    models the code the rest is built on and the parts that decide what is
    read, checked and written:

    - [CString], [Ctype], [Vsprintf] (lib_generic/string.c, ctype.c,
      vsprintf.c): the freestanding C library;
    - [Crc], [Hash], [Sha256], [Sha1], [Md5] (lib_generic/crc32.c, crc16.c,
      adler32.c, sha256.c, sha1.c, md5.c, infotm/drivers/secure/crc32.c):
      checksums and digests of images;
    - [Lmb] (lib_generic/lmb.c): the map of memory used when an image is
      loaded;
    - [Circbuf] (common/circbuf.c): the ring buffer of the USB console;
    - [Env] (common/env_common.c, env_nowhere.c, cmd_nvedit.c): the
      environment variables;
    - [Cli] (common/main.c, command.c): running a command line;
    - [VStorage] (infotm/strategy/vstorage/vstorage.c and
      infotm/drivers/ramdisk/ramdisk.c): one interface to all storage devices;
    - [Disks] (infotm/drivers/mmc/mmc.c, infotm/drivers/usb/usb_interface.c):
      the block transfers of cards and sticks behind it;
    - [Items] (infotm/strategy/items/items.c): the board configuration text;
    - [Sparse] (infotm/strategy/burn/sparse.c): burning a sparse image;
    - [Secure] (infotm/drivers/secure/hash.c, md5.c, sha1.c, sha256.c,
      crypto.c): the hashes and the cipher of the chip;
    - [Image] (infotm/strategy/isi/isi.c, ius/ius.c, boots/debug.c): the
      headers of images and packages and their checks, the configuration
      tables that set up a board;
    - [Nand] (infotm/drivers/nand/nand_base.c): the three views of a NAND
      chip, bad blocks and read-retry levels;
    - [Burn] (infotm/strategy/burn/burn.c): finding a package and burning its
      images;
    - [Iuw] (infotm/strategy/iuw/iuw_base.c, in [Iuw.Udc] the calls of
      infotm/drivers/udc/imapx800_udc.c): the protocol by which a host reads,
      writes and burns over USB;
    - [NandEcc] (drivers/mtd/nand/nand_ecc.c): the error-correcting code of a
      NAND page;
    - [Layout], [Storage] (infotm/strategy/burn/block.c, storage.c): where the
      partitions of a board lie, their tables on a block device; [Parted]
      holds the theorems about what is recorded on the device;
    - [Uimage] (include/image.h, common/image.c), [Gunzip]
      (lib_generic/gunzip.c), [Atag] and [Bootm] (lib_arm/bootm.c,
      common/cmd_bootm.c): the images of a kernel, unpacking, the parameters
      of a kernel, starting it;
    - [Bootl] (infotm/strategy/boots/bootl.c, boot.c,
      infotm/commands/cmd_load.c): choosing and loading the images of the
      disk of the board.

    ** How the parts interact

    [Mem] is the byte-addressed memory on which [CString] works; [Items]
    parses and looks up in it with [CString]'s functions and [Vsprintf]'s
    number parser, [VStorage]'s block reader copies in it.  [Sparse] reads an
    image through a callback into its buffer, takes checksums with [Crc] and
    writes through the storage layer, which it sees as the record
    [Sparse.services] with the contracts [ByteSource] and [Target]; the
    drivers under [VStorage] are seen through [VStorage.drivers] with the
    contracts [BlockDevice] and [Heap], and the RAM disk and, with the
    contract [Disks.Stick] for the controller, the USB stick are instances.
    A card is not: what its driver reports is not what it read
    ([Disks.mmc_vs_read_spec]).
    [Nand] fills in three of those drivers over the parameter [nand_hw], the
    operations on pages, with the contract [NandChip] ([soft_chip] is an
    instance).  [Image] takes its digests through [Secure]'s interface, over
    the parameter [engine] with the contract [HashEngine].  [Burn] puts
    these together: [burn_search] reads a header through [VStorage] and has
    [Image] check it, [burn_images] copies the images it lists from the
    device that was found, seen through the contract [PackageSource] (the
    RAM disk is an instance, [ram_source]), to [Nand].  [Iuw] does the same
    for a host behind a transport, whose calls may not come back, with the
    contracts [Transports] (bytes, no more than asked for; the USB driver is an
    instance) and [Willing] (a host that keeps to the protocol).
    [Cli] replaces variables by what [Env]'s [getenv] finds in the same
    memory; the commands it calls are a parameter, which may change the
    environment between two of them and need not come back.  [Storage] looks up the sizes of the
    partitions with [Items], prints their keys with [Vsprintf], has [Layout]
    compute the places and writes and reads the tables through [VStorage], on
    the contract [BlockDevice].  [Bootm] is the end of it: it asks [Env] for
    the variables and [Lmb] for the memory, has [Uimage] check the image with
    [Crc], unpacks it with [Gunzip] (zlib is the parameter with the contract
    [Inflater]), finds its sub-commands with [Cli]'s table search and leaves
    the parameters that [Atag] lays out.  [Bootl] comes before it: it asks
    [Storage] where an image is, reads it through [VStorage], has [Uimage]
    check its header, prints the arguments of the kernel with [Vsprintf] into
    [Env]'s block and runs bootm through [Cli].

    ** How the code is modelled

    - Machine integers are [Z] and each operation that can wrap says so with
      [u32], [s32] and their like; [char] is unsigned, [long] and pointers
      have 32 bits, [loff_t] has 64.
    - Memory is total, as on bare metal: a pointer is its address.  Where a
      function only reads its input, the input is the list of its bytes.
    - A function that changes globals takes and returns them, in a record
      named after the C structure.
    - A loop whose bound is in the data (a count) is structural.  A loop
      whose bound is not (a NUL byte to come, a list to end) takes [fuel] and
      gives [None] without enough of it; the theorems state the fuel that is
      enough and prove that a result is returned with it.  [None] also stands
      for what C leaves undefined (an array overrun) or for [panic].
    - Console output and the debugging code under disabled macros have no
      counterpart.

    ** What the theorems show

    - Equivalence with a reference: the unrolled and table-driven digests
      and checksums are FIPS 180, RFC 1321, RFC 2104, the polynomial
      divisions and Adler-32, on every input, for every division of the input
      into calls.
    - Functional correctness: the string functions with their aliasing; the
      layout of numbers by [number]; the block reader [vs_read] for every
      alignment; the item parser and lookups; the sparse burner, on every
      well-formed image, however the buffer cuts it, with what becomes of it
      when the heap, to which it does not give back all it takes, is used up.
    - Burning: the images of a package end on the good blocks of their
      regions, in order, and no other page of the chip changes
      ([Burn.images_loop_nnd]); reading skips the same blocks and gives the
      image back ([Burn.burn_read_roundtrip]); without enough good blocks the
      burn reports it ([Burn.burn_no_room]); a package is used only after
      its header was checked ([Burn.burn_search_sound]).
    - The upgrade protocol: a board that burns verified packages only does
      nothing for a host that has not shown one
      ([Iuw.locked_server_inert]), and answers it with errors until it leaves
      ([Iuw.locked_server_answers]); over USB it ends no other way, and waits
      for a silent host for ever ([Iuw.usb_server_ends]); a host that may write finds its data where
      it asked for ([Iuw.iuw_write_memory]).
    - Starting a kernel: [bootm], in one go or in stages, starts Linux only
      at the entry point of a header that was checked
      ([Bootm.linux_only_if_checked]), executes stages in one order only
      ([Bootm.stages_in_order]), and for a good image the kernel is where it
      should be and finds the memory and the command line
      ([Bootm.linux_boots]); a changed byte of an image is noticed
      ([Uimage.damaged_image_refused]), the parts of a multi image are found
      ([Uimage.multi_getimg_finds]).
    - Loading: of an image and its second choice the first whose header is
      right is left in memory, whole, when the disk is a USB stick
      ([Bootl.load_image_first_good]), none when it is a card
      ([Bootl.mmc_loads_nothing]); what happens when the image cannot be read
      ([Bootl.failed_read_accepted]); the kind of boot
      that is set is got ([Bootl.boot_type_roundtrip]).
    - Partitions: they lie in order without overlap ([Layout.partitions_in_order],
      except for the last one, [Layout.last_partition_overruns]), on NAND one
      behind the other ([Storage.nand_partitions_abut]); on a disk
      [storage_offset] finds what stands in the second sector
      ([Parted.storage_offset_on_disk]); which record [block_partition]'s
      stores leave for a name is [Parted.places_recorded], on a buffer.
    - Error correction: one wrong bit of 256 bytes is repaired, two are
      noticed ([NandEcc.nand_ecc_corrects]).
    - Image checks: [isi_check], [ius_check_header] and [cdbg_config_isi]
      accept what they should and have no effect on what they refuse.
    - Invariants: the tables of [Lmb] stay sorted, inside their array and
      cover what they should; the ring buffer is a bounded queue; the flags
      of the device table agree with the calls it lists.
    - Safety: an allocation by [lmb_alloc_base] is aligned, free, inside
      memory and below its limit; a changed byte changes the CRC.
    - The environment: what is set is read back and nothing else changes
      ([Env.setenv_getenv]), and the block stays well-formed for ever
      ([Env.env_always_sound]).
    - The command line: cutting, expanding and executing a line refine
      functions and a relation on lists of words ([Cli.parse_line_words],
      [Cli.process_macros_expands], [Cli.run_command_runs]), with the limits
      of the buffers in them, up to the first command that does not come back
      or touches what the interpreter uses.
    - Round trips: numbers printed and parsed, a RAM disk written and read,
      device names and numbers.
    - Termination: every loop that takes fuel, with the fuel it needs;
      [vsprintf] returns on every format string; asking for a bad block ends
      after each retry level was tried once, except on one family of chips,
      where it may not end ([Nand.nnd_vs_isbad_hangs]).
    - Errors: what the code does where it is wrong is stated too
      ([strcmp_sign_wraps], [vs_read_head_wraps],
      [Gunzip.zunzip_ignores_dstlen], [Bootm.standalone_entry_swapped], the
      examples at the end of [Lmb], [Items] and [VStorage]).

    ** Not modelled

    Boards, processors, drivers and the other commands (register access and
    glue); code carried from elsewhere unchanged (zlib, bzip2, LZMA, LZO,
    dlmalloc, libfdt, file systems, rbtree); the network stack; the host
    tools.  Of the Infotm code, [boot_verify_type] of bootl.c moves bits
    between registers of the chip (the charger, the real-time clock), and
    [cfg_mmu_table] is assembler, a parameter of [Bootl]; burn_extra.c,
    seperate.c, yaffs.c and iuw_extra.c burn image types through the NAND
    controller and its board options.  Of common/image.c, FIT images and
    device trees are not configured, and the names of types are for the
    console.  What a standalone program does while it has control is outside
    the model.  In [Nand], the reset of the chip, which matches it with the
    table of known chips, stays a parameter with the hypothesis that it
    succeeds and leaves the pages alone.  [Burn.images_loop_nnd] speaks of
    the loop of [burn_images] with its buffer allocated: the heap's contract
    says where blocks lie, not that two of them do not overlap.

    ** This file

    - fixed-width integers ([u8], [u16], [u32], [u64], [s8], [s32], [s64])
      and the tactic [words] for them;
    - little- and big-endian views of byte lists, slices and splices of byte
      lists (a [memcpy] into a C array);
    - the hint database [uboot] of the components. *)

From stdpp Require Export base numbers list.
From Stdlib Require Export ZArith Lia ZifyBool.
From Stdlib Require Export Btauto.

#[global] Set Default Goal Selector "!".

Declare Scope word_scope.
Delimit Scope word_scope with W.
Local Open Scope Z_scope.

(** ** Fixed-width integers *)

Definition u8 (z : Z) : Z := z mod 2 ^ 8.
Definition u16 (z : Z) : Z := z mod 2 ^ 16.
Definition u32 (z : Z) : Z := z mod 2 ^ 32.
Definition u64 (z : Z) : Z := z mod 2 ^ 64.

Definition s8 (z : Z) : Z := (z + 2 ^ 7) mod 2 ^ 8 - 2 ^ 7.
Definition s32 (z : Z) : Z := (z + 2 ^ 31) mod 2 ^ 32 - 2 ^ 31.
Definition s64 (z : Z) : Z := (z + 2 ^ 63) mod 2 ^ 64 - 2 ^ 63.

Notation "x +32 y" := (u32 (x + y)) (at level 50, left associativity) : word_scope.
Notation "x -32 y" := (u32 (x - y)) (at level 50, left associativity) : word_scope.

(** A C truth value. *)
Definition b2z (b : bool) : Z := if b then 1 else 0.

(** A byte, and a list of bytes. *)
Definition is_byte (b : Z) : Prop := 0 <= b < 256.
Definition is_u32 (z : Z) : Prop := 0 <= z < 2 ^ 32.
Definition is_u64 (z : Z) : Prop := 0 <= z < 2 ^ 64.
Abbreviation bytes_ok := (Forall is_byte).

#[global] Instance is_byte_dec b : Decision (is_byte b).
Proof. unfold is_byte. apply _. Defined.

(** Word reasoning: unfold the words and let [lia] do the modular part. *)
Ltac words :=
  unfold u8, u16, u32, u64, s8, s32, s64, is_byte, is_u32, b2z in *;
  Z.div_mod_to_equations; lia.

Lemma u32_range z : 0 <= u32 z < 2 ^ 32.
Proof. unfold u32. apply Z.mod_pos_bound. lia. Qed.

Lemma u32_small z : 0 <= z < 2 ^ 32 -> u32 z = z.
Proof. unfold u32. apply Z.mod_small. Qed.

Lemma u64_small z : 0 <= z < 2 ^ 64 -> u64 z = z.
Proof. unfold u64. apply Z.mod_small. Qed.

Lemma u16_small z : 0 <= z < 2 ^ 16 -> u16 z = z.
Proof. unfold u16. apply Z.mod_small. Qed.

Lemma u8_small z : is_byte z -> u8 z = z.
Proof. unfold u8, is_byte. intros. apply Z.mod_small. lia. Qed.

Lemma u8_range z : is_byte (u8 z).
Proof. apply (Z.mod_pos_bound z 256). lia. Qed.

Lemma s32_small z : - 2 ^ 31 <= z < 2 ^ 31 -> s32 z = z.
Proof. intros. unfold s32. rewrite Z.mod_small; lia. Qed.

Lemma s64_small z : - 2 ^ 63 <= z < 2 ^ 63 -> s64 z = z.
Proof. words. Qed.

Lemma s32_u32 z : s32 (u32 z) = s32 z.
Proof. unfold s32, u32. rewrite Zplus_mod_idemp_l. reflexivity. Qed.

Lemma u32_u32 z : u32 (u32 z) = u32 z.
Proof. apply u32_small, u32_range. Qed.

Lemma u32_add_l x y : u32 (u32 x + y) = u32 (x + y).
Proof. apply Zplus_mod_idemp_l. Qed.

Lemma u32_add_r x y : u32 (x + u32 y) = u32 (x + y).
Proof. apply Zplus_mod_idemp_r. Qed.

Create HintDb uboot.
#[export] Hint Resolve u32_range u8_range : uboot.
Create Rewrite HintDb uboot.
#[export] Hint Rewrite u32_u32 u32_add_l u32_add_r : uboot.

(** ** Generic facts on lists *)

Lemma nth_default_lookup {A} (l : list A) (d : A) i :
  nth i l d = default d (l !! i).
Proof. revert i. induction l; intros [|i]; simpl; auto. Qed.

Lemma take_drop_split {A} n (l : list A) : l = take n l ++ drop n l.
Proof. symmetry. apply take_drop. Qed.

(** Two folds whose steps agree on the states an invariant allows. *)
Lemma fold_left_ext_inv {A B} (P : A -> Prop) (Q : B -> Prop) (f g : A -> B -> A) l a :
  (forall a b, P a -> Q b -> f a b = g a b) -> (forall a b, P a -> Q b -> P (f a b)) ->
  P a -> Forall Q l -> fold_left f l a = fold_left g l a.
Proof.
  intros Hfg HP Ha Hl. revert a Ha. induction Hl as [|b l Hb _ IH]; intros a Ha; simpl; [done|].
  rewrite <- (Hfg a b) by done. auto.
Qed.

Lemma Forall_tl {A} (P : A -> Prop) l : Forall P l -> Forall P (tl l).
Proof. by intros []. Qed.

(** [slice l off n]: the [n] elements of [l] from [off] on. *)
Definition slice {A} (l : list A) (off n : nat) : list A := take n (drop off l).

(** [splice l off src]: the array [l] after [memcpy(l + off, src, |src|)]. *)
Definition splice {A} (l : list A) (off : nat) (src : list A) : list A :=
  take off l ++ src ++ drop (off + length src) l.

Lemma length_splice {A} (l : list A) off src :
  (off + length src <= length l)%nat -> length (splice l off src) = length l.
Proof.
  intros. unfold splice.
  rewrite !length_app, length_take, length_drop. lia.
Qed.

Lemma splice_nil {A} (l : list A) off : splice l off [] = l.
Proof. unfold splice. simpl. rewrite Nat.add_0_r. apply take_drop. Qed.

Lemma take_splice {A} (l : list A) off src :
  (off <= length l)%nat -> take (off + length src) (splice l off src) = take off l ++ src.
Proof.
  intros. unfold splice. rewrite app_assoc, take_app_length'; [done|].
  rewrite length_app, length_take. lia.
Qed.

Lemma take_splice_0 {A} (l src : list A) n :
  length src = n -> (n <= length l)%nat -> take n (splice l 0 src) = src.
Proof. intros <- Hn. exact (take_splice l 0 src ltac:(lia)). Qed.

Lemma splice_full {A} (l src : list A) :
  length src = length l -> splice l 0 src = src.
Proof.
  intros E. unfold splice. simpl. rewrite E, drop_all, app_nil_r. reflexivity.
Qed.

Lemma splice_app_l {A} (x y : list A) off src :
  (off + length src <= length x)%nat -> splice (x ++ y) off src = splice x off src ++ y.
Proof.
  intros. unfold splice. rewrite take_app_le, drop_app_le, <- !app_assoc by lia. done.
Qed.

Lemma splice_app_r {A} (x y : list A) off src :
  (length x <= off)%nat -> splice (x ++ y) off src = x ++ splice y (off - length x) src.
Proof.
  intros. unfold splice. rewrite take_app_ge, drop_app_ge, <- app_assoc by lia.
  do 4 f_equal. lia.
Qed.

Lemma Forall_splice {A} (P : A -> Prop) l off src :
  Forall P l -> Forall P src -> Forall P (splice l off src).
Proof.
  intros. unfold splice.
  repeat apply Forall_app_2; auto using Forall_take, Forall_drop.
Qed.

(** ** Little and big endian *)

Fixpoint le_get (l : list Z) : Z :=
  match l with
  | [] => 0
  | b :: r => b + 256 * le_get r
  end.

Fixpoint le_put (n : nat) (z : Z) : list Z :=
  match n with
  | O => []
  | S n => z mod 256 :: le_put n (z / 256)
  end.

Definition be_get (l : list Z) : Z := le_get (rev l).
Definition be_put (n : nat) (z : Z) : list Z := rev (le_put n z).

Lemma length_le_put n z : length (le_put n z) = n.
Proof. revert z. induction n; simpl; auto. Qed.

Lemma length_be_put n z : length (be_put n z) = n.
Proof. unfold be_put. rewrite length_rev. apply length_le_put. Qed.

Lemma bytes_ok_le_put n z : bytes_ok (le_put n z).
Proof.
  revert z. induction n; intros; simpl; constructor; auto.
  apply Z.mod_pos_bound. lia.
Qed.

Lemma le_get_range l : bytes_ok l -> 0 <= le_get l < 256 ^ Z.of_nat (length l).
Proof.
  induction 1 as [|b l Hb Hl IH]; simpl le_get; simpl length; [lia|].
  rewrite Nat2Z.inj_succ, Z.pow_succ_r by lia. unfold is_byte in Hb. lia.
Qed.

Lemma le_get_put n z : le_get (le_put n z) = z mod 256 ^ Z.of_nat n.
Proof.
  revert z. induction n; intros; simpl le_put; simpl le_get.
  - rewrite Z.mod_1_r. reflexivity.
  - rewrite IHn, Nat2Z.inj_succ, Z.pow_succ_r by lia.
    rewrite Z.rem_mul_r by lia. lia.
Qed.

Lemma le_put_get l : bytes_ok l -> le_put (length l) (le_get l) = l.
Proof.
  induction 1 as [|b l Hb Hl IH]; simpl; [done|].
  unfold is_byte in Hb.
  replace ((b + 256 * le_get l) mod 256) with b; cycle 1.
  { rewrite Z.mul_comm, Z.mod_add, Z.mod_small; lia. }
  replace ((b + 256 * le_get l) / 256) with (le_get l); cycle 1.
  { rewrite Z.mul_comm, Z.div_add, Z.div_small; lia. }
  by rewrite IH.
Qed.

Lemma le_get_app a b : le_get (a ++ b) = le_get a + 256 ^ Z.of_nat (length a) * le_get b.
Proof.
  induction a as [|x a IH]; simpl le_get; simpl length; [lia|].
  rewrite IH, Nat2Z.inj_succ, Z.pow_succ_r by lia. lia.
Qed.

(** [le_put n] sees its argument modulo [256 ^ n]. *)
Lemma le_put_mod n z z' :
  z mod 256 ^ Z.of_nat n = z' mod 256 ^ Z.of_nat n -> le_put n z = le_put n z'.
Proof.
  intros E. rewrite <- (le_put_get (le_put n z)), <- (le_put_get (le_put n z'))
    by apply bytes_ok_le_put.
  by rewrite !le_get_put, !length_le_put, E.
Qed.

(** ** Bit operations stay within their width *)

Lemma testbit_above a n i : 0 <= a < 2 ^ n -> n <= i -> Z.testbit a i = false.
Proof.
  intros Ha Hi. destruct (Z.ltb_spec n 0).
  - rewrite Z.pow_neg_r in Ha by lia. lia.
  - rewrite <- (Z.mod_small a (2 ^ n)) by lia. apply Z.mod_pow2_bits_high. lia.
Qed.

Lemma range_bits a n :
  0 <= n -> (forall i, n <= i -> Z.testbit a i = false) -> 0 <= a < 2 ^ n.
Proof.
  intros Hn H. replace a with (a mod 2 ^ n); [apply Z.mod_pos_bound; lia|].
  apply Z.bits_inj'. intros i Hi. destruct (Z.ltb_spec i n).
  - apply Z.mod_pow2_bits_low. lia.
  - rewrite Z.mod_pow2_bits_high by lia. by rewrite H.
Qed.

Ltac bit_range :=
  intros; apply range_bits; [lia|]; intros;
  rewrite ?Z.lxor_spec, ?Z.land_spec, ?Z.lor_spec;
  repeat match goal with
  | H : 0 <= ?a < 2 ^ ?n |- context [Z.testbit ?a ?i] =>
      rewrite (testbit_above a n i H) by lia
  end; try reflexivity.

Lemma lxor_range a b n :
  0 <= n -> 0 <= a < 2 ^ n -> 0 <= b < 2 ^ n -> 0 <= Z.lxor a b < 2 ^ n.
Proof. bit_range. Qed.

Lemma lor_range a b n :
  0 <= n -> 0 <= a < 2 ^ n -> 0 <= b < 2 ^ n -> 0 <= Z.lor a b < 2 ^ n.
Proof. bit_range. Qed.

Lemma land_range_r a b n : 0 <= n -> 0 <= b < 2 ^ n -> 0 <= Z.land a b < 2 ^ n.
Proof. bit_range. apply andb_false_r. Qed.

Lemma land_range_l a b n : 0 <= n -> 0 <= a < 2 ^ n -> 0 <= Z.land a b < 2 ^ n.
Proof. bit_range. Qed.

Lemma shiftr_range a k n : 0 <= k -> 0 <= a < 2 ^ n -> 0 <= Z.shiftr a k < 2 ^ n.
Proof.
  intros Hk Ha. rewrite Z.shiftr_div_pow2 by lia.
  split; [apply Z.div_pos; lia|]. apply Z.div_lt_upper_bound; [lia|]. nia.
Qed.

#[export] Hint Resolve lxor_range lor_range shiftr_range : uboot.

Lemma lor_low_high a b n : 0 <= n -> 0 <= a < 2 ^ n -> Z.lor a (b * 2 ^ n) = a + b * 2 ^ n.
Proof.
  intros Hn Ha. rewrite <- Z.add_lor_land.
  replace (Z.land a (b * 2 ^ n)) with 0; [lia|].
  rewrite <- Z.shiftl_mul_pow2 by lia. symmetry. apply Z.bits_inj'. intros i Hi.
  rewrite Z.land_spec, Z.bits_0. destruct (Z.ltb_spec i n).
  - rewrite (Z.shiftl_spec_low b) by lia. btauto.
  - by rewrite (testbit_above a n i).
Qed.

Lemma land_u32 x : Z.land x 0xffffffff = u32 x.
Proof. change 0xffffffff with (Z.ones 32). apply Z.land_ones. lia. Qed.

(** Clearing the low [k] bits of a word with the mask [~(2^k - 1)]. *)
Lemma align_mask k x :
  0 <= k < 32 -> 0 <= x < 2 ^ 32 ->
  Z.land x (u32 (Z.lnot (u32 (2 ^ k - 1)))) = x - x mod 2 ^ k.
Proof.
  intros Hk Hx. assert (0 < 2 ^ k <= 2 ^ 31) by (split; [|apply Z.pow_le_mono_r]; lia).
  rewrite (u32_small (2 ^ k - 1)) by lia.
  replace (2 ^ k - 1) with (Z.ones k) by (rewrite Z.ones_equiv; lia).
  transitivity (Z.ldiff x (Z.ones k)).
  - rewrite <- land_u32. apply Z.bits_inj'. intros i Hi.
    rewrite Z.ldiff_spec, !Z.land_spec, Z.lnot_spec by lia. change 0xffffffff with (Z.ones 32).
    destruct (Z.ltb_spec i 32).
    + rewrite (Z.ones_spec_low 32) by lia. btauto.
    + rewrite (testbit_above x 32) by lia. btauto.
  - rewrite Z.ldiff_ones_r, Z.shiftl_mul_pow2, Z.shiftr_div_pow2 by lia.
    pose proof (Z.div_mod x (2 ^ k)). lia.
Qed.
