(* ===== verification/Mem.v ===== *)
(** * Mem: the byte-addressed memory

    The boot loader runs on bare metal: every address can be read.  Memory
    is a total map from addresses to bytes ([mem]); a C pointer is its
    address, [NULL] is 0.  This file has single-byte updates, byte strings
    at an address ([bytes_at], [store]), NUL-terminated strings ([cstr_at])
    and the frame lemmas about them. *)

From S2P Require Import Prelude.
Local Open Scope Z_scope.

Definition mem := Z -> Z.
Definition NULL : Z := 0.

Definition upd (m : mem) (p v : Z) : mem := fun q => if q =? p then v else m q.

Lemma upd_eq m p v : upd m p v p = v.
Proof. unfold upd. by rewrite Z.eqb_refl. Qed.

Lemma upd_ne m p v q : q <> p -> upd m p v q = m q.
Proof. intros. unfold upd. by rewrite (proj2 (Z.eqb_neq q p)). Qed.

(** The [n] bytes at [p]. *)
Fixpoint bytes_at (m : mem) (p : Z) (n : nat) : list Z :=
  match n with
  | O => []
  | S n => m p :: bytes_at m (p + 1) n
  end.

(** Memory after the bytes [l] were stored from [p] on. *)
Fixpoint store (m : mem) (p : Z) (l : list Z) : mem :=
  match l with
  | [] => m
  | b :: l => store (upd m p b) (p + 1) l
  end.

(** [p] holds the NUL-terminated string [s]. *)
Definition cstr_at (m : mem) (p : Z) (s : list Z) : Prop :=
  bytes_at m p (S (length s)) = s ++ [0] /\ Forall (fun c => c <> 0) s.

(** Two memories that agree on the [n] bytes from [p]. *)
Definition same_on (m m' : mem) (p : Z) (n : nat) : Prop :=
  forall q, p <= q < p + Z.of_nat n -> m' q = m q.

(** Two memories that agree outside the [n] bytes from [p]. *)
Definition same_except (m m' : mem) (p : Z) (n : nat) : Prop :=
  forall q, ~ p <= q < p + Z.of_nat n -> m' q = m q.

Lemma length_bytes_at m p n : length (bytes_at m p n) = n.
Proof. revert p. induction n; simpl; auto. Qed.

Lemma bytes_at_app m p n k :
  bytes_at m p (n + k) = bytes_at m p n ++ bytes_at m (p + Z.of_nat n) k.
Proof.
  revert p. induction n as [|n IH]; intros p; simpl.
  - by rewrite Z.add_0_r.
  - rewrite IH. do 3 f_equal. lia.
Qed.

Lemma bytes_at_lookup m p n i :
  (i < n)%nat -> bytes_at m p n !! i = Some (m (p + Z.of_nat i)).
Proof.
  revert p i. induction n as [|n IH]; intros p [|i] H; simpl; try lia.
  - by rewrite Z.add_0_r.
  - rewrite IH by lia. do 2 f_equal. lia.
Qed.

Lemma bytes_at_ext m m' p n : same_on m m' p n -> bytes_at m' p n = bytes_at m p n.
Proof.
  revert p. induction n as [|n IH]; intros p H; simpl; [done|].
  rewrite IH; [|intros q ?; apply H; lia]. f_equal. apply H. lia.
Qed.

Lemma bytes_at_eq_iff m m' p p' n :
  bytes_at m p n = bytes_at m' p' n <->
  (forall i, 0 <= i < Z.of_nat n -> m (p + i) = m' (p' + i)).
Proof.
  revert p p'. induction n as [|n IH]; intros p p'; simpl.
  - split; [lia|done].
  - split.
    + intros [= H1 H2] i Hi.
      destruct (decide (i = 0)) as [->|]; [by rewrite !Z.add_0_r|].
      pose proof (proj1 (IH (p + 1) (p' + 1)) H2 (i - 1) ltac:(lia)) as E.
      replace (p + i) with (p + 1 + (i - 1)) by lia.
      by replace (p' + i) with (p' + 1 + (i - 1)) by lia.
    + intros H. f_equal.
      * specialize (H 0). rewrite !Z.add_0_r in H. apply H. lia.
      * apply IH. intros i Hi. specialize (H (1 + i)).
        rewrite !Z.add_assoc in H. apply H. lia.
Qed.

Lemma store_app m p l l' :
  store m p (l ++ l') = store (store m p l) (p + Z.of_nat (length l)) l'.
Proof.
  revert m p. induction l as [|b l IH]; intros m p; simpl.
  - by rewrite Z.add_0_r.
  - rewrite IH. f_equal. lia.
Qed.

Lemma store_outside m p l q :
  ~ p <= q < p + Z.of_nat (length l) -> store m p l q = m q.
Proof.
  revert m p. induction l as [|b l IH]; intros m p H; simpl in *; [done|].
  rewrite IH by lia. apply upd_ne. lia.
Qed.

Lemma store_inside m p l q d :
  p <= q < p + Z.of_nat (length l) -> store m p l q = nth (Z.to_nat (q - p)) l d.
Proof.
  revert m p. induction l as [|b l IH]; intros m p H; simpl length in *; [lia|].
  simpl store. destruct (decide (q = p)) as [->|].
  - rewrite store_outside by lia. rewrite upd_eq, Z.sub_diag. done.
  - rewrite IH by lia.
    replace (Z.to_nat (q - p)) with (S (Z.to_nat (q - (p + 1)))) by lia. done.
Qed.

Lemma same_except_store m p l : same_except m (store m p l) p (length l).
Proof. intros q. apply store_outside. Qed.

Lemma bytes_at_store m p l : bytes_at (store m p l) p (length l) = l.
Proof.
  revert m p. induction l as [|b l IH]; intros m p; simpl; [done|].
  rewrite IH, store_outside by lia. by rewrite upd_eq.
Qed.

Lemma bytes_at_store_disj m p l q n :
  q + Z.of_nat n <= p \/ p + Z.of_nat (length l) <= q ->
  bytes_at (store m p l) q n = bytes_at m q n.
Proof. intros. apply bytes_at_ext. intros r ?. apply store_outside. lia. Qed.

(** Storing inside a region rewrites that part of its text. *)
Lemma bytes_at_store_splice m p (off n : nat) l :
  (off + length l <= n)%nat ->
  bytes_at (store m (p + Z.of_nat off) l) p n = splice (bytes_at m p n) off l.
Proof.
  intros Hn. unfold splice.
  replace n with (off + (length l + (n - off - length l)))%nat at 1 by lia.
  rewrite !bytes_at_app, bytes_at_store, !bytes_at_store_disj by lia.
  replace n with (off + (length l + (n - off - length l)))%nat at 2 3 by lia.
  rewrite !bytes_at_app, take_app_length' by (by rewrite length_bytes_at).
  f_equal. f_equal. rewrite app_assoc, drop_app_length'; [done|].
  by rewrite length_app, !length_bytes_at.
Qed.

Lemma take_bytes_at m p (j n : nat) : (j <= n)%nat -> take j (bytes_at m p n) = bytes_at m p j.
Proof.
  intros Hj. replace n with (j + (n - j))%nat by lia.
  by rewrite bytes_at_app, take_app_length' by (by rewrite length_bytes_at).
Qed.

Lemma bytes_at_slice m p (k j n : nat) :
  (k + j <= n)%nat -> bytes_at m (p + Z.of_nat k) j = slice (bytes_at m p n) k j.
Proof.
  intros Hn. unfold slice. replace n with (k + (j + (n - k - j)))%nat by lia.
  rewrite !bytes_at_app, drop_app_length' by (by rewrite length_bytes_at).
  by rewrite take_app_length' by (by rewrite length_bytes_at).
Qed.

(** Putting back what was there. *)
Lemma store_bytes_at m p n q : store m p (bytes_at m p n) q = m q.
Proof.
  destruct (decide (p <= q < p + Z.of_nat n)).
  - rewrite (store_inside _ _ _ _ 0) by (rewrite length_bytes_at; lia).
    rewrite nth_default_lookup, bytes_at_lookup by lia. cbn. f_equal. lia.
  - apply store_outside. by rewrite length_bytes_at.
Qed.

Lemma same_except_on m m' p n q k :
  same_except m m' p n -> q + Z.of_nat k <= p \/ p + Z.of_nat n <= q -> same_on m m' q k.
Proof. intros H ? x ?. apply H. lia. Qed.

Lemma same_on_sub m m' p n q k :
  same_on m m' p n -> p <= q -> q + Z.of_nat k <= p + Z.of_nat n -> same_on m m' q k.
Proof. intros H ?? x ?. apply H. lia. Qed.

Lemma same_on_trans m m' m'' p n : same_on m m' p n -> same_on m' m'' p n -> same_on m m'' p n.
Proof. intros H H' x ?. rewrite H', H; done. Qed.

Lemma same_except_trans m m' m'' p n :
  same_except m m' p n -> same_except m' m'' p n -> same_except m m'' p n.
Proof. intros H H' q Hq. rewrite H', H; auto. Qed.

Lemma same_except_weaken m m' p n p' n' :
  p' <= p -> p + Z.of_nat n <= p' + Z.of_nat n' ->
  same_except m m' p n -> same_except m m' p' n'.
Proof. intros ? ? H q Hq. apply H. lia. Qed.

(** NUL-terminated strings, one character at a time. *)

Lemma cstr_at_nil m p : cstr_at m p [] <-> m p = 0.
Proof.
  unfold cstr_at. simpl. split; [by intros [[= ->] _]|]. intros ->. auto.
Qed.

Lemma cstr_at_cons m p c s :
  cstr_at m p (c :: s) <-> m p = c /\ c <> 0 /\ cstr_at m (p + 1) s.
Proof.
  unfold cstr_at. rewrite Forall_cons. simpl. split.
  - intros [[= -> H] [? ?]]. auto.
  - intros (-> & ? & [H ?]). rewrite H. auto.
Qed.

Lemma cstr_at_ext m m' p s :
  same_on m m' p (S (length s)) -> cstr_at m p s -> cstr_at m' p s.
Proof. intros H [E ?]. split; [|done]. by rewrite (bytes_at_ext m). Qed.

Lemma cstr_at_store m p s :
  Forall (fun c => c <> 0) s -> cstr_at (store m p (s ++ [0])) p s.
Proof.
  intros H. split; [|done].
  replace (S (length s)) with (length (s ++ [0])) by (rewrite length_app; simpl; lia).
  apply bytes_at_store.
Qed.

Lemma cstr_at_inj m p s s' : cstr_at m p s -> cstr_at m p s' -> s = s'.
Proof.
  revert p s'. induction s as [|c s IH]; intros p [|c' s'].
  - done.
  - rewrite cstr_at_nil, cstr_at_cons. intros ? (? & ? & ?). congruence.
  - rewrite cstr_at_nil, cstr_at_cons. intros (? & ? & ?) ?. congruence.
  - rewrite !cstr_at_cons. intros (<- & ? & H1) (<- & ? & H2). f_equal. eauto.
Qed.

(** A little-endian word in memory, and storing one. *)
Definition load16 (m : mem) (p : Z) : Z := le_get (bytes_at m p 2).
Definition load32 (m : mem) (p : Z) : Z := le_get (bytes_at m p 4).
Definition store32 (m : mem) (p v : Z) : mem := store m p (le_put 4 v).

Lemma load32_same m m' p : same_on m m' p 4 -> load32 m' p = load32 m p.
Proof. intros H. unfold load32. by rewrite (bytes_at_ext m). Qed.

(** The text [l] is at [s]. *)
Definition text_at (m : mem) (s : Z) (l : list Z) : Prop := bytes_at m s (length l) = l.

Lemma text_at_app m s l l' :
  text_at m s (l ++ l') <-> text_at m s l /\ text_at m (s + Z.of_nat (length l)) l'.
Proof.
  unfold text_at. rewrite length_app, bytes_at_app. split; [|by intros [-> ->]].
  intros E. apply app_inj_1 in E; [done|apply length_bytes_at].
Qed.

Lemma text_at_cons m s c l : text_at m s (c :: l) <-> m s = c /\ text_at m (s + 1) l.
Proof.
  unfold text_at. cbn [length bytes_at]. split; [by intros [= -> ->]|by intros [-> ->]].
Qed.

Lemma text_at_same m m' s l :
  same_on m m' s (length l) -> text_at m s l -> text_at m' s l.
Proof. unfold text_at. intros H E. by rewrite (bytes_at_ext m). Qed.

Lemma le_get_text m p n v :
  text_at m p (le_put n v) -> le_get (bytes_at m p n) = v mod 256 ^ Z.of_nat n.
Proof. unfold text_at. rewrite length_le_put. intros ->. apply le_get_put. Qed.

Lemma load16_text m p v : text_at m p (le_put 2 v) -> 0 <= v < 2 ^ 16 -> load16 m p = v.
Proof. intros H ?. unfold load16. rewrite (le_get_text m p 2 v) by done. by rewrite Z.mod_small. Qed.

Lemma load32_text m p v : text_at m p (le_put 4 v) -> 0 <= v < 2 ^ 32 -> load32 m p = v.
Proof. intros H ?. unfold load32. rewrite (le_get_text m p 4 v) by done. by rewrite Z.mod_small. Qed.

(** Every cell holds a byte. *)
Definition mem_ok (m : mem) : Prop := forall p, is_byte (m p).

Lemma bytes_ok_bytes_at m p n : mem_ok m -> bytes_ok (bytes_at m p n).
Proof. intros H. revert p. induction n; simpl; constructor; auto. Qed.

Lemma mem_ok_upd m p v : mem_ok m -> is_byte v -> mem_ok (upd m p v).
Proof. intros H ? q. unfold upd. case_match; auto. Qed.

Lemma mem_ok_store m p l : mem_ok m -> bytes_ok l -> mem_ok (store m p l).
Proof.
  intros H Hl. revert m p H. induction Hl; simpl; auto using mem_ok_upd.
Qed.

Lemma store32_load32 m m' p : mem_ok m -> store32 m' p (load32 m p) = store m' p (bytes_at m p 4).
Proof.
  intros Hm. unfold store32, load32. f_equal. rewrite <- (le_put_get (bytes_at m p 4)) at 2;
    [by rewrite length_bytes_at|by apply bytes_ok_bytes_at].
Qed.

Lemma load32_range m p : mem_ok m -> is_u32 (load32 m p).
Proof.
  intros Hm. unfold load32. pose proof (le_get_range (bytes_at m p 4)) as H.
  rewrite length_bytes_at in H. apply H. by apply bytes_ok_bytes_at.
Qed.

Lemma load32_store32 m p v : load32 (store32 m p v) p = v mod 2 ^ 32.
Proof. unfold load32, store32. rewrite <- (length_le_put 4 v) at 1. rewrite bytes_at_store. apply (le_get_put 4). Qed.

Lemma load32_store32_ne m p q v : q + 4 <= p \/ p + 4 <= q -> load32 (store32 m p v) q = load32 m q.
Proof.
  intros Hq. apply load32_same. intros r Hr. apply store_outside. rewrite length_le_put. lia.
Qed.

(** A concrete memory for examples: the bytes [l] at [p], zero elsewhere. *)
Definition mem_of (p : Z) (l : list Z) : mem :=
  fun q => if (p <=? q) && (q <? p + Z.of_nat (length l))
           then nth (Z.to_nat (q - p)) l 0 else 0.

(** A field of [n] bytes that begins with [l]; where [s] is when the strings
    [l] lie in fields of 16 bytes from [p] on; a check that a string is
    there. *)
Definition padded (n : nat) (l : list Z) : list Z := l ++ replicate (n - length l) 0.
Fixpoint literal_addr (l : list (list Z)) (s : list Z) (p : Z) : Z :=
  match l with [] => p | t :: l => if bool_decide (t = s) then p else literal_addr l s (p + 16) end.
Definition is_cstr (m : mem) (p : Z) (s : list Z) : bool :=
  bool_decide (bytes_at m p (S (length s)) = s ++ [0]) && forallb (fun c => negb (c =? 0)) s.

Lemma is_cstr_spec m p s : is_cstr m p s = true -> cstr_at m p s.
Proof.
  intros [H1%bool_decide_eq_true_1 H2]%andb_true_iff. split; [done|]. rewrite forallb_forall in H2.
  apply Forall_forall. intros c Hc Hz. apply list_elem_of_In, H2 in Hc. by rewrite Hz in Hc.
Qed.

#[export] Hint Resolve same_except_store bytes_ok_bytes_at mem_ok_upd mem_ok_store
  bytes_ok_le_put : uboot.
