(* ===== verification/CString.v ===== *)
(** * CString: the C string library (lib_generic/string.c)

    Every routine of lib_generic/string.c as a function on [Mem.mem].
    [char] is unsigned on ARM, [size_t] is 32 bits wide, a pointer is its
    address and NULL is 0.  A loop that stops at a NUL byte takes fuel and
    returns [None] when the fuel runs out before the loop ends; a loop that
    counts a [size_t] down recurses on it.  A function that writes memory
    returns the new memory (its C return value is the pointer argument). *)

From S2P Require Import Prelude Mem.
Local Open Scope Z_scope.

(** ** Copying and concatenation *)

(** Copy characters up to and including the NUL. *)
Fixpoint strcpy (fuel : nat) (m : mem) (dest src : Z) : option mem :=
  match fuel with
  | O => None
  | S fuel =>
      let c := m src in
      let m := upd m dest c in
      if c =? 0 then Some m else strcpy fuel m (dest + 1) (src + 1)
  end.

(** Copy at most [count] characters, stopping after the NUL: no padding. *)
Fixpoint strncpy_loop (m : mem) (dest src : Z) (count : nat) : mem :=
  match count with
  | O => m
  | S count =>
      let c := m src in
      let m := upd m dest c in
      if c =? 0 then m else strncpy_loop m (dest + 1) (src + 1) count
  end.

Definition strncpy (m : mem) (dest src count : Z) : mem :=
  strncpy_loop m dest src (Z.to_nat (u32 count)).

(** Advance to the NUL. *)
Fixpoint skip_to_nul (fuel : nat) (m : mem) (p : Z) : option Z :=
  match fuel with
  | O => None
  | S fuel => if m p =? 0 then Some p else skip_to_nul fuel m (p + 1)
  end.

Definition strcat (fuel : nat) (m : mem) (dest src : Z) : option mem :=
  match skip_to_nul fuel m dest with
  | None => None
  | Some dest => strcpy fuel m dest src
  end.

(** The inner loop of [strncat]; [count] is positive on entry. *)
Fixpoint strncat_loop (m : mem) (dest src : Z) (count : nat) : mem :=
  match count with
  | O => m
  | S count =>
      let c := m src in
      let m := upd m dest c in
      if c =? 0 then m
      else match count with
           | O => upd m (dest + 1) 0
           | S _ => strncat_loop m (dest + 1) (src + 1) count
           end
  end.

Definition strncat (fuel : nat) (m : mem) (dest src count : Z) : option mem :=
  if u32 count =? 0 then Some m
  else match skip_to_nul fuel m dest with
       | None => None
       | Some dest => Some (strncat_loop m dest src (Z.to_nat (u32 count)))
       end.

(** ** Comparison: the difference is kept in a [signed char] *)

Fixpoint strcmp (fuel : nat) (m : mem) (cs ct : Z) : option Z :=
  match fuel with
  | O => None
  | S fuel =>
      let res := s8 (m cs - m ct) in
      if negb (res =? 0) || (m cs =? 0) then Some res
      else strcmp fuel m (cs + 1) (ct + 1)
  end.

Fixpoint strncmp_loop (m : mem) (cs ct : Z) (count : nat) (res : Z) : Z :=
  match count with
  | O => res
  | S count =>
      let res := s8 (m cs - m ct) in
      if negb (res =? 0) || (m cs =? 0) then res
      else strncmp_loop m (cs + 1) (ct + 1) count res
  end.

Definition strncmp (m : mem) (cs ct count : Z) : Z :=
  strncmp_loop m cs ct (Z.to_nat (u32 count)) 0.

(** ** Searching *)

Fixpoint strchr (fuel : nat) (m : mem) (s c : Z) : option Z :=
  match fuel with
  | O => None
  | S fuel =>
      if m s =? u8 c then Some s
      else if m s =? 0 then Some NULL
      else strchr fuel m (s + 1) c
  end.

Definition strlen (fuel : nat) (m : mem) (s : Z) : option Z :=
  match skip_to_nul fuel m s with
  | None => None
  | Some sc => Some (sc - s)
  end.

(** The [do ... while (--p >= s)] loop of [strrchr]: [n] characters before
    [p] are still to be tried. *)
Fixpoint strrchr_loop (m : mem) (p c : Z) (n : nat) : Z :=
  if m p =? u8 c then p
  else match n with
       | O => NULL
       | S n => strrchr_loop m (p - 1) c n
       end.

Definition strrchr (fuel : nat) (m : mem) (s c : Z) : option Z :=
  match strlen fuel m s with
  | None => None
  | Some l => Some (strrchr_loop m (s + l) c (Z.to_nat l))
  end.

(** [for (sc = s; count-- && *sc != 0; ++sc);] *)
Fixpoint strnlen_loop (m : mem) (sc : Z) (count : nat) : Z :=
  match count with
  | O => sc
  | S count => if m sc =? 0 then sc else strnlen_loop m (sc + 1) count
  end.

Definition strnlen (m : mem) (s count : Z) : Z :=
  strnlen_loop m s (Z.to_nat (u32 count)) - s.

(** [malloc] is given by the address it returns, or NULL. *)
Definition strdup (fuel : nat) (malloc : Z -> Z) (m : mem) (s : Z) : option (mem * Z) :=
  if s =? NULL then Some (m, NULL)
  else match strlen fuel m s with
       | None => None
       | Some l =>
           let new := malloc (l + 1) in
           if new =? NULL then Some (m, NULL)
           else match strcpy fuel m new s with
                | None => None
                | Some m => Some (m, new)
                end
       end.

(** The inner loop over the character set of [strspn] and [strpbrk]: the
    character the loop stopped at, 0 for the end of the set. *)
Fixpoint scan_set (fuel : nat) (m : mem) (c a : Z) : option Z :=
  match fuel with
  | O => None
  | S fuel =>
      if m a =? 0 then Some 0
      else if c =? m a then Some (m a)
      else scan_set fuel m c (a + 1)
  end.

Fixpoint strspn_loop (fuel : nat) (m : mem) (p accept count : Z) : option Z :=
  match fuel with
  | O => None
  | S fuel' =>
      if m p =? 0 then Some count
      else match scan_set fuel m (m p) accept with
           | None => None
           | Some a => if a =? 0 then Some count
                       else strspn_loop fuel' m (p + 1) accept (count + 1)
           end
  end.

Definition strspn (fuel : nat) (m : mem) (s accept : Z) : option Z :=
  strspn_loop fuel m s accept 0.

Fixpoint strpbrk (fuel : nat) (m : mem) (sc1 ct : Z) : option Z :=
  match fuel with
  | O => None
  | S fuel' =>
      if m sc1 =? 0 then Some NULL
      else match scan_set fuel m (m sc1) ct with
           | None => None
           | Some a => if a =? 0 then strpbrk fuel' m (sc1 + 1) ct else Some sc1
           end
  end.

(** [strtok] keeps its position in the static [___strtok]; the result is
    the new memory, the new [___strtok] and the token. *)
Definition strtok (fuel : nat) (m : mem) (tok s ct : Z) : option (mem * Z * Z) :=
  let sbegin := if s =? NULL then tok else s in
  if sbegin =? NULL then Some (m, tok, NULL)
  else match strspn fuel m sbegin ct with
       | None => None
       | Some n =>
           let sbegin := sbegin + n in
           if m sbegin =? 0 then Some (m, NULL, NULL)
           else match strpbrk fuel m sbegin ct with
                | None => None
                | Some send =>
                    if negb (send =? NULL) && negb (m send =? 0)
                    then Some (upd m send 0, send + 1, sbegin)
                    else Some (m, send, sbegin)
                end
       end.

(** [strsep(&s, ct)]: the new memory, the new [s] and the token. *)
Definition strsep (fuel : nat) (m : mem) (s ct : Z) : option (mem * Z * Z) :=
  if s =? NULL then Some (m, s, NULL)
  else match strpbrk fuel m s ct with
       | None => None
       | Some e => if e =? NULL then Some (m, NULL, s)
                   else Some (upd m e 0, e + 1, s)
       end.

Fixpoint strswab_loop (fuel : nat) (m : mem) (p q : Z) : option mem :=
  match fuel with
  | O => None
  | S fuel =>
      if (m p =? 0) || (m q =? 0) then Some m
      else let tmp := m p in
           let m := upd m p (m q) in
           let m := upd m q tmp in
           strswab_loop fuel m (p + 2) (q + 2)
  end.

Definition strswab (fuel : nat) (m : mem) (s : Z) : option (mem * Z) :=
  if (s =? NULL) || (m s =? 0) then Some (m, NULL)
  else match strswab_loop fuel m s (s + 1) with
       | None => None
       | Some m => Some (m, s)
       end.

(** ** Counted memory operations *)

Fixpoint memset_loop (m : mem) (xs c : Z) (count : nat) : mem :=
  match count with
  | O => m
  | S count => memset_loop (upd m xs (u8 c)) (xs + 1) c count
  end.

Definition memset (m : mem) (s c count : Z) : mem :=
  memset_loop m s c (Z.to_nat (u32 count)).

(** [while (count--) *tmp++ = *s++;] *)
Fixpoint copy_up (m : mem) (tmp s : Z) (count : nat) : mem :=
  match count with
  | O => m
  | S count => copy_up (upd m tmp (m s)) (tmp + 1) (s + 1) count
  end.

(** [while (count--) *--tmp = *--s;] *)
Fixpoint copy_down (m : mem) (tmp s : Z) (count : nat) : mem :=
  match count with
  | O => m
  | S count => copy_down (upd m (tmp - 1) (m (s - 1))) (tmp - 1) (s - 1) count
  end.

Definition bcopy (m : mem) (src dest count : Z) : mem :=
  copy_up m dest src (Z.to_nat (u32 count)).

Definition memcpy (m : mem) (dest src count : Z) : mem :=
  copy_up m dest src (Z.to_nat (u32 count)).

Definition memmove (m : mem) (dest src count : Z) : mem :=
  let n := Z.to_nat (u32 count) in
  if dest <=? src then copy_up m dest src n
  else copy_down m (dest + u32 count) (src + u32 count) n.

Fixpoint memcmp_loop (m : mem) (su1 su2 : Z) (count : nat) (res : Z) : Z :=
  match count with
  | O => res
  | S count =>
      let res := m su1 - m su2 in
      if res =? 0 then memcmp_loop m (su1 + 1) (su2 + 1) count res else res
  end.

Definition memcmp (m : mem) (cs ct count : Z) : Z :=
  memcmp_loop m cs ct (Z.to_nat (u32 count)) 0.

Fixpoint memscan_loop (m : mem) (p c : Z) (size : nat) : Z :=
  match size with
  | O => p
  | S size => if m p =? c then p else memscan_loop m (p + 1) c size
  end.

Definition memscan (m : mem) (addr c size : Z) : Z :=
  memscan_loop m addr c (Z.to_nat (u32 size)).

(** [strstr]: [l1] is the length of what is left of [s1]. *)
Fixpoint strstr_loop (m : mem) (s1 s2 l2 : Z) (l1 : nat) : Z :=
  if Z.of_nat l1 <? l2 then NULL
  else if memcmp m s1 s2 l2 =? 0 then s1
  else match l1 with
       | O => NULL
       | S l1 => strstr_loop m (s1 + 1) s2 l2 l1
       end.

Definition strstr (fuel : nat) (m : mem) (s1 s2 : Z) : option Z :=
  match strlen fuel m s2 with
  | None => None
  | Some l2 =>
      if l2 =? 0 then Some s1
      else match strlen fuel m s1 with
           | None => None
           | Some l1 => Some (strstr_loop m s1 s2 l2 (Z.to_nat l1))
           end
  end.

Fixpoint memchr_loop (m : mem) (p c : Z) (n : nat) : Z :=
  match n with
  | O => NULL
  | S n => if u8 c =? m p then p else memchr_loop m (p + 1) c n
  end.

Definition memchr (m : mem) (s c n : Z) : Z :=
  memchr_loop m s c (Z.to_nat (u32 n)).

(** * Theorems *)

(** ** Copies *)

Lemma copy_up_spec m d s n q :
  d <= s \/ s + Z.of_nat n <= d ->
  copy_up m d s n q =
  if (d <=? q) && (q <? d + Z.of_nat n) then m (s + (q - d)) else m q.
Proof.
  revert m d s. induction n as [|n IH]; intros m d s H; simpl copy_up.
  - destruct ((d <=? q) && (q <? d + Z.of_nat 0)) eqn:E; [lia|done].
  - rewrite IH by lia. unfold upd.
    repeat case_match; try lia; f_equal; lia.
Qed.

Lemma copy_down_spec m d s n q :
  s <= d \/ d + Z.of_nat n <= s ->
  copy_down m (d + Z.of_nat n) (s + Z.of_nat n) n q =
  if (d <=? q) && (q <? d + Z.of_nat n) then m (s + (q - d)) else m q.
Proof.
  revert m. induction n as [|n IH]; intros m H; simpl copy_down.
  - destruct ((d <=? q) && (q <? d + Z.of_nat 0)) eqn:E; [lia|done].
  - replace (d + Z.of_nat (S n) - 1) with (d + Z.of_nat n) by lia.
    replace (s + Z.of_nat (S n) - 1) with (s + Z.of_nat n) by lia.
    rewrite IH by lia. unfold upd.
    repeat case_match; try lia; f_equal; lia.
Qed.

(** What a correct move of [n] bytes from [s] to [d] leaves. *)
Definition moved (m m' : mem) (d s : Z) (n : nat) : Prop :=
  bytes_at m' d n = bytes_at m s n /\ same_except m m' d n.

Lemma moved_pointwise m m' d s n :
  (forall q, m' q = if (d <=? q) && (q <? d + Z.of_nat n) then m (s + (q - d)) else m q) ->
  moved m m' d s n.
Proof.
  intros H. split.
  - apply bytes_at_eq_iff. intros i Hi. rewrite H.
    case_match; [f_equal; lia|lia].
  - intros q Hq. rewrite H. case_match; [lia|done].
Qed.

Lemma moved_store m d s n : moved m (store m d (bytes_at m s n)) d s n.
Proof.
  split.
  - pose proof (bytes_at_store m d (bytes_at m s n)) as H.
    by rewrite length_bytes_at in H.
  - pose proof (same_except_store m d (bytes_at m s n)) as H.
    by rewrite length_bytes_at in H.
Qed.

Lemma memcpy_moved m d s n :
  is_u32 n -> d <= s \/ s + n <= d -> moved m (memcpy m d s n) d s (Z.to_nat n).
Proof.
  intros Hn H. unfold memcpy. rewrite u32_small by done.
  apply moved_pointwise. intros q. unfold is_u32 in Hn. apply copy_up_spec. lia.
Qed.

(** [memmove] moves [n] bytes correctly whatever the overlap of the two
    regions: afterwards the destination holds what the source held before,
    and no byte outside the destination has changed. *)
Theorem memmove_correct m d s n :
  is_u32 n -> moved m (memmove m d s n) d s (Z.to_nat n).
Proof.
  intros Hn. unfold memmove. rewrite u32_small by done. unfold is_u32 in Hn.
  apply moved_pointwise. intros q. case_match.
  - apply copy_up_spec. lia.
  - replace n with (Z.of_nat (Z.to_nat n)) at 1 2 by lia. apply copy_down_spec. lia.
Qed.

Example memmove_correct_witness :
  is_u32 4 /\
  moved (mem_of 100 [1; 2; 3; 4; 5; 6])
        (memmove (mem_of 100 [1; 2; 3; 4; 5; 6]) 102 100 4) 102 100 4.
Proof.
  split; [unfold is_u32; lia|].
  apply (memmove_correct (mem_of 100 [1; 2; 3; 4; 5; 6]) 102 100 4).
  unfold is_u32. lia.
Defined.

(** The forward copy of [memcpy] does lose data on that input. *)
Example memcpy_overlap :
  bytes_at (memcpy (mem_of 100 [1; 2; 3; 4; 5; 6]) 102 100 4) 102 4 = [1; 2; 1; 2].
Proof. reflexivity. Qed.

Lemma memset_spec m s c n q :
  memset_loop m s c n q =
  if (s <=? q) && (q <? s + Z.of_nat n) then u8 c else m q.
Proof.
  revert m s. induction n as [|n IH]; intros m s; simpl memset_loop.
  - destruct ((s <=? q) && (q <? s + Z.of_nat 0)) eqn:E; [lia|done].
  - rewrite IH. unfold upd. repeat case_match; try lia; done.
Qed.

(** ** Strings *)

Lemma skip_to_nul_spec fuel m p s :
  cstr_at m p s -> (length s < fuel)%nat ->
  skip_to_nul fuel m p = Some (p + Z.of_nat (length s)).
Proof.
  revert fuel p. induction s as [|c s IH]; intros [|fuel] p H Hf; simpl in Hf; try lia.
  - apply cstr_at_nil in H. simpl. rewrite H. simpl. f_equal. lia.
  - apply cstr_at_cons in H as (Hc & Hnz & H). simpl skip_to_nul.
    rewrite Hc, (proj2 (Z.eqb_neq c 0)) by done.
    rewrite IH by (done || lia). simpl. f_equal. lia.
Qed.

Lemma strlen_spec fuel m p s :
  cstr_at m p s -> (length s < fuel)%nat ->
  strlen fuel m p = Some (Z.of_nat (length s)).
Proof.
  intros H Hf. unfold strlen. erewrite skip_to_nul_spec by done. f_equal. lia.
Qed.

Lemma strnlen_loop_spec m p s n :
  cstr_at m p s -> strnlen_loop m p n = p + Z.min (Z.of_nat n) (Z.of_nat (length s)).
Proof.
  revert p s. induction n as [|n IH]; intros p s H; simpl strnlen_loop; [lia|].
  destruct s as [|c s].
  - apply cstr_at_nil in H. rewrite H. simpl. lia.
  - apply cstr_at_cons in H as (Hc & Hnz & H).
    rewrite Hc, (proj2 (Z.eqb_neq c 0)) by done.
    rewrite (IH _ s) by done. simpl length. lia.
Qed.

Lemma strnlen_spec m p s n :
  cstr_at m p s -> is_u32 n -> strnlen m p n = Z.min n (Z.of_nat (length s)).
Proof.
  intros H Hn. unfold strnlen. rewrite u32_small by done. unfold is_u32 in Hn.
  erewrite strnlen_loop_spec by done. lia.
Qed.

Lemma strcpy_spec fuel m d p s :
  cstr_at m p s -> (length s < fuel)%nat ->
  d <= p \/ p + Z.of_nat (length s) < d ->
  exists m', strcpy fuel m d p = Some m' /\
    cstr_at m' d s /\ same_except m m' d (S (length s)).
Proof.
  revert fuel m d p. induction s as [|c s IH]; intros [|fuel] m d p H Hf Hd; simpl in Hf; try lia.
  - apply cstr_at_nil in H. simpl. rewrite H. simpl.
    eexists. split; [done|]. split.
    + apply cstr_at_nil, upd_eq.
    + intros q Hq. apply upd_ne. simpl in Hq. lia.
  - apply cstr_at_cons in H as (Hc & Hnz & H). simpl strcpy. simpl length in Hd.
    rewrite Hc, (proj2 (Z.eqb_neq c 0)) by done.
    assert (Hnz' : Forall (fun c => c <> 0) s) by apply H.
    destruct (IH fuel (upd m d c) (d + 1) (p + 1)) as (m' & E & Hs & Hx).
    + eapply cstr_at_ext; [|exact H]. intros q Hq. apply upd_ne. lia.
    + lia.
    + lia.
    + exists m'. split; [done|]. split.
      * apply cstr_at_cons. split; [|done]. rewrite Hx by lia. apply upd_eq.
      * intros q Hq. simpl length in Hq. rewrite Hx by lia. apply upd_ne. lia.
Qed.

(** [strncpy] stores the string and its NUL when they fit into [n] bytes,
    and the first [n] characters without a NUL when they do not. *)
Definition strncpy_result (s : list Z) (n : nat) : list Z := take n (s ++ [0]).

Lemma strncpy_loop_spec m d p s n :
  cstr_at m p s -> d + Z.of_nat n <= p \/ p + Z.of_nat (length s) < d ->
  forall q, strncpy_loop m d p n q = store m d (strncpy_result s n) q.
Proof.
  revert m d p s. induction n as [|n IH]; intros m d p s H Hd q; simpl strncpy_loop; [done|].
  destruct s as [|c s].
  - apply cstr_at_nil in H. rewrite H. simpl.
    unfold strncpy_result. simpl. by rewrite firstn_nil.
  - apply cstr_at_cons in H as (Hc & Hnz & H). simpl length in Hd.
    rewrite Hc, (proj2 (Z.eqb_neq c 0)) by done.
    rewrite (IH _ _ _ s); [done| |lia].
    eapply cstr_at_ext; [|exact H]. intros q' Hq. apply upd_ne. lia.
Qed.

(** ** Comparison *)

(** The difference of the first characters in which two strings differ. *)
Fixpoint cdiff (s t : list Z) : Z :=
  match s, t with
  | [], [] => 0
  | [], d :: _ => - d
  | c :: _, [] => c
  | c :: s, d :: t => if c =? d then cdiff s t else c - d
  end.

(** Lexicographic order of unsigned characters, as -1, 0 or 1. *)
Fixpoint lex (s t : list Z) : Z :=
  match s, t with
  | [], [] => 0
  | [], _ :: _ => -1
  | _ :: _, [] => 1
  | c :: s, d :: t => if c =? d then lex s t else if c <? d then -1 else 1
  end.

(** Characters of a C string. *)
Definition is_char (c : Z) : Prop := 0 < c < 256.

Lemma s8_zero z : -256 < z < 256 -> s8 z = 0 <-> z = 0.
Proof. words. Qed.

Lemma cdiff_range s t :
  Forall is_char s -> Forall is_char t -> -256 < cdiff s t < 256.
Proof.
  intros Hs. revert t. induction Hs as [|c s Hc Hs IH]; intros t Ht;
    destruct Ht as [|d t Hd Ht]; simpl; unfold is_char in *; try lia.
  case_match; [auto|lia].
Qed.

Lemma cdiff_zero s t :
  Forall is_char s -> Forall is_char t -> cdiff s t = 0 <-> s = t.
Proof.
  intros Hs. revert t. induction Hs as [|c s Hc Hs IH]; intros t Ht;
    destruct Ht as [|d t Hd Ht]; simpl; unfold is_char in *.
  - done.
  - split; [lia|done].
  - split; [lia|done].
  - case_match.
    + rewrite IH by done. split; [intros ->|intros [=]]; f_equal; lia || done.
    + split; [lia|intros [= -> ->]; lia].
Qed.

Lemma cdiff_lex s t :
  Forall (fun c => 0 < c < 128) s -> Forall (fun c => 0 < c < 128) t ->
  Z.sgn (s8 (cdiff s t)) = lex s t.
Proof.
  intros Hs. revert t. induction Hs as [|c s Hc Hs IH]; intros t Ht;
    destruct Ht as [|d t Hd Ht]; simpl in *.
  - done.
  - unfold s8. rewrite Z.mod_small by lia. lia.
  - unfold s8. rewrite Z.mod_small by lia. lia.
  - case_match; [auto|]. unfold s8. rewrite Z.mod_small by lia. case_match; lia.
Qed.

Lemma char7 s :
  Forall is_char s -> Forall (fun c => c < 128) s -> Forall (fun c => 0 < c < 128) s.
Proof.
  intros H. induction H as [|c s Hc Hs IH]; inversion_clear 1; constructor; auto.
  unfold is_char in Hc. lia.
Qed.

Lemma cstr_chars m p s : mem_ok m -> cstr_at m p s -> Forall is_char s.
Proof.
  intros Hm. revert p. induction s as [|c s IH]; intros p H; constructor.
  - apply cstr_at_cons in H as (<- & ? & _). specialize (Hm p).
    unfold is_byte in Hm. unfold is_char. lia.
  - apply cstr_at_cons in H as (_ & _ & H). eauto.
Qed.

Lemma strcmp_spec fuel m p q s t :
  mem_ok m -> cstr_at m p s -> cstr_at m q t -> (length s < fuel)%nat ->
  strcmp fuel m p q = Some (s8 (cdiff s t)).
Proof.
  intros Hm Hs Ht Hf. pose proof (cstr_chars _ _ _ Hm Hs) as Cs.
  pose proof (cstr_chars _ _ _ Hm Ht) as Ct.
  revert fuel p q t Hs Ht Ct Hf.
  induction Cs as [|c s Hc Cs IH]; intros [|fuel] p q t Hs Ht Ct Hf; simpl in Hf; try lia.
  - apply cstr_at_nil in Hs. simpl strcmp. rewrite Hs, orb_true_r.
    destruct Ct as [|d t Hd Ct]; simpl.
    + apply cstr_at_nil in Ht. by rewrite Ht.
    + apply cstr_at_cons in Ht as (-> & _). do 2 f_equal; lia.
  - apply cstr_at_cons in Hs as (Ec & Hnz & Hs). simpl strcmp. rewrite Ec.
    rewrite (proj2 (Z.eqb_neq c 0)), orb_false_r by done. unfold is_char in Hc.
    destruct Ct as [|d t Hd Ct]; simpl.
    + apply cstr_at_nil in Ht. rewrite Ht, Z.sub_0_r.
      rewrite (proj2 (Z.eqb_neq (s8 c) 0)); [done|]. rewrite s8_zero; lia.
    + apply cstr_at_cons in Ht as (-> & _ & Ht). unfold is_char in Hd.
      destruct (Z.eqb_spec c d) as [->|].
      * rewrite Z.sub_diag. simpl. apply IH; done || lia.
      * rewrite (proj2 (Z.eqb_neq (s8 (c - d)) 0)); [done|]. rewrite s8_zero; lia.
Qed.

Lemma strncmp_loop_spec m p q s t n :
  mem_ok m -> cstr_at m p s -> cstr_at m q t ->
  strncmp_loop m p q n 0 = s8 (cdiff (take n s) (take n t)).
Proof.
  intros Hm Hs Ht. pose proof (cstr_chars _ _ _ Hm Hs) as Cs.
  pose proof (cstr_chars _ _ _ Hm Ht) as Ct.
  revert n p q t Hs Ht Ct.
  induction Cs as [|c s Hc Cs IH]; intros [|n] p q t Hs Ht Ct; simpl strncmp_loop; try done.
  - apply cstr_at_nil in Hs. rewrite Hs, orb_true_r.
    destruct Ct as [|d t Hd Ct]; simpl.
    + apply cstr_at_nil in Ht. by rewrite Ht.
    + apply cstr_at_cons in Ht as (-> & _). done.
  - apply cstr_at_cons in Hs as (Ec & Hnz & Hs). rewrite Ec.
    rewrite (proj2 (Z.eqb_neq c 0)), orb_false_r by done. unfold is_char in Hc.
    destruct Ct as [|d t Hd Ct]; simpl.
    + apply cstr_at_nil in Ht. rewrite Ht, Z.sub_0_r.
      rewrite (proj2 (Z.eqb_neq (s8 c) 0)); [done|]. rewrite s8_zero; lia.
    + apply cstr_at_cons in Ht as (-> & _ & Ht). unfold is_char in Hd.
      destruct (Z.eqb_spec c d) as [->|].
      * rewrite Z.sub_diag. change (s8 0) with 0. simpl. by apply IH.
      * rewrite (proj2 (Z.eqb_neq (s8 (c - d)) 0)); [done|]. rewrite s8_zero; lia.
Qed.

(** [strncmp] finds no difference exactly when the first [n] characters agree. *)
Lemma strncmp_zero m p q s t n :
  mem_ok m -> cstr_at m p s -> cstr_at m q t -> is_u32 n ->
  strncmp m p q n = 0 <-> take (Z.to_nat n) s = take (Z.to_nat n) t.
Proof.
  intros Hm Hs Ht Hn. unfold strncmp. rewrite u32_small by done.
  pose proof (cstr_chars _ _ _ Hm Hs) as Cs.
  pose proof (cstr_chars _ _ _ Hm Ht) as Ct.
  apply (Forall_take _ (Z.to_nat n)) in Cs, Ct.
  erewrite strncmp_loop_spec by done.
  rewrite s8_zero by (by apply cdiff_range). by apply cdiff_zero.
Qed.

(** [strcmp] terminates on NUL-terminated strings, returns zero exactly
    for equal strings, and on 7-bit strings its sign is the lexicographic
    order of the two strings. *)
Theorem strcmp_correct fuel m p q s t :
  mem_ok m -> cstr_at m p s -> cstr_at m q t -> (length s < fuel)%nat ->
  exists r, strcmp fuel m p q = Some r /\ (r = 0 <-> s = t) /\
    (Forall (fun c => c < 128) (s ++ t) -> Z.sgn r = lex s t).
Proof.
  intros Hm Hs Ht Hf. pose proof (cstr_chars _ _ _ Hm Hs) as Cs.
  pose proof (cstr_chars _ _ _ Hm Ht) as Ct.
  exists (s8 (cdiff s t)). split; [by apply strcmp_spec|]. split.
  - rewrite s8_zero by (by apply cdiff_range). by apply cdiff_zero.
  - rewrite Forall_app. intros [H7s H7t].
    apply cdiff_lex; by apply char7.
Qed.

Lemma mem_ok_mem_of p l : bytes_ok l -> mem_ok (mem_of p l).
Proof.
  intros H q. unfold mem_of. case_match; [|unfold is_byte; lia].
  rewrite nth_default_lookup. destruct (l !! _) eqn:E; simpl; [|unfold is_byte; lia].
  eapply Forall_lookup_1; eauto.
Qed.

(** "abc" at 16 and "abd" at 32. *)
Definition two_strings : mem :=
  mem_of 16 ([97; 98; 99; 0] ++ repeat 0 12 ++ [97; 98; 100; 0]).

Lemma mem_ok_two_strings : mem_ok two_strings.
Proof. apply mem_ok_mem_of. repeat constructor; by unfold is_byte. Qed.

Example strcmp_correct_witness :
  exists r, strcmp 10 two_strings 16 32 = Some r /\
    (r = 0 <-> [97; 98; 99] = [97; 98; 100]) /\
    (Forall (fun c => c < 128) ([97; 98; 99] ++ [97; 98; 100]) ->
     Z.sgn r = lex [97; 98; 99] [97; 98; 100]).
Proof.
  apply (strcmp_correct 10 two_strings 16 32 [97; 98; 99] [97; 98; 100]).
  - apply mem_ok_two_strings.
  - split; [reflexivity|]. repeat constructor; lia.
  - split; [reflexivity|]. repeat constructor; lia.
  - simpl. lia.
Defined.

(** Outside 7-bit strings the sign of [strcmp] is wrong: the result is
    kept in a [signed char], so a one-character string with a larger
    character can compare as smaller. *)
Theorem strcmp_sign_wraps :
  let m := mem_of 16 [200; 0; 72; 0] in
  cstr_at m 16 [200] /\ cstr_at m 18 [72] /\ lex [200] [72] = 1 /\
  exists r, strcmp 2 m 16 18 = Some r /\ r < 0.
Proof.
  simpl. repeat split; try (repeat constructor; lia).
  exists (-128). split; [reflexivity|lia].
Qed.

(** ** Searching and splitting *)

Lemma memcmp_loop_zero m p q n :
  memcmp_loop m p q n 0 = 0 <-> bytes_at m p n = bytes_at m q n.
Proof.
  revert p q. induction n as [|n IH]; intros p q; simpl; [done|].
  destruct (Z.eqb_spec (m p - m q) 0) as [E|E].
  - rewrite E, IH. split; [intros ->; f_equal; lia|by intros [= _ ->]].
  - split; [lia|intros [= ? _]; lia].
Qed.

Lemma memcmp_zero m p q n :
  is_u32 n ->
  memcmp m p q n = 0 <-> bytes_at m p (Z.to_nat n) = bytes_at m q (Z.to_nat n).
Proof. intros. unfold memcmp. rewrite u32_small by done. apply memcmp_loop_zero. Qed.

Lemma cstr_bytes m p s : cstr_at m p s -> bytes_at m p (length s) = s.
Proof.
  intros [E _]. replace (S (length s)) with (length s + 1)%nat in E by lia.
  rewrite bytes_at_app in E. apply app_inj_1 in E as [E _]; [done|].
  apply length_bytes_at.
Qed.

Lemma cstr_at_drop m p s i :
  (i <= length s)%nat -> cstr_at m p s -> cstr_at m (p + Z.of_nat i) (drop i s).
Proof.
  revert p s. induction i as [|i IH]; intros p s Hi H; simpl.
  - by rewrite Z.add_0_r, drop_0.
  - destruct s as [|c s]; simpl in *; [lia|].
    apply cstr_at_cons in H as (_ & _ & H). apply (IH (p + 1)) in H; [|lia].
    by replace (p + Z.of_nat (S i)) with (p + 1 + Z.of_nat i) by lia.
Qed.

Lemma cstr_at_app_r m p a b : cstr_at m p (a ++ b) -> cstr_at m (p + Z.of_nat (length a)) b.
Proof.
  intros H. apply (cstr_at_drop _ _ _ (length a)) in H; [|rewrite length_app; lia].
  by rewrite drop_app_length in H.
Qed.

(** [t] occurs at position [i] of [s]. *)
Definition occurs_at (t s : list Z) (i : nat) : Prop := take (length t) (drop i s) = t.

Lemma strstr_loop_spec m p q s t :
  p > 0 -> cstr_at m p s -> cstr_at m q t -> Z.of_nat (length t) < 2 ^ 32 ->
  let r := strstr_loop m p q (Z.of_nat (length t)) (length s) in
  (t <> [] -> r = NULL -> forall i, ~ occurs_at t s i) /\
  (r <> NULL -> exists i, r = p + Z.of_nat i /\ (i <= length s)%nat /\ occurs_at t s i /\
     forall j, (j < i)%nat -> ~ occurs_at t s j).
Proof.
  intros Hp Hs Ht Hl. revert p Hp Hs. unfold occurs_at, NULL.
  induction s as [|c s IH]; intros p Hp Hs; simpl.
  - destruct (Z.ltb_spec (Z.of_nat 0) (Z.of_nat (length t))).
    + split; [|done]. intros _ _ i. rewrite drop_nil, firstn_nil. by destruct t.
    + destruct t; [|simpl in *; lia]. simpl. split; [done|].
      intros. exists 0%nat. simpl in *. repeat split; lia.
  - destruct (Z.ltb_spec (Z.of_nat (S (length s))) (Z.of_nat (length t))) as [Hlt|Hge].
    + split; [|done]. intros _ _ i E. apply (f_equal length) in E.
      rewrite length_take, length_drop in E. simpl in E. lia.
    + assert (Hm : memcmp m p q (Z.of_nat (length t)) = 0 <-> take (length t) (c :: s) = t).
      { rewrite memcmp_zero, Nat2Z.id by (unfold is_u32; lia).
        rewrite (cstr_bytes m q t) by done.
        rewrite <- (cstr_bytes m p (c :: s) Hs) at 1.
        replace (length (c :: s)) with (length t + (length (c :: s) - length t))%nat
          by (simpl; lia).
        rewrite bytes_at_app, take_app_length' by (by rewrite length_bytes_at). done. }
      destruct (Z.eqb_spec (memcmp m p q (Z.of_nat (length t))) 0) as [E|E].
      * split; [lia|]. intros. exists 0%nat.
        repeat split; try lia. by apply Hm.
      * apply cstr_at_cons in Hs as (_ & _ & Hs).
        destruct (IH (p + 1) ltac:(lia) Hs) as [IH1 IH2].
        split.
        -- intros Hne Hr [|i]; [by rewrite drop_0, <- Hm|]. by apply IH1.
        -- intros Hr. destruct (IH2 Hr) as (i & -> & ? & ? & Hmin).
           exists (S i). repeat split; try lia; [done|].
           intros [|j] Hj; [by rewrite drop_0, <- Hm|]. apply Hmin. lia.
Qed.

(** [strstr] terminates on NUL-terminated strings and returns the first
    occurrence of the second string in the first, or NULL when there is none. *)
Theorem strstr_first fuel m p q s t :
  p > 0 -> cstr_at m p s -> cstr_at m q t -> Z.of_nat (length t) < 2 ^ 32 ->
  (length s < fuel)%nat -> (length t < fuel)%nat ->
  exists r, strstr fuel m p q = Some r /\
    (r = NULL -> forall i, ~ occurs_at t s i) /\
    (r <> NULL -> exists i, r = p + Z.of_nat i /\ (i <= length s)%nat /\
       occurs_at t s i /\ forall j, (j < i)%nat -> ~ occurs_at t s j).
Proof.
  intros Hp Hs Ht Hl Fs Ft. unfold strstr.
  rewrite (strlen_spec _ _ _ t), (strlen_spec _ _ _ s) by done.
  destruct (Z.eqb_spec (Z.of_nat (length t)) 0) as [E|E].
  - destruct t; [|simpl in *; lia]. exists p. split; [done|].
    split; [unfold NULL; lia|]. intros _. exists 0%nat.
    repeat split; try lia.
  - eexists. split; [done|]. rewrite Nat2Z.id.
    destruct (strstr_loop_spec m p q s t) as [H1 H2]; try done.
    split; [|done]. apply H1. by destruct t.
Qed.

(** "ababc" at 16 and "abc" at 32. *)
Definition two_strings' : mem :=
  mem_of 16 ([97; 98; 97; 98; 99; 0] ++ repeat 0 10 ++ [97; 98; 99; 0]).

Example strstr_first_witness :
  strstr 10 two_strings' 16 32 = Some 18 /\
  exists r, strstr 10 two_strings' 16 32 = Some r /\
    (r = NULL -> forall i, ~ occurs_at [97; 98; 99] [97; 98; 97; 98; 99] i) /\
    (r <> NULL -> exists i, r = 16 + Z.of_nat i /\ (i <= 5)%nat /\
       occurs_at [97; 98; 99] [97; 98; 97; 98; 99] i /\
       forall j, (j < i)%nat -> ~ occurs_at [97; 98; 99] [97; 98; 97; 98; 99] j).
Proof.
  split; [reflexivity|].
  apply (strstr_first 10 two_strings' 16 32 [97; 98; 97; 98; 99] [97; 98; 99]).
  - lia.
  - split; [reflexivity|]. repeat constructor; lia.
  - split; [reflexivity|]. repeat constructor; lia.
  - simpl. lia.
  - simpl. lia.
  - simpl. lia.
Defined.

Lemma scan_set_spec fuel m c a set :
  c <> 0 -> cstr_at m a set -> (length set < fuel)%nat ->
  scan_set fuel m c a = Some (if decide (c ∈ set) then c else 0).
Proof.
  intros Hc. revert fuel a. induction set as [|d set IH]; intros [|fuel] a H Hf;
    simpl in Hf; try lia; simpl scan_set.
  - apply cstr_at_nil in H. rewrite H. done.
  - apply cstr_at_cons in H as (Ed & Hnz & H). rewrite Ed.
    rewrite (proj2 (Z.eqb_neq d 0)) by done.
    destruct (Z.eqb_spec c d) as [->|].
    + destruct (decide (d ∈ d :: set)) as [|Hn]; [done|]. exfalso. apply Hn. by left.
    + rewrite IH by (done || lia). f_equal.
      destruct (decide (c ∈ set)) as [Hi|Hi], (decide (c ∈ d :: set)) as [Hj|Hj];
        try done; exfalso; rewrite elem_of_cons in *; tauto.
Qed.

(** The characters of [s] before the first one of [set]. *)
Fixpoint break_set (set s : list Z) : list Z * list Z :=
  match s with
  | [] => ([], [])
  | c :: s' => if decide (c ∈ set) then ([], s)
               else let '(a, b) := break_set set s' in (c :: a, b)
  end.

Lemma break_set_app set s : (break_set set s).1 ++ (break_set set s).2 = s.
Proof.
  induction s as [|c s IH]; simpl; [done|]. case_decide; [done|].
  destruct (break_set set s) as [a b] eqn:E. simpl in *. by f_equal.
Qed.

Lemma strpbrk_spec fuel m p q s set :
  cstr_at m p s -> cstr_at m q set -> (length s + length set < fuel)%nat ->
  strpbrk fuel m p q = Some (match (break_set set s).2 with
                             | [] => NULL
                             | _ => p + Z.of_nat (length (break_set set s).1)
                             end).
Proof.
  revert fuel p. induction s as [|c s IH]; intros [|fuel] p Hs Hq Hf; simpl in Hf; try lia;
    simpl strpbrk.
  - apply cstr_at_nil in Hs. by rewrite Hs.
  - apply cstr_at_cons in Hs as (Ec & Hnz & Hs). rewrite Ec.
    rewrite (proj2 (Z.eqb_neq c 0)) by done.
    change (if m q =? 0 then Some 0 else if c =? m q then Some (m q) else scan_set fuel m c (q + 1))
      with (scan_set (S fuel) m c q).
    rewrite (scan_set_spec _ _ _ _ set) by (done || lia). simpl break_set.
    case_decide.
    + rewrite (proj2 (Z.eqb_neq c 0)) by done. simpl. f_equal. lia.
    + simpl. rewrite IH by (done || lia).
      destruct (break_set set s) as [a [|d b]]; simpl; [done|]. f_equal. lia.
Qed.

(** [strsep] splits at the first character of the delimiter set: the
    token ends there, the rest starts right after it, empty tokens are kept,
    and without a delimiter the whole string is the token and the rest NULL. *)
Theorem strsep_splits fuel m p q s set :
  p > 0 -> cstr_at m p s -> cstr_at m q set -> (length s + length set < fuel)%nat ->
  let '(a, b) := break_set set s in
  match b with
  | [] => strsep fuel m p q = Some (m, NULL, p) /\ s = a
  | c :: b => exists m' p', strsep fuel m p q = Some (m', p', p) /\
      cstr_at m' p a /\ cstr_at m' p' b /\ s = a ++ c :: b /\ c ∈ set /\
      Forall (fun c => c ∉ set) a /\ same_except m m' (p + Z.of_nat (length a)) 1
  end.
Proof.
  intros Hp Hs Hq Hf. unfold strsep. rewrite (proj2 (Z.eqb_neq p NULL)) by (unfold NULL; lia).
  rewrite (strpbrk_spec _ _ _ _ s set) by done.
  pose proof (break_set_app set s) as Eapp.
  assert (Hset : Forall (fun c => c ∉ set) (break_set set s).1 /\
                 forall c b, (break_set set s).2 = c :: b -> c ∈ set).
  { clear. induction s as [|c s [IH1 IH2]]; simpl; [by split|].
    case_decide; simpl.
    - split; [by constructor|]. intros ? ? [= -> _]. done.
    - destruct (break_set set s) as [a b]. simpl in *. split; [by constructor|done]. }
  destruct (break_set set s) as [a [|c b]]; simpl in *.
  - rewrite app_nil_r in Eapp. done.
  - destruct Hset as [Ha Hc]. specialize (Hc _ _ eq_refl).
    rewrite (proj2 (Z.eqb_neq _ NULL)) by (unfold NULL; lia).
    eexists _, _. split; [done|]. subst s.
    pose proof (cstr_at_app_r _ _ _ _ Hs) as Hd. apply cstr_at_cons in Hd as (Ec & Hnz & Hb).
    assert (Hnz' : Forall (fun c => c <> 0) a) by (destruct Hs as [_ Hnz']; apply Forall_app in Hnz'; tauto).
    split; [split; [|done]|]; [|split; [|repeat split; try done]].
    + replace (S (length a)) with (length a + 1)%nat by lia.
      rewrite bytes_at_app. simpl. rewrite upd_eq. f_equal.
      rewrite (bytes_at_ext m) by (intros r ?; apply upd_ne; lia).
      apply cstr_bytes in Hs. rewrite length_app, bytes_at_app in Hs.
      apply app_inj_1 in Hs as [? _]; [done|]. apply length_bytes_at.
    + eapply cstr_at_ext; [|exact Hb]. intros r ?. apply upd_ne. lia.
    + intros r Hr. apply upd_ne. lia.
Qed.

(** "ab,c" at 16 and "," at 32. *)
Definition csv : mem := mem_of 16 ([97; 98; 44; 99; 0] ++ repeat 0 11 ++ [44; 0]).

Example strsep_splits_witness :
  exists m' p', strsep 10 csv 16 32 = Some (m', p', 16) /\
      cstr_at m' 16 [97; 98] /\ cstr_at m' p' [99] /\
      [97; 98; 44; 99] = [97; 98] ++ 44 :: [99] /\ 44 ∈ [44] /\
      Forall (fun c => c ∉ [44]) [97; 98] /\ same_except csv m' (16 + 2) 1.
Proof.
  apply (strsep_splits 10 csv 16 32 [97; 98; 44; 99] [44]).
  - lia.
  - split; [reflexivity|]. repeat constructor; lia.
  - split; [reflexivity|]. repeat constructor; lia.
  - simpl. lia.
Defined.
