(* ===== verification/Crc.v ===== *)
(** * Crc: the checksums of the boot loader

    - [Crc32]: lib_generic/crc32.c ([crc32], [crc32_no_comp], [crc32_wd],
      [make_crc_table]), infotm/drivers/secure/crc32.c (the incremental
      [crc32_init], [crc32_data], [crc32_value] behind the IUW hash
      interface) and the [sparse_crc32] of infotm/strategy/burn/sparse.c
      with the table of include/sparse_crc32.h;
    - [Crc16]: lib_generic/crc16.c;
    - [Adler]: lib_generic/adler32.c.

    A buffer is the list of its bytes and its length is the length of the
    list.  The table-driven, eight-times unrolled routines are proved equal
    to the bit-by-bit definition of the polynomial division. *)

From S2P Require Import Prelude.
Local Open Scope Z_scope.

Module Crc32.

(** The constant tables, as they stand in the three sources. *)
Definition crc_table : list Z :=
  [
   0x00000000; 0x77073096; 0xee0e612c; 0x990951ba; 0x076dc419; 0x706af48f;
   0xe963a535; 0x9e6495a3; 0x0edb8832; 0x79dcb8a4; 0xe0d5e91e; 0x97d2d988;
   0x09b64c2b; 0x7eb17cbd; 0xe7b82d07; 0x90bf1d91; 0x1db71064; 0x6ab020f2;
   0xf3b97148; 0x84be41de; 0x1adad47d; 0x6ddde4eb; 0xf4d4b551; 0x83d385c7;
   0x136c9856; 0x646ba8c0; 0xfd62f97a; 0x8a65c9ec; 0x14015c4f; 0x63066cd9;
   0xfa0f3d63; 0x8d080df5; 0x3b6e20c8; 0x4c69105e; 0xd56041e4; 0xa2677172;
   0x3c03e4d1; 0x4b04d447; 0xd20d85fd; 0xa50ab56b; 0x35b5a8fa; 0x42b2986c;
   0xdbbbc9d6; 0xacbcf940; 0x32d86ce3; 0x45df5c75; 0xdcd60dcf; 0xabd13d59;
   0x26d930ac; 0x51de003a; 0xc8d75180; 0xbfd06116; 0x21b4f4b5; 0x56b3c423;
   0xcfba9599; 0xb8bda50f; 0x2802b89e; 0x5f058808; 0xc60cd9b2; 0xb10be924;
   0x2f6f7c87; 0x58684c11; 0xc1611dab; 0xb6662d3d; 0x76dc4190; 0x01db7106;
   0x98d220bc; 0xefd5102a; 0x71b18589; 0x06b6b51f; 0x9fbfe4a5; 0xe8b8d433;
   0x7807c9a2; 0x0f00f934; 0x9609a88e; 0xe10e9818; 0x7f6a0dbb; 0x086d3d2d;
   0x91646c97; 0xe6635c01; 0x6b6b51f4; 0x1c6c6162; 0x856530d8; 0xf262004e;
   0x6c0695ed; 0x1b01a57b; 0x8208f4c1; 0xf50fc457; 0x65b0d9c6; 0x12b7e950;
   0x8bbeb8ea; 0xfcb9887c; 0x62dd1ddf; 0x15da2d49; 0x8cd37cf3; 0xfbd44c65;
   0x4db26158; 0x3ab551ce; 0xa3bc0074; 0xd4bb30e2; 0x4adfa541; 0x3dd895d7;
   0xa4d1c46d; 0xd3d6f4fb; 0x4369e96a; 0x346ed9fc; 0xad678846; 0xda60b8d0;
   0x44042d73; 0x33031de5; 0xaa0a4c5f; 0xdd0d7cc9; 0x5005713c; 0x270241aa;
   0xbe0b1010; 0xc90c2086; 0x5768b525; 0x206f85b3; 0xb966d409; 0xce61e49f;
   0x5edef90e; 0x29d9c998; 0xb0d09822; 0xc7d7a8b4; 0x59b33d17; 0x2eb40d81;
   0xb7bd5c3b; 0xc0ba6cad; 0xedb88320; 0x9abfb3b6; 0x03b6e20c; 0x74b1d29a;
   0xead54739; 0x9dd277af; 0x04db2615; 0x73dc1683; 0xe3630b12; 0x94643b84;
   0x0d6d6a3e; 0x7a6a5aa8; 0xe40ecf0b; 0x9309ff9d; 0x0a00ae27; 0x7d079eb1;
   0xf00f9344; 0x8708a3d2; 0x1e01f268; 0x6906c2fe; 0xf762575d; 0x806567cb;
   0x196c3671; 0x6e6b06e7; 0xfed41b76; 0x89d32be0; 0x10da7a5a; 0x67dd4acc;
   0xf9b9df6f; 0x8ebeeff9; 0x17b7be43; 0x60b08ed5; 0xd6d6a3e8; 0xa1d1937e;
   0x38d8c2c4; 0x4fdff252; 0xd1bb67f1; 0xa6bc5767; 0x3fb506dd; 0x48b2364b;
   0xd80d2bda; 0xaf0a1b4c; 0x36034af6; 0x41047a60; 0xdf60efc3; 0xa867df55;
   0x316e8eef; 0x4669be79; 0xcb61b38c; 0xbc66831a; 0x256fd2a0; 0x5268e236;
   0xcc0c7795; 0xbb0b4703; 0x220216b9; 0x5505262f; 0xc5ba3bbe; 0xb2bd0b28;
   0x2bb45a92; 0x5cb36a04; 0xc2d7ffa7; 0xb5d0cf31; 0x2cd99e8b; 0x5bdeae1d;
   0x9b64c2b0; 0xec63f226; 0x756aa39c; 0x026d930a; 0x9c0906a9; 0xeb0e363f;
   0x72076785; 0x05005713; 0x95bf4a82; 0xe2b87a14; 0x7bb12bae; 0x0cb61b38;
   0x92d28e9b; 0xe5d5be0d; 0x7cdcefb7; 0x0bdbdf21; 0x86d3d2d4; 0xf1d4e242;
   0x68ddb3f8; 0x1fda836e; 0x81be16cd; 0xf6b9265b; 0x6fb077e1; 0x18b74777;
   0x88085ae6; 0xff0f6a70; 0x66063bca; 0x11010b5c; 0x8f659eff; 0xf862ae69;
   0x616bffd3; 0x166ccf45; 0xa00ae278; 0xd70dd2ee; 0x4e048354; 0x3903b3c2;
   0xa7672661; 0xd06016f7; 0x4969474d; 0x3e6e77db; 0xaed16a4a; 0xd9d65adc;
   0x40df0b66; 0x37d83bf0; 0xa9bcae53; 0xdebb9ec5; 0x47b2cf7f; 0x30b5ffe9;
   0xbdbdf21c; 0xcabac28a; 0x53b39330; 0x24b4a3a6; 0xbad03605; 0xcdd70693;
   0x54de5729; 0x23d967bf; 0xb3667a2e; 0xc4614ab8; 0x5d681b02; 0x2a6f2b94;
   0xb40bbe37; 0xc30c8ea1; 0x5a05df1b; 0x2d02ef8d].

Definition infotm_crc_table : list Z :=
  [
   0x00000000; 0x77073096; 0xee0e612c; 0x990951ba; 0x076dc419; 0x706af48f;
   0xe963a535; 0x9e6495a3; 0x0edb8832; 0x79dcb8a4; 0xe0d5e91e; 0x97d2d988;
   0x09b64c2b; 0x7eb17cbd; 0xe7b82d07; 0x90bf1d91; 0x1db71064; 0x6ab020f2;
   0xf3b97148; 0x84be41de; 0x1adad47d; 0x6ddde4eb; 0xf4d4b551; 0x83d385c7;
   0x136c9856; 0x646ba8c0; 0xfd62f97a; 0x8a65c9ec; 0x14015c4f; 0x63066cd9;
   0xfa0f3d63; 0x8d080df5; 0x3b6e20c8; 0x4c69105e; 0xd56041e4; 0xa2677172;
   0x3c03e4d1; 0x4b04d447; 0xd20d85fd; 0xa50ab56b; 0x35b5a8fa; 0x42b2986c;
   0xdbbbc9d6; 0xacbcf940; 0x32d86ce3; 0x45df5c75; 0xdcd60dcf; 0xabd13d59;
   0x26d930ac; 0x51de003a; 0xc8d75180; 0xbfd06116; 0x21b4f4b5; 0x56b3c423;
   0xcfba9599; 0xb8bda50f; 0x2802b89e; 0x5f058808; 0xc60cd9b2; 0xb10be924;
   0x2f6f7c87; 0x58684c11; 0xc1611dab; 0xb6662d3d; 0x76dc4190; 0x01db7106;
   0x98d220bc; 0xefd5102a; 0x71b18589; 0x06b6b51f; 0x9fbfe4a5; 0xe8b8d433;
   0x7807c9a2; 0x0f00f934; 0x9609a88e; 0xe10e9818; 0x7f6a0dbb; 0x086d3d2d;
   0x91646c97; 0xe6635c01; 0x6b6b51f4; 0x1c6c6162; 0x856530d8; 0xf262004e;
   0x6c0695ed; 0x1b01a57b; 0x8208f4c1; 0xf50fc457; 0x65b0d9c6; 0x12b7e950;
   0x8bbeb8ea; 0xfcb9887c; 0x62dd1ddf; 0x15da2d49; 0x8cd37cf3; 0xfbd44c65;
   0x4db26158; 0x3ab551ce; 0xa3bc0074; 0xd4bb30e2; 0x4adfa541; 0x3dd895d7;
   0xa4d1c46d; 0xd3d6f4fb; 0x4369e96a; 0x346ed9fc; 0xad678846; 0xda60b8d0;
   0x44042d73; 0x33031de5; 0xaa0a4c5f; 0xdd0d7cc9; 0x5005713c; 0x270241aa;
   0xbe0b1010; 0xc90c2086; 0x5768b525; 0x206f85b3; 0xb966d409; 0xce61e49f;
   0x5edef90e; 0x29d9c998; 0xb0d09822; 0xc7d7a8b4; 0x59b33d17; 0x2eb40d81;
   0xb7bd5c3b; 0xc0ba6cad; 0xedb88320; 0x9abfb3b6; 0x03b6e20c; 0x74b1d29a;
   0xead54739; 0x9dd277af; 0x04db2615; 0x73dc1683; 0xe3630b12; 0x94643b84;
   0x0d6d6a3e; 0x7a6a5aa8; 0xe40ecf0b; 0x9309ff9d; 0x0a00ae27; 0x7d079eb1;
   0xf00f9344; 0x8708a3d2; 0x1e01f268; 0x6906c2fe; 0xf762575d; 0x806567cb;
   0x196c3671; 0x6e6b06e7; 0xfed41b76; 0x89d32be0; 0x10da7a5a; 0x67dd4acc;
   0xf9b9df6f; 0x8ebeeff9; 0x17b7be43; 0x60b08ed5; 0xd6d6a3e8; 0xa1d1937e;
   0x38d8c2c4; 0x4fdff252; 0xd1bb67f1; 0xa6bc5767; 0x3fb506dd; 0x48b2364b;
   0xd80d2bda; 0xaf0a1b4c; 0x36034af6; 0x41047a60; 0xdf60efc3; 0xa867df55;
   0x316e8eef; 0x4669be79; 0xcb61b38c; 0xbc66831a; 0x256fd2a0; 0x5268e236;
   0xcc0c7795; 0xbb0b4703; 0x220216b9; 0x5505262f; 0xc5ba3bbe; 0xb2bd0b28;
   0x2bb45a92; 0x5cb36a04; 0xc2d7ffa7; 0xb5d0cf31; 0x2cd99e8b; 0x5bdeae1d;
   0x9b64c2b0; 0xec63f226; 0x756aa39c; 0x026d930a; 0x9c0906a9; 0xeb0e363f;
   0x72076785; 0x05005713; 0x95bf4a82; 0xe2b87a14; 0x7bb12bae; 0x0cb61b38;
   0x92d28e9b; 0xe5d5be0d; 0x7cdcefb7; 0x0bdbdf21; 0x86d3d2d4; 0xf1d4e242;
   0x68ddb3f8; 0x1fda836e; 0x81be16cd; 0xf6b9265b; 0x6fb077e1; 0x18b74777;
   0x88085ae6; 0xff0f6a70; 0x66063bca; 0x11010b5c; 0x8f659eff; 0xf862ae69;
   0x616bffd3; 0x166ccf45; 0xa00ae278; 0xd70dd2ee; 0x4e048354; 0x3903b3c2;
   0xa7672661; 0xd06016f7; 0x4969474d; 0x3e6e77db; 0xaed16a4a; 0xd9d65adc;
   0x40df0b66; 0x37d83bf0; 0xa9bcae53; 0xdebb9ec5; 0x47b2cf7f; 0x30b5ffe9;
   0xbdbdf21c; 0xcabac28a; 0x53b39330; 0x24b4a3a6; 0xbad03605; 0xcdd70693;
   0x54de5729; 0x23d967bf; 0xb3667a2e; 0xc4614ab8; 0x5d681b02; 0x2a6f2b94;
   0xb40bbe37; 0xc30c8ea1; 0x5a05df1b; 0x2d02ef8d].

Definition crc32_tab : list Z :=
  [
   0x00000000; 0x77073096; 0xee0e612c; 0x990951ba; 0x076dc419; 0x706af48f;
   0xe963a535; 0x9e6495a3; 0x0edb8832; 0x79dcb8a4; 0xe0d5e91e; 0x97d2d988;
   0x09b64c2b; 0x7eb17cbd; 0xe7b82d07; 0x90bf1d91; 0x1db71064; 0x6ab020f2;
   0xf3b97148; 0x84be41de; 0x1adad47d; 0x6ddde4eb; 0xf4d4b551; 0x83d385c7;
   0x136c9856; 0x646ba8c0; 0xfd62f97a; 0x8a65c9ec; 0x14015c4f; 0x63066cd9;
   0xfa0f3d63; 0x8d080df5; 0x3b6e20c8; 0x4c69105e; 0xd56041e4; 0xa2677172;
   0x3c03e4d1; 0x4b04d447; 0xd20d85fd; 0xa50ab56b; 0x35b5a8fa; 0x42b2986c;
   0xdbbbc9d6; 0xacbcf940; 0x32d86ce3; 0x45df5c75; 0xdcd60dcf; 0xabd13d59;
   0x26d930ac; 0x51de003a; 0xc8d75180; 0xbfd06116; 0x21b4f4b5; 0x56b3c423;
   0xcfba9599; 0xb8bda50f; 0x2802b89e; 0x5f058808; 0xc60cd9b2; 0xb10be924;
   0x2f6f7c87; 0x58684c11; 0xc1611dab; 0xb6662d3d; 0x76dc4190; 0x01db7106;
   0x98d220bc; 0xefd5102a; 0x71b18589; 0x06b6b51f; 0x9fbfe4a5; 0xe8b8d433;
   0x7807c9a2; 0x0f00f934; 0x9609a88e; 0xe10e9818; 0x7f6a0dbb; 0x086d3d2d;
   0x91646c97; 0xe6635c01; 0x6b6b51f4; 0x1c6c6162; 0x856530d8; 0xf262004e;
   0x6c0695ed; 0x1b01a57b; 0x8208f4c1; 0xf50fc457; 0x65b0d9c6; 0x12b7e950;
   0x8bbeb8ea; 0xfcb9887c; 0x62dd1ddf; 0x15da2d49; 0x8cd37cf3; 0xfbd44c65;
   0x4db26158; 0x3ab551ce; 0xa3bc0074; 0xd4bb30e2; 0x4adfa541; 0x3dd895d7;
   0xa4d1c46d; 0xd3d6f4fb; 0x4369e96a; 0x346ed9fc; 0xad678846; 0xda60b8d0;
   0x44042d73; 0x33031de5; 0xaa0a4c5f; 0xdd0d7cc9; 0x5005713c; 0x270241aa;
   0xbe0b1010; 0xc90c2086; 0x5768b525; 0x206f85b3; 0xb966d409; 0xce61e49f;
   0x5edef90e; 0x29d9c998; 0xb0d09822; 0xc7d7a8b4; 0x59b33d17; 0x2eb40d81;
   0xb7bd5c3b; 0xc0ba6cad; 0xedb88320; 0x9abfb3b6; 0x03b6e20c; 0x74b1d29a;
   0xead54739; 0x9dd277af; 0x04db2615; 0x73dc1683; 0xe3630b12; 0x94643b84;
   0x0d6d6a3e; 0x7a6a5aa8; 0xe40ecf0b; 0x9309ff9d; 0x0a00ae27; 0x7d079eb1;
   0xf00f9344; 0x8708a3d2; 0x1e01f268; 0x6906c2fe; 0xf762575d; 0x806567cb;
   0x196c3671; 0x6e6b06e7; 0xfed41b76; 0x89d32be0; 0x10da7a5a; 0x67dd4acc;
   0xf9b9df6f; 0x8ebeeff9; 0x17b7be43; 0x60b08ed5; 0xd6d6a3e8; 0xa1d1937e;
   0x38d8c2c4; 0x4fdff252; 0xd1bb67f1; 0xa6bc5767; 0x3fb506dd; 0x48b2364b;
   0xd80d2bda; 0xaf0a1b4c; 0x36034af6; 0x41047a60; 0xdf60efc3; 0xa867df55;
   0x316e8eef; 0x4669be79; 0xcb61b38c; 0xbc66831a; 0x256fd2a0; 0x5268e236;
   0xcc0c7795; 0xbb0b4703; 0x220216b9; 0x5505262f; 0xc5ba3bbe; 0xb2bd0b28;
   0x2bb45a92; 0x5cb36a04; 0xc2d7ffa7; 0xb5d0cf31; 0x2cd99e8b; 0x5bdeae1d;
   0x9b64c2b0; 0xec63f226; 0x756aa39c; 0x026d930a; 0x9c0906a9; 0xeb0e363f;
   0x72076785; 0x05005713; 0x95bf4a82; 0xe2b87a14; 0x7bb12bae; 0x0cb61b38;
   0x92d28e9b; 0xe5d5be0d; 0x7cdcefb7; 0x0bdbdf21; 0x86d3d2d4; 0xf1d4e242;
   0x68ddb3f8; 0x1fda836e; 0x81be16cd; 0xf6b9265b; 0x6fb077e1; 0x18b74777;
   0x88085ae6; 0xff0f6a70; 0x66063bca; 0x11010b5c; 0x8f659eff; 0xf862ae69;
   0x616bffd3; 0x166ccf45; 0xa00ae278; 0xd70dd2ee; 0x4e048354; 0x3903b3c2;
   0xa7672661; 0xd06016f7; 0x4969474d; 0x3e6e77db; 0xaed16a4a; 0xd9d65adc;
   0x40df0b66; 0x37d83bf0; 0xa9bcae53; 0xdebb9ec5; 0x47b2cf7f; 0x30b5ffe9;
   0xbdbdf21c; 0xcabac28a; 0x53b39330; 0x24b4a3a6; 0xbad03605; 0xcdd70693;
   0x54de5729; 0x23d967bf; 0xb3667a2e; 0xc4614ab8; 0x5d681b02; 0x2a6f2b94;
   0xb40bbe37; 0xc30c8ea1; 0x5a05df1b; 0x2d02ef8d].

(** ** lib_generic/crc32.c *)

(** [make_crc_table]: the exponents of the polynomial, the pattern and the
    256 entries. *)
Definition poly_terms : list Z := [0; 1; 2; 4; 5; 7; 8; 10; 11; 12; 16; 22; 23; 26].

Definition poly : Z :=
  fold_left (fun p n => Z.lor p (Z.shiftl 1 (31 - n))) poly_terms 0.

Definition crc_bit (c : Z) : Z :=
  if Z.land c 1 =? 0 then Z.shiftr c 1 else Z.lxor poly (Z.shiftr c 1).

Definition make_crc_table : list Z :=
  map (fun n => Nat.iter 8 crc_bit (Z.of_nat n)) (seq 0 256).

Section Unrolled.
Variable table : list Z.

(** [DO1]: one byte through the table. *)
Definition DO1 (crc b : Z) : Z :=
  Z.lxor (nth (Z.to_nat (Z.land (Z.lxor crc b) 0xff)) table 0) (Z.shiftr crc 8).

Definition DO8 (crc : Z) (buf : list Z) : Z :=
  match buf with
  | b0 :: b1 :: b2 :: b3 :: b4 :: b5 :: b6 :: b7 :: _ =>
      DO1 (DO1 (DO1 (DO1 (DO1 (DO1 (DO1 (DO1 crc b0) b1) b2) b3) b4) b5) b6) b7
  | _ => crc
  end.

(** [while (len >= 8) { DO8(buf); len -= 8; }]: the CRC and what is left. *)
Fixpoint while8 (fuel : nat) (crc : Z) (buf : list Z) : Z * list Z :=
  match fuel with
  | O => (crc, buf)
  | S fuel =>
      if (8 <=? length buf)%nat then while8 fuel (DO8 crc buf) (drop 8 buf)
      else (crc, buf)
  end.

(** [if (len) do { DO1(buf); } while (--len);] *)
Fixpoint rest1 (crc : Z) (buf : list Z) : Z :=
  match buf with
  | [] => crc
  | b :: buf => rest1 (DO1 crc b) buf
  end.

Definition crc_loop (crc : Z) (buf : list Z) : Z :=
  let '(crc, buf) := while8 (length buf) crc buf in rest1 crc buf.
End Unrolled.

Definition crc32 (crc : Z) (buf : list Z) : Z :=
  let crc := Z.lxor crc 0xffffffff in
  let crc := crc_loop crc_table crc buf in
  Z.lxor crc 0xffffffff.

(** Without the complements, for JFFS2. *)
Definition crc32_no_comp (crc : Z) (buf : list Z) : Z := crc_loop crc_table crc buf.

(** [crc32_wd] with a watchdog: the buffer in chunks of [chunk_sz] bytes;
    without a watchdog it is one call of [crc32]. *)
Fixpoint crc32_wd_loop (fuel : nat) (crc : Z) (buf : list Z) (chunk_sz : nat) : option Z :=
  match fuel with
  | O => None
  | S fuel =>
      match buf with
      | [] => Some crc
      | _ => let chunk := Nat.min (length buf) chunk_sz in
             crc32_wd_loop fuel (crc32 crc (take chunk buf)) (drop chunk buf) chunk_sz
      end
  end.

Definition crc32_wd (watchdog : bool) (fuel : nat) (crc : Z) (buf : list Z)
    (chunk_sz : nat) : option Z :=
  if watchdog then crc32_wd_loop fuel crc buf chunk_sz else Some (crc32 crc buf).

(** ** infotm/drivers/secure/crc32.c: the state is the global [g_crc] *)

Definition crc32_init (len : Z) : Z := Z.lxor 0 0xffffffff.
Definition crc32_data (g_crc : Z) (buf : list Z) : Z := crc_loop infotm_crc_table g_crc buf.
(** The four bytes stored at the result pointer. *)
Definition crc32_value (g_crc : Z) : list Z := le_put 4 (Z.lxor g_crc 0xffffffff).

(** ** infotm/strategy/burn/sparse.c *)

Fixpoint sparse_loop (crc : Z) (buf : list Z) : Z :=
  match buf with
  | [] => crc
  | b :: buf =>
      sparse_loop (Z.lxor (nth (Z.to_nat (Z.land (Z.lxor crc b) 0xff)) crc32_tab 0)
                          (Z.shiftr crc 8)) buf
  end.

Definition sparse_crc32 (crc_in : Z) (buf : list Z) : Z :=
  Z.lxor (sparse_loop (Z.lxor crc_in 0xffffffff) buf) 0xffffffff.

End Crc32.

Module Crc16.

(** lib_generic/crc16.c *)
Definition crc16_tab : list Z :=
  [
   0x0000; 0x1021; 0x2042; 0x3063; 0x4084; 0x50a5; 0x60c6; 0x70e7;
   0x8108; 0x9129; 0xa14a; 0xb16b; 0xc18c; 0xd1ad; 0xe1ce; 0xf1ef;
   0x1231; 0x0210; 0x3273; 0x2252; 0x52b5; 0x4294; 0x72f7; 0x62d6;
   0x9339; 0x8318; 0xb37b; 0xa35a; 0xd3bd; 0xc39c; 0xf3ff; 0xe3de;
   0x2462; 0x3443; 0x0420; 0x1401; 0x64e6; 0x74c7; 0x44a4; 0x5485;
   0xa56a; 0xb54b; 0x8528; 0x9509; 0xe5ee; 0xf5cf; 0xc5ac; 0xd58d;
   0x3653; 0x2672; 0x1611; 0x0630; 0x76d7; 0x66f6; 0x5695; 0x46b4;
   0xb75b; 0xa77a; 0x9719; 0x8738; 0xf7df; 0xe7fe; 0xd79d; 0xc7bc;
   0x48c4; 0x58e5; 0x6886; 0x78a7; 0x0840; 0x1861; 0x2802; 0x3823;
   0xc9cc; 0xd9ed; 0xe98e; 0xf9af; 0x8948; 0x9969; 0xa90a; 0xb92b;
   0x5af5; 0x4ad4; 0x7ab7; 0x6a96; 0x1a71; 0x0a50; 0x3a33; 0x2a12;
   0xdbfd; 0xcbdc; 0xfbbf; 0xeb9e; 0x9b79; 0x8b58; 0xbb3b; 0xab1a;
   0x6ca6; 0x7c87; 0x4ce4; 0x5cc5; 0x2c22; 0x3c03; 0x0c60; 0x1c41;
   0xedae; 0xfd8f; 0xcdec; 0xddcd; 0xad2a; 0xbd0b; 0x8d68; 0x9d49;
   0x7e97; 0x6eb6; 0x5ed5; 0x4ef4; 0x3e13; 0x2e32; 0x1e51; 0x0e70;
   0xff9f; 0xefbe; 0xdfdd; 0xcffc; 0xbf1b; 0xaf3a; 0x9f59; 0x8f78;
   0x9188; 0x81a9; 0xb1ca; 0xa1eb; 0xd10c; 0xc12d; 0xf14e; 0xe16f;
   0x1080; 0x00a1; 0x30c2; 0x20e3; 0x5004; 0x4025; 0x7046; 0x6067;
   0x83b9; 0x9398; 0xa3fb; 0xb3da; 0xc33d; 0xd31c; 0xe37f; 0xf35e;
   0x02b1; 0x1290; 0x22f3; 0x32d2; 0x4235; 0x5214; 0x6277; 0x7256;
   0xb5ea; 0xa5cb; 0x95a8; 0x8589; 0xf56e; 0xe54f; 0xd52c; 0xc50d;
   0x34e2; 0x24c3; 0x14a0; 0x0481; 0x7466; 0x6447; 0x5424; 0x4405;
   0xa7db; 0xb7fa; 0x8799; 0x97b8; 0xe75f; 0xf77e; 0xc71d; 0xd73c;
   0x26d3; 0x36f2; 0x0691; 0x16b0; 0x6657; 0x7676; 0x4615; 0x5634;
   0xd94c; 0xc96d; 0xf90e; 0xe92f; 0x99c8; 0x89e9; 0xb98a; 0xa9ab;
   0x5844; 0x4865; 0x7806; 0x6827; 0x18c0; 0x08e1; 0x3882; 0x28a3;
   0xcb7d; 0xdb5c; 0xeb3f; 0xfb1e; 0x8bf9; 0x9bd8; 0xabbb; 0xbb9a;
   0x4a75; 0x5a54; 0x6a37; 0x7a16; 0x0af1; 0x1ad0; 0x2ab3; 0x3a92;
   0xfd2e; 0xed0f; 0xdd6c; 0xcd4d; 0xbdaa; 0xad8b; 0x9de8; 0x8dc9;
   0x7c26; 0x6c07; 0x5c64; 0x4c45; 0x3ca2; 0x2c83; 0x1ce0; 0x0cc1;
   0xef1f; 0xff3e; 0xcf5d; 0xdf7c; 0xaf9b; 0xbfba; 0x8fd9; 0x9ff8;
   0x6e17; 0x7e36; 0x4e55; 0x5e74; 0x2e93; 0x3eb2; 0x0ed1; 0x1ef0].

Fixpoint crc16_loop (cksum : Z) (buf : list Z) : Z :=
  match buf with
  | [] => cksum
  | b :: buf =>
      crc16_loop
        (u16 (Z.lxor (nth (Z.to_nat (Z.land (Z.lxor (Z.shiftr cksum 8) b) 0xff)) crc16_tab 0)
                     (Z.shiftl cksum 8))) buf
  end.

Definition cyg_crc16 (buf : list Z) : Z := crc16_loop 0 buf.

End Crc16.

Module Adler.

(** lib_generic/adler32.c *)
Definition BASE : Z := 65521.
Definition NMAX : Z := 5552.

(** [DO1]: [adler += b; sum2 += adler], on 32-bit words. *)
Definition DO1 (st : Z * Z) (b : Z) : Z * Z :=
  let adler := u32 (st.1 + b) in (adler, u32 (st.2 + adler)).

(** The first [n] bytes of the buffer, one after the other, and the rest. *)
Fixpoint do_bytes (n : nat) (st : Z * Z) (buf : list Z) : (Z * Z) * list Z :=
  match n, buf with
  | S n, b :: buf => do_bytes n (DO1 st b) buf
  | _, _ => (st, buf)
  end.

Definition DO16 (st : Z * Z) (buf : list Z) : (Z * Z) * list Z := do_bytes 16 st buf.

(** [do { DO16(buf); buf += 16; } while (--n);] *)
Fixpoint do16_times (n : nat) (st : Z * Z) (buf : list Z) : (Z * Z) * list Z :=
  match n with
  | O => (st, buf)
  | S n => let '(st, buf) := DO16 st buf in do16_times n st buf
  end.

Definition MOD (st : Z * Z) : Z * Z := (st.1 mod BASE, st.2 mod BASE).

(** [while (len >= NMAX)]: one block of NMAX bytes per modulo. *)
Fixpoint while_nmax (fuel : nat) (st : Z * Z) (buf : list Z) : (Z * Z) * list Z :=
  match fuel with
  | O => (st, buf)
  | S fuel =>
      if NMAX <=? Z.of_nat (length buf)
      then let '(st, buf) := do16_times (Z.to_nat (NMAX / 16)) st buf in
           while_nmax fuel (MOD st) buf
      else (st, buf)
  end.

(** [while (len >= 16)] *)
Fixpoint while16 (fuel : nat) (st : Z * Z) (buf : list Z) : (Z * Z) * list Z :=
  match fuel with
  | O => (st, buf)
  | S fuel =>
      if (16 <=? length buf)%nat
      then let '(st, buf) := DO16 st buf in while16 fuel st buf
      else (st, buf)
  end.

Definition combine (st : Z * Z) : Z := Z.lor st.1 (u32 (Z.shiftl st.2 16)).

Definition sub_base (x : Z) : Z := if BASE <=? x then x - BASE else x.

(** [None] is the NULL buffer. *)
Definition adler32 (adler : Z) (buf : option (list Z)) : Z :=
  let sum2 := Z.land (Z.shiftr adler 16) 0xffff in
  let adler := Z.land adler 0xffff in
  match buf with
  | Some [b] =>
      let adler := sub_base (u32 (adler + b)) in
      let sum2 := sub_base (u32 (sum2 + adler)) in
      combine (adler, sum2)
  | None => 1
  | Some buf =>
      if (length buf <? 16)%nat then
        let '(st, _) := do_bytes (length buf) (adler, sum2) buf in
        combine (sub_base st.1, st.2 mod BASE)
      else
        let '(st, buf) := while_nmax (length buf) (adler, sum2) buf in
        match buf with
        | [] => combine st
        | _ =>
            let '(st, buf) := while16 (length buf) st buf in
            let '(st, _) := do_bytes (length buf) st buf in
            combine (MOD st)
        end
  end.


(** The checksum's definition: both sums reduced modulo BASE at each byte. *)
Definition ref1 (st : Z * Z) (b : Z) : Z * Z :=
  let a := (st.1 + b) mod BASE in (a, (st.2 + a) mod BASE).

Definition adler32_ref (adler : Z) (buf : list Z) : Z :=
  let st := fold_left ref1 buf (adler mod 2 ^ 16, adler / 2 ^ 16) in
  st.1 + st.2 * 2 ^ 16.

(** Sums without wrap-around or modulo, to bound what the deferred modulo
    accumulates. *)
Definition exact1 (st : Z * Z) (b : Z) : Z * Z := (st.1 + b, st.2 + (st.1 + b)).

Definition reduced (st : Z * Z) : Prop := 0 <= st.1 < BASE /\ 0 <= st.2 < BASE.

Lemma do_bytes_fold n st buf :
  do_bytes n st buf = (fold_left DO1 (take n buf) st, drop n buf).
Proof.
  revert st buf. induction n as [|n IH]; intros st [|b buf]; simpl; done.
Qed.

Lemma do16_times_fold n st buf :
  do16_times n st buf = (fold_left DO1 (take (n * 16) buf) st, drop (n * 16) buf).
Proof.
  revert st buf. induction n as [|n IH]; intros st buf; simpl do16_times; [done|].
  unfold DO16. rewrite do_bytes_fold, IH.
  replace (S n * 16)%nat with (16 + n * 16)%nat by lia.
  rewrite drop_drop. f_equal. rewrite <- fold_left_app. f_equal.
  rewrite <- (take_drop 16 buf) at 3.
  destruct (decide (16 <= length buf)%nat).
  - rewrite (take_app_ge _ _ (16 + n * 16)) by (rewrite length_take; lia).
    f_equal. f_equal. rewrite length_take. lia.
  - rewrite (drop_ge buf) by lia. rewrite firstn_nil, !app_nil_r.
    rewrite (take_ge (take 16 buf)); [done|]. rewrite length_take. lia.
Qed.

Lemma exact_bound l st :
  bytes_ok l -> 0 <= st.1 -> 0 <= st.2 ->
  let n := Z.of_nat (length l) in
  let r := fold_left exact1 l st in
  st.1 <= r.1 <= st.1 + 255 * n /\
  st.2 <= r.2 /\ 2 * r.2 <= 2 * st.2 + 2 * n * st.1 + 255 * n * (n + 1).
Proof.
  intros Hl. revert st. induction Hl as [|b l Hb Hl IH]; intros st H1 H2; simpl; [lia|].
  unfold is_byte in Hb. specialize (IH (exact1 st b)). simpl in IH.
  specialize (IH ltac:(lia) ltac:(lia)). nia.
Qed.

(** Below NMAX bytes the 32-bit sums do not wrap. *)
Lemma no_wrap l st :
  bytes_ok l -> reduced st -> Z.of_nat (length l) <= NMAX ->
  fold_left DO1 l st = fold_left exact1 l st.
Proof.
  intros Hl [H1 H2]. unfold BASE, NMAX in *.
  induction l as [|b l IH] using rev_ind; intros Hn; [done|].
  rewrite !fold_left_app. rewrite length_app in Hn. simpl in *.
  apply Forall_app in Hl as [Hl Hb]. apply Forall_cons in Hb as [Hb _]. unfold is_byte in Hb.
  rewrite IH by (done || lia).
  pose proof (exact_bound l st Hl ltac:(lia) ltac:(lia)) as Hx. simpl in Hx.
  destruct (fold_left exact1 l st) as [a s]. unfold DO1, exact1. simpl in *.
  rewrite (u32_small (a + b)) by nia. rewrite u32_small by nia. done.
Qed.

Lemma ref_exact l st st' :
  st'.1 = st.1 mod BASE -> st'.2 = st.2 mod BASE ->
  fold_left ref1 l st' = MOD (fold_left exact1 l st).
Proof.
  revert st st'. induction l as [|b l IH]; intros [a s] [a' s']; simpl; intros -> ->; [done|].
  apply IH; unfold ref1, exact1; simpl.
  { by rewrite Zplus_mod_idemp_l. }
  rewrite Zplus_mod_idemp_l, Zplus_mod_idemp_r.
  replace (s + (a mod BASE + b)) with (a mod BASE + (s + b)) by lia.
  rewrite Zplus_mod_idemp_l. f_equal. lia.
Qed.

Lemma MOD_reduced st : reduced (MOD st).
Proof. split; apply Z.mod_pos_bound; done. Qed.

(** A block of at most NMAX bytes with one modulo at its end. *)
Lemma block_ref l st :
  bytes_ok l -> reduced st -> Z.of_nat (length l) <= NMAX ->
  MOD (fold_left DO1 l st) = fold_left ref1 l st.
Proof.
  intros Hl Hst Hn. rewrite no_wrap by done. symmetry.
  destruct Hst. apply ref_exact; symmetry; apply Z.mod_small; lia.
Qed.

Lemma fold_ref_reduced l st : bytes_ok l -> reduced st -> reduced (fold_left ref1 l st).
Proof.
  intros Hl. revert st. induction Hl as [|b l Hb Hl IH]; intros st Hst; simpl; [done|].
  apply IH. split; apply Z.mod_pos_bound; done.
Qed.

Lemma while_nmax_S fuel st buf :
  while_nmax (S fuel) st buf =
  if NMAX <=? Z.of_nat (length buf)
  then let '(st, buf) := do16_times (Z.to_nat (NMAX / 16)) st buf in
       while_nmax fuel (MOD st) buf
  else (st, buf).
Proof. reflexivity. Qed.

Lemma while_nmax_ref fuel st buf :
  bytes_ok buf -> reduced st -> (length buf <= fuel)%nat ->
  exists p r, buf = p ++ r /\ while_nmax fuel st buf = (fold_left ref1 p st, r) /\
    Z.of_nat (length r) < NMAX.
Proof.
  revert st buf. induction fuel as [|fuel IH]; intros st buf Hb Hst Hf.
  - exists [], buf. repeat split. simpl in Hf. unfold NMAX. lia.
  - rewrite while_nmax_S. destruct (Z.leb_spec NMAX (Z.of_nat (length buf))) as [Hle|Hlt];
      [|by exists [], buf].
    rewrite do16_times_fold. cbv beta iota. change (Z.to_nat (NMAX / 16) * 16)%nat with (Z.to_nat 5552).
    set (k := Z.to_nat 5552) in *.
    assert (Hk : length (take k buf) = k) by (rewrite length_take; unfold NMAX, k in *; lia).
    rewrite block_ref; [|by apply Forall_take|done|rewrite Hk; unfold NMAX, k; lia].
    destruct (IH (fold_left ref1 (take k buf) st) (drop k buf)) as (p & r & E & Hw & Hr).
    + by apply Forall_drop.
    + apply fold_ref_reduced; [by apply Forall_take|done].
    + rewrite length_drop. unfold NMAX, k in *. lia.
    + exists (take k buf ++ p), r. rewrite <- app_assoc, <- E, take_drop.
      rewrite fold_left_app. by rewrite Hw.
Qed.

Lemma while16_S fuel st buf :
  while16 (S fuel) st buf =
  if (16 <=? length buf)%nat
  then let '(st, buf) := DO16 st buf in while16 fuel st buf
  else (st, buf).
Proof. reflexivity. Qed.

Lemma while16_fold fuel st buf :
  (length buf <= fuel)%nat ->
  exists p r, buf = p ++ r /\ while16 fuel st buf = (fold_left DO1 p st, r).
Proof.
  revert st buf. induction fuel as [|fuel IH]; intros st buf Hf.
  - by exists [], buf.
  - rewrite while16_S. destruct (Nat.leb_spec 16 (length buf)) as [Hle|Hlt]; [|by exists [], buf].
    unfold DO16. rewrite do_bytes_fold.
    destruct (IH (fold_left DO1 (take 16 buf) st) (drop 16 buf)) as (p & r & E & Hw).
    + rewrite length_drop. lia.
    + exists (take 16 buf ++ p), r. rewrite <- app_assoc, <- E, take_drop.
      by rewrite fold_left_app.
Qed.

Lemma combine_sum st : reduced st -> combine st = st.1 + st.2 * 2 ^ 16.
Proof.
  unfold reduced, BASE, combine. intros [H1 H2]. rewrite Z.shiftl_mul_pow2 by lia.
  rewrite u32_small by lia. rewrite <- Z.lxor_lor, <- Z.add_nocarry_lxor; [done| |].
  all: apply Z.bits_inj'; intros n Hn; rewrite Z.land_spec, Z.bits_0.
  all: destruct (Z.ltb_spec n 16);
    [rewrite (Z.mul_pow2_bits_low st.2) by lia; apply andb_false_r|].
  all: rewrite (Z.bits_above_log2 st.1 n); [done|lia|].
  all: destruct (decide (st.1 = 0)) as [->|]; [simpl; lia|];
    apply Z.log2_lt_pow2; [lia|]; apply Z.lt_le_trans with (2 ^ 16); [lia|];
    apply Z.pow_le_mono_r; lia.
Qed.

Lemma sub_base_mod x : 0 <= x < 2 * BASE -> sub_base x = x mod BASE.
Proof.
  unfold sub_base, BASE. intros. destruct (Z.leb_spec 65521 x).
  - rewrite Z.mod_eq by lia. replace (x / 65521) with 1; [lia|].
    apply Z.div_unique with (x - 65521); lia.
  - rewrite Z.mod_small; lia.
Qed.

(** A checksum value: both halves are reduced sums. *)
Definition adler_ok (adler : Z) : Prop := reduced (adler mod 2 ^ 16, adler / 2 ^ 16).

Lemma halves adler :
  adler_ok adler ->
  Z.land adler 0xffff = adler mod 2 ^ 16 /\
  Z.land (Z.shiftr adler 16) 0xffff = adler / 2 ^ 16.
Proof.
  unfold adler_ok, reduced, BASE. simpl fst. simpl snd. intros [_ H].
  change 0xffff with (Z.ones 16). rewrite !Z.land_ones, Z.shiftr_div_pow2 by lia.
  split; [done|]. apply Z.mod_small. lia.
Qed.

(** C32: [adler32] is the Adler-32 checksum: deferring the modulo to one per
    5552-byte block never lets the 32-bit sums wrap, so on every buffer and
    from every valid start value the result is the byte-by-byte definition. *)
Theorem adler32_correct adler buf :
  adler_ok adler -> bytes_ok buf -> adler32 adler (Some buf) = adler32_ref adler buf.
Proof.
  intros Ha Hb. unfold adler32, adler32_ref.
  destruct (halves adler Ha) as [-> ->]. revert Ha. unfold adler_ok.
  generalize (adler mod 2 ^ 16) as a, (adler / 2 ^ 16) as s. intros a s Hst. cbv zeta.
  rewrite <- combine_sum by (by apply fold_ref_reduced).
  assert (Hshort : forall l, bytes_ok l -> (length l < 16)%nat ->
            (sub_base (fold_left DO1 l (a, s)).1, (fold_left DO1 l (a, s)).2 mod BASE) =
            fold_left ref1 l (a, s)).
  { intros l Hl Hn. rewrite <- block_ref by (done || unfold NMAX; lia).
    unfold MOD. rewrite no_wrap by (done || unfold NMAX; lia). destruct Hst as [H1 H2].
    simpl in H1, H2. pose proof (exact_bound l (a, s) Hl) as Hx. simpl in Hx.
    rewrite sub_base_mod; [done|]. unfold BASE in *. lia. }
  destruct buf as [|b [|b' buf]].
  - change (combine (sub_base a, s mod BASE) = combine (fold_left ref1 [] (a, s))).
    f_equal. apply (Hshort []); [constructor|simpl; lia].
  - apply Forall_cons in Hb as [Hb _]. unfold is_byte in Hb. destruct Hst as [H1 H2].
    simpl in H1, H2. simpl fold_left. unfold ref1, BASE in *. simpl.
    rewrite (u32_small (a + b)), sub_base_mod by (unfold BASE; lia). unfold BASE.
    pose proof (Z.mod_pos_bound (a + b) 65521 ltac:(lia)).
    rewrite u32_small, sub_base_mod by (unfold BASE; lia). done.
  - set (l := b :: b' :: buf) in *. clearbody l.
    destruct (Nat.ltb_spec (length l) 16) as [Hlt|Hge].
    + rewrite do_bytes_fold, (take_ge l) by lia. f_equal. by apply Hshort.
    + clear Hshort. revert Hst. generalize (a, s) as st. clear a s. intros st Hst.
      destruct (while_nmax_ref (length l) st l Hb Hst ltac:(lia)) as (p & r & -> & -> & Hr).
      apply Forall_app in Hb as [Hp Hb].
      pose proof (fold_ref_reduced p st Hp Hst) as Hst'.
      rewrite fold_left_app. set (st' := fold_left ref1 p st) in *. clearbody st'.
      destruct r as [|c r]; [done|]. set (r' := c :: r) in *. clearbody r'.
      destruct (while16_fold (length r') st' r' ltac:(lia)) as (p' & r'' & -> & ->).
      rewrite do_bytes_fold, (take_ge r'') by lia.
      rewrite <- fold_left_app, block_ref; [done|done|done|lia].
Qed.

Example adler32_correct_witness :
  adler32 1 (Some [87; 105; 107; 105; 112; 101; 100; 105; 97]) = 0x11E60398 /\
  adler32 1 (Some [87; 105; 107; 105; 112; 101; 100; 105; 97]) =
  adler32_ref 1 [87; 105; 107; 105; 112; 101; 100; 105; 97].
Proof.
  split; [reflexivity|].
  apply (adler32_correct 1 [87; 105; 107; 105; 112; 101; 100; 105; 97]).
  - repeat split; vm_compute; (reflexivity || discriminate).
  - repeat constructor; unfold is_byte; lia.
Defined.

End Adler.

Module Crc32Proofs.
Import Crc32.

(** The bit-by-bit definition: exclusive-or the byte into the register and
    divide by the polynomial eight times. *)
Definition crc_step (crc b : Z) : Z := Nat.iter 8 crc_bit (Z.lxor crc b).

Definition crc32_ref (crc : Z) (buf : list Z) : Z :=
  Z.lxor (fold_left crc_step buf (Z.lxor crc 0xffffffff)) 0xffffffff.

Lemma land_1_odd c : (Z.land c 1 =? 0) = negb (Z.odd c).
Proof.
  change 1 with (Z.ones 1). rewrite Z.land_ones, Z.pow_1_r, Zmod_odd by lia.
  by destruct (Z.odd c).
Qed.

Lemma crc_bit_eq c : crc_bit c = Z.lxor (if Z.odd c then poly else 0) (Z.shiftr c 1).
Proof.
  unfold crc_bit. rewrite land_1_odd. destruct (Z.odd c); simpl; [done|].
  by rewrite Z.lxor_0_l.
Qed.

Lemma crc_bit_lxor a b : crc_bit (Z.lxor a b) = Z.lxor (crc_bit a) (crc_bit b).
Proof.
  rewrite !crc_bit_eq, <- !Z.bit0_odd, Z.lxor_spec, Z.shiftr_lxor.
  destruct (Z.testbit a 0), (Z.testbit b 0); simpl;
    apply Z.bits_inj'; intros i Hi; rewrite !Z.lxor_spec, ?Z.bits_0; btauto.
Qed.

Lemma iter_crc_bit_lxor n a b :
  Nat.iter n crc_bit (Z.lxor a b) = Z.lxor (Nat.iter n crc_bit a) (Nat.iter n crc_bit b).
Proof. induction n as [|n IH]; simpl; [done|]. by rewrite IH, crc_bit_lxor. Qed.

Lemma iter_crc_bit_shiftl n x : Nat.iter n crc_bit (Z.shiftl x (Z.of_nat n)) = x.
Proof.
  induction n as [|n IH]; [apply Z.shiftl_0_r|].
  rewrite Nat.iter_succ_r. replace (crc_bit _) with (Z.shiftl x (Z.of_nat n)); [done|].
  rewrite crc_bit_eq, !Z.shiftl_mul_pow2, Nat2Z.inj_succ, Z.pow_succ_r by lia.
  replace (x * (2 * 2 ^ Z.of_nat n)) with (2 * (x * 2 ^ Z.of_nat n)) by lia.
  rewrite Z.odd_mul. simpl. rewrite Z.shiftr_div_pow2, Z.pow_1_r by lia.
  by rewrite (Z.mul_comm 2), Z.div_mul.
Qed.

Lemma split_byte c : c = Z.lxor (Z.land c 0xff) (Z.shiftl (Z.shiftr c 8) 8).
Proof.
  apply Z.bits_inj'. intros i Hi. change 0xff with (Z.ones 8).
  rewrite Z.lxor_spec, Z.land_spec, Z.testbit_ones_nonneg by lia.
  destruct (Z.ltb_spec i 8).
  - rewrite Z.shiftl_spec_low by lia. btauto.
  - rewrite Z.shiftl_spec_high, Z.shiftr_spec by lia.
    replace (i - 8 + 8) with i by lia. btauto.
Qed.

(** One table lookup is eight steps of the division. *)
Lemma DO1_step table crc b :
  table = make_crc_table -> is_byte b -> DO1 table crc b = crc_step crc b.
Proof.
  intros -> Hb. unfold DO1, crc_step. set (c := Z.lxor crc b).
  assert (Hs : Z.shiftr crc 8 = Z.shiftr c 8).
  { unfold c. rewrite Z.shiftr_lxor. unfold is_byte in Hb.
    rewrite (Z.shiftr_div_pow2 b) by lia. rewrite (Z.div_small b) by lia.
    by rewrite Z.lxor_0_r. }
  rewrite Hs.
  transitivity (Nat.iter 8 crc_bit (Z.lxor (Z.land c 0xff) (Z.shiftl (Z.shiftr c 8) 8)));
    [|by rewrite <- split_byte].
  rewrite iter_crc_bit_lxor, (iter_crc_bit_shiftl 8).
  f_equal. unfold make_crc_table.
  pose proof (land_range_r c 0xff 8 ltac:(lia) ltac:(lia)) as Hr.
  rewrite (nth_indep _ 0 (Nat.iter 8 crc_bit (Z.of_nat 0)))
    by (rewrite length_map, length_seq; lia).
  rewrite (map_nth (fun n => Nat.iter 8 crc_bit (Z.of_nat n))).
  rewrite seq_nth by lia. simpl plus. by rewrite Z2Nat.id by lia.
Qed.

Lemma tables_generated :
  crc_table = make_crc_table /\ infotm_crc_table = make_crc_table /\
  crc32_tab = make_crc_table.
Proof. repeat split; vm_compute; reflexivity. Qed.

Lemma DO8_fold table crc l buf :
  length l = 8%nat -> DO8 table crc (l ++ buf) = fold_left (DO1 table) l crc.
Proof.
  intros Hl. destruct l as [|b0 [|b1 [|b2 [|b3 [|b4 [|b5 [|b6 [|b7 [|b8 l]]]]]]]]];
    discriminate Hl || reflexivity.
Qed.

Lemma while8_S table fuel crc buf :
  while8 table (S fuel) crc buf =
  if (8 <=? length buf)%nat then while8 table fuel (DO8 table crc buf) (drop 8 buf)
  else (crc, buf).
Proof. reflexivity. Qed.

Lemma while8_fold table fuel crc buf :
  (length buf <= fuel)%nat ->
  exists p r, buf = p ++ r /\ while8 table fuel crc buf = (fold_left (DO1 table) p crc, r).
Proof.
  revert crc buf. induction fuel as [|fuel IH]; intros crc buf Hf; [by exists [], buf|].
  rewrite while8_S. destruct (Nat.leb_spec 8 (length buf)) as [H8|H8]; [|by exists [], buf].
  destruct (IH (DO8 table crc buf) (drop 8 buf)) as (p & r & Er & E);
    [rewrite length_drop; lia|].
  exists (take 8 buf ++ p), r. split; [by rewrite <- app_assoc, <- Er, take_drop|].
  rewrite E, fold_left_app, <- (take_drop 8 buf) at 1.
  rewrite DO8_fold; [done|]. rewrite length_take. lia.
Qed.

Lemma rest1_fold table crc buf : rest1 table crc buf = fold_left (DO1 table) buf crc.
Proof. revert crc. induction buf; intros; simpl; auto. Qed.

Lemma crc_loop_fold table crc buf : crc_loop table crc buf = fold_left (DO1 table) buf crc.
Proof.
  unfold crc_loop. destruct (while8_fold table (length buf) crc buf) as (p & r & E & ->); [lia|].
  rewrite rest1_fold, E at 1. by rewrite fold_left_app.
Qed.

Lemma fold_DO1 table crc buf :
  table = make_crc_table -> bytes_ok buf ->
  fold_left (DO1 table) buf crc = fold_left crc_step buf crc.
Proof.
  intros Ht Hb. revert crc. induction Hb as [|b buf Hb Hbs IH]; intros crc; simpl; [done|].
  by rewrite DO1_step, IH.
Qed.

Lemma sparse_fold crc buf : sparse_loop crc buf = fold_left (DO1 crc32_tab) buf crc.
Proof. revert crc. induction buf; intros; simpl; auto. Qed.

Lemma crc32_eq_ref crc buf : bytes_ok buf -> crc32 crc buf = crc32_ref crc buf.
Proof.
  intros Hb. unfold crc32, crc32_ref. rewrite crc_loop_fold, fold_DO1; [done| |done].
  apply tables_generated.
Qed.

(** C31: the unrolled, table-driven [crc32] computes the reflected CRC-32 of
    the polynomial bit by bit, on every buffer and start value; the tables
    of the three sources are the ones [make_crc_table] generates. *)
Theorem crc32_bitwise crc buf :
  bytes_ok buf ->
  crc32 crc buf = crc32_ref crc buf /\
  crc_table = make_crc_table /\ infotm_crc_table = make_crc_table /\
  crc32_tab = make_crc_table.
Proof.
  intros Hb. split; [by apply crc32_eq_ref|]. apply tables_generated.
Qed.

Example crc32_bitwise_witness :
  crc32 0 [49; 50; 51; 52; 53; 54; 55; 56; 57] = 0xcbf43926 /\
  (crc32 0 [49; 50; 51; 52; 53; 54; 55; 56; 57] =
     crc32_ref 0 [49; 50; 51; 52; 53; 54; 55; 56; 57] /\
   crc_table = make_crc_table /\ infotm_crc_table = make_crc_table /\
   crc32_tab = make_crc_table).
Proof.
  split; [vm_compute; reflexivity|].
  apply (crc32_bitwise 0 [49; 50; 51; 52; 53; 54; 55; 56; 57]).
  repeat constructor; unfold is_byte; lia.
Defined.

Lemma lxor_ff_involutive x : Z.lxor (Z.lxor x 0xffffffff) 0xffffffff = x.
Proof. by rewrite Z.lxor_assoc, Z.lxor_nilpotent, Z.lxor_0_r. Qed.

(** Checksumming is incremental. *)
Lemma crc32_app crc a b :
  bytes_ok a -> bytes_ok b -> crc32 crc (a ++ b) = crc32 (crc32 crc a) b.
Proof.
  intros Ha Hb. rewrite !crc32_eq_ref by auto using Forall_app_2. unfold crc32_ref.
  by rewrite lxor_ff_involutive, fold_left_app.
Qed.

Lemma crc32_nil crc : crc32 crc [] = crc.
Proof. apply lxor_ff_involutive. Qed.

Lemma crc32_wd_loop_eq fuel crc buf chunk :
  bytes_ok buf -> (0 < chunk)%nat -> (length buf < fuel)%nat ->
  crc32_wd_loop fuel crc buf chunk = Some (crc32 crc buf).
Proof.
  intros Hb Hc. revert crc buf Hb.
  induction fuel as [|fuel IH]; intros crc buf Hb Hf; [lia|].
  destruct buf as [|b buf]; [by rewrite crc32_nil|].
  set (l := b :: buf) in *. change (crc32_wd_loop (S fuel) crc l chunk) with
    (crc32_wd_loop fuel (crc32 crc (take (Nat.min (length l) chunk) l))
       (drop (Nat.min (length l) chunk) l) chunk).
  assert (0 < length l)%nat by (unfold l; simpl; lia).
  rewrite IH; [|by apply Forall_drop|rewrite length_drop; lia].
  rewrite <- crc32_app by auto using Forall_take, Forall_drop.
  by rewrite take_drop.
Qed.

(** The register of the incremental interface, and its value. *)
Lemma crc32_data_fold g l : bytes_ok l -> crc32_data g l = fold_left crc_step l g.
Proof.
  intros. unfold crc32_data. rewrite crc_loop_fold, fold_DO1; [done|apply tables_generated|done].
Qed.

Lemma crc32_data_app g l l' :
  bytes_ok l -> bytes_ok l' -> crc32_data (crc32_data g l) l' = crc32_data g (l ++ l').
Proof. intros. rewrite !crc32_data_fold, fold_left_app; auto. by apply Forall_app_2. Qed.

Lemma crc32_value_data len l :
  bytes_ok l -> crc32_value (crc32_data (crc32_init len) l) = le_put 4 (crc32 0 l).
Proof.
  intros. unfold crc32_value. rewrite crc32_data_fold, crc32_eq_ref by done. done.
Qed.

Lemma crc32_data_chunks g chunks :
  bytes_ok (concat chunks) -> fold_left crc32_data chunks g = crc32_data g (concat chunks).
Proof.
  revert g. induction chunks as [|l chunks IH]; intros g Hb; simpl in *; [done|].
  apply Forall_app in Hb as [Hl Hb]. by rewrite IH, crc32_data_app.
Qed.

(** The other interfaces compute the same checksum: the incremental
    [crc32_init], [crc32_data], [crc32_value] of the IUW hash interface over
    any division of the data into calls, the chunked watchdog variant for
    every positive chunk size (it terminates), and [sparse_crc32]. *)
Theorem crc32_interfaces_agree chunks len chunk_sz fuel wd :
  bytes_ok (concat chunks) -> (0 < chunk_sz)%nat -> (length (concat chunks) < fuel)%nat ->
  crc32_value (fold_left crc32_data chunks (crc32_init len)) =
    le_put 4 (crc32 0 (concat chunks)) /\
  (forall crc, crc32_wd wd fuel crc (concat chunks) chunk_sz =
     Some (crc32 crc (concat chunks))) /\
  (forall crc, sparse_crc32 crc (concat chunks) = crc32 crc (concat chunks)).
Proof.
  intros Hb Hc Hf. split; [|split].
  - by rewrite crc32_data_chunks, crc32_value_data.
  - intros crc. destruct wd; simpl; [|done]. by apply crc32_wd_loop_eq.
  - intros crc. rewrite crc32_eq_ref by done. unfold sparse_crc32, crc32_ref.
    rewrite sparse_fold, fold_DO1; [done|apply tables_generated|done].
Qed.

Example crc32_interfaces_agree_witness :
  crc32_value (fold_left crc32_data [[1; 2; 3]; [4; 5]] (crc32_init 5)) =
    le_put 4 (crc32 0 [1; 2; 3; 4; 5]) /\
  (forall crc, crc32_wd true 6 crc [1; 2; 3; 4; 5] 2 = Some (crc32 crc [1; 2; 3; 4; 5])) /\
  (forall crc, sparse_crc32 crc [1; 2; 3; 4; 5] = crc32 crc [1; 2; 3; 4; 5]).
Proof.
  apply (crc32_interfaces_agree [[1; 2; 3]; [4; 5]] 5 2 6 true).
  - repeat constructor; unfold is_byte; lia.
  - lia.
  - simpl. lia.
Defined.

(** ** Error detection: every step of the division is reversible *)

Definition crc_unbit (r : Z) : Z :=
  if Z.testbit r 31 then 2 * Z.lxor r poly + 1 else 2 * r.

Lemma crc_unbit_bit c : 0 <= c < 2 ^ 32 -> crc_unbit (crc_bit c) = c.
Proof.
  intros Hc. rewrite crc_bit_eq. unfold crc_unbit. rewrite Z.lxor_spec.
  assert (Hh : Z.testbit (Z.shiftr c 1) 31 = false).
  { rewrite Z.shiftr_spec by lia. by apply (testbit_above c 32). }
  rewrite Hh. pose proof (Z.div_mod c 2 ltac:(lia)) as Hd. rewrite Zmod_odd in Hd.
  rewrite (Z.shiftr_div_pow2 c 1), Z.pow_1_r by lia. destruct (Z.odd c).
  - replace (Z.testbit poly 31) with true by reflexivity. simpl xorb. cbv iota.
    rewrite Z.lxor_comm, <- Z.lxor_assoc, Z.lxor_nilpotent, Z.lxor_0_l. lia.
  - rewrite Z.bits_0, Z.lxor_0_l. simpl xorb. cbv iota. lia.
Qed.

Lemma poly_range : 0 <= poly < 2 ^ 32.
Proof. by vm_compute. Qed.

Lemma crc_bit_range c : 0 <= c < 2 ^ 32 -> 0 <= crc_bit c < 2 ^ 32.
Proof.
  intros Hc. rewrite crc_bit_eq. apply lxor_range; [lia| |].
  - destruct (Z.odd c); [apply poly_range|lia].
  - apply shiftr_range; lia.
Qed.

Lemma iter_crc_bit_range n c : 0 <= c < 2 ^ 32 -> 0 <= Nat.iter n crc_bit c < 2 ^ 32.
Proof. intros. induction n; simpl; auto using crc_bit_range. Qed.

Lemma iter_crc_bit_inj n a b :
  0 <= a < 2 ^ 32 -> 0 <= b < 2 ^ 32 ->
  Nat.iter n crc_bit a = Nat.iter n crc_bit b -> a = b.
Proof.
  intros Ha Hb. induction n as [|n IH]; simpl; [done|]. intros E. apply IH.
  rewrite <- (crc_unbit_bit (Nat.iter n crc_bit a)) by (by apply iter_crc_bit_range).
  rewrite E. apply crc_unbit_bit. by apply iter_crc_bit_range.
Qed.

Lemma lxor_inj_r a b c : Z.lxor a c = Z.lxor b c -> a = b.
Proof.
  intros E. apply (f_equal (fun x => Z.lxor x c)) in E.
  by rewrite !Z.lxor_assoc, !Z.lxor_nilpotent, !Z.lxor_0_r in E.
Qed.

Lemma byte_u32 b : is_byte b -> 0 <= b < 2 ^ 32.
Proof. unfold is_byte. lia. Qed.

Lemma crc_step_range c b : 0 <= c < 2 ^ 32 -> is_byte b -> 0 <= crc_step c b < 2 ^ 32.
Proof.
  intros Hc Hb. apply iter_crc_bit_range, lxor_range; auto using byte_u32. lia.
Qed.

Lemma fold_crc_step_range l c :
  0 <= c < 2 ^ 32 -> bytes_ok l -> 0 <= fold_left crc_step l c < 2 ^ 32.
Proof.
  intros Hc Hl. revert c Hc. induction Hl; intros; simpl; auto using crc_step_range.
Qed.

Lemma fold_crc_step_inj l a b :
  0 <= a < 2 ^ 32 -> 0 <= b < 2 ^ 32 -> bytes_ok l ->
  fold_left crc_step l a = fold_left crc_step l b -> a = b.
Proof.
  intros Ha Hb Hl. revert a b Ha Hb.
  induction Hl as [|x l Hx Hl IH]; intros a b Ha Hb; simpl; [done|]. intros E.
  apply IH in E; auto using crc_step_range.
  apply iter_crc_bit_inj in E; try (apply lxor_range; auto using byte_u32; lia).
  by apply lxor_inj_r in E.
Qed.

Lemma land_byte_shiftl b x : is_byte b -> Z.land b (Z.shiftl x 8) = 0.
Proof.
  intros Hb. apply Z.bits_inj'. intros i Hi. rewrite Z.land_spec, Z.bits_0, Z.shiftl_spec by done.
  destruct (Z.ltb_spec i 8); [by rewrite (Z.testbit_neg_r x), andb_false_r by lia|].
  by rewrite (testbit_above b 8) by (unfold is_byte in Hb; lia).
Qed.

(** Feeding bytes is feeding one number, their little-endian value. *)
Lemma fold_crc_step_number l c :
  bytes_ok l -> fold_left crc_step l c = Nat.iter (8 * length l) crc_bit (Z.lxor c (le_get l)).
Proof.
  intros Hl. revert c. induction Hl as [|b l Hb Hl IH]; intros c; cbn [fold_left le_get length].
  { by rewrite Z.lxor_0_r. }
  rewrite IH. replace (8 * S (length l))%nat with (8 * length l + 8)%nat by lia.
  rewrite Nat.iter_add. f_equal. unfold crc_step at 1.
  replace (b + 256 * le_get l) with (Z.lxor b (Z.shiftl (le_get l) 8)).
  2: { rewrite <- Z.add_nocarry_lxor, Z.shiftl_mul_pow2 by (lia || by apply land_byte_shiftl).
       lia. }
  by rewrite <- Z.lxor_assoc, (iter_crc_bit_lxor 8 (Z.lxor c b)), (iter_crc_bit_shiftl 8).
Qed.

Lemma crc32_range crc l : 0 <= crc < 2 ^ 32 -> bytes_ok l -> 0 <= crc32 crc l < 2 ^ 32.
Proof.
  intros Hc Hl. rewrite crc32_eq_ref by done. apply lxor_range; [lia| |lia].
  apply fold_crc_step_range; [|done]. apply lxor_range; lia.
Qed.

(** Checksums that agree on a change of up to four bytes: no change. *)
Lemma crc32_burst crc pre a b post :
  0 <= crc < 2 ^ 32 -> bytes_ok (pre ++ a ++ post) -> bytes_ok b ->
  length b = length a -> (length a <= 4)%nat ->
  crc32 crc (pre ++ a ++ post) = crc32 crc (pre ++ b ++ post) -> a = b.
Proof.
  intros Hc Hok Hb Hl H4 E. apply Forall_app in Hok as [Hpre Hok].
  apply Forall_app in Hok as [Ha Hpost].
  rewrite !crc32_eq_ref in E by (repeat apply Forall_app_2; done).
  unfold crc32_ref in E. apply lxor_inj_r in E. rewrite !fold_left_app in E.
  assert (Hs : 0 <= fold_left crc_step pre (Z.lxor crc 0xffffffff) < 2 ^ 32).
  { apply fold_crc_step_range; [|done]. apply lxor_range; lia. }
  assert (Hn : forall l, bytes_ok l -> (length l <= 4)%nat -> 0 <= le_get l < 2 ^ 32).
  { intros l Hlb Hll. pose proof (le_get_range l Hlb). split; [lia|].
    apply Z.lt_le_trans with (256 ^ Z.of_nat (length l)); [lia|].
    change (2 ^ 32) with (256 ^ 4). apply Z.pow_le_mono_r; lia. }
  apply (fold_crc_step_inj post) in E;
    [|by apply fold_crc_step_range|by apply fold_crc_step_range|done].
  revert Hs E. generalize (fold_left crc_step pre (Z.lxor crc 0xffffffff)) as g. intros g Hs E.
  rewrite (fold_crc_step_number a), (fold_crc_step_number b), Hl in E by done.
  apply iter_crc_bit_inj in E; [|apply lxor_range; auto with lia|apply lxor_range; auto with lia].
  rewrite !(Z.lxor_comm g) in E. apply lxor_inj_r in E.
  rewrite <- (le_put_get a), <- (le_put_get b), Hl, E by done. done.
Qed.

(** A single byte, in particular. *)
Lemma crc32_detects_byte crc pre x y post :
  0 <= crc < 2 ^ 32 -> bytes_ok (pre ++ x :: post) -> is_byte y -> x <> y ->
  crc32 crc (pre ++ x :: post) <> crc32 crc (pre ++ y :: post).
Proof.
  intros Hc Hok Hy Hne E. apply (crc32_burst crc pre [x] [y] post) in E; simpl; auto with lia.
  congruence.
Qed.

(** [crc32] detects every burst error of up to 32 bits: two buffers of
    bytes that differ only inside four consecutive bytes have different
    checksums. *)
Theorem crc32_detects_burst crc pre a b post :
  0 <= crc < 2 ^ 32 -> bytes_ok (pre ++ a ++ post) -> bytes_ok b ->
  length b = length a -> (length a <= 4)%nat -> a <> b ->
  crc32 crc (pre ++ a ++ post) <> crc32 crc (pre ++ b ++ post).
Proof.
  intros Hc Hok Hb Hl H4 Hne E. apply Hne. by apply (crc32_burst crc pre a b post).
Qed.

Example crc32_detects_burst_witness :
  crc32 0 ([1; 2] ++ [3; 4; 5; 6] ++ [7]) <> crc32 0 ([1; 2] ++ [0; 9; 5; 0] ++ [7]).
Proof.
  apply (crc32_detects_burst 0 [1; 2] [3; 4; 5; 6] [0; 9; 5; 0] [7]).
  - lia.
  - repeat constructor; unfold is_byte; lia.
  - repeat constructor; unfold is_byte; lia.
  - reflexivity.
  - simpl. lia.
  - discriminate.
Defined.

End Crc32Proofs.

Module Crc16Proofs.
Import Crc16.

(** The CRC-16 of polynomial 0x1021, most significant bit first. *)
Definition bit16 (c : Z) : Z :=
  Z.lxor (Z.shiftl c 1 mod 2 ^ 16) (if Z.testbit c 15 then 0x1021 else 0).

Definition crc16_step (crc b : Z) : Z := Nat.iter 8 bit16 (Z.lxor crc (Z.shiftl b 8)).

Lemma mod16_bits a : a mod 2 ^ 16 = Z.land a (Z.ones 16).
Proof. by rewrite Z.land_ones. Qed.

Lemma bit16_lxor a b : bit16 (Z.lxor a b) = Z.lxor (bit16 a) (bit16 b).
Proof.
  unfold bit16. rewrite Z.lxor_spec, Z.shiftl_lxor, !mod16_bits.
  destruct (Z.testbit a 15), (Z.testbit b 15); simpl xorb;
    apply Z.bits_inj'; intros i Hi;
    rewrite !Z.lxor_spec, !Z.land_spec, !Z.lxor_spec, ?Z.bits_0; btauto.
Qed.

Lemma iter_bit16_lxor n a b :
  Nat.iter n bit16 (Z.lxor a b) = Z.lxor (Nat.iter n bit16 a) (Nat.iter n bit16 b).
Proof. induction n as [|n IH]; simpl; [done|]. by rewrite IH, bit16_lxor. Qed.

(** A property of every byte, decided by trying the 256 of them. *)
Lemma byte_cases (P : Z -> bool) :
  forallb P (map Z.of_nat (seq 0 256)) = true -> forall b, is_byte b -> P b = true.
Proof.
  intros H b Hb. rewrite forallb_forall in H. apply H. unfold is_byte in Hb.
  rewrite <- (Z2Nat.id b) by lia. apply in_map, in_seq. lia.
Qed.

Lemma table_byte b :
  is_byte b -> Nat.iter 8 bit16 (Z.shiftl b 8) = nth (Z.to_nat b) crc16_tab 0.
Proof.
  intros Hb. apply Z.eqb_eq.
  apply (byte_cases (fun b => Nat.iter 8 bit16 (Z.shiftl b 8)
                              =? nth (Z.to_nat b) crc16_tab 0)); [|done].
  by vm_compute.
Qed.

Lemma low_byte b : is_byte b -> Nat.iter 8 bit16 b = Z.shiftl b 8.
Proof.
  intros Hb. apply Z.eqb_eq.
  apply (byte_cases (fun b => Nat.iter 8 bit16 b =? Z.shiftl b 8)); [|done].
  by vm_compute.
Qed.

Lemma table_range b : is_byte b -> 0 <= nth (Z.to_nat b) crc16_tab 0 < 2 ^ 16.
Proof.
  intros Hb.
  pose proof (byte_cases (fun b => (0 <=? nth (Z.to_nat b) crc16_tab 0)
    && (nth (Z.to_nat b) crc16_tab 0 <? 2 ^ 16)) ltac:(by vm_compute) b Hb) as H.
  cbv beta in H. lia.
Qed.

(** The loop's body, on a register of sixteen bits. *)
Definition loop_step (c b : Z) : Z :=
  u16 (Z.lxor (nth (Z.to_nat (Z.land (Z.lxor (Z.shiftr c 8) b) 0xff)) crc16_tab 0)
              (Z.shiftl c 8)).

Lemma crc16_loop_fold c buf : crc16_loop c buf = fold_left loop_step buf c.
Proof. revert c. induction buf; intros; simpl; auto. Qed.

Lemma loop_step_eq c b :
  0 <= c < 2 ^ 16 -> is_byte b -> loop_step c b = crc16_step c b.
Proof.
  intros Hc Hb. unfold loop_step, crc16_step.
  assert (Hh : is_byte (Z.shiftr c 8)).
  { rewrite Z.shiftr_div_pow2 by lia. unfold is_byte. Z.div_mod_to_equations. lia. }
  assert (Hx : is_byte (Z.lxor (Z.shiftr c 8) b)) by (apply (lxor_range _ _ 8); [lia|done..]).
  assert (Hl : is_byte (Z.land c 0xff)) by (apply (land_range_r _ _ 8); lia).
  replace (Z.land (Z.lxor (Z.shiftr c 8) b) 0xff) with (Z.lxor (Z.shiftr c 8) b).
  2: { change 0xff with (Z.ones 8). rewrite Z.land_ones by lia.
       rewrite Z.mod_small; [done|exact Hx]. }
  replace (Z.lxor c (Z.shiftl b 8))
    with (Z.lxor (Z.shiftl (Z.lxor (Z.shiftr c 8) b) 8) (Z.land c 0xff)).
  2: { rewrite Z.shiftl_lxor. rewrite (Crc32Proofs.split_byte c) at 3.
       apply Z.bits_inj'; intros i Hi; rewrite !Z.lxor_spec; btauto. }
  rewrite iter_bit16_lxor, table_byte, low_byte by done. unfold u16.
  pose proof (table_range _ Hx) as Ht. rewrite (Crc32Proofs.split_byte c) at 2.
  rewrite mod16_bits. apply Z.bits_inj'. intros i Hi.
  rewrite !Z.land_spec, !Z.lxor_spec, Z.testbit_ones_nonneg by lia.
  rewrite Z.shiftl_lxor, Z.lxor_spec.
  destruct (Z.ltb_spec i 16).
  - rewrite (Z.shiftl_spec (Z.shiftl _ _) 8) by lia.
    rewrite (Z.shiftl_spec_low _ 8 (i - 8)) by lia. btauto.
  - rewrite (testbit_above _ 16 i Ht) by lia.
    rewrite (Z.shiftl_spec (Z.land c 255)) by lia.
    rewrite (testbit_above (Z.land c 255) 8) by (unfold is_byte in Hl; lia). btauto.
Qed.

Lemma loop_step_range c b : 0 <= loop_step c b < 2 ^ 16.
Proof. apply Z.mod_pos_bound. lia. Qed.

Lemma fold_loop_range buf c :
  0 <= c < 2 ^ 16 -> 0 <= fold_left loop_step buf c < 2 ^ 16.
Proof. revert c. induction buf; intros; simpl; auto using loop_step_range. Qed.

Lemma fold_loop_eq buf c :
  0 <= c < 2 ^ 16 -> bytes_ok buf ->
  fold_left loop_step buf c = fold_left crc16_step buf c.
Proof.
  apply (fold_left_ext_inv (fun c => 0 <= c < 2 ^ 16) is_byte).
  - exact loop_step_eq.
  - intros. apply loop_step_range.
Qed.

(** [cyg_crc16] is the CCITT CRC of the buffer, bit by bit, and a
    message followed by its CRC, high byte first, has CRC 0, which is how a
    receiver checks it. *)
Theorem crc16_correct buf :
  bytes_ok buf ->
  cyg_crc16 buf = fold_left crc16_step buf 0 /\
  cyg_crc16 (buf ++ be_put 2 (cyg_crc16 buf)) = 0.
Proof.
  intros Hb. unfold cyg_crc16. rewrite !crc16_loop_fold. split; [by apply fold_loop_eq|].
  rewrite fold_left_app. pose proof (fold_loop_range buf 0 ltac:(lia)) as Hr.
  revert Hr. generalize (fold_left loop_step buf 0) as c. intros c Hc.
  set (h := c / 256). set (l := c mod 256).
  assert (Ec : c = 256 * h + l) by (apply Z.div_mod; lia).
  assert (Hh : 0 <= h < 256) by (unfold h; Z.div_mod_to_equations; lia).
  assert (Hl : 0 <= l < 256) by (apply Z.mod_pos_bound; lia).
  change (be_put 2 c) with [h mod 256; l]. rewrite (Z.mod_small h) by lia.
  cbn [fold_left].
  assert (E1 : loop_step c h = 256 * l).
  { unfold loop_step. rewrite Z.shiftr_div_pow2, Z.shiftl_mul_pow2 by lia.
    change (c / 2 ^ 8) with h. rewrite Z.lxor_nilpotent. change (nth _ crc16_tab 0) with 0.
    rewrite Z.lxor_0_l. unfold u16. Z.div_mod_to_equations. lia. }
  rewrite E1. unfold loop_step. rewrite Z.shiftr_div_pow2, Z.shiftl_mul_pow2 by lia.
  replace (256 * l / 2 ^ 8) with l by (rewrite Z.mul_comm, Z.div_mul; lia).
  rewrite Z.lxor_nilpotent. change (nth _ crc16_tab 0) with 0.
  rewrite Z.lxor_0_l. unfold u16. Z.div_mod_to_equations. lia.
Qed.

Example crc16_correct_witness :
  cyg_crc16 [49; 50; 51; 52; 53; 54; 55; 56; 57] = 0x31c3 /\
  (cyg_crc16 [49; 50; 51] = fold_left crc16_step [49; 50; 51] 0 /\
   cyg_crc16 ([49; 50; 51] ++ be_put 2 (cyg_crc16 [49; 50; 51])) = 0).
Proof.
  split; [vm_compute; reflexivity|]. apply (crc16_correct [49; 50; 51]).
  repeat constructor; unfold is_byte; lia.
Defined.

End Crc16Proofs.
