(* ===== verification/Hash.v ===== *)
(** * Hash: what the message digests share

    SHA-256, SHA-1 and MD5 (lib_generic/sha256.c, sha1.c, md5.c) are
    Merkle-Damgard hashes over blocks of 64 bytes, fed incrementally.  This
    file states once what their update functions have to maintain:

    - [md]: the fold of the compression function over the full blocks of a
      message, the reference every streaming function is compared with;
    - [while64]: the loop over the full blocks of the input;
    - [absorb]: fill the buffer, run the loop, keep the rest; [absorb_correct]
      is the streaming invariant of the three update functions;
    - [pad]: the padding with a one bit, zeros and the length;
    - 32-bit rotations and the bitwise functions of the rounds;
    - [view]: the registers of an unrolled round, read in rotated order. *)

From S2P Require Import Prelude.
Local Open Scope Z_scope.

(** The context of SHA-1 and SHA-256: two words of length, the chaining state,
    and the block being filled. *)
Record hash_context := Ctx {
  total0 : Z;
  total1 : Z;
  state : list Z;
  buffer : list Z
}.

(** The full blocks of a message, and what is left after them. *)
Definition blocks (l : list Z) : list (list Z) :=
  map (fun i => slice l (64 * i) 64) (seq 0 (length l / 64)).

Definition tail64 (l : list Z) : list Z := drop (64 * (length l / 64)) l.

Section Merkle_Damgard.
Variable process : list Z -> list Z -> list Z.

Definition md (st : list Z) (l : list Z) : list Z := fold_left process (blocks l) st.

(** [while (length >= 64) { process(ctx, input); ... }] *)
Fixpoint while64 (fuel : nat) (st input : list Z) : list Z * list Z :=
  match fuel with
  | O => (st, input)
  | S fuel =>
      if (64 <=? length input)%nat
      then while64 fuel (process st (take 64 input)) (drop 64 input)
      else (st, input)
  end.

Definition absorb (st buffer : list Z) (used : nat) (input : list Z) : list Z * list Z :=
  let fill := (64 - used)%nat in
  let '(st, buffer, input, used) :=
    if negb (used =? 0)%nat && (fill <=? length input)%nat then
      let buffer := splice buffer used (take fill input) in
      (process st buffer, buffer, drop fill input, O)
    else (st, buffer, input, used) in
  let '(st, rest) := while64 (length input) st input in
  (st, splice buffer used rest).

Lemma blocks_short l : (length l < 64)%nat -> blocks l = [].
Proof. intros. unfold blocks. by rewrite Nat.div_small. Qed.

Lemma tail64_short l : (length l < 64)%nat -> tail64 l = l.
Proof. intros. unfold tail64. by rewrite Nat.div_small. Qed.

Lemma blocks_cons b l : length b = 64%nat -> blocks (b ++ l) = b :: blocks l.
Proof.
  intros Hb. unfold blocks. rewrite length_app, Hb.
  replace (64 + length l)%nat with (length l + 1 * 64)%nat by lia.
  rewrite Nat.div_add, Nat.add_1_r, <- cons_seq, <- fmap_S_seq by lia.
  cbn [map]. f_equal.
  - unfold slice. simpl drop. apply take_app_length'. done.
  - rewrite map_map. apply map_ext_in. intros i _. unfold slice. f_equal.
    replace (64 * S i)%nat with (length b + 64 * i)%nat by lia.
    by rewrite <- drop_drop, drop_app_length.
Qed.

Lemma tail64_cons b l : length b = 64%nat -> tail64 (b ++ l) = tail64 l.
Proof.
  intros Hb. unfold tail64. rewrite length_app, Hb.
  replace (64 + length l)%nat with (length l + 1 * 64)%nat by lia.
  rewrite Nat.div_add by lia.
  replace (64 * (length l / 64 + 1))%nat with (length b + 64 * (length l / 64))%nat by lia.
  by rewrite <- drop_drop, drop_app_length.
Qed.

(** Induction over a message, block by block. *)
Lemma block_ind (P : list Z -> Prop) :
  (forall l, (length l < 64)%nat -> P l) ->
  (forall b l, length b = 64%nat -> P l -> P (b ++ l)) -> forall l, P l.
Proof.
  intros H0 Hs l. remember (length l) as n eqn:E. revert l E.
  induction n as [n IH] using lt_wf_ind. intros l ->.
  destruct (decide (length l < 64)%nat); [by apply H0|].
  rewrite <- (take_drop 64 l). apply Hs; [rewrite length_take; lia|].
  apply (IH (length (drop 64 l))); [rewrite length_drop; lia|done].
Qed.

Lemma md_cons st b l : length b = 64%nat -> md st (b ++ l) = md (process st b) l.
Proof. intros. unfold md. by rewrite blocks_cons. Qed.

Lemma md_short st l : (length l < 64)%nat -> md st l = st.
Proof. intros. unfold md. by rewrite blocks_short. Qed.

Lemma md_one st b : length b = 64%nat -> md st b = process st b.
Proof.
  intros. rewrite <- (app_nil_r b) at 1. rewrite md_cons, md_short; [done|simpl; lia|done].
Qed.

Lemma while64_S fuel st input :
  while64 (S fuel) st input =
  if (64 <=? length input)%nat
  then while64 fuel (process st (take 64 input)) (drop 64 input) else (st, input).
Proof. reflexivity. Qed.

Lemma while64_md fuel st l :
  (length l <= fuel)%nat -> while64 fuel st l = (md st l, tail64 l).
Proof.
  revert fuel st. induction l as [l Hl|b l Hb IH] using block_ind; intros fuel st Hf.
  - rewrite md_short, tail64_short by done.
    destruct fuel; [done|]. rewrite while64_S. by destruct (Nat.leb_spec 64 (length l)); [lia|].
  - rewrite length_app in Hf. destruct fuel as [|fuel]; [lia|]. rewrite while64_S.
    rewrite length_app, Hb. destruct (Nat.leb_spec 64 (64 + length l)); [|lia].
    rewrite take_app_length', drop_app_length' by done.
    rewrite IH by lia. by rewrite md_cons, tail64_cons.
Qed.

Lemma length_tail64 l : length (tail64 l) = (length l mod 64)%nat.
Proof.
  unfold tail64. rewrite length_drop. pose proof (Nat.div_mod_eq (length l) 64). lia.
Qed.

(** A message is its full blocks, then its tail. *)
Lemma md_tail st l r : md st (l ++ r) = md (md st l) (tail64 l ++ r).
Proof.
  revert st. induction l as [l Hl|b l Hb IH] using block_ind; intros st.
  - by rewrite (md_short st l), tail64_short.
  - rewrite <- app_assoc, tail64_cons, (md_cons st b l), (md_cons st b (l ++ r)) by done.
    apply IH.
Qed.

Lemma tail64_app l r : tail64 (l ++ r) = tail64 (tail64 l ++ r).
Proof.
  induction l as [l Hl|b l Hb IH] using block_ind.
  - by rewrite (tail64_short l).
  - rewrite <- app_assoc, (tail64_cons b l), (tail64_cons b (l ++ r)) by done. exact IH.
Qed.

(** The buffer holds the tail of the message so far. *)
Definition holds (init st buffer msg : list Z) : Prop :=
  st = md init msg /\ length buffer = 64%nat /\     take (length msg mod 64) buffer = tail64 msg.

Lemma absorb_correct init st buffer msg input st' buffer' :
  holds init st buffer msg ->
  absorb st buffer (length msg mod 64) input = (st', buffer') ->
  holds init st' buffer' (msg ++ input).
Proof.
  intros (-> & Hlen & Htail). unfold absorb. set (used := (length msg mod 64)%nat) in *.
  assert (Hu : (used < 64)%nat) by (apply Nat.mod_upper_bound; lia).
  assert (Ht : length (tail64 msg) = used) by apply length_tail64.
  unfold holds. rewrite (md_tail init msg input), (tail64_app msg input).
  assert (Hm : (length (msg ++ input) mod 64)%nat = length (tail64 (tail64 msg ++ input))).
  { by rewrite <- tail64_app, length_tail64. }
  rewrite Hm. clear Hm.
  destruct (Nat.eqb_spec used 0) as [E0|Hn0]; [|destruct (Nat.leb_spec (64 - used) (length input))];
    cbn [negb andb]; rewrite while64_md by lia; intros [= <- <-].
  - assert (tail64 msg = []) as -> by (apply nil_length_inv; lia). rewrite E0. simpl app.
    pose proof (length_tail64 input). pose proof (Nat.mod_upper_bound (length input) 64).
    split; [done|]. rewrite length_splice by lia. split; [done|].
    rewrite take_splice_0 by lia. done.
  - set (b := splice buffer used (take (64 - used) input)).
    assert (Hb : b = tail64 msg ++ take (64 - used) input).
    { unfold b, splice. rewrite Htail, length_take, drop_ge, app_nil_r by lia. done. }
    assert (Hb64 : length b = 64%nat) by (rewrite Hb, length_app, length_take; lia).
    assert (Ei : tail64 msg ++ input = b ++ drop (64 - used) input)
      by (rewrite Hb, <- app_assoc, take_drop; done).
    rewrite Ei, md_cons, tail64_cons by done. split; [done|].
    set (r := drop (64 - used) input).
    pose proof (length_tail64 r). pose proof (Nat.mod_upper_bound (length r) 64).
    rewrite length_splice by lia. split; [done|].
    rewrite take_splice_0 by lia. done.
  - rewrite (md_short _ input), (tail64_short input) by lia.
    assert (Hs : (length (tail64 msg ++ input) < 64)%nat) by (rewrite length_app; lia).
    rewrite (md_short _ (tail64 msg ++ input)), (tail64_short (tail64 msg ++ input)) by done.
    split; [done|].
    rewrite length_splice by lia. split; [done|].
    rewrite length_app, Ht, take_splice, Htail by lia. done.
Qed.

Lemma holds_nil init buffer : length buffer = 64%nat -> holds init init buffer [].
Proof. by intros. Qed.
End Merkle_Damgard.

(** ** Rotations and words *)

(** The rotations of the 32-bit word [x], by arithmetic. *)
Definition rotl (n x : Z) : Z := x mod 2 ^ (32 - n) * 2 ^ n + u32 x / 2 ^ (32 - n).
Definition rotr (n x : Z) : Z := rotl (32 - n) x.

Lemma rotl_lor n x :
  0 < n < 32 -> Z.lor (u32 (Z.shiftl x n)) (Z.shiftr (u32 x) (32 - n)) = rotl n x.
Proof.
  intros Hn. unfold rotl. rewrite Z.shiftl_mul_pow2, Z.shiftr_div_pow2 by lia.
  replace (u32 (x * 2 ^ n)) with (x mod 2 ^ (32 - n) * 2 ^ n).
  - rewrite Z.lor_comm, lor_low_high; [lia|lia|].
    pose proof (u32_range x). split; [apply Z.div_pos; lia|].
    apply Z.div_lt_upper_bound; [lia|]. rewrite <- Z.pow_add_r by lia.
    replace (32 - n + n) with 32 by lia. lia.
  - unfold u32. replace 32 with ((32 - n) + n) at 2 by lia.
    rewrite Z.pow_add_r, Zmult_mod_distr_r by lia. done.
Qed.

(** The choice and majority functions of the rounds, and the cheaper forms
    the sources use. *)
Definition Ch (x y z : Z) : Z := Z.lxor (Z.land x y) (Z.land (Z.lnot x) z).
Definition Maj (x y z : Z) : Z := Z.lxor (Z.lxor (Z.land x y) (Z.land x z)) (Z.land y z).
Definition Parity (x y z : Z) : Z := Z.lxor (Z.lxor x y) z.

Ltac bitwise :=
  apply Z.bits_inj'; let i := fresh "i" in let Hi := fresh "Hi" in intros i Hi;
  rewrite ?Z.lxor_spec, ?Z.lor_spec, ?Z.land_spec, ?Z.lxor_spec, ?Z.lor_spec, ?Z.land_spec,
    ?Z.lnot_spec by assumption; btauto.

Lemma Ch_mux x y z : Z.lxor z (Z.land x (Z.lxor y z)) = Ch x y z.
Proof. unfold Ch. bitwise. Qed.

Lemma Maj_or x y z : Z.lor (Z.land x y) (Z.land z (Z.lor x y)) = Maj x y z.
Proof. unfold Maj. bitwise. Qed.

(** [GET_UINT32_BE], [PUT_UINT32_BE] of sha256.c and sha1.c. *)
Definition GET_UINT32_BE (b : list Z) (i : nat) : Z :=
  Z.lor (Z.lor (Z.lor (u32 (Z.shiftl (nth i b 0) 24)) (Z.shiftl (nth (i + 1) b 0) 16))
               (Z.shiftl (nth (i + 2) b 0) 8)) (nth (i + 3) b 0).

Definition PUT_UINT32_BE (n : Z) : list Z :=
  [u8 (Z.shiftr n 24); u8 (Z.shiftr n 16); u8 (Z.shiftr n 8); u8 n].

Lemma PUT_UINT32_BE_be n : PUT_UINT32_BE n = be_put 4 n.
Proof.
  unfold PUT_UINT32_BE, be_put, u8. cbn [le_put rev app].
  rewrite !Z.shiftr_div_pow2 by lia. change (2 ^ 8) with 256.
  rewrite !Z.div_div by lia. reflexivity.
Qed.

Lemma nth_byte l i : bytes_ok l -> is_byte (nth i l 0).
Proof.
  intros H. rewrite nth_default_lookup. destruct (l !! i) eqn:E; simpl.
  - eapply Forall_lookup_1 in H; eauto.
  - unfold is_byte. lia.
Qed.

Lemma GET_UINT32_BE_be b i :
  bytes_ok b ->
  GET_UINT32_BE b i = be_get [nth i b 0; nth (i + 1) b 0; nth (i + 2) b 0; nth (i + 3) b 0].
Proof.
  intros Hb. unfold GET_UINT32_BE, be_get. cbn [rev app le_get].
  pose proof (nth_byte b i Hb). pose proof (nth_byte b (i + 1) Hb).
  pose proof (nth_byte b (i + 2) Hb). pose proof (nth_byte b (i + 3) Hb).
  revert H H0 H1 H2. unfold is_byte.
  generalize (nth i b 0), (nth (i + 1) b 0), (nth (i + 2) b 0), (nth (i + 3) b 0).
  intros a c d e Ha Hc Hd He.
  rewrite (Z.lor_comm _ e), (Z.lor_comm _ (Z.shiftl d 8)), (Z.lor_comm _ (Z.shiftl c 16)).
  rewrite u32_small by (rewrite Z.shiftl_mul_pow2 by lia; lia).
  replace (Z.shiftl a 24) with (a * 2 ^ 8 * 2 ^ 16) by (rewrite Z.shiftl_mul_pow2; lia).
  replace (Z.shiftl c 16) with (c * 2 ^ 16) by (rewrite Z.shiftl_mul_pow2; lia).
  replace (Z.lor (c * 2 ^ 16) (a * 2 ^ 8 * 2 ^ 16)) with ((c + a * 2 ^ 8) * 2 ^ 8 * 2 ^ 8).
  2: { rewrite <- (lor_low_high c a 8) by lia.
       rewrite <- !Z.shiftl_mul_pow2, !Z.shiftl_lor, !Z.shiftl_shiftl by lia. done. }
  replace (Z.lor (Z.shiftl d 8) ((c + a * 2 ^ 8) * 2 ^ 8 * 2 ^ 8))
    with ((d + (c + a * 2 ^ 8) * 2 ^ 8) * 2 ^ 8).
  2: { rewrite <- (lor_low_high d _ 8) by lia.
       rewrite <- !Z.shiftl_mul_pow2, !Z.shiftl_lor, !Z.shiftl_shiftl by lia. done. }
  rewrite lor_low_high by lia. lia.
Qed.

(** ** The length of a message in two words *)

(** [total0], [total1] count the bytes of the message modulo 2^64. *)
Definition counts (t0 t1 n : Z) : Prop :=
  is_u32 t0 /\ is_u32 t1 /\ t0 + 2 ^ 32 * t1 = n mod 2 ^ 64.

Lemma counts_0 : counts 0 0 0.
Proof. unfold counts, is_u32. by rewrite Z.mod_0_l. Qed.

Lemma counts_mod64 t0 t1 n : 0 <= n -> counts t0 t1 n -> Z.to_nat (Z.land t0 0x3f) = (Z.to_nat n mod 64)%nat.
Proof.
  intros Hn (H0 & H1 & E). unfold is_u32 in *. change 0x3f with (Z.ones 6).
  rewrite Z.land_ones by lia. apply Nat2Z.inj.
  rewrite Nat2Z.inj_mod, !Z2Nat.id by (try apply Z.mod_pos_bound; lia).
  change (2 ^ 6) with 64. Z.div_mod_to_equations. lia.
Qed.

Lemma counts_add t0 t1 n k :
  counts t0 t1 n -> is_u32 k ->
  counts (u32 (t0 + k)) (if u32 (t0 + k) <? k then u32 (t1 + 1) else t1) (n + k).
Proof.
  intros (H0 & H1 & E) Hk. unfold is_u32 in *.
  assert (E' : (n + k) mod 2 ^ 64 = (t0 + 2 ^ 32 * t1 + k) mod 2 ^ 64).
  { rewrite E. by rewrite Zplus_mod_idemp_l. }
  unfold counts, is_u32. rewrite E'. clear E E'. pose proof (u32_range (t0 + k)).
  destruct (Z.ltb_spec (u32 (t0 + k)) k); pose proof (u32_range (t1 + 1));
    (split; [lia|split; [lia|]]); unfold u32 in *; Z.div_mod_to_equations; lia.
Qed.

(** The length field: the number of bits, in eight bytes. *)
Lemma counts_bits t0 t1 n :
  counts t0 t1 n ->
  be_put 4 (Z.lor (Z.shiftr t0 29) (u32 (Z.shiftl t1 3))) ++ be_put 4 (u32 (Z.shiftl t0 3))
  = be_put 8 (8 * n).
Proof.
  intros (H0 & H1 & E). unfold is_u32 in *.
  rewrite Z.shiftr_div_pow2, !Z.shiftl_mul_pow2 by lia.
  replace (u32 (t1 * 2 ^ 3)) with (t1 mod 2 ^ 29 * 2 ^ 3)
    by (unfold u32; change (2 ^ 32) with (2 ^ 29 * 2 ^ 3); by rewrite Zmult_mod_distr_r).
  rewrite lor_low_high by (Z.div_mod_to_equations; lia).
  unfold be_put. rewrite <- rev_app_distr. f_equal.
  rewrite <- (le_put_get (le_put 4 (u32 (t0 * 2 ^ 3)) ++
                le_put 4 (t0 / 2 ^ 29 + t1 mod 2 ^ 29 * 2 ^ 3))).
  2: { apply Forall_app_2; apply bytes_ok_le_put. }
  rewrite le_get_app, !le_get_put, length_app, !length_le_put.
  apply le_put_mod. unfold u32. change (256 ^ Z.of_nat 8) with (2 ^ 64).
  change (256 ^ Z.of_nat 4) with (2 ^ 32). Z.div_mod_to_equations. lia.
Qed.

(** ** Padding *)

(** A one bit, and zeros up to eight bytes before the end of a block. *)
Definition pad_zeros (n : nat) : nat := (119 - n mod 64) mod 64.

Definition pad_with (len_field msg : list Z) : list Z :=
  msg ++ 0x80 :: replicate (pad_zeros (length msg)) 0 ++ len_field.

(** The padding of SHA-1 and SHA-256. *)
Definition pad (msg : list Z) : list Z :=
  pad_with (be_put 8 (8 * Z.of_nat (length msg))) msg.

Lemma pad_with_blocks f msg :
  length f = 8%nat -> (length (pad_with f msg) mod 64 = 0)%nat.
Proof.
  intros Hf. unfold pad_with, pad_zeros.
  rewrite length_app. cbn [length]. rewrite length_app, length_replicate, Hf.
  pose proof (Nat.mod_upper_bound (length msg) 64 ltac:(lia)) as Hr.
  rewrite (Nat.div_mod_eq (length msg) 64) at 1.
  destruct (decide (length msg mod 64 <= 55)%nat).
  - replace (119 - length msg mod 64)%nat with (55 - length msg mod 64 + 1 * 64)%nat by lia.
    rewrite Nat.Div0.mod_add, (Nat.mod_small (55 - _)) by lia.
    apply Nat.Lcm0.mod_divide. exists (length msg / 64 + 1)%nat. lia.
  - rewrite (Nat.mod_small (119 - _)) by lia.
    apply Nat.Lcm0.mod_divide. exists (length msg / 64 + 2)%nat. lia.
Qed.

(** The number of padding bytes the finish functions compute. *)
Lemma padn_zeros n :
  (n < 64)%nat ->
  (if (n <? 56)%nat then 56 - n else 120 - n)%nat = S (pad_zeros n).
Proof.
  intros Hn. unfold pad_zeros. rewrite (Nat.mod_small n) by lia.
  destruct (Nat.ltb_spec n 56).
  - replace (119 - n)%nat with (55 - n + 1 * 64)%nat by lia.
    rewrite Nat.Div0.mod_add, Nat.mod_small; lia.
  - rewrite Nat.mod_small; lia.
Qed.

Lemma pad_zeros_mod n : pad_zeros (n mod 64) = pad_zeros n.
Proof. unfold pad_zeros. by rewrite Nat.Div0.mod_mod. Qed.

(** The integer [k]-th root of [n], by bisection between 0 and [2^b]. *)
Fixpoint iroot (k : Z) (b : nat) (lo n : Z) : Z :=
  match b with
  | O => lo
  | S b => let mid := lo + 2 ^ Z.of_nat b in
           iroot k b (if mid ^ k <=? n then mid else lo) n
  end.

(** ** Rotating registers *)

(** An unrolled round names its registers rotated: the [i]-th argument of
    round [t] is register [(i - t) mod m]. *)
Definition rg (m t i : nat) : nat := ((i + (m - t mod m)) mod m)%nat.

Definition view (m t : nat) (r : list Z) : list Z :=
  map (fun i => nth (rg m t i) r 0) (seq 0 m).

(** After a whole turn of the registers they are back in place. *)
Lemma view_id m t r : length r = m -> (t mod m = 0)%nat -> view m t r = r.
Proof.
  intros Hr Ht. unfold view, rg. rewrite Ht, Nat.sub_0_r.
  apply (nth_ext _ _ 0 0); [by rewrite length_map, length_seq|].
  intros i Hi. rewrite length_map, length_seq in Hi.
  rewrite (nth_indep _ 0 (nth ((m + m) mod m) r 0)) by (rewrite length_map, length_seq; lia).
  rewrite (map_nth (fun i => nth ((i + m) mod m) r 0)), seq_nth by lia.
  rewrite <- (Nat.mul_1_l m) at 1. rewrite Nat.Div0.mod_add. f_equal.
  apply Nat.mod_small. lia.
Qed.

(** ** Message schedules *)

Section Schedule.
Variable f : list Z -> Z.

(** [n] more words, each computed from those before it. *)
Fixpoint grow (n : nat) (M : list Z) : list Z :=
  match n with
  | O => M
  | S n => let W := grow n M in W ++ [f W]
  end.

Lemma length_grow n M : length (grow n M) = (length M + n)%nat.
Proof. induction n as [|n IH]; simpl; [lia|]. rewrite length_app, IH. simpl. lia. Qed.

Lemma nth_grow_le n j M i :
  (j <= n)%nat -> (i < length M + j)%nat -> nth i (grow n M) 0 = nth i (grow j M) 0.
Proof.
  intros Hj Hi. induction Hj as [|n Hj IH]; [done|]. simpl.
  rewrite app_nth1; [exact IH|]. rewrite length_grow. lia.
Qed.

Lemma nth_grow n j M :
  (j < n)%nat -> nth (length M + j) (grow n M) 0 = f (grow j M).
Proof.
  intros Hj. rewrite (nth_grow_le n (S j)) by lia. simpl.
  rewrite app_nth2 by (rewrite length_grow; lia). rewrite length_grow.
  by replace (_ - _)%nat with 0%nat by lia.
Qed.
End Schedule.

(** The sixteen words of a block. *)
Definition words_of (get : list Z -> Z) (block : list Z) : list Z :=
  map (fun i => get (slice block (4 * i) 4)) (seq 0 16).

Lemma slice4 l i :
  (i + 4 <= length l)%nat ->
  slice l i 4 = [nth i l 0; nth (i + 1) l 0; nth (i + 2) l 0; nth (i + 3) l 0].
Proof.
  intros Hi. unfold slice.
  assert (Hn : forall k, nth (i + k) l 0 = nth k (drop i l) 0)
    by (intros; by rewrite nth_skipn).
  rewrite <- (Nat.add_0_r i) at 2. rewrite !Hn.
  assert (Hl : (4 <= length (drop i l))%nat) by (rewrite length_drop; lia).
  destruct (drop i l) as [|a [|b [|c [|d r]]]]; simpl in Hl; try lia. reflexivity.
Qed.

Lemma words_of_GET data :
  length data = 64%nat -> bytes_ok data ->
  map (fun i => GET_UINT32_BE data (4 * i)) (seq 0 16) = words_of be_get data.
Proof.
  intros Hl Hb. apply map_ext_in. intros i Hi. apply in_seq in Hi.
  rewrite GET_UINT32_BE_be, slice4 by (done || lia). done.
Qed.

(** Writing the next word into the array agrees with growing the list. *)
Lemma nth_insert (l : list Z) i j v d :
  (i < length l)%nat -> nth j (<[i := v]> l) d = if decide (i = j) then v else nth j l d.
Proof.
  intros Hi. rewrite !nth_default_lookup. destruct (decide (i = j)) as [<-|Hn].
  - by rewrite list_lookup_insert_eq.
  - by rewrite list_lookup_insert_ne.
Qed.

(** Folding over the round numbers, an invariant indexed by the round. *)
Lemma fold_seq_inv {A} (I : nat -> A -> Prop) (f : A -> nat -> A) n a :
  I 0%nat a -> (forall t a, (t < n)%nat -> I t a -> I (S t) (f a t)) ->
  I n (fold_left f (seq 0 n) a).
Proof.
  intros H0 Hs. induction n as [|n IH]; [done|].
  rewrite seq_S, fold_left_app. simpl. apply Hs; [lia|].
  apply IH. intros. apply Hs; [lia|done].
Qed.

Lemma fold_left_map_ {A B C} (f : A -> C -> A) (g : B -> C) l a :
  fold_left f (map g l) a = fold_left (fun a b => f a (g b)) l a.
Proof. revert a. induction l; intros; simpl; auto. Qed.

(** The finish functions feed the padding as two more inputs. *)
Lemma pad_pieces msg f :
  let last := (length msg mod 64)%nat in
  let padn := (if (last <? 56)%nat then 56 - last else 120 - last)%nat in
  (msg ++ take padn (0x80 :: replicate 63 0)) ++ f = pad_with f msg.
Proof.
  intros last padn. assert (Hl : (last < 64)%nat) by (apply Nat.mod_upper_bound; lia).
  unfold padn. rewrite padn_zeros by done. unfold last. rewrite pad_zeros_mod.
  unfold pad_with. rewrite <- app_assoc. f_equal. rewrite firstn_cons, take_replicate.
  simpl app. do 4 f_equal. unfold pad_zeros.
  pose proof (Nat.mod_upper_bound (119 - length msg mod 64) 64). lia.
Qed.

(** The chaining state keeps its length. *)
Lemma length_md n p st l :
  (forall st b, length st = n -> length (p st b) = n) -> length st = n ->
  length (md p st l) = n.
Proof.
  intros Hp. unfold md. generalize (blocks l) as bs. intros bs. revert st.
  induction bs; intros st Hs; simpl; auto.
Qed.

(** The bytes of a digest from its words. *)
Lemma length_words (f : Z -> list Z) l :
  (forall x, length (f x) = 4%nat) -> length (concat (map f l)) = (4 * length l)%nat.
Proof. intros Hf. induction l as [|x l IH]; simpl; [done|]. rewrite length_app, Hf, IH. lia. Qed.

(** Hashing is the same for two compression functions that agree on blocks
    of bytes. *)
Lemma md_ext n p q st l :
  (forall st b, length st = n -> length b = 64%nat -> bytes_ok b -> p st b = q st b) ->
  (forall st b, length st = n -> length (q st b) = n) ->
  length st = n -> bytes_ok l -> md p st l = md q st l.
Proof.
  intros Hpq Hq. revert st. induction l as [l Hl|b l Hb IH] using block_ind; intros st Hs Hok.
  - by rewrite !md_short.
  - apply Forall_app in Hok as [Hokb Hokl]. rewrite !md_cons, Hpq by done. auto.
Qed.

Lemma bytes_ok_be_put n z : bytes_ok (be_put n z).
Proof. unfold be_put. apply Forall_rev, bytes_ok_le_put. Qed.

Lemma bytes_ok_pad_with f msg : bytes_ok f -> bytes_ok msg -> bytes_ok (pad_with f msg).
Proof.
  intros Hf Hm. apply Forall_app_2; [done|]. constructor; [by unfold is_byte|].
  apply Forall_app_2; [|done]. apply Forall_replicate. by unfold is_byte.
Qed.

Lemma bytes_ok_pad msg : bytes_ok msg -> bytes_ok (pad msg).
Proof. apply bytes_ok_pad_with, bytes_ok_be_put. Qed.

(** ** What an update function promises to the code that streams data *)

(** [update] is the update function of the hash with compression function
    [process], on inputs of fewer than [limit] bytes. *)
Class StreamingHash (process : list Z -> list Z -> list Z)
    (update : hash_context -> list Z -> hash_context) (limit : Z) := {
  stream_limit : limit <= 2 ^ 32;
  stream_nil : forall ctx, update ctx [] = ctx;
  stream_absorb : forall ctx input,
    input <> [] -> Z.of_nat (length input) < limit ->
    let n := Z.of_nat (length input) in
    let t0 := u32 (total0 ctx + n) in
    let '(st, b) := absorb process (state ctx) (buffer ctx)
                      (Z.to_nat (Z.land (total0 ctx) 0x3f)) input in
    update ctx input = Ctx t0 (if t0 <? n then u32 (total1 ctx + 1) else total1 ctx) st b
}.

Section Streaming.
Context `{SH : StreamingHash process update limit}.
Variable init : list Z.

(** The context after the bytes [msg]. *)
Definition ctx_inv (msg : list Z) (ctx : hash_context) : Prop :=
  counts (total0 ctx) (total1 ctx) (Z.of_nat (length msg)) /\
  holds process init (state ctx) (buffer ctx) msg.

Lemma ctx_inv_start b : length b = 64%nat -> ctx_inv [] (Ctx 0 0 init b).
Proof. intros. split; [apply counts_0|by apply holds_nil]. Qed.

Lemma counts_used msg ctx :
  ctx_inv msg ctx -> Z.to_nat (Z.land (total0 ctx) 0x3f) = (length msg mod 64)%nat.
Proof.
  intros [Hc _]. by rewrite (counts_mod64 _ _ _ (Nat2Z.is_nonneg _) Hc), Nat2Z.id.
Qed.

Lemma update_inv msg ctx input :
  Z.of_nat (length input) < limit -> ctx_inv msg ctx ->
  ctx_inv (msg ++ input) (update ctx input).
Proof.
  intros Hl Hi. destruct (decide (input = [])) as [->|Hne].
  { by rewrite app_nil_r, stream_nil. }
  pose proof (counts_used _ _ Hi) as Hu. destruct Hi as [Hc Hh].
  pose proof (stream_absorb ctx input Hne Hl) as Ha. cbv zeta in Ha. rewrite Hu in Ha.
  destruct (absorb _ _ _ _ input) as [st b] eqn:Eab. rewrite Ha. split; cbn.
  - rewrite length_app, Nat2Z.inj_add. apply counts_add; [done|].
    pose proof stream_limit. unfold is_u32. lia.
  - by apply (absorb_correct _ _ _ _ _ _ _ _ Hh).
Qed.

Lemma updates_inv chunks msg ctx :
  Forall (fun c => Z.of_nat (length c) < limit) chunks -> ctx_inv msg ctx ->
  ctx_inv (msg ++ concat chunks) (fold_left update chunks ctx).
Proof.
  intros Hc. revert msg ctx. induction Hc as [|c chunks Hc _ IH]; intros msg ctx Hi;
    cbn [concat fold_left]; [by rewrite app_nil_r|].
  rewrite app_assoc. by apply IH, update_inv.
Qed.

(** What the finish functions do: the padding, then the length. *)
Definition finish_updates (ctx : hash_context) : hash_context :=
  let high := Z.lor (Z.shiftr (total0 ctx) 29) (u32 (Z.shiftl (total1 ctx) 3)) in
  let low := u32 (Z.shiftl (total0 ctx) 3) in
  let msglen := PUT_UINT32_BE high ++ PUT_UINT32_BE low in
  let last := Z.to_nat (Z.land (total0 ctx) 0x3f) in
  let padn := (if (last <? 56)%nat then 56 - last else 120 - last)%nat in
  update (update ctx (take padn (0x80 :: replicate 63 0))) msglen.

Lemma finish_state msg ctx :
  64 < limit -> ctx_inv msg ctx -> state (finish_updates ctx) = md process init (pad msg).
Proof.
  intros Hlim Hi. unfold finish_updates. rewrite !PUT_UINT32_BE_be, (counts_used _ _ Hi).
  pose proof Hi as [Hc _]. rewrite (counts_bits _ _ _ Hc). set (padding := take _ _).
  assert (Hp : Z.of_nat (length padding) < limit).
  { unfold padding. rewrite length_take. simpl length. lia. }
  assert (Hf : ctx_inv (pad msg)
    (update (update ctx padding) (be_put 8 (8 * Z.of_nat (length msg))))).
  { unfold pad. rewrite <- pad_pieces. apply update_inv; [rewrite length_be_put; lia|].
    by apply update_inv. }
  by destruct Hf as [_ [-> _]].
Qed.
End Streaming.
