(* ===== verification/Sha256.v ===== *)
(** * Sha256: lib_generic/sha256.c

    The compression function with its 64 unrolled rounds, the streaming
    [sha256_update] and [sha256_finish].  A context is a [hash_context]; an
    input is the list of its bytes, its [length] argument the length of the
    list (a uint32_t).

    The reference is FIPS 180-2: message schedule, rounds on eight working
    variables that move by one place, padding, and the constants as the
    fractional parts of the roots of the first primes. *)

From S2P Require Import Prelude Hash.
Local Open Scope Z_scope.

Module SHA256.

(** ** The source's macros *)

Definition SHR (x n : Z) : Z := Z.shiftr (Z.land x 0xffffffff) n.
Definition ROTR (x n : Z) : Z := Z.lor (SHR x n) (u32 (Z.shiftl x (32 - n))).

Definition S0 (x : Z) : Z := Z.lxor (Z.lxor (ROTR x 7) (ROTR x 18)) (SHR x 3).
Definition S1 (x : Z) : Z := Z.lxor (Z.lxor (ROTR x 17) (ROTR x 19)) (SHR x 10).
Definition S2 (x : Z) : Z := Z.lxor (Z.lxor (ROTR x 2) (ROTR x 13)) (ROTR x 22).
Definition S3 (x : Z) : Z := Z.lxor (Z.lxor (ROTR x 6) (ROTR x 11)) (ROTR x 25).

Definition F0 (x y z : Z) : Z := Z.lor (Z.land x y) (Z.land z (Z.lor x y)).
Definition F1 (x y z : Z) : Z := Z.lxor z (Z.land x (Z.lxor y z)).

(** The registers, by the place of their value in the register list. *)
Definition A : nat := 0.
Definition B : nat := 1.
Definition C : nat := 2.
Definition D : nat := 3.
Definition E : nat := 4.
Definition F : nat := 5.
Definition G : nat := 6.
Definition H : nat := 7.

(** The word a round takes: [W[t]] as it stands, or [R(t)], which computes
    and stores it. *)
Inductive word := W (t : nat) | R (t : nat).

(** One line of the unrolled rounds. *)
Inductive round := P (a b c d e f g h : nat) (x : word) (K : Z).

Definition eval_word (x : word) (w : list Z) : Z * list Z :=
  match x with
  | W t => (nth t w 0, w)
  | R t =>
      let v := u32 (S1 (nth (t - 2) w 0) + nth (t - 7) w 0 +
                    S0 (nth (t - 15) w 0) + nth (t - 16) w 0) in
      (v, <[t := v]> w)
  end.

(** The macro [P], on the registers and the schedule. *)
Definition exec (st : list Z * list Z) (p : round) : list Z * list Z :=
  let '(r, w) := st in
  let '(P a b c d e f g h x K) := p in
  let v i := nth i r 0 in
  let '(xv, w) := eval_word x w in
  let temp1 := u32 (v h + S3 (v e) + F1 (v e) (v f) (v g) + K + xv) in
  let temp2 := u32 (S2 (v a) + F0 (v a) (v b) (v c)) in
  let r := <[d := u32 (v d + temp1)]> r in
  let r := <[h := u32 (temp1 + temp2)]> r in
  (r, w).

Definition rounds : list round :=
  [
   P A B C D E F G H (W 0) 0x428A2F98;
   P H A B C D E F G (W 1) 0x71374491;
   P G H A B C D E F (W 2) 0xB5C0FBCF;
   P F G H A B C D E (W 3) 0xE9B5DBA5;
   P E F G H A B C D (W 4) 0x3956C25B;
   P D E F G H A B C (W 5) 0x59F111F1;
   P C D E F G H A B (W 6) 0x923F82A4;
   P B C D E F G H A (W 7) 0xAB1C5ED5;
   P A B C D E F G H (W 8) 0xD807AA98;
   P H A B C D E F G (W 9) 0x12835B01;
   P G H A B C D E F (W 10) 0x243185BE;
   P F G H A B C D E (W 11) 0x550C7DC3;
   P E F G H A B C D (W 12) 0x72BE5D74;
   P D E F G H A B C (W 13) 0x80DEB1FE;
   P C D E F G H A B (W 14) 0x9BDC06A7;
   P B C D E F G H A (W 15) 0xC19BF174;
   P A B C D E F G H (R 16) 0xE49B69C1;
   P H A B C D E F G (R 17) 0xEFBE4786;
   P G H A B C D E F (R 18) 0x0FC19DC6;
   P F G H A B C D E (R 19) 0x240CA1CC;
   P E F G H A B C D (R 20) 0x2DE92C6F;
   P D E F G H A B C (R 21) 0x4A7484AA;
   P C D E F G H A B (R 22) 0x5CB0A9DC;
   P B C D E F G H A (R 23) 0x76F988DA;
   P A B C D E F G H (R 24) 0x983E5152;
   P H A B C D E F G (R 25) 0xA831C66D;
   P G H A B C D E F (R 26) 0xB00327C8;
   P F G H A B C D E (R 27) 0xBF597FC7;
   P E F G H A B C D (R 28) 0xC6E00BF3;
   P D E F G H A B C (R 29) 0xD5A79147;
   P C D E F G H A B (R 30) 0x06CA6351;
   P B C D E F G H A (R 31) 0x14292967;
   P A B C D E F G H (R 32) 0x27B70A85;
   P H A B C D E F G (R 33) 0x2E1B2138;
   P G H A B C D E F (R 34) 0x4D2C6DFC;
   P F G H A B C D E (R 35) 0x53380D13;
   P E F G H A B C D (R 36) 0x650A7354;
   P D E F G H A B C (R 37) 0x766A0ABB;
   P C D E F G H A B (R 38) 0x81C2C92E;
   P B C D E F G H A (R 39) 0x92722C85;
   P A B C D E F G H (R 40) 0xA2BFE8A1;
   P H A B C D E F G (R 41) 0xA81A664B;
   P G H A B C D E F (R 42) 0xC24B8B70;
   P F G H A B C D E (R 43) 0xC76C51A3;
   P E F G H A B C D (R 44) 0xD192E819;
   P D E F G H A B C (R 45) 0xD6990624;
   P C D E F G H A B (R 46) 0xF40E3585;
   P B C D E F G H A (R 47) 0x106AA070;
   P A B C D E F G H (R 48) 0x19A4C116;
   P H A B C D E F G (R 49) 0x1E376C08;
   P G H A B C D E F (R 50) 0x2748774C;
   P F G H A B C D E (R 51) 0x34B0BCB5;
   P E F G H A B C D (R 52) 0x391C0CB3;
   P D E F G H A B C (R 53) 0x4ED8AA4A;
   P C D E F G H A B (R 54) 0x5B9CCA4F;
   P B C D E F G H A (R 55) 0x682E6FF3;
   P A B C D E F G H (R 56) 0x748F82EE;
   P H A B C D E F G (R 57) 0x78A5636F;
   P G H A B C D E F (R 58) 0x84C87814;
   P F G H A B C D E (R 59) 0x8CC70208;
   P E F G H A B C D (R 60) 0x90BEFFFA;
   P D E F G H A B C (R 61) 0xA4506CEB;
   P C D E F G H A B (R 62) 0xBEF9A3F7;
   P B C D E F G H A (R 63) 0xC67178F2].

(** [sha256_process]: the new chaining state.  The last 48 words of [W] are
    uninitialised in the source until [R] writes them. *)
Definition sha256_process (state data : list Z) : list Z :=
  let w := map (fun i => GET_UINT32_BE data (4 * i)) (seq 0 16) ++ replicate 48 0 in
  let '(r, _) := fold_left exec rounds (state, w) in
  zip_with (fun s x => u32 (s + x)) state r.

Definition sha256_init : list Z :=
  [0x6A09E667; 0xBB67AE85; 0x3C6EF372; 0xA54FF53A;
   0x510E527F; 0x9B05688C; 0x1F83D9AB; 0x5BE0CD19].

Definition sha256_starts (ctx : hash_context) : hash_context :=
  Ctx 0 0 sha256_init (buffer ctx).

Definition sha256_update (ctx : hash_context) (input : list Z) : hash_context :=
  let length := Z.of_nat (length input) in
  if length =? 0 then ctx else
  let used := Z.to_nat (Z.land (total0 ctx) 0x3f) in
  let fill := (64 - used)%nat in
  let total0 := Z.land (u32 (total0 ctx + length)) 0xffffffff in
  let total1 := if total0 <? length then u32 (total1 ctx + 1) else total1 ctx in
  let '(state, buffer, input, used) :=
    if negb (used =? 0)%nat && (Z.of_nat fill <=? length) then
      let buffer := splice (buffer ctx) used (take fill input) in
      (sha256_process (state ctx) buffer, buffer, drop fill input, O)
    else (state ctx, buffer ctx, input, used) in
  let '(state, input) := while64 sha256_process (List.length input) state input in
  let buffer :=
    if (List.length input =? 0)%nat then buffer else splice buffer used input in
  Ctx total0 total1 state buffer.

Definition sha256_padding : list Z := 0x80 :: replicate 63 0.

(** [sha256_finish]: the digest (the context is dead afterwards). *)
Definition sha256_finish (ctx : hash_context) : list Z :=
  let high := Z.lor (Z.shiftr (total0 ctx) 29) (u32 (Z.shiftl (total1 ctx) 3)) in
  let low := u32 (Z.shiftl (total0 ctx) 3) in
  let msglen := PUT_UINT32_BE high ++ PUT_UINT32_BE low in
  let last := Z.to_nat (Z.land (total0 ctx) 0x3f) in
  let padn := (if (last <? 56)%nat then 56 - last else 120 - last)%nat in
  let ctx := sha256_update ctx (take padn sha256_padding) in
  let ctx := sha256_update ctx msglen in
  concat (map PUT_UINT32_BE (state ctx)).

(** ** FIPS 180-2 *)

(** The first 32 bits of the fractional part of the [k]-th root of [p]. *)
Definition frac_root (k p : Z) : Z := iroot k 40 0 (p * 2 ^ (32 * k)) mod 2 ^ 32.

Definition primes : list Z :=
  [2; 3; 5; 7; 11; 13; 17; 19; 23; 29; 31; 37; 41; 43; 47; 53; 59; 61; 67; 71; 73; 79;
   83; 89; 97; 101; 103; 107; 109; 113; 127; 131; 137; 139; 149; 151; 157; 163; 167;
   173; 179; 181; 191; 193; 197; 199; 211; 223; 227; 229; 233; 239; 241; 251; 257; 263;
   269; 271; 277; 281; 283; 293; 307; 311].

Definition K256 : list Z := Eval vm_compute in map (frac_root 3) primes.
Definition H256 : list Z := Eval vm_compute in map (frac_root 2) (take 8 primes).

Definition Sigma0 (x : Z) : Z := Z.lxor (Z.lxor (rotr 2 x) (rotr 13 x)) (rotr 22 x).
Definition Sigma1 (x : Z) : Z := Z.lxor (Z.lxor (rotr 6 x) (rotr 11 x)) (rotr 25 x).
Definition sigma0 (x : Z) : Z := Z.lxor (Z.lxor (rotr 7 x) (rotr 18 x)) (u32 x / 2 ^ 3).
Definition sigma1 (x : Z) : Z := Z.lxor (Z.lxor (rotr 17 x) (rotr 19 x)) (u32 x / 2 ^ 10).

Definition next_word (w : list Z) : Z :=
  let t := length w in
  u32 (sigma1 (nth (t - 2) w 0) + nth (t - 7) w 0 +
       sigma0 (nth (t - 15) w 0) + nth (t - 16) w 0).

Definition fips_round (w : list Z) (v : list Z) (t : nat) : list Z :=
  match v with
  | [a; b; c; d; e; f; g; h] =>
      let T1 := u32 (h + Sigma1 e + Ch e f g + nth t K256 0 + nth t w 0) in
      let T2 := u32 (Sigma0 a + Maj a b c) in
      [u32 (T1 + T2); a; b; c; u32 (d + T1); e; f; g]
  | _ => v
  end.

Definition sha256_compress (st block : list Z) : list Z :=
  let w := grow next_word 48 (words_of be_get block) in
  zip_with (fun s x => u32 (s + x)) st (fold_left (fips_round w) (seq 0 64) st).

Definition sha256 (msg : list Z) : list Z :=
  concat (map (be_put 4) (md sha256_compress H256 (pad msg))).

(** ** The rounds are the standard's *)

Lemma SHR_div x n : 0 <= n -> SHR x n = u32 x / 2 ^ n.
Proof. intros. unfold SHR. by rewrite land_u32, Z.shiftr_div_pow2. Qed.

Lemma ROTR_rotr x n : 0 < n < 32 -> ROTR x n = rotr n x.
Proof.
  intros Hn. unfold ROTR, SHR, rotr. rewrite <- rotl_lor, land_u32, Z.lor_comm by lia.
  by replace (32 - (32 - n)) with n by lia.
Qed.

Lemma S0_sigma0 x : S0 x = sigma0 x.
Proof. unfold S0, sigma0. by rewrite !ROTR_rotr, SHR_div by lia. Qed.
Lemma S1_sigma1 x : S1 x = sigma1 x.
Proof. unfold S1, sigma1. by rewrite !ROTR_rotr, SHR_div by lia. Qed.
Lemma S2_Sigma0 x : S2 x = Sigma0 x.
Proof. unfold S2, Sigma0. by rewrite !ROTR_rotr by lia. Qed.
Lemma S3_Sigma1 x : S3 x = Sigma1 x.
Proof. unfold S3, Sigma1. by rewrite !ROTR_rotr by lia. Qed.
Lemma F0_Maj x y z : F0 x y z = Maj x y z.
Proof. apply Maj_or. Qed.
Lemma F1_Ch x y z : F1 x y z = Ch x y z.
Proof. apply Ch_mux. Qed.

(** The [t]-th line of the unrolled rounds. *)
Definition line (t : nat) : round :=
  P (rg 8 t 0) (rg 8 t 1) (rg 8 t 2) (rg 8 t 3) (rg 8 t 4) (rg 8 t 5) (rg 8 t 6) (rg 8 t 7)
    (if (t <? 16)%nat then W t else R t) (nth t K256 0).

Lemma sha256_rounds_lines : rounds = map line (seq 0 64).
Proof. vm_compute. reflexivity. Qed.

Lemma sha256_exec_line r w t :
  let '(xv, w') := eval_word (if (t <? 16)%nat then W t else R t) w in
  (exec (r, w) (line t)).2 = w' /\
  forall wr, length r = 8%nat -> nth t wr 0 = xv ->
    length (exec (r, w) (line t)).1 = 8%nat /\
    view 8 (S t) (exec (r, w) (line t)).1 = fips_round wr (view 8 t r) t.
Proof.
  unfold exec, line. destruct (eval_word _ w) as [xv w'] eqn:Ex. split; [done|].
  intros wr Hr Hx. cbn [fst]. split; [by rewrite !length_insert|].
  rewrite <- Hx, S3_Sigma1, F1_Ch, S2_Sigma0, F0_Maj. unfold fips_round, view, rg.
  rewrite (Nat.Div0.add_mod 1 t 8 : (S t mod 8 = _)%nat).
  generalize (nth t wr 0) as x, (nth t K256 0) as k. intros x k.
  pose proof (Nat.mod_upper_bound t 8 ltac:(lia)) as Hm. revert Hm.
  generalize (t mod 8)%nat as m. intros m Hm. clear -Hr Hm.
  destruct r as [|a [|b [|c [|d [|e [|f [|g [|h [|]]]]]]]]]; try discriminate Hr.
  do 8 (destruct m as [|m]; [reflexivity|]). lia.
Qed.

(** The schedule of the standard, word by word. *)
Lemma sha256_next_word_nth M t :
  length M = 16%nat -> (16 <= t < 64)%nat ->
  let w := grow next_word 48 M in
  nth t w 0 = u32 (sigma1 (nth (t - 2) w 0) + nth (t - 7) w 0 +
                   sigma0 (nth (t - 15) w 0) + nth (t - 16) w 0).
Proof.
  intros HM Ht w. replace t with (length M + (t - 16))%nat at 1 by lia.
  unfold w. rewrite nth_grow by lia. unfold next_word at 1.
  rewrite length_grow, HM.
  replace (16 + (t - 16))%nat with t by lia.
  rewrite !(nth_grow_le next_word 48 (t - 16)) by lia. done.
Qed.

(** After [t] rounds: the registers, read in rotated order, are the
    standard's working variables; the words computed so far are its words. *)
Definition round_inv (M st : list Z) (t : nat) (p : list Z * list Z) : Prop :=
  let wr := grow next_word 48 M in
  length p.1 = 8%nat /\ view 8 t p.1 = fold_left (fips_round wr) (seq 0 t) st /\
  length p.2 = 64%nat /\ forall i, (i < Nat.max 16 t)%nat -> nth i p.2 0 = nth i wr 0.

Lemma sha256_eval_word_inv M st t p :
  length M = 16%nat -> (t < 64)%nat -> round_inv M st t p ->
  let '(xv, w') := eval_word (if (t <? 16)%nat then W t else R t) p.2 in
  nth t (grow next_word 48 M) 0 = xv /\ length w' = 64%nat /\
  forall i, (i < Nat.max 16 (S t))%nat -> nth i w' 0 = nth i (grow next_word 48 M) 0.
Proof.
  intros HM Ht (_ & _ & Hl & Hw). destruct (Nat.ltb_spec t 16); cbn [eval_word].
  - split; [|split; [done|]]; intros; [symmetry|]; apply Hw; lia.
  - rewrite S1_sigma1, S0_sigma0, !Hw by lia.
    rewrite <- (sha256_next_word_nth M t) by lia. rewrite length_insert.
    split; [done|split; [done|]]. intros i Hi. rewrite nth_insert by lia.
    destruct (decide (t = i)) as [<-|]; [done|]. apply Hw. lia.
Qed.

Lemma sha256_exec_inv M st t p :
  length M = 16%nat -> (t < 64)%nat -> round_inv M st t p ->
  round_inv M st (S t) (exec p (line t)).
Proof.
  intros HM Ht Hi. pose proof (sha256_eval_word_inv M st t p HM Ht Hi) as He.
  destruct p as [r w], Hi as (Hr & Hv & _). cbn [fst snd] in *.
  pose proof (sha256_exec_line r w t) as Hx.
  destruct (eval_word _ w) as [xv w']. destruct He as (Hn & Hl & Hw).
  destruct Hx as [E2 Hx]. destruct (Hx _ Hr Hn) as [Hr' Hv'].
  split; [done|split]; [|by rewrite E2].
  by rewrite Hv', Hv, seq_S, fold_left_app.
Qed.

Lemma sha256_process_compress st data :
  length st = 8%nat -> length data = 64%nat -> bytes_ok data ->
  sha256_process st data = sha256_compress st data.
Proof.
  intros Hs Hd Hb. unfold sha256_process, sha256_compress.
  rewrite words_of_GET by done. set (M := words_of be_get data).
  rewrite sha256_rounds_lines, fold_left_map_.
  assert (Hi : round_inv M st 64
    (fold_left (fun p t => exec p (line t)) (seq 0 64) (st, M ++ replicate 48 0))).
  { apply (fold_seq_inv (round_inv M st)); [|intros; by apply sha256_exec_inv].
    split; [done|]. split; [by apply view_id|]. split; [done|].
    cbn [snd]. intros i Hi. rewrite app_nth1 by (change (length M) with 16%nat; lia).
    symmetry. apply (nth_grow_le next_word 48 0); [lia|].
    change (length M) with 16%nat. lia. }
  destruct (fold_left _ _ (st, _)) as [r w]. destruct Hi as (Hr & Hv & _). cbn [fst] in *.
  by rewrite <- Hv, view_id.
Qed.

(** ** Streaming *)

(** [sha256_update] keeps the promise of a streaming hash. *)
#[export] Instance sha256_streams : StreamingHash sha256_process sha256_update (2 ^ 32).
Proof.
  split; [lia|done|]. intros ctx input Hi Hl n t0. unfold sha256_update, absorb.
  fold n. destruct (Z.eqb_spec n 0) as [E|_]; [by destruct input|].
  set (used := Z.to_nat _).
  assert (Hle : (Z.of_nat (64 - used) <=? n) = (64 - used <=? length input)%nat) by lia.
  rewrite Hle, land_u32, u32_u32. fold t0. destruct (negb _ && _).
  all: destruct (while64 _ _ _ _) as [st rest].
  all: destruct (Nat.eqb_spec (length rest) 0) as [E|_]; [|done].
  all: apply nil_length_inv in E as ->; by rewrite splice_nil.
Qed.

Lemma sha256_finish_eq ctx :
  sha256_finish ctx =
  concat (map PUT_UINT32_BE (state (finish_updates (update := sha256_update) ctx))).
Proof. reflexivity. Qed.

(** C11: [sha256_process], with its 64 unrolled rounds, rotated registers and
    rewritten Boolean functions, is the compression function of FIPS 180-2 on
    every chaining state and block, whose round constants are the fractional
    parts of the cube roots of the first 64 primes. *)
Theorem sha256_process_correct st data :
  length st = 8%nat -> length data = 64%nat -> bytes_ok data ->
  sha256_process st data = sha256_compress st data /\
  sha256_init = map (frac_root 2) (take 8 primes) /\ K256 = map (frac_root 3) primes.
Proof.
  intros. split; [by apply sha256_process_compress|]. by split; vm_compute.
Qed.

Example sha256_process_correct_witness :
  sha256_process sha256_init (replicate 64 7) = sha256_compress sha256_init (replicate 64 7) /\
  sha256_init = map (frac_root 2) (take 8 primes) /\ K256 = map (frac_root 3) primes.
Proof.
  apply (sha256_process_correct sha256_init (replicate 64 7)); [reflexivity|reflexivity|].
  apply Forall_replicate. unfold is_byte. lia.
Defined.

Lemma sha256_length_compress st b : length st = 8%nat -> length (sha256_compress st b) = 8%nat.
Proof.
  intros Hs. unfold sha256_compress. rewrite length_zip_with.
  assert (Hf : forall l v, length v = 8%nat ->
    length (fold_left (fips_round (grow next_word 48 (words_of be_get b))) l v) = 8%nat).
  { induction l as [|t l IH]; intros v Hv; cbn [fold_left]; [done|]. apply IH.
    destruct v as [|? [|? [|? [|? [|? [|? [|? [|? [|]]]]]]]]]; done || reflexivity. }
  rewrite Hf by done. lia.
Qed.

Lemma length_sha256 msg : length (sha256 msg) = 32%nat.
Proof.
  unfold sha256. rewrite length_words by apply length_be_put.
  by rewrite (length_md 8) by auto using sha256_length_compress.
Qed.

(** The whole of a hash computation over chunks gives the standard's digest. *)
Lemma sha256_chunks ctx chunks :
  length (buffer ctx) = 64%nat -> bytes_ok (concat chunks) ->
  Forall (fun c => Z.of_nat (length c) < 2 ^ 32) chunks ->
  sha256_finish (fold_left sha256_update chunks (sha256_starts ctx)) = sha256 (concat chunks).
Proof.
  intros Hb Hok Hc.
  rewrite sha256_finish_eq, (finish_state H256 (concat chunks)); [|lia|].
  2: { apply (updates_inv H256 chunks []); [done|]. by apply ctx_inv_start. }
  rewrite (map_ext _ _ PUT_UINT32_BE_be).
  unfold sha256. do 2 f_equal. apply (md_ext 8).
  - intros. by apply sha256_process_compress.
  - intros. by apply sha256_length_compress.
  - reflexivity.
  - apply bytes_ok_pad. done.
Qed.

(** C12: however a message of bytes is divided into update calls, and
    whatever the context held before, starting, updating and finishing
    returns the FIPS 180-2 digest of the message. *)
Theorem sha256_streaming ctx chunks :
  length (buffer ctx) = 64%nat -> bytes_ok (concat chunks) ->
  Forall (fun c => Z.of_nat (length c) < 2 ^ 32) chunks ->
  sha256_finish (fold_left sha256_update chunks (sha256_starts ctx)) = sha256 (concat chunks).
Proof. apply sha256_chunks. Qed.

Example sha256_streaming_witness :
  sha256_finish (fold_left sha256_update [[97]; replicate 70 98]
    (sha256_starts (Ctx 1 1 [] (replicate 64 5)))) = sha256 (97 :: replicate 70 98) /\
  sha256 [97; 98; 99] =
    [0xba; 0x78; 0x16; 0xbf; 0x8f; 0x01; 0xcf; 0xea; 0x41; 0x41; 0x40; 0xde; 0x5d; 0xae;
     0x22; 0x23; 0xb0; 0x03; 0x61; 0xa3; 0x96; 0x17; 0x7a; 0x9c; 0xb4; 0x10; 0xff; 0x61;
     0xf2; 0x00; 0x15; 0xad].
Proof.
  split; [|vm_compute; reflexivity].
  apply (sha256_streaming (Ctx 1 1 [] (replicate 64 5)) [[97]; replicate 70 98]).
  - reflexivity.
  - apply Forall_app_2; [|rewrite app_nil_r; apply Forall_replicate];
      repeat constructor; unfold is_byte; lia.
  - repeat constructor; simpl; lia.
Defined.

End SHA256.
