(* ===== verification/Sha1.v ===== *)
(** * Sha1: lib_generic/sha1.c

    The compression function with its 80 unrolled rounds over a circular
    schedule of sixteen words, [sha1_update], [sha1_finish], the one-call
    [sha1_csum] and [sha1_csum_wd], and [sha1_hmac].  [unsigned long] is the
    32-bit word of the target.  An input is the list of its bytes; [ilen] is
    an [int], so an input has fewer than 2^31 bytes.

    The reference is FIPS 180-1 and, for [sha1_hmac], RFC 2104. *)

From S2P Require Import Prelude Hash.
Local Open Scope Z_scope.

Module SHA1.

(** ** The source's macros *)

Definition S (x n : Z) : Z :=
  Z.lor (u32 (Z.shiftl x n)) (Z.shiftr (Z.land x 0xffffffff) (32 - n)).

(** The registers, by the place of their value in the register list. *)
Definition A : nat := 0.
Definition B : nat := 1.
Definition C : nat := 2.
Definition D : nat := 3.
Definition E : nat := 4.

(** The word a round takes: [W[t]] as it stands, or [R(t)], which computes
    and stores it. *)
Inductive word := W (t : nat) | R (t : nat).

Inductive round := P (a b c d e : nat) (x : word).

Definition eval_word (x : word) (w : list Z) : Z * list Z :=
  match x with
  | W t => (nth t w 0, w)
  | R t =>
      let at_ i := nth (Nat.land i 0x0f) w 0 in
      let temp := Z.lxor (Z.lxor (Z.lxor (at_ (t - 3)%nat) (at_ (t - 8)%nat))
                                 (at_ (t - 14)%nat)) (at_ t) in
      (S temp 1, <[Nat.land t 0x0f := S temp 1]> w)
  end.

(** The macro [P] under the current definitions of [F] and [K]. *)
Definition exec (F : Z -> Z -> Z -> Z) (K : Z) (st : list Z * list Z) (p : round)
    : list Z * list Z :=
  let '(r, w) := st in
  let '(P a b c d e x) := p in
  let v i := nth i r 0 in
  let '(xv, w) := eval_word x w in
  let r := <[e := u32 (v e + (S (v a) 5 + F (v b) (v c) (v d) + K + xv))]> r in
  let r := <[b := S (v b) 30]> r in
  (r, w).

Definition F1 (x y z : Z) : Z := Z.lxor z (Z.land x (Z.lxor y z)).
Definition F2 (x y z : Z) : Z := Z.lxor (Z.lxor x y) z.
Definition F3 (x y z : Z) : Z := Z.lor (Z.land x y) (Z.land z (Z.lor x y)).

Definition rounds1 : list round :=
  [
   P A B C D E (W 0); P E A B C D (W 1); P D E A B C (W 2); P C D E A B (W 3);
   P B C D E A (W 4); P A B C D E (W 5); P E A B C D (W 6); P D E A B C (W 7);
   P C D E A B (W 8); P B C D E A (W 9); P A B C D E (W 10); P E A B C D (W 11);
   P D E A B C (W 12); P C D E A B (W 13); P B C D E A (W 14); P A B C D E (W 15);
   P E A B C D (R 16); P D E A B C (R 17); P C D E A B (R 18); P B C D E A (R 19)].

Definition rounds2 : list round :=
  [
   P A B C D E (R 20); P E A B C D (R 21); P D E A B C (R 22); P C D E A B (R 23);
   P B C D E A (R 24); P A B C D E (R 25); P E A B C D (R 26); P D E A B C (R 27);
   P C D E A B (R 28); P B C D E A (R 29); P A B C D E (R 30); P E A B C D (R 31);
   P D E A B C (R 32); P C D E A B (R 33); P B C D E A (R 34); P A B C D E (R 35);
   P E A B C D (R 36); P D E A B C (R 37); P C D E A B (R 38); P B C D E A (R 39)].

Definition rounds3 : list round :=
  [
   P A B C D E (R 40); P E A B C D (R 41); P D E A B C (R 42); P C D E A B (R 43);
   P B C D E A (R 44); P A B C D E (R 45); P E A B C D (R 46); P D E A B C (R 47);
   P C D E A B (R 48); P B C D E A (R 49); P A B C D E (R 50); P E A B C D (R 51);
   P D E A B C (R 52); P C D E A B (R 53); P B C D E A (R 54); P A B C D E (R 55);
   P E A B C D (R 56); P D E A B C (R 57); P C D E A B (R 58); P B C D E A (R 59)].

Definition rounds4 : list round :=
  [
   P A B C D E (R 60); P E A B C D (R 61); P D E A B C (R 62); P C D E A B (R 63);
   P B C D E A (R 64); P A B C D E (R 65); P E A B C D (R 66); P D E A B C (R 67);
   P C D E A B (R 68); P B C D E A (R 69); P A B C D E (R 70); P E A B C D (R 71);
   P D E A B C (R 72); P C D E A B (R 73); P B C D E A (R 74); P A B C D E (R 75);
   P E A B C D (R 76); P D E A B C (R 77); P C D E A B (R 78); P B C D E A (R 79)].

(** [sha1_process]: the new chaining state. *)
Definition sha1_process (state data : list Z) : list Z :=
  let w := map (fun i => GET_UINT32_BE data (4 * i)) (seq 0 16) in
  let st := (state, w) in
  let st := fold_left (exec F1 0x5A827999) rounds1 st in
  let st := fold_left (exec F2 0x6ED9EBA1) rounds2 st in
  let st := fold_left (exec F3 0x8F1BBCDC) rounds3 st in
  let st := fold_left (exec F2 0xCA62C1D6) rounds4 st in
  zip_with (fun s x => u32 (s + x)) state st.1.

Definition sha1_init : list Z :=
  [0x67452301; 0xEFCDAB89; 0x98BADCFE; 0x10325476; 0xC3D2E1F0].

Definition sha1_starts (ctx : hash_context) : hash_context :=
  Ctx 0 0 sha1_init (buffer ctx).

Definition sha1_update (ctx : hash_context) (input : list Z) : hash_context :=
  let ilen := Z.of_nat (length input) in
  if ilen <=? 0 then ctx else
  let used := Z.to_nat (Z.land (total0 ctx) 0x3f) in
  let fill := (64 - used)%nat in
  let total0 := Z.land (u32 (total0 ctx + ilen)) 0xffffffff in
  let total1 := if total0 <? ilen then u32 (total1 ctx + 1) else total1 ctx in
  let '(state, buffer, input, used) :=
    if negb (used =? 0)%nat && (Z.of_nat fill <=? ilen) then
      let buffer := splice (buffer ctx) used (take fill input) in
      (sha1_process (state ctx) buffer, buffer, drop fill input, O)
    else (state ctx, buffer ctx, input, used) in
  let '(state, input) := while64 sha1_process (length input) state input in
  let buffer := if (0 <? length input)%nat then splice buffer used input else buffer in
  Ctx total0 total1 state buffer.

Definition sha1_padding : list Z := 0x80 :: replicate 63 0.

Definition sha1_finish (ctx : hash_context) : list Z :=
  let high := Z.lor (Z.shiftr (total0 ctx) 29) (u32 (Z.shiftl (total1 ctx) 3)) in
  let low := u32 (Z.shiftl (total0 ctx) 3) in
  let msglen := PUT_UINT32_BE high ++ PUT_UINT32_BE low in
  let last := Z.to_nat (Z.land (total0 ctx) 0x3f) in
  let padn := (if (last <? 56)%nat then 56 - last else 120 - last)%nat in
  let ctx := sha1_update ctx (take padn sha1_padding) in
  let ctx := sha1_update ctx msglen in
  concat (map PUT_UINT32_BE (state ctx)).

(** [ctx] is the uninitialised context on the stack. *)
Definition sha1_csum (ctx : hash_context) (input : list Z) : list Z :=
  let ctx := sha1_starts ctx in
  let ctx := sha1_update ctx input in
  sha1_finish ctx.

(** [while (curr < end)] of [sha1_csum_wd], built with a watchdog. *)
Fixpoint csum_wd_loop (fuel : nat) (ctx : hash_context) (input : list Z) (chunk_sz : nat)
    : option hash_context :=
  match fuel with
  | O => None
  | Datatypes.S fuel =>
      match input with
      | [] => Some ctx
      | _ => let chunk := Nat.min (length input) chunk_sz in
             csum_wd_loop fuel (sha1_update ctx (take chunk input)) (drop chunk input) chunk_sz
      end
  end.

Definition sha1_csum_wd (watchdog : bool) (fuel : nat) (ctx : hash_context)
    (input : list Z) (chunk_sz : nat) : option (list Z) :=
  let ctx := sha1_starts ctx in
  let octx := if watchdog then csum_wd_loop fuel ctx input chunk_sz
              else Some (sha1_update ctx input) in
  sha1_finish <$> octx.

(** The loop that mixes the key into the pads: it stops at 64 bytes. *)
Fixpoint xor_key (pad key : list Z) : list Z :=
  match pad, key with
  | p :: pad, k :: key => Z.lxor p k :: xor_key pad key
  | _, _ => pad
  end.

Definition sha1_hmac (ctx : hash_context) (key input : list Z) : list Z :=
  let k_ipad := xor_key (replicate 64 0x36) key in
  let k_opad := xor_key (replicate 64 0x5C) key in
  let ctx := sha1_starts ctx in
  let ctx := sha1_update ctx k_ipad in
  let ctx := sha1_update ctx input in
  let tmpbuf := sha1_finish ctx in
  let ctx := sha1_starts ctx in
  let ctx := sha1_update ctx k_opad in
  let ctx := sha1_update ctx tmpbuf in
  sha1_finish ctx.

(** ** FIPS 180-1 *)

Definition f_t (t : nat) : Z -> Z -> Z -> Z :=
  match (t / 20)%nat with 0%nat => Ch | 1%nat => Parity | 2%nat => Maj | _ => Parity end.

(** The constants are [2^30] times the square roots of 2, 3, 5 and 10. *)
Definition K_t (t : nat) : Z :=
  iroot 2 33 0
    (match (t / 20)%nat with 0%nat => 2 | 1%nat => 3 | 2%nat => 5 | _ => 10 end * 2 ^ 60).

Definition next_word (w : list Z) : Z :=
  let t := length w in
  rotl 1 (Z.lxor (Z.lxor (Z.lxor (nth (t - 3) w 0) (nth (t - 8) w 0))
                         (nth (t - 14) w 0)) (nth (t - 16) w 0)).

Definition fips_round (w : list Z) (v : list Z) (t : nat) : list Z :=
  match v with
  | [a; b; c; d; e] =>
      [u32 (rotl 5 a + f_t t b c d + e + K_t t + nth t w 0); a; rotl 30 b; c; d]
  | _ => v
  end.

Definition sha1_compress (st block : list Z) : list Z :=
  let w := grow next_word 64 (words_of be_get block) in
  zip_with (fun s x => u32 (s + x)) st (fold_left (fips_round w) (seq 0 80) st).

Definition sha1 (msg : list Z) : list Z :=
  concat (map (be_put 4) (md sha1_compress sha1_init (pad msg))).

(** RFC 2104, with a block of 64 bytes. *)
Definition hmac (key msg : list Z) : list Z :=
  let key := if (64 <? length key)%nat then sha1 key else key in
  let key := key ++ replicate (64 - length key) 0 in
  sha1 (map (Z.lxor 0x5c) key ++ sha1 (map (Z.lxor 0x36) key ++ msg)).

(** ** The rounds are the standard's *)

Lemma S_rotl x n : 0 < n < 32 -> S x n = rotl n x.
Proof. intros. unfold S. rewrite land_u32. by apply rotl_lor. Qed.

Lemma u32_assoc e a f k x : u32 (e + (a + f + k + x)) = u32 (a + f + e + k + x).
Proof. f_equal. lia. Qed.

Definition line (t : nat) : round :=
  P (rg 5 t 0) (rg 5 t 1) (rg 5 t 2) (rg 5 t 3) (rg 5 t 4)
    (if (t <? 16)%nat then W t else R t).

Lemma sha1_rounds_lines :
  rounds1 = map line (seq 0 20) /\ rounds2 = map line (seq 20 20) /\
  rounds3 = map line (seq 40 20) /\ rounds4 = map line (seq 60 20).
Proof. by vm_compute. Qed.

Lemma K_ts :
  K_t 0 = 0x5A827999 /\ K_t 20 = 0x6ED9EBA1 /\ K_t 40 = 0x8F1BBCDC /\ K_t 60 = 0xCA62C1D6.
Proof. by vm_compute. Qed.

Lemma sha1_exec_line r w t :
  let '(xv, w') := eval_word (if (t <? 16)%nat then W t else R t) w in
  (exec (f_t t) (K_t t) (r, w) (line t)).2 = w' /\
  forall wr, length r = 5%nat -> nth t wr 0 = xv ->
    length (exec (f_t t) (K_t t) (r, w) (line t)).1 = 5%nat /\
    view 5 (Datatypes.S t) (exec (f_t t) (K_t t) (r, w) (line t)).1
      = fips_round wr (view 5 t r) t.
Proof.
  unfold exec, line. destruct (eval_word _ w) as [xv w'] eqn:Ex. split; [done|].
  intros wr Hr Hx. cbn [fst]. split; [by rewrite !length_insert|].
  rewrite <- Hx, !S_rotl, u32_assoc by lia. unfold fips_round, view, rg.
  rewrite (Nat.Div0.add_mod 1 t 5 : (Datatypes.S t mod 5 = _)%nat).
  generalize (nth t wr 0) as x, (K_t t) as k, (f_t t) as f. intros x k f.
  pose proof (Nat.mod_upper_bound t 5 ltac:(lia)) as Hm. revert Hm.
  generalize (t mod 5)%nat as m. intros m Hm. clear -Hr Hm.
  destruct r as [|a [|b [|c [|d [|e [|]]]]]]; try discriminate Hr.
  do 5 (destruct m as [|m]; [reflexivity|]). lia.
Qed.

(** A phase of twenty rounds is twenty rounds of the uniform step. *)
Lemma phase F K n k p :
  (forall t, (n <= t < n + k)%nat -> (forall x y z, F x y z = f_t t x y z) /\ K = K_t t) ->
  fold_left (exec F K) (map line (seq n k)) p =
  fold_left (fun p t => exec (f_t t) (K_t t) p (line t)) (seq n k) p.
Proof.
  intros HF. rewrite fold_left_map_.
  apply (fold_left_ext_inv (fun _ => True) (fun t => (n <= t < n + k)%nat)); [|done|done|].
  - intros [r w] t _ Ht. destruct (HF t Ht) as [HFt ->]. unfold exec, line.
    destruct (eval_word _ w). by rewrite HFt.
  - apply Forall_forall. intros t Ht. by apply elem_of_seq in Ht.
Qed.

Lemma div20 q t : (20 * q <= t < 20 * q + 20)%nat -> (t / 20)%nat = q.
Proof. intros. symmetry. apply (Nat.div_unique _ _ _ (t - 20 * q)); lia. Qed.

Lemma phases p :
  fold_left (exec F2 0xCA62C1D6) rounds4
    (fold_left (exec F3 0x8F1BBCDC) rounds3
      (fold_left (exec F2 0x6ED9EBA1) rounds2
        (fold_left (exec F1 0x5A827999) rounds1 p))) =
  fold_left (fun p t => exec (f_t t) (K_t t) p (line t)) (seq 0 80) p.
Proof.
  destruct sha1_rounds_lines as (-> & -> & -> & ->), K_ts as (<- & <- & <- & <-).
  rewrite !phase, <- !fold_left_app; [reflexivity|..]; intros t Ht; unfold f_t, K_t;
    first [rewrite (div20 0 t) by lia|rewrite (div20 1 t) by lia|
           rewrite (div20 2 t) by lia|rewrite (div20 3 t) by lia];
    (split; [|reflexivity]); intros;
    first [apply Ch_mux|apply Maj_or|reflexivity].
Qed.

Lemma land_15 i : Nat.land i 0x0f = (i mod 16)%nat.
Proof. exact (Nat.land_ones i 4). Qed.

(** The schedule of the standard, word by word. *)
Lemma sha1_next_word_nth M t :
  length M = 16%nat -> (16 <= t < 80)%nat ->
  let w := grow next_word 64 M in
  nth t w 0 = rotl 1 (Z.lxor (Z.lxor (Z.lxor (nth (t - 3) w 0) (nth (t - 8) w 0))
                                     (nth (t - 14) w 0)) (nth (t - 16) w 0)).
Proof.
  intros HM Ht w. replace t with (length M + (t - 16))%nat at 1 by lia.
  unfold w. rewrite nth_grow by lia. unfold next_word at 1.
  rewrite length_grow, HM.
  replace (16 + (t - 16))%nat with t by lia.
  rewrite !(nth_grow_le next_word 64 (t - 16)) by lia. done.
Qed.

(** After [t] rounds the circular array holds the last sixteen words. *)
Definition round_inv (M st : list Z) (t : nat) (p : list Z * list Z) : Prop :=
  let wr := grow next_word 64 M in
  length p.1 = 5%nat /\ view 5 t p.1 = fold_left (fips_round wr) (seq 0 t) st /\
  length p.2 = 16%nat /\
  forall i, (i < Nat.max 16 t)%nat -> (t <= i + 16)%nat -> nth (i mod 16) p.2 0 = nth i wr 0.

Lemma sha1_eval_word_inv M st t p :
  length M = 16%nat -> (t < 80)%nat -> round_inv M st t p ->
  let '(xv, w') := eval_word (if (t <? 16)%nat then W t else R t) p.2 in
  nth t (grow next_word 64 M) 0 = xv /\ length w' = 16%nat /\
  forall i, (i < Nat.max 16 (Datatypes.S t))%nat -> (Datatypes.S t <= i + 16)%nat ->
    nth (i mod 16) w' 0 = nth i (grow next_word 64 M) 0.
Proof.
  intros HM Ht (_ & _ & Hl & Hw). destruct (Nat.ltb_spec t 16); cbn [eval_word].
  - split; [|split; [done|]].
    + rewrite <- Hw, Nat.mod_small by lia. done.
    + intros. apply Hw; lia.
  - rewrite !land_15, S_rotl, !Hw by lia.
    replace (t mod 16)%nat with ((t - 16) mod 16)%nat.
    2: { replace t with (t - 16 + 1 * 16)%nat at 2 by lia. by rewrite Nat.Div0.mod_add. }
    rewrite !Hw by lia. rewrite <- (sha1_next_word_nth M t) by lia. rewrite length_insert.
    split; [done|split; [done|]]. intros i Hi Hi'.
    rewrite nth_insert by (rewrite Hl; apply Nat.mod_upper_bound; lia).
    destruct (decide (((t - 16) mod 16)%nat = (i mod 16)%nat)) as [E|Hne].
    + replace i with t; [done|].
      pose proof (Nat.div_mod_eq (t - 16) 16). pose proof (Nat.div_mod_eq i 16). lia.
    + apply Hw; [|lia]. assert (i <> t); [|lia]. intros ->. apply Hne.
      replace t with (t - 16 + 1 * 16)%nat at 2 by lia. by rewrite Nat.Div0.mod_add.
Qed.

Lemma sha1_exec_inv M st t p :
  length M = 16%nat -> (t < 80)%nat -> round_inv M st t p ->
  round_inv M st (Datatypes.S t) (exec (f_t t) (K_t t) p (line t)).
Proof.
  intros HM Ht Hi. pose proof (sha1_eval_word_inv M st t p HM Ht Hi) as He.
  destruct p as [r w], Hi as (Hr & Hv & _). cbn [fst snd] in *.
  pose proof (sha1_exec_line r w t) as Hx.
  destruct (eval_word _ w) as [xv w']. destruct He as (Hn & Hl & Hw).
  destruct Hx as [E2 Hx]. destruct (Hx _ Hr Hn) as [Hr' Hv'].
  split; [done|split]; [|by rewrite E2].
  by rewrite Hv', Hv, seq_S, fold_left_app.
Qed.

Lemma sha1_process_compress st data :
  length st = 5%nat -> length data = 64%nat -> bytes_ok data ->
  sha1_process st data = sha1_compress st data.
Proof.
  intros Hs Hd Hb. unfold sha1_process, sha1_compress.
  rewrite words_of_GET, phases by done. set (M := words_of be_get data).
  assert (Hi : round_inv M st 80
    (fold_left (fun p t => exec (f_t t) (K_t t) p (line t)) (seq 0 80) (st, M))).
  { apply (fold_seq_inv (round_inv M st)); [|intros; by apply sha1_exec_inv].
    split; [done|]. split; [by apply view_id|]. split; [done|].
    cbn [snd]. intros i Hi _. rewrite Nat.mod_small by lia.
    symmetry. apply (nth_grow_le next_word 64 0); [lia|].
    change (length M) with 16%nat. lia. }
  destruct (fold_left _ _ (st, _)) as [r w]. destruct Hi as (Hr & Hv & _). cbn [fst] in *.
  by rewrite <- Hv, view_id.
Qed.

Lemma sha1_length_compress st b : length st = 5%nat -> length (sha1_compress st b) = 5%nat.
Proof.
  intros Hs. unfold sha1_compress. rewrite length_zip_with.
  assert (Hf : forall l v, length v = 5%nat ->
    length (fold_left (fips_round (grow next_word 64 (words_of be_get b))) l v) = 5%nat).
  { induction l as [|t l IH]; intros v Hv; cbn [fold_left]; [done|]. apply IH.
    destruct v as [|? [|? [|? [|? [|? [|]]]]]]; done || reflexivity. }
  rewrite Hf by done. lia.
Qed.

(** ** Streaming *)

#[export] Instance sha1_streams : StreamingHash sha1_process sha1_update (2 ^ 31).
Proof.
  split; [lia|done|]. intros ctx input Hi Hl n t0. unfold sha1_update, absorb.
  fold n. destruct (Z.leb_spec n 0) as [E|_]; [destruct input; [done|simpl in n; lia]|].
  set (used := Z.to_nat _).
  assert (Hle : (Z.of_nat (64 - used) <=? n) = (64 - used <=? length input)%nat) by lia.
  rewrite Hle, land_u32, u32_u32. fold t0. destruct (negb _ && _).
  all: destruct (while64 _ _ _ _) as [st rest].
  all: destruct (Nat.ltb_spec 0 (length rest)) as [|E]; [done|].
  all: assert (rest = []) as -> by (apply nil_length_inv; lia); by rewrite splice_nil.
Qed.

Lemma sha1_finish_eq ctx :
  sha1_finish ctx =
  concat (map PUT_UINT32_BE (state (finish_updates (update := sha1_update) ctx))).
Proof. reflexivity. Qed.

Lemma finish_sha1 msg ctx :
  ctx_inv (process := sha1_process) sha1_init msg ctx -> bytes_ok msg ->
  sha1_finish ctx = sha1 msg.
Proof.
  intros Hi Hok. rewrite sha1_finish_eq, (finish_state sha1_init msg); [|lia|done].
  rewrite (map_ext _ _ PUT_UINT32_BE_be). unfold sha1. do 2 f_equal. apply (md_ext 5).
  - intros. by apply sha1_process_compress.
  - intros. by apply sha1_length_compress.
  - reflexivity.
  - by apply bytes_ok_pad.
Qed.

Lemma sha1_chunks ctx chunks :
  length (buffer ctx) = 64%nat -> bytes_ok (concat chunks) ->
  Forall (fun c => Z.of_nat (length c) < 2 ^ 31) chunks ->
  sha1_finish (fold_left sha1_update chunks (sha1_starts ctx)) = sha1 (concat chunks).
Proof.
  intros Hb Hok Hc. apply finish_sha1; [|done].
  apply (updates_inv sha1_init chunks []); [done|]. by apply ctx_inv_start.
Qed.

Lemma csum_wd_loop_inv fuel ctx msg input chunk :
  (0 < chunk)%nat -> Z.of_nat chunk < 2 ^ 31 -> (length input < fuel)%nat ->
  ctx_inv (process := sha1_process) sha1_init msg ctx ->
  exists ctx', csum_wd_loop fuel ctx input chunk = Some ctx' /\
    ctx_inv (process := sha1_process) sha1_init (msg ++ input) ctx'.
Proof.
  intros Hc Hc31. revert ctx msg input.
  induction fuel as [|fuel IH]; intros ctx msg input Hf Hi; [lia|].
  destruct input as [|b l0]; [exists ctx; by rewrite app_nil_r|].
  set (l := b :: l0) in *. change (csum_wd_loop (Datatypes.S fuel) ctx l chunk) with
    (csum_wd_loop fuel (sha1_update ctx (take (Nat.min (length l) chunk) l))
       (drop (Nat.min (length l) chunk) l) chunk).
  assert (0 < length l)%nat by (unfold l; simpl; lia).
  replace (msg ++ l) with ((msg ++ take (Nat.min (length l) chunk) l)
                             ++ drop (Nat.min (length l) chunk) l)
    by (by rewrite <- app_assoc, take_drop).
  apply IH; [rewrite length_drop; lia|].
  apply update_inv; [|done]. rewrite length_take. lia.
Qed.

(** [sha1_process], with its 80 unrolled rounds and the circular
    schedule, is the compression function of FIPS 180-1 on every chaining
    state and block; its constants are the standard's square roots. *)
Theorem sha1_process_correct st data :
  length st = 5%nat -> length data = 64%nat -> bytes_ok data ->
  sha1_process st data = sha1_compress st data.
Proof. apply sha1_process_compress. Qed.

Example sha1_process_correct_witness :
  sha1_process sha1_init (replicate 64 7) = sha1_compress sha1_init (replicate 64 7).
Proof.
  apply (sha1_process_correct sha1_init (replicate 64 7)); [reflexivity|reflexivity|].
  apply Forall_replicate. unfold is_byte. lia.
Defined.

(** [sha1_csum] and the watchdog variant [sha1_csum_wd], which
    terminates for every positive chunk size, return the SHA-1 digest of the
    input, and so does every other division of it into update calls. *)
Theorem sha1_csum_correct ctx input chunks wd fuel chunk_sz :
  length (buffer ctx) = 64%nat -> bytes_ok input -> Z.of_nat (length input) < 2 ^ 31 ->
  input = concat chunks -> (0 < chunk_sz)%nat -> Z.of_nat chunk_sz < 2 ^ 31 ->
  (length input < fuel)%nat ->
  sha1_csum ctx input = sha1 input /\
  sha1_csum_wd wd fuel ctx input chunk_sz = Some (sha1 input) /\
  sha1_finish (fold_left sha1_update chunks (sha1_starts ctx)) = sha1 input.
Proof.
  intros Hb Hok Hl E Hc Hc31 Hf.
  assert (H0 : sha1_finish (sha1_update (sha1_starts ctx) input) = sha1 input).
  { pose proof (sha1_chunks ctx [input] Hb) as H. cbn [concat] in H.
    rewrite app_nil_r in H. apply H; [done|]. by constructor. }
  split; [done|]. split.
  - unfold sha1_csum_wd. destruct wd; [|by rewrite <- H0].
    destruct (csum_wd_loop_inv fuel (sha1_starts ctx) [] input chunk_sz)
      as (ctx' & -> & Hi); [done..|by apply ctx_inv_start|].
    simpl. f_equal. by apply finish_sha1.
  - subst input. apply sha1_chunks; [done..|].
    apply Forall_forall. intros c Hin. apply list_elem_of_split in Hin as (p & q & ->).
    rewrite concat_app, length_app in Hl. simpl in Hl. rewrite length_app in Hl. lia.
Qed.

Example sha1_csum_correct_witness :
  (sha1_csum (Ctx 1 1 [] (replicate 64 5)) [97; 98; 99] = sha1 [97; 98; 99] /\
   sha1_csum_wd true 4 (Ctx 1 1 [] (replicate 64 5)) [97; 98; 99] 2 = Some (sha1 [97; 98; 99]) /\
   sha1_finish (fold_left sha1_update [[97]; [98; 99]] (sha1_starts (Ctx 1 1 [] (replicate 64 5))))
     = sha1 [97; 98; 99]) /\
  sha1 [97; 98; 99] =
    [0xa9; 0x99; 0x3e; 0x36; 0x47; 0x06; 0x81; 0x6a; 0xba; 0x3e;
     0x25; 0x71; 0x78; 0x50; 0xc2; 0x6c; 0x9c; 0xd0; 0xd8; 0x9d].
Proof.
  split; [|vm_compute; reflexivity].
  apply (sha1_csum_correct (Ctx 1 1 [] (replicate 64 5)) [97; 98; 99] [[97]; [98; 99]] true 4 2).
  - reflexivity.
  - repeat constructor; unfold is_byte; lia.
  - simpl. lia.
  - reflexivity.
  - lia.
  - lia.
  - simpl. lia.
Defined.

(** ** HMAC *)

Lemma xor_key_pad pad key n :
  (length key <= n)%nat ->
  xor_key (replicate n pad) key = map (Z.lxor pad) (key ++ replicate (n - length key) 0).
Proof.
  revert n. induction key as [|k key IH]; intros n Hn.
  - cbn [app length]. rewrite Nat.sub_0_r. destruct n; [done|]. cbn [replicate xor_key map].
    rewrite Z.lxor_0_r. f_equal. clear. induction n; simpl; [done|].
    by rewrite Z.lxor_0_r, <- IHn.
  - destruct n as [|n]; [simpl in Hn; lia|]. cbn. f_equal. apply IH. simpl in Hn. lia.
Qed.

Lemma xor_key_take p key : xor_key p key = xor_key p (take (length p) key).
Proof. revert key. induction p as [|x p IH]; intros [|k key]; simpl; [done..|]. by f_equal. Qed.

Lemma bytes_ok_xor k key : is_byte k -> bytes_ok key -> bytes_ok (map (Z.lxor k) key).
Proof.
  intros Hk Hkey. apply List.Forall_map. eapply Forall_impl; [exact Hkey|].
  intros x Hx. by apply (lxor_range k x 8).
Qed.

Lemma length_sha1 msg : length (sha1 msg) = 20%nat.
Proof.
  unfold sha1. rewrite length_words by apply length_be_put.
  by rewrite (length_md 5) by auto using sha1_length_compress.
Qed.

Lemma sha1_out msg : bytes_ok (sha1 msg) /\ Z.of_nat (length (sha1 msg)) < 2 ^ 31.
Proof.
  split; [|rewrite length_sha1; lia].
  apply Forall_concat, List.Forall_map. apply Forall_forall. intros. apply bytes_ok_be_put.
Qed.

Lemma two_updates ctx a b :
  length (buffer ctx) = 64%nat -> bytes_ok a -> bytes_ok b ->
  Z.of_nat (length a) < 2 ^ 31 -> Z.of_nat (length b) < 2 ^ 31 ->
  sha1_finish (sha1_update (sha1_update (sha1_starts ctx) a) b) = sha1 (a ++ b).
Proof.
  intros Hbuf Ha Hb Hla Hlb. pose proof (sha1_chunks ctx [a; b] Hbuf) as H.
  cbn [concat] in H. rewrite app_nil_r in H. apply H; [by apply Forall_app_2|].
  by repeat constructor.
Qed.

(** [sha1_hmac] is the HMAC of RFC 2104 for the first 64 bytes of the
    key, hence for every key of at most 64 bytes; a longer key is cut to 64
    bytes where the standard hashes it. *)
Theorem sha1_hmac_correct ctx key input :
  length (buffer ctx) = 64%nat -> bytes_ok key -> bytes_ok input ->
  Z.of_nat (length input) < 2 ^ 31 ->
  sha1_hmac ctx key input = hmac (take 64 key) input.
Proof.
  intros Hb Hk Hi Hl. unfold sha1_hmac, hmac.
  rewrite (xor_key_take (replicate 64 0x36)), (xor_key_take (replicate 64 0x5C)), !length_replicate.
  apply (Forall_take _ 64) in Hk. set (k := take 64 key) in *.
  assert (Hk64 : (length k <= 64)%nat) by (unfold k; rewrite length_take; lia).
  rewrite !xor_key_pad by done.
  destruct (Nat.ltb_spec 64 (length k)); [lia|].
  set (k' := k ++ replicate (64 - length k) 0).
  assert (Hk' : bytes_ok k').
  { apply Forall_app_2; [done|]. apply Forall_replicate. by unfold is_byte. }
  assert (Hlk : length k' = 64%nat) by (unfold k'; rewrite length_app, length_replicate; lia).
  assert (Hx : forall c, is_byte c -> bytes_ok (map (Z.lxor c) k')) by (intros; by apply bytes_ok_xor).
  assert (Hlx : forall c, Z.of_nat (length (map (Z.lxor c) k')) < 2 ^ 31)
    by (intros; rewrite length_map, Hlk; lia).
  rewrite (two_updates ctx (map (Z.lxor 0x36) k') input) by
    (done || apply Hlx || (apply Hx; unfold is_byte; lia)).
  pose proof (update_inv (process := sha1_process) sha1_init [] (sha1_starts ctx)
    (map (Z.lxor 0x36) k') (Hlx _) (ctx_inv_start _ _ Hb)) as Hinv.
  pose proof (update_inv (process := sha1_process) sha1_init _ _ input Hl Hinv) as [_ (_ & H2 & _)].
  pose proof (sha1_out (map (Z.lxor 0x36) k' ++ input)) as [Ho Hol].
  revert H2 Ho Hol. generalize (sha1 (map (Z.lxor 0x36) k' ++ input)) as dg.
  generalize (sha1_update (sha1_update (sha1_starts ctx) (map (Z.lxor 0x36) k')) input) as ctx'.
  intros ctx' dg H2 Ho Hol.
  rewrite (two_updates ctx'); [reflexivity|done| |done|apply Hlx|done].
  apply Hx. unfold is_byte. lia.
Qed.

Example sha1_hmac_correct_witness :
  sha1_hmac (Ctx 1 1 [] (replicate 64 5)) (replicate 80 11) [72; 105] =
    hmac (replicate 64 11) [72; 105] /\
  hmac (replicate 80 11) [72; 105] <> hmac (replicate 64 11) [72; 105].
Proof.
  split.
  - apply (sha1_hmac_correct (Ctx 1 1 [] (replicate 64 5)) (replicate 80 11) [72; 105]).
    + reflexivity.
    + apply Forall_replicate. unfold is_byte. lia.
    + repeat constructor; unfold is_byte; lia.
    + simpl. lia.
  - vm_compute. discriminate.
Defined.

End SHA1.
