(* ===== verification/Md5.v ===== *)
(** * Md5: lib_generic/md5.c

    [MD5Transform] with its 64 unrolled steps, the streaming [MD5Update],
    [MD5Final] with its padding in place, and the one-call [md5] and
    [md5_wd].  The context is the source's: chaining state, bit count in two
    words, and the block being filled.  An input is the list of its bytes and
    its [len] the length of the list.

    The reference is RFC 1321, with its table of sines computed. *)

From S2P Require Import Prelude Hash.
Local Open Scope Z_scope.

Module MD5.

Record MD5Context := Ctx {
  buf : list Z;
  bits0 : Z;
  bits1 : Z;
  in_ : list Z
}.

(** [byteReverse]: the bytes of each word assembled in little-endian order and
    stored as a word of the (little-endian) machine. *)
Fixpoint byteReverse (buf : list Z) (longs : nat) {struct longs} : list Z :=
  match longs, buf with
  | S longs, b0 :: b1 :: b2 :: b3 :: rest =>
      let t := Z.lor (u32 (Z.shiftl (Z.lor (Z.shiftl b3 8) b2) 16)) (Z.lor (Z.shiftl b1 8) b0) in
      le_put 4 t ++ byteReverse rest longs
  | _, _ => buf
  end.

Definition MD5_init : list Z := [0x67452301; 0xefcdab89; 0x98badcfe; 0x10325476].

Definition MD5Init (ctx : MD5Context) : MD5Context := Ctx MD5_init 0 0 (in_ ctx).

Definition F1 (x y z : Z) : Z := Z.lxor z (Z.land x (Z.lxor y z)).
Definition F2 (x y z : Z) : Z := F1 z x y.
Definition F3 (x y z : Z) : Z := Z.lxor (Z.lxor x y) z.
Definition F4 (x y z : Z) : Z := Z.lxor y (Z.lor x (u32 (Z.lnot z))).

(** The registers, by the place of their value in the register list. *)
Definition A : nat := 0.
Definition B : nat := 1.
Definition C : nat := 2.
Definition D : nat := 3.

(** [MD5STEP(f, w, x, y, z, in[i] + k, s)] *)
Inductive step := MD5STEP (f : Z -> Z -> Z -> Z) (w x y z : nat) (i : nat) (k s : Z).

Definition exec (data : list Z) (r : list Z) (p : step) : list Z :=
  let '(MD5STEP f w x y z i k s) := p in
  let v i := nth i r 0 in
  let t := u32 (v w + (f (v x) (v y) (v z) + u32 (nth i data 0 + k))) in
  let t := Z.lor (u32 (Z.shiftl t s)) (Z.shiftr t (32 - s)) in
  <[w := u32 (t + v x)]> r.

Definition steps : list step :=
  [
   MD5STEP F1 A B C D 0 0xd76aa478 7;
   MD5STEP F1 D A B C 1 0xe8c7b756 12;
   MD5STEP F1 C D A B 2 0x242070db 17;
   MD5STEP F1 B C D A 3 0xc1bdceee 22;
   MD5STEP F1 A B C D 4 0xf57c0faf 7;
   MD5STEP F1 D A B C 5 0x4787c62a 12;
   MD5STEP F1 C D A B 6 0xa8304613 17;
   MD5STEP F1 B C D A 7 0xfd469501 22;
   MD5STEP F1 A B C D 8 0x698098d8 7;
   MD5STEP F1 D A B C 9 0x8b44f7af 12;
   MD5STEP F1 C D A B 10 0xffff5bb1 17;
   MD5STEP F1 B C D A 11 0x895cd7be 22;
   MD5STEP F1 A B C D 12 0x6b901122 7;
   MD5STEP F1 D A B C 13 0xfd987193 12;
   MD5STEP F1 C D A B 14 0xa679438e 17;
   MD5STEP F1 B C D A 15 0x49b40821 22;
   MD5STEP F2 A B C D 1 0xf61e2562 5;
   MD5STEP F2 D A B C 6 0xc040b340 9;
   MD5STEP F2 C D A B 11 0x265e5a51 14;
   MD5STEP F2 B C D A 0 0xe9b6c7aa 20;
   MD5STEP F2 A B C D 5 0xd62f105d 5;
   MD5STEP F2 D A B C 10 0x02441453 9;
   MD5STEP F2 C D A B 15 0xd8a1e681 14;
   MD5STEP F2 B C D A 4 0xe7d3fbc8 20;
   MD5STEP F2 A B C D 9 0x21e1cde6 5;
   MD5STEP F2 D A B C 14 0xc33707d6 9;
   MD5STEP F2 C D A B 3 0xf4d50d87 14;
   MD5STEP F2 B C D A 8 0x455a14ed 20;
   MD5STEP F2 A B C D 13 0xa9e3e905 5;
   MD5STEP F2 D A B C 2 0xfcefa3f8 9;
   MD5STEP F2 C D A B 7 0x676f02d9 14;
   MD5STEP F2 B C D A 12 0x8d2a4c8a 20;
   MD5STEP F3 A B C D 5 0xfffa3942 4;
   MD5STEP F3 D A B C 8 0x8771f681 11;
   MD5STEP F3 C D A B 11 0x6d9d6122 16;
   MD5STEP F3 B C D A 14 0xfde5380c 23;
   MD5STEP F3 A B C D 1 0xa4beea44 4;
   MD5STEP F3 D A B C 4 0x4bdecfa9 11;
   MD5STEP F3 C D A B 7 0xf6bb4b60 16;
   MD5STEP F3 B C D A 10 0xbebfbc70 23;
   MD5STEP F3 A B C D 13 0x289b7ec6 4;
   MD5STEP F3 D A B C 0 0xeaa127fa 11;
   MD5STEP F3 C D A B 3 0xd4ef3085 16;
   MD5STEP F3 B C D A 6 0x04881d05 23;
   MD5STEP F3 A B C D 9 0xd9d4d039 4;
   MD5STEP F3 D A B C 12 0xe6db99e5 11;
   MD5STEP F3 C D A B 15 0x1fa27cf8 16;
   MD5STEP F3 B C D A 2 0xc4ac5665 23;
   MD5STEP F4 A B C D 0 0xf4292244 6;
   MD5STEP F4 D A B C 7 0x432aff97 10;
   MD5STEP F4 C D A B 14 0xab9423a7 15;
   MD5STEP F4 B C D A 5 0xfc93a039 21;
   MD5STEP F4 A B C D 12 0x655b59c3 6;
   MD5STEP F4 D A B C 3 0x8f0ccc92 10;
   MD5STEP F4 C D A B 10 0xffeff47d 15;
   MD5STEP F4 B C D A 1 0x85845dd1 21;
   MD5STEP F4 A B C D 8 0x6fa87e4f 6;
   MD5STEP F4 D A B C 15 0xfe2ce6e0 10;
   MD5STEP F4 C D A B 6 0xa3014314 15;
   MD5STEP F4 B C D A 13 0x4e0811a1 21;
   MD5STEP F4 A B C D 4 0xf7537e82 6;
   MD5STEP F4 D A B C 11 0xbd3af235 10;
   MD5STEP F4 C D A B 2 0x2ad7d2bb 15;
   MD5STEP F4 B C D A 9 0xeb86d391 21].

(** [MD5Transform] on the sixteen words of [data]. *)
Definition MD5Transform (buf data : list Z) : list Z :=
  zip_with (fun s x => u32 (s + x)) buf (fold_left (exec data) steps buf).

(** The block in [ctx->in], seen as an array of [__u32]. *)
Definition as_u32 (block : list Z) : list Z := words_of le_get block.

(** [byteReverse(ctx->in, 16); MD5Transform(ctx->buf, (__u32 * ) ctx->in);] *)
Definition transform_in (buf inb : list Z) : list Z * list Z :=
  let inb := byteReverse inb 16 in (MD5Transform buf (as_u32 inb), inb).

(** [while (len >= 64)]: the chaining state, [ctx->in] and the rest. *)
Fixpoint update_loop (fuel : nat) (buf inb input : list Z) : list Z * list Z * list Z :=
  match fuel with
  | O => (buf, inb, input)
  | S fuel =>
      if (64 <=? length input)%nat then
        let inb := splice inb 0 (take 64 input) in
        let '(buf, inb) := transform_in buf inb in
        update_loop fuel buf inb (drop 64 input)
      else (buf, inb, input)
  end.

Definition MD5Update (ctx : MD5Context) (input : list Z) : MD5Context :=
  let len := Z.of_nat (length input) in
  let t := bits0 ctx in
  let b0 := u32 (t + u32 (Z.shiftl len 3)) in
  let b1 := if b0 <? t then u32 (bits1 ctx + 1) else bits1 ctx in
  let b1 := u32 (b1 + Z.shiftr len 29) in
  let t := Z.to_nat (Z.land (Z.shiftr t 3) 0x3f) in
  let rest buf inb input :=
    let '(buf, inb, input) := update_loop (length input) buf inb input in
    Ctx buf b0 b1 (splice inb 0 input) in
  if (t =? 0)%nat then rest (buf ctx) (in_ ctx) input
  else
    let p := t in
    let t := (64 - t)%nat in
    if len <? Z.of_nat t then Ctx (buf ctx) b0 b1 (splice (in_ ctx) p input)
    else
      let inb := splice (in_ ctx) p (take t input) in
      let '(buf, inb) := transform_in (buf ctx) inb in
      rest buf inb (drop t input).

(** [MD5Final]: the digest. *)
Definition MD5Final (ctx : MD5Context) : list Z :=
  let count := Z.to_nat (Z.land (Z.shiftr (bits0 ctx) 3) 0x3f) in
  let inb := splice (in_ ctx) count [0x80] in
  let p := S count in
  let count := (64 - 1 - count)%nat in
  let '(buf, inb) :=
    if (count <? 8)%nat then
      let inb := splice inb p (replicate count 0) in
      let '(buf, inb) := transform_in (buf ctx) inb in
      (buf, splice inb 0 (replicate 56 0))
    else (buf ctx, splice inb p (replicate (count - 8) 0)) in
  let inb := byteReverse inb 14 in
  let inb := splice inb 56 (le_put 4 (bits0 ctx)) in
  let inb := splice inb 60 (le_put 4 (bits1 ctx)) in
  let buf := MD5Transform buf (as_u32 inb) in
  byteReverse (concat (map (le_put 4) buf)) 4.

(** [ctx] is the uninitialised context on the stack. *)
Definition md5 (ctx : MD5Context) (input : list Z) : list Z :=
  MD5Final (MD5Update (MD5Init ctx) input).

(** [while (curr < end)] of [md5_wd], built with a watchdog. *)
Fixpoint md5_wd_loop (fuel : nat) (ctx : MD5Context) (input : list Z) (chunk_sz : nat)
    : option MD5Context :=
  match fuel with
  | O => None
  | S fuel =>
      match input with
      | [] => Some ctx
      | _ => let chunk := Nat.min (length input) chunk_sz in
             md5_wd_loop fuel (MD5Update ctx (take chunk input)) (drop chunk input) chunk_sz
      end
  end.

Definition md5_wd (watchdog : bool) (fuel : nat) (ctx : MD5Context) (input : list Z)
    (chunk_sz : nat) : option (list Z) :=
  let ctx := MD5Init ctx in
  let octx := if watchdog then md5_wd_loop fuel ctx input chunk_sz
              else Some (MD5Update ctx input) in
  MD5Final <$> octx.

(** ** RFC 1321 *)

(** [sin n], scaled by [2^160], as the sum of [terms] terms of its series. *)
Fixpoint sin_series (terms : nat) (k n term : Z) : Z :=
  match terms with
  | O => 0
  | S terms => term + sin_series terms (k + 2) n (- (term * (n * n)) / (k * (k + 1)))
  end.

Definition sine (n : nat) : Z :=
  Z.abs (sin_series 130 2 (Z.of_nat n) (Z.of_nat n * 2 ^ 160)) / 2 ^ 128.

Definition T : list Z := Eval vm_compute in map sine (seq 1 64).

Definition rfc_f (t : nat) (x y z : Z) : Z :=
  match (t / 16)%nat with
  | 0%nat => Ch x y z
  | 1%nat => Z.lor (Z.land x z) (Z.land y (Z.lnot z))
  | 2%nat => Parity x y z
  | _ => Z.lxor y (Z.lor x (u32 (Z.lnot z)))
  end.

Definition rfc_k (t : nat) : nat :=
  match (t / 16)%nat with
  | 0%nat => t | 1%nat => 5 * t + 1 | 2%nat => 3 * t + 5 | _ => 7 * t
  end mod 16.

Definition rfc_s (t : nat) : Z :=
  nth (t mod 4)
    match (t / 16)%nat with
    | 0%nat => [7; 12; 17; 22] | 1%nat => [5; 9; 14; 20]
    | 2%nat => [4; 11; 16; 23] | _ => [6; 10; 15; 21]
    end 0.

Definition rfc_step (X : list Z) (v : list Z) (t : nat) : list Z :=
  match v with
  | [a; b; c; d] =>
      [d; u32 (b + rotl (rfc_s t) (a + rfc_f t b c d + nth (rfc_k t) X 0 + nth t T 0)); b; c]
  | _ => v
  end.

Definition md5_compress (st block : list Z) : list Z :=
  zip_with (fun s x => u32 (s + x)) st
    (fold_left (rfc_step (words_of le_get block)) (seq 0 64) st).

Definition md5_ref (msg : list Z) : list Z :=
  concat (map (le_put 4)
    (md md5_compress MD5_init (pad_with (le_put 8 (8 * Z.of_nat (length msg))) msg))).

(** ** The steps are the RFC's *)

Definition f_of (t : nat) : Z -> Z -> Z -> Z :=
  match (t / 16)%nat with 0%nat => F1 | 1%nat => F2 | 2%nat => F3 | _ => F4 end.

Definition line (t : nat) : step :=
  MD5STEP (f_of t) (rg 4 t 0) (rg 4 t 1) (rg 4 t 2) (rg 4 t 3) (rfc_k t) (nth t T 0) (rfc_s t).

Lemma steps_lines : steps = map line (seq 0 64).
Proof. reflexivity. Qed.

Lemma f_of_rfc t x y z : f_of t x y z = rfc_f t x y z.
Proof.
  unfold f_of, rfc_f. destruct (t / 16)%nat as [|[|[|]]]; [apply Ch_mux| |done|done].
  unfold F2, F1. bitwise.
Qed.

Lemma rfc_s_range t : (t < 64)%nat -> 0 < rfc_s t < 32.
Proof.
  intros Ht. enough (H : forallb (fun t => (0 <? rfc_s t) && (rfc_s t <? 32)) (seq 0 64) = true).
  { rewrite forallb_forall in H. specialize (H t). rewrite in_seq in H. lia. }
  reflexivity.
Qed.

Lemma step_word s a f x k b :
  0 < s < 32 ->
  u32 (Z.lor (u32 (Z.shiftl (u32 (a + (f + u32 (x + k)))) s))
             (Z.shiftr (u32 (a + (f + u32 (x + k)))) (32 - s)) + b) =
  u32 (b + rotl s (a + f + x + k)).
Proof.
  intros Hs. replace (u32 (a + (f + u32 (x + k)))) with (u32 (a + f + x + k)).
  2: { replace (a + (f + u32 (x + k))) with (a + f + u32 (x + k)) by lia.
       rewrite u32_add_r. f_equal. lia. }
  rewrite Z.add_comm, <- rotl_lor by done. do 2 f_equal. f_equal.
  rewrite !Z.shiftl_mul_pow2 by lia. unfold u32. by rewrite Zmult_mod_idemp_l.
Qed.

Lemma md5_exec_line X r t :
  (t < 64)%nat -> length r = 4%nat ->
  length (exec X r (line t)) = 4%nat /\
  view 4 (S t) (exec X r (line t)) = rfc_step X (view 4 t r) t.
Proof.
  intros Ht Hr. unfold exec, line. split; [by rewrite length_insert|].
  rewrite step_word, f_of_rfc by (by apply rfc_s_range).
  unfold rfc_step, view, rg.
  rewrite (Nat.Div0.add_mod 1 t 4 : (S t mod 4 = _)%nat).
  generalize (nth (rfc_k t) X 0) as x, (nth t T 0) as k, (rfc_f t) as f, (rfc_s t) as s.
  intros x k f s. pose proof (Nat.mod_upper_bound t 4 ltac:(lia)) as Hm. revert Hm.
  generalize (t mod 4)%nat as m. intros m Hm. clear -Hr Hm.
  destruct r as [|a [|b [|c [|d [|]]]]]; try discriminate Hr.
  do 4 (destruct m as [|m]; [reflexivity|]). lia.
Qed.

Lemma transform_compress st block :
  length st = 4%nat -> MD5Transform st (as_u32 block) = md5_compress st block.
Proof.
  intros Hs. unfold MD5Transform, md5_compress, as_u32.
  rewrite steps_lines, fold_left_map_. set (X := words_of le_get block).
  assert (Hi : (fun t r => length r = 4%nat /\
      view 4 t r = fold_left (rfc_step X) (seq 0 t) st) 64%nat
    (fold_left (fun r t => exec X r (line t)) (seq 0 64) st)).
  { apply (fold_seq_inv (fun t r => length r = 4%nat /\
      view 4 t r = fold_left (rfc_step X) (seq 0 t) st)).
    - split; [done|]. by apply view_id.
    - intros t r Ht [Hr Hv]. destruct (md5_exec_line X r t Ht Hr) as [Hr' Hv'].
      split; [done|]. by rewrite Hv', Hv, seq_S, fold_left_app. }
  cbv beta in Hi. destruct Hi as [Hr Hv]. by rewrite <- Hv, view_id.
Qed.

(** On a little-endian machine [byteReverse] changes nothing. *)
Lemma byteReverse_id b n : bytes_ok b -> byteReverse b n = b.
Proof.
  revert b. induction n as [|n IH]; intros b Hb; [done|].
  destruct b as [|b0 [|b1 [|b2 [|b3 b]]]]; try done.
  apply Forall_cons in Hb as [H0 Hb]. apply Forall_cons in Hb as [H1 Hb].
  apply Forall_cons in Hb as [H2 Hb]. apply Forall_cons in Hb as [H3 Hb].
  cbn [byteReverse]. rewrite IH by done.
  change (b0 :: b1 :: b2 :: b3 :: b) with ([b0; b1; b2; b3] ++ b). f_equal.
  rewrite <- (le_put_get [b0; b1; b2; b3]) by (rewrite !Forall_cons; auto using Forall_nil_2).
  cbn [length le_get]. f_equal. unfold is_byte in *.
  rewrite (Z.lor_comm (Z.shiftl b3 8)), (Z.lor_comm (Z.shiftl b1 8)).
  rewrite !Z.shiftl_mul_pow2, !(lor_low_high _ _ 8), Z.lor_comm by lia.
  rewrite u32_small by lia. rewrite lor_low_high by lia. lia.
Qed.

(** ** Streaming *)

Definition proc (st block : list Z) : list Z := MD5Transform st (as_u32 block).

(** The two words count the bits of the message modulo 2^64. *)
Definition bit_counts (b0 b1 n : Z) : Prop :=
  is_u32 b0 /\ is_u32 b1 /\ b0 + 2 ^ 32 * b1 = (8 * n) mod 2 ^ 64.

Definition md5_inv (msg : list Z) (ctx : MD5Context) : Prop :=
  bit_counts (bits0 ctx) (bits1 ctx) (Z.of_nat (length msg)) /\
  holds proc MD5_init (buf ctx) (in_ ctx) msg /\ bytes_ok (in_ ctx).

Lemma bit_counts_add b0 b1 n len :
  bit_counts b0 b1 n -> is_u32 len ->
  let b0' := u32 (b0 + u32 (Z.shiftl len 3)) in
  bit_counts b0' (u32 ((if b0' <? b0 then u32 (b1 + 1) else b1) + Z.shiftr len 29)) (n + len).
Proof.
  intros (H0 & H1 & E) Hl. unfold is_u32 in *.
  rewrite Z.shiftr_div_pow2, Z.shiftl_mul_pow2 by lia. cbv zeta. set (b0' := u32 (b0 + _)).
  assert (E' : (8 * (n + len)) mod 2 ^ 64 = (b0 + 2 ^ 32 * b1 + 8 * len) mod 2 ^ 64).
  { rewrite E, Zplus_mod_idemp_l. f_equal. lia. }
  assert (Hb : b0' = u32 (b0 + 2 ^ 3 * (len mod 2 ^ 29))).
  { unfold b0'. f_equal. f_equal. unfold u32. Z.div_mod_to_equations. lia. }
  clearbody b0'. subst b0'.
  unfold bit_counts, is_u32. rewrite E'. clear E E'.
  pose proof (u32_range (b0 + 2 ^ 3 * (len mod 2 ^ 29))).
  destruct (Z.ltb_spec (u32 (b0 + 2 ^ 3 * (len mod 2 ^ 29))) b0);
    (split; [lia|split; [apply u32_range|]]); unfold u32 in *; Z.div_mod_to_equations; lia.
Qed.

Lemma bit_counts_used b0 b1 n :
  bit_counts b0 b1 (Z.of_nat n) -> Z.to_nat (Z.land (Z.shiftr b0 3) 0x3f) = (n mod 64)%nat.
Proof.
  intros (H0 & H1 & E). unfold is_u32 in *. change 0x3f with (Z.ones 6).
  rewrite Z.land_ones, Z.shiftr_div_pow2 by lia. apply Nat2Z.inj.
  rewrite Nat2Z.inj_mod, !Z2Nat.id by (try apply Z.mod_pos_bound; lia).
  change (2 ^ 6) with 64. Z.div_mod_to_equations. lia.
Qed.

Lemma transform_in_eq st b : bytes_ok b -> transform_in st b = (proc st b, b).
Proof. intros. unfold transform_in. by rewrite byteReverse_id. Qed.

Lemma update_loop_md fuel st inb input :
  length inb = 64%nat -> bytes_ok inb -> bytes_ok input -> (length input <= fuel)%nat ->
  exists inb', update_loop fuel st inb input = (md proc st input, inb', tail64 input) /\
    length inb' = 64%nat /\ bytes_ok inb'.
Proof.
  revert fuel st inb. induction input as [l Hs|b l Hb IH] using block_ind;
    intros fuel st inb Hl Hib Hi Hf.
  - exists inb. rewrite md_short, tail64_short by done. split; [|done].
    destruct fuel; [done|]. cbn [update_loop]. by destruct (Nat.leb_spec 64 (length l)); [lia|].
  - rewrite length_app in Hf. destruct fuel as [|fuel]; [lia|]. cbn [update_loop].
    rewrite length_app, Hb. destruct (Nat.leb_spec 64 (64 + length l)); [|lia].
    apply Forall_app in Hi as [Hokb Hokl].
    rewrite take_app_length', drop_app_length' by done.
    rewrite splice_full, transform_in_eq by (done || lia).
    destruct (IH fuel (proc st b) b) as (inb' & E & H'); [done..|lia|].
    exists inb'. by rewrite E, md_cons, tail64_cons.
Qed.

Lemma md5_inv_start ctx :
  length (in_ ctx) = 64%nat -> bytes_ok (in_ ctx) -> md5_inv [] (MD5Init ctx).
Proof.
  intros. split; [|by split; [apply holds_nil|]].
  unfold bit_counts, is_u32. simpl. by rewrite Z.mod_0_l.
Qed.

Lemma md5_update_inv msg ctx input :
  is_u32 (Z.of_nat (length input)) -> bytes_ok msg -> bytes_ok input ->
  md5_inv msg ctx -> md5_inv (msg ++ input) (MD5Update ctx input).
Proof.
  intros Hl Hm Hi (Hc & (Hst & Hlen & Htail) & Hok).
  pose proof (bit_counts_add _ _ _ _ Hc Hl) as Ha. rewrite <- Nat2Z.inj_add, <- length_app in Ha.
  unfold MD5Update. rewrite (bit_counts_used _ _ _ Hc). cbv zeta in *.
  set (used := (length msg mod 64)%nat) in *.
  assert (Hu : (used < 64)%nat) by (apply Nat.mod_upper_bound; lia).
  assert (Ht : length (tail64 msg) = used) by apply length_tail64.
  unfold md5_inv, holds. rewrite (md_tail proc MD5_init msg input), (tail64_app msg input).
  assert (Hmod : (length (msg ++ input) mod 64)%nat = length (tail64 (tail64 msg ++ input))).
  { by rewrite <- tail64_app, length_tail64. }
  rewrite Hmod, <- Hst. clear Hmod.
  destruct (Nat.eqb_spec used 0) as [E0|Hn0].
  - assert (tail64 msg = []) as -> by (apply nil_length_inv; lia). cbn [app].
    destruct (update_loop_md (length input) (buf ctx) (in_ ctx) input)
      as (inb' & -> & Hl' & Hb'); [done..|]. cbn [buf in_ bits0 bits1].
    pose proof (length_tail64 input). pose proof (Nat.mod_upper_bound (length input) 64).
    split; [done|]. rewrite length_splice by lia. split; [split; [done|split; [done|]]|].
    + rewrite take_splice_0 by lia. done.
    + apply Forall_splice; [done|]. by apply Forall_drop.
  - destruct (Z.ltb_spec (Z.of_nat (length input)) (Z.of_nat (64 - used))) as [Hlt|Hge].
    + assert (Hs : (length (tail64 msg ++ input) < 64)%nat) by (rewrite length_app; lia).
      rewrite (md_short _ _ (tail64 msg ++ input)), (tail64_short (tail64 msg ++ input)) by done.
      cbn [buf in_ bits0 bits1]. split; [done|]. rewrite length_splice by lia.
      split; [split; [done|split; [done|]]|by apply Forall_splice].
      by rewrite length_app, Ht, take_splice, Htail by lia.
    + set (b := splice (in_ ctx) used (take (64 - used) input)).
      assert (Hb : b = tail64 msg ++ take (64 - used) input).
      { unfold b, splice. rewrite Htail, length_take, drop_ge, app_nil_r by lia. done. }
      assert (Hb64 : length b = 64%nat) by (rewrite Hb, length_app, length_take; lia).
      assert (Hbok : bytes_ok b) by (apply Forall_splice; [done|by apply Forall_take]).
      assert (Ei : tail64 msg ++ input = b ++ drop (64 - used) input)
        by (rewrite Hb, <- app_assoc, take_drop; done).
      rewrite Ei, md_cons, tail64_cons, transform_in_eq by done.
      set (r := drop (64 - used) input).
      destruct (update_loop_md (length r) (proc (buf ctx) b) b r)
        as (inb' & -> & Hl' & Hb'); [done..|by apply Forall_drop|done|]. cbn [buf in_ bits0 bits1].
      pose proof (length_tail64 r). pose proof (Nat.mod_upper_bound (length r) 64).
      split; [done|]. rewrite length_splice by lia. split; [split; [done|split; [done|]]|].
      * rewrite take_splice_0 by lia. done.
      * apply Forall_splice; [done|]. by apply Forall_drop, Forall_drop.
Qed.

Lemma bit_counts_field b0 b1 n :
  bit_counts b0 b1 n -> le_put 4 b0 ++ le_put 4 b1 = le_put 8 (8 * n).
Proof.
  intros (H0 & H1 & E). unfold is_u32 in *.
  rewrite <- (le_put_get (le_put 4 b0 ++ le_put 4 b1)).
  2: { apply Forall_app_2; apply bytes_ok_le_put. }
  rewrite le_get_app, !le_get_put, length_app, !length_le_put.
  apply le_put_mod. change (256 ^ Z.of_nat 8) with (2 ^ 64).
  change (256 ^ Z.of_nat 4) with (2 ^ 32). rewrite !(Z.mod_small _ (2 ^ 32)), E by lia.
  by rewrite Z.mod_mod.
Qed.

(** Writing the last eight bytes of a block: the length field. *)
Lemma splice_field l b0 b1 :
  length l = 64%nat ->
  splice (splice l 56 (le_put 4 b0)) 60 (le_put 4 b1) = take 56 l ++ le_put 4 b0 ++ le_put 4 b1.
Proof.
  intros Hl. set (l1 := splice l 56 (le_put 4 b0)).
  assert (H1 : length l1 = 64%nat) by (unfold l1; rewrite length_splice; rewrite ?length_le_put; lia).
  assert (E1 : take 60 l1 = take 56 l ++ le_put 4 b0).
  { unfold l1. rewrite <- (take_splice l 56 (le_put 4 b0)) by lia. by rewrite length_le_put. }
  unfold splice. rewrite E1, length_le_put, drop_ge, app_nil_r by (rewrite H1; simpl; lia).
  by rewrite app_assoc.
Qed.

(** The last step of [MD5Final], on a block whose length field is free. *)
Lemma final_out st l b0 b1 :
  length l = 64%nat -> bytes_ok l ->
  byteReverse (concat (map (le_put 4) (MD5Transform st (as_u32
    (splice (splice (byteReverse l 14) 56 (le_put 4 b0)) 60 (le_put 4 b1)))))) 4
  = concat (map (le_put 4) (proc st (take 56 l ++ le_put 4 b0 ++ le_put 4 b1))).
Proof.
  intros Hl Hb. rewrite (byteReverse_id l), splice_field by done.
  apply byteReverse_id. apply Forall_concat, List.Forall_map, Forall_forall.
  intros. apply bytes_ok_le_put.
Qed.

(** The buffer after the 0x80 byte and [n] zeros. *)
Lemma take_marked inb used n :
  length inb = 64%nat -> (used < 64)%nat -> (S used + n <= 64)%nat ->
  let l := splice (splice inb used [0x80]) (S used) (replicate n 0) in
  length l = 64%nat /\ take (S used + n) l = take used inb ++ 0x80 :: replicate n 0.
Proof.
  intros Hl Hu Hn. set (in1 := splice inb used [0x80]).
  assert (Hl1 : length in1 = 64%nat) by (unfold in1; rewrite length_splice; simpl; lia).
  cbv zeta. split; [rewrite length_splice; rewrite ?length_replicate; lia|].
  assert (Ht1 : take (S used) in1 = take used inb ++ [0x80]).
  { unfold in1. rewrite <- take_splice by lia. simpl length. by rewrite Nat.add_1_r. }
  rewrite <- (length_replicate n 0) at 1. rewrite take_splice by lia.
  by rewrite Ht1, <- app_assoc.
Qed.

Lemma bytes_ok_zeros n : bytes_ok (replicate n 0).
Proof. apply Forall_replicate. by unfold is_byte. Qed.
#[local] Hint Resolve bytes_ok_zeros Forall_splice : core.

Lemma md5_final msg ctx :
  bytes_ok msg -> md5_inv msg ctx ->
  MD5Final ctx = concat (map (le_put 4)
    (md proc MD5_init (pad_with (le_put 8 (8 * Z.of_nat (length msg))) msg))).
Proof.
  intros Hm (Hc & (Hst & Hlen & Htail) & Hok). unfold MD5Final.
  rewrite (bit_counts_used _ _ _ Hc), <- (bit_counts_field _ _ _ Hc).
  unfold pad_with. rewrite md_tail, <- Hst, <- Htail, <- (pad_zeros_mod (length msg)).
  set (used := (length msg mod 64)%nat) in *.
  assert (Hu : (used < 64)%nat) by (apply Nat.mod_upper_bound; lia).
  pose proof (padn_zeros used Hu) as Hz.
  assert (H80 : bytes_ok [0x80]) by (repeat constructor; unfold is_byte; lia).
  assert (Hlf : length (le_put 4 (bits0 ctx) ++ le_put 4 (bits1 ctx)) = 8%nat)
    by (by rewrite length_app, !length_le_put).
  destruct (Nat.ltb_spec (64 - 1 - used) 8) as [H8|H8].
  - destruct (take_marked (in_ ctx) used (64 - 1 - used)) as [Hl E]; [lia..|].
    rewrite take_ge in E by lia. rewrite transform_in_eq by auto.
    rewrite final_out; [|rewrite length_splice; rewrite ?length_replicate; lia|auto 6].
    rewrite (take_splice_0 _ (replicate 56 0)) by (rewrite ?Hl; reflexivity || lia).
    destruct (Nat.ltb_spec used 56); [lia|].
    replace (pad_zeros used) with (64 - 1 - used + 56)%nat by lia.
    set (field := le_put 4 _ ++ le_put 4 _) in *. rewrite E in *. clear E.
    set (b1 := take used (in_ ctx) ++ 0x80 :: replicate (64 - 1 - used) 0) in *.
    replace (take used (in_ ctx) ++ 0x80 :: replicate (64 - 1 - used + 56) 0 ++ field)
      with (b1 ++ (replicate 56 0 ++ field) ++ [])
      by (unfold b1; by rewrite app_nil_r, replicate_add, <- !app_assoc).
    rewrite !md_cons, md_short; [done|simpl; lia|by rewrite length_app, Hlf|done].
  - destruct (take_marked (in_ ctx) used (64 - 1 - used - 8)) as [Hl E]; [lia..|].
    rewrite final_out by auto 6.
    replace (S used + (64 - 1 - used - 8))%nat with 56%nat in E by lia. rewrite E.
    destruct (Nat.ltb_spec used 56); [|lia].
    replace (pad_zeros used) with (64 - 1 - used - 8)%nat by lia.
    rewrite <- app_assoc. cbn [app].
    rewrite md_one; [done|]. rewrite app_comm_cons, app_assoc, <- E, length_app, Hlf, length_take, Hl. done.
Qed.

Lemma md5_updates_inv chunks msg ctx :
  Forall (fun c => is_u32 (Z.of_nat (length c))) chunks ->
  bytes_ok msg -> bytes_ok (concat chunks) -> md5_inv msg ctx ->
  md5_inv (msg ++ concat chunks) (fold_left MD5Update chunks ctx).
Proof.
  intros Hc. revert msg ctx. induction Hc as [|c chunks Hc _ IH]; intros msg ctx Hm Hok Hi;
    cbn [concat fold_left] in *; [by rewrite app_nil_r|].
  apply Forall_app in Hok as [Hcok Hok]. rewrite app_assoc.
  apply IH; [by apply Forall_app_2|done|by apply md5_update_inv].
Qed.

Lemma length_md5_compress st b : length st = 4%nat -> length (md5_compress st b) = 4%nat.
Proof.
  intros Hs. unfold md5_compress. rewrite length_zip_with.
  assert (Hf : forall l v, length v = 4%nat ->
    length (fold_left (rfc_step (words_of le_get b)) l v) = 4%nat).
  { induction l as [|t l IH]; intros v Hv; cbn [fold_left]; [done|]. apply IH.
    destruct v as [|? [|? [|? [|? [|]]]]]; done || reflexivity. }
  rewrite Hf by done. lia.
Qed.

Lemma length_md5_ref msg : length (md5_ref msg) = 16%nat.
Proof.
  unfold md5_ref. rewrite length_words by apply length_le_put.
  by rewrite (length_md 4) by auto using length_md5_compress.
Qed.

Lemma final_ref msg ctx :
  bytes_ok msg -> md5_inv msg ctx -> MD5Final ctx = md5_ref msg.
Proof.
  intros Hm Hi. rewrite (md5_final msg) by done. unfold md5_ref. do 2 f_equal.
  apply (md_ext 4); [|intros; by apply length_md5_compress|done|].
  - intros st b Hs _ _. exact (transform_compress st b Hs).
  - by apply bytes_ok_pad_with; [apply bytes_ok_le_put|].
Qed.

Lemma md5_wd_loop_inv fuel ctx msg input chunk :
  (0 < chunk)%nat -> Z.of_nat chunk < 2 ^ 32 -> (length input < fuel)%nat ->
  bytes_ok msg -> bytes_ok input -> md5_inv msg ctx ->
  exists ctx', md5_wd_loop fuel ctx input chunk = Some ctx' /\ md5_inv (msg ++ input) ctx'.
Proof.
  intros Hc Hc32. revert ctx msg input.
  induction fuel as [|fuel IH]; intros ctx msg input Hf Hm Hok Hi; [lia|].
  destruct input as [|b l0]; [exists ctx; by rewrite app_nil_r|].
  set (l := b :: l0) in *. change (md5_wd_loop (S fuel) ctx l chunk) with
    (md5_wd_loop fuel (MD5Update ctx (take (Nat.min (length l) chunk) l))
       (drop (Nat.min (length l) chunk) l) chunk).
  assert (0 < length l)%nat by (unfold l; simpl; lia).
  replace (msg ++ l) with ((msg ++ take (Nat.min (length l) chunk) l)
                             ++ drop (Nat.min (length l) chunk) l)
    by (by rewrite <- app_assoc, take_drop).
  apply IH; [rewrite length_drop; lia|by apply Forall_app_2; [|apply Forall_take]|
             by apply Forall_drop|].
  apply md5_update_inv; [|done|by apply Forall_take|done].
  unfold is_u32. rewrite length_take. lia.
Qed.

(** [MD5Transform], with its 64 unrolled steps, is the compression
    function of RFC 1321, whose additive constants are the table of sines. *)
Theorem MD5Transform_correct st block :
  length st = 4%nat ->
  MD5Transform st (as_u32 block) = md5_compress st block /\ T = map sine (seq 1 64).
Proof. intros. split; [by apply transform_compress|]. by vm_compute. Qed.

Example MD5Transform_correct_witness :
  MD5Transform MD5_init (as_u32 (replicate 64 7)) = md5_compress MD5_init (replicate 64 7) /\
  T = map sine (seq 1 64).
Proof. apply (MD5Transform_correct MD5_init (replicate 64 7)). reflexivity. Defined.

(** [md5] and [md5_wd], which terminates for every positive chunk size,
    return the RFC 1321 digest of the input, and so does every division of
    it into update calls, whatever the context held before. *)
Theorem md5_correct ctx input chunks wd fuel chunk_sz :
  length (in_ ctx) = 64%nat -> bytes_ok (in_ ctx) -> bytes_ok input ->
  is_u32 (Z.of_nat (length input)) -> input = concat chunks ->
  (0 < chunk_sz)%nat -> Z.of_nat chunk_sz < 2 ^ 32 -> (length input < fuel)%nat ->
  md5 ctx input = md5_ref input /\
  md5_wd wd fuel ctx input chunk_sz = Some (md5_ref input) /\
  MD5Final (fold_left MD5Update chunks (MD5Init ctx)) = md5_ref input.
Proof.
  intros Hlen Hinok Hok Hl E Hc Hc32 Hf.
  pose proof (md5_inv_start ctx Hlen Hinok) as H0.
  assert (H1 : md5 ctx input = md5_ref input).
  { apply final_ref; [done|]. apply (md5_update_inv []); done || by constructor. }
  split; [done|]. split.
  - unfold md5_wd. destruct wd; [|by rewrite <- H1].
    destruct (md5_wd_loop_inv fuel (MD5Init ctx) [] input chunk_sz)
      as (ctx' & -> & Hi); [done..|by constructor|done|done|].
    simpl. f_equal. by apply final_ref.
  - subst input. apply final_ref; [done|]. apply (md5_updates_inv chunks []); [|by constructor|done|done].
    apply Forall_forall. intros c Hin. apply list_elem_of_split in Hin as (p & q & ->).
    rewrite concat_app, length_app in Hl. simpl in Hl. rewrite length_app in Hl.
    unfold is_u32 in *. lia.
Qed.

Example md5_correct_witness :
  (md5 (Ctx [] 1 1 (replicate 64 5)) [97; 98; 99] = md5_ref [97; 98; 99] /\
   md5_wd true 4 (Ctx [] 1 1 (replicate 64 5)) [97; 98; 99] 2 = Some (md5_ref [97; 98; 99]) /\
   MD5Final (fold_left MD5Update [[97]; [98; 99]] (MD5Init (Ctx [] 1 1 (replicate 64 5))))
     = md5_ref [97; 98; 99]) /\
  be_get (md5_ref [97; 98; 99]) = 0x900150983cd24fb0d6963f7d28e17f72.
Proof.
  split; [|vm_compute; reflexivity].
  apply (md5_correct (Ctx [] 1 1 (replicate 64 5)) [97; 98; 99] [[97]; [98; 99]] true 4 2).
  - reflexivity.
  - apply Forall_replicate. unfold is_byte. lia.
  - repeat constructor; unfold is_byte; lia.
  - unfold is_u32. simpl. lia.
  - reflexivity.
  - lia.
  - lia.
  - simpl. lia.
Defined.

End MD5.
