(* ===== verification/Lmb.v ===== *)
(** * Lmb: lib_generic/lmb.c, the logical memory blocks

    Two tables of address ranges, the memory of the board and the reserved
    parts of it, kept sorted by base address; [lmb_alloc_base] finds a free,
    aligned range at the highest address below a limit and reserves it.
    Addresses and sizes are 32-bit words ([phys_addr_t] and [phys_size_t] of
    this target), so their sums wrap.

    A table is an array of [MAX_LMB_REGIONS + 1] entries of which the first
    [cnt] are live.  The loops that would run outside the array give [None].
    The abstract view of a table is the set of addresses its live entries
    cover, [covers]. *)

From stdpp Require Import sorting.
From S2P Require Import Prelude.
Local Open Scope Z_scope.

Definition MAX_LMB_REGIONS : Z := 8.
Definition LMB_ALLOC_ANYWHERE : Z := 0.

Record lmb_property := Prop_ { base : Z; size : Z }.

(** The [size] field of the table is never read after [lmb_init]. *)
Record lmb_region := Region {
  cnt : Z;
  rsize : Z;
  region : list lmb_property
}.

Record lmb := Lmb { memory : lmb_region; reserved : lmb_region }.

(** [rgn->region[i]], and storing into it. *)
Definition get (r : list lmb_property) (i : nat) : lmb_property := nth i r (Prop_ 0 0).
Definition at_ (rgn : lmb_region) (i : nat) : lmb_property := get (region rgn) i.
Definition put (rgn : lmb_region) (i : nat) (p : lmb_property) : lmb_region :=
  Region (cnt rgn) (rsize rgn) (<[i := p]> (region rgn)).

Definition lmb_addrs_overlap (base1 size1 base2 size2 : Z) : bool :=
  (base1 <? u32 (base2 + size2)) && (base2 <? u32 (base1 + size1)).

Definition lmb_addrs_adjacent (base1 size1 base2 size2 : Z) : Z :=
  if base2 =? u32 (base1 + size1) then 1
  else if base1 =? u32 (base2 + size2) then -1
  else 0.

Definition lmb_regions_adjacent (rgn : lmb_region) (r1 r2 : nat) : Z :=
  lmb_addrs_adjacent (base (at_ rgn r1)) (size (at_ rgn r1))
                     (base (at_ rgn r2)) (size (at_ rgn r2)).

(** The loop of [lmb_remove_region]: [n] entries move down by one place. *)
Fixpoint remove_loop (n i : nat) (r : list lmb_property) : list lmb_property :=
  match n with
  | O => r
  | S n => remove_loop n (S i) (<[i := get r (S i)]> r)
  end.

Definition lmb_remove_region (rgn : lmb_region) (r : nat) : option lmb_region :=
  let last := u32 (cnt rgn - 1) in
  if MAX_LMB_REGIONS <? last then None else
  Some (Region (u32 (cnt rgn - 1)) (rsize rgn)
          (remove_loop (Z.to_nat last - r) r (region rgn))).

Definition lmb_coalesce_regions (rgn : lmb_region) (r1 r2 : nat) : option lmb_region :=
  let rgn := put rgn r1 (Prop_ (base (at_ rgn r1))
                               (u32 (size (at_ rgn r1) + size (at_ rgn r2)))) in
  lmb_remove_region rgn r2.

(** [lmb_init] writes the first entry of both tables. *)
Definition lmb_init (l : lmb) : lmb :=
  Lmb (Region 1 0 (<[0%nat := Prop_ 0 0]> (region (memory l))))
      (Region 1 0 (<[0%nat := Prop_ 0 0]> (region (reserved l)))).

(** How the first loop of [lmb_add_region] ends: the region is already there,
    entry [i] was extended, or the loop ran to its end. *)
Inductive search := Same | Extended (i : nat) (rgn : lmb_region) | NotFound.

Fixpoint coalesce_loop (n i : nat) (rgn : lmb_region) (b s : Z) : search :=
  match n with
  | O => NotFound
  | S n =>
      let rgnbase := base (at_ rgn i) in
      let rgnsize := size (at_ rgn i) in
      if (rgnbase =? b) && (rgnsize =? s) then Same
      else
        let adjacent := lmb_addrs_adjacent b s rgnbase rgnsize in
        if 0 <? adjacent then
          Extended i (put rgn i (Prop_ (u32 (rgnbase - s)) (u32 (rgnsize + s))))
        else if adjacent <? 0 then
          Extended i (put rgn i (Prop_ rgnbase (u32 (rgnsize + s))))
        else coalesce_loop n (S i) rgn b s
  end.

(** The insertion loop, from entry [k - 1] down. *)
Fixpoint insert_loop (k : nat) (r : list lmb_property) (b s : Z) : list lmb_property :=
  match k with
  | O => r
  | S i =>
      if b <? base (get r i) then insert_loop i (<[S i := get r i]> r) b s
      else <[S i := Prop_ b s]> r
  end.

(** The result code and the table. *)
Definition lmb_add_region (rgn : lmb_region) (b s : Z) : option (Z * lmb_region) :=
  if (cnt rgn =? 1) && (size (at_ rgn 0) =? 0) then Some (0, put rgn 0 (Prop_ b s))
  else
    match coalesce_loop (Z.to_nat (cnt rgn)) 0 rgn b s with
    | Same => Some (0, rgn)
    | Extended i rgn =>
        if (Z.of_nat i <? u32 (cnt rgn - 1)) && negb (lmb_regions_adjacent rgn i (S i) =? 0)
        then rgn ← lmb_coalesce_regions rgn i (S i); Some (2, rgn)
        else Some (1, rgn)
    | NotFound =>
        let i := cnt rgn in
        let '(coalesced, orgn) :=
          if (i <? u32 (cnt rgn - 1)) &&
             negb (lmb_regions_adjacent rgn (Z.to_nat i) (S (Z.to_nat i)) =? 0)
          then (true, lmb_coalesce_regions rgn (Z.to_nat i) (S (Z.to_nat i)))
          else (false, Some rgn) in
        rgn ← orgn;
        if coalesced : bool then Some (1, rgn)
        else if MAX_LMB_REGIONS <=? cnt rgn then Some (-1, rgn)
        else
          let r := insert_loop (Z.to_nat (cnt rgn)) (region rgn) b s in
          let r := if b <? base (get r 0) then <[0%nat := Prop_ b s]> r else r in
          Some (0, Region (cnt rgn + 1) (rsize rgn) r)
    end.

Definition lmb_add (l : lmb) (b s : Z) : option (Z * lmb) :=
  '(rc, rgn) ← lmb_add_region (memory l) b s; Some (rc, Lmb rgn (reserved l)).

Definition lmb_reserve (l : lmb) (b s : Z) : option (Z * lmb) :=
  '(rc, rgn) ← lmb_add_region (reserved l) b s; Some (rc, Lmb (memory l) rgn).

(** The search of [lmb_free]: the first entry the range lies in. *)
Fixpoint free_loop (n i : nat) (rgn : lmb_region) (b end_ : Z) : option nat :=
  match n with
  | O => None
  | S n =>
      let rgnbegin := base (at_ rgn i) in
      let rgnend := u32 (rgnbegin + size (at_ rgn i)) in
      if (rgnbegin <=? b) && (end_ <=? rgnend) then Some i
      else free_loop n (S i) rgn b end_
  end.

Definition lmb_free (l : lmb) (b s : Z) : option (Z * lmb) :=
  let rgn := reserved l in
  let end_ := u32 (b + s) in
  match free_loop (Z.to_nat (cnt rgn)) 0 rgn b end_ with
  | None => Some (-1, l)
  | Some i =>
      let rgnbegin := base (at_ rgn i) in
      let rgnsize := size (at_ rgn i) in
      let rgnend := u32 (rgnbegin + rgnsize) in
      if (rgnbegin =? b) && (rgnend =? end_) then
        rgn ← lmb_remove_region rgn i; Some (0, Lmb (memory l) rgn)
      else if rgnbegin =? b then
        Some (0, Lmb (memory l) (put rgn i (Prop_ end_ (u32 (rgnsize - s)))))
      else if rgnend =? end_ then
        Some (0, Lmb (memory l) (put rgn i (Prop_ rgnbegin (u32 (rgnsize - s)))))
      else
        let rgn := put rgn i (Prop_ rgnbegin (u32 (b - rgnbegin))) in
        '(rc, rgn) ← lmb_add_region rgn end_ (u32 (rgnend - end_));
        Some (rc, Lmb (memory l) rgn)
  end.

Fixpoint overlaps_loop (n i : nat) (rgn : lmb_region) (b s : Z) : Z :=
  match n with
  | O => -1
  | S n =>
      if lmb_addrs_overlap b s (base (at_ rgn i)) (size (at_ rgn i)) then Z.of_nat i
      else overlaps_loop n (S i) rgn b s
  end.

Definition lmb_overlaps_region (rgn : lmb_region) (b s : Z) : Z :=
  overlaps_loop (Z.to_nat (cnt rgn)) 0 rgn b s.

(** [addr & ~(size - 1)] and [(addr + (size - 1)) & ~(size - 1)]. *)
Definition lmb_align_down (addr sz : Z) : Z := Z.land addr (u32 (Z.lnot (u32 (sz - 1)))).
Definition lmb_align_up (addr sz : Z) : Z :=
  Z.land (u32 (addr + u32 (sz - 1))) (u32 (Z.lnot (u32 (sz - 1)))).

(** How the search below one memory block ends: [Next] tries the block
    before it. *)
Inductive found := Done (alloc : Z) (rsv : lmb_region) | Next.

(** [while (base && lmbbase <= base)]: [None] is fuel run out or an array
    overrun. *)
Fixpoint alloc_loop (fuel : nat) (rsv : lmb_region) (lmbbase b sz align : Z) : option found :=
  match fuel with
  | O => None
  | S fuel =>
      if negb (b =? 0) && (lmbbase <=? b) then
        let j := lmb_overlaps_region rsv b sz in
        if j <? 0 then
          '(rc, rsv') ← lmb_add_region rsv b (lmb_align_up sz align);
          if rc <? 0 then Some (Done 0 rsv') else Some (Done b rsv')
        else
          let res_base := base (at_ rsv (Z.to_nat j)) in
          if res_base <? sz then Some Next
          else alloc_loop fuel rsv lmbbase (lmb_align_down (u32 (res_base - sz)) align) sz align
      else Some Next
  end.

(** Where the search below block [i] starts, if the block is tried at all. *)
Definition start_base (lmbbase lmbsize sz align max_addr : Z) : option Z :=
  if lmbsize <? sz then None
  else if max_addr =? LMB_ALLOC_ANYWHERE then
    Some (lmb_align_down (u32 (u32 (lmbbase + lmbsize) - sz)) align)
  else if lmbbase <? max_addr then
    Some (lmb_align_down (u32 (Z.min (u32 (lmbbase + lmbsize)) max_addr - sz)) align)
  else None.

(** The loop over the memory blocks, from [k - 1] down. *)
Fixpoint blocks_loop (fuel k : nat) (l : lmb) (sz align max_addr : Z) : option (Z * lmb) :=
  match k with
  | O => Some (0, l)
  | S i =>
      let m := at_ (memory l) i in
      match start_base (base m) (size m) sz align max_addr with
      | None => blocks_loop fuel i l sz align max_addr
      | Some b =>
          f ← alloc_loop fuel (reserved l) (base m) b sz align;
          match f with
          | Done alloc rsv => Some (alloc, Lmb (memory l) rsv)
          | Next => blocks_loop fuel i l sz align max_addr
          end
      end
  end.

Definition __lmb_alloc_base (fuel : nat) (l : lmb) (sz align max_addr : Z) : option (Z * lmb) :=
  blocks_loop fuel (Z.to_nat (cnt (memory l))) l sz align max_addr.

(** [lmb_alloc_base] also reports a failure on the console. *)
Definition lmb_alloc_base (fuel : nat) (l : lmb) (sz align max_addr : Z)
    : option (Z * lmb * bool) :=
  '(alloc, l) ← __lmb_alloc_base fuel l sz align max_addr;
  Some (alloc, l, alloc =? 0).

Definition lmb_alloc (fuel : nat) (l : lmb) (sz align : Z) : option (Z * lmb * bool) :=
  lmb_alloc_base fuel l sz align LMB_ALLOC_ANYWHERE.

Fixpoint is_reserved_loop (n i : nat) (rgn : lmb_region) (addr : Z) : Z :=
  match n with
  | O => 0
  | S n =>
      let upper := u32 (base (at_ rgn i) + size (at_ rgn i) - 1) in
      if (base (at_ rgn i) <=? addr) && (addr <=? upper) then 1
      else is_reserved_loop n (S i) rgn addr
  end.

Definition lmb_is_reserved (l : lmb) (addr : Z) : Z :=
  is_reserved_loop (Z.to_nat (cnt (reserved l))) 0 (reserved l) addr.

(** ** The abstract view of a table *)

Definition entries (rgn : lmb_region) : list lmb_property :=
  take (Z.to_nat (cnt rgn)) (region rgn).

Definition inside (p : lmb_property) (a : Z) : Prop := base p <= a < base p + size p.
Definition covers (l : list lmb_property) (a : Z) : Prop := Exists (fun p => inside p a) l.

(** A range that does not wrap around the address space. *)
Definition range_ok (p : lmb_property) : Prop :=
  0 <= base p /\ 0 <= size p /\ base p + size p < 2 ^ 32.

Definition below (p q : lmb_property) : Prop := base p < base q.
Definition sorted : list lmb_property -> Prop := StronglySorted below.

Record wf (rgn : lmb_region) : Prop := {
  wf_length : length (region rgn) = 9%nat;
  wf_cnt : 1 <= cnt rgn <= 8;
  wf_ranges : Forall range_ok (entries rgn);
  wf_sorted : sorted (entries rgn)
}.

(** ** What [lmb_add_region] does to the list of live entries *)

Section Added.
Variables b s : Z.

(** Extending the entry that the new range touches. *)
Inductive extends : list lmb_property -> list lmb_property -> Prop :=
| ext_front p e q : b + s = base e ->
    extends (p ++ e :: q) (p ++ Prop_ b (size e + s) :: q)
| ext_back p e q : base e + size e = b ->
    extends (p ++ e :: q) (p ++ Prop_ (base e) (size e + s) :: q).

(** Merging two entries that touch. *)
Inductive merges : list lmb_property -> list lmb_property -> Prop :=
| merge_two p e1 e2 q :
    base e2 = base e1 + size e1 ->
    merges (p ++ e1 :: e2 :: q) (p ++ Prop_ (base e1) (size e1 + size e2) :: q).

Inductive added : Z -> list lmb_property -> list lmb_property -> Prop :=
| add_dummy e : size e = 0 -> added 0 [e] [Prop_ b s]
| add_same l : Prop_ b s ∈ l -> added 0 l l
| add_extend l l' : extends l l' -> added 1 l l'
| add_merge l l1 l' : extends l l1 -> merges l1 l' -> added 2 l l'
| add_insert p q : Forall (fun x => base x <= b) p -> Forall (fun x => b < base x) q ->
    added 0 (p ++ q) (p ++ Prop_ b s :: q).

Definition new_range : Prop := 0 <= b /\ 0 <= s /\ b + s < 2 ^ 32.

Lemma covers_app l r a : covers (l ++ r) a <-> covers l a \/ covers r a.
Proof. apply Exists_app. Qed.

Lemma covers_cons p l a : covers (p :: l) a <-> inside p a \/ covers l a.
Proof. apply Exists_cons. Qed.

Lemma extends_ok l l' :
  new_range -> Forall range_ok l -> sorted l -> extends l l' ->
  Forall range_ok l' /\ (forall a, covers l' a <-> covers l a \/ inside (Prop_ b s) a) /\
  (Forall (fun x => ~ (b <= base x < b + s)) l -> sorted l').
Proof.
  intros (Hb & Hs & Hbs) Hr Hl He. destruct He as [p e q E|p e q E].
  all: rewrite Forall_app, Forall_cons in Hr; destruct Hr as (Hp & (He0 & He1 & He2) & Hq).
  all: split; [rewrite Forall_app, Forall_cons; unfold range_ok; simpl; repeat split; done || lia|].
  all: split; [intros a; rewrite !covers_app, !covers_cons; unfold inside; simpl|intros Hn].
  - destruct (decide (b <= a < b + s)); destruct (decide (base e <= a < base e + size e)); intuition lia.
  - unfold sorted in *. apply StronglySorted_app in Hl as (Hpq & Hsp & Hsq).
    inversion Hsq as [|? ? Hsq' Heq]; subst.
    apply StronglySorted_app. split; [|split; [done|]].
    + intros x y Hx Hy. rewrite Forall_app in Hn. destruct Hn as [Hn _].
      rewrite Forall_forall in Hn. specialize (Hn x Hx).
      pose proof (Hpq x e Hx ltac:(by left)) as Hxe. unfold below in *.
      apply elem_of_cons in Hy as [->|Hy]; simpl; [lia|].
      apply (Hpq x y Hx). by right.
    + constructor; [done|]. eapply Forall_impl; [exact Heq|]. unfold below. simpl. lia.
  - destruct (decide (b <= a < b + s)); destruct (decide (base e <= a < base e + size e)); intuition lia.
  - unfold sorted in *. apply StronglySorted_app in Hl as (Hpq & Hsp & Hsq).
    inversion Hsq as [|? ? Hsq' Heq]; subst.
    apply StronglySorted_app. split; [|split; [done|by constructor]].
    intros x y Hx Hy. apply elem_of_cons in Hy as [->|Hy].
    + apply (Hpq x e Hx). by left.
    + apply (Hpq x y Hx). by right.
Qed.

Lemma merges_ok l l' :
  Forall range_ok l -> merges l l' ->
  Forall range_ok l' /\ (forall a, covers l' a <-> covers l a) /\ (sorted l -> sorted l').
Proof.
  intros Hr Hm. destruct Hm as [p e1 e2 q E].
  rewrite Forall_app, !Forall_cons in Hr.
  destruct Hr as (Hp & (H10 & H11 & H12) & (H20 & H21 & H22) & Hq).
  split; [rewrite Forall_app, Forall_cons; unfold range_ok; simpl; repeat split; done || lia|].
  split; [intros a; rewrite !covers_app, !covers_cons; unfold inside; simpl|intros Hl].
  - destruct (decide (base e1 <= a < base e1 + size e1));
      destruct (decide (base e2 <= a < base e2 + size e2)); intuition lia.
  - apply StronglySorted_app in Hl as (Hpq & Hsp & Hsq).
    apply StronglySorted_cons in Hsq as [He1 Hsq]. apply StronglySorted_cons in Hsq as [He2 Hsq].
    apply Forall_cons in He1 as [He12 He1]. unfold below in He12.
    apply StronglySorted_app. split; [|split; [done|by constructor]].
    intros x y Hx Hy. apply elem_of_cons in Hy as [->|Hy].
    + apply (Hpq x e1 Hx). by left.
    + apply (Hpq x y Hx). by do 2 right.
Qed.

Lemma insert_ok p q :
  new_range -> Forall range_ok (p ++ q) -> sorted (p ++ q) ->
  Forall (fun x => base x <= b) p -> Forall (fun x => b < base x) q ->
  Forall range_ok (p ++ Prop_ b s :: q) /\
  (forall a, covers (p ++ Prop_ b s :: q) a <-> covers (p ++ q) a \/ inside (Prop_ b s) a) /\
  (Forall (fun x => base x <> b) (p ++ q) -> sorted (p ++ Prop_ b s :: q)).
Proof.
  intros (Hb & Hs & Hbs) Hr Hl Hp Hq. apply Forall_app in Hr as [Hrp Hrq].
  split; [rewrite Forall_app, Forall_cons; unfold range_ok; simpl; repeat split; done || lia|].
  split; [intros a; rewrite !covers_app, !covers_cons; tauto|].
  intros Hn. apply Forall_app in Hn as [Hn _].
  apply StronglySorted_app in Hl as (Hpq & Hsp & Hsq).
  apply StronglySorted_app. split; [|split; [done|by constructor]].
  intros x y Hx Hy. apply elem_of_cons in Hy as [->|Hy]; [|by apply Hpq].
  rewrite Forall_forall in Hp, Hn. specialize (Hp x Hx). specialize (Hn x Hx).
  unfold below. simpl. lia.
Qed.

(** Whatever way the range is added, the table covers exactly what it
    covered and the range; it stays sorted when no entry starts inside the
    range. *)
Lemma added_ok rc l l' :
  new_range -> Forall range_ok l -> sorted l -> added rc l l' ->
  Forall range_ok l' /\ (forall a, covers l' a <-> covers l a \/ inside (Prop_ b s) a) /\
  (Forall (fun x => ~ (b <= base x < b + s)) l -> 0 < s -> sorted l').
Proof.
  intros Hnew Hr Hl Ha. destruct Ha as [e E|l Hin|l l' He|l l1 l' He Hm|p q Hp Hq].
  - destruct Hnew as (? & ? & ?). split; [repeat constructor; done|].
    split; [|intros; repeat constructor]. intros a. unfold covers.
    rewrite !Exists_cons, Exists_nil. unfold inside. simpl. rewrite E. intuition lia.
  - split; [done|]. split; [|done]. intros a. split; [by left|intros [H|H]; [done|]].
    apply Exists_exists. by eexists.
  - destruct (extends_ok l l' Hnew Hr Hl He) as (? & ? & ?). auto.
  - destruct (extends_ok l l1 Hnew Hr Hl He) as (Hr1 & Hc1 & Hs1).
    destruct (merges_ok l1 l' Hr1 Hm) as (Hr2 & Hc2 & Hs2).
    split; [done|split; [intros a; by rewrite Hc2|auto]].
  - destruct (insert_ok p q Hnew Hr Hl Hp Hq) as (? & ? & H). split; [done|split; [done|]].
    intros Hn Hs. apply H. eapply Forall_impl; [exact Hn|]. simpl. lia.
Qed.
End Added.

(** ** The loops over the array *)

Lemma get_middle p e q i : i = length p -> get (p ++ e :: q) i = e.
Proof. intros ->. unfold get. by rewrite nth_middle. Qed.

Lemma insert_middle (p : list lmb_property) e e' q i :
  i = length p -> <[i := e']> (p ++ e :: q) = p ++ e' :: q.
Proof. intros ->. rewrite <- (Nat.add_0_r (length p)) at 1. by rewrite insert_app_r. Qed.

Lemma adjacent_spec b1 s1 b2 s2 :
  0 <= b1 -> 0 <= s1 -> b1 + s1 < 2 ^ 32 -> 0 <= b2 -> 0 <= s2 -> b2 + s2 < 2 ^ 32 ->
  lmb_addrs_adjacent b1 s1 b2 s2 =
  if b2 =? b1 + s1 then 1 else if b1 =? b2 + s2 then -1 else 0.
Proof. intros. unfold lmb_addrs_adjacent. by rewrite !u32_small by lia. Qed.

(** How an entry [e] is extended by a range it touches. *)
Definition extended_entry (b s : Z) (e e' : lmb_property) : Prop :=
  (b + s = base e /\ e' = Prop_ b (size e + s)) \/
  (base e + size e = b /\ e' = Prop_ (base e) (size e + s)).

Lemma coalesce_loop_spec b s c z t q p :
  new_range b s -> Forall range_ok q ->
  match coalesce_loop (length q) (length p) (Region c z (p ++ q ++ t)) b s with
  | Same => Prop_ b s ∈ q
  | Extended j rgn' => exists q1 e q2 e', q = q1 ++ e :: q2 /\ j = (length p + length q1)%nat /\
      rgn' = Region c z (p ++ q1 ++ e' :: q2 ++ t) /\ extended_entry b s e e'
  | NotFound => True
  end.
Proof.
  intros (Hb & Hs & Hbs) Hq. revert p. induction Hq as [|e q (He0 & He1 & He2) _ IH]; intros p;
    cbn [coalesce_loop length]; [done|].
  unfold at_. cbn [region app]. rewrite get_middle, adjacent_spec by done.
  destruct ((base e =? b) && (size e =? s)) eqn:E1.
  { apply elem_of_cons. left. destruct e; simpl in *. f_equal; lia. }
  destruct (Z.eqb_spec (base e) (b + s)) as [Ef|Hnf]; [|destruct (Z.eqb_spec b (base e + size e)) as [Eb|Hnb]].
  - cbn. exists [], e, q, (Prop_ b (size e + s)). unfold put. cbn [cnt rsize region app].
    rewrite insert_middle, !u32_small by (done || lia).
    replace (base e - s) with b by lia. repeat split; [simpl; lia|]. left. split; [lia|done].
  - cbn. exists [], e, q, (Prop_ (base e) (size e + s)). unfold put. cbn [cnt rsize region app].
    rewrite insert_middle, !u32_small by (done || lia).
    repeat split; [simpl; lia|]. right. split; [lia|done].
  - cbn. specialize (IH (p ++ [e])). rewrite length_app, <- app_assoc in IH. simpl in IH.
    rewrite Nat.add_1_r in IH. destruct (coalesce_loop _ _ _ _ _); [by right| |done].
    destruct IH as (q1 & e1 & q2 & e' & -> & -> & -> & He').
    exists (e :: q1), e1, q2, e'. repeat split; [simpl; lia| |done]. by rewrite <- app_assoc.
Qed.

Lemma remove_loop_spec p x q t :
  exists y, remove_loop (length q) (length p) (p ++ x :: q ++ t) = p ++ q ++ y :: t.
Proof.
  revert p x. induction q as [|e q IH]; intros p x; cbn [remove_loop length app]; [by exists x|].
  replace (get _ (S (length p))) with e.
  2: { replace (p ++ x :: e :: q ++ t) with ((p ++ [x]) ++ e :: q ++ t) by (by rewrite <- app_assoc).
       rewrite get_middle; [done|]. rewrite length_app. simpl. lia. }
  rewrite insert_middle by done. destruct (IH (p ++ [e]) e) as [y Hy].
  rewrite length_app, <- !app_assoc in Hy. simpl in Hy. rewrite Nat.add_1_r in Hy.
  exists y. by rewrite <- Hy.
Qed.

Lemma insert_loop_spec b s p y t :
  sorted p -> exists p1 p2, p = p1 ++ p2 /\ Forall (fun x => b < base x) p2 /\
    Forall (fun x => base x <= b) p1 /\
    ((p1 = [] /\ exists y', insert_loop (length p) (p ++ y :: t) b s = y' :: p2 ++ t /\
                            (p <> [] -> head p = Some y')) \/
     (p1 <> [] /\ insert_loop (length p) (p ++ y :: t) b s = p1 ++ Prop_ b s :: p2 ++ t)).
Proof.
  revert y t. induction p as [|x p IH] using rev_ind; intros y t Hp.
  { exists [], []. split; [done|]. split; [done|]. split; [done|]. left. split; [done|].
    by exists y. }
  rewrite length_app, Nat.add_1_r. cbn [insert_loop]. rewrite <- app_assoc. cbn [app].
  rewrite get_middle by done.
  assert (Ei : forall v, <[S (length p) := v]> (p ++ x :: y :: t) = p ++ x :: v :: t).
  { intros v. replace (p ++ x :: y :: t) with ((p ++ [x]) ++ y :: t) by (by rewrite <- app_assoc).
    rewrite insert_middle; [by rewrite <- app_assoc|]. rewrite length_app. simpl. lia. }
  rewrite !Ei. apply StronglySorted_app in Hp as (Hpx & Hp & _).
  destruct (Z.ltb_spec b (base x)) as [Hlt|Hge].
  - destruct (IH x (x :: t) Hp) as (p1 & p2 & -> & H2 & H1 & Hres).
    exists p1, (p2 ++ [x]). rewrite !app_assoc. split; [done|].
    split; [apply Forall_app_2; [done|by constructor]|]. split; [done|].
    destruct Hres as [(-> & y' & Ey & Hh)|(Hne & Hi)]; [left|right].
    + split; [done|]. exists y'. rewrite Ey, <- app_assoc. split; [done|].
      intros _. destruct p2 as [|z p2]; [cbn in *; congruence|by apply Hh].
    + split; [done|]. rewrite Hi, <- app_assoc. done.
  - exists (p ++ [x]), []. rewrite app_nil_r. split; [done|]. split; [done|]. split.
    + apply Forall_app_2; [|by constructor]. apply Forall_forall. intros z Hz.
      specialize (Hpx z x Hz ltac:(by left)). unfold below in Hpx. lia.
    + right. split; [by destruct p|]. by rewrite <- app_assoc.
Qed.

Lemma coalesce_spec c z p e1 e2 q t :
  c = Z.of_nat (length p + S (S (length q))) -> c <= 8 ->
  0 <= size e1 -> 0 <= size e2 -> size e1 + size e2 < 2 ^ 32 ->
  exists y, lmb_coalesce_regions (Region c z (p ++ e1 :: e2 :: q ++ t)) (length p) (S (length p)) =
    Some (Region (c - 1) z (p ++ Prop_ (base e1) (size e1 + size e2) :: q ++ y :: t)).
Proof.
  intros Hc Hc8 H1 H2 H12. unfold lmb_coalesce_regions, lmb_remove_region, put, at_.
  cbn [cnt rsize region]. rewrite insert_middle, (get_middle p e1) by done.
  assert (E : forall x, p ++ x :: e2 :: q ++ t = (p ++ [x]) ++ e2 :: q ++ t)
    by (intros; by rewrite <- app_assoc).
  rewrite (E e1), (get_middle (p ++ [e1])) by (rewrite length_app; simpl; lia).
  rewrite (u32_small (size e1 + size e2)) by lia.
  set (e' := Prop_ _ _). rewrite E.
  rewrite (u32_small (c - 1)) by lia. unfold MAX_LMB_REGIONS.
  destruct (Z.ltb_spec 8 (c - 1)); [lia|].
  replace (S (length p)) with (length (p ++ [e'])) by (rewrite length_app; simpl; lia).
  replace (Z.to_nat (c - 1) - length (p ++ [e']))%nat with (length q)
    by (rewrite length_app; simpl; lia).
  destruct (remove_loop_spec (p ++ [e']) e2 q t) as [y ->]. exists y.
  by rewrite <- app_assoc.
Qed.

Lemma insert_spec c z l y t b s :
  c = Z.of_nat (length l) -> (0 < length l)%nat -> sorted l ->
  exists p q, l = p ++ q /\ Forall (fun x => base x <= b) p /\ Forall (fun x => b < base x) q /\
    let r := insert_loop (length l) (l ++ y :: t) b s in
    Region c z (if b <? base (get r 0) then <[0%nat := Prop_ b s]> r else r) =
    Region c z (p ++ Prop_ b s :: q ++ t).
Proof.
  intros Hc Hl Hs. destruct (insert_loop_spec b s l y t Hs)
    as (p & q & El & Hq & Hp & Hres). exists p, q. split; [done|split; [done|split; [done|]]].
  cbv zeta. f_equal. destruct Hres as [(-> & y' & -> & Hh)|(Hne & ->)].
  - cbn in El. subst q. destruct l as [|x l]; [simpl in Hl; lia|].
    injection (Hh ltac:(done)) as <-. apply Forall_cons in Hq as [Hx _]. cbn.
    by destruct (Z.ltb_spec b (base x)); [|lia].
  - destruct p as [|x p]; [done|]. apply Forall_cons in Hp as [Hx _]. cbn.
    by destruct (Z.ltb_spec b (base x)); [lia|].
Qed.

Lemma entries_app c z l t : c = Z.of_nat (length l) -> entries (Region c z (l ++ t)) = l.
Proof. intros ->. unfold entries. cbn. rewrite Nat2Z.id. apply take_app_length. Qed.

(** [lmb_add_region] on a well-formed table: it fails when the table is full
    and the range touches no entry, and otherwise adds the range. *)
Lemma add_region_added rgn b s :
  wf rgn -> new_range b s ->
  exists rc rgn', lmb_add_region rgn b s = Some (rc, rgn') /\
    ((rc = -1 /\ rgn' = rgn /\ cnt rgn = 8) \/
     (added b s rc (entries rgn) (entries rgn') /\
      length (region rgn') = 9%nat /\ 1 <= cnt rgn' <= 8)).
Proof.
  intros [Hlen Hcnt Hr Hs] Hnew. pose proof Hnew as (Hb & Hsz & Hbs).
  destruct rgn as [c z r]. cbn [cnt region] in *. set (l := entries (Region c z r)) in *.
  assert (Ec : c = Z.of_nat (length l)).
  { unfold l, entries. cbn. rewrite length_take. lia. }
  assert (Er : r = l ++ drop (Z.to_nat c) r) by (symmetry; apply take_drop).
  revert Er. generalize (drop (Z.to_nat c) r) as t. intros t Er.
  clearbody l. subst r. unfold lmb_add_region. cbn [cnt].
  destruct ((c =? 1) && _) eqn:E1.
  { exists 0. eexists. split; [done|]. right.
    destruct l as [|e [|]]; simpl in Ec; try lia. cbn in E1. unfold put. cbn [cnt rsize region].
    change (<[0%nat := Prop_ b s]> ([e] ++ t)) with ([Prop_ b s] ++ t).
    rewrite entries_app by done. split; [constructor; lia|]. split; [done|simpl; lia]. }
  pose proof (coalesce_loop_spec b s c z t l [] Hnew Hr) as Hloop. cbn [app length] in Hloop.
  replace (Z.to_nat c) with (length l) by lia.
  destruct (coalesce_loop _ _ _ _ _) as [|i rgn'|].
  - exists 0. eexists. split; [done|]. right. rewrite entries_app by done.
    split; [by constructor|]. done.
  - destruct Hloop as (q1 & e & q2 & e' & -> & -> & -> & He').
    assert (Hext : extends b s (q1 ++ e :: q2) (q1 ++ e' :: q2)).
    { destruct He' as [[Hx ->]|[Hx ->]]; by constructor. }
    rewrite length_app in Ec. cbn [length] in Ec. cbn [Nat.add cnt].
    destruct (extends_ok b s _ _ Hnew Hr Hs Hext) as (Hr' & _ & _).
    rewrite u32_small by lia.
    assert (Hone : exists rc rgn', Some (1, Region c z (q1 ++ e' :: q2 ++ t)) = Some (rc, rgn') /\
      ((rc = -1 /\ rgn' = Region c z ((q1 ++ e :: q2) ++ t) /\ c = 8) \/
       (added b s rc (q1 ++ e :: q2) (entries rgn') /\ length (region rgn') = 9%nat /\ 1 <= cnt rgn' <= 8))).
    { do 2 eexists. split; [done|]. right.
      rewrite (app_assoc q1 (e' :: q2) t : q1 ++ e' :: q2 ++ t = _).
      rewrite entries_app by (rewrite length_app; simpl; lia).
      split; [by constructor|]. cbn [region cnt]. split; [|lia].
      rewrite <- Hlen, !length_app. simpl. lia. }
    destruct q2 as [|e2 q2].
    { destruct (Z.ltb_spec (Z.of_nat (length q1)) (c - 1)); [simpl in *; lia|]. exact Hone. }
    destruct (Z.ltb_spec (Z.of_nat (length q1)) (c - 1)); [|simpl in *; lia]. cbn [andb].
    unfold lmb_regions_adjacent, at_. cbn [region app].
    rewrite (get_middle q1 e') by done.
    assert (E2 : q1 ++ e' :: e2 :: q2 ++ t = (q1 ++ [e']) ++ e2 :: q2 ++ t) by (by rewrite <- app_assoc).
    rewrite E2, (get_middle (q1 ++ [e'])), <- E2 by (rewrite length_app; simpl; lia).
    apply Forall_app in Hr' as [_ Hr']. rewrite !Forall_cons in Hr'.
    destruct Hr' as ((He'0 & He'1 & He'2) & (He20 & He21 & He22) & _).
    assert (Hlt : base e < base e2).
    { apply StronglySorted_app in Hs as (_ & _ & Hs). apply StronglySorted_cons in Hs as [Hs _].
      by apply Forall_cons in Hs as [Hs _]. }
    assert (Hle : base e' <= base e) by (destruct He' as [[? ->]|[? ->]]; simpl; lia).
    rewrite adjacent_spec by done.
    destruct (Z.eqb_spec (base e2) (base e' + size e')) as [Em|_].
    + simpl negb. cbv iota. simpl length in Ec.
      destruct (coalesce_spec c z q1 e' e2 q2 t) as [y ->]; [lia..|].
      do 2 eexists. split; [done|]. right. set (em := Prop_ (base e') (size e' + size e2)).
      rewrite (app_assoc q1 (em :: q2) (y :: t) : q1 ++ em :: q2 ++ y :: t = _).
      rewrite entries_app by (rewrite length_app; simpl; lia).
      split; [by econstructor; [exact Hext|constructor]|]. cbn [region cnt]. split; [|lia].
      rewrite <- Hlen, !length_app. simpl. lia.
    + destruct (Z.eqb_spec (base e') (base e2 + size e2)); [lia|]. exact Hone.
  - rewrite (u32_small (c - 1)), (proj2 (Z.ltb_ge c (c - 1))) by lia. cbn [andb mbind option_bind cnt].
    unfold MAX_LMB_REGIONS. destruct (Z.leb_spec 8 c).
    { do 2 eexists. split; [done|]. left. split; [done|split; [done|lia]]. }
    destruct t as [|y t]; [rewrite length_app in Hlen; simpl in Hlen; lia|].
    cbn [rsize region]. replace (Z.to_nat c) with (length l) by lia.
    destruct (insert_spec c z l y t b s Ec) as (p & q & -> & Hp & Hq & Ei); [lia|done|].
    cbv zeta in Ei. injection Ei as ->.
    do 2 eexists. split; [done|]. right.
    rewrite (app_assoc p (Prop_ b s :: q) t : p ++ Prop_ b s :: q ++ t = _).
    rewrite length_app in Ec. rewrite entries_app by (rewrite length_app; simpl; lia).
    split; [by constructor|]. cbn [region cnt]. split; [|lia].
    rewrite <- Hlen, !length_app. simpl. lia.
Qed.

(** ** Searching for free space *)

(** An alignment: a power of two. *)
Definition is_align (al : Z) : Prop := exists k, 0 <= k < 32 /\ al = 2 ^ k.

Lemma align_down_spec x al :
  is_align al -> is_u32 x -> lmb_align_down x al = x - x mod al /\ 0 < al.
Proof.
  intros (k & Hk & ->) Hx. split; [by apply align_mask|]. apply Z.pow_pos_nonneg; lia.
Qed.

Lemma align_up_spec x al :
  is_align al -> 0 < x -> x + al <= 2 ^ 32 ->
  x <= lmb_align_up x al < x + al /\ lmb_align_up x al mod al = 0.
Proof.
  intros (k & Hk & ->) Hx Hs.
  assert (Hp : 0 < 2 ^ k < 2 ^ 32) by (split; [|apply Z.pow_lt_mono_r]; lia).
  unfold lmb_align_up. rewrite align_mask by (lia || apply u32_range).
  rewrite (u32_small (2 ^ k - 1)), (u32_small (x + _)) by lia.
  pose proof (Z.mod_pos_bound (x + (2 ^ k - 1)) (2 ^ k)). split; [lia|].
  rewrite <- Zminus_mod_idemp_l, Z.sub_diag. done.
Qed.

Lemma overlaps_spec rgn b sz :
  Forall range_ok (entries rgn) -> 0 <= b -> 0 < sz -> b + sz < 2 ^ 32 ->
  (Z.to_nat (cnt rgn) <= length (region rgn))%nat ->
  let j := lmb_overlaps_region rgn b sz in
  (j = -1 /\ Forall (fun e => ~ (b < base e + size e /\ base e < b + sz)) (entries rgn)) \/
  (0 <= j /\ at_ rgn (Z.to_nat j) ∈ entries rgn /\
   base (at_ rgn (Z.to_nat j)) < b + sz /\ b < base (at_ rgn (Z.to_nat j)) + size (at_ rgn (Z.to_nat j))).
Proof.
  destruct rgn as [c z r]. unfold lmb_overlaps_region, entries, at_. cbn [cnt region].
  intros Hr Hb Hsz Hbs Hlen. set (n := Z.to_nat c) in *.
  assert (Hgen : forall p q, take n r = p ++ q ->
    let j := overlaps_loop (length q) (length p) (Region c z r) b sz in
    (j = -1 /\ Forall (fun e => ~ (b < base e + size e /\ base e < b + sz)) q) \/
    (0 <= j /\ get r (Z.to_nat j) ∈ q /\ base (get r (Z.to_nat j)) < b + sz /\
     b < base (get r (Z.to_nat j)) + size (get r (Z.to_nat j)))).
  { intros p q. revert p. induction q as [|e q IH]; intros p E; cbn [overlaps_loop length];
      [left; by split|].
    assert (He : get r (length p) = e).
    { rewrite <- (take_drop n r), E, <- app_assoc. by apply get_middle. }
    unfold at_. cbn [region]. rewrite He. unfold lmb_addrs_overlap.
    rewrite E, Forall_app, Forall_cons in Hr. destruct Hr as (_ & (? & ? & ?) & _).
    rewrite !u32_small by lia. destruct ((b <? _) && _) eqn:Eo.
    - right. rewrite Nat2Z.id, He. split; [lia|]. split; [by left|]. lia.
    - specialize (IH (p ++ [e])). rewrite length_app, <- app_assoc, Nat.add_1_r in IH.
      destruct (IH E) as [[-> Hf]|(Hj & Hin & Ho)]; [left|right].
      + split; [done|]. constructor; [lia|done].
      + split; [done|]. split; [by right|done]. }
  specialize (Hgen [] (take n r) eq_refl). rewrite length_take, Nat.min_l in Hgen by lia.
  exact Hgen.
Qed.

(** A free, aligned range of [sz] bytes from [a] on, between [lo] and [lim],
    was taken: the reserved table now covers it, up to the alignment. *)
Definition taken (rsv rsv' : lmb_region) (lo lim sz al a : Z) : Prop :=
  a <> 0 /\ lo <= a /\ a mod al = 0 /\ a + sz <= lim /\
  (forall x, a <= x < a + sz -> ~ covers (entries rsv) x) /\
  (forall x, covers (entries rsv') x <->
     covers (entries rsv) x \/ a <= x < a + lmb_align_up sz al).

(** The number of reserved entries a range ending at [top] may collide with. *)
Definition colliding (rsv : lmb_region) (top : Z) : nat :=
  length (filter (fun e => base e < top) (entries rsv)).

Lemma colliding_lt rsv e top top' :
  e ∈ entries rsv -> base e < top -> top' <= base e ->
  (colliding rsv top' < colliding rsv top)%nat.
Proof.
  intros He Ht Ht'. unfold colliding.
  rewrite <- (list_filter_filter_l (fun e => base e < top') (fun e => base e < top))
    by (intros; lia).
  apply (length_filter_lt _ _ e); [|lia]. by apply list_elem_of_filter.
Qed.

Lemma wf_array rgn : wf rgn -> (Z.to_nat (cnt rgn) <= length (region rgn))%nat.
Proof. intros []. lia. Qed.

Lemma take_free rsv b sz al lo lim :
  wf rsv -> 0 < sz -> is_align al -> 0 < b -> lo <= b -> b mod al = 0 -> b + sz <= lim ->
  lim + al <= 2 ^ 32 ->
  Forall (fun e => ~ (b < base e + size e /\ base e < b + sz)) (entries rsv) ->
  exists rc rsv', lmb_add_region rsv b (lmb_align_up sz al) = Some (rc, rsv') /\
    ((rc < 0 /\ rsv' = rsv) \/ (0 <= rc /\ taken rsv rsv' lo lim sz al b)).
Proof.
  intros Hwf Hsz Hal Hb Hlo Hmod Hlim Htop Hfree.
  destruct (align_up_spec sz al Hal Hsz) as [[Hau1 Hau2] _]; [lia|].
  assert (Hnew : new_range b (lmb_align_up sz al)) by (unfold new_range; lia).
  destruct (add_region_added rsv b _ Hwf Hnew) as (rc & rsv' & -> & Ha).
  exists rc, rsv'. split; [done|]. destruct Ha as [(-> & -> & _)|(Ha & _)]; [by left; split; [lia|]|right].
  destruct Hwf as [_ _ Hr Hs].
  destruct (added_ok _ _ rc _ _ Hnew Hr Hs Ha) as (_ & Hc & _).
  split; [destruct Ha; lia|]. repeat split; [lia|done..| |apply Hc|apply Hc].
  intros x Hx Hcov. apply Exists_exists in Hcov as (e & He & Hin). unfold inside in Hin.
  rewrite Forall_forall in Hfree. apply (Hfree e He). lia.
Qed.

Lemma alloc_loop_spec fuel rsv lo b sz al lim :
  wf rsv -> 0 < sz -> is_align al -> 0 <= b -> b mod al = 0 -> b + sz <= lim ->
  lim + al <= 2 ^ 32 -> (colliding rsv (b + sz) < fuel)%nat ->
  exists f, alloc_loop fuel rsv lo b sz al = Some f /\
    match f with
    | Next => True
    | Done a rsv' => (a = 0 /\ rsv' = rsv) \/ taken rsv rsv' lo lim sz al a
    end.
Proof.
  intros Hwf Hsz Hal. revert b. induction fuel as [|fuel IH]; intros b Hb Hmod Hlim Htop Hf; [lia|].
  pose proof (align_down_spec 0 al Hal) as [_ Hal0]; [by unfold is_u32|].
  cbn [alloc_loop]. destruct (negb (b =? 0) && (lo <=? b)) eqn:Eb; [|by exists Next].
  destruct (overlaps_spec rsv b sz) as [[Ej Hfree]|(Hj & Hin & Ho1 & Ho2)];
    [apply Hwf|lia|done|lia|by apply wf_array| |].
  - rewrite Ej. cbn.
    destruct (take_free rsv b sz al lo lim) as (rc & rsv' & -> & Hres); [done|done|done|lia|lia|done..|].
    cbn. destruct Hres as [[Hrc ->]|[Hrc Ht]].
    + destruct (Z.ltb_spec rc 0); [|lia]. eexists. split; [done|]. by left.
    + destruct (Z.ltb_spec rc 0); [lia|]. eexists. split; [done|]. by right.
  - set (j := lmb_overlaps_region rsv b sz) in *. destruct (Z.ltb_spec j 0); [lia|].
    set (e := at_ rsv (Z.to_nat j)) in *.
    destruct (Z.ltb_spec (base e) sz); [by exists Next|].
    assert (He : range_ok e).
    { destruct Hwf as [_ _ Hr _]. rewrite Forall_forall in Hr. by apply Hr. }
    destruct He as (He0 & He1 & He2). rewrite u32_small by lia.
    destruct (align_down_spec (base e - sz) al Hal) as [-> _]; [unfold is_u32; lia|].
    pose proof (Z.mod_pos_bound (base e - sz) al Hal0).
    assert ((base e - sz) mod al <= base e - sz) by (apply Z.mod_le; lia).
    apply IH; [lia| |lia|done|].
    + by rewrite <- Zminus_mod_idemp_l, Z.sub_diag.
    + enough (colliding rsv (base e - sz - (base e - sz) mod al + sz)
              < colliding rsv (b + sz))%nat by lia.
      apply (colliding_lt rsv e); [done|lia|lia].
Qed.

Lemma colliding_bound rsv top : wf rsv -> (colliding rsv top <= 8)%nat.
Proof.
  intros [_ Hc _ _]. unfold colliding. etransitivity; [apply length_filter|].
  unfold entries. rewrite length_take. lia.
Qed.

Lemma at_entries rgn i : wf rgn -> (i < Z.to_nat (cnt rgn))%nat -> at_ rgn i ∈ entries rgn.
Proof.
  intros Hwf Hi. pose proof (wf_array _ Hwf). unfold at_, get, entries.
  apply list_elem_of_lookup. exists i. rewrite lookup_take_lt by lia.
  rewrite nth_default_lookup. destruct (region rgn !! i) eqn:E; [done|].
  apply lookup_ge_None in E. lia.
Qed.

(** The start of the search below a block, and the limit it keeps. *)
Lemma start_base_spec m sz al max_addr b :
  range_ok m -> 0 < sz -> is_align al ->
  max_addr = 0 \/ sz <= max_addr -> start_base (base m) (size m) sz al max_addr = Some b ->
  let lim := if max_addr =? 0 then base m + size m else Z.min (base m + size m) max_addr in
  0 <= b /\ b mod al = 0 /\ b + sz <= lim.
Proof.
  intros (H0 & H1 & H2) Hsz Hal Hmax. unfold start_base, LMB_ALLOC_ANYWHERE.
  rewrite (u32_small (base m + size m)) by lia.
  destruct (Z.ltb_spec (size m) sz); [done|].
  assert (Hgen : forall lim, sz <= lim -> lim <= base m + size m ->
    lmb_align_down (u32 (lim - sz)) al = b -> 0 <= b /\ b mod al = 0 /\ b + sz <= lim).
  { intros lim Hl Hl' <-. rewrite u32_small by lia.
    destruct (align_down_spec (lim - sz) al Hal) as [-> Hal0]; [unfold is_u32; lia|].
    pose proof (Z.mod_pos_bound (lim - sz) al Hal0).
    assert ((lim - sz) mod al <= lim - sz) by (apply Z.mod_le; lia).
    split; [lia|]. split; [|lia]. by rewrite <- Zminus_mod_idemp_l, Z.sub_diag. }
  destruct (Z.eqb_spec max_addr 0) as [->|]; [intros [= E]; apply Hgen; [lia..|done]|].
  destruct (Z.ltb_spec (base m) max_addr); [|done].
  intros [= E]. apply Hgen; [lia..|done].
Qed.

Lemma blocks_loop_spec fuel k l sz al max_addr :
  wf (memory l) -> wf (reserved l) -> 0 < sz -> is_align al ->
  max_addr = 0 \/ sz <= max_addr -> (8 < fuel)%nat -> (k <= Z.to_nat (cnt (memory l)))%nat ->
  Forall (fun m => base m + size m + al <= 2 ^ 32) (entries (memory l)) ->
  exists a l', blocks_loop fuel k l sz al max_addr = Some (a, l') /\ memory l' = memory l /\
    ((a = 0 /\ reserved l' = reserved l) \/
     exists m, m ∈ entries (memory l) /\
       taken (reserved l) (reserved l') (base m)
         (if max_addr =? 0 then base m + size m else Z.min (base m + size m) max_addr) sz al a).
Proof.
  intros Hm Hr Hsz Hal Hmax Hf Hk Htop. induction k as [|i IH]; cbn [blocks_loop].
  { exists 0, l. split; [done|split; [done|by left]]. }
  pose proof (at_entries _ i Hm ltac:(lia)) as Hin. set (m := at_ (memory l) i) in *.
  destruct (start_base _ _ _ _ _) as [b|] eqn:Es; [|apply IH; lia].
  pose proof (wf_ranges _ Hm) as Hrm. rewrite Forall_forall in Hrm, Htop.
  destruct (start_base_spec m sz al max_addr b (Hrm m Hin) Hsz Hal Hmax Es) as (Hb & Hmod & Hlim).
  destruct (alloc_loop_spec fuel (reserved l) (base m) b sz al _ Hr Hsz Hal Hb Hmod Hlim)
    as (f & -> & Hfd).
  { specialize (Htop m Hin). destruct (max_addr =? 0); lia. }
  { pose proof (colliding_bound (reserved l) (b + sz) Hr). lia. }
  cbn. destruct f as [a rsv|]; [|apply IH; lia].
  exists a, (Lmb (memory l) rsv). split; [done|split; [done|]]. cbn.
  destruct Hfd as [[-> ->]|Ht]; [by left|right]. by exists m.
Qed.

(** [lmb_add_region] (behind [lmb_add] and [lmb_reserve]) either finds
    the table full and leaves it alone, or makes it cover exactly what it
    covered and the new range; the table stays sorted and within its array
    whenever no entry starts inside the new range. *)
Theorem lmb_add_region_correct rgn b s :
  wf rgn -> new_range b s ->
  exists rc rgn', lmb_add_region rgn b s = Some (rc, rgn') /\
    ((rc = -1 /\ rgn' = rgn /\ cnt rgn = 8) \/
     (0 <= rc <= 2 /\
      (forall a, covers (entries rgn') a <-> covers (entries rgn) a \/ b <= a < b + s) /\
      (Forall (fun e => ~ (b <= base e < b + s)) (entries rgn) -> 0 < s -> wf rgn'))).
Proof.
  intros Hwf Hnew. destruct (add_region_added rgn b s Hwf Hnew) as (rc & rgn' & -> & Ha).
  exists rc, rgn'. split; [done|]. destruct Ha as [Ha|(Ha & Hl & Hc)]; [by left|right].
  destruct Hwf as [_ _ Hr Hs].
  destruct (added_ok b s rc _ _ Hnew Hr Hs Ha) as (Hr' & Hcov & Hs').
  split; [destruct Ha; lia|]. split; [exact Hcov|]. intros Hn Hpos. split; auto.
Qed.

Definition two_regions : lmb_region :=
  Region 2 0 (Prop_ 0x1000 0x1000 :: Prop_ 0x3000 0x1000 :: replicate 7 (Prop_ 0 0)).

Lemma two_regions_wf : wf two_regions.
Proof.
  split; [done|done| |].
  - repeat constructor; done.
  - repeat constructor; done.
Qed.

(** The range between the two regions joins them into one. *)
Example lmb_add_region_correct_witness :
  lmb_add_region two_regions 0x2000 0x1000 =
    Some (2, Region 1 0 (Prop_ 0x1000 0x3000 :: Prop_ 0x3000 0x1000 :: replicate 7 (Prop_ 0 0))) /\
  exists rc rgn', lmb_add_region two_regions 0x2000 0x1000 = Some (rc, rgn') /\
    ((rc = -1 /\ rgn' = two_regions /\ cnt two_regions = 8) \/
     (0 <= rc <= 2 /\
      (forall a, covers (entries rgn') a <->
         covers (entries two_regions) a \/ 0x2000 <= a < 0x2000 + 0x1000) /\
      (Forall (fun e => ~ (0x2000 <= base e < 0x2000 + 0x1000)) (entries two_regions) ->
       0 < 0x1000 -> wf rgn'))).
Proof.
  split; [vm_compute; reflexivity|].
  apply (lmb_add_region_correct two_regions 0x2000 0x1000); [exact two_regions_wf|].
  unfold new_range. lia.
Defined.

(** C28: without a limit, or with one that is not below the size asked for,
    on well-formed tables whose memory ends an alignment below 4 GiB:
    [lmb_alloc_base] terminates and either reports failure and changes
    nothing, or returns an aligned, unreserved range inside one memory block
    and below the limit, which it has added to the reserved ranges.  (A limit
    below the size is wrapped around: [lmb_alloc_base_wraps].) *)
Theorem lmb_alloc_base_safe fuel l sz al max_addr :
  wf (memory l) -> wf (reserved l) -> 0 < sz -> is_align al ->
  max_addr = 0 \/ sz <= max_addr -> (8 < fuel)%nat ->
  Forall (fun m => base m + size m + al <= 2 ^ 32) (entries (memory l)) ->
  exists a l', lmb_alloc_base fuel l sz al max_addr = Some (a, l', a =? 0) /\
    memory l' = memory l /\
    ((a = 0 /\ reserved l' = reserved l) \/
     exists m, m ∈ entries (memory l) /\ a <> 0 /\ a mod al = 0 /\
       base m <= a /\ a + sz <= base m + size m /\ (max_addr <> 0 -> a + sz <= max_addr) /\
       (forall x, a <= x < a + sz -> ~ covers (entries (reserved l)) x) /\
       (forall x, covers (entries (reserved l')) x <->
          covers (entries (reserved l)) x \/ a <= x < a + lmb_align_up sz al)).
Proof.
  intros Hm Hr Hsz Hal Hmax Hf Htop. unfold lmb_alloc_base, __lmb_alloc_base.
  destruct (blocks_loop_spec fuel (Z.to_nat (cnt (memory l))) l sz al max_addr)
    as (a & l' & -> & Hml & Hres); [done..|].
  exists a, l'. split; [done|split; [done|]]. destruct Hres as [|(m & Hin & Ht)]; [by left|right].
  exists m. destruct Ht as (Ha & Hlo & Hmod & Hlim & Hfree & Hcov).
  repeat split; try done; try (apply Hcov); destruct (Z.eqb_spec max_addr 0); lia.
Qed.

Definition board : lmb :=
  Lmb (Region 1 0 (Prop_ 0x40000000 0x20000000 :: replicate 8 (Prop_ 0 0)))
      (Region 1 0 (Prop_ 0x5ff00000 0x100000 :: replicate 8 (Prop_ 0 0))).

Example lmb_alloc_base_safe_witness :
  lmb_alloc_base 9 board 0x1800 0x1000 0 =
    Some (0x5fefe000,
          Lmb (memory board)
              (Region 1 0 (Prop_ 0x5fefe000 0x102000 :: replicate 8 (Prop_ 0 0))), false) /\
  exists a l', lmb_alloc_base 9 board 0x1800 0x1000 0 = Some (a, l', a =? 0) /\
    memory l' = memory board /\
    ((a = 0 /\ reserved l' = reserved board) \/
     exists m, m ∈ entries (memory board) /\ a <> 0 /\ a mod 0x1000 = 0 /\
       base m <= a /\ a + 0x1800 <= base m + size m /\ (0 <> 0 -> a + 0x1800 <= 0) /\
       (forall x, a <= x < a + 0x1800 -> ~ covers (entries (reserved board)) x) /\
       (forall x, covers (entries (reserved l')) x <->
          covers (entries (reserved board)) x \/ a <= x < a + lmb_align_up 0x1800 0x1000)).
Proof.
  split; [vm_compute; reflexivity|].
  apply (lmb_alloc_base_safe 9 board 0x1800 0x1000 0).
  - split; repeat constructor; done.
  - split; repeat constructor; done.
  - lia.
  - exists 12. split; [lia|reflexivity].
  - by left.
  - lia.
  - repeat constructor. done.
Defined.

(** ** Releasing a range *)

(** No two entries overlap. *)
Definition disjoint_entries : list lmb_property -> Prop :=
  StronglySorted (fun p q => base p + size p <= base q).

Lemma disjoint_around p e q a :
  disjoint_entries (p ++ e :: q) -> Forall range_ok (p ++ e :: q) -> inside e a ->
  ~ covers p a /\ ~ covers q a.
Proof.
  intros Hd Hr Hin. unfold inside in Hin. apply StronglySorted_app in Hd as (Hpe & _ & Hd).
  apply StronglySorted_cons in Hd as [Hq _]. split; intros Hc; apply Exists_exists in Hc as (x & Hx & Hxa);
    unfold inside in Hxa.
  - specialize (Hpe x e Hx ltac:(by left)). cbv beta in Hpe. lia.
  - rewrite Forall_forall in Hq. specialize (Hq x Hx). cbv beta in Hq. lia.
Qed.

Lemma free_loop_spec b s c z t q p :
  Forall range_ok q -> 
  match free_loop (length q) (length p) (Region c z (p ++ q ++ t)) b (b + s) with
  | None => Forall (fun e => ~ (base e <= b /\ b + s <= base e + size e)) q
  | Some i => exists q1 e q2, q = q1 ++ e :: q2 /\ i = (length p + length q1)%nat /\
      base e <= b /\ b + s <= base e + size e
  end.
Proof.
  intros Hq. revert p. induction Hq as [|e q (He0 & He1 & He2) _ IH]; intros p;
    cbn [free_loop length]; [done|].
  unfold at_. cbn [region app]. rewrite get_middle, u32_small by (done || lia).
  destruct ((base e <=? b) && (b + s <=? base e + size e)) eqn:E.
  - exists [], e, q. split; [done|]. split; [simpl; lia|lia].
  - specialize (IH (p ++ [e])). rewrite length_app, <- app_assoc in IH. simpl in IH.
    rewrite Nat.add_1_r in IH. destruct (free_loop _ _ _ _ _).
    + destruct IH as (q1 & e1 & q2 & -> & -> & H). exists (e :: q1), e1, q2.
      split; [done|]. split; [simpl; lia|done].
    + constructor; [lia|done].
Qed.

Lemma covers_middle p e q a : covers (p ++ e :: q) a <-> covers p a \/ inside e a \/ covers q a.
Proof. by rewrite covers_app, covers_cons. Qed.

(** The live entries and the dead rest of a well-formed table. *)
Lemma wf_split rgn : wf rgn -> exists t, rgn = Region (cnt rgn) (rsize rgn) (entries rgn ++ t) /\
  cnt rgn = Z.of_nat (length (entries rgn)).
Proof.
  intros Hwf. pose proof (wf_array _ Hwf). pose proof (wf_cnt _ Hwf). destruct rgn as [c z r].
  exists (drop (Z.to_nat c) r). unfold entries in *. cbn in *. rewrite take_drop. split; [done|].
  rewrite length_take. lia.
Qed.

Lemma wf_shrink c z p e e' q t :
  wf (Region c z (p ++ e :: q ++ t)) -> c = Z.of_nat (length p + S (length q)) ->
  range_ok e' -> base e' = base e ->
  wf (Region c z (p ++ e' :: q ++ t)) /\ entries (Region c z (p ++ e' :: q ++ t)) = p ++ e' :: q.
Proof.
  intros [Hl Hc Hr Hs] Ec He' Hb. cbn [region cnt] in *.
  assert (Ent : forall x, entries (Region c z (p ++ x :: q ++ t)) = p ++ x :: q).
  { intros x. rewrite (app_assoc p (x :: q) t : p ++ x :: q ++ t = _).
    apply entries_app. rewrite length_app. simpl. lia. }
  rewrite Ent in *. split; [|done].
  rewrite Forall_app, Forall_cons in Hr. destruct Hr as (Hp & He & Hq). split; cbn [region cnt].
  - rewrite <- Hl, !length_app. done.
  - done.
  - rewrite Ent. by rewrite Forall_app, Forall_cons.
  - rewrite Ent. apply StronglySorted_app in Hs as (Hpe & Hsp & Hs).
    apply StronglySorted_cons in Hs as [Heq Hsq]. apply StronglySorted_app.
    split; [|split; [done|]].
    + intros x y Hx Hy. apply elem_of_cons in Hy as [->|Hy].
      * pose proof (Hpe x e Hx ltac:(by left)). unfold below in *. lia.
      * apply Hpe; [done|by right].
    + apply StronglySorted_cons. split; [|done].
      eapply Forall_impl; [exact Heq|]. unfold below. lia.
Qed.

Lemma entries_middle c z p x q t :
  c = Z.of_nat (length p + S (length q)) -> entries (Region c z (p ++ x :: q ++ t)) = p ++ x :: q.
Proof.
  intros Ec. rewrite (app_assoc p (x :: q) t : p ++ x :: q ++ t = _).
  apply entries_app. rewrite length_app. simpl. lia.
Qed.

Lemma remove_region_spec c z p e q t :
  c = Z.of_nat (length p + S (length q)) -> c <= 8 ->
  exists y, lmb_remove_region (Region c z (p ++ e :: q ++ t)) (length p) =
    Some (Region (c - 1) z ((p ++ q) ++ y :: t)).
Proof.
  intros Ec Hc. unfold lmb_remove_region, MAX_LMB_REGIONS. cbn [cnt rsize region].
  rewrite u32_small by lia. destruct (Z.ltb_spec 8 (c - 1)); [lia|].
  replace (Z.to_nat (c - 1) - length p)%nat with (length q) by lia.
  destruct (remove_loop_spec p e q t) as [y ->]. exists y. by rewrite <- app_assoc.
Qed.

(** [lmb_free] of a range outside the reserved ones changes nothing and
    fails; of a range inside a reserved one it releases exactly that range,
    whether it is the whole entry, its start, its end or its middle, as long
    as the table has room for the entry a split needs. *)
Theorem lmb_free_correct l b s :
  wf (reserved l) -> disjoint_entries (entries (reserved l)) -> cnt (reserved l) < 8 ->
  0 <= b -> 0 < s -> b + s < 2 ^ 32 ->
  exists rc l', lmb_free l b s = Some (rc, l') /\ memory l' = memory l /\
    ((rc = -1 /\ l' = l /\
      Forall (fun e => ~ (base e <= b /\ b + s <= base e + size e)) (entries (reserved l))) \/
     (0 <= rc /\ forall a, covers (entries (reserved l')) a <->
        covers (entries (reserved l)) a /\ ~ (b <= a < b + s))).
Proof.
  intros Hwf Hd Hc8 Hb Hs Hbs. destruct l as [mem rsv]. cbn [reserved memory] in *.
  pose proof (wf_ranges _ Hwf) as Hr. destruct (wf_split _ Hwf) as (t & Ersv & Ec).
  unfold lmb_free. cbn [reserved memory]. rewrite (u32_small (b + s)) by lia.
  revert Ersv Ec Hd Hr Hwf Hc8. generalize (entries rsv) as l, (rsize rsv) as z, (cnt rsv) as c.
  intros l z c -> -> Hd Hr Hwf Hc8. cbn [cnt]. rewrite Nat2Z.id.
  pose proof (free_loop_spec b s (Z.of_nat (length l)) z t l [] Hr) as Hf. cbn [app length] in Hf.
  destruct (free_loop _ _ _ _ _) as [i|].
  2: { exists (-1). eexists. split; [done|]. split; [done|]. left. split; [done|]. split; [done|].
       exact Hf. }
  destruct Hf as (p & e & q & -> & -> & Hbe & Hee). cbn [Nat.add].
  unfold at_. cbn [region]. rewrite <- app_assoc in *. cbn [app] in *.
  rewrite get_middle by done. rewrite length_app in *. cbn [length] in *.
  pose proof Hr as Hr0. rewrite Forall_app, Forall_cons in Hr.
  destruct Hr as (Hrp & (He0 & He1 & He2) & Hrq).
  pose proof (fun a => disjoint_around p e q a Hd Hr0) as Har. unfold inside in Har.
  rewrite (u32_small (base e + size e)) by lia.
  set (c := Z.of_nat (length p + S (length q))) in *.
  assert (Ent : forall x, entries (Region c z (p ++ x :: q ++ t)) = p ++ x :: q)
    by (intros; by apply entries_middle).
  assert (Hput : forall x, put (Region c z (p ++ e :: q ++ t)) (length p) x =
    Region c z (p ++ x :: q ++ t)) by (intros; unfold put; cbn; by rewrite insert_middle).
  assert (Hcov : forall rgn', (forall a, covers (entries rgn') a <->
      covers p a \/ (inside e a /\ ~ (b <= a < b + s)) \/ covers q a) ->
    exists rc l', Some (0, Lmb mem rgn') = Some (rc, l') /\ memory l' = mem /\
      ((rc = -1 /\ l' = Lmb mem (Region c z (p ++ e :: q ++ t)) /\
        Forall (fun e0 => ~ (base e0 <= b /\ b + s <= base e0 + size e0)) (p ++ e :: q)) \/
       (0 <= rc /\ forall a, covers (entries (reserved l')) a <->
          covers (p ++ e :: q) a /\ ~ (b <= a < b + s)))).
  { intros rgn' Hc'. do 2 eexists. split; [done|]. split; [done|]. right. split; [done|].
    cbn [reserved]. intros a. rewrite Hc', covers_middle. specialize (Har a).
    destruct (decide (b <= a < b + s)); [|tauto].
    assert (inside e a) by (unfold inside; lia). tauto. }
  rewrite !Hput.
  destruct ((base e =? b) && (base e + size e =? b + s)) eqn:E1;
    [|destruct (Z.eqb_spec (base e) b); [|destruct (Z.eqb_spec (base e + size e) (b + s))]].
  - destruct (remove_region_spec c z p e q t) as [y ->]; [done|lia|]. cbn.
    apply Hcov. intros a. rewrite entries_app by (rewrite length_app; lia).
    rewrite covers_app. unfold inside. intuition lia.
  - rewrite u32_small by lia. apply Hcov. intros a. rewrite Ent, covers_middle.
    unfold inside. cbn. intuition lia.
  - rewrite u32_small by lia. apply Hcov. intros a. rewrite Ent, covers_middle.
    unfold inside. cbn. intuition lia.
  - rewrite !u32_small by lia. set (e1 := Prop_ (base e) (b - base e)).
    destruct (wf_shrink c z p e e1 q t Hwf ltac:(done)) as [Hwf1 Ent1];
      [unfold range_ok, e1; cbn; lia|done|].
    assert (Hnew : new_range (b + s) (base e + size e - (b + s))) by (unfold new_range; lia).
    destruct (add_region_added _ _ _ Hwf1 Hnew) as (rc & rgn' & -> & Ha). cbn.
    destruct Ha as [(_ & _ & ?)|(Ha & _)]; [cbn in *; lia|].
    destruct Hwf1 as [_ _ Hr1 Hs1].
    destruct (added_ok _ _ rc _ _ Hnew Hr1 Hs1 Ha) as (_ & Hcov1 & _).
    destruct (Hcov rgn') as (rc0 & l' & E & Hrest).
    + intros a. rewrite Hcov1, Ent1, covers_middle. unfold inside, e1. cbn. intuition lia.
    + injection E as <- <-. exists rc. eexists. split; [done|]. split; [done|]. right.
      destruct Hrest as (_ & [(Hneg & _)|(_ & Hrest)]); [lia|].
      split; [destruct Ha; lia|exact Hrest].
Qed.

Example lmb_free_correct_witness :
  lmb_free (Lmb two_regions two_regions) 0x1400 0x400 =
    Some (0, Lmb two_regions (Region 3 0 (Prop_ 0x1000 0x400 :: Prop_ 0x1800 0x800 ::
                Prop_ 0x3000 0x1000 :: replicate 6 (Prop_ 0 0)))) /\
  exists rc l', lmb_free (Lmb two_regions two_regions) 0x1400 0x400 = Some (rc, l') /\
    memory l' = two_regions /\
    ((rc = -1 /\ l' = Lmb two_regions two_regions /\
      Forall (fun e => ~ (base e <= 0x1400 /\ 0x1400 + 0x400 <= base e + size e))
        (entries two_regions)) \/
     (0 <= rc /\ forall a, covers (entries (reserved l')) a <->
        covers (entries two_regions) a /\ ~ (0x1400 <= a < 0x1400 + 0x400))).
Proof.
  split; [vm_compute; reflexivity|].
  apply (lmb_free_correct (Lmb two_regions two_regions) 0x1400 0x400).
  - exact two_regions_wf.
  - repeat constructor; done.
  - done.
  - lia.
  - lia.
  - lia.
Defined.

(** ** What the table does at its edges *)

(** Releasing the only entry leaves [cnt = 0] and the entry's stale words in
    the array; the next reservation above them is then lost. *)
Example reserve_after_free_is_lost :
  let l := Lmb two_regions (Region 1 0 (Prop_ 0x1000 0x1000 :: replicate 8 (Prop_ 0 0))) in
  exists l1, lmb_free l 0x1000 0x1000 = Some (0, l1) /\
    exists l2, lmb_reserve l1 0x5000 0x1000 = Some (0, l2) /\
      lmb_is_reserved l2 0x5000 = 0 /\ lmb_is_reserved l2 0x1000 = 1.
Proof. eexists. split; [reflexivity|]. eexists. split; [reflexivity|]. by vm_compute. Qed.

(** Before the first reservation the dummy entry makes every address look
    reserved: its last address wraps to 0xffffffff. *)
Example everything_reserved_initially l a :
  region (reserved l) <> [] -> is_u32 a -> lmb_is_reserved (lmb_init l) a = 1.
Proof.
  intros Hne Ha. unfold lmb_is_reserved, lmb_init. cbn [reserved cnt].
  destruct (region (reserved l)) as [|x r]; [done|]. cbn.
  change (Z.to_nat 1) with 1%nat. cbn [is_reserved_loop at_ region].
  change (u32 _) with 0xffffffff. change (base _) with 0.
  unfold is_u32 in Ha. by rewrite (proj2 (Z.leb_le 0 a)), (proj2 (Z.leb_le a _)) by lia.
Qed.

(** A limit below the size underflows: the range handed out is neither in the
    memory block nor below the limit. *)
Example alloc_below_small_limit :
  exists l', lmb_alloc_base 9
    (Lmb (Region 1 0 (Prop_ 0 0x10000 :: replicate 8 (Prop_ 0 0)))
         (Region 1 0 (Prop_ 0x8000 0x1000 :: replicate 8 (Prop_ 0 0)))) 0x2000 0x1000 0x1000
  = Some (0xfffff000, l', false).
Proof. eexists. vm_compute. reflexivity. Qed.

Definition low_board : lmb := Lmb (Region 1 0 (Prop_ 0 0x20000000 :: replicate 8 (Prop_ 0 0))) (Region 1 0 (replicate 9 (Prop_ 0 0))).
(** A limit below the size: what is returned lies above the limit and is not
    memory at all. *)
Example lmb_alloc_base_wraps : (fun r => (r.1.1, r.2)) <$> lmb_alloc_base 9 low_board 0x1800 0x1000 0x1000 = Some (0xfffff000, false).
Proof. vm_compute. reflexivity. Qed.
