(* ===== verification/Circbuf.v ===== *)
(** * Circbuf: common/circbuf.c, the ring buffer of the console drivers

    The pointers [top], [tail] and [end] of the source are offsets into
    [data].  The abstract state of a buffer is the queue of the bytes it
    holds, [contents]: pushing appends and keeps the last [totalsize] bytes,
    popping takes from the front. *)

From S2P Require Import Prelude.
Local Open Scope nat_scope.

(** Sizes and offsets are naturals; [end] is [totalsize]. *)
Record circbuf := Cb {
  size : nat;
  totalsize : nat;
  top : nat;
  tail : nat;
  data : list Z
}.

(** [mem] is the block [malloc] returned. *)
Definition buf_init (mem : list Z) (sz : nat) : circbuf := Cb 0 sz 0 0 mem.

(** [buf_free] clears the structure. *)
Definition buf_free (buf : circbuf) : circbuf := Cb 0 0 0 0 [].

(** [p++; if (p == buf->end) p = buf->data;] *)
Definition next (buf : circbuf) (p : nat) : nat :=
  if S p =? totalsize buf then 0 else S p.

(** The loop of [buf_pop]: the bytes copied to [dest] and the final [p]. *)
Fixpoint pop_loop (n : nat) (buf : circbuf) (p : nat) : list Z * nat :=
  match n with
  | O => ([], p)
  | S n =>
      let c := nth p (data buf) 0%Z in
      let '(l, q) := pop_loop n buf (next buf p) in
      (c :: l, q)
  end.

(** The bytes stored at [dest], the count returned, and the buffer. *)
Definition buf_pop (buf : circbuf) (len : nat) : list Z * nat * circbuf :=
  let len := if size buf <? len then size buf else len in
  let '(l, p) := pop_loop len buf (top buf) in
  (l, len, Cb (size buf - len) (totalsize buf) p (tail buf) (data buf)).

(** One turn of the loop of [buf_push], at [p]. *)
Definition push1 (buf : circbuf) (p : nat) (c : Z) : circbuf * nat :=
  let buf := Cb (size buf) (totalsize buf) (top buf) (tail buf) (<[p := c]> (data buf)) in
  let p := next buf p in
  let buf :=
    if size buf <? totalsize buf
    then Cb (S (size buf)) (totalsize buf) (top buf) (tail buf) (data buf)
    else Cb (size buf) (totalsize buf) (next buf (top buf)) (tail buf) (data buf) in
  (buf, p).

Fixpoint push_loop (src : list Z) (buf : circbuf) (p : nat) : circbuf * nat :=
  match src with
  | [] => (buf, p)
  | c :: src => let '(buf, p) := push1 buf p c in push_loop src buf p
  end.

Definition buf_push (buf : circbuf) (src : list Z) : nat * circbuf :=
  let '(buf, p) := push_loop src buf (tail buf) in
  (length src, Cb (size buf) (totalsize buf) (top buf) p (data buf)).

(** ** The queue *)

Definition idx (buf : circbuf) (i : nat) : nat := (top buf + i) mod totalsize buf.

Definition contents (buf : circbuf) : list Z :=
  map (fun i => nth (idx buf i) (data buf) 0%Z) (seq 0 (size buf)).

(** The last [n] elements of a list. *)
Definition lastn (n : nat) (l : list Z) : list Z := drop (length l - n) l.

Record wf (buf : circbuf) : Prop := {
  wf_total : 0 < totalsize buf;
  wf_data : length (data buf) = totalsize buf;
  wf_size : size buf <= totalsize buf;
  wf_top : top buf < totalsize buf
}.

(** [p] is where the next byte goes. *)
Definition at_tail (buf : circbuf) (p : nat) : Prop := p = idx buf (size buf).

Lemma next_mod t p : 0 < t -> p < t -> (if S p =? t then 0 else S p) = S p mod t.
Proof.
  intros Ht Hp. destruct (Nat.eqb_spec (S p) t) as [<-|]; [by rewrite Nat.Div0.mod_same|].
  rewrite Nat.mod_small; lia.
Qed.

Lemma succ_mod a t : S (a mod t) mod t = S a mod t.
Proof. rewrite <- (Nat.add_1_r (a mod t)), Nat.Div0.add_mod_idemp_l. f_equal. lia. Qed.

Lemma length_contents buf : length (contents buf) = size buf.
Proof. unfold contents. by rewrite length_map, length_seq. Qed.

(** Distinct places of the queue are distinct places of the array. *)
Lemma idx_inj buf i j :
  wf buf -> i < totalsize buf -> j < totalsize buf -> idx buf i = idx buf j -> i = j.
Proof.
  intros [Ht _ _ Htop] Hi Hj E. unfold idx in E.
  pose proof (Nat.div_mod_eq (top buf + i) (totalsize buf)).
  pose proof (Nat.div_mod_eq (top buf + j) (totalsize buf)).
  assert ((top buf + i) / totalsize buf < 2) by (apply Nat.Div0.div_lt_upper_bound; lia).
  assert ((top buf + j) / totalsize buf < 2) by (apply Nat.Div0.div_lt_upper_bound; lia).
  destruct ((top buf + i) / totalsize buf) as [|[|]], ((top buf + j) / totalsize buf) as [|[|]]; lia.
Qed.

Lemma contents_lookup buf i :
  i < size buf -> contents buf !! i = Some (nth (idx buf i) (data buf) 0%Z).
Proof.
  intros Hi. unfold contents. rewrite list_lookup_fmap, lookup_seq_lt by done. done.
Qed.

(** A queue is known by its length and its elements. *)
Lemma contents_ext buf l :
  length l = size buf ->
  (forall i, i < size buf -> nth (idx buf i) (data buf) 0%Z = nth i l 0%Z) -> contents buf = l.
Proof.
  intros Hl He. apply (nth_ext _ _ 0%Z 0%Z); [by rewrite length_contents|].
  intros i Hi. rewrite length_contents in Hi. rewrite <- He by done.
  rewrite nth_default_lookup, contents_lookup; done.
Qed.

Lemma nth_contents buf i :
  i < size buf -> nth i (contents buf) 0%Z = nth (idx buf i) (data buf) 0%Z.
Proof. intros Hi. by rewrite nth_default_lookup, contents_lookup. Qed.

Lemma nth_write (l : list Z) p q c :
  p < length l -> nth q (<[p := c]> l) 0%Z = if decide (p = q) then c else nth q l 0%Z.
Proof.
  intros Hp. rewrite !nth_default_lookup. destruct (decide (p = q)) as [<-|Hn].
  - by rewrite list_lookup_insert_eq.
  - by rewrite list_lookup_insert_ne.
Qed.

(** Room left: the byte goes behind the last one. *)
Lemma push1_room buf p c :
  wf buf -> at_tail buf p -> size buf < totalsize buf ->
  contents (Cb (S (size buf)) (totalsize buf) (top buf) (tail buf) (<[p := c]> (data buf)))
  = contents buf ++ [c].
Proof.
  intros Hwf Hp Hroom. pose proof Hwf as [Ht Hd Hs Htop].
  assert (Hpt : p < length (data buf)) by (rewrite Hd, Hp; apply Nat.mod_upper_bound; lia).
  apply contents_ext; [rewrite length_app, length_contents; simpl; lia|].
  intros i Hi. cbn [size data] in *. rewrite nth_write by done.
  change (idx (Cb _ _ _ _ _) i) with (idx buf i). rewrite Hp.
  destruct (decide (i = size buf)) as [->|Hne].
  - rewrite decide_True by done. rewrite app_nth2 by (rewrite length_contents; lia).
    by rewrite length_contents, Nat.sub_diag.
  - rewrite decide_False by (intros E; apply idx_inj in E; auto; lia).
    rewrite app_nth1 by (rewrite length_contents; lia). rewrite nth_contents; [done|lia].
Qed.

(** No room: the byte replaces the oldest one. *)
Lemma push1_full buf p c :
  wf buf -> at_tail buf p -> size buf = totalsize buf ->
  contents (Cb (size buf) (totalsize buf) (S (top buf) mod totalsize buf) (tail buf)
              (<[p := c]> (data buf)))
  = drop 1 (contents buf) ++ [c].
Proof.
  intros Hwf Hp Hfull. pose proof Hwf as [Ht Hd Hs Htop].
  assert (Hp0 : p = idx buf 0).
  { rewrite Hp, Hfull. unfold idx. rewrite <- (Nat.mul_1_l (totalsize buf)) at 1.
    by rewrite Nat.Div0.mod_add, Nat.add_0_r. }
  assert (Hpt : p < length (data buf)) by (rewrite Hd, Hp; apply Nat.mod_upper_bound; lia).
  apply contents_ext; [rewrite length_app, length_drop, length_contents; simpl; lia|].
  intros i Hi. cbn [size data] in *. rewrite nth_write by done.
  replace (idx (Cb _ _ _ _ _) i) with (idx buf (S i)).
  2: { unfold idx. cbn [top totalsize]. rewrite Nat.Div0.add_mod_idemp_l. f_equal. lia. }
  destruct (decide (S i = size buf)) as [E|Hne].
  - rewrite E, decide_True by done. rewrite app_nth2 by (rewrite length_drop, length_contents; lia).
    rewrite length_drop, length_contents. by replace (i - (size buf - 1)) with 0 by lia.
  - rewrite decide_False by (rewrite Hp0; intros E; apply idx_inj in E; auto; lia).
    rewrite app_nth1 by (rewrite length_drop, length_contents; lia).
    rewrite nth_skipn, nth_contents by lia. done.
Qed.

Lemma push1_spec buf p c :
  wf buf -> at_tail buf p ->
  let '(buf', p') := push1 buf p c in
  wf buf' /\ at_tail buf' p' /\ totalsize buf' = totalsize buf /\
  contents buf' = lastn (totalsize buf) (contents buf ++ [c]).
Proof.
  intros Hwf Hp. pose proof Hwf as [Ht Hd Hs Htop]. unfold push1.
  assert (Hpt : p < totalsize buf) by (rewrite Hp; apply Nat.mod_upper_bound; lia).
  cbn [size totalsize top tail data]. unfold next. cbn [totalsize].
  rewrite !next_mod by done. unfold lastn. rewrite length_app, length_contents.
  unfold at_tail, idx in *. destruct (Nat.ltb_spec (size buf) (totalsize buf)).
  - split; [split; cbn; rewrite ?length_insert; lia|]. cbn [size totalsize top].
    split; [|split; [done|]].
    + rewrite Hp, succ_mod. f_equal. lia.
    + rewrite (push1_room buf p c) by done. simpl length.
      by replace (size buf + 1 - totalsize buf) with 0 by lia.
  - assert (Efull : size buf = totalsize buf) by lia.
    split; [split; cbn; rewrite ?length_insert; try lia; apply Nat.mod_upper_bound; lia|].
    cbn [size totalsize top]. split; [|split; [done|]].
    + rewrite Hp, succ_mod, Nat.Div0.add_mod_idemp_l. done.
    + rewrite (push1_full buf p c) by done. simpl length.
      replace (size buf + 1 - totalsize buf) with 1 by lia.
      by rewrite drop_app_le by (rewrite length_contents; lia).
Qed.

(** Keeping the last bytes as one goes is keeping the last bytes at the end. *)
Lemma lastn_lastn t l r : lastn t (lastn t l ++ r) = lastn t (l ++ r).
Proof.
  unfold lastn. rewrite !length_app, !length_drop.
  destruct (decide (length l <= t)).
  - replace (length l - t) with 0 by lia. by rewrite Nat.sub_0_r, drop_0.
  - rewrite <- drop_app_le, drop_drop by lia. f_equal. lia.
Qed.

Lemma push_loop_spec src buf p :
  wf buf -> at_tail buf p ->
  let '(buf', p') := push_loop src buf p in
  wf buf' /\ at_tail buf' p' /\ totalsize buf' = totalsize buf /\
  contents buf' = lastn (totalsize buf) (contents buf ++ src).
Proof.
  revert buf p. induction src as [|c src IH]; intros buf p Hwf Hp; cbn [push_loop].
  - split; [done|split; [done|split; [done|]]]. rewrite app_nil_r. unfold lastn.
    rewrite length_contents. destruct Hwf. by replace (size buf - totalsize buf) with 0 by lia.
  - pose proof (push1_spec buf p c Hwf Hp) as H. destruct (push1 buf p c) as [b1 p1].
    destruct H as (Hwf1 & Hp1 & Et & Ec). specialize (IH b1 p1 Hwf1 Hp1).
    destruct (push_loop src b1 p1) as [b2 p2]. destruct IH as (? & ? & Et2 & Ec2).
    split; [done|split; [done|split; [congruence|]]].
    rewrite Ec2, Et, Ec, lastn_lastn. by rewrite <- app_assoc.
Qed.

Lemma pop_loop_spec n buf i :
  wf buf -> i + n <= size buf ->
  pop_loop n buf (idx buf i) = (take n (drop i (contents buf)), idx buf (i + n)).
Proof.
  intros Hwf. pose proof Hwf as [Ht Hd Hs Htop]. revert i.
  induction n as [|n IH]; intros i Hi; cbn [pop_loop]; [by rewrite Nat.add_0_r|].
  unfold next. rewrite next_mod by (try apply Nat.mod_upper_bound; lia).
  assert (En : S (idx buf i) mod totalsize buf = idx buf (S i)).
  { unfold idx. rewrite succ_mod. f_equal. lia. }
  rewrite En, IH by lia. rewrite (drop_S (contents buf) (nth (idx buf i) (data buf) 0%Z) i)
    by (apply contents_lookup; lia).
  cbn [take]. do 2 f_equal. lia.
Qed.

(** A buffer between calls. *)
Definition ok (buf : circbuf) : Prop := wf buf /\ at_tail buf (tail buf).

(** The ring buffer is a bounded queue: [buf_init] makes it empty,
    [buf_push] appends and then keeps the last [totalsize] bytes, [buf_pop]
    takes up to [len] bytes from the front; each keeps the buffer
    well-formed. *)
Theorem circbuf_queue buf src len mem sz :
  ok buf -> 0 < sz -> length mem = sz ->
  (ok (buf_init mem sz) /\ contents (buf_init mem sz) = []) /\
  (let '(n, buf') := buf_push buf src in
   ok buf' /\ n = length src /\ totalsize buf' = totalsize buf /\
   contents buf' = lastn (totalsize buf) (contents buf ++ src)) /\
  (let '(dest, n, buf') := buf_pop buf len in
   ok buf' /\ n = min len (size buf) /\ totalsize buf' = totalsize buf /\
   dest = take len (contents buf) /\ contents buf' = drop len (contents buf)).
Proof.
  intros [Hwf Htail] Hsz Hmem. split; [|split].
  - split; [|done]. split; [split; simpl; lia|]. unfold at_tail, idx. simpl.
    by rewrite Nat.Div0.mod_0_l.
  - unfold buf_push. pose proof (push_loop_spec src buf (tail buf) Hwf Htail) as H.
    destruct (push_loop src buf (tail buf)) as [b p]. destruct H as (Hb & Hp & Et & Ec).
    split; [split; [destruct Hb; by split|exact Hp]|]. split; [done|split; [done|exact Ec]].
  - unfold buf_pop. set (n := if size buf <? len then size buf else len).
    assert (Hn : n = min len (size buf)) by (unfold n; destruct (Nat.ltb_spec (size buf) len); lia).
    pose proof Hwf as [Ht Hd Hs Htop].
    assert (E0 : top buf = idx buf 0) by (unfold idx; rewrite Nat.add_0_r, Nat.mod_small; done).
    replace (pop_loop n buf (top buf)) with (pop_loop n buf (idx buf 0)) by (by rewrite <- E0). rewrite pop_loop_spec by (done || lia). rewrite Nat.add_0_l.
    assert (Hi : forall i, idx (Cb (size buf - n) (totalsize buf) (idx buf n) (tail buf) (data buf)) i
                  = idx buf (n + i)).
    { intros i. unfold idx. cbn. rewrite Nat.Div0.add_mod_idemp_l. f_equal. lia. }
    split; [|split; [done|split; [done|split]]].
    + split; [split; cbn; try lia; apply Nat.mod_upper_bound; lia|].
      unfold at_tail in *. rewrite Hi. cbn [size tail]. rewrite Htail. f_equal. lia.
    + rewrite drop_0, Hn. destruct (decide (len <= size buf)).
      * by replace (min len (size buf)) with len by lia.
      * rewrite !take_ge; rewrite ?length_contents; done || lia.
    + apply contents_ext; cbn [size data]; [rewrite length_drop, length_contents; lia|].
      intros i Hlt. rewrite Hi, nth_skipn, <- nth_contents by lia. f_equal. lia.
Qed.

Example circbuf_queue_witness :
  buf_push (Cb 2 3 2 1 [11; 12; 13]%Z) [14; 15]%Z = (2, Cb 3 3 0 0 [11; 14; 15]%Z) /\
  ((ok (buf_init [0; 0]%Z 2) /\ contents (buf_init [0; 0]%Z 2) = []) /\
   (let '(n, buf') := buf_push (Cb 2 3 2 1 [11; 12; 13]%Z) [14; 15]%Z in
    ok buf' /\ n = 2 /\ totalsize buf' = 3 /\
    contents buf' = lastn 3 (contents (Cb 2 3 2 1 [11; 12; 13]%Z) ++ [14; 15]%Z)) /\
   (let '(dest, n, buf') := buf_pop (Cb 2 3 2 1 [11; 12; 13]%Z) 1 in
    ok buf' /\ n = 1 /\ totalsize buf' = 3 /\
    dest = take 1 (contents (Cb 2 3 2 1 [11; 12; 13]%Z)) /\
    contents buf' = drop 1 (contents (Cb 2 3 2 1 [11; 12; 13]%Z)))).
Proof.
  split; [reflexivity|].
  apply (circbuf_queue (Cb 2 3 2 1 [11; 12; 13]%Z) [14; 15]%Z 1 [0; 0]%Z 2).
  - split; [split; simpl; lia|reflexivity].
  - lia.
  - reflexivity.
Defined.
