(* ===== verification/Ctype.v ===== *)
(** * Ctype: lib_generic/ctype.c and include/linux/ctype.h

    The character table of the loader and the predicates read from it.  A
    character is its code, 0 to 255 ([char] is unsigned on the target). *)

From S2P Require Import Prelude.
Local Open Scope Z_scope.

Definition _U : Z := 0x01.
Definition _L : Z := 0x02.
Definition _D : Z := 0x04.
Definition _C : Z := 0x08.
Definition _P : Z := 0x10.
Definition _S : Z := 0x20.
Definition _X : Z := 0x40.
Definition _SP : Z := 0x80.

Definition _ctype : list Z :=
  [
   _C; _C; _C; _C; _C; _C; _C; _C;
   _C; Z.lor _C _S; Z.lor _C _S; Z.lor _C _S; Z.lor _C _S; Z.lor _C _S; _C; _C;
   _C; _C; _C; _C; _C; _C; _C; _C;
   _C; _C; _C; _C; _C; _C; _C; _C;
   Z.lor _S _SP; _P; _P; _P; _P; _P; _P; _P;
   _P; _P; _P; _P; _P; _P; _P; _P;
   _D; _D; _D; _D; _D; _D; _D; _D;
   _D; _D; _P; _P; _P; _P; _P; _P;
   _P; Z.lor _U _X; Z.lor _U _X; Z.lor _U _X; Z.lor _U _X; Z.lor _U _X; Z.lor _U _X; _U;
   _U; _U; _U; _U; _U; _U; _U; _U;
   _U; _U; _U; _U; _U; _U; _U; _U;
   _U; _U; _U; _P; _P; _P; _P; _P;
   _P; Z.lor _L _X; Z.lor _L _X; Z.lor _L _X; Z.lor _L _X; Z.lor _L _X; Z.lor _L _X; _L;
   _L; _L; _L; _L; _L; _L; _L; _L;
   _L; _L; _L; _L; _L; _L; _L; _L;
   _L; _L; _L; _P; _P; _P; _P; _C;
   0; 0; 0; 0; 0; 0; 0; 0; 0; 0; 0; 0; 0; 0; 0; 0;
   0; 0; 0; 0; 0; 0; 0; 0; 0; 0; 0; 0; 0; 0; 0; 0;
   Z.lor _S _SP; _P; _P; _P; _P; _P; _P; _P; _P; _P; _P; _P; _P; _P; _P; _P;
   _P; _P; _P; _P; _P; _P; _P; _P; _P; _P; _P; _P; _P; _P; _P; _P;
   _U; _U; _U; _U; _U; _U; _U; _U; _U; _U; _U; _U; _U; _U; _U; _U;
   _U; _U; _U; _U; _U; _U; _U; _P; _U; _U; _U; _U; _U; _U; _U; _L;
   _L; _L; _L; _L; _L; _L; _L; _L; _L; _L; _L; _L; _L; _L; _L; _L;
   _L; _L; _L; _L; _L; _L; _L; _P; _L; _L; _L; _L; _L; _L; _L; _L].

Definition __ismask (x : Z) : Z := nth (Z.to_nat (u8 x)) _ctype 0.
Definition has (x mask : Z) : bool := negb (Z.land (__ismask x) mask =? 0).

Definition isalnum (c : Z) : bool := has c (Z.lor (Z.lor _U _L) _D).
Definition isdigit (c : Z) : bool := has c _D.
Definition islower (c : Z) : bool := has c _L.
Definition isupper (c : Z) : bool := has c _U.
Definition isspace (c : Z) : bool := has c _S.
Definition isxdigit (c : Z) : bool := has c (Z.lor _D _X).

Definition __tolower (c : Z) : Z := if isupper c then u8 (c - (65 - 97)) else c.
Definition __toupper (c : Z) : Z := if islower c then u8 (c - (97 - 65)) else c.

(** The value of a hexadecimal digit, as the number parsers compute it. *)
Definition digit_value (c : Z) : Z :=
  if isdigit c then c - 48 else (if islower c then __toupper c else c) - 65 + 10.

(** A property of every byte, decided by trying the 256 of them. *)
Lemma byte_forall (P : Z -> bool) :
  forallb P (map Z.of_nat (seq 0 256)) = true -> forall b, is_byte b -> P b = true.
Proof.
  intros H b Hb. rewrite forallb_forall in H. apply H. unfold is_byte in Hb.
  rewrite <- (Z2Nat.id b) by lia. apply in_map, in_seq. lia.
Qed.

(** On ASCII the table says what the C standard says. *)
Lemma ctype_ascii c :
  0 <= c < 128 ->
  isdigit c = ((48 <=? c) && (c <=? 57)) /\
  isupper c = ((65 <=? c) && (c <=? 90)) /\
  islower c = ((97 <=? c) && (c <=? 122)) /\
  isxdigit c = ((48 <=? c) && (c <=? 57) || (65 <=? c) && (c <=? 70) || (97 <=? c) && (c <=? 102)) /\
  isspace c = ((9 <=? c) && (c <=? 13) || (c =? 32)).
Proof.
  intros Hc.
  pose proof (byte_forall (fun c => (128 <=? c) ||
    (Bool.eqb (isdigit c) ((48 <=? c) && (c <=? 57)) &&
     Bool.eqb (isupper c) ((65 <=? c) && (c <=? 90)) &&
     Bool.eqb (islower c) ((97 <=? c) && (c <=? 122)) &&
     Bool.eqb (isxdigit c)
       ((48 <=? c) && (c <=? 57) || (65 <=? c) && (c <=? 70) || (97 <=? c) && (c <=? 102)) &&
     Bool.eqb (isspace c) ((9 <=? c) && (c <=? 13) || (c =? 32))))
    ltac:(by vm_compute) c ltac:(unfold is_byte; lia)) as H.
  cbv beta in H. destruct (Z.leb_spec 128 c); [lia|]. cbn [orb] in H.
  rewrite !andb_true_iff, !Bool.eqb_true_iff in H. tauto.
Qed.
