(* ===== verification/Vsprintf.v ===== *)
(** * Vsprintf: lib_generic/vsprintf.c

    - the number parsers [simple_strtoul], [simple_strtol], [ustrtoul],
      [simple_strtoull];
    - the decimal conversion [put_dec_trunc], [put_dec_full], [put_dec], which
      divides by multiplying and shifting;
    - [number], [string], the address printers, [pointer] and [vsprintf].

    A string being parsed is the list of its characters from the pointer on
    (a read past the end gives the NUL).  Formatted output is the list of
    the characters appended to the buffer, which is taken to be disjoint
    from the strings printed; the strings are in memory.  The configuration
    is that of the boards: [CONFIG_SYS_64BIT_VSPRINTF], so [NUM_TYPE] is
    64 bits wide, over 32-bit [int], [long] and pointers. *)

From S2P Require Import Prelude Mem CString Ctype.
Local Open Scope Z_scope.

(** The character a string pointer points to. *)
Definition ch (s : list Z) : Z := hd 0 s.

(** ** Parsing numbers *)

Section Parse.
(** The width of the result: [u32] for [unsigned long], [u64] for
    [unsigned long long]. *)
Variable wrap : Z -> Z.

Fixpoint digits_loop (cp : list Z) (base result : Z) : Z * list Z :=
  match cp with
  | c :: cp' =>
      if isxdigit c && (u32 (digit_value c) <? base)
      then digits_loop cp' base (wrap (result * base + u32 (digit_value c)))
      else (result, cp)
  | [] => (result, cp)
  end.

(** The result and where [*endp] is left. *)
Definition strtou (cp : list Z) (base : Z) : Z * list Z :=
  let '(cp, base) :=
    if ch cp =? 48 then
      let cp := tl cp in
      let '(cp, base) :=
        if (ch cp =? 120) && isxdigit (ch (tl cp)) then (tl cp, 16) else (cp, base) in
      (cp, if base =? 0 then 8 else base)
    else (cp, base) in
  let base := if base =? 0 then 10 else base in
  digits_loop cp base 0.
End Parse.

Definition simple_strtoul (cp : list Z) (base : Z) : Z * list Z := strtou u32 cp base.
Definition simple_strtoull (cp : list Z) (base : Z) : Z * list Z := strtou u64 cp base.

Definition simple_strtol (cp : list Z) (base : Z) : Z * list Z :=
  if ch cp =? 45 then
    let '(r, e) := simple_strtoul (tl cp) base in (s32 (u32 (- r)), e)
  else let '(r, e) := simple_strtoul cp base in (s32 r, e).

(** A size suffix: G, M, K or k, perhaps followed by i or iB. *)
Definition ustrtoul (cp : list Z) (base : Z) : Z * list Z :=
  let '(result, e) := simple_strtoul cp base in
  let kilo r := u32 (r * 1024) in
  let skip e := if ch (tl e) =? 105 then
                  if ch (tl (tl e)) =? 66 then drop 3 e else drop 2 e
                else e in
  if ch e =? 71 then (s32 (kilo (kilo (kilo result))), skip e)
  else if ch e =? 77 then (s32 (kilo (kilo result)), skip e)
  else if (ch e =? 75) || (ch e =? 107) then (s32 (kilo result), skip e)
  else (s32 result, e).

Definition is_digit (c : Z) : bool := (48 <=? c) && (c <=? 57).

Fixpoint skip_atoi_loop (s : list Z) (i : Z) : Z * list Z :=
  match s with
  | c :: s' => if is_digit c then skip_atoi_loop s' (s32 (i * 10 + c - 48)) else (i, s)
  | [] => (i, s)
  end.

Definition skip_atoi (s : list Z) : Z * list Z := skip_atoi_loop s 0.

(** ** Decimal conversion *)

(** The characters appended, least significant digit first. *)
Definition put_dec_trunc (q : Z) : list Z :=
  let d1 := Z.land (Z.shiftr q 4) 0xf in
  let d2 := Z.land (Z.shiftr q 8) 0xf in
  let d3 := Z.shiftr q 12 in
  let d0 := u32 (6 * (d3 + d2 + d1) + Z.land q 0xf) in
  let q := Z.shiftr (u32 (d0 * 0xcd)) 11 in
  let d0 := u32 (d0 - 10 * q) in
  let d1 := u32 (q + 9 * d3 + 5 * d2 + d1) in
  u8 (d0 + 48) ::
  if d1 =? 0 then [] else
    let q := Z.shiftr (u32 (d1 * 0xcd)) 11 in
    let d1 := u32 (d1 - 10 * q) in
    let d2 := u32 (q + 2 * d2) in
    u8 (d1 + 48) ::
    if (d2 =? 0) && (d3 =? 0) then [] else
      let q := Z.shiftr (u32 (d2 * 0xd)) 7 in
      let d2 := u32 (d2 - 10 * q) in
      let d3 := u32 (q + 4 * d3) in
      u8 (d2 + 48) ::
      if d3 =? 0 then [] else
        let q := Z.shiftr (u32 (d3 * 0xcd)) 11 in
        let d3 := u32 (d3 - 10 * q) in
        u8 (d3 + 48) :: if q =? 0 then [] else [u8 (q + 48)].

Definition put_dec_full (q : Z) : list Z :=
  let d1 := Z.land (Z.shiftr q 4) 0xf in
  let d2 := Z.land (Z.shiftr q 8) 0xf in
  let d3 := Z.shiftr q 12 in
  let d0 := u32 (6 * (d3 + d2 + d1) + Z.land q 0xf) in
  let q0 := Z.shiftr (u32 (d0 * 0xcd)) 11 in
  let d0 := u32 (d0 - 10 * q0) in
  let d1 := u32 (q0 + 9 * d3 + 5 * d2 + d1) in
  let q1 := Z.shiftr (u32 (d1 * 0xcd)) 11 in
  let d1 := u32 (d1 - 10 * q1) in
  let d2 := u32 (q1 + 2 * d2) in
  let q2 := Z.shiftr (u32 (d2 * 0xd)) 7 in
  let d2 := u32 (d2 - 10 * q2) in
  let d3 := u32 (q2 + 4 * d3) in
  let q3 := Z.shiftr (u32 (d3 * 0xcd)) 11 in
  let d3 := u32 (d3 - 10 * q3) in
  [u8 (d0 + 48); u8 (d1 + 48); u8 (d2 + 48); u8 (d3 + 48); u8 (q3 + 48)].

(** [while (1)]: five digits at a time; [None] is fuel run out. *)
Fixpoint put_dec (fuel : nat) (num : Z) : option (list Z) :=
  match fuel with
  | O => None
  | S fuel =>
      if num <? 100000 then Some (put_dec_trunc num)
      else app (put_dec_full (num mod 100000)) <$> put_dec fuel (num / 100000)
  end.

(** ** Formatting *)

Definition ZEROPAD : Z := 1.
Definition SIGN : Z := 2.
Definition PLUS : Z := 4.
Definition SPACE : Z := 8.
Definition LEFT : Z := 16.
Definition SMALL : Z := 32.
Definition SPECIAL : Z := 64.

(** [type & flag] *)
Definition flag (type f : Z) : bool := negb (Z.land type f =? 0).
(** [type & ~flag] *)
Definition clear (type f : Z) : Z := Z.land type (Z.lnot f).

(** [while (--size >= 0) *buf++ = c;]: what is written, and [size] after. *)
Definition pad (size c : Z) : list Z * Z :=
  (replicate (Z.to_nat size) c, Z.min size 0 - 1).

Definition digits : list Z :=
  [48; 49; 50; 51; 52; 53; 54; 55; 56; 57; 65; 66; 67; 68; 69; 70].

(** The [do ... while (num)] of bases 8 and 16: [tmp], in reverse order. *)
Fixpoint number_loop (fuel : nat) (num mask shift locase : Z) : option (list Z) :=
  match fuel with
  | O => None
  | S fuel =>
      let c := Z.lor (nth (Z.to_nat (Z.land (u8 num) mask)) digits 0) locase in
      let num := Z.shiftr num shift in
      if num =? 0 then Some [c] else cons c <$> number_loop fuel num mask shift locase
  end.

(** The sign character, if any, the magnitude and the width left. *)
Definition number_sign (num size type : Z) : list Z * Z * Z :=
  if flag type SIGN then
    if s64 num <? 0 then ([45], u64 (- s64 num), size - 1)
    else if flag type PLUS then ([43], num, size - 1)
    else if flag type SPACE then ([32], num, size - 1)
    else ([], num, size)
  else ([], num, size).

(** The characters appended to the buffer.  [num] is 64 bits wide. *)
Definition number (fuel : nat) (num base size precision type : Z) : option (list Z) :=
  let need_pfx := flag type SPECIAL && negb (base =? 10) in
  let locase := Z.land type SMALL in
  let type := if flag type LEFT then clear type ZEROPAD else type in
  let '(sign, num, size) := number_sign num size type in
  let size := if need_pfx then if base =? 16 then size - 2 else size - 1 else size in
  let otmp :=
    if num =? 0 then Some [48]
    else if negb (base =? 10) then
      number_loop fuel num (base - 1) (if base =? 16 then 4 else 3) locase
    else put_dec fuel num in
  tmp ← otmp;
  let i := Z.of_nat (length tmp) in
  let precision := if precision <? i then i else precision in
  let size := size - precision in
  let '(lead, size) :=
    if negb (flag type (ZEROPAD + LEFT)) then pad size 32 else ([], size) in
  let pfx := if need_pfx then 48 :: (if base =? 16 then [Z.lor 88 locase] else []) else [] in
  let '(fill, size) :=
    if negb (flag type LEFT) then pad size (if flag type ZEROPAD then 48 else 32)
    else ([], size) in
  let zeros := replicate (Z.to_nat (precision - i)) 48 in
  let '(trail, _) := pad size 32 in
  Some (lead ++ sign ++ pfx ++ fill ++ zeros ++ rev tmp ++ trail).

(** The body of [string], on the first [len] characters: [while (len <
    field_width--)] writes what the width lacks, before or after them. *)
Definition string_body (s : list Z) (field_width flags : Z) : list Z :=
  let len := Z.of_nat (length s) in
  let spaces := replicate (Z.to_nat (field_width - len)) 32 in
  if negb (flag flags LEFT) then spaces ++ s else s ++ spaces.

(** [string] of a string the code has at hand; [precision] is converted to
    [size_t] by the call of [strnlen]. *)
Definition string_lit (s : list Z) (field_width precision flags : Z) : list Z :=
  let s := if Z.of_nat (length s) <=? u32 precision then s
           else take (Z.to_nat (u32 precision)) s in
  string_body s field_width flags.

Definition string (m : mem) (s field_width precision flags : Z) : list Z :=
  if s =? NULL then string_lit [60; 78; 85; 76; 76; 62] field_width precision flags
  else string_body (bytes_at m s (Z.to_nat (strnlen m s precision))) field_width flags.

Definition hex_asc : list Z :=
  [48; 49; 50; 51; 52; 53; 54; 55; 56; 57; 97; 98; 99; 100; 101; 102].

Definition pack_hex_byte (byte : Z) : list Z :=
  [nth (Z.to_nat (Z.shiftr (Z.land byte 0xf0) 4)) hex_asc 0;
   nth (Z.to_nat (Z.land byte 0x0f)) hex_asc 0].

Definition mac_address_string (m : mem) (addr field_width precision flags : Z) : list Z :=
  let one i := pack_hex_byte (m (addr + Z.of_nat i)) ++
                 (if negb (flag flags SPECIAL) && negb (i =? 5)%nat then [58] else []) in
  string_lit (concat (map one (seq 0 6))) field_width precision (clear flags SPECIAL).

Definition ip6_addr_string (m : mem) (addr field_width precision flags : Z) : list Z :=
  let one i := pack_hex_byte (m (addr + 2 * Z.of_nat i)) ++
                 pack_hex_byte (m (addr + (2 * Z.of_nat i + 1))) ++
                 (if negb (flag flags SPECIAL) && negb (i =? 7)%nat then [58] else []) in
  string_lit (concat (map one (seq 0 8))) field_width precision (clear flags SPECIAL).

Definition ip4_addr_string (m : mem) (addr field_width precision flags : Z) : list Z :=
  let one i := rev (put_dec_trunc (m (addr + Z.of_nat i))) ++
                 (if negb (i =? 3)%nat then [46] else []) in
  string_lit (concat (map one (seq 0 4))) field_width precision (clear flags SPECIAL).

(** [pointer]: [fmt] is what follows the [p]; [cmd_net] is CONFIG_CMD_NET. *)
Definition pointer (fuel : nat) (cmd_net : bool) (m : mem) (fmt : list Z)
    (ptr field_width precision flags : Z) : option (list Z) :=
  if ptr =? NULL then
    Some (string_lit [40; 110; 117; 108; 108; 41] field_width precision flags)
  else
    let as_number flags :=
      let flags := Z.lor flags SMALL in
      let '(field_width, flags) :=
        if field_width =? -1 then (8, Z.lor flags ZEROPAD) else (field_width, flags) in
      number fuel ptr 16 field_width precision flags in
    if negb cmd_net then as_number flags
    else if (ch fmt =? 109) || (ch fmt =? 77) then
      let flags := if ch fmt =? 109 then Z.lor flags SPECIAL else flags in
      Some (mac_address_string m ptr field_width precision flags)
    else if (ch fmt =? 105) || (ch fmt =? 73) then
      let flags := if ch fmt =? 105 then Z.lor flags SPECIAL else flags in
      if ch (tl fmt) =? 54 then Some (ip6_addr_string m ptr field_width precision flags)
      else if ch (tl fmt) =? 52 then Some (ip4_addr_string m ptr field_width precision flags)
      else as_number (clear flags SPECIAL)
    else as_number flags.

(** The variable arguments: the 32-bit words not yet fetched, and the number
    fetched so far ([args - argsave] is four times that). *)
Record va_list := Va { pending : list Z; fetched : nat }.

Definition va_arg (a : va_list) : Z * va_list :=
  (hd 0 (pending a), Va (tl (pending a)) (S (fetched a))).

Definition va_int (a : va_list) : Z * va_list :=
  let '(v, a) := va_arg a in (s32 v, a).

(** What [vsprintf] carries: the output so far, the arguments, the memory. *)
Record state := St { out : list Z; args : va_list; memory : mem }.

Definition emit (st : state) (l : list Z) : state := St (out st ++ l) (args st) (memory st).

Fixpoint flags_loop (fmt : list Z) (flags : Z) : Z * list Z :=
  match fmt with
  | c :: r =>
      if c =? 45 then flags_loop r (Z.lor flags LEFT)
      else if c =? 43 then flags_loop r (Z.lor flags PLUS)
      else if c =? 32 then flags_loop r (Z.lor flags SPACE)
      else if c =? 35 then flags_loop r (Z.lor flags SPECIAL)
      else if c =? 48 then flags_loop r (Z.lor flags ZEROPAD)
      else (flags, fmt)
  | [] => (flags, fmt)
  end.

(** Field width: digits, or [*] and the next argument. *)
Definition get_width (fmt : list Z) (flags : Z) (a : va_list) : Z * Z * list Z * va_list :=
  if is_digit (ch fmt) then
    let '(w, fmt) := skip_atoi fmt in (w, flags, fmt, a)
  else if ch fmt =? 42 then
    let '(w, a) := va_int a in
    if w <? 0 then (s32 (- w), Z.lor flags LEFT, tl fmt, a) else (w, flags, tl fmt, a)
  else (-1, flags, fmt, a).

Definition get_precision (fmt : list Z) (a : va_list) : Z * list Z * va_list :=
  if ch fmt =? 46 then
    let fmt := tl fmt in
    let '(p, fmt, a) :=
      if is_digit (ch fmt) then let '(p, fmt) := skip_atoi fmt in (p, fmt, a)
      else if ch fmt =? 42 then let '(p, a) := va_int a in (p, tl fmt, a)
      else (-1, fmt, a) in
    (if p <? 0 then 0 else p, fmt, a)
  else (-1, fmt, a).

(** The qualifier: h l L Z z t, and ll is L. *)
Definition get_qualifier (fmt : list Z) : Z * list Z :=
  let c := ch fmt in
  if (c =? 104) || (c =? 108) || (c =? 76) || (c =? 90) || (c =? 122) || (c =? 116) then
    let fmt := tl fmt in
    if (c =? 108) && (ch fmt =? 108) then (76, tl fmt) else (c, fmt)
  else (-1, fmt).

(** The integer argument, widened to 64 bits. *)
Definition get_num (qualifier flags : Z) (a : va_list) : Z * va_list :=
  if qualifier =? 76 then
    let a := if Nat.even (fetched a) then a else snd (va_arg a) in
    let '(lo, a) := va_arg a in
    let '(hi, a) := va_arg a in
    (Z.lor (u64 (Z.shiftl hi 32)) lo, a)
  else
    let '(v, a) := va_arg a in
    if qualifier =? 108 then (if flag flags SIGN then u64 (s32 v) else v, a)
    else if (qualifier =? 90) || (qualifier =? 122) then (v, a)
    else if qualifier =? 116 then (u64 (s32 v), a)
    else if qualifier =? 104 then
      (if flag flags SIGN then u64 (u16 v - (if u16 v <? 2 ^ 15 then 0 else 2 ^ 16)) else u16 v, a)
    else (if flag flags SIGN then u64 (s32 v) else v, a).

Fixpoint skip_alnum (fmt : list Z) : list Z :=
  match fmt with
  | c :: r => if isalnum c then skip_alnum r else fmt
  | [] => fmt
  end.

(** One conversion, from behind the [%] on: the rest of the format. *)
Definition convert (fuel : nat) (cmd_net : bool) (fmt : list Z) (st : state)
    : option (list Z * state) :=
  let '(flags, fmt) := flags_loop fmt 0 in
  let '(field_width, flags, fmt, a) := get_width fmt flags (args st) in
  let '(precision, fmt, a) := get_precision fmt a in
  let '(qualifier, fmt) := get_qualifier fmt in
  let st := St (out st) a (memory st) in
  let c := ch fmt in
  let integer base flags :=
    let '(num, a) := get_num qualifier flags (args st) in
    l ← number fuel num base field_width precision flags;
    Some (tl fmt, emit (St (out st) a (memory st)) l) in
  if c =? 99 then
    let '(v, a) := va_arg (args st) in
    let spaces := replicate (Z.to_nat (field_width - 1)) 32 in
    let l := if negb (flag flags LEFT) then spaces ++ [u8 v] else u8 v :: spaces in
    Some (tl fmt, emit (St (out st) a (memory st)) l)
  else if c =? 115 then
    let '(s, a) := va_arg (args st) in
    Some (tl fmt, emit (St (out st) a (memory st))
                       (string (memory st) s field_width precision flags))
  else if c =? 112 then
    let '(p, a) := va_arg (args st) in
    l ← pointer fuel cmd_net (memory st) (tl fmt) p field_width precision flags;
    Some (skip_alnum (tl fmt), emit (St (out st) a (memory st)) l)
  else if c =? 110 then
    let '(ip, a) := va_arg (args st) in
    Some (tl fmt, St (out st) a (store32 (memory st) ip (Z.of_nat (length (out st)))))
  else if c =? 37 then Some (tl fmt, emit st [37])
  else if c =? 111 then integer 8 flags
  else if c =? 120 then integer 16 (Z.lor flags SMALL)
  else if c =? 88 then integer 16 flags
  else if (c =? 100) || (c =? 105) then integer 10 (Z.lor flags SIGN)
  else if c =? 117 then integer 10 flags
  else match fmt with
       | [] => Some ([], emit st [37])
       | c :: r => Some (r, emit st [37; c])
       end.

(** [for (; *fmt; ++fmt)]; [nfuel] bounds the digits of a number. *)
Fixpoint vsprintf_loop (fuel nfuel : nat) (cmd_net : bool) (fmt : list Z) (st : state)
    : option state :=
  match fuel with
  | O => None
  | S fuel =>
      match fmt with
      | [] => Some st
      | c :: r =>
          if negb (c =? 37) then vsprintf_loop fuel nfuel cmd_net r (emit st [c])
          else '(r, st) ← convert nfuel cmd_net r st;
               vsprintf_loop fuel nfuel cmd_net r st
      end
  end.

(** The characters written, without the terminating NUL, their number, and
    the memory (which [%n] changes). *)
Definition vsprintf (fuel nfuel : nat) (cmd_net : bool) (fmt : list Z) (words : list Z)
    (m : mem) : option (list Z * Z * mem) :=
  st ← vsprintf_loop fuel nfuel cmd_net fmt (St [] (Va words 0) m);
  Some (out st, Z.of_nat (length (out st)), memory st).

Definition sprintf := vsprintf.

(** ** Positional notation *)

(** The digits of [n], least significant first, without leading zeros. *)
Fixpoint digits_of (fuel : nat) (base n : Z) : list Z :=
  match fuel with
  | O => []
  | S fuel => if n <? base then [n] else n mod base :: digits_of fuel base (n / base)
  end.

Definition value_of (base : Z) (ds : list Z) : Z :=
  fold_right (fun d v => d + base * v) 0 ds.

Definition digit_ok (base d : Z) : Prop := 0 <= d < base.

Lemma digits_of_S fuel base n :
  digits_of (S fuel) base n =
  if n <? base then [n] else n mod base :: digits_of fuel base (n / base).
Proof. reflexivity. Qed.

Lemma digits_of_spec fuel base n :
  2 <= base -> 0 <= n < base ^ Z.of_nat fuel -> (0 < fuel)%nat ->
  value_of base (digits_of fuel base n) = n /\ Forall (digit_ok base) (digits_of fuel base n).
Proof.
  intros Hb. revert n. induction fuel as [|fuel IH]; intros n Hn Hf; [lia|].
  rewrite digits_of_S. destruct (Z.ltb_spec n base) as [Hlt|Hge].
  - simpl. split; [lia|repeat constructor; lia].
  - rewrite Nat2Z.inj_succ, Z.pow_succ_r in Hn by lia.
    assert (0 < fuel)%nat. { destruct fuel; [simpl in Hn; lia|lia]. }
    destruct (IH (n / base)) as [Hv Hd]; [|done|].
    { split; [apply Z.div_pos; lia|apply Z.div_lt_upper_bound; lia]. }
    pose proof (Z.div_mod n base ltac:(lia)). cbn [value_of fold_right].
    fold (value_of base (digits_of fuel base (n / base))). split; [lia|].
    constructor; [apply Z.mod_pos_bound; lia|done].
Qed.

(** More fuel gives the same digits. *)
Lemma digits_of_fuel f1 f2 base n :
  2 <= base -> 0 <= n < base ^ Z.of_nat f1 -> (0 < f1)%nat -> (f1 <= f2)%nat ->
  digits_of f2 base n = digits_of f1 base n.
Proof.
  intros Hb. revert f2 n. induction f1 as [|f1 IH]; intros [|f2] n Hn H0 Hle; try lia.
  rewrite !digits_of_S. destruct (Z.ltb_spec n base); [done|]. f_equal.
  rewrite Nat2Z.inj_succ, Z.pow_succ_r in Hn by lia.
  apply IH; [|destruct f1; [simpl in Hn|]; lia|lia].
  split; [apply Z.div_pos; lia|apply Z.div_lt_upper_bound; lia].
Qed.

Definition ascii_dec (ds : list Z) : list Z := map (Z.add 48) ds.

Definition five_digits (q : Z) : list Z :=
  [q mod 10; q / 10 mod 10; q / 100 mod 10; q / 1000 mod 10; q / 10000].

(** The multiplications and shifts are exact divisions by ten. *)
Lemma div10_cd x : 0 <= x <= 400 -> Z.shiftr (u32 (x * 0xcd)) 11 = x / 10.
Proof.
  intros. rewrite u32_small, Z.shiftr_div_pow2 by lia. change (2 ^ 11) with 2048.
  Z.div_mod_to_equations. lia.
Qed.

Lemma div10_d x : 0 <= x <= 68 -> Z.shiftr (u32 (x * 0xd)) 7 = x / 10.
Proof.
  intros. rewrite u32_small, Z.shiftr_div_pow2 by lia. change (2 ^ 7) with 128.
  Z.div_mod_to_equations. lia.
Qed.

Lemma mod10_u32 x : 0 <= x < 2 ^ 32 -> u32 (x - 10 * (x / 10)) = x mod 10.
Proof. intros. rewrite u32_small; Z.div_mod_to_equations; lia. Qed.

Lemma digit_char d : 0 <= d < 10 -> u8 (d + 48) = 48 + d.
Proof. intros. rewrite u8_small; unfold is_byte; lia. Qed.

(** The sums the conversion carries from digit to digit, for the four
    hexadecimal digits of the number. *)
Record carries (d0 d1 d2 d3 n e0 e1 e2 e3 : Z) : Prop := {
  carry_e0 : e0 = 6 * (d3 + d2 + d1) + d0;
  carry_e1 : e1 = e0 / 10 + 9 * d3 + 5 * d2 + d1;
  carry_e2 : e2 = e1 / 10 + 2 * d2;
  carry_e3 : e3 = e2 / 10 + 4 * d3;
  carry_n : n = d0 + 16 * d1 + 256 * d2 + 4096 * d3;
  carry_d0 : 0 <= d0 < 16;
  carry_d1 : 0 <= d1 < 16;
  carry_d2 : 0 <= d2 < 16;
  carry_d3 : 0 <= d3 < 25;
  carry_max : n < 100000
}.

Lemma carries_digits d0 d1 d2 d3 n e0 e1 e2 e3 :
  carries d0 d1 d2 d3 n e0 e1 e2 e3 ->
  n mod 10 = e0 mod 10 /\ n / 10 mod 10 = e1 mod 10 /\ n / 100 mod 10 = e2 mod 10 /\
  n / 1000 mod 10 = e3 mod 10 /\ n / 10000 = e3 / 10.
Proof.
  intros [E0 E1 E2 E3 En H0 H1 H2 H3 Hm].
  assert (A : n = e0 mod 10 + 10 * (e1 mod 10) + 100 * (e2 mod 10) + 1000 * (e3 mod 10)
                  + 10000 * (e3 / 10)) by (Z.div_mod_to_equations; lia).
  clear - A H0 H1 H2 H3 Hm.
  pose proof (Z.mod_pos_bound e0 10 ltac:(lia)). pose proof (Z.mod_pos_bound e1 10 ltac:(lia)).
  pose proof (Z.mod_pos_bound e2 10 ltac:(lia)). pose proof (Z.mod_pos_bound e3 10 ltac:(lia)).
  generalize dependent (e0 mod 10). generalize dependent (e1 mod 10).
  generalize dependent (e2 mod 10). generalize dependent (e3 mod 10). generalize (e3 / 10).
  intros. Z.div_mod_to_equations. lia.
Qed.

Lemma nibbles q :
  0 <= q < 100000 ->
  exists d0 d1 d2 d3 e0 e1 e2 e3, carries d0 d1 d2 d3 q e0 e1 e2 e3 /\
    Z.land q 0xf = d0 /\ Z.land (Z.shiftr q 4) 0xf = d1 /\ Z.land (Z.shiftr q 8) 0xf = d2 /\
    Z.shiftr q 12 = d3 /\
    u32 (6 * (d3 + d2 + d1) + d0) = e0 /\ u32 (e0 / 10 + 9 * d3 + 5 * d2 + d1) = e1 /\
    u32 (e1 / 10 + 2 * d2) = e2 /\ u32 (e2 / 10 + 4 * d3) = e3 /\
    0 <= e0 <= 400 /\ 0 <= e1 <= 400 /\ 0 <= e2 <= 68 /\ 0 <= e3 <= 400.
Proof.
  intros Hq. change 0xf with (Z.ones 4).
  rewrite !Z.land_ones, !Z.shiftr_div_pow2 by lia. change (2 ^ 4) with 16.
  change (2 ^ 8) with 256. change (2 ^ 12) with 4096.
  set (d0 := q mod 16). set (d1 := q / 16 mod 16). set (d2 := q / 256 mod 16). set (d3 := q / 4096).
  assert (Hd : q = d0 + 16 * d1 + 256 * d2 + 4096 * d3 /\ 0 <= d0 < 16 /\ 0 <= d1 < 16 /\
               0 <= d2 < 16 /\ 0 <= d3 < 25)
    by (unfold d0, d1, d2, d3; Z.div_mod_to_equations; lia).
  exists d0, d1, d2, d3. clearbody d0 d1 d2 d3. destruct Hd as (Hn & H0 & H1 & H2 & H3).
  set (e0 := 6 * (d3 + d2 + d1) + d0). set (e1 := e0 / 10 + 9 * d3 + 5 * d2 + d1).
  set (e2 := e1 / 10 + 2 * d2). set (e3 := e2 / 10 + 4 * d3).
  assert (Hb : 0 <= e0 <= 400 /\ 0 <= e1 <= 400 /\ 0 <= e2 <= 68 /\ 0 <= e3 <= 400)
    by (unfold e3, e2, e1, e0; Z.div_mod_to_equations; lia).
  exists e0, e1, e2, e3. destruct Hb as (Hb0 & Hb1 & Hb2 & Hb3).
  rewrite !u32_small by lia. repeat split; lia || done.
Qed.

Ltac carry_steps q :=
  let Hq := fresh in assert (Hq : 0 <= q < 100000) by assumption;
  destruct (nibbles q Hq) as
    (d0 & d1 & d2 & d3 & e0 & e1 & e2 & e3 & Hc & -> & -> & -> & -> &
     E0 & E1 & E2 & E3 & B0 & B1 & B2 & B3);
  rewrite E0, (div10_cd e0), (mod10_u32 e0), E1, (div10_cd e1), (mod10_u32 e1), E2,
    (div10_d e2), (mod10_u32 e2), E3, (div10_cd e3), (mod10_u32 e3) by lia.

Lemma put_dec_full_spec q :
  0 <= q < 100000 -> put_dec_full q = ascii_dec (five_digits q).
Proof.
  intros Hq. unfold put_dec_full, five_digits. cbv zeta. carry_steps q.
  destruct (carries_digits _ _ _ _ _ _ _ _ _ Hc) as (M0 & M1 & M2 & M3 & M4).
  rewrite M0, M1, M2, M3, M4, !digit_char; [done|..]; try (apply Z.mod_pos_bound; lia).
  destruct Hc as [_ _ _ _ _ _ _ _ _ Hm]. rewrite <- M4. Z.div_mod_to_equations. lia.
Qed.

Lemma digits_of_five q :
  0 <= q < 100000 ->
  digits_of 5 10 q =
  q mod 10 :: if q <? 10 then [] else q / 10 mod 10 :: if q <? 100 then [] else
    q / 100 mod 10 :: if q <? 1000 then [] else q / 1000 mod 10 ::
      if q <? 10000 then [] else [q / 10000].
Proof.
  intros Hq. cbn [digits_of]. rewrite !Z.div_div by lia.
  change (10 * 10) with 100. change (100 * 10) with 1000. change (1000 * 10) with 10000.
  change (10 * (10 * 10)) with 1000. change (10 * 100) with 1000. change (10 * 1000) with 10000.
  replace (q / 10 <? 10) with (q <? 100) by (Z.div_mod_to_equations; lia).
  replace (q / 100 <? 10) with (q <? 1000) by (Z.div_mod_to_equations; lia).
  replace (q / 1000 <? 10) with (q <? 10000) by (Z.div_mod_to_equations; lia).
  replace (q / 10000 <? 10) with true by (Z.div_mod_to_equations; lia).
  destruct (Z.ltb_spec q 10); [rewrite Z.mod_small by lia; done|]. f_equal.
  destruct (Z.ltb_spec q 100); [rewrite Z.mod_small by (Z.div_mod_to_equations; lia); done|]. f_equal.
  destruct (Z.ltb_spec q 1000); [rewrite Z.mod_small by (Z.div_mod_to_equations; lia); done|]. f_equal.
  destruct (Z.ltb_spec q 10000); [rewrite Z.mod_small by (Z.div_mod_to_equations; lia); done|]. done.
Qed.

Lemma put_dec_trunc_spec q :
  0 <= q < 100000 -> put_dec_trunc q = ascii_dec (digits_of 5 10 q).
Proof.
  intros Hq. rewrite digits_of_five by done. unfold put_dec_trunc. cbv zeta. carry_steps q.
  destruct (carries_digits _ _ _ _ _ _ _ _ _ Hc) as (M0 & M1 & M2 & M3 & M4).
  rewrite M0, M1, M2, M3, M4.
  assert (T1 : (e1 =? 0) = (q <? 10)) by (destruct Hc; Z.div_mod_to_equations; lia).
  assert (T2 : 10 <= q -> ((e2 =? 0) && (d3 =? 0)) = (q <? 100))
    by (destruct Hc; Z.div_mod_to_equations; lia).
  assert (T3 : 100 <= q -> (e3 =? 0) = (q <? 1000)) by (destruct Hc; Z.div_mod_to_equations; lia).
  assert (T4 : 1000 <= q -> (e3 / 10 =? 0) = (q <? 10000)) by (destruct Hc; Z.div_mod_to_equations; lia).
  assert (H4 : 0 <= e3 / 10 < 10) by (rewrite <- M4; Z.div_mod_to_equations; lia).
  rewrite !digit_char by (done || (apply Z.mod_pos_bound; lia)). rewrite T1.
  destruct (Z.ltb_spec q 10); [done|]. rewrite T2 by done.
  destruct (Z.ltb_spec q 100); [done|]. rewrite T3 by done.
  destruct (Z.ltb_spec q 1000); [done|]. rewrite T4 by done.
  by destruct (Z.ltb_spec q 10000).
Qed.

(** Splitting off five digits. *)
Lemma digits_of_step fuel n :
  (5 < fuel)%nat -> 100000 <= n ->
  digits_of fuel 10 n = five_digits (n mod 100000) ++ digits_of (fuel - 5) 10 (n / 100000).
Proof.
  intros Hf Hn. do 5 (destruct fuel as [|fuel]; [lia|]).
  replace (S (S (S (S (S fuel)))) - 5)%nat with fuel by lia.
  rewrite !digits_of_S, !Z.div_div by lia.
  change (10 * 10) with 100. change (100 * 10) with 1000. change (1000 * 10) with 10000.
  change (10000 * 10) with 100000.
  change (10 * (10 * 10)) with 1000. change (10 * 100) with 1000. change (10 * 1000) with 10000.
  change (10 * 10000) with 100000.
  rewrite !(proj2 (Z.ltb_ge _ _)) by (Z.div_mod_to_equations; lia).
  unfold five_digits. cbn [app].
  replace (n mod 100000 mod 10) with (n mod 10) by (Z.div_mod_to_equations; lia).
  replace (n mod 100000 / 10 mod 10) with (n / 10 mod 10) by (Z.div_mod_to_equations; lia).
  replace (n mod 100000 / 100 mod 10) with (n / 100 mod 10) by (Z.div_mod_to_equations; lia).
  replace (n mod 100000 / 1000 mod 10) with (n / 1000 mod 10) by (Z.div_mod_to_equations; lia).
  replace (n mod 100000 / 10000) with (n / 10000 mod 10) by (Z.div_mod_to_equations; lia).
  done.
Qed.

Lemma put_dec_spec fuel num f :
  0 <= num < 10 ^ Z.of_nat f -> (0 < f)%nat -> (f < 5 * fuel)%nat ->
  put_dec fuel num = Some (ascii_dec (digits_of f 10 num)).
Proof.
  revert num f. induction fuel as [|fuel IH]; intros num f Hn H0 Hf; [lia|]. cbn [put_dec].
  destruct (Z.ltb_spec num 100000).
  - rewrite put_dec_trunc_spec by lia. f_equal. f_equal.
    destruct (decide (f <= 5)%nat).
    + apply digits_of_fuel; lia.
    + symmetry. apply digits_of_fuel; lia.
  - assert (Hf5 : (5 < f)%nat).
    { destruct (decide (5 < f)%nat); [done|].
      assert (10 ^ Z.of_nat f <= 10 ^ 5) by (apply Z.pow_le_mono_r; lia).
      change (10 ^ 5) with 100000 in *. lia. }
    assert (Ep : 10 ^ Z.of_nat f = 100000 * 10 ^ Z.of_nat (f - 5)).
    { replace (Z.of_nat f) with (5 + Z.of_nat (f - 5)) by lia.
      rewrite Z.pow_add_r by lia. done. }
    rewrite put_dec_full_spec by (apply Z.mod_pos_bound; lia).
    rewrite (IH _ (f - 5)%nat); [|split; [apply Z.div_pos; lia|apply Z.div_lt_upper_bound; lia]|lia|lia].
    simpl. f_equal. rewrite (digits_of_step f) by done.
    unfold ascii_dec. by rewrite map_app.
Qed.

(** ** The layout of a number *)

(** The digits as characters, most significant first. *)
Definition digit_text (locase : Z) (ds : list Z) : list Z :=
  map (fun d => Z.lor (nth (Z.to_nat d) digits 0) locase) ds.

Definition number_digits (base locase n : Z) : list Z :=
  rev (digit_text locase (digits_of 22 base n)).

(** What a number looks like: its digits at least [precision] long, in a
    field at least [width] wide. *)
Definition layout (sign pfx digs : list Z) (width precision : Z) (left zero : bool) : list Z :=
  let body := replicate (Z.to_nat (precision - Z.of_nat (length digs))) 48 ++ digs in
  let fill := Z.to_nat (width - Z.of_nat (length sign) - Z.of_nat (length pfx)
                              - Z.of_nat (length body)) in
  if left : bool then sign ++ pfx ++ body ++ replicate fill 32
  else if zero : bool then sign ++ pfx ++ replicate fill 48 ++ body
  else replicate fill 32 ++ sign ++ pfx ++ body.

Definition magnitude (num type : Z) : Z :=
  if flag type SIGN && (s64 num <? 0) then - s64 num else num.

Definition sign_text (num type : Z) : list Z :=
  if flag type SIGN then
    if s64 num <? 0 then [45]
    else if flag type PLUS then [43] else if flag type SPACE then [32] else []
  else [].

Definition prefix_text (base type : Z) : list Z :=
  if flag type SPECIAL && negb (base =? 10) then
    48 :: (if base =? 16 then [Z.lor 88 (Z.land type SMALL)] else [])
  else [].

Lemma flag_testbit t k : 0 <= k -> flag t (2 ^ k) = Z.testbit t k.
Proof.
  intros Hk. unfold flag. destruct (Z.testbit t k) eqn:E.
  - destruct (Z.eqb_spec (Z.land t (2 ^ k)) 0) as [H|]; [|done].
    apply (f_equal (fun z => Z.testbit z k)) in H.
    by rewrite Z.land_spec, E, Z.pow2_bits_true, Z.bits_0 in H.
  - replace (Z.land t (2 ^ k)) with 0; [done|]. symmetry. apply Z.bits_inj'. intros i Hi.
    rewrite Z.land_spec, Z.pow2_bits_eqb, Z.bits_0 by done.
    destruct (Z.eqb_spec k i) as [<-|]; [by rewrite E|]. apply andb_false_r.
Qed.

Lemma flag_clear t j k : 0 <= j -> 0 <= k -> j <> k -> flag (clear t (2 ^ k)) (2 ^ j) = flag t (2 ^ j).
Proof.
  intros Hj Hk Hn. rewrite !flag_testbit by done. unfold clear.
  rewrite Z.land_spec, Z.lnot_spec, Z.pow2_bits_eqb by done.
  destruct (Z.eqb_spec k j); [congruence|]. apply andb_true_r.
Qed.

Lemma flag_clear_same t k : 0 <= k -> flag (clear t (2 ^ k)) (2 ^ k) = false.
Proof.
  intros Hk. rewrite flag_testbit by done. unfold clear.
  rewrite Z.land_spec, Z.lnot_spec, Z.pow2_bits_true by done. apply andb_false_r.
Qed.

Lemma flag_lor t j k : flag t (Z.lor j k) = flag t j || flag t k.
Proof.
  unfold flag. rewrite Z.land_lor_distr_r. generalize (Z.land t j) as x, (Z.land t k) as y.
  intros x y. pose proof (Z.lor_eq_0_iff x y).
  destruct (Z.eqb_spec (Z.lor x y) 0), (Z.eqb_spec x 0), (Z.eqb_spec y 0); simpl; tauto.
Qed.

Lemma number_loop_spec fuel num shift locase f :
  1 <= shift <= 4 -> 0 <= num < (2 ^ shift) ^ Z.of_nat f -> (0 < f)%nat -> (f <= fuel)%nat ->
  number_loop fuel num (2 ^ shift - 1) shift locase =
  Some (digit_text locase (digits_of f (2 ^ shift) num)).
Proof.
  intros Hs. assert (Hp : 2 <= 2 ^ shift <= 16).
  { split; [apply (Z.pow_le_mono_r 2 1)|apply (Z.pow_le_mono_r 2 _ 4)]; lia. }
  revert num f. induction fuel as [|fuel IH]; intros num [|f] Hn H0 Hf; try lia.
  rewrite digits_of_S. cbn [number_loop]. rewrite Z.shiftr_div_pow2 by lia.
  assert (Em : Z.land (u8 num) (2 ^ shift - 1) = num mod 2 ^ shift).
  { replace (2 ^ shift - 1) with (Z.ones shift) by (rewrite Z.ones_equiv; lia).
    rewrite Z.land_ones by lia. unfold u8. replace 8 with (shift + (8 - shift)) by lia.
    rewrite Z.pow_add_r, Z.rem_mul_r, Z.mul_comm, Z.mod_add, Z.mod_mod; lia. }
  rewrite Em. destruct (Z.ltb_spec num (2 ^ shift)).
  - rewrite Z.mod_small, Z.div_small by lia. done.
  - destruct (Z.eqb_spec (num / 2 ^ shift) 0) as [Hz|_].
    { apply Z.div_small_iff in Hz; lia. }
    rewrite Nat2Z.inj_succ, Z.pow_succ_r in Hn by lia.
    rewrite (IH _ f); [done| |destruct f; [simpl in Hn|]; lia|lia].
    split; [apply Z.div_pos; lia|apply Z.div_lt_upper_bound; lia].
Qed.

Lemma ascii_dec_text locase ds :
  locase = 0 \/ locase = 32 -> Forall (digit_ok 10) ds -> ascii_dec ds = digit_text locase ds.
Proof.
  intros Hl Hd. apply map_ext_Forall. eapply Forall_impl; [exact Hd|].
  intros d Hd1. unfold digit_ok in Hd1.
  assert (Hc : d = 0 \/ d = 1 \/ d = 2 \/ d = 3 \/ d = 4 \/ d = 5 \/ d = 6 \/ d = 7 \/ d = 8 \/ d = 9)
    by lia.
  destruct Hl as [->| ->]; repeat destruct Hc as [->|Hc]; try reflexivity; by subst.
Qed.

Lemma small_cases type : Z.land type SMALL = 0 \/ Z.land type SMALL = 32.
Proof.
  assert (H : flag type SMALL = Z.testbit type 5) by (apply (flag_testbit type 5); lia).
  destruct (Z.testbit type 5) eqn:E.
  - right. apply Z.bits_inj'. intros i Hi. change SMALL with (2 ^ 5). change 32 with (2 ^ 5).
    rewrite Z.land_spec, Z.pow2_bits_eqb by lia.
    destruct (Z.eqb_spec 5 i) as [<-|]; [by rewrite E|apply andb_false_r].
  - left. unfold flag in H. by destruct (Z.eqb_spec (Z.land type SMALL) 0).
Qed.

(** [tmp]: the digits of the magnitude, in each of the three bases. *)
Lemma number_tmp base n locase fuel :
  base = 8 \/ base = 10 \/ base = 16 -> locase = 0 \/ locase = 32 -> (22 <= fuel)%nat ->
  0 <= n < 2 ^ 64 ->
  (if n =? 0 then Some [48]
   else if negb (base =? 10) then
     number_loop fuel n (base - 1) (if base =? 16 then 4 else 3) locase
   else put_dec fuel n) = Some (digit_text locase (digits_of 22 base n)).
Proof.
  intros Hb Hl Hf Hn. destruct (Z.eqb_spec n 0) as [->|Hn0].
  { destruct Hb as [->|[->| ->]], Hl as [->| ->]; reflexivity. }
  destruct Hb as [->|[->| ->]]; cbn [negb Z.eqb Pos.eqb].
  - apply (number_loop_spec fuel n 3 locase 22); [lia| |lia|lia].
    change ((2 ^ 3) ^ Z.of_nat 22) with (2 ^ 66). lia.
  - rewrite (put_dec_spec fuel n 22) by
      (try (change (10 ^ Z.of_nat 22) with (10 ^ 22)); lia).
    f_equal. apply ascii_dec_text; [done|].
    apply digits_of_spec; [lia| |lia]. change (10 ^ Z.of_nat 22) with (10 ^ 22). lia.
  - apply (number_loop_spec fuel n 4 locase 22); [lia| |lia|lia].
    change ((2 ^ 4) ^ Z.of_nat 22) with (2 ^ 88). lia.
Qed.

Lemma length_number_digits base locase n :
  length (number_digits base locase n) = length (digits_of 22 base n).
Proof. unfold number_digits, digit_text. by rewrite length_rev, length_map. Qed.

Lemma number_sign_eq num size type :
  is_u64 num ->
  number_sign num size type =
  (sign_text num type, magnitude num type, size - Z.of_nat (length (sign_text num type))).
Proof.
  intros Hn. unfold is_u64 in Hn. unfold number_sign, sign_text, magnitude.
  destruct (flag type SIGN); simpl; [|f_equal; lia].
  destruct (Z.ltb_spec (s64 num) 0) as [Hlt|_]; simpl.
  - do 2 f_equal. apply u64_small. unfold s64 in *. Z.div_mod_to_equations. lia.
  - destruct (flag type PLUS); [done|]. destruct (flag type SPACE); simpl; [done|]. f_equal. lia.
Qed.

Lemma magnitude_range num type : is_u64 num -> 0 <= magnitude num type < 2 ^ 64.
Proof.
  unfold is_u64, magnitude. intros Hn. destruct (flag type SIGN); simpl; [|lia].
  destruct (Z.ltb_spec (s64 num) 0); [|lia]. unfold s64 in *. Z.div_mod_to_equations. lia.
Qed.

Lemma replicate_neg z c : z <= 0 -> replicate (Z.to_nat z) c = @nil Z.
Proof. intros. by replace (Z.to_nat z) with 0%nat by lia. Qed.

(** The type with the zero flag dropped under the minus flag. *)
Definition left_type (type : Z) : Z := if flag type LEFT then clear type ZEROPAD else type.

Lemma left_type_flags type :
  flag (left_type type) SIGN = flag type SIGN /\ flag (left_type type) PLUS = flag type PLUS /\
  flag (left_type type) SPACE = flag type SPACE /\ flag (left_type type) LEFT = flag type LEFT /\
  flag (left_type type) ZEROPAD = flag type ZEROPAD && negb (flag type LEFT).
Proof.
  unfold left_type. destruct (flag type LEFT) eqn:E; [|by rewrite andb_true_r].
  rewrite andb_false_r.
  split; [apply (flag_clear type 1 0); lia|]. split; [apply (flag_clear type 2 0); lia|].
  split; [apply (flag_clear type 3 0); lia|]. split; [|apply (flag_clear_same type 0); lia].
  rewrite <- E. apply (flag_clear type 4 0); lia.
Qed.

Lemma number_eq fuel num base size precision type :
  base = 8 \/ base = 10 \/ base = 16 -> is_u64 num -> (22 <= fuel)%nat ->
  number fuel num base size precision type =
  Some (layout (sign_text num type) (prefix_text base type)
          (number_digits base (Z.land type SMALL) (magnitude num type))
          size precision (flag type LEFT) (flag type ZEROPAD)).
Proof.
  intros Hb Hn Hf. unfold number. fold (left_type type).
  destruct (left_type_flags type) as (F1 & F2 & F3 & F4 & F5).
  assert (Es : sign_text num (left_type type) = sign_text num type)
    by (unfold sign_text; by rewrite F1, F2, F3).
  assert (Em : magnitude num (left_type type) = magnitude num type)
    by (unfold magnitude; by rewrite F1).
  rewrite number_sign_eq, Es, Em by done.
  rewrite number_tmp; [|done|apply small_cases|done|by apply magnitude_range].
  cbn [mbind option_bind]. rewrite F4, F5.
  change (ZEROPAD + LEFT) with (Z.lor ZEROPAD LEFT). rewrite flag_lor, F4, F5.
  fold (prefix_text base type). set (sign := sign_text num type).
  set (tmp := digit_text _ _).
  assert (Ed : rev tmp = number_digits base (Z.land type SMALL) (magnitude num type)) by done.
  rewrite <- Ed. clear F1 F2 F3 F4 F5 Es Em Ed Hb Hn Hf. clearbody tmp sign.
  set (pfx := prefix_text base type).
  assert (Ep : (if flag type SPECIAL && negb (base =? 10)
     then if base =? 16 then size - Z.of_nat (length sign) - 2 else size - Z.of_nat (length sign) - 1
     else size - Z.of_nat (length sign)) = size - Z.of_nat (length sign) - Z.of_nat (length pfx)).
  { unfold pfx, prefix_text. destruct (flag type SPECIAL && _); [|simpl; lia].
    destruct (base =? 16); simpl; lia. }
  rewrite Ep. clear Ep. clearbody pfx. unfold layout. rewrite length_rev.
  set (i := Z.of_nat (length tmp)).
  assert (Hi : Z.of_nat (length (replicate (Z.to_nat (precision - i)) 48 ++ rev tmp))
               = if precision <? i then i else precision).
  { rewrite length_app, length_replicate, length_rev. destruct (Z.ltb_spec precision i); lia. }
  rewrite Hi. set (prec := if precision <? i then i else precision).
  replace (Z.to_nat (prec - i)) with (Z.to_nat (precision - i))
    by (unfold prec; destruct (Z.ltb_spec precision i); lia).
  set (w := size - Z.of_nat (length sign) - Z.of_nat (length pfx) - prec).
  destruct (flag type LEFT), (flag type ZEROPAD); cbn [negb andb orb]; unfold pad;
    rewrite ?(replicate_neg (Z.min _ 0 - 1)) by lia; simpl; rewrite ?app_nil_r, <- ?app_assoc;
    try done; rewrite ?(replicate_neg (Z.min _ 0 - 1 - _)) by lia; done.
Qed.

(** ** Parsing what was printed *)

(** The characters of the digits, in both cases, are read back as digits. *)
Lemma digit_char_parse d locase :
  digit_ok 16 d -> locase = 0 \/ locase = 32 ->
  let c := Z.lor (nth (Z.to_nat d) digits 0) locase in
  isxdigit c = true /\ u32 (digit_value c) = d /\ (c = 48 <-> d = 0) /\ c <> 45 /\ c <> 120.
Proof.
  intros Hd Hl. unfold digit_ok in Hd. cbv zeta.
  assert (Hc : In d (map Z.of_nat (seq 0 16))).
  { rewrite <- (Z2Nat.id d) by lia. apply in_map, in_seq. lia. }
  simpl in Hc. destruct Hl as [->| ->]; repeat destruct Hc as [<-|Hc]; try done;
    (split; [reflexivity|]; split; [reflexivity|]; split; [by split|]; split; discriminate).
Qed.

Lemma digits_loop_text wrap base locase ds rest acc :
  base <= 16 -> locase = 0 \/ locase = 32 -> Forall (digit_ok base) ds ->
  digits_loop wrap (digit_text locase ds ++ rest) base acc =
  digits_loop wrap rest base (fold_left (fun a d => wrap (a * base + d)) ds acc).
Proof.
  intros Hb Hl Hd. revert acc. induction Hd as [|d ds Hd _ IH]; intros acc; [done|].
  cbn [digit_text map app digits_loop fold_left].
  destruct (digit_char_parse d locase) as (-> & -> & _); [unfold digit_ok in *; lia|done|].
  unfold digit_ok in Hd. destruct (Z.ltb_spec d base); [|lia]. apply IH.
Qed.

(** Horner's rule modulo 2^32. *)
Lemma fold_value base ds :
  fold_left (fun a d => u32 (a * base + d)) (rev ds) 0 = u32 (value_of base ds).
Proof.
  induction ds as [|d ds IH]; [done|]. cbn [rev value_of fold_right].
  rewrite fold_left_app, IH. cbn [fold_left]. fold (value_of base ds).
  unfold u32. rewrite <- Zplus_mod_idemp_l, Zmult_mod_idemp_l, Zplus_mod_idemp_l.
  f_equal. lia.
Qed.

(** The most significant digit of a positive number is not zero. *)
Lemma digits_of_lead fuel base n :
  2 <= base -> 0 < n < base ^ Z.of_nat fuel -> (0 < fuel)%nat ->
  exists d ds, rev (digits_of fuel base n) = d :: ds /\ d <> 0.
Proof.
  intros Hb. revert n. induction fuel as [|fuel IH]; intros n Hn Hf; [lia|].
  rewrite digits_of_S. destruct (Z.ltb_spec n base); [exists n, []; split; [done|lia]|].
  rewrite Nat2Z.inj_succ, Z.pow_succ_r in Hn by lia.
  destruct (IH (n / base)) as (d & ds & E & Hd).
  - split; [apply Z.div_str_pos; lia|apply Z.div_lt_upper_bound; lia].
  - destruct fuel; [simpl in Hn|]; lia.
  - exists d, (ds ++ [n mod base]). cbn [rev]. by rewrite E.
Qed.

Lemma number_digits_text base locase n :
  number_digits base locase n = digit_text locase (rev (digits_of 22 base n)).
Proof. unfold number_digits, digit_text. by rewrite map_rev. Qed.

Lemma base_range base n :
  base = 8 \/ base = 10 \/ base = 16 -> is_u32 n -> 2 <= base <= 16 /\ 0 <= n < base ^ Z.of_nat 22.
Proof.
  unfold is_u32. intros Hb Hn. change (Z.of_nat 22) with 22.
  destruct Hb as [->|[->| ->]]; (split; [lia|]); split; try lia; apply Z.lt_le_trans with (2 ^ 32); try lia.
  all: by vm_compute.
Qed.

Lemma digits_loop_number base locase n :
  base = 8 \/ base = 10 \/ base = 16 -> locase = 0 \/ locase = 32 -> is_u32 n ->
  digits_loop u32 (number_digits base locase n) base 0 = (n, []).
Proof.
  intros Hb Hl Hn. destruct (base_range base n Hb Hn) as [Hbr Hnr].
  destruct (digits_of_spec 22 base n) as [Hv Hd]; [lia|done|lia|].
  rewrite number_digits_text, <- (app_nil_r (digit_text _ _)).
  rewrite digits_loop_text; [|lia|done|by apply Forall_rev].
  cbn [digits_loop]. by rewrite fold_value, Hv, u32_small.
Qed.

(** The digits start with a zero only for the number zero. *)
Lemma number_digits_head base locase n :
  base = 8 \/ base = 10 \/ base = 16 -> locase = 0 \/ locase = 32 -> is_u32 n ->
  (n = 0 /\ number_digits base locase n = [48]) \/
  (exists c l, number_digits base locase n = c :: l /\ c <> 48 /\ c <> 45 /\ c <> 120 /\ isxdigit c = true).
Proof.
  intros Hb Hl Hn. destruct (base_range base n Hb Hn) as [Hbr Hnr].
  destruct (Z.eq_dec n 0) as [->|Hnz].
  { left. split; [done|]. destruct Hb as [->|[->| ->]], Hl as [->| ->]; reflexivity. }
  right. destruct (digits_of_lead 22 base n) as (d & ds & E & Hd0); [lia|lia|lia|].
  rewrite number_digits_text, E. cbn [digit_text map]. do 2 eexists. split; [done|].
  destruct (digits_of_spec 22 base n) as [_ Hd]; [lia|done|lia|].
  apply Forall_rev in Hd. rewrite E in Hd. apply Forall_cons in Hd as [Hd _].
  destruct (digit_char_parse d locase) as (H1 & _ & H2 & H3 & H4); [unfold digit_ok in *; lia|done|].
  cbv zeta in *. tauto.
Qed.

Lemma strtoul_number base locase n :
  base = 8 \/ base = 10 \/ base = 16 -> locase = 0 \/ locase = 32 -> is_u32 n ->
  simple_strtoul (number_digits base locase n) base = (n, []).
Proof.
  intros Hb Hl Hn. assert (Hb0 : (base =? 0) = false) by (destruct Hb as [->|[->| ->]]; done).
  unfold simple_strtoul, strtou.
  destruct (number_digits_head base locase n Hb Hl Hn) as [[-> ->]|(c & l & E & Hc & _)].
  - clear Hb0. destruct Hb as [->|[->| ->]]; reflexivity.
  - rewrite E. cbn [ch hd]. rewrite (proj2 (Z.eqb_neq c 48)), Hb0, <- E by done.
    by apply digits_loop_number.
Qed.

(** With the prefix of the alternative form the base is found: base 0. *)
Lemma strtoul_hex_prefix n :
  is_u32 n -> simple_strtoul (48 :: 120 :: number_digits 16 32 n) 0 = (n, []).
Proof.
  intros Hn. pose proof (digits_loop_number 16 32 n ltac:(auto) ltac:(auto) Hn) as Hd.
  assert (Hx : isxdigit (ch (number_digits 16 32 n)) = true).
  { destruct (number_digits_head 16 32 n) as [[-> ->]|(c & l & -> & H)]; [auto..|done|].
    change (ch (c :: l)) with c. tauto. }
  revert Hd Hx. generalize (number_digits 16 32 n) as l. intros l Hd Hx.
  unfold simple_strtoul, strtou. change (ch (48 :: 120 :: l) =? 48) with true. cbv iota zeta.
  change (tl (48 :: 120 :: l)) with (120 :: l). change (ch (120 :: l) =? 120) with true.
  change (tl (120 :: l)) with l. rewrite Hx. exact Hd.
Qed.

Lemma strtoul_oct_prefix n :
  is_u32 n -> simple_strtoul (48 :: number_digits 8 0 n) 0 = (n, []).
Proof.
  intros Hn. pose proof (digits_loop_number 8 0 n ltac:(auto) ltac:(auto) Hn) as Hd.
  assert (Hx : (ch (number_digits 8 0 n) =? 120) = false).
  { destruct (number_digits_head 8 0 n) as [[-> ->]|(c & l & -> & H)]; [auto..|done|].
    change (ch (c :: l)) with c. apply Z.eqb_neq. tauto. }
  revert Hd Hx. generalize (number_digits 8 0 n) as l. intros l Hd Hx.
  unfold simple_strtoul, strtou. change (ch (48 :: l) =? 48) with true. cbv iota zeta.
  change (tl (48 :: l)) with l. rewrite Hx. exact Hd.
Qed.

Lemma strtol_decimal n :
  is_u32 n ->
  simple_strtol (sign_text (u64 (s32 n)) SIGN ++ number_digits 10 0 (magnitude (u64 (s32 n)) SIGN)) 10
  = (s32 n, []).
Proof.
  intros Hn. unfold simple_strtol, sign_text, magnitude. change (flag SIGN SIGN) with true.
  change (flag SIGN PLUS) with false. change (flag SIGN SPACE) with false. cbn [andb].
  assert (Es : s64 (u64 (s32 n)) = s32 n) by (unfold is_u32 in Hn; words).
  rewrite Es. assert (Hr : - 2 ^ 31 <= s32 n < 2 ^ 31) by words.
  destruct (Z.ltb_spec (s32 n) 0).
  - cbn [app ch hd tl Z.eqb Pos.eqb]. rewrite strtoul_number; [|auto|auto|unfold is_u32; lia].
    f_equal. rewrite s32_u32, Z.opp_involutive. apply s32_small. lia.
  - cbn [app]. rewrite u64_small by lia.
    assert (Hu : is_u32 (s32 n)) by (unfold is_u32; lia).
    destruct (number_digits_head 10 0 (s32 n)) as [[E0 E]|(c & l & E & H1 & H2 & _)]; [auto..| |].
    + rewrite E. cbn. rewrite E0. done.
    + rewrite E. cbn [ch hd]. rewrite (proj2 (Z.eqb_neq c 45)), <- E by done.
      rewrite strtoul_number by auto. f_equal. apply s32_small. lia.
Qed.

(** ** Formatting is total *)

Lemma skip_atoi_length s i : (length (skip_atoi_loop s i).2 <= length s)%nat.
Proof.
  revert i. induction s as [|c s IH]; intros i; cbn [skip_atoi_loop]; [done|].
  destruct (is_digit c); [|done]. specialize (IH (s32 (i * 10 + c - 48))). simpl. lia.
Qed.

Lemma flags_loop_length fmt flags : (length (flags_loop fmt flags).2 <= length fmt)%nat.
Proof.
  revert flags. induction fmt as [|c fmt IH]; intros flags; cbn [flags_loop]; [done|].
  repeat (destruct (_ =? _); [etransitivity; [apply IH|simpl; lia]|]). done.
Qed.

Lemma tl_length (l : list Z) : (length (tl l) <= length l)%nat.
Proof. destruct l; simpl; lia. Qed.

Lemma get_width_length fmt flags a :
  let '(_, _, fmt', a') := get_width fmt flags a in
  (length fmt' <= length fmt)%nat /\ (Forall is_u32 (pending a) -> Forall is_u32 (pending a')).
Proof.
  unfold get_width, skip_atoi. destruct (is_digit _).
  - pose proof (skip_atoi_length fmt 0). destruct (skip_atoi_loop fmt 0). done.
  - destruct (_ =? 42); [|done]. unfold va_int, va_arg. cbn.
    pose proof (tl_length fmt). destruct (_ <? 0); (split; [done|]); apply Forall_tl.
Qed.

Lemma get_precision_length fmt a :
  let '(_, fmt', a') := get_precision fmt a in
  (length fmt' <= length fmt)%nat /\ (Forall is_u32 (pending a) -> Forall is_u32 (pending a')).
Proof.
  unfold get_precision, skip_atoi. destruct (ch fmt =? 46); [|done].
  pose proof (tl_length fmt). pose proof (tl_length (tl fmt)).
  destruct (is_digit _).
  - pose proof (skip_atoi_length (tl fmt) 0). destruct (skip_atoi_loop (tl fmt) 0).
    cbn in *. split; [lia|done].
  - destruct (_ =? 42); [|split; [lia|done]]. unfold va_int, va_arg. cbn.
    split; [lia|]. apply Forall_tl.
Qed.

Lemma get_qualifier_length fmt : (length (get_qualifier fmt).2 <= length fmt)%nat.
Proof.
  unfold get_qualifier. pose proof (tl_length fmt). pose proof (tl_length (tl fmt)).
  destruct (_ || _); [|done]. destruct (_ && _); cbn; lia.
Qed.

Lemma hd_u32 l : Forall is_u32 l -> is_u32 (hd 0 l).
Proof. intros [|]; [unfold is_u32; simpl; lia|done]. Qed.

Lemma get_num_range q f a :
  Forall is_u32 (pending a) ->
  is_u64 (get_num q f a).1 /\ Forall is_u32 (pending (get_num q f a).2).
Proof.
  intros Ha. pose proof (hd_u32 _ Ha) as H0. pose proof (Forall_tl _ _ Ha) as Ht.
  assert (Hw : forall z, is_u64 (u64 z)) by (intros; apply Z.mod_pos_bound; lia).
  assert (Hv : is_u64 (hd 0 (pending a))) by (unfold is_u32, is_u64 in *; lia).
  assert (Hs : is_u64 (u16 (hd 0 (pending a)))) by (unfold is_u64; words).
  unfold get_num, va_arg. destruct (q =? 76).
  - set (b := if Nat.even (fetched a) then a else _).
    assert (Hb : Forall is_u32 (pending b)) by (unfold b; destruct (Nat.even _); done).
    cbn. split; [|by do 2 apply Forall_tl].
    apply (lor_range _ _ 64); [lia|apply Hw|].
    pose proof (hd_u32 _ Hb). unfold is_u32 in *. lia.
  - cbn. destruct (flag f SIGN), (q =? 108), ((q =? 90) || (q =? 122)), (q =? 116), (q =? 104); cbn; auto.
Qed.

Lemma number_total fuel num base size precision type :
  base = 8 \/ base = 10 \/ base = 16 -> is_u64 num -> (22 <= fuel)%nat ->
  exists l, number fuel num base size precision type = Some l.
Proof. intros. rewrite number_eq by done. by eexists. Qed.

Lemma pointer_total fuel net m fmt p w prec flags :
  is_u32 p -> (22 <= fuel)%nat -> exists l, pointer fuel net m fmt p w prec flags = Some l.
Proof.
  intros Hp Hf. unfold pointer.
  assert (Hn : forall fl, exists l, (let flags := Z.lor fl SMALL in
      let '(field_width, flags) := if w =? -1 then (8, Z.lor flags ZEROPAD) else (w, flags) in
      number fuel p 16 field_width prec flags) = Some l).
  { intros fl. destruct (w =? -1); apply number_total; auto; unfold is_u32, is_u64 in *; lia. }
  destruct (p =? NULL); [by eexists|]. destruct net; cbn [negb]; [|apply Hn].
  repeat (match goal with |- context [if ?b then _ else _] => destruct b end;
          try (by eexists); try apply Hn).
Qed.

Lemma skip_alnum_length fmt : (length (skip_alnum fmt) <= length fmt)%nat.
Proof. induction fmt as [|c fmt IH]; simpl; [done|]. destruct (isalnum c); simpl; lia. Qed.

Lemma convert_total fuel net fmt st :
  (22 <= fuel)%nat -> Forall is_u32 (pending (args st)) ->
  exists fmt' st', convert fuel net fmt st = Some (fmt', st') /\
    (length fmt' <= length fmt)%nat /\ Forall is_u32 (pending (args st')).
Proof.
  intros Hf Ha. unfold convert.
  pose proof (flags_loop_length fmt 0). destruct (flags_loop fmt 0) as [flags fmt1].
  pose proof (get_width_length fmt1 flags (args st)).
  destruct (get_width fmt1 flags (args st)) as [[[w flags2] fmt2] a2].
  pose proof (get_precision_length fmt2 a2).
  destruct (get_precision fmt2 a2) as [[p fmt3] a3].
  pose proof (get_qualifier_length fmt3). destruct (get_qualifier fmt3) as [q fmt4].
  cbn [fst snd] in *. assert (Ha3 : Forall is_u32 (pending a3)) by tauto.
  assert (Hlen : (length fmt4 <= length fmt)%nat) by lia.
  clear - Hf Ha3 Hlen. pose proof (tl_length fmt4). cbn [args out memory].
  assert (Hint : forall base fl, base = 8 \/ base = 10 \/ base = 16 ->
    exists fmt' st', (let '(num, a) := get_num q fl a3 in
      l ← number fuel num base w p fl;
      Some (tl fmt4, emit (St (out st) a (memory st)) l)) = Some (fmt', st') /\
    (length fmt' <= length fmt)%nat /\ Forall is_u32 (pending (args st'))).
  { intros base fl Hb. destruct (get_num_range q fl a3 Ha3) as [Hn Hp].
    destruct (get_num q fl a3) as [num a]. destruct (number_total fuel num base w p fl) as [l ->];
      [done..|]. do 2 eexists. split; [done|]. split; [lia|done]. }
  pose proof (Forall_tl _ _ Ha3). pose proof (hd_u32 _ Ha3) as Hp.
  unfold va_arg. cbn [pending].
  repeat match goal with |- context [if ?b then _ else _] => destruct b end;
    try (apply Hint; auto); try (do 2 eexists; split; [done|]; cbn; split; [lia|done]).
  - destruct (pointer_total fuel net (memory st) (tl fmt4) (hd 0 (pending a3)) w p flags2 Hp Hf)
      as [l ->]. do 2 eexists. split; [done|]. pose proof (skip_alnum_length (tl fmt4)).
    split; [lia|done].
  - destruct fmt4 as [|c r]; do 2 eexists; (split; [done|]); (split; [simpl in *; lia|done]).
Qed.

Lemma vsprintf_loop_total fuel nfuel net fmt st :
  (length fmt < fuel)%nat -> (22 <= nfuel)%nat -> Forall is_u32 (pending (args st)) ->
  exists st', vsprintf_loop fuel nfuel net fmt st = Some st' /\
    (Forall (fun c => c <> 37) fmt -> out st' = out st ++ fmt /\ memory st' = memory st).
Proof.
  intros Hf Hn. revert fmt st Hf. induction fuel as [|fuel IH]; intros fmt st Hf Ha; [lia|].
  cbn [vsprintf_loop]. destruct fmt as [|c r].
  { exists st. split; [done|]. intros _. by rewrite app_nil_r. }
  simpl in Hf. destruct (Z.eqb_spec c 37) as [->|Hc]; cbn [negb].
  - destruct (convert_total nfuel net r st Hn Ha) as (r' & st1 & -> & Hl & Ha1). cbn.
    destruct (IH r' st1) as (st' & -> & _); [lia|done|]. exists st'. split; [done|].
    intros Hall. by apply Forall_cons in Hall as [Hall _].
  - destruct (IH r (emit st [c])) as (st' & -> & H); [lia|done|]. exists st'. split; [done|].
    intros Hall. apply Forall_cons in Hall as [_ Hall]. destruct (H Hall) as [-> ->].
    cbn. by rewrite <- app_assoc.
Qed.

(** [number] lays out a 64-bit number in base 8, 10 or 16 as its sign,
    its prefix and its digits, at least [precision] of them, in a field of at
    least [size] characters filled on the side the flags ask for; the digits
    are those of positional notation, computed in base 10 without division
    by ten. *)
Theorem number_layout fuel num base size precision type :
  base = 8 \/ base = 10 \/ base = 16 -> is_u64 num -> (22 <= fuel)%nat ->
  number fuel num base size precision type =
  Some (layout (sign_text num type) (prefix_text base type)
          (number_digits base (Z.land type SMALL) (magnitude num type))
          size precision (flag type LEFT) (flag type ZEROPAD)) /\
  value_of base (digits_of 22 base (magnitude num type)) = magnitude num type.
Proof.
  intros Hb Hn Hf. split; [by apply number_eq|].
  pose proof (magnitude_range num type Hn) as Hm.
  apply digits_of_spec; [destruct Hb as [->|[->| ->]]; lia| |lia].
  change (Z.of_nat 22) with 22. split; [lia|]. apply Z.lt_le_trans with (2 ^ 64); [lia|].
  destruct Hb as [->|[->| ->]]; by vm_compute.
Qed.

Example number_layout_witness :
  number 22 (u64 (-42)) 10 8 3 (SIGN + ZEROPAD) = Some [45; 48; 48; 48; 48; 48; 52; 50] /\
  (number 22 (u64 (-42)) 10 8 3 (SIGN + ZEROPAD) =
   Some (layout (sign_text (u64 (-42)) (SIGN + ZEROPAD)) (prefix_text 10 (SIGN + ZEROPAD))
           (number_digits 10 (Z.land (SIGN + ZEROPAD) SMALL) (magnitude (u64 (-42)) (SIGN + ZEROPAD)))
           8 3 (flag (SIGN + ZEROPAD) LEFT) (flag (SIGN + ZEROPAD) ZEROPAD)) /\
   value_of 10 (digits_of 22 10 (magnitude (u64 (-42)) (SIGN + ZEROPAD)))
     = magnitude (u64 (-42)) (SIGN + ZEROPAD)).
Proof.
  split; [vm_compute; reflexivity|].
  apply (number_layout 22 (u64 (-42)) 10 8 3 (SIGN + ZEROPAD)).
  - right. left. reflexivity.
  - unfold is_u64. vm_compute. split; [discriminate|reflexivity].
  - lia.
Defined.

(** The formats of the round trip, with the base to read their output in:
    %lu, %lx, %lX, %lo and the self-describing %#lx, %#lo. *)
Definition unsigned_formats : list (list Z * Z) :=
  [([37; 108; 117], 10); ([37; 108; 120], 16); ([37; 108; 88], 16); ([37; 108; 111], 8);
   ([37; 35; 108; 120], 0); ([37; 35; 108; 111], 0)].

Lemma layout_plain sign pfx digs :
  layout sign pfx digs (-1) (-1) false false = sign ++ pfx ++ digs.
Proof.
  unfold layout. rewrite !replicate_neg by lia. by rewrite app_nil_l.
Qed.

(** One conversion alone in a format string. *)
Lemma vsprintf_one fmt net n m base flags num :
  convert 22 net fmt (St [] (Va [n] 0) m) =
    (l ← number 22 num base (-1) (-1) flags; Some ([], St l (Va [] 1) m)) ->
  base = 8 \/ base = 10 \/ base = 16 -> is_u64 num ->
  flag flags LEFT = false -> flag flags ZEROPAD = false ->
  let l := sign_text num flags ++ prefix_text base flags ++
             number_digits base (Z.land flags SMALL) (magnitude num flags) in
  vsprintf 5 22 net (37 :: fmt) [n] m = Some (l, Z.of_nat (length l), m).
Proof.
  intros Hc Hb Hn Hl Hz l. unfold vsprintf. cbn [vsprintf_loop negb Z.eqb Pos.eqb].
  rewrite Hc, number_eq, Hl, Hz, layout_plain by (done || lia). done.
Qed.

(** C30: printing and parsing are inverse: every 32-bit number printed by
    [vsprintf] with one of these formats is read back by [simple_strtoul]
    (or [simple_strtol] for %ld) to the last character. *)
Theorem vsprintf_strtoul_roundtrip n m net :
  is_u32 n ->
  (forall fmt base, In (fmt, base) unsigned_formats ->
   exists l, vsprintf 5 22 net fmt [n] m = Some (l, Z.of_nat (length l), m) /\
             simple_strtoul l base = (n, [])) /\
  (exists l, vsprintf 5 22 net [37; 108; 100] [n] m = Some (l, Z.of_nat (length l), m) /\
             simple_strtol l 10 = (s32 n, [])).
Proof.
  intros Hn. assert (Hn64 : is_u64 n) by (unfold is_u32, is_u64 in *; lia).
  split.
  - intros fmt base Hin. simpl in Hin.
    destruct Hin as [[= <- <-]|[[= <- <-]|[[= <- <-]|[[= <- <-]|[[= <- <-]|[[= <- <-]|[]]]]]]].
    + eexists. split; [apply (vsprintf_one _ net n m 10 0 n); auto|]. by apply strtoul_number; auto.
    + eexists. split; [apply (vsprintf_one _ net n m 16 SMALL n); auto|]. by apply strtoul_number; auto.
    + eexists. split; [apply (vsprintf_one _ net n m 16 0 n); auto|]. by apply strtoul_number; auto.
    + eexists. split; [apply (vsprintf_one _ net n m 8 0 n); auto|]. by apply strtoul_number; auto.
    + eexists. split; [apply (vsprintf_one _ net n m 16 (SPECIAL + SMALL) n); auto|].
      by apply strtoul_hex_prefix.
    + eexists. split; [apply (vsprintf_one _ net n m 8 SPECIAL n); auto|].
      by apply strtoul_oct_prefix.
  - eexists. split; [apply (vsprintf_one _ net n m 10 SIGN (u64 (s32 n))); auto|].
    + apply Z.mod_pos_bound. lia.
    + by apply strtol_decimal.
Qed.

Example vsprintf_strtoul_roundtrip_witness :
  (forall fmt base, In (fmt, base) unsigned_formats ->
   exists l, vsprintf 5 22 true fmt [0xdeadbeef] (mem_of 0 []) = Some (l, Z.of_nat (length l), mem_of 0 []) /\
             simple_strtoul l base = (0xdeadbeef, [])) /\
  (exists l, vsprintf 5 22 true [37; 108; 100] [0xdeadbeef] (mem_of 0 [])
               = Some (l, Z.of_nat (length l), mem_of 0 []) /\
             simple_strtol l 10 = (s32 0xdeadbeef, [])).
Proof.
  apply (vsprintf_strtoul_roundtrip 0xdeadbeef (mem_of 0 []) true). unfold is_u32. lia.
Defined.

(** [vsprintf] returns for every format string, malformed ones
    included, with the number of characters written; text without
    conversions is copied and the memory left alone. *)
Theorem vsprintf_total fuel nfuel net fmt words m :
  (length fmt < fuel)%nat -> (22 <= nfuel)%nat -> Forall is_u32 words ->
  exists l m', vsprintf fuel nfuel net fmt words m = Some (l, Z.of_nat (length l), m') /\
    (Forall (fun c => c <> 37) fmt -> l = fmt /\ m' = m).
Proof.
  intros Hf Hn Hw. unfold vsprintf.
  destruct (vsprintf_loop_total fuel nfuel net fmt (St [] (Va words 0) m) Hf Hn Hw)
    as (st & -> & H). exists (out st), (memory st). split; [done|exact H].
Qed.

Example vsprintf_total_witness :
  exists l m', vsprintf 7 22 true [104; 37; 100; 37; 113; 37] [7] (mem_of 0 [])
                 = Some (l, Z.of_nat (length l), m') /\
    (Forall (fun c => c <> 37) [104; 37; 100; 37; 113; 37] ->
     l = [104; 37; 100; 37; 113; 37] /\ m' = mem_of 0 []).
Proof.
  apply (vsprintf_total 7 22 true [104; 37; 100; 37; 113; 37] [7] (mem_of 0 [])).
  - simpl. lia.
  - lia.
  - repeat constructor. unfold is_u32. lia.
Defined.
