(* ===== verification/VStorage.v ===== *)
(** * VStorage: infotm/strategy/vstorage/vstorage.c, the virtual storage layer

    The burning and booting code sees every storage device through one
    table, [vs_list], and one current device, [vs_current].  A device is a
    record of driver calls, absent calls being [NULL] pointers ([None]
    here).  The drivers of the NAND, MMC, USB, ... controllers are
    parameters ([drivers]); the RAM disk driver
    (infotm/drivers/ramdisk/ramdisk.c) is modelled in full and is shown to
    meet the contract [BlockDevice] which the proofs about [vs_read] use.

    The state the calls thread is a [world]: the main memory and the state
    of the devices.  [malloc] and [free] (dlmalloc) are parameters. *)

From S2P Require Import Prelude Mem CString.
Local Open Scope Z_scope.

(** ** Strings: the [strncmp(s, t, n) == 0] of the source *)

Definition strncmp_eq (s t : list Z) (n : nat) : bool :=
  bool_decide (take n s = take n t).

(** ASCII names. *)
Definition n_bnd := [98; 110; 100].
Definition n_nnd := [110; 110; 100].
Definition n_fnd := [102; 110; 100].
Definition n_eeprom := [101; 101; 112; 114; 111; 109].
Definition n_flash := [102; 108; 97; 115; 104].
Definition n_hd := [104; 100].
Definition n_mmc (i : Z) := [109; 109; 99; 48 + i].
Definition n_udisk (i : Z) := [117; 100; 105; 115; 107; 48 + i].
Definition n_udc := [117; 100; 99].
Definition n_eth := [101; 116; 104].
Definition n_ram := [114; 97; 109].

(** ** Constants of bootlist.h and vstorage.h *)

Definition DEV_BND := 0x0.
Definition DEV_NAND := 0x1.
Definition DEV_FND := 0x2.
Definition DEV_EEPROM := 0x3.
Definition DEV_FLASH := 0x4.
Definition DEV_HD := 0x5.
Definition DEV_MMC (x : Z) := 0x6 + x.
Definition DEV_UDISK (x : Z) := 0x9 + x.
Definition DEV_UDC := 0xb.
Definition DEV_ETH := 0xc.
Definition DEV_RAM := 0xd.
Definition DEV_CURRENT := 0xe.
Definition DEV_NONE := 0xf.

Definition DEVICE_BOOTABLE := 1.
Definition DEVICE_BURNSRC := 2.
Definition DEVICE_BURNDST := 4.
Definition DEVICE_BOOT0 := 8.
Definition DEVICE_ERASABLE := 16.
Definition DEVICE_ID (x : Z) := Z.shiftl (Z.land x 0xff) 24.

(** [enum vs_options] *)
Inductive vs_option :=
| VS_OPT_ALIGN | VS_OPT_READ | VS_OPT_WRITE | VS_OPT_RESET | VS_OPT_ERASE | VS_OPT_SCRUB
| VS_OPT_OTHER.

(** ** The state and the device table *)

Record world (D : Type) := World { ram : mem; dev : D }.
Arguments World {D}.
Arguments ram {D}.
Arguments dev {D}.

(** [int read(uint8_t *buf, loff_t start, int length, int extra)], and the
    same type for [write]. *)
Definition io_fn (D : Type) := world D -> Z -> Z -> Z -> Z -> world D * Z.
Definition call_fn (D : Type) := world D -> world D * Z.

Record vstorage (D : Type) := VS {
  name : list Z;
  flag : Z;
  align : option (call_fn D);
  read : option (io_fn D);
  write : option (io_fn D);
  reset : option (call_fn D);
  erase : option (world D -> Z -> Z -> world D * Z);
  scrub : option (world D -> Z -> Z -> world D * Z);
  isbad : option (world D -> Z -> world D * Z);
  special : option (world D -> Z -> world D * Z);
  capacity : option (call_fn D)
}.
Arguments VS {D}.
Arguments name {D}. Arguments flag {D}. Arguments align {D}. Arguments read {D}.
Arguments write {D}. Arguments reset {D}. Arguments erase {D}. Arguments scrub {D}.
Arguments isbad {D}. Arguments special {D}. Arguments capacity {D}.

(** The driver functions the table points to, by their prefix in the source
    ([bnd_vs_read] is [d_read drv_bnd]). *)
Inductive drv := d_bnd | d_nnd | d_fnd | d_e2p | d_flash | d_sata | d_mmc (ch : Z)
  | d_udisk (i : Z) | d_udc | d_eth | d_ram.

Record drivers (D : Type) := Drivers {
  vs_align_of : drv -> call_fn D;
  vs_read_of : drv -> io_fn D;
  vs_write_of : drv -> io_fn D;
  vs_reset_of : drv -> call_fn D;
  vs_erase_of : drv -> world D -> Z -> Z -> world D * Z;
  vs_scrub_of : drv -> world D -> Z -> Z -> world D * Z;
  vs_isbad_of : drv -> world D -> Z -> world D * Z;
  vs_capacity_of : drv -> call_fn D;
  (** dlmalloc *)
  malloc : world D -> Z -> world D * Z;
  free : world D -> Z -> world D
}.
Arguments vs_align_of {D}. Arguments vs_read_of {D}. Arguments vs_write_of {D}.
Arguments vs_reset_of {D}. Arguments vs_erase_of {D}. Arguments vs_scrub_of {D}.
Arguments vs_isbad_of {D}. Arguments vs_capacity_of {D}.
Arguments malloc {D}. Arguments free {D}.

Section Layer.
Context {D : Type} (dr : drivers D) (CONFIG_ENABLE_UDISK : bool).
Implicit Type w : world D.
Implicit Type cur : option (vstorage D).

Definition vs_list : list (vstorage D) :=
  let A d := Some (vs_align_of dr d) in
  let R d := Some (vs_read_of dr d) in
  let W d := Some (vs_write_of dr d) in
  let S d := Some (vs_reset_of dr d) in
  let E d := Some (vs_erase_of dr d) in
  let B d := Some (vs_isbad_of dr d) in
  let C d := Some (vs_capacity_of dr d) in
  let udisk i :=
    if CONFIG_ENABLE_UDISK
    then VS (n_udisk i)
           (Z.lor (Z.lor DEVICE_BOOTABLE DEVICE_BURNDST) (DEVICE_ID (DEV_UDISK i)))
           (A (d_udisk i)) (R (d_udisk i)) (W (d_udisk i)) (S (d_udisk i))
           None None None None (C (d_udisk i))
    else VS (n_udisk i) 0 None None None None None None None None None in
  let mmc i :=
    VS (n_mmc i)
       (Z.lor (Z.lor (Z.lor DEVICE_BOOTABLE DEVICE_BURNDST) DEVICE_BURNSRC)
          (DEVICE_ID (DEV_MMC i)))
       (A (d_mmc i)) (R (d_mmc i)) (W (d_mmc i)) (S (d_mmc i))
       None None None None (C (d_mmc i)) in
  [ (* boot nandflash *)
    VS n_bnd
       (Z.lor (Z.lor (Z.lor (Z.lor DEVICE_BOOTABLE DEVICE_BURNDST) DEVICE_BOOT0)
          (DEVICE_ID DEV_BND)) DEVICE_ERASABLE)
       (A d_bnd) (R d_bnd) (W d_bnd) (S d_bnd) (E d_bnd) None (B d_bnd) None None;
    (* normal nandflash *)
    VS n_nnd (Z.lor (Z.lor DEVICE_BURNDST (DEVICE_ID DEV_NAND)) DEVICE_ERASABLE)
       (A d_nnd) (R d_nnd) (W d_nnd) (S d_nnd) (E d_nnd) (Some (vs_scrub_of dr d_nnd))
       (B d_nnd) None None;
    (* normal nandflash *)
    VS n_fnd (Z.lor (Z.lor DEVICE_BURNDST (DEVICE_ID DEV_NAND)) DEVICE_ERASABLE)
       (A d_fnd) (R d_fnd) (W d_fnd) (S d_fnd) (E d_fnd) None (B d_fnd) None None;
    (* eeprom *)
    VS n_eeprom
       (Z.lor (Z.lor (Z.lor DEVICE_BOOTABLE DEVICE_BURNDST) DEVICE_BOOT0)
          (DEVICE_ID DEV_EEPROM))
       (A d_e2p) (R d_e2p) (W d_e2p) (S d_e2p) None None None None None;
    (* spi flash *)
    VS n_flash
       (Z.lor (Z.lor (Z.lor (Z.lor DEVICE_BOOTABLE DEVICE_BURNDST) DEVICE_BOOT0)
          (DEVICE_ID DEV_FLASH)) DEVICE_ERASABLE)
       (A d_flash) (R d_flash) (W d_flash) (S d_flash) (E d_flash) None None None None;
    (* sata2 hard disk *)
    VS n_hd (Z.lor (Z.lor DEVICE_BOOTABLE DEVICE_BURNDST) (DEVICE_ID DEV_HD))
       (A d_sata) (R d_sata) (W d_sata) (S d_sata) None None None None None;
    (* mmc channels *)
    mmc 0; mmc 1; mmc 2;
    (* u disk *)
    udisk 0; udisk 1;
    (* udc *)
    VS n_udc (DEVICE_ID DEV_UDC) (A d_udc) None None (S d_udc) None None None None None;
    (* ethernet *)
    VS n_eth (DEVICE_ID DEV_ETH) (A d_eth) None None (S d_eth) None None None None None;
    (* ram *)
    VS n_ram (DEVICE_ID DEV_RAM)
       (A d_ram) (R d_ram) (W d_ram) (S d_ram) None None None None None ].

Definition ARRAY_SIZE_vs_list : Z := Z.of_nat (length vs_list).

Definition id_valid (id : Z) : bool := (0 <=? id) && (id <? ARRAY_SIZE_vs_list).

(** [&vs_list[id]], for a valid [id]. *)
Definition entry (id : Z) : option (vstorage D) := vs_list !! Z.to_nat id.

(** The device [id] stands for: a table entry, or the current one. *)
Definition vs_is_device (cur : option (vstorage D)) (id : Z) (nm : list Z) : Z :=
  let p := if id =? DEV_CURRENT then cur
           else if id_valid id then entry id else None in
  match p with
  | Some p => b2z (strncmp_eq nm (name p) 16)
  | None => 0
  end.

Definition vs_is_assigned (cur : option (vstorage D)) : Z := b2z (bool_decide (is_Some cur)).

Definition vs_is_opt_available (cur : option (vstorage D)) (id : Z) (opt : vs_option) : Z :=
  let p := if id_valid id then entry id else cur in
  match p with
  | None => 0
  | Some p =>
      match opt with
      | VS_OPT_ALIGN => b2z (bool_decide (is_Some (align p)))
      | VS_OPT_READ => b2z (bool_decide (is_Some (read p)))
      | VS_OPT_WRITE => b2z (bool_decide (is_Some (write p)))
      | VS_OPT_RESET => b2z (bool_decide (is_Some (reset p)))
      | VS_OPT_ERASE => b2z (bool_decide (is_Some (erase p)))
      | VS_OPT_SCRUB => b2z (bool_decide (is_Some (scrub p)))
      | VS_OPT_OTHER => 0
      end
  end.

Definition vs_reset (cur : option (vstorage D)) (w : world D) : world D * Z :=
  match cur with
  | Some p => match reset p with Some f => f w | None => (w, -3) end
  | None => (w, -2)
  end.

Definition vs_align (cur : option (vstorage D)) (w : world D) (id : Z) : world D * Z :=
  let p := if id_valid id then entry id
           else if id =? DEV_CURRENT then cur else None in
  match p with
  | Some p => match align p with Some f => f w | None => (w, 0) end
  | None => (w, 0)
  end.

Definition vs_capacity (cur : option (vstorage D)) (w : world D) (id : Z) : world D * Z :=
  let p := if id_valid id then entry id
           else if id =? DEV_CURRENT then cur else None in
  match p with
  | Some p => match capacity p with Some f => f w | None => (w, 0) end
  | None => (w, 0)
  end.

(** The end of a stage of [vs_read]: go on, or [goto __read_end__]. *)
Inductive stage := Next (w : world D) (rd : Z) | End (w : world D) (rd : Z).

(** The unaligned head: read its block into [tmp], copy the tail of it. *)
Definition first_block (rd : io_fn D) (w : world D)
    (tmp buf start align mask prelen extra : Z) : stage :=
  if prelen =? 0 then Next w 0 else
  let '(w, ret) := rd w tmp (Z.land start mask) (s32 align) extra in
  if ret <? 0 then End w ret else
  Next (World (memcpy (ram w) buf (tmp + align - prelen) prelen) (dev w)) (s32 (0 + ret)).

(** The whole blocks in between, read in place. *)
Definition middle_blocks (rd : io_fn D) (s : stage) (buf start length extra : Z) : stage :=
  match s with
  | End w read => End w read
  | Next w read =>
      if length =? 0 then Next w read else
      let '(w, ret) := rd w buf start length extra in
      if ret <? 0 then End w ret else Next w (s32 (read + ret))
  end.

(** The unaligned tail: read its block into [tmp], copy the head of it. *)
Definition last_block (rd : io_fn D) (s : stage) (tmp buf start align postlen extra : Z) : stage :=
  match s with
  | End w read => End w read
  | Next w read =>
      if postlen =? 0 then Next w read else
      let '(w, ret) := rd w tmp start (s32 align) extra in
      if ret <? 0 then End w ret else
      Next (World (memcpy (ram w) buf tmp postlen) (dev w)) (s32 (read + ret))
  end.

(** The body of [vs_read] from the computation of [prelen] on, with the
    driver's [read] and the [align] it reported; [None] is the [panic]. *)
Definition vs_read_split (rd : io_fn D) (w : world D) (buf start length align extra : Z)
    : option (world D * Z) :=
  let mask := u32 (Z.lnot (u32 (align - 1))) in
  let prelen := u32 (Z.land start (u32 (align - 1))) in
  let prelen := if prelen =? 0 then prelen else u32 (align - prelen) in
  let postlen := Z.land (u32 (length - prelen)) (u32 (align - 1)) in
  let buffered := negb ((prelen =? 0) && (postlen =? 0)) in
  let '(w, tmp) := if buffered then malloc dr w align else (w, NULL) in
  if buffered && (tmp =? NULL) then None else
  let s := first_block rd w tmp buf start align mask prelen extra in
  let buf := buf + prelen in
  let start := s64 (start + prelen) in
  let length := s32 (length - prelen) in
  let length := s32 (length - postlen) in
  let s := middle_blocks rd s buf start length extra in
  let buf := buf + length in
  let start := s64 (start + length) in
  match last_block rd s tmp buf start align postlen extra with
  | Next w read | End w read => Some (if buffered then free dr w tmp else w, read)
  end.

Definition vs_read (cur : option (vstorage D)) (w : world D) (buf start length extra : Z)
    : option (world D * Z) :=
  match cur with
  | None => Some (w, -2)
  | Some p =>
    match read p with
    | None => Some (w, -3)
    | Some rd =>
      if length =? 0 then Some (w, 0) else
      (* pass fnd request directly to lower layer *)
      if strncmp_eq (name p) n_fnd 3 then Some (rd w buf start length extra) else
      let '(w, a) := vs_align cur w DEV_CURRENT in
      let align := u32 a in
      let length :=
        if strncmp_eq (name p) n_nnd 3
        then s32 (Z.land (u32 (length + u32 (align - 1))) (u32 (Z.lnot (u32 (align - 1)))))
        else length in
      vs_read_split rd w buf start length align extra
    end
  end.

Definition vs_write (cur : option (vstorage D)) (w : world D) (buf start length extra : Z)
    : world D * Z :=
  if length =? 0 then (w, 0) else
  match cur with
  | Some p => match write p with Some f => f w buf start length extra | None => (w, -3) end
  | None => (w, -2)
  end.

Definition vs_erase (cur : option (vstorage D)) (w : world D) (start len : Z) : world D * Z :=
  match cur with
  | Some p => match erase p with Some f => f w start len | None => (w, -3) end
  | None => (w, -2)
  end.

Definition vs_isbad (cur : option (vstorage D)) (w : world D) (start : Z) : world D * Z :=
  match cur with
  | Some p => match isbad p with Some f => f w start | None => (w, -3) end
  | None => (w, -2)
  end.

Definition vs_scrub (cur : option (vstorage D)) (w : world D) (start len : Z) : world D * Z :=
  match cur with
  | Some p => match scrub p with Some f => f w start len | None => (w, -3) end
  | None => (w, -2)
  end.

Definition vs_special (cur : option (vstorage D)) (w : world D) (arg : Z) : world D * Z :=
  match cur with
  | Some p => match special p with Some f => f w arg | None => (w, -3) end
  | None => (w, -2)
  end.

(** The assignments return the new [vs_current] too. *)
Fixpoint assign_loop (l : list (vstorage D)) (w : world D) (nm : list Z) (rst : Z)
    : option (vstorage D) * world D * Z :=
  match l with
  | [] => (None, w, -1)
  | p :: l =>
      if strncmp_eq (name p) nm 16
      then let '(w, r) := if rst =? 0 then (w, 0) else vs_reset (Some p) w in
           (Some p, w, r)
      else assign_loop l w nm rst
  end.

Definition vs_assign_by_name (w : world D) (nm : list Z) (rst : Z)
    : option (vstorage D) * world D * Z :=
  assign_loop vs_list w nm rst.

Definition vs_assign_by_id (w : world D) (id rst : Z) : option (vstorage D) * world D * Z :=
  if id_valid id
  then let p := entry id in
       let '(w, r) := if rst =? 0 then (w, 0) else vs_reset p w in
       (p, w, r)
  else (None, w, -1).

Fixpoint device_id_loop (l : list (vstorage D)) (i : Z) (nm : list Z) : Z :=
  match l with
  | [] => DEV_NONE
  | p :: l => if strncmp_eq nm (name p) 16 then i else device_id_loop l (i + 1) nm
  end.

Definition vs_device_id (nm : list Z) : Z := device_id_loop vs_list 0 nm.

Definition vs_flag (mask id : Z) : Z :=
  if id_valid id then
    match entry id with
    | Some p => b2z (negb (Z.land (flag p) mask =? 0))
    | None => 0
    end
  else 0.

Definition vs_device_bootable := vs_flag DEVICE_BOOTABLE.
Definition vs_device_burnsrc := vs_flag DEVICE_BURNSRC.
Definition vs_device_burndst := vs_flag DEVICE_BURNDST.
Definition vs_device_boot0 := vs_flag DEVICE_BOOT0.
Definition vs_device_erasable := vs_flag DEVICE_ERASABLE.

Definition vs_device_name (id : Z) : option (list Z) :=
  if id_valid id then name <$> entry id else None.

Definition vs_device_count : Z := ARRAY_SIZE_vs_list.

End Layer.

(** ** The RAM disk, infotm/drivers/ramdisk/ramdisk.c *)

Definition DRAM_BASE_PA := 0x80000000.
Definition IUS_DEFAULT_LOCATION := 0x1000000.

(** The address an offset of the RAM disk is at. *)
Definition ram_addr (offs : Z) : Z :=
  u32 (u32 (Z.land offs 0xffffffff + DRAM_BASE_PA) - IUS_DEFAULT_LOCATION).

Definition ram_vs_read {D} (w : world D) (buf offs len extra : Z) : world D * Z :=
  if offs <? IUS_DEFAULT_LOCATION then (w, 0)
  else (World (memcpy (ram w) buf (ram_addr offs) len) (dev w), len).

Definition ram_vs_write {D} (w : world D) (buf offs len extra : Z) : world D * Z :=
  if offs <? IUS_DEFAULT_LOCATION then (w, 0)
  else (World (memcpy (ram w) (ram_addr offs) buf len) (dev w), len).

Definition ram_vs_align {D} (w : world D) : world D * Z := (w, 0x200).
Definition ram_vs_reset {D} (w : world D) : world D * Z := (w, 0).

(** ** The contracts: a heap, and a block device *)

Section Contract.
Context {D : Type}.

(** [disk] shows the contents of the device, as offsets to bytes; the part
    [lo, hi) of it is what the driver serves, in blocks of [2 ^ k] bytes.
    [apart p n] says that the [n] bytes of memory at [p] hold no state of
    the device. *)
Class BlockDevice (rd : io_fn D) (disk : world D -> mem) (apart : Z -> Z -> Prop)
    (k lo hi : Z) : Prop := {
  bd_align : 0 <= k <= 20;
  bd_range : 0 <= lo /\ hi < 2 ^ 63;
  bd_sub p n q m : apart p n -> p <= q -> 0 <= m -> q + m <= p + n -> apart q m;
  bd_frame w w' p n x :
    apart p n -> same_except (ram w) (ram w') p (Z.to_nat n) -> dev w' = dev w ->
    lo <= x < hi -> disk w' x = disk w x;
  bd_read w buf start len extra :
    start mod 2 ^ k = 0 -> len mod 2 ^ k = 0 -> 0 < len < 2 ^ 31 ->
    lo <= start -> start + len <= hi -> apart buf len ->
    exists w' r, rd w buf start len extra = (w', r) /\ 0 <= r <= len /\
      bytes_at (ram w') buf (Z.to_nat len) = bytes_at (disk w) start (Z.to_nat len) /\
      same_except (ram w) (ram w') buf (Z.to_nat len) /\
      (forall x, lo <= x < hi -> disk w' x = disk w x)
}.

(** The allocator keeps its books and hands out blocks inside the [hn] bytes
    at [h]. *)
Class Heap (dr : drivers D) (h hn : Z) : Prop := {
  heap_size : 0 <= hn;
  heap_malloc w n w' p :
    0 < n <= 2 ^ 20 -> malloc dr w n = (w', p) ->
    p <> NULL /\ h <= p /\ p + n <= h + hn /\
    same_except (ram w) (ram w') h (Z.to_nat hn) /\ dev w' = dev w;
  heap_free w p :
    same_except (ram w) (ram (free dr w p)) h (Z.to_nat hn) /\ dev (free dr w p) = dev w
}.

End Contract.

(** ** [vs_read] on a block device *)

Section Read.
Context {D : Type} (dr : drivers D) (rd : io_fn D) (disk : world D -> mem).
Context (apart : Z -> Z -> Prop) (k lo hi h hn : Z).
Context `{BD : !BlockDevice rd disk apart k lo hi} `{HP : !Heap dr h hn}.
Context (heap_apart : apart h hn).
Implicit Type w : world D.

(** Only the [n] bytes at [p] and the heap may differ; the disk does not. *)
Record touch w w' (p n : Z) : Prop := {
  touch_ram q : ~ p <= q < p + n -> ~ h <= q < h + hn -> ram w' q = ram w q;
  touch_disk x : lo <= x < hi -> disk w' x = disk w x
}.

Lemma touch_refl w p n : touch w w p n.
Proof. by split. Qed.

Lemma touch_trans w w1 w2 p n p1 n1 p2 n2 :
  touch w w1 p1 n1 -> touch w1 w2 p2 n2 ->
  p <= p1 -> p1 + n1 <= p + n -> p <= p2 -> p2 + n2 <= p + n -> touch w w2 p n.
Proof.
  intros [R1 D1] [R2 D2] ????. split.
  - intros q Hq Hh. rewrite R2, R1 by lia. done.
  - intros x Hx. by rewrite D2, D1.
Qed.

(** Bytes outside what was touched. *)
Lemma touch_bytes w w' p n q m :
  touch w w' p n -> q + m <= p \/ p + n <= q -> q + m <= h \/ h + hn <= q -> 0 <= m ->
  bytes_at (ram w') q (Z.to_nat m) = bytes_at (ram w) q (Z.to_nat m).
Proof. intros [R _] ???. apply bytes_at_ext. intros r Hr. apply R; lia. Qed.

Lemma touch_disk_bytes w w' p n x m :
  touch w w' p n -> lo <= x -> x + m <= hi ->
  bytes_at (disk w') x (Z.to_nat m) = bytes_at (disk w) x (Z.to_nat m).
Proof. intros [_ T] ??. apply bytes_at_ext. intros y Hy. apply T. lia. Qed.

Lemma touch_heap w w' p n :
  same_except (ram w) (ram w') h (Z.to_nat hn) -> dev w' = dev w -> touch w w' p n.
Proof.
  intros R Dv. pose proof heap_size. split.
  - intros q _ Hh. apply R. lia.
  - intros x Hx. by eapply bd_frame.
Qed.

(** A read in place. *)
Lemma direct_spec w buf start len extra :
  start mod 2 ^ k = 0 -> len mod 2 ^ k = 0 -> 0 < len < 2 ^ 31 ->
  lo <= start -> start + len <= hi -> apart buf len ->
  exists w' r, rd w buf start len extra = (w', r) /\ 0 <= r <= len /\
    bytes_at (ram w') buf (Z.to_nat len) = bytes_at (disk w) start (Z.to_nat len) /\
    touch w w' buf len.
Proof.
  intros. destruct (bd_read w buf start len extra) as (w' & r & E & Hr & B & S & V); [done..|].
  exists w', r. split_and!; [done|lia|lia|done|]. split; [|done].
  intros q Hq _. apply S. lia.
Qed.

(** A read of one block through [tmp]: [n] bytes from offset [off] of it. *)
Lemma bounce_spec w tmp buf start off n extra :
  start mod 2 ^ k = 0 -> lo <= start -> start + 2 ^ k <= hi ->
  h <= tmp -> tmp + 2 ^ k <= h + hn -> apart buf n -> 0 <= off -> 0 <= n ->
  off + n <= 2 ^ k -> buf + n <= h \/ h + hn <= buf ->
  exists w1 r, rd w tmp start (s32 (2 ^ k)) extra = (w1, r) /\ 0 <= r <= 2 ^ k /\
    let w2 := World (memcpy (ram w1) buf (tmp + off) n) (dev w1) in
    bytes_at (ram w2) buf (Z.to_nat n) = bytes_at (disk w) (start + off) (Z.to_nat n) /\
    touch w w2 buf n.
Proof.
  intros. pose proof bd_align as Ha. pose proof heap_size.
  assert (0 < 2 ^ k <= 2 ^ 20) by (split; [|apply Z.pow_le_mono_r]; lia).
  rewrite s32_small by lia.
  assert (apart tmp (2 ^ k)) by (eapply (bd_sub h hn); [done|lia..]).
  destruct (bd_read w tmp start (2 ^ k) extra) as (w1 & r & E & Hr & B & S & V);
    [done|by apply Z.mod_same; lia|lia..|done|].
  exists w1, r. split_and!; [done|lia|lia|].
  destruct (memcpy_moved (ram w1) buf (tmp + off) n) as [Mb Ms];
    [unfold is_u32; lia|lia|].
  cbn [ram]. split.
  - rewrite Mb. apply bytes_at_eq_iff. intros i Hi.
    pose proof (proj1 (bytes_at_eq_iff _ _ _ _ _) B (off + i) ltac:(lia)) as E'.
    by rewrite !Z.add_assoc in E'.
  - split; cbn [ram].
    + intros q Hq Hh. rewrite Ms, S by lia. done.
    + intros x Hx. rewrite <- V by done.
      by apply (bd_frame _ _ buf n).
Qed.

(** The block arithmetic of [vs_read]. *)
Lemma land_mask x : 0 <= k <= 20 -> Z.land x (u32 (2 ^ k - 1)) = x mod 2 ^ k.
Proof.
  intros. assert (0 < 2 ^ k <= 2 ^ 20) by (split; [|apply Z.pow_le_mono_r]; lia).
  rewrite u32_small by lia. rewrite <- Z.land_ones by lia. f_equal.
  rewrite Z.ones_equiv. lia.
Qed.

Lemma mod_mod_pow x : 0 <= k <= 20 -> (x mod 2 ^ 32) mod 2 ^ k = x mod 2 ^ k.
Proof.
  intros. replace (2 ^ 32) with (2 ^ k * 2 ^ (32 - k)) by (rewrite <- Z.pow_add_r; [f_equal|..]; lia).
  rewrite Z.rem_mul_r by lia. rewrite Z.mul_comm, Z.mod_add by lia. by rewrite Z.mod_mod by lia.
Qed.

(** The mask is a 32-bit word: it clears the upper half of an offset too. *)
Lemma block_start x :
  0 <= k <= 20 -> 0 <= x ->
  Z.land x (u32 (Z.lnot (u32 (2 ^ k - 1)))) = u32 x - x mod 2 ^ k.
Proof.
  intros. rewrite <- (mod_mod_pow x) by lia. change (x mod 2 ^ 32) with (u32 x).
  rewrite <- (align_mask k (u32 x)); [|lia|apply u32_range].
  rewrite <- (land_u32 x), <- Z.land_assoc. f_equal.
  rewrite Z.land_comm, land_u32. by rewrite u32_u32.
Qed.

(** The parts a request splits into: head, whole blocks, tail. *)
Definition head_len (start : Z) : Z :=
  if start mod 2 ^ k =? 0 then 0 else 2 ^ k - start mod 2 ^ k.
Definition tail_len (start length : Z) : Z := (length - head_len start) mod 2 ^ k.
Definition body_len (start length : Z) : Z :=
  length - head_len start - tail_len start length.

Lemma pow_k : 0 < 2 ^ k <= 2 ^ 20.
Proof. pose proof bd_align. split; [|apply Z.pow_le_mono_r]; lia. Qed.

Lemma head_len_range start : 0 <= head_len start < 2 ^ k.
Proof.
  pose proof pow_k. pose proof (Z.mod_pos_bound start (2 ^ k)). unfold head_len.
  case_match; lia.
Qed.

Lemma head_len_aligned start : (start + head_len start) mod 2 ^ k = 0.
Proof.
  pose proof pow_k. unfold head_len. destruct (Z.eqb_spec (start mod 2 ^ k) 0) as [E|E].
  - by rewrite Z.add_0_r.
  - replace (start + _) with ((start / 2 ^ k + 1) * 2 ^ k).
    + apply Z.mod_mul. lia.
    + pose proof (Z.div_mod start (2 ^ k)). lia.
Qed.

Lemma tail_len_range start length : 0 <= tail_len start length < 2 ^ k.
Proof. pose proof pow_k. apply Z.mod_pos_bound. lia. Qed.

Lemma body_len_aligned start length :
  head_len start <= length ->
  body_len start length mod 2 ^ k = 0 /\ 0 <= body_len start length.
Proof.
  intros. pose proof pow_k. unfold body_len, tail_len.
  pose proof (Z.div_mod (length - head_len start) (2 ^ k)).
  replace (length - head_len start - (length - head_len start) mod 2 ^ k)
    with ((length - head_len start) / 2 ^ k * 2 ^ k) by lia.
  split; [apply Z.mod_mul; lia|].
  pose proof (Z.div_pos (length - head_len start) (2 ^ k)). nia.
Qed.

(** *** The three stages *)

Section Stages.
Context (w : world D) (tmp buf start length extra : Z).
Context (Hstart : 0 <= start) (Hlen : 0 < length) (Hsum : length + 2 * 2 ^ k < 2 ^ 31).
Context (Hhead : head_len start <= length).
Context (Hlo : lo <= (if head_len start =? 0 then start else u32 start - start mod 2 ^ k)).
Context (Hhi : start + head_len start + body_len start length +
               (if tail_len start length =? 0 then 0 else 2 ^ k) <= hi).
Context (Hbuf : apart buf length) (Hdisj : buf + length <= h \/ h + hn <= buf).
Context (Htmp : head_len start = 0 /\ tail_len start length = 0 \/
                h <= tmp /\ tmp + 2 ^ k <= h + hn).

Lemma stage_bounds :
  0 < 2 ^ k <= 2 ^ 20 /\ 0 <= head_len start < 2 ^ k /\ 0 <= tail_len start length < 2 ^ k /\
  0 <= body_len start length /\
  length = head_len start + body_len start length + tail_len start length /\
  start + head_len start + body_len start length <= hi.
Proof.
  assert (start + head_len start + body_len start length <= hi).
  { clear Hlo. revert Hhi. pose proof pow_k. case_match; lia. }
  pose proof pow_k. pose proof (head_len_range start). pose proof (tail_len_range start length).
  pose proof (body_len_aligned start length Hhead). unfold body_len in *. lia.
Qed.

Lemma first_spec :
  exists w1 r, first_block rd w tmp buf start (2 ^ k) (u32 (Z.lnot (u32 (2 ^ k - 1))))
      (head_len start) extra = Next w1 r /\ 0 <= r <= 2 ^ k /\
    bytes_at (ram w1) buf (Z.to_nat (head_len start)) =
      bytes_at (disk w) (u32 start) (Z.to_nat (head_len start)) /\
    touch w w1 buf (head_len start).
Proof.
  pose proof stage_bounds. pose proof bd_align. unfold first_block.
  destruct (Z.eqb_spec (head_len start) 0) as [E|E].
  { rewrite E. exists w, 0. split_and!; [done|lia|lia|done|apply touch_refl]. }
  assert (E' : start mod 2 ^ k = 2 ^ k - head_len start).
  { revert E. unfold head_len. destruct (Z.eqb_spec (start mod 2 ^ k) 0); lia. }
  rewrite block_start by lia.
  pose proof (u32_range start). assert (u32 start <= start).
  { unfold u32. apply Z.mod_le; lia. }
  pose proof (mod_mod_pow start ltac:(lia)) as Em. fold (u32 start) in Em.
  destruct (bounce_spec w tmp buf (u32 start - start mod 2 ^ k) (2 ^ k - head_len start)
              (head_len start) extra) as (w1 & r & Er & Hr & B & T); try lia.
  { rewrite Zminus_mod, Em, Z.mod_mod, Z.sub_diag by lia. by apply Z.mod_0_l; lia. }
  { apply (bd_sub buf length); [exact Hbuf|lia..]. }
  rewrite Er. rewrite (proj2 (Z.ltb_ge r 0)) by lia.
  eexists _, r. rewrite s32_small by lia. rewrite Z.add_0_l.
  replace (tmp + 2 ^ k - head_len start) with (tmp + (2 ^ k - head_len start)) by lia.
  split_and!; [done|lia|lia| |exact T].
  rewrite B. f_equal. lia.
Qed.

Lemma middle_spec w1 r1 :
  touch w w1 buf (head_len start) -> 0 <= r1 <= 2 ^ k ->
  exists w2 r, middle_blocks rd (Next w1 r1) (buf + head_len start) (start + head_len start)
      (body_len start length) extra = Next w2 r /\ 0 <= r <= r1 + body_len start length /\
    bytes_at (ram w2) (buf + head_len start) (Z.to_nat (body_len start length)) =
      bytes_at (disk w) (start + head_len start) (Z.to_nat (body_len start length)) /\
    touch w1 w2 (buf + head_len start) (body_len start length).
Proof.
  intros T Hr1. pose proof stage_bounds. pose proof bd_align. unfold middle_blocks.
  destruct (Z.eqb_spec (body_len start length) 0) as [E|E].
  { rewrite E. exists w1, r1. split_and!; [done|lia|lia|done|apply touch_refl]. }
  assert (lo <= start + head_len start).
  { clear Hhi. revert Hlo. case_match; [lia|]. unfold u32. pose proof (Z.mod_le start (2 ^ 32)).
    pose proof (Z.mod_pos_bound start (2 ^ k)). lia. }
  assert (start + head_len start + body_len start length <= hi)
    by (clear Hlo; revert Hhi; case_match; lia).
  destruct (direct_spec w1 (buf + head_len start) (start + head_len start)
              (body_len start length) extra) as (w2 & r & Er & Hr & B & T2); try lia.
  { apply head_len_aligned. }
  { by apply body_len_aligned. }
  { apply (bd_sub buf length); [exact Hbuf|lia..]. }
  rewrite Er. rewrite (proj2 (Z.ltb_ge r 0)) by lia.
  eexists _, _. rewrite s32_small by lia. split_and!; [done|lia|lia| |done].
  rewrite B. eapply touch_disk_bytes; [done|lia..].
Qed.

Lemma last_spec w2 r2 :
  touch w w2 buf (head_len start + body_len start length) ->
  0 <= r2 <= 2 ^ k + body_len start length ->
  exists w3 r, last_block rd (Next w2 r2) tmp (buf + head_len start + body_len start length)
      (start + head_len start + body_len start length) (2 ^ k) (tail_len start length) extra
      = Next w3 r /\ 0 <= r <= r2 + 2 ^ k /\
    bytes_at (ram w3) (buf + head_len start + body_len start length)
        (Z.to_nat (tail_len start length)) =
      bytes_at (disk w) (start + head_len start + body_len start length)
        (Z.to_nat (tail_len start length)) /\
    touch w2 w3 (buf + head_len start + body_len start length) (tail_len start length).
Proof.
  intros T Hr2. pose proof stage_bounds. unfold last_block.
  destruct (Z.eqb_spec (tail_len start length) 0) as [E|E].
  { rewrite E. exists w2, r2. split_and!; [done|lia|lia|done|apply touch_refl]. }
  assert (lo <= start + head_len start).
  { revert Hlo. case_match; [lia|]. unfold u32. pose proof (Z.mod_le start (2 ^ 32)).
    pose proof (Z.mod_pos_bound start (2 ^ k)). lia. }
  destruct (bounce_spec w2 tmp (buf + head_len start + body_len start length)
              (start + head_len start + body_len start length) 0 (tail_len start length) extra)
    as (w3 & r & Er & Hr & B & T2); try lia.
  { rewrite Z.add_mod, head_len_aligned by lia.
    by rewrite (proj1 (body_len_aligned start length Hhead)), Z.mod_0_l by lia. }
  { apply (bd_sub buf length); [exact Hbuf|lia..]. }
  rewrite Er. rewrite (proj2 (Z.ltb_ge r 0)) by lia.
  rewrite !Z.add_0_r in *.
  eexists _, _. rewrite s32_small by lia. split_and!; [done|lia|lia| |exact T2].
  rewrite B. eapply touch_disk_bytes; [done|lia..].
Qed.

(** The three stages leave the whole request in [buf]. *)
Lemma stages_spec :
  exists w3 r,
    last_block rd
      (middle_blocks rd
        (first_block rd w tmp buf start (2 ^ k) (u32 (Z.lnot (u32 (2 ^ k - 1))))
           (head_len start) extra)
        (buf + head_len start) (start + head_len start) (body_len start length) extra)
      tmp (buf + head_len start + body_len start length)
      (start + head_len start + body_len start length) (2 ^ k) (tail_len start length) extra
      = Next w3 r /\ 0 <= r /\ touch w w3 buf length /\
    bytes_at (ram w3) buf (Z.to_nat length) =
      bytes_at (disk w) (u32 start) (Z.to_nat (head_len start)) ++
      bytes_at (disk w) (start + head_len start) (Z.to_nat (length - head_len start)).
Proof.
  pose proof stage_bounds.
  destruct first_spec as (w1 & r1 & E1 & Hr1 & B1 & T1).
  destruct (middle_spec w1 r1 T1 ltac:(lia)) as (w2 & r2 & E2 & Hr2 & B2 & T2).
  assert (touch w w2 buf (head_len start + body_len start length)) as T12
    by (eapply touch_trans; [exact T1|exact T2|lia..]).
  destruct (last_spec w2 r2 T12 ltac:(lia)) as (w3 & r3 & E3 & Hr3 & B3 & T3).
  exists w3, r3. rewrite E1, E2, E3. split_and!; [done|lia| |].
  { eapply touch_trans; [exact T12|exact T3|lia..]. }
  replace (Z.to_nat length) with (Z.to_nat (head_len start) +
    (Z.to_nat (body_len start length) + Z.to_nat (tail_len start length)))%nat by lia.
  replace (Z.to_nat (length - head_len start)) with
    (Z.to_nat (body_len start length) + Z.to_nat (tail_len start length))%nat by lia.
  rewrite !bytes_at_app, !Z2Nat.id by lia. rewrite B3. f_equal; [|f_equal].
  - rewrite (touch_bytes _ _ _ _ _ _ T3), (touch_bytes _ _ _ _ _ _ T2) by lia. done.
  - rewrite (touch_bytes _ _ _ _ _ _ T3) by lia. done.
Qed.

End Stages.

(** The request is served in blocks that lie on the device, and [buf] is
    clear of the heap and of the device's own memory. *)
Record request (buf start length : Z) : Prop := {
  rq_start : 0 <= start;
  rq_len : 0 < length;
  rq_sum : length + 2 * 2 ^ k < 2 ^ 31;
  rq_head : head_len start <= length;
  rq_lo : lo <= (if head_len start =? 0 then start else u32 start - start mod 2 ^ k);
  rq_hi : start + head_len start + body_len start length +
          (if tail_len start length =? 0 then 0 else 2 ^ k) <= hi;
  rq_buf : apart buf length;
  rq_heap : buf + length <= h \/ h + hn <= buf
}.

(** What a read left: the bytes [l] in the buffer, nothing else changed. *)
Definition served (w : world D) (buf : Z) (l : list Z) (res : option (world D * Z)) : Prop :=
  exists w' r, res = Some (w', r) /\ 0 <= r /\
    bytes_at (ram w') buf (length l) = l /\ touch w w' buf (Z.of_nat (length l)).

Lemma prelen_eq start :
  let p := u32 (Z.land start (u32 (2 ^ k - 1))) in
  (if p =? 0 then p else u32 (2 ^ k - p)) = head_len start.
Proof.
  pose proof bd_align. pose proof pow_k. pose proof (Z.mod_pos_bound start (2 ^ k)).
  cbn zeta. rewrite land_mask by lia. rewrite u32_small by lia. unfold head_len.
  destruct (Z.eqb_spec (start mod 2 ^ k) 0); [done|]. apply u32_small. lia.
Qed.

Lemma postlen_eq start length :
  Z.land (u32 (length - head_len start)) (u32 (2 ^ k - 1)) = tail_len start length.
Proof.
  pose proof bd_align. rewrite land_mask by lia. unfold u32. by apply mod_mod_pow.
Qed.

Lemma touch_same w w' w'' p n :
  touch w w' p n -> touch w' w'' p 0 -> 0 <= n -> touch w w'' p n.
Proof. intros. eapply touch_trans; [done|done|lia..]. Qed.

Lemma vs_read_split_spec w buf start length extra :
  request buf start length ->
  served w buf
    (bytes_at (disk w) (u32 start) (Z.to_nat (head_len start)) ++
     bytes_at (disk w) (start + head_len start) (Z.to_nat (length - head_len start)))
    (vs_read_split dr rd w buf start length (2 ^ k) extra).
Proof.
  intros [Hst Hl Hs Hh Hlo Hhi Hb Hd]. pose proof bd_range.
  pose proof (stage_bounds start length Hh Hhi) as SB.
  assert (start + length <= hi) by (clear Hlo; revert Hhi; case_match; lia).
  unfold vs_read_split, served.
  rewrite length_app, !length_bytes_at, <- Z2Nat.inj_add, Z2Nat.id by lia.
  replace (head_len start + (length - head_len start)) with length by lia.
  rewrite prelen_eq, postlen_eq.
  rewrite (s64_small (start + head_len start)), (s32_small (length - head_len start)),
    (s32_small (length - head_len start - tail_len start length)) by lia.
  change (length - head_len start - tail_len start length) with (body_len start length).
  rewrite s64_small by lia.
  destruct ((head_len start =? 0) && (tail_len start length =? 0)) eqn:Eb; cbn [negb andb].
  - destruct (stages_spec w NULL buf start length extra) as (w3 & r & E & ? & T & B);
      try first [done|lia].
    rewrite E. by exists w3, r.
  - destruct (malloc dr w (2 ^ k)) as [w0 tmp] eqn:Em.
    apply heap_malloc in Em as (Hnn & ? & ? & Hm & Hd0); [|lia].
    rewrite (proj2 (Z.eqb_neq tmp NULL) Hnn).
    pose proof (touch_heap w w0 buf 0 Hm Hd0) as T0.
    destruct (stages_spec w0 tmp buf start length extra) as (w3 & r & E & ? & T & B);
      try first [done|lia].
    rewrite E. exists (free dr w3 tmp), r.
    destruct (heap_free w3 tmp) as [Hf Hd3]. pose proof (touch_heap _ _ buf 0 Hf Hd3) as T3.
    split_and!; [done|done| |].
    + rewrite (touch_bytes _ _ _ _ _ _ T3) by lia. rewrite B.
      pose proof (Z.mod_le start (2 ^ 32)) as Hm32. fold (u32 start) in Hm32.
      pose proof (Z.mod_pos_bound start (2 ^ k)).
      f_equal; apply bytes_at_ext; intros x Hx; apply T0; clear Hhi; revert Hlo Hx;
        case_match; lia.
    + eapply touch_same; [|exact T3|lia]. eapply touch_trans; [exact T0|exact T|lia..].
Qed.

(** *** Through the table entry *)

Context (p : vstorage D) (udisk : bool).

(** The entry is the device of the contract, and not "fnd", whose requests
    go straight to the driver. *)
Record entry_of : Prop := {
  eo_read : read p = Some rd;
  eo_align w : exists al, align p = Some al /\ al w = (w, 2 ^ k);
  eo_name : strncmp_eq (name p) n_fnd 3 = false
}.

(** The length [vs_read] works with: "nnd" reads whole blocks. *)
Definition eff_len (length : Z) : Z :=
  if strncmp_eq (name p) n_nnd 3
  then (length + (2 ^ k - 1)) - (length + (2 ^ k - 1)) mod 2 ^ k
  else length.

Lemma vs_read_eq w buf start length extra :
  entry_of -> 0 < length -> length + 2 * 2 ^ k < 2 ^ 31 ->
  vs_read dr udisk (Some p) w buf start length extra =
  vs_read_split dr rd w buf start (eff_len length) (2 ^ k) extra.
Proof.
  intros [Hr Ha Hn] Hl Hs. pose proof pow_k. pose proof bd_align.
  destruct (Ha w) as (al & Hal & Haw). unfold vs_read.
  rewrite Hr, Hn, (proj2 (Z.eqb_neq length 0)) by lia. unfold vs_align.
  change (id_valid dr udisk DEV_CURRENT) with false. cbv iota.
  rewrite Z.eqb_refl, Hal, Haw, (u32_small (2 ^ k)) by lia. unfold eff_len.
  cbv iota. destruct (strncmp_eq (name p) n_nnd 3); [|done]. f_equal.
  rewrite align_mask; [|lia|apply u32_range].
  rewrite (u32_small (2 ^ k - 1)), u32_small by lia. apply s32_small.
  pose proof (Z.mod_pos_bound (length + (2 ^ k - 1)) (2 ^ k)). lia.
Qed.

Lemma eff_len_pos length : 0 < length -> length <= eff_len length < length + 2 ^ k.
Proof.
  intros. pose proof pow_k. unfold eff_len.
  pose proof (Z.mod_pos_bound (length + (2 ^ k - 1)) (2 ^ k)).
  destruct (strncmp_eq _ _ _); lia.
Qed.

Lemma vs_read_serves w buf start length extra :
  entry_of -> 0 < length -> request buf start (eff_len length) ->
  served w buf
    (bytes_at (disk w) (start mod 2 ^ 32) (Z.to_nat (head_len start)) ++
     bytes_at (disk w) (start + head_len start)
       (Z.to_nat (eff_len length - head_len start)))
    (vs_read dr udisk (Some p) w buf start length extra).
Proof.
  intros He Hl Rq. pose proof (eff_len_pos length Hl).
  rewrite vs_read_eq; [|done|done|pose proof (rq_sum _ _ _ Rq); lia].
  exact (vs_read_split_spec w buf start (eff_len length) extra Rq).
Qed.

(** Aligned, or below 4 GiB, head and rest are one run of the disk. *)
Lemma head_and_rest m buf start len :
  request buf start len -> start mod 2 ^ k = 0 \/ start < 2 ^ 32 ->
  bytes_at m (start mod 2 ^ 32) (Z.to_nat (head_len start)) ++
    bytes_at m (start + head_len start) (Z.to_nat (len - head_len start)) =
  bytes_at m start (Z.to_nat len).
Proof.
  intros Rq Hs. pose proof (head_len_range start).
  pose proof (rq_head _ _ _ Rq). pose proof (rq_start _ _ _ Rq).
  replace (Z.to_nat len)
    with (Z.to_nat (head_len start) + Z.to_nat (len - head_len start))%nat by lia.
  rewrite bytes_at_app, Z2Nat.id by lia.
  destruct Hs as [Hs|Hs].
  - unfold head_len in *. by rewrite Hs in *.
  - by rewrite Z.mod_small by lia.
Qed.

(** C15: [vs_read] on a device that serves whole aligned blocks.  For every
    request whose head does not exceed its length, at an aligned offset or
    below 4 GiB, the call succeeds and the buffer holds exactly the bytes of
    the device at [start]; only the buffer and the heap have changed. *)
Theorem vs_read_correct w buf start length extra :
  entry_of -> 0 < length -> request buf start (eff_len length) ->
  start mod 2 ^ k = 0 \/ start < 2 ^ 32 ->
  served w buf (bytes_at (disk w) start (Z.to_nat (eff_len length)))
    (vs_read dr udisk (Some p) w buf start length extra).
Proof.
  intros He Hl Rq Hs. rewrite <- (head_and_rest _ buf) by done.
  by apply vs_read_serves.
Qed.

(** The mask of the head block is 32 bits wide while offsets have 64:
    whatever the offset, the head of an unaligned request is read from the
    offset taken modulo 2^32, and only the rest from the offset itself. *)
Theorem vs_read_head_wraps w buf start length extra :
  entry_of -> 0 < length -> request buf start (eff_len length) ->
  exists w' r,
    vs_read dr udisk (Some p) w buf start length extra = Some (w', r) /\
    bytes_at (ram w') buf (Z.to_nat (head_len start)) =
      bytes_at (disk w) (start mod 2 ^ 32) (Z.to_nat (head_len start)) /\
    bytes_at (ram w') (buf + head_len start) (Z.to_nat (eff_len length - head_len start)) =
      bytes_at (disk w) (start + head_len start) (Z.to_nat (eff_len length - head_len start)).
Proof.
  intros He Hl Rq. destruct (vs_read_serves w buf start length extra He Hl Rq)
    as (w' & r & E & _ & B & _).
  exists w', r. split; [done|]. pose proof (head_len_range start).
  rewrite length_app, !length_bytes_at, bytes_at_app, Z2Nat.id in B by lia.
  apply app_inj_1 in B; [done|by rewrite !length_bytes_at].
Qed.

End Read.

(** ** The RAM disk is a block device *)

Section RamDisk.
Context {D : Type} (hi : Z).
Context (Hhi : IUS_DEFAULT_LOCATION <= hi <= 2 ^ 32 - (DRAM_BASE_PA - IUS_DEFAULT_LOCATION)).

Definition ram_disk (w : world D) : mem := fun x => ram w (ram_addr x).

(** Memory outside the area the offsets up to [hi] are mapped to. *)
Definition ram_apart (p n : Z) : Prop :=
  p + n <= DRAM_BASE_PA \/ DRAM_BASE_PA + (hi - IUS_DEFAULT_LOCATION) <= p.

Lemma ram_addr_eq x :
  IUS_DEFAULT_LOCATION <= x < hi ->
  ram_addr x = x + (DRAM_BASE_PA - IUS_DEFAULT_LOCATION).
Proof.
  intros. unfold ram_addr. rewrite land_u32.
  unfold IUS_DEFAULT_LOCATION, DRAM_BASE_PA in *. words.
Qed.

Lemma ram_disk_bytes w x n :
  IUS_DEFAULT_LOCATION <= x -> x + Z.of_nat n <= hi -> (0 < n)%nat ->
  bytes_at (ram_disk w) x n = bytes_at (ram w) (ram_addr x) n.
Proof.
  intros. apply bytes_at_eq_iff. intros i Hi. unfold ram_disk.
  rewrite !ram_addr_eq by lia. f_equal. lia.
Qed.

#[export] Instance ram_block_device :
  BlockDevice (ram_vs_read (D:=D)) ram_disk ram_apart 9 IUS_DEFAULT_LOCATION hi.
Proof.
  unfold IUS_DEFAULT_LOCATION, DRAM_BASE_PA in *.
  assert (forall (w w' : world D) p n x,
    ram_apart p n -> same_except (ram w) (ram w') p (Z.to_nat n) ->
    IUS_DEFAULT_LOCATION <= x < hi -> ram_disk w' x = ram_disk w x) as Hframe.
  { intros w w' p n x Ha Hs Hx. unfold ram_disk. rewrite ram_addr_eq by done. apply Hs.
    unfold ram_apart, IUS_DEFAULT_LOCATION, DRAM_BASE_PA in *. lia. }
  split; [lia|lia| |by intros; eapply Hframe|].
  - intros p n q m. unfold ram_apart. lia.
  - intros w buf start len extra Hs Hl Hr Hlo Hi Ha. unfold ram_vs_read.
    unfold IUS_DEFAULT_LOCATION at 1. rewrite (proj2 (Z.ltb_ge start _)) by lia.
    destruct (memcpy_moved (ram w) buf (ram_addr start) len) as [B S].
    { unfold is_u32. lia. }
    { rewrite ram_addr_eq by (unfold IUS_DEFAULT_LOCATION; lia).
      unfold ram_apart, IUS_DEFAULT_LOCATION, DRAM_BASE_PA in *. lia. }
    eexists _, len. split; [done|]. split; [lia|]. cbn [ram]. split_and!.
    + rewrite B. symmetry. apply ram_disk_bytes; unfold IUS_DEFAULT_LOCATION; lia.
    + exact S.
    + intros x Hx. by apply (Hframe w _ buf len).
Qed.

(** The drivers of the table include the RAM disk's. *)
Record has_ramdisk (dr : drivers D) : Prop := {
  hr_read : vs_read_of dr d_ram = ram_vs_read;
  hr_write : vs_write_of dr d_ram = ram_vs_write;
  hr_align : vs_align_of dr d_ram = ram_vs_align;
  hr_reset : vs_reset_of dr d_ram = ram_vs_reset
}.

Lemma ram_write_spec w buf start len extra :
  IUS_DEFAULT_LOCATION <= start -> start + len <= hi -> 0 < len < 2 ^ 31 -> ram_apart buf len ->
  exists w1, ram_vs_write w buf start len extra = (w1, len) /\
    bytes_at (ram_disk w1) start (Z.to_nat len) = bytes_at (ram w) buf (Z.to_nat len).
Proof.
  intros Hlo Hi Hr Ha. unfold ram_vs_write. rewrite (proj2 (Z.ltb_ge start _)) by lia.
  eexists. split; [done|]. rewrite ram_disk_bytes by lia. cbn [ram].
  apply memcpy_moved; [unfold is_u32; lia|]. rewrite ram_addr_eq by lia.
  unfold ram_apart, IUS_DEFAULT_LOCATION, DRAM_BASE_PA in *. lia.
Qed.

Definition ram_entry (dr : drivers D) : vstorage D :=
  VS n_ram (DEVICE_ID DEV_RAM) (Some (vs_align_of dr d_ram)) (Some (vs_read_of dr d_ram))
     (Some (vs_write_of dr d_ram)) (Some (vs_reset_of dr d_ram)) None None None None None.

Lemma assign_ram dr udisk w :
  has_ramdisk dr -> vs_assign_by_name dr udisk w n_ram 1 = (Some (ram_entry dr), w, 0).
Proof.
  intros [_ _ _ Hr]. transitivity (Some (ram_entry dr), (vs_reset_of dr d_ram w).1,
                                   (vs_reset_of dr d_ram w).2).
  - destruct udisk; cbn; by destruct (vs_reset_of dr d_ram w).
  - by rewrite Hr.
Qed.

Lemma ram_entry_of dr : has_ramdisk dr -> entry_of ram_vs_read 9 (ram_entry dr).
Proof.
  intros [Hr _ Ha _]. split; cbn [read align ram_entry name].
  - by rewrite Hr.
  - intros w. rewrite Ha. by eexists.
  - done.
Qed.

Lemma ram_request_range h hn buf start len :
  request ram_apart 9 IUS_DEFAULT_LOCATION hi h hn buf start len ->
  IUS_DEFAULT_LOCATION <= start /\ start + len <= hi /\ 0 < len < 2 ^ 31.
Proof.
  intros [? ? ? Hh Hlo Hhi' ? ?].
  destruct (stage_bounds ram_vs_read ram_disk ram_apart 9 IUS_DEFAULT_LOCATION hi
              start len Hh Hhi') as (? & ? & ? & ? & ? & ?).
  split_and!; [|clear Hlo; revert Hhi'; case_match; lia|lia..].
  clear Hhi'. revert Hlo. case_match; [done|]. unfold u32.
  pose proof (Z.mod_le start (2 ^ 32)). pose proof (Z.mod_pos_bound start (2 ^ 9)). lia.
Qed.

(** Data written to the RAM disk through the storage layer, from any
    offset, is read back by [vs_read], whatever the alignment of the
    request: the buffer receives the bytes that were written. *)
Theorem ramdisk_roundtrip dr udisk h hn w buf buf' start len extra :
  has_ramdisk dr -> Heap dr h hn -> ram_apart h hn -> ram_apart buf len ->
  request ram_apart 9 IUS_DEFAULT_LOCATION hi h hn buf' start len ->
  let '(cur, w0, r0) := vs_assign_by_name dr udisk w n_ram 1 in
  let '(w1, r1) := vs_write cur w0 buf start len extra in
  r0 = 0 /\ r1 = len /\
  served ram_disk IUS_DEFAULT_LOCATION hi h hn w1 buf' (bytes_at (ram w) buf (Z.to_nat len))
    (vs_read dr udisk cur w1 buf' start len extra).
Proof.
  intros Hd HP Hh Hb Rq. pose proof (ram_request_range _ _ _ _ _ Rq) as (? & ? & ?).
  assert (start < 2 ^ 32) by (unfold IUS_DEFAULT_LOCATION, DRAM_BASE_PA in *; lia).
  rewrite assign_ram by done.
  destruct (ram_write_spec w buf start len extra) as (w1 & E & B); [done..|].
  unfold vs_write. rewrite (proj2 (Z.eqb_neq len 0)) by lia. cbn [write ram_entry].
  rewrite (hr_write _ Hd), E. split_and!; [done|done|]. rewrite <- B.
  rewrite <- (head_and_rest ram_vs_read ram_disk ram_apart 9 IUS_DEFAULT_LOCATION hi h hn
                (ram_disk w1) buf' start len Rq) by auto.
  pose proof (vs_read_serves dr ram_vs_read ram_disk ram_apart 9 IUS_DEFAULT_LOCATION hi h hn
    Hh (ram_entry dr) udisk w1 buf' start len extra) as S.
  change (eff_len 9 (ram_entry dr) len) with len in S.
  apply S; [by apply ram_entry_of|lia|done].
Qed.

End RamDisk.

(** ** The table *)

Lemma strncmp_eq_sym s t n : strncmp_eq s t n = strncmp_eq t s n.
Proof. apply bool_decide_ext. done. Qed.

(** [strncmp_eq] is what the C function computes. *)
Lemma strncmp_eq_CString m p q s t n :
  mem_ok m -> cstr_at m p s -> cstr_at m q t -> is_u32 n ->
  (strncmp m p q n =? 0) = strncmp_eq s t (Z.to_nat n).
Proof.
  intros Hm Hs Ht Hn. pose proof (strncmp_zero m p q s t n Hm Hs Ht Hn) as E.
  unfold strncmp_eq. case_bool_decide as Ed; [apply Z.eqb_eq|apply Z.eqb_neq]; tauto.
Qed.

Section Table.
Context {D : Type} (dr : drivers D) (udisk : bool).

(** Names and numbers of the devices agree: [vs_device_id] inverts
    [vs_device_name] on the whole table, and assigning by name is assigning
    by the number [vs_device_id] finds, for every name, unknown ones
    included, and with or without the reset. *)
Theorem vs_names_ids :
  (forall id, 0 <= id < vs_device_count dr udisk ->
     exists nm, vs_device_name dr udisk id = Some nm /\ (length nm < 8)%nat /\
                vs_device_id dr udisk nm = id) /\
  (forall w nm rst,
     vs_assign_by_name dr udisk w nm rst =
     vs_assign_by_id dr udisk w (vs_device_id dr udisk nm) rst).
Proof.
  split.
  - intros id Hid. change (vs_device_count dr udisk) with 14 in Hid.
    assert (In id (map Z.of_nat (seq 0 14))) as Hin by (cbn; lia).
    cbn in Hin. destruct udisk; repeat destruct Hin as [<-|Hin]; try done;
      (eexists; split; [reflexivity|]; split; [cbn; lia|reflexivity]).
  - intros w nm rst. unfold vs_assign_by_name, vs_device_id. destruct udisk;
      cbn [vs_list assign_loop device_id_loop name];
      rewrite !(strncmp_eq_sym nm);
      repeat (match goal with |- context [if ?b then _ else _] =>
                lazymatch b with strncmp_eq _ _ _ => destruct b; [reflexivity|] end end);
      reflexivity.
Qed.

(** The capability flags of the table match the driver calls it lists:
    erasable devices are those with an [erase] call, whatever can be burned
    to can be written, whatever can be booted or burned from can be read,
    and only bootable devices boot from offset 0. *)
Theorem vs_table_flags cur id :
  0 <= id < vs_device_count dr udisk ->
  vs_device_erasable dr udisk id = vs_is_opt_available dr udisk cur id VS_OPT_ERASE /\
  (vs_device_burndst dr udisk id = 1 -> vs_is_opt_available dr udisk cur id VS_OPT_WRITE = 1) /\
  (vs_device_bootable dr udisk id = 1 \/ vs_device_burnsrc dr udisk id = 1 ->
     vs_is_opt_available dr udisk cur id VS_OPT_READ = 1) /\
  (vs_device_boot0 dr udisk id = 1 -> vs_device_bootable dr udisk id = 1).
Proof.
  intros Hid. change (vs_device_count dr udisk) with 14 in Hid.
  assert (In id (map Z.of_nat (seq 0 14))) as Hin by (cbn; lia).
  cbn in Hin. repeat destruct Hin as [<-|Hin]; try done;
    destruct udisk; (split_and!; [reflexivity|vm_compute; tauto|..]; vm_compute; intuition congruence).
Qed.

(** The identifier in the flags of "fnd" is that of "nnd". *)
Example fnd_has_the_id_of_nand p :
  entry dr udisk DEV_FND = Some p -> Z.shiftr (flag p) 24 = DEV_NAND.
Proof. by intros [= <-]. Qed.

End Table.

(** ** Concrete runs *)

(** A board whose every driver is the RAM disk, with a heap of 1 MiB. *)
Definition sample_drivers : drivers unit :=
  Drivers unit (fun _ => ram_vs_align) (fun _ => ram_vs_read) (fun _ => ram_vs_write)
    (fun _ => ram_vs_reset) (fun _ w _ _ => (w, 0)) (fun _ w _ _ => (w, 0))
    (fun _ w _ => (w, 0)) (fun _ w => (w, 0)) (fun w _ => (w, 0x100000)) (fun w _ => w).

#[export] Instance sample_heap : Heap sample_drivers 0x100000 0x100000.
Proof.
  split; [lia| |done].
  intros w n w' p Hn [= <- <-]. split_and!; [done|lia|lia|done|done].
Qed.

Definition sample_world : world unit := World (mem_of 0x80000000 [11; 22; 33; 44; 55; 66]) tt.

Lemma sample_request start length :
  start = IUS_DEFAULT_LOCATION + 3 /\ length = 600 ->
  request (ram_apart 0x2000000) 9 IUS_DEFAULT_LOCATION 0x2000000 0x100000 0x100000 0x1000
    start length.
Proof.
  intros [-> ->].
  split; vm_compute; intuition congruence.
Qed.

Lemma sample_apart : ram_apart 0x2000000 0x100000 0x100000.
Proof. left. vm_compute. congruence. Qed.

Lemma sample_has_ramdisk : has_ramdisk sample_drivers.
Proof. done. Qed.

Example vs_read_correct_witness :
  served ram_disk IUS_DEFAULT_LOCATION 0x2000000 0x100000 0x100000 sample_world 0x1000
    (bytes_at (ram_disk sample_world) (IUS_DEFAULT_LOCATION + 3) 600)
    (vs_read sample_drivers false (Some (ram_entry sample_drivers)) sample_world
       0x1000 (IUS_DEFAULT_LOCATION + 3) 600 0).
Proof.
  apply (vs_read_correct sample_drivers ram_vs_read ram_disk (ram_apart 0x2000000) 9
           IUS_DEFAULT_LOCATION 0x2000000 0x100000 0x100000
           (BD := ram_block_device 0x2000000 ltac:(unfold IUS_DEFAULT_LOCATION, DRAM_BASE_PA; lia))
           sample_apart (ram_entry sample_drivers) false sample_world 0x1000
           (IUS_DEFAULT_LOCATION + 3) 600 0).
  - by apply ram_entry_of.
  - lia.
  - by apply sample_request.
  - right. reflexivity.
Defined.

Example vs_read_head_wraps_witness :
  exists w' r,
    vs_read sample_drivers false (Some (ram_entry sample_drivers)) sample_world
       0x1000 (IUS_DEFAULT_LOCATION + 3) 600 0 = Some (w', r) /\
    bytes_at (ram w') 0x1000 509 =
      bytes_at (ram_disk sample_world) ((IUS_DEFAULT_LOCATION + 3) mod 2 ^ 32) 509 /\
    bytes_at (ram w') (0x1000 + 509) 91 =
      bytes_at (ram_disk sample_world) (IUS_DEFAULT_LOCATION + 512) 91.
Proof.
  apply (vs_read_head_wraps sample_drivers ram_vs_read ram_disk (ram_apart 0x2000000) 9
           IUS_DEFAULT_LOCATION 0x2000000 0x100000 0x100000
           (BD := ram_block_device 0x2000000 ltac:(unfold IUS_DEFAULT_LOCATION, DRAM_BASE_PA; lia))
           sample_apart (ram_entry sample_drivers) false sample_world 0x1000
           (IUS_DEFAULT_LOCATION + 3) 600 0).
  - by apply ram_entry_of.
  - lia.
  - by apply sample_request.
Defined.

Example ramdisk_roundtrip_witness :
  let '(cur, w0, r0) := vs_assign_by_name sample_drivers false sample_world n_ram 1 in
  let '(w1, r1) := vs_write cur w0 0x5000 (IUS_DEFAULT_LOCATION + 3) 600 0 in
  r0 = 0 /\ r1 = 600 /\
  served ram_disk IUS_DEFAULT_LOCATION 0x2000000 0x100000 0x100000 w1 0x1000
    (bytes_at (ram sample_world) 0x5000 600)
    (vs_read sample_drivers false cur w1 0x1000 (IUS_DEFAULT_LOCATION + 3) 600 0).
Proof.
  apply (ramdisk_roundtrip 0x2000000 ltac:(unfold IUS_DEFAULT_LOCATION, DRAM_BASE_PA; lia)
           sample_drivers false 0x100000 0x100000 sample_world 0x5000 0x1000
           (IUS_DEFAULT_LOCATION + 3) 600 0).
  - exact sample_has_ramdisk.
  - exact sample_heap.
  - exact sample_apart.
  - left. vm_compute. congruence.
  - by apply sample_request.
Defined.

Example vs_table_flags_witness :
  vs_device_erasable sample_drivers false 4 =
  vs_is_opt_available sample_drivers false None 4 VS_OPT_ERASE.
Proof. refine (proj1 (vs_table_flags sample_drivers false None 4 _)). by vm_compute. Defined.
