(* ===== verification/Disks.v ===== *)
(** * Disks: the block reads and writes of MMC cards and USB sticks

    Between [VStorage] and the controllers: infotm/drivers/mmc/mmc.c from
    [mmc_send_status] to [mmcN_vs_write], and
    infotm/drivers/usb/usb_interface.c.  What the two call through function
    pointers, [send_cmd] of a card and [block_read] of a stick, is a
    parameter; what they rely on is stated by the classes [Card] and
    [Stick].

    The theorems say what the two drivers leave in memory and, which is not
    the same for both, what they say about it: a stick reports the bytes it
    was asked for, a card the square of the number of blocks. *)

From S2P Require Import Prelude Mem VStorage.
Local Open Scope Z_scope.

(** ** infotm/drivers/mmc/mmc.c *)

Definition MMC_DATA_READ := 1.
Definition MMC_DATA_WRITE := 2.
Definition COMM_ERR := -18.
Definition MMC_TIMEOUT := -19.
Definition MMC_CMD_STOP_TRANSMISSION := 12.
Definition MMC_CMD_SEND_STATUS := 13.
Definition MMC_CMD_SET_BLOCKLEN := 16.
Definition MMC_CMD_READ_SINGLE_BLOCK := 17.
Definition MMC_CMD_READ_MULTIPLE_BLOCK := 18.
Definition MMC_CMD_WRITE_SINGLE_BLOCK := 24.
Definition MMC_CMD_WRITE_MULTIPLE_BLOCK := 25.
Definition MMC_STATUS_MASK := u32 (Z.lnot 0x0206BF7F).
Definition MMC_STATUS_RDY_FOR_DATA := Z.shiftl 1 8.
(** PRESENT, CRC, OPCODE; and BUSY *)
Definition MMC_RSP_R1 := 21.
Definition MMC_RSP_R1b := 29.
Definition MMC_MODE_SPI := 0x400.
Definition CONFIG_SYS_MMC_MAX_BLK_COUNT := 512.

Record mmc_cmd := Cmd { cmdidx : Z; resp_type : Z; cmdarg : Z; cmd_flags : Z }.
(** [addr] is the union of [dest] and [src]. *)
Record mmc_data := Data { addr : Z; data_flags : Z; blocks : Z; blocksize : Z }.

(** [struct mmc], the fields this code uses: [dev], [lba] and [blksz] are
    those of its [block_dev]. *)
Record mmc := Mmc {
  dev_no : Z; lba : Z; blksz : Z; high_capacity : bool; rca : Z;
  read_bl_len : Z; write_bl_len : Z; b_max : Z; host_caps : Z
}.

Definition find_mmc_device (mmc_devices : list mmc) (dev_num : Z) : option mmc :=
  List.find (fun m => dev_no m =? dev_num) mmc_devices.

(** With the counter [cur_dev_num]. *)
Definition mmc_register (mmc_devices : list mmc) (cur_dev_num : Z) (m : mmc) : list mmc * Z :=
  (mmc_devices ++ [Mmc cur_dev_num (lba m) (blksz m) (high_capacity m) (rca m) (read_bl_len m) (write_bl_len m)
     (if b_max m =? 0 then CONFIG_SYS_MMC_MAX_BLK_COUNT else b_max m) (host_caps m)], cur_dev_num + 1).

Section Mmc.
Context {D : Type}.
(** The controller's function: the new state, the first word of the response
    and the result.  It may wait for an interrupt that does not come. *)
Context (send_cmd : mmc -> mmc_cmd -> option mmc_data -> world D -> option (world D * Z * Z)).
Context (mmc_devices : list mmc).
Implicit Type w : world D.
Implicit Type m : mmc.

(** [mmc_send_status], [timeout] being the count of [do ... while (timeout--)]. *)
Fixpoint status_loop m (cmd : mmc_cmd) (timeout : nat) w : option (world D * Z) :=
  '(w, response, err) ← send_cmd m cmd None w;
  if negb (err =? 0) then Some (w, err)
  else if negb (Z.land response MMC_STATUS_RDY_FOR_DATA =? 0)
    then Some (w, match timeout with O => MMC_TIMEOUT | S _ => 0 end)
  else if negb (Z.land response MMC_STATUS_MASK =? 0) then Some (w, COMM_ERR)
  else match timeout with O => Some (w, 0) | S timeout => status_loop m cmd timeout w end.

Definition mmc_send_status m (timeout : nat) w : option (world D * Z) :=
  status_loop m (Cmd MMC_CMD_SEND_STATUS MMC_RSP_R1 (u32 (Z.shiftl (rca m) 16)) 0) timeout w.

Definition mmc_set_blocklen m (len : Z) w : option (world D * Z) :=
  '(w, _, ret) ← send_cmd m (Cmd MMC_CMD_SET_BLOCKLEN MMC_RSP_R1 len 0) None w; Some (w, ret).

(** The stop command behind a transfer of several blocks. *)
Definition stop_transmission m w : option (world D * Z) :=
  '(w, _, ret) ← send_cmd m (Cmd MMC_CMD_STOP_TRANSMISSION MMC_RSP_R1b 0 0) None w; Some (w, ret).

Definition mmc_write_blocks m (start blkcnt src : Z) w : option (world D * Z) :=
  if lba m <? u32 (start + blkcnt) then Some (w, 0) else
  let cmd := Cmd (if 1 <? blkcnt then MMC_CMD_WRITE_MULTIPLE_BLOCK else MMC_CMD_WRITE_SINGLE_BLOCK) MMC_RSP_R1
    (if high_capacity m then start else u32 (start * write_bl_len m)) 0 in
  '(w, _, ret) ← send_cmd m cmd (Some (Data src MMC_DATA_WRITE blkcnt (write_bl_len m))) w;
  if negb (ret =? 0) then Some (w, 0) else
  if (Z.land (host_caps m) MMC_MODE_SPI =? 0) && (1 <? blkcnt) then
    '(w, ret) ← stop_transmission m w;
    if negb (ret =? 0) then Some (w, 0) else
    '(w, _) ← mmc_send_status m 1000 w; Some (w, blkcnt)
  else '(w, _) ← mmc_send_status m 1000 w; Some (w, blkcnt).

Definition mmc_read_blocks m (dst start blkcnt : Z) w : option (world D * Z) :=
  let cmd := Cmd (if 1 <? blkcnt then MMC_CMD_READ_MULTIPLE_BLOCK else MMC_CMD_READ_SINGLE_BLOCK) MMC_RSP_R1
    (if high_capacity m then start else u32 (start * read_bl_len m)) 0 in
  '(w, _, ret) ← send_cmd m cmd (Some (Data dst MMC_DATA_READ blkcnt (read_bl_len m))) w;
  if negb (ret =? 0) then Some (w, 0) else
  if 1 <? blkcnt then
    '(w, ret) ← stop_transmission m w;
    if negb (ret =? 0) then Some (w, 0) else
    '(w, _) ← mmc_send_status m 1000 w; Some (w, s32 blkcnt)
  else '(w, _) ← mmc_send_status m 1000 w; Some (w, s32 blkcnt).

(** The loops of [mmc_bread] and [mmc_bwrite]; [fuel] bounds the pieces. *)
Fixpoint bread_loop (fuel : nat) m (start blocks_todo dst : Z) w : option (world D * bool) :=
  match fuel with
  | O => None
  | S fuel =>
      let cur := if b_max m <? blocks_todo then b_max m else blocks_todo in
      '(w, n) ← mmc_read_blocks m dst start cur w;
      if negb (u32 n =? cur) then Some (w, false) else
      let blocks_todo := u32 (blocks_todo - cur) in
      if 0 <? blocks_todo then bread_loop fuel m (u32 (start + cur)) blocks_todo (dst + u32 (cur * read_bl_len m)) w
      else Some (w, true)
  end.

Definition mmc_bread (fuel : nat) (dev_num start blkcnt dst : Z) w : option (world D * Z) :=
  if blkcnt =? 0 then Some (w, 0) else
  match find_mmc_device mmc_devices dev_num with
  | None => Some (w, 0)
  | Some m =>
      if lba m <? u32 (start + blkcnt) then Some (w, 0) else
      '(w, ret) ← mmc_set_blocklen m (read_bl_len m) w;
      if negb (ret =? 0) then Some (w, 0) else
      '(w, ok) ← bread_loop fuel m start blkcnt dst w;
      Some (w, if ok : bool then blkcnt else 0)
  end.

Fixpoint bwrite_loop (fuel : nat) m (start blocks_todo src : Z) w : option (world D * bool) :=
  match fuel with
  | O => None
  | S fuel =>
      let cur := if b_max m <? blocks_todo then b_max m else blocks_todo in
      '(w, n) ← mmc_write_blocks m start cur src w;
      if negb (n =? cur) then Some (w, false) else
      let blocks_todo := u32 (blocks_todo - cur) in
      if 0 <? blocks_todo then bwrite_loop fuel m (u32 (start + cur)) blocks_todo (src + u32 (cur * write_bl_len m)) w
      else Some (w, true)
  end.

Definition mmc_bwrite (fuel : nat) (dev_num start blkcnt src : Z) w : option (world D * Z) :=
  match find_mmc_device mmc_devices dev_num with
  | None => Some (w, 0)
  | Some m =>
      '(w, ret) ← mmc_set_blocklen m (write_bl_len m) w;
      if negb (ret =? 0) then Some (w, 0) else
      '(w, ok) ← bwrite_loop fuel m start blkcnt src w;
      Some (w, if ok : bool then blkcnt else 0)
  end.

Definition mmc_capacity (dev_num : Z) : Z :=
  match find_mmc_device mmc_devices dev_num with Some m => s32 (lba m) | None => -1 end.
Definition mmc_blksz (dev_num : Z) : Z :=
  match find_mmc_device mmc_devices dev_num with Some m => s32 (blksz m) | None => -1 end.

(** [mmc0_vs_read], [mmc1_vs_read], [mmc2_vs_read]: an [int] times an
    [unsigned long], returned as an [int]. *)
Definition mmc_vs_read (fuel : nat) (n : Z) w (buf start length x : Z) : option (world D * Z) :=
  '(w, r) ← mmc_bread fuel n (u32 (Z.shiftr start 9)) (u32 (Z.shiftr length 9)) buf w;
  Some (w, s32 (u32 (Z.shiftr length 9) * r)).
Definition mmc_vs_write (fuel : nat) (n : Z) w (buf start length x : Z) : option (world D * Z) :=
  '(w, r) ← mmc_bwrite fuel n (u32 (Z.shiftr start 9)) (u32 (Z.shiftr length 9)) buf w;
  Some (w, s32 (u32 (Z.shiftr length 9) * r)).

End Mmc.

(** ** infotm/drivers/usb/usb_interface.c *)

(** [block_dev_desc_t], the fields this code uses: the functions take the
    device, the first block, the number of blocks and the buffer. *)
Record block_dev_desc (D : Type) := BlockDev {
  block_read : Z -> Z -> Z -> Z -> world D -> option (world D * Z);
  block_write : Z -> Z -> Z -> Z -> world D -> option (world D * Z);
  bd_blksz : Z; bd_lba : Z
}.
Arguments BlockDev {D}. Arguments block_read {D}. Arguments block_write {D}. Arguments bd_blksz {D}. Arguments bd_lba {D}.

(** The three statics. *)
Record usb (D : Type) := Usb { usb_stor_curr_dev : Z; usb_initialized : bool; udisk_dev : option (block_dev_desc D) }.
Arguments Usb {D}. Arguments usb_stor_curr_dev {D}. Arguments usb_initialized {D}. Arguments udisk_dev {D}.

Section Udisk.
Context {D : Type}.
Implicit Type w : world D.
Implicit Type u : usb D.

Definition udisk_vs_read u w (buf start length extra : Z) : option (world D * Z) :=
  match udisk_dev u with
  | None => Some (w, -1)
  | Some d =>
      let blk := s32 (Z.quot start 512) in
      let cnt := Z.quot length 512 in
      '(w, n) ← block_read d (usb_stor_curr_dev u) (u32 blk) (u32 cnt) buf w;
      if negb (s32 n =? cnt) then Some (w, s32 (cnt * 512)) else Some (w, s32 (cnt * 512))
  end.

Definition udisk_vs_write u w (buf start length extra : Z) : option (world D * Z) :=
  match udisk_dev u with
  | None => Some (w, -1)
  | Some d =>
      let blk := s32 (Z.quot start 512) in
      let cnt := Z.quot length 512 in
      '(w, n) ← block_write d (usb_stor_curr_dev u) (u32 blk) (u32 cnt) buf w;
      Some (w, s32 (cnt * 512))
  end.

(** The USB core and its storage class. *)
Context (usb_stop : world D -> world D) (usb_init : world D -> world D * Z) (usb_stor_scan : world D -> world D * Z).
Context (usb_stor_get_dev : world D -> Z -> option (block_dev_desc D)).

(** [__get_dev__] *)
Definition get_dev u w (index : Z) : usb D * world D * Z :=
  match usb_stor_get_dev w index with
  | None => (Usb (usb_stor_curr_dev u) (usb_initialized u) None, w, -2)
  | Some d => (Usb index (usb_initialized u) (Some d), w, 0)
  end.

Definition udisk_reset u w (index : Z) : usb D * world D * Z :=
  if usb_initialized u then get_dev u w index else
  let '(w, ret) := usb_init (usb_stop w) in
  if ret <? 0 then (u, w, ret) else
  let '(w, ret) := usb_stor_scan w in
  if ret <? 0 then (u, w, ret) else
  get_dev (Usb (usb_stor_curr_dev u) true (udisk_dev u)) w index.

(** [udisk0_vs_align], [udisk1_vs_align]; the capacity is of type [unsigned
    long] before it is widened. *)
Definition udisk_vs_align u w (index : Z) : usb D * world D * Z :=
  let '(u, w, _) := udisk_reset u w index in
  (u, w, match udisk_dev u with Some d => if bd_blksz d =? 0 then -1 else s32 (bd_blksz d) | None => -1 end).
Definition udisk_vs_capacity u w (index : Z) : usb D * world D * Z :=
  let '(u, w, _) := udisk_reset u w index in
  (u, w, match udisk_dev u with Some d => if bd_lba d =? 0 then u32 (-1) else bd_lba d | None => u32 (-1) end).

End Udisk.

(** ** What a card does *)

Section Card.
Context {D : Type} (send_cmd : mmc -> mmc_cmd -> option mmc_data -> world D -> option (world D * Z * Z)) (disk : world D -> mem).
Implicit Type w : world D.

(** Where on the card a command that transfers data begins. *)
Definition offset_of (m : mmc) (cmd : mmc_cmd) : Z := if high_capacity m then cmdarg cmd * 512 else cmdarg cmd.

(** The card answers every command, if only with an error.  A read touches
    its buffer only, and unless it says otherwise transfers the data. *)
Class Card (m : mmc) : Prop := {
  card_quiet cmd w : cmdidx cmd ∈ [MMC_CMD_STOP_TRANSMISSION; MMC_CMD_SEND_STATUS; MMC_CMD_SET_BLOCKLEN] ->
    exists w' response ret, send_cmd m cmd None w = Some (w', response, ret) /\ ram w' = ram w /\ forall x, disk w' x = disk w x;
  card_read cmd dst n w : cmdidx cmd = (if 1 <? n then MMC_CMD_READ_MULTIPLE_BLOCK else MMC_CMD_READ_SINGLE_BLOCK) -> 0 < n ->
    exists w' response ret, send_cmd m cmd (Some (Data dst MMC_DATA_READ n 512)) w = Some (w', response, ret) /\
      same_except (ram w) (ram w') dst (Z.to_nat (n * 512)) /\ (mem_ok (ram w) -> mem_ok (ram w')) /\ (forall x, disk w' x = disk w x) /\
      (ret = 0 -> bytes_at (ram w') dst (Z.to_nat (n * 512)) = bytes_at (disk w) (offset_of m cmd) (Z.to_nat (n * 512)))
}.

(** Only the [n] bytes at [p] have changed, and hold bytes. *)
Record moved w w' (p n : Z) : Prop := {
  mv_ram : same_except (ram w) (ram w') p (Z.to_nat n);
  mv_ok : mem_ok (ram w) -> mem_ok (ram w');
  mv_disk x : disk w' x = disk w x
}.

Lemma moved_refl w p n : moved w w p n.
Proof. by split. Qed.

Lemma moved_quiet w w' p n : ram w' = ram w -> (forall x, disk w' x = disk w x) -> moved w w' p n.
Proof. intros E H. split; [by intros q _; rewrite E|by rewrite E|done]. Qed.

Lemma moved_trans w w1 w2 p n p1 n1 p2 n2 : moved w w1 p1 n1 -> moved w1 w2 p2 n2 ->
  p <= p1 -> p1 + n1 <= p + n -> p <= p2 -> p2 + n2 <= p + n -> moved w w2 p n.
Proof.
  intros [R1 O1 D1] [R2 O2 D2] ????. split.
  - intros q Hq. rewrite R2, R1 by lia. done.
  - auto.
  - intros x. by rewrite D2.
Qed.

Context (m : mmc) `{!Card m}.

Lemma stop_quiet w p n : exists w' ret, stop_transmission send_cmd m w = Some (w', ret) /\ ram w' = ram w /\ moved w w' p n.
Proof.
  destruct (card_quiet (Cmd MMC_CMD_STOP_TRANSMISSION MMC_RSP_R1b 0 0) w) as (w' & r & ret & E & Hr & Hd); [rewrite !elem_of_cons; auto|].
  exists w', ret. unfold stop_transmission. rewrite E. split; [done|]. split; [done|]. by apply moved_quiet.
Qed.

Lemma blocklen_quiet len w p n : exists w' ret, mmc_set_blocklen send_cmd m len w = Some (w', ret) /\ moved w w' p n.
Proof.
  destruct (card_quiet (Cmd MMC_CMD_SET_BLOCKLEN MMC_RSP_R1 len 0) w) as (w' & r & ret & E & Hr & Hd); [rewrite !elem_of_cons; auto|].
  exists w', ret. unfold mmc_set_blocklen. rewrite E. split; [done|]. by apply moved_quiet.
Qed.

(** [mmc_send_status] comes to an end, whatever the card answers. *)
Lemma status_quiet timeout w p n : exists w' ret, mmc_send_status send_cmd m timeout w = Some (w', ret) /\ ram w' = ram w /\ moved w w' p n.
Proof.
  unfold mmc_send_status. set (cmd := Cmd _ _ _ _). revert w.
  induction timeout as [|timeout IH]; intros w;
    (destruct (card_quiet cmd w) as (w1 & r & err & E & Hr & Hd); [unfold cmd; rewrite !elem_of_cons; auto|]); cbn [status_loop]; rewrite E; cbn [mbind option_bind];
    (destruct (err =? 0); cbn [negb]; [|eexists _, _; split; [done|]; split; [done|]; by apply moved_quiet]);
    (destruct (negb (Z.land r MMC_STATUS_RDY_FOR_DATA =? 0)); [eexists _, _; split; [done|]; split; [done|]; by apply moved_quiet|]);
    (destruct (negb (Z.land r MMC_STATUS_MASK =? 0)); [eexists _, _; split; [done|]; split; [done|]; by apply moved_quiet|]).
  - eexists _, _. split; [done|]. split; [done|]. by apply moved_quiet.
  - destruct (IH w1) as (w2 & ret & E2 & Hr2 & [R2 O2 D2]). exists w2, ret. split; [exact E2|]. split; [by rewrite Hr2|].
    apply moved_quiet; [by rewrite Hr2|]. intros x. by rewrite D2.
Qed.

Context (Hlen : read_bl_len m = 512).

(** Where block [start] is, for the command that is sent. *)
Definition addressed (start : Z) : Z := if high_capacity m then start * 512 else u32 (start * 512).

Lemma addressed_small start : high_capacity m = true \/ 0 <= start * 512 < 2 ^ 32 -> addressed start = start * 512.
Proof. unfold addressed. intros [->|H]; [done|]. rewrite u32_small by lia. by destruct (high_capacity m). Qed.

Lemma read_blocks_spec dst start n w : 0 < n < 2 ^ 31 ->
  exists w' r, mmc_read_blocks send_cmd m dst start n w = Some (w', r) /\ moved w w' dst (n * 512) /\
    (r = 0 \/ r = n /\ bytes_at (ram w') dst (Z.to_nat (n * 512)) = bytes_at (disk w) (addressed start) (Z.to_nat (n * 512))).
Proof.
  intros Hn. unfold mmc_read_blocks. rewrite Hlen. set (cmd := Cmd _ _ _ _).
  destruct (card_read cmd dst n w eq_refl ltac:(lia)) as (w1 & resp & ret & E & Hr & Ho & Hd & Hb).
  rewrite E. cbn [mbind option_bind]. assert (moved w w1 dst (n * 512)) as M1 by done.
  destruct (Z.eqb_spec ret 0) as [->|Hret]; cbn [negb]; [|exists w1, 0; split_and!; [done|done|by left] ].
  specialize (Hb eq_refl). assert (offset_of m cmd = addressed start) as Ea by (unfold offset_of, addressed; by destruct (high_capacity m)).
  rewrite Ea in Hb. rewrite (s32_small n) by lia. clear E.
  destruct (1 <? n).
  - destruct (stop_quiet w1 dst (n * 512)) as (w2 & r2 & E2 & Hr2 & M2). rewrite E2. cbn [mbind option_bind].
    assert (moved w w2 dst (n * 512)) as M by (eapply moved_trans; [exact M1|exact M2|lia..]).
    destruct (negb (r2 =? 0)); [exists w2, 0; split_and!; [done|done|by left]|].
    destruct (status_quiet 1000 w2 dst (n * 512)) as (w3 & r3 & E3 & Hr3 & M3). rewrite E3. cbn [mbind option_bind].
    exists w3, n. split; [done|]. split; [eapply moved_trans; [exact M|exact M3|lia..]|]. right. by rewrite Hr3, Hr2.
  - destruct (status_quiet 1000 w1 dst (n * 512)) as (w3 & r3 & E3 & Hr3 & M3). rewrite E3. cbn [mbind option_bind].
    exists w3, n. split; [done|]. split; [eapply moved_trans; [exact M1|exact M3|lia..]|]. right. by rewrite Hr3.
Qed.

(** The loop of [mmc_bread]: in pieces, the whole run of blocks. *)
Lemma bread_loop_spec : 0 < b_max m < 2 ^ 31 -> forall fuel todo start dst w,
  0 < todo < 2 ^ 23 -> Z.of_nat fuel >= todo -> 0 <= start -> start + todo < 2 ^ 32 ->
  exists w' ok, bread_loop send_cmd fuel m start todo dst w = Some (w', ok) /\ moved w w' dst (todo * 512) /\
    (ok = true -> high_capacity m = true \/ (start + todo) * 512 <= 2 ^ 32 ->
     bytes_at (ram w') dst (Z.to_nat (todo * 512)) = bytes_at (disk w) (start * 512) (Z.to_nat (todo * 512))).
Proof.
  intros Hmax. induction fuel as [|fuel IH]; intros todo start dst w Ht Hf Hs Hst; [lia|]. cbn [bread_loop].
  set (cur := if b_max m <? todo then b_max m else todo).
  assert (0 < cur <= todo) as Hcur by (unfold cur; destruct (Z.ltb_spec (b_max m) todo); lia).
  destruct (read_blocks_spec dst start cur w ltac:(lia)) as (w1 & r & E & M1 & Hr). rewrite E. cbn [mbind option_bind].
  destruct (Z.eqb_spec (u32 r) cur) as [Er|Er]; cbn [negb].
  2: { exists w1, false. split_and!; [done| |done]. eapply moved_trans; [exact M1|apply (moved_refl w1 dst 0)|lia..]. }
  assert (r = cur /\ bytes_at (ram w1) dst (Z.to_nat (cur * 512)) = bytes_at (disk w) (addressed start) (Z.to_nat (cur * 512))) as [-> Hb].
  { destruct Hr as [->|Hr]; [|done]. change (u32 0) with 0 in Er. lia. }
  clear Er E. rewrite (u32_small (todo - cur)) by lia. destruct (Z.ltb_spec 0 (todo - cur)) as [Hmore|Hdone].
  - rewrite (u32_small (start + cur)), Hlen, (u32_small (cur * 512)) by lia.
    destruct (IH (todo - cur) (start + cur) (dst + cur * 512) w1) as (w2 & ok & E2 & M2 & Hb2); [lia..|].
    exists w2, ok. split; [exact E2|]. split; [eapply moved_trans; [exact M1|exact M2|lia..]|]. intros Hok Hcap.
    specialize (Hb2 Hok ltac:(destruct Hcap; [by left|right; lia])). rewrite addressed_small in Hb by (destruct Hcap; [by left|right; lia]).
    replace (Z.to_nat (todo * 512)) with (Z.to_nat (cur * 512) + Z.to_nat ((todo - cur) * 512))%nat by lia.
    rewrite !bytes_at_app, !Z2Nat.id by lia. replace (start * 512 + cur * 512) with ((start + cur) * 512) by lia.
    f_equal.
    + rewrite <- Hb. apply bytes_at_ext. intros q Hq. apply (mv_ram _ _ _ _ M2). lia.
    + rewrite Hb2. apply bytes_at_ext. intros q _. apply (mv_disk _ _ _ _ M1).
  - assert (cur = todo) as -> by lia. exists w1, true. split; [done|]. split; [done|]. intros _ Hcap. rewrite Hb, addressed_small; [done|].
    destruct Hcap; [by left|right; lia].
Qed.

(** The loop comes to an end for every number of blocks; more fuel than
    enough changes nothing. *)
Lemma bread_loop_total : 0 < b_max m < 2 ^ 31 -> forall fuel todo start dst w, 0 < todo < 2 ^ 32 -> todo <= Z.of_nat fuel ->
  is_Some (bread_loop send_cmd fuel m start todo dst w).
Proof.
  intros Hmax. induction fuel as [|fuel IH]; intros todo start dst w Ht Hf; [lia|]. cbn [bread_loop].
  set (cur := if b_max m <? todo then b_max m else todo).
  assert (0 < cur <= todo /\ cur < 2 ^ 31) as Hcur by (unfold cur; destruct (Z.ltb_spec (b_max m) todo); lia).
  destruct (read_blocks_spec dst start cur w ltac:(lia)) as (w1 & r & E & _ & _). rewrite E. cbn [mbind option_bind].
  destruct (negb (u32 r =? cur)); [by eexists|]. rewrite u32_small by lia.
  destruct (Z.ltb_spec 0 (todo - cur)); [apply IH; lia|by eexists].
Qed.

Lemma bread_loop_mono r : forall fuel fuel' start todo dst w, (fuel <= fuel')%nat ->
  bread_loop send_cmd fuel m start todo dst w = Some r -> bread_loop send_cmd fuel' m start todo dst w = Some r.
Proof.
  induction fuel as [|fuel IH]; intros [|fuel'] start todo dst w Hle; cbn [bread_loop]; try done; try lia.
  destruct (mmc_read_blocks _ _ _ _ _ _) as [ [w1 n]|]; cbn [mbind option_bind]; [|done].
  destruct (negb _); [done|]. destruct (0 <? _); [|done]. apply IH. lia.
Qed.

Lemma mmc_vs_read_mono mmc_devices n fuel fuel' w buf start length x r : find_mmc_device mmc_devices n = Some m -> (fuel <= fuel')%nat ->
  mmc_vs_read send_cmd mmc_devices fuel n w buf start length x = Some r -> mmc_vs_read send_cmd mmc_devices fuel' n w buf start length x = Some r.
Proof.
  intros Hfind Hle. unfold mmc_vs_read, mmc_bread. rewrite Hfind. destruct (_ =? 0); [done|]. destruct (_ <? _); [done|].
  destruct (mmc_set_blocklen _ _ _ _) as [ [w1 r1]|]; cbn [mbind option_bind]; [|done]. destruct (negb _); [done|].
  destruct (bread_loop send_cmd fuel m _ _ _ _) as [ok|] eqn:E; [|done]. by rewrite (bread_loop_mono _ _ fuel' _ _ _ _ Hle E).
Qed.

(** With a card in the slot the driver is a function on all requests. *)
Definition mmc_read mmc_devices n w (buf start length x : Z) : world D * Z :=
  default (w, 0) (mmc_vs_read send_cmd mmc_devices (Z.to_nat (u32 (Z.shiftr length 9))) n w buf start length x).

Lemma mmc_read_is mmc_devices n w buf start length x : find_mmc_device mmc_devices n = Some m -> 0 < b_max m < 2 ^ 31 ->
  mmc_vs_read send_cmd mmc_devices (Z.to_nat (u32 (Z.shiftr length 9))) n w buf start length x = Some (mmc_read mmc_devices n w buf start length x).
Proof.
  intros Hfind Hmax. unfold mmc_read. set (b := u32 (Z.shiftr length 9)). assert (0 <= b < 2 ^ 32) as Hb by apply u32_range.
  assert (is_Some (mmc_vs_read send_cmd mmc_devices (Z.to_nat b) n w buf start length x)) as [ [w' r] ->]; [|done].
  unfold mmc_vs_read, mmc_bread. fold b. rewrite Hfind. destruct (Z.eqb_spec b 0); [by eexists|]. destruct (_ <? _); [by eexists|].
  destruct (blocklen_quiet (read_bl_len m) w 0 0) as (w1 & r1 & E1 & _). rewrite E1. cbn [mbind option_bind]. destruct (negb _); [by eexists|].
  destruct (bread_loop_total Hmax (Z.to_nat b) b (u32 (Z.shiftr start 9)) buf w1) as [ [w2 ok] E2]; [lia|lia|]. rewrite E2. by eexists.
Qed.

(** What the driver reports for [length] bytes when it has read them. *)
Definition reported (length : Z) : Z := s32 (length / 512 * (length / 512)).

(** The driver leaves the bytes of the card in the buffer, or says 0; what it
    says otherwise is the square of the number of the blocks. *)
Theorem mmc_vs_read_spec mmc_devices n fuel w buf start length x :
  find_mmc_device mmc_devices n = Some m -> 0 < b_max m < 2 ^ 31 -> length / 512 <= Z.of_nat fuel ->
  0 <= start -> start mod 512 = 0 -> 0 < length < 2 ^ 31 -> length mod 512 = 0 -> start + length < 2 ^ 41 ->
  exists w' r, mmc_vs_read send_cmd mmc_devices fuel n w buf start length x = Some (w', r) /\ moved w w' buf length /\
    (r = 0 \/ r = reported length /\
      (high_capacity m = true \/ start + length <= 2 ^ 32 ->
       bytes_at (ram w') buf (Z.to_nat length) = bytes_at (disk w) start (Z.to_nat length))).
Proof.
  intros Hfind Hmax Hfuel Hs Hsm Hl Hlm Hend. unfold mmc_vs_read, mmc_bread, reported. rewrite !Z.shiftr_div_pow2 by lia. change (2 ^ 9) with 512.
  assert (exists a, start = a * 512) as [a ->] by (exists (start / 512); rewrite (Z.div_mod start 512) at 1 by lia; lia).
  assert (exists b, length = b * 512) as [b ->] by (exists (length / 512); rewrite (Z.div_mod length 512) at 1 by lia; lia).
  clear Hsm Hlm. rewrite !Z.div_mul in * by lia. rewrite (u32_small a), (u32_small b), (proj2 (Z.eqb_neq b 0)), Hfind by lia.
  assert (forall w', moved w w' buf (b * 512) -> exists w1 r, Some (w', s32 (b * 0)) = Some (w1, r) /\ moved w w1 buf (b * 512) /\
    (r = 0 \/ r = s32 (b * b) /\ (high_capacity m = true \/ a * 512 + b * 512 <= 2 ^ 32 ->
      bytes_at (ram w1) buf (Z.to_nat (b * 512)) = bytes_at (disk w) (a * 512) (Z.to_nat (b * 512))))) as Hzero.
  { intros w' M. exists w', 0. split; [by rewrite Z.mul_0_r|]. split; [done|by left]. }
  destruct (lba m <? u32 (a + b)); [cbn [mbind option_bind]; apply Hzero, moved_refl|].
  destruct (blocklen_quiet (read_bl_len m) w buf (b * 512)) as (w1 & r1 & E1 & M1). rewrite E1. cbn [mbind option_bind].
  destruct (negb (r1 =? 0)); [cbn [mbind option_bind]; by apply Hzero|].
  destruct (bread_loop_spec Hmax fuel b a buf w1) as (w2 & ok & E2 & M2 & Hb); [lia..|]. rewrite E2. cbn [mbind option_bind].
  assert (moved w w2 buf (b * 512)) as M by (eapply moved_trans; [exact M1|exact M2|lia..]).
  destruct ok; [|by apply Hzero]. exists w2, (s32 (b * b)). split; [done|]. split; [done|]. right. split; [done|].
  intros Hcap. rewrite Hb by (done || (destruct Hcap; [by left|right; lia])). apply bytes_at_ext. intros q _. apply (mv_disk _ _ _ _ M1).
Qed.

(** So it never reports the 4 KiB at the front of an image: at most 64. *)
Corollary mmc_reports_short mmc_devices n fuel w buf start x :
  find_mmc_device mmc_devices n = Some m -> 0 < b_max m < 2 ^ 31 -> (8 <= fuel)%nat -> 0 <= start < 2 ^ 40 -> start mod 512 = 0 ->
  exists w' r, mmc_vs_read send_cmd mmc_devices fuel n w buf start 0x1000 x = Some (w', r) /\ moved w w' buf 0x1000 /\ 0 <= r <= 64.
Proof.
  intros Hfind Hmax Hfuel Hs Hsm.
  destruct (mmc_vs_read_spec mmc_devices n fuel w buf start 0x1000 x) as (w' & r & E & M & Hr); try done; try lia; [change (0x1000 / 512) with 8; lia|].
  exists w', r. split; [done|]. split; [done|]. destruct Hr as [->|[-> _] ]; [lia|]. change (reported 0x1000) with 64. lia.
Qed.
End Card.

(** ** What a stick does *)

Section Stick.
Context {D : Type} (disk : world D -> mem) (apart : Z -> Z -> Prop) (hi : Z).
Implicit Type w : world D.

(** The stick answers every request; in its range it transfers the blocks. *)
Class Stick (d : block_dev_desc D) : Prop := {
  stick_range : hi <= 2 ^ 40;
  stick_sub p n q k : apart p n -> p <= q -> 0 <= k -> q + k <= p + n -> apart q k;
  stick_frame w w' p n x : apart p n -> same_except (ram w) (ram w') p (Z.to_nat n) -> dev w' = dev w -> 0 <= x < hi -> disk w' x = disk w x;
  stick_answers no blk cnt buf w : is_Some (block_read d no blk cnt buf w);
  stick_read no blk cnt buf w w' r : block_read d no blk cnt buf w = Some (w', r) ->
    0 <= blk -> 0 < cnt -> (blk + cnt) * 512 <= hi -> apart buf (cnt * 512) ->
    bytes_at (ram w') buf (Z.to_nat (cnt * 512)) = bytes_at (disk w) (blk * 512) (Z.to_nat (cnt * 512)) /\
    same_except (ram w) (ram w') buf (Z.to_nat (cnt * 512)) /\ (forall x, 0 <= x < hi -> disk w' x = disk w x)
}.

Context (u : usb D) (d : block_dev_desc D) (Hd : udisk_dev u = Some d) `{!Stick d}.

(** With a stick found, [udisk_vs_read] is a function on all requests. *)
Definition udisk_read w (buf start length extra : Z) : world D * Z := default (w, -1) (udisk_vs_read u w buf start length extra).

Lemma udisk_read_eq w buf start length extra : exists w' r,
  block_read d (usb_stor_curr_dev u) (u32 (s32 (Z.quot start 512))) (u32 (Z.quot length 512)) buf w = Some (w', r) /\
  udisk_vs_read u w buf start length extra = Some (w', s32 (Z.quot length 512 * 512)).
Proof.
  unfold udisk_vs_read. rewrite Hd. destruct (stick_answers (usb_stor_curr_dev u) (u32 (s32 (Z.quot start 512))) (u32 (Z.quot length 512)) buf w) as [ [w' r] E].
  rewrite E. cbn [mbind option_bind]. exists w', r. split; [done|]. by destruct (negb _).
Qed.

Lemma udisk_read_is w buf start length extra : udisk_vs_read u w buf start length extra = Some (udisk_read w buf start length extra).
Proof. unfold udisk_read. destruct (udisk_read_eq w buf start length extra) as (w' & r & _ & ->). done. Qed.

(** It says how many bytes it was asked for: even when it could not read them. *)
Lemma udisk_reports w buf start length extra : 0 < length < 2 ^ 31 -> length mod 512 = 0 -> (udisk_read w buf start length extra).2 = length.
Proof.
  intros Hl Hm. unfold udisk_read. destruct (udisk_read_eq w buf start length extra) as (w' & r & _ & ->). cbn.
  pose proof (Z.div_mod length 512 ltac:(lia)). rewrite Z.quot_div_nonneg, s32_small by lia. lia.
Qed.

(** The stick is a block device for [vs_read]. *)
#[export] Instance udisk_block_device : BlockDevice udisk_read disk apart 9 0 hi.
Proof.
  pose proof stick_range as Hhi. split; [lia|lia|apply stick_sub| |].
  - intros w w' p n x Ha Hs Hdev Hx. by eapply stick_frame.
  - intros w buf start len extra Hs Hl Hlen Hlo Hend Ha. change (2 ^ 9) with 512 in *.
    pose proof (udisk_reports w buf start len extra ltac:(lia) Hl) as Hr. pose proof (udisk_read_is w buf start len extra) as Ei.
    destruct (udisk_read_eq w buf start len extra) as (w' & r & E & Eu). rewrite Eu in Ei. injection Ei as Ei. rewrite <- Ei in *. cbn in Hr. rewrite Hr.
    exists w', len. split; [done|]. split; [lia|]. rewrite !Z.quot_div_nonneg in E by lia.
    assert (exists a, start = a * 512) as [a ->] by (exists (start / 512); rewrite (Z.div_mod start 512) at 1 by lia; lia).
    assert (exists b, len = b * 512) as [b ->] by (exists (len / 512); rewrite (Z.div_mod len 512) at 1 by lia; lia).
    rewrite !Z.div_mul in E by lia. rewrite s32_small, !u32_small in E by lia. by eapply stick_read; [exact E|lia|lia|lia|].
Qed.
End Stick.

(** After the first reset of a stick that is there, further resets change
    nothing. *)
Theorem udisk_reset_stable {D} usb_stop usb_init usb_stor_scan (get : world D -> Z -> option (block_dev_desc D)) u w index d :
  usb_initialized u = true -> get w index = Some d -> udisk_dev u = Some d -> usb_stor_curr_dev u = index ->
  udisk_reset usb_stop usb_init usb_stor_scan get u w index = (u, w, 0) /\
  (bd_blksz d = 512 -> udisk_vs_align usb_stop usb_init usb_stor_scan get u w index = (u, w, 2 ^ 9)) /\
  (0 < bd_lba d < 2 ^ 32 -> udisk_vs_capacity usb_stop usb_init usb_stor_scan get u w index = (u, w, bd_lba d)).
Proof.
  intros Hi Hg Hd Hc. assert (udisk_reset usb_stop usb_init usb_stor_scan get u w index = (u, w, 0)) as E.
  { unfold udisk_reset, get_dev. rewrite Hi, Hg. destruct u. cbn in *. by subst. }
  split; [exact E|]. unfold udisk_vs_align, udisk_vs_capacity. rewrite E, Hd. split; intros H.
  - by rewrite H.
  - by rewrite (proj2 (Z.eqb_neq _ 0)) by lia.
Qed.

(** ** A card and a stick whose state is their contents *)

Definition contents (w : world mem) : mem := fun x => u8 (dev w x).

Definition soft_card (m : mmc) (cmd : mmc_cmd) (data : option mmc_data) (w : world mem) : option (world mem * Z * Z) :=
  match data with
  | None => Some (w, MMC_STATUS_RDY_FOR_DATA, 0)
  | Some d =>
      let n := Z.to_nat (blocks d * blocksize d) in
      if data_flags d =? MMC_DATA_READ
      then Some (World (store (ram w) (addr d) (bytes_at (contents w) (offset_of m cmd) n)) (dev w), 0, 0)
      else Some (World (ram w) (store (dev w) (offset_of m cmd) (bytes_at (ram w) (addr d) n)), 0, 0)
  end.

Lemma contents_ok w : mem_ok (contents w).
Proof. intros x. unfold is_byte, contents, u8. apply Z.mod_pos_bound. lia. Qed.

#[export] Instance soft_card_ok m : Card soft_card contents m.
Proof.
  split; [intros cmd w _; by eexists _, _, _|]. intros cmd dst n w _ Hn. eexists _, _, _. split; [done|]. cbn [ram dev blocks blocksize addr].
  pose proof (same_except_store (ram w) dst (bytes_at (contents w) (offset_of m cmd) (Z.to_nat (n * 512)))) as Hs.
  pose proof (bytes_at_store (ram w) dst (bytes_at (contents w) (offset_of m cmd) (Z.to_nat (n * 512)))) as Hb.
  rewrite !length_bytes_at in Hs, Hb. split_and!; [done| |done|done].
  intros Hm. apply mem_ok_store; [done|]. apply bytes_ok_bytes_at, contents_ok.
Qed.

Definition soft_stick : block_dev_desc mem :=
  BlockDev (fun _ blk cnt buf w => Some (World (store (ram w) buf (bytes_at (dev w) (blk * 512) (Z.to_nat (cnt * 512)))) (dev w), cnt))
    (fun _ blk cnt buf w => Some (World (ram w) (store (dev w) (blk * 512) (bytes_at (ram w) buf (Z.to_nat (cnt * 512)))), cnt)) 512 0x200000.

#[export] Instance soft_stick_ok : Stick dev (fun _ _ => True) (2 ^ 30) soft_stick.
Proof.
  split; [lia|done|by intros w w' p n x _ _ -> _|by eexists|].
  intros no blk cnt buf w w' r [= <- <-] _ _ _ _. cbn [ram dev].
  pose proof (same_except_store (ram w) buf (bytes_at (dev w) (blk * 512) (Z.to_nat (cnt * 512)))) as Hs.
  pose proof (bytes_at_store (ram w) buf (bytes_at (dev w) (blk * 512) (Z.to_nat (cnt * 512)))) as Hb.
  rewrite !length_bytes_at in Hs, Hb. done.
Qed.

(** The first stick, after the scan. *)
Definition plugged : usb mem := Usb 0 true (Some soft_stick).
