(* ===== verification/Items.v ===== *)
(** * Items: infotm/strategy/items/items.c, the board configuration

    A text of "key value" lines is parsed into the static array [items] of
    200 pairs of 64-byte strings; the boot code then looks items up by key,
    a value having several sections separated by dots.  Text and array are
    both in the byte memory, so that an over-long token overwrites what
    follows its field, as it does in C.  The loops over the array have no
    bound in the source: they take [fuel] and return [None] without it. *)

From S2P Require Import Prelude Mem CString Ctype Vsprintf.
Local Open Scope Z_scope.

Definition ITEM_MAX_LEN := 64.
Definition ITEM_MAX_COUNT := 200.
Definition PARSE_LIMIT : nat := 256.
Definition LINEF0 := 10.
Definition LINEF1 := 13.
Definition ITEMS_EINT := 9999.
Definition EFAULT := 14.

Definition is_white (c : Z) : bool := (c =? 32) || (c =? 9).
Definition is_linef (c : Z) : bool := (c =? LINEF0) || (c =? LINEF1).

(** ** Parsing *)

(** [for (; stop at *s; s++, c++)] with [c < PARSE_LIMIT]: [n] characters
    are left; [NULL] when the limit is reached. *)
Fixpoint skip_while (go : Z -> bool) (m : mem) (s : Z) (n : nat) : Z :=
  match n with
  | O => NULL
  | S n => if go (m s) then skip_while go m (s + 1) n else s
  end.

Definition skip_white (m : mem) (s : Z) : Z := skip_while is_white m s PARSE_LIMIT.
Definition skip_linef (m : mem) (s : Z) : Z := skip_while is_linef m s PARSE_LIMIT.
Definition skip_line (m : mem) (s : Z) : Z :=
  let s := skip_while (fun c => negb (is_linef c)) m s PARSE_LIMIT in
  if s =? NULL then NULL else skip_linef m s.

(** The loop of [__copy], and the terminating NUL. *)
Fixpoint copy_loop (m : mem) (buf src : Z) (n : nat) : mem * Z :=
  match n with
  | O => (upd m buf 0, src)
  | S n =>
      if negb (is_white (m src)) && negb (is_linef (m src))
      then copy_loop (upd m buf (m src)) (buf + 1) (src + 1) n
      else (upd m buf 0, src)
  end.

Definition __copy (m : mem) (buf src : Z) : mem * Z := copy_loop m buf src PARSE_LIMIT.

(** "items.end" *)
Definition items_end : list Z := [105; 116; 101; 109; 115; 46; 101; 110; 100].

(** [strncmp(s, lit, strlen(lit)) == 0] for a literal. *)
Fixpoint at_literal (m : mem) (s : Z) (lit : list Z) : bool :=
  match lit with
  | [] => true
  | c :: lit => (m s =? c) && at_literal m (s + 1) lit
  end.

(** [struct imap_item] at [t]: the key, then the string. *)
Definition item_size : Z := 2 * ITEM_MAX_LEN.
Definition key (t : Z) : Z := t.
Definition string (t : Z) : Z := t + ITEM_MAX_LEN.

Definition _parse_line (m : mem) (t s : Z) : mem * Z :=
  let s := skip_white m s in
  let s := if s =? NULL then s else skip_linef m s in
  if negb (s =? NULL) && negb (m s =? 35) then
    if at_literal m s items_end then (m, NULL) else
    (* check for key *)
    let '(m, s) := __copy m (key t) s in
    if s =? NULL then (m, skip_line m s) else
    let s := skip_white m s in
    if is_linef (m s) then (m, skip_line m s) else
    let s := if s =? NULL then s else skip_linef m s in
    (* check for string *)
    let '(m, s) := __copy m (string t) s in
    (m, skip_line m s)
  else (m, skip_line m s).

(** The loop of [item_init]: [i] items so far, the text at [s]. *)
Fixpoint init_loop (fuel : nat) (m : mem) (items s e i : Z) : option (mem * Z) :=
  match fuel with
  | O => None
  | S fuel =>
      if (i <? ITEM_MAX_COUNT) && (s <? e) then
        let t := items + item_size * i in
        let m := upd (upd m (string t) 0) (key t) 0 in
        let '(m, s) := _parse_line m t s in
        if s =? NULL then Some (m, i)
        else if m (key t) =? 0 then init_loop fuel m items s e i
        else init_loop fuel m items s e (i + 1)
      else Some (m, i)
  end.

(** The number of items, for the text of [len] bytes at [txt]; [items] is
    the address of the array. *)
Definition item_init (fuel : nat) (m : mem) (items txt len : Z) : option (mem * Z) :=
  init_loop fuel (memset m items 0 (item_size * ITEM_MAX_COUNT)) items txt (txt + len) 0.

(** ** Looking up *)

(** The first item, in the order of the array, that [found] accepts. *)
Fixpoint search {A} (fuel : nat) (m : mem) (found : Z -> option A) (t : Z) : option (option A) :=
  match fuel with
  | O => None
  | S fuel =>
      if m (key t) =? 0 then Some None
      else match found t with
           | Some a => Some (Some a)
           | None => search fuel m found (t + item_size)
           end
  end.

(** What [item_list] prints: the index, the key and the string of the items
    whose key starts with [subset] ([NULL]: all). *)
Fixpoint list_loop (fuel : nat) (m : mem) (subset t i : Z) : option (list (Z * Z * Z)) :=
  match fuel with
  | O => None
  | S fuel =>
      if m (key t) =? 0 then Some []
      else
        let rest := list_loop fuel m subset (t + item_size) (i + 1) in
        if (subset =? NULL) ||
           (strncmp m (key t) subset (strnlen m subset ITEM_MAX_LEN) =? 0)
        then cons (i, key t, string t) <$> rest else rest
  end.

Definition item_list (fuel : nat) (m : mem) (items subset : Z) : option (list (Z * Z * Z)) :=
  list_loop fuel m subset items 0.

Definition item_exist (fuel : nat) (m : mem) (items k : Z) : option Z :=
  r ← search fuel m (fun t =>
        if strncmp m (key t) k (strnlen m k ITEM_MAX_LEN) =? 0 then Some tt else None) items;
  Some (match r with Some _ => 1 | None => 0 end).

(** The loop of [__string_sec], from [p] with [c] dots passed. *)
Fixpoint sec_loop (fuel : nat) (m : mem) (p c sec : Z) : option Z :=
  match fuel with
  | O => None
  | S fuel =>
      if negb (m p =? 0) && (c <=? sec) then
        let '(p, c) := if m p =? 46 then (p + 1, c + 1) else (p, c) in
        if c =? sec then Some p else sec_loop fuel m (p + 1) c sec
      else Some NULL
  end.

Definition __string_sec (fuel : nat) (m : mem) (str sec : Z) : option Z :=
  sec_loop fuel m str 0 sec.

(** The search of [item_string]: over the fields [f], the section being
    taken from the other field [g]; [None] in the result is -EFAULT. *)
Fixpoint string_loop (fuel : nat) (m : mem) (f g : Z -> Z) (k sec t : Z) : option Z :=
  match fuel with
  | O => None
  | S fuel' =>
      if m (key t) =? 0 then Some NULL
      else if strncmp m (f t) k ITEM_MAX_LEN =? 0 then
        s ← __string_sec fuel m (g t) sec;
        if s =? NULL then string_loop fuel' m f g k sec (t + item_size) else Some s
      else string_loop fuel' m f g k sec (t + item_size)
  end.

Definition item_string (fuel : nat) (m : mem) (items buf k sec : Z) : option (mem * Z) :=
  s ← string_loop fuel m key string k sec items;
  if s =? NULL then Some (m, - EFAULT) else Some (strncpy m buf s ITEM_MAX_LEN, 0).

Definition item_string_item (fuel : nat) (m : mem) (items buf str sec : Z) : option (mem * Z) :=
  s ← string_loop fuel m string key str sec items;
  if s =? NULL then Some (m, - EFAULT) else Some (strncpy m buf s ITEM_MAX_LEN, 0).

(** [buf] is the array on the stack; at most [fuel] characters of it are
    parsed. *)
Definition item_integer (fuel : nat) (m : mem) (items buf k sec : Z) : option (mem * Z) :=
  '(m, ret) ← item_string fuel m items buf k sec;
  Some (m, if negb (ret =? 0) then - ITEMS_EINT
           else (simple_strtol (bytes_at m buf fuel) 10).1).

Definition item_equal (fuel : nat) (m : mem) (items buf k value sec : Z) : option (mem * Z) :=
  '(m, ret) ← item_string fuel m items buf k sec;
  Some (m, if negb (ret =? 0) then 0
           else b2z (strncmp m buf value (strnlen m value ITEM_MAX_LEN) =? 0)).

(** ** Sections of a string *)

(** A section: at least one character, no dot. *)
Definition section_ok (s : list Z) : Prop := s <> [] /\ Forall (fun c => c <> 46) s.

(** The text after the first section. *)
Definition tail_text (ss : list (list Z)) : list Z := concat (map (cons 46) ss).

Definition join (ss : list (list Z)) : list Z :=
  match ss with
  | [] => []
  | s :: ss => s ++ tail_text ss
  end.

(** Where section [n + 1] starts, from the end of section 0. *)
Fixpoint sec_offset (ss : list (list Z)) (n : nat) : Z :=
  match ss, n with
  | s :: ss, S n => 1 + Z.of_nat (length s) + sec_offset ss n
  | _, _ => 1
  end.

(** From inside a section, whose remaining characters are [s]. *)
Lemma sec_loop_inside m ss : forall s fuel p c sec,
  cstr_at m p (s ++ tail_text ss) -> Forall (fun c => c <> 46) s -> Forall section_ok ss ->
  c < sec -> (length (s ++ tail_text ss) < fuel)%nat ->
  sec_loop fuel m p c sec =
  Some (if sec - c <=? Z.of_nat (length ss)
        then p + Z.of_nat (length s) + sec_offset ss (Z.to_nat (sec - c) - 1) else NULL).
Proof.
  induction ss as [|s1 ss IH]; intros s; induction s as [|a s IHs];
    intros [|fuel] p c sec Hm Hs Hss Hc Hf; cbn [length] in Hf; try (simpl in Hf; lia);
    cbn [sec_loop].
  - apply cstr_at_nil in Hm. rewrite Hm. cbn [Z.eqb negb andb length].
    by rewrite (proj2 (Z.leb_gt (sec - c) (Z.of_nat 0))) by lia.
  - apply cstr_at_cons in Hm as (-> & Ha & Hm). apply Forall_cons in Hs as [Ha' Hs].
    rewrite (proj2 (Z.eqb_neq a 0)), (proj2 (Z.leb_le c sec)), (proj2 (Z.eqb_neq a 46)),
      (proj2 (Z.eqb_neq c sec)) by lia. cbn [negb andb].
    rewrite (IHs fuel) by (try done; simpl in Hf |- *; lia).
    cbn [length]. by rewrite (proj2 (Z.leb_gt (sec - c) (Z.of_nat 0))) by lia.
  - apply Forall_cons in Hss as [[Hne H46] Hss]. destruct s1 as [|b s1]; [done|].
    change (tail_text ((b :: s1) :: ss)) with (46 :: b :: s1 ++ tail_text ss) in *.
    apply cstr_at_cons in Hm as (-> & _ & Hm). change (46 =? 0) with false.
    rewrite (proj2 (Z.leb_le c sec)), Z.eqb_refl by lia. cbn [negb andb].
    destruct (Z.eqb_spec (c + 1) sec) as [<-|].
    { replace (c + 1 - c) with 1 by lia. cbn [length].
      rewrite (proj2 (Z.leb_le 1 _)) by lia. cbn [sec_offset Z.to_nat].
      f_equal. change (Z.to_nat 1 - 1)%nat with O. cbv iota. lia. }
    apply cstr_at_cons in Hm as (_ & _ & Hm). apply Forall_cons in H46 as [_ H46].
    rewrite (IH s1) by (try done; simpl in Hf; lia).
    f_equal. cbn [length].
    destruct (Z.leb_spec (sec - (c + 1)) (Z.of_nat (length ss)));
      [rewrite (proj2 (Z.leb_le (sec - c) _)) by lia|rewrite (proj2 (Z.leb_gt (sec - c) _)) by lia;
       done].
    replace (Z.to_nat (sec - c) - 1)%nat with (S (Z.to_nat (sec - (c + 1)) - 1)) by lia.
    cbn [sec_offset length]. lia.
  - change ((a :: s) ++ tail_text (s1 :: ss)) with (a :: s ++ tail_text (s1 :: ss)) in *.
    apply cstr_at_cons in Hm as (-> & Ha & Hm). apply Forall_cons in Hs as [Ha' Hs].
    rewrite (proj2 (Z.eqb_neq a 0)), (proj2 (Z.leb_le c sec)), (proj2 (Z.eqb_neq a 46)),
      (proj2 (Z.eqb_neq c sec)) by lia. cbn [negb andb].
    rewrite (IHs fuel) by (try done; simpl in Hf |- *; lia).
    f_equal. case_match; [|done]. cbn [length]. lia.
Qed.

(** The text from section [n] on, and where it starts. *)
Definition from_section (ss : list (list Z)) (n : nat) : list Z := join (drop n ss).

Definition section_pos (ss : list (list Z)) (n : nat) : Z :=
  match ss, n with
  | s :: ss, S n => Z.of_nat (length s) + sec_offset ss n
  | _, _ => 0
  end.

Lemma cstr_at_suffix m : forall s t p,
  cstr_at m p (s ++ t) -> cstr_at m (p + Z.of_nat (length s)) t.
Proof.
  induction s as [|a s IH]; intros t p H; cbn [length]; [by rewrite Z.add_0_r|].
  apply cstr_at_cons in H as (_ & _ & H). apply IH in H.
  by replace (p + Z.of_nat (S (length s))) with (p + 1 + Z.of_nat (length s)) by lia.
Qed.

Lemma sec_offset_spec m ss : forall s p n,
  cstr_at m p (s ++ tail_text ss) -> (n < length ss)%nat ->
  cstr_at m (p + Z.of_nat (length s) + sec_offset ss n) (join (drop n ss)).
Proof.
  induction ss as [|s1 ss IH]; intros s p n Hm Hn; cbn [length] in Hn; [lia|].
  apply cstr_at_suffix in Hm. apply cstr_at_cons in Hm as (_ & _ & Hm).
  destruct n as [|n]; [exact Hm|].
  replace (p + Z.of_nat (length s) + sec_offset (s1 :: ss) (S n))
    with (p + Z.of_nat (length s) + 1 + Z.of_nat (length s1) + sec_offset ss n)
    by (cbn [sec_offset]; lia).
  apply IH; [done|lia].
Qed.

Definition sections_ok (ss : list (list Z)) : Prop := ss <> [] /\ Forall section_ok ss.

Lemma string_sec_spec fuel m p ss sec :
  sections_ok ss -> cstr_at m p (join ss) -> (length (join ss) < fuel)%nat -> 0 <= sec ->
  __string_sec fuel m p sec =
    Some (if sec <? Z.of_nat (length ss) then p + section_pos ss (Z.to_nat sec) else NULL) /\
  (sec < Z.of_nat (length ss) ->
     cstr_at m (p + section_pos ss (Z.to_nat sec)) (from_section ss (Z.to_nat sec))).
Proof.
  intros [Hne Hok] Hm Hf Hs. destruct ss as [|s ss]; [done|].
  apply Forall_cons in Hok as [[Hs0 H46] Hok]. cbn [join] in *. unfold __string_sec.
  destruct (Z.eqb_spec sec 0) as [->|Hz].
  - rewrite (proj2 (Z.ltb_lt 0 _)) by (cbn [length]; lia). cbn [Z.to_nat section_pos].
    rewrite Z.add_0_r. split; [|done]. destruct s as [|a s]; [done|].
    apply cstr_at_cons in Hm as (Ep & Ha & Hm). apply Forall_cons in H46 as [Ha' H46].
    destruct fuel as [|fuel]; [simpl in Hf; lia|]. cbn [sec_loop].
    by rewrite Ep, (proj2 (Z.eqb_neq a 0)), (proj2 (Z.eqb_neq a 46)) by lia.
  - rewrite (sec_loop_inside m ss s) by (done || lia). rewrite Z.sub_0_r.
    replace (Z.to_nat sec) with (S (Z.to_nat sec - 1)) by lia. cbn [section_pos].
    cbn [length]. split.
    + f_equal. destruct (Z.leb_spec sec (Z.of_nat (length ss)));
        [rewrite (proj2 (Z.ltb_lt sec _)) by lia|rewrite (proj2 (Z.ltb_ge sec _)) by lia; done].
      replace (S (Z.to_nat sec - 1) - 1)%nat with (Z.to_nat sec - 1)%nat by lia. lia.
    + intros. unfold from_section. cbn [drop]. rewrite Z.add_assoc.
      apply sec_offset_spec; [done|lia].
Qed.

Lemma sec_offset_nonneg ss : forall n, 0 <= sec_offset ss n.
Proof.
  induction ss as [|s ss IH]; intros [|n]; cbn [sec_offset]; try lia.
  specialize (IH n). lia.
Qed.

Lemma section_pos_nonneg ss n : 0 <= section_pos ss n.
Proof.
  destruct ss as [|s ss], n as [|n]; cbn [section_pos]; try lia.
  pose proof (sec_offset_nonneg ss n). lia.
Qed.

Lemma from_section_length ss n :
  (n < length ss)%nat ->
  section_pos ss n + Z.of_nat (length (from_section ss n)) = Z.of_nat (length (join ss)).
Proof.
  destruct ss as [|s ss]; cbn [length]; [lia|]. intros Hn. destruct n as [|n]; [done|].
  cbn [section_pos join]. unfold from_section. cbn [drop]. rewrite length_app.
  assert (forall ss n, (n < length ss)%nat ->
    sec_offset ss n + Z.of_nat (length (join (drop n ss))) = Z.of_nat (length (tail_text ss)))
    as H; [|specialize (H ss n); lia].
  clear. induction ss as [|s ss IH]; intros n Hn; cbn [length] in Hn; [lia|].
  unfold tail_text. cbn [map concat app length]. rewrite length_app. fold (tail_text ss).
  destruct n as [|n]; cbn [sec_offset drop join]; [rewrite length_app; lia|].
  specialize (IH n). lia.
Qed.

(** [__string_sec] finds every section of a well-formed value: for
    section numbers the value has, the result points to the text that starts
    with that section; for others it is [NULL]. *)
Theorem __string_sec_correct fuel m p ss sec :
  sections_ok ss -> cstr_at m p (join ss) -> (length (join ss) < fuel)%nat ->
  p > 0 -> 0 <= sec ->
  exists q, __string_sec fuel m p sec = Some q /\
    (q = NULL <-> Z.of_nat (length ss) <= sec) /\
    (sec < Z.of_nat (length ss) -> cstr_at m q (from_section ss (Z.to_nat sec))).
Proof.
  intros Hok Hm Hf Hp Hs. destruct (string_sec_spec fuel m p ss sec Hok Hm Hf Hs) as [E C].
  rewrite E. eexists. split; [done|].
  pose proof (section_pos_nonneg ss (Z.to_nat sec)).
  destruct (Z.ltb_spec sec (Z.of_nat (length ss))); unfold NULL in *; split; auto; lia.
Qed.

(** ** The array, abstractly *)

(** An item: its key, and the sections of its string. *)
Abbreviation item := (list Z * list (list Z))%type.

(** The first item of key [k] that has section [sec]: its text from there. *)
Fixpoint item_lookup (l : list item) (k : list Z) (sec : Z) : option (list Z) :=
  match l with
  | [] => None
  | (k', ss) :: l =>
      if bool_decide (k' = k) && (sec <? Z.of_nat (length ss))
      then Some (from_section ss (Z.to_nat sec)) else item_lookup l k sec
  end.

Definition fits (s : list Z) : Prop := Z.of_nat (length s) < ITEM_MAX_LEN.

(** Field [f] of the entry at [t] is the key of the item, field [g] its
    string, and the entry is in use. *)
Record entry_at (f g : Z -> Z) (m : mem) (t : Z) (it : item) : Prop := {
  ea_key : cstr_at m (f t) it.1;
  ea_string : cstr_at m (g t) (join it.2);
  ea_used : m (key t) <> 0;
  ea_fit_key : fits it.1;
  ea_fit_string : fits (join it.2);
  ea_sections : sections_ok it.2
}.

(** The entries from [t] on hold [l], then comes a free one. *)
Fixpoint holds (f g : Z -> Z) (m : mem) (t : Z) (l : list item) : Prop :=
  match l with
  | [] => m (key t) = 0
  | it :: l => entry_at f g m t it /\ holds f g m (t + item_size) l
  end.

Lemma strncmp_fits m p q s t :
  mem_ok m -> cstr_at m p s -> cstr_at m q t -> fits s -> fits t ->
  (strncmp m p q ITEM_MAX_LEN =? 0) = bool_decide (s = t).
Proof.
  intros Hm Hs Ht Fs Ft.
  pose proof (strncmp_zero m p q s t ITEM_MAX_LEN Hm Hs Ht ltac:(unfold ITEM_MAX_LEN; words)) as E.
  unfold fits, ITEM_MAX_LEN in *. rewrite !take_ge in E by lia.
  case_bool_decide; [apply Z.eqb_eq|apply Z.eqb_neq]; tauto.
Qed.

Lemma string_loop_spec f g l : forall fuel m kp k sec t,
  (forall t, t <= g t <= t + ITEM_MAX_LEN) -> mem_ok m -> cstr_at m kp k -> fits k -> 0 <= sec -> 0 < t ->
  holds f g m t l -> (length l + 64 < fuel)%nat ->
  exists p, string_loop fuel m f g kp sec t = Some p /\
    match item_lookup l k sec with
    | Some s => p <> NULL /\ cstr_at m p s /\
        t <= p /\ p + Z.of_nat (length s) < t + item_size * Z.of_nat (length l)
    | None => p = NULL
    end.
Proof.
  induction l as [|[k' ss] l IH]; intros fuel m kp k sec t Hg Hm Hk Fk Hsec Ht Hl Hf;
    destruct fuel as [|fuel]; cbn [length] in Hf; try lia; cbn [string_loop holds item_lookup] in *.
  { rewrite Hl. by exists NULL. }
  destruct Hl as [[Ek Es Eu Fk' Fs Hss] Hl]. cbn [fst snd] in *.
  rewrite (proj2 (Z.eqb_neq _ _) Eu), (strncmp_fits m _ _ k' k) by done.
  assert (IH' := IH fuel m kp k sec (t + item_size)).
  destruct IH' as (p & Ep & IH'); try done; try (unfold item_size, ITEM_MAX_LEN in *; lia).
  assert (Hnext : match item_lookup l k sec with
    | Some s => p <> NULL /\ cstr_at m p s /\
        t <= p /\ p + Z.of_nat (length s) < t + item_size * Z.of_nat (S (length l))
    | None => p = NULL end).
  { destruct (item_lookup l k sec); [|done]. destruct IH' as (? & ? & ? & ?).
    unfold item_size, ITEM_MAX_LEN in *. split_and!; [done|done|lia|lia]. }
  rewrite Ep.
  destruct (bool_decide (k' = k)); cbn [andb]; [|by exists p].
  unfold fits, ITEM_MAX_LEN in Fs.
  destruct (string_sec_spec (S fuel) m (g t) ss sec Hss Es ltac:(lia) Hsec) as [-> C].
  cbn [mbind option_bind].
  destruct (Z.ltb_spec sec (Z.of_nat (length ss))); [|by exists p].
  specialize (Hg t). pose proof (from_section_length ss (Z.to_nat sec) ltac:(lia)). pose proof (section_pos_nonneg ss (Z.to_nat sec)).
  rewrite (proj2 (Z.eqb_neq _ NULL)) by (unfold NULL; lia).
  eexists. split; [done|]. unfold NULL, item_size, ITEM_MAX_LEN in *.
  cbn [length]. split_and!; [lia|auto|lia|lia].
Qed.

(** ** The lookups *)

Section Lookup.
Context (fuel : nat) (m : mem) (items buf kp sec : Z) (k : list Z) (l : list item).
Context (Hm : mem_ok m) (Hk : cstr_at m kp k) (Fk : fits k) (Hsec : 0 <= sec).
Context (Hitems : 0 < items) (Hf : (length l + 64 < fuel)%nat).
Context (Hbuf : buf + ITEM_MAX_LEN <= items \/
                items + item_size * Z.of_nat (length l) <= buf).

Lemma item_lookup_fits f g s :
  holds f g m items l -> item_lookup l k sec = Some s -> fits s.
Proof.
  clear. revert items. induction l as [|[k' ss] l' IH]; intros t Hl E; [done|].
  cbn [holds item_lookup] in *. destruct Hl as [[_ _ _ _ Fs _] Hl].
  destruct (bool_decide (k' = k)); cbn [andb] in E; [|by eapply IH].
  destruct (Z.ltb_spec sec (Z.of_nat (length ss))); [|by eapply IH].
  injection E as <-. cbn [snd] in Fs. unfold fits in *.
  destruct (decide (Z.to_nat sec < length ss)%nat).
  - pose proof (from_section_length ss (Z.to_nat sec) ltac:(lia)).
    pose proof (section_pos_nonneg ss (Z.to_nat sec)). lia.
  - unfold from_section. rewrite drop_ge by lia. unfold ITEM_MAX_LEN. cbn. lia.
Qed.

Lemma copy_section q s :
  cstr_at m q s -> fits s -> buf + ITEM_MAX_LEN <= q \/ q + Z.of_nat (length s) < buf ->
  cstr_at (strncpy m buf q ITEM_MAX_LEN) buf s /\
  same_except m (strncpy m buf q ITEM_MAX_LEN) buf 64.
Proof.
  intros Hq Fs Hd. unfold strncpy. rewrite u32_small by (unfold ITEM_MAX_LEN; lia).
  pose proof (strncpy_loop_spec m buf q s (Z.to_nat ITEM_MAX_LEN) Hq) as E.
  unfold strncpy_result, fits, ITEM_MAX_LEN in *. change (Z.to_nat 64) with 64%nat in *.
  rewrite take_ge in E by (rewrite length_app; cbn; lia). specialize (E ltac:(lia)). split.
  - eapply cstr_at_ext; [|apply (cstr_at_store m), Hq]. intros r _. apply E.
  - intros r Hr. rewrite E. apply store_outside. rewrite length_app. cbn. lia.
Qed.

Lemma string_found f g :
  (forall t, t <= g t <= t + ITEM_MAX_LEN) -> holds f g m items l ->
  exists q, string_loop fuel m f g kp sec items = Some q /\
    match item_lookup l k sec with
    | Some s => q <> NULL /\ cstr_at (strncpy m buf q ITEM_MAX_LEN) buf s /\
                same_except m (strncpy m buf q ITEM_MAX_LEN) buf 64
    | None => q = NULL
    end.
Proof.
  intros Hg Hl.
  destruct (string_loop_spec f g l fuel m kp k sec items) as (q & E & H); try done.
  exists q. split; [done|]. pose proof (item_lookup_fits f g) as Hfit.
  destruct (item_lookup l k sec) as [s|]; [|done]. destruct H as (? & Hq & ? & ?).
  split; [done|]. apply copy_section; [done|by eapply Hfit|lia].
Qed.

End Lookup.

(** [item_string] on a well-formed array is the lookup of its abstract
    contents: it stores the text from section [sec] on of the first item
    with the key that has this section and returns 0, or returns -EFAULT and
    stores nothing when there is none.  [item_string_item] is the same
    lookup with keys and strings exchanged. *)
Theorem item_string_correct fuel m items buf kp sec k l (by_string : bool) :
  mem_ok m -> cstr_at m kp k -> fits k -> 0 <= sec -> 0 < items ->
  (length l + 64 < fuel)%nat ->
  buf + ITEM_MAX_LEN <= items \/ items + item_size * Z.of_nat (length l) <= buf ->
  (if by_string then holds string key m items l else holds key string m items l) ->
  let r := (if by_string then item_string_item else item_string) fuel m items buf kp sec in
  match item_lookup l k sec with
  | Some s => exists m', r = Some (m', 0) /\ cstr_at m' buf s /\ same_except m m' buf 64
  | None => r = Some (m, - EFAULT)
  end.
Proof.
  intros Hm Hk Fk Hs Hi Hf Hb Hl.
  destruct by_string; cbn zeta; unfold item_string, item_string_item.
  - destruct (string_found fuel m items buf kp sec k l Hm Hk Fk Hs Hi Hf Hb string key)
      as (q & -> & H); [unfold key, ITEM_MAX_LEN; lia|done|]. cbn [mbind option_bind].
    destruct (item_lookup l k sec); [|by rewrite H].
    destruct H as (Hq & ?). rewrite (proj2 (Z.eqb_neq q NULL) Hq). eauto.
  - destruct (string_found fuel m items buf kp sec k l Hm Hk Fk Hs Hi Hf Hb key string)
      as (q & -> & H); [unfold string, ITEM_MAX_LEN; lia|done|]. cbn [mbind option_bind].
    destruct (item_lookup l k sec); [|by rewrite H].
    destruct H as (Hq & ?). rewrite (proj2 (Z.eqb_neq q NULL) Hq). eauto.
Qed.

Lemma mem_ok_strncpy m d q n : mem_ok m -> mem_ok (strncpy m d q n).
Proof.
  unfold strncpy. generalize (Z.to_nat (u32 n)) as c. intros c. revert m d q.
  induction c as [|c IH]; intros m d q Hm; cbn [strncpy_loop]; [done|].
  case_match; [|apply IH]; by apply mem_ok_upd.
Qed.

(** [item_equal] tells whether the text found starts with [value]: it
    compares as many characters as [value] has, not the whole section. *)
Theorem item_equal_correct fuel m items buf kp vp sec k v l :
  mem_ok m -> cstr_at m kp k -> fits k -> 0 <= sec -> 0 < items ->
  (length l + 64 < fuel)%nat ->
  buf + ITEM_MAX_LEN <= items \/ items + item_size * Z.of_nat (length l) <= buf ->
  holds key string m items l ->
  cstr_at m vp v -> fits v -> buf + ITEM_MAX_LEN <= vp \/ vp + Z.of_nat (length v) < buf ->
  exists m', item_equal fuel m items buf kp vp sec = Some (m', 
    b2z (match item_lookup l k sec with
         | Some s => bool_decide (take (length v) s = v)
         | None => false
         end)).
Proof.
  intros Hm Hk Fk Hs Hi Hf Hb Hl Hv Fv Hd. unfold item_equal, item_string.
  destruct (string_found fuel m items buf kp sec k l Hm Hk Fk Hs Hi Hf Hb key string)
    as (q & -> & H); [unfold string, ITEM_MAX_LEN; lia|done|].
  cbn [mbind option_bind]. destruct (item_lookup l k sec) as [s|]; [|rewrite H; by eexists].
  destruct H as (Hq & Hs' & Hx). rewrite (proj2 (Z.eqb_neq q NULL) Hq).
  cbn [mbind option_bind]. eexists. do 2 f_equal.
  change (negb (0 =? 0)) with false. cbv iota.
  assert (cstr_at (strncpy m buf q ITEM_MAX_LEN) vp v) as Hv'.
  { eapply cstr_at_ext; [|exact Hv]. intros r Hr. apply Hx.
    unfold ITEM_MAX_LEN in *. cbn [length] in Hr. lia. }
  assert (mem_ok (strncpy m buf q ITEM_MAX_LEN)) as Hm'.
  { by apply mem_ok_strncpy. }
  unfold fits, ITEM_MAX_LEN in *. rewrite (strnlen_spec _ _ v) by (done || words).
  f_equal. pose proof (strncmp_zero _ _ _ _ _ (Z.min 64 (Z.of_nat (length v))) Hm' Hs' Hv'
    ltac:(words)) as E.
  replace (Z.to_nat (Z.min 64 (Z.of_nat (length v)))) with (length v) in E by lia.
  rewrite (take_ge v (length v)) in E by done.
  case_bool_decide; [apply Z.eqb_eq|apply Z.eqb_neq]; tauto.
Qed.

(** ** The text of a configuration *)

(** The lines of the text: an item with its value, a key alone, a comment;
    blank runs are where the parser allows them. *)
Inductive line :=
| Entry (ind k sep v trail : list Z)
| Flag (ind k sep : list Z)
| Comment (ind text : list Z).

Definition line_text (ln : line) : list Z :=
  match ln with
  | Entry ind k sep v trail => ind ++ k ++ sep ++ v ++ trail
  | Flag ind k sep => ind ++ k ++ sep
  | Comment ind text => ind ++ 35 :: text
  end.

(** The item a line adds. *)
Definition line_item (ln : line) : list (list Z * list Z) :=
  match ln with
  | Entry _ k _ v _ => [(k, v)]
  | Flag _ k _ => [(k, [])]
  | Comment _ _ => []
  end.

Definition short (l : list Z) : Prop := (length l < PARSE_LIMIT)%nat.
Definition blanks (l : list Z) : Prop := Forall (fun c => is_white c = true) l /\ short l.
Definition eol_ok (l : list Z) : Prop :=
  Forall (fun c => is_linef c = true) l /\ short l /\ l <> [].
Definition stops (c : Z) : bool := is_white c || is_linef c.
Definition token (l : list Z) : Prop :=
  Forall (fun c => stops c = false /\ c <> 0) l /\ fits l /\ l <> [].
Definition key_ok (l : list Z) : Prop :=
  token l /\ hd 0 l <> 35 /\ take 9 l <> items_end.
(** What is left of a line after the value: up to the end of line. *)
Definition rest_ok (l : list Z) : Prop :=
  Forall (fun c => is_linef c = false) l /\ short l.

Definition line_ok (ln : line) : Prop :=
  match ln with
  | Entry ind k sep v trail =>
      blanks ind /\ key_ok k /\ blanks sep /\ sep <> [] /\ token v /\ rest_ok trail /\
      match trail with [] => True | c :: _ => is_white c = true end
  | Flag ind k sep => blanks ind /\ key_ok k /\ blanks sep
  | Comment ind text => blanks ind /\ rest_ok (35 :: text)
  end.

Definition text_of (ls : list (line * list Z)) : list Z :=
  concat (map (fun '(ln, eol) => line_text ln ++ eol) ls).

Definition items_of (ls : list (line * list Z)) : list (list Z * list Z) :=
  concat (map (fun '(ln, _) => line_item ln) ls).

Lemma skip_while_spec go m l c t : forall s n,
  text_at m s (l ++ c :: t) -> Forall (fun c => go c = true) l -> go c = false ->
  (length l < n)%nat -> skip_while go m s n = s + Z.of_nat (length l).
Proof.
  induction l as [|a l IH]; intros s [|n] Ht Hl Hc Hn; cbn [length] in Hn; try lia;
    apply text_at_cons in Ht as [Ea Ht]; cbn [skip_while]; rewrite Ea.
  - rewrite Hc. cbn [length]. lia.
  - apply Forall_cons in Hl as [-> Hl]. rewrite (IH (s + 1) n) by (done || lia).
    cbn [length]. lia.
Qed.

(** [__copy] stores the token and a NUL at [buf]. *)
Lemma copy_loop_spec c l : forall m buf s n,
  text_at m s (l ++ [c]) -> Forall (fun c => stops c = false) l -> stops c = true ->
  (length l < n)%nat ->
  buf + Z.of_nat (length l) < s \/ s + Z.of_nat (length l) < buf ->
  copy_loop m buf s n = (store m buf (l ++ [0]), s + Z.of_nat (length l)).
Proof.
  induction l as [|a l IH]; intros m buf s [|n] Ht Hl Hc Hn Hd; cbn [length] in *; try lia;
    apply text_at_cons in Ht as [Ea Ht]; cbn [copy_loop]; rewrite Ea, <- negb_orb.
  - fold (stops c). rewrite Hc. cbn [negb]. by rewrite Z.add_0_r.
  - apply Forall_cons in Hl as [Ha Hl]. fold (stops a). rewrite Ha. cbn [negb].
    rewrite IH; [|eapply text_at_same; [|exact Ht]|done|done|lia|lia].
    + cbn [app store]. f_equal. lia.
    + intros q Hq. apply upd_ne. rewrite length_app in Hq. cbn [length] in Hq. lia.
Qed.

Lemma at_literal_true m lit : forall s, at_literal m s lit = true <-> text_at m s lit.
Proof.
  induction lit as [|c lit IH]; intros s; [done|]. cbn [at_literal].
  rewrite text_at_cons, andb_true_iff, IH, Z.eqb_eq. done.
Qed.

(** A token followed by a blank or an end of line is "items.end" only when
    it starts with these characters. *)
Lemma not_items_end m s k c t :
  text_at m s (k ++ c :: t) -> Forall (fun c => stops c = false) k -> stops c = true ->
  take 9 k <> items_end -> at_literal m s items_end = false.
Proof.
  intros Ht Hk Hc Hn. apply not_true_iff_false. intros E%at_literal_true. apply Hn.
  apply text_at_app in Ht as [Hm Ht].
  destruct (Nat.le_gt_cases 9 (length k)) as [H9|H9].
  - rewrite <- (take_drop 9 k) in Hm. apply text_at_app in Hm as [Hm _].
    unfold text_at in Hm, E. rewrite length_take, Nat.min_l in Hm by done.
    rewrite <- Hm. exact E.
  - apply text_at_cons in Ht as [Ht _].
    pose proof (bytes_at_lookup m s 9 (length k) H9) as L. unfold text_at in E.
    change (length items_end) with 9%nat in E. rewrite E, Ht in L.
    apply list_elem_of_lookup_2 in L. exfalso.
    assert (Forall (fun c => stops c = false) items_end) as F by (by repeat constructor).
    rewrite Forall_forall in F. apply F in L. congruence.
Qed.

(** *** One line *)

(** The memory after the fields of a line were stored. *)
Definition line_mem (m : mem) (t : Z) (ln : line) : mem :=
  match ln with
  | Entry _ k _ v _ => store (store m (key t) (k ++ [0])) (string t) (v ++ [0])
  | Flag _ k _ => store m (key t) (k ++ [0])
  | Comment _ _ => m
  end.

Lemma stops_white c : is_white c = true -> stops c = true.
Proof. unfold stops. by intros ->. Qed.

Lemma stops_linef c : is_linef c = true -> stops c = true.
Proof. unfold stops. intros ->. apply orb_true_r. Qed.

Lemma linef_not_white c : is_linef c = true -> is_white c = false.
Proof. unfold is_linef, is_white, LINEF0, LINEF1. lia. Qed.

Lemma white_not_linef c : is_white c = true -> is_linef c = false.
Proof. unfold is_linef, is_white, LINEF0, LINEF1. lia. Qed.

Lemma not_stops c : stops c = false -> is_white c = false /\ is_linef c = false.
Proof. unfold stops. apply orb_false_elim. Qed.

(** From inside a line, to the start of the next one. *)
Lemma skip_line_spec m s r eol x :
  text_at m s (r ++ eol ++ [x]) -> rest_ok r -> eol_ok eol -> is_linef x = false -> 0 < s ->
  skip_line m s = s + Z.of_nat (length (r ++ eol)).
Proof.
  intros Ht [Hr Sr] (He & Se & Ne) Hx Hs. unfold skip_line, short in *.
  destruct eol as [|c eol]; [done|]. pose proof He as [Hc _]%Forall_cons.
  assert (Forall (fun c => negb (is_linef c) = true) r) as Hr'
    by (eapply Forall_impl; [exact Hr|]; intros a Ha; cbn; by rewrite Ha).
  rewrite (skip_while_spec _ m r c (eol ++ [x]) s) by (done || by rewrite Hc).
  rewrite (proj2 (Z.eqb_neq _ NULL)) by (unfold NULL; lia).
  apply text_at_app in Ht as [_ Ht]. unfold skip_linef.
  rewrite (skip_while_spec _ m (c :: eol) x []) by done. rewrite length_app. lia.
Qed.

(** At the start of a line: the blanks go, a character that is neither
    blank nor end of line is reached. *)
Lemma line_start m s ind c t :
  text_at m s (ind ++ c :: t) -> blanks ind -> stops c = false -> 0 < s ->
  skip_white m s = s + Z.of_nat (length ind) /\
  skip_linef m (s + Z.of_nat (length ind)) = s + Z.of_nat (length ind).
Proof.
  intros Ht [Hi Si] [Hw Hl]%not_stops Hs. unfold skip_white, skip_linef.
  rewrite (skip_while_spec _ m ind c t) by done. split; [done|].
  apply text_at_app in Ht as [_ Ht].
  rewrite (skip_while_spec _ m [] c t) by (done || (unfold PARSE_LIMIT; cbn; lia)).
  cbn [length]. lia.
Qed.

Lemma token_stops l : token l -> Forall (fun c => stops c = false) l.
Proof. intros [H _]. eapply Forall_impl; [exact H|]. by intros ? []. Qed.

Lemma token_head l : token l -> exists c l', l = c :: l' /\ stops c = false /\ c <> 0.
Proof.
  intros (H & _ & Hn). destruct l as [|c l]; [done|]. apply Forall_cons in H as [[? ?] _]. eauto.
Qed.

(** A blank run followed by the end of the line. *)
Lemma eol_head eol : eol_ok eol -> exists c e, eol = c :: e /\ is_linef c = true.
Proof.
  intros (H & _ & Hn). destruct eol as [|c e]; [done|]. apply Forall_cons in H as [? _]. eauto.
Qed.

Lemma nonnull z : 0 < z -> (z =? NULL) = false.
Proof. intros. apply Z.eqb_neq. unfold NULL. lia. Qed.

Lemma rest_ok_nil : rest_ok [].
Proof. split; [done|]. unfold short, PARSE_LIMIT. cbn. lia. Qed.

Section Line.
Context (m : mem) (t s : Z) (eol : list Z) (x : Z).
Context (Hs : 0 < s) (He : eol_ok eol) (Hx : is_linef x = false).

Lemma parse_comment ind text :
  blanks ind -> rest_ok (35 :: text) ->
  text_at m s (line_text (Comment ind text) ++ eol ++ [x]) ->
  _parse_line m t s = (m, s + Z.of_nat (length (line_text (Comment ind text) ++ eol))).
Proof.
  intros Hi Hr Ht. cbn [line_text] in *. rewrite <- app_assoc in Ht.
  destruct (line_start m s ind 35 (text ++ eol ++ [x])) as [E1 E2]; [done..|].
  unfold _parse_line. cbn zeta. rewrite E1, !(nonnull (s + Z.of_nat (length ind))) by lia.
  rewrite E2, nonnull by lia.
  apply text_at_app in Ht as [_ Ht]. pose proof Ht as [Eh _]%text_at_cons.
  rewrite Eh, Z.eqb_refl. cbn [negb andb]. f_equal.
  rewrite (skip_line_spec m _ (35 :: text) eol x) by (done || lia).
  rewrite !length_app. cbn [length]. lia.
Qed.

(** [__copy] of a token that a blank or the end of the line follows. *)
Lemma copy_token m' p s' k d u :
  text_at m' s' (k ++ d :: u) -> token k -> stops d = true ->
  p + ITEM_MAX_LEN <= s' \/ s' + Z.of_nat (length k) < p ->
  __copy m' p s' = (store m' p (k ++ [0]), s' + Z.of_nat (length k)).
Proof.
  intros Ht Hk Hd Hdis. replace (k ++ d :: u) with ((k ++ [d]) ++ u) in Ht
    by (by rewrite <- app_assoc).
  apply text_at_app in Ht as [Ht _]. pose proof Hk as (_ & Hf & _).
  unfold fits, ITEM_MAX_LEN in *.
  apply (copy_loop_spec d); [done|by apply token_stops|done|unfold PARSE_LIMIT; lia|lia].
Qed.

(** The key of an item line, at [s1] after the blanks. *)
Lemma parse_key ind k d u :
  blanks ind -> key_ok k -> stops d = true -> text_at m s (ind ++ k ++ d :: u) ->
  t + item_size <= s \/ s + Z.of_nat (length (ind ++ k ++ d :: u)) <= t ->
  let s1 := s + Z.of_nat (length ind) in
  skip_white m s = s1 /\ skip_linef m s1 = s1 /\ (m s1 =? 35) = false /\
  at_literal m s1 items_end = false /\
  __copy m (key t) s1 = (store m (key t) (k ++ [0]), s1 + Z.of_nat (length k)).
Proof.
  intros Hi (Hk & H35 & H9) Hd Ht Ha s1.
  destruct (token_head k Hk) as (c & k' & Ek & Hc & Hc0).
  destruct (line_start m s ind c (k' ++ d :: u)) as [E1 E2]; [by rewrite Ek in Ht|done..|].
  apply text_at_app in Ht as [_ Ht]. fold s1 in Ht, E1, E2. split_and!; [done|done| | |].
  - subst k. apply text_at_cons in Ht as [-> _]. by apply Z.eqb_neq.
  - eapply not_items_end; [exact Ht|by apply token_stops|done|done].
  - eapply copy_token; [exact Ht|done|done|]. rewrite !length_app in Ha. cbn [length] in Ha.
    unfold s1, key, item_size, ITEM_MAX_LEN in *. lia.
Qed.

(** The text [l] is clear of the entry: it survives a store into it. *)
Definition clear (l : list Z) : Prop :=
  t + item_size <= s \/ s + Z.of_nat (length l) <= t.

Lemma text_store l m' p d :
  clear l -> text_at m' s l -> t <= p -> p + Z.of_nat (length d) <= t + item_size ->
  text_at (store m' p d) s l.
Proof.
  intros Ha Ht ??. eapply text_at_same; [|exact Ht]. intros q Hq. apply store_outside.
  unfold clear in Ha. lia.
Qed.

Lemma parse_flag ind k sep :
  line_ok (Flag ind k sep) -> clear (line_text (Flag ind k sep) ++ eol ++ [x]) ->
  text_at m s (line_text (Flag ind k sep) ++ eol ++ [x]) ->
  _parse_line m t s =
    (line_mem m t (Flag ind k sep), s + Z.of_nat (length (line_text (Flag ind k sep) ++ eol))).
Proof.
  intros (Hi & Hk & Hsep) Ha Ht. cbn [line_text line_mem] in *. rewrite <- !app_assoc in *.
  destruct (eol_head eol He) as (c & e & -> & Hc).
  assert (exists d u, sep ++ (c :: e) ++ [x] = d :: u /\ stops d = true) as (d & u & E & Hd).
  { destruct sep as [|d u]; eexists _, _; (split; [done|]); [by apply stops_linef|].
    apply stops_white. by destruct Hsep as [[? _]%Forall_cons _]. }
  pose proof Ht as Ht0. rewrite E in Ht0.
  destruct (parse_key ind k d u Hi Hk Hd Ht0) as (E1 & E2 & E3 & E4 & E5).
  { by rewrite <- E. }
  assert (text_at (store m (key t) (k ++ [0])) s (ind ++ k ++ sep ++ (c :: e) ++ [x])) as Ht1.
  { apply text_store; [done|done|unfold key; lia|]. destruct Hk as ((_ & Hf & _) & _).
    unfold key, fits, item_size, ITEM_MAX_LEN in *. rewrite length_app. cbn. lia. }
  apply text_at_app in Ht1 as [_ Ht1]. apply text_at_app in Ht1 as [_ Ht1].
  set (s1 := s + Z.of_nat (length ind)) in *. set (m1 := store m (key t) (k ++ [0])) in *.
  set (s2 := s1 + Z.of_nat (length k)) in *.
  assert (0 < s1 /\ 0 < s2) as [P1 P2] by (unfold s2, s1; lia).
  assert (skip_white m1 s2 = s2 + Z.of_nat (length sep)) as E6.
  { apply (skip_while_spec _ _ _ c (e ++ [x])); [exact Ht1|apply Hsep| |apply Hsep].
    by apply linef_not_white. }
  apply text_at_app in Ht1 as [_ Ht1].
  unfold _parse_line. cbn zeta.
  rewrite E1, !(nonnull s1 P1), E2, E3, E4, E5, !(nonnull s1 P1), !(nonnull s2 P2).
  cbn [negb andb]. rewrite E6. pose proof Ht1 as [Ec _]%text_at_cons. rewrite Ec, Hc. f_equal.
  rewrite (skip_line_spec m1 _ [] (c :: e) x) by (done || apply rest_ok_nil || lia).
  rewrite !length_app. cbn [length app]. lia.
Qed.

Lemma parse_entry ind k sep v trail :
  line_ok (Entry ind k sep v trail) ->
  clear (line_text (Entry ind k sep v trail) ++ eol ++ [x]) ->
  text_at m s (line_text (Entry ind k sep v trail) ++ eol ++ [x]) ->
  _parse_line m t s = (line_mem m t (Entry ind k sep v trail),
                       s + Z.of_nat (length (line_text (Entry ind k sep v trail) ++ eol))).
Proof.
  intros (Hi & Hk & Hsep & Nsep & Hv & Htr & Htw) Ha Ht. cbn [line_text line_mem] in *.
  rewrite <- !app_assoc in *. destruct sep as [|d u]; [done|].
  assert (stops d = true) as Hd.
  { apply stops_white. by destruct Hsep as [[? _]%Forall_cons _]. }
  destruct (parse_key ind k d (u ++ v ++ trail ++ eol ++ [x]) Hi Hk Hd Ht Ha)
    as (E1 & E2 & E3 & E4 & E5).
  destruct (eol_head eol He) as (c & e & Ee & Hc).
  assert (exists d' u', trail ++ eol ++ [x] = d' :: u' /\ stops d' = true) as (d' & u' & Et & Hd').
  { destruct trail as [|d' u']; [rewrite Ee|]; eexists _, _; (split; [done|]);
      [by apply stops_linef|by apply stops_white]. }
  set (s1 := s + Z.of_nat (length ind)) in *. set (m1 := store m (key t) (k ++ [0])) in *.
  set (s2 := s1 + Z.of_nat (length k)) in *. set (s3 := s2 + Z.of_nat (length (d :: u))).
  assert (text_at m1 s (ind ++ k ++ (d :: u) ++ v ++ trail ++ eol ++ [x])) as Ht1.
  { apply text_store; [done|done|unfold key; lia|]. destruct Hk as ((_ & Hf & _) & _).
    unfold key, fits, item_size, ITEM_MAX_LEN in *. rewrite length_app. cbn. lia. }
  assert (text_at (store m1 (string t) (v ++ [0])) s
            (ind ++ k ++ (d :: u) ++ v ++ trail ++ eol ++ [x])) as Ht2.
  { apply text_store; [done|done|unfold string, ITEM_MAX_LEN; lia|].
    destruct Hv as (_ & Hf & _).
    unfold string, fits, item_size, ITEM_MAX_LEN in *. rewrite length_app. cbn. lia. }
  set (m2 := store m1 (string t) (v ++ [0])) in *.
  do 2 apply text_at_app in Ht1 as [_ Ht1]. do 3 apply text_at_app in Ht2 as [_ Ht2].
  fold s1 in Ht1, Ht2. fold s2 in Ht1, Ht2. fold s3 in Ht2.
  destruct (token_head v Hv) as (a & v' & Ev & Hva & _).
  assert (0 < s1 /\ 0 < s2 /\ 0 < s3) as (P1 & P2 & P3) by (unfold s3, s2, s1; lia).
  destruct (line_start m1 s2 (d :: u) a (v' ++ trail ++ eol ++ [x])) as [E6 E7];
    [by rewrite Ev in Ht1|done..|].
  fold s3 in E6, E7. apply text_at_app in Ht1 as [_ Ht1]. fold s3 in Ht1.
  assert (is_linef (m1 s3) = false) as E8.
  { rewrite Ev in Ht1. apply text_at_cons in Ht1 as [-> _]. by apply not_stops. }
  assert (__copy m1 (string t) s3 = (m2, s3 + Z.of_nat (length v))) as E9.
  { rewrite Et in Ht1. eapply copy_token; [exact Ht1|done|done|].
    unfold clear in Ha. rewrite !length_app in Ha. cbn [length] in Ha.
    unfold s3, s2, s1, string, item_size, ITEM_MAX_LEN in *. cbn [length]. lia. }
  unfold _parse_line. cbn zeta.
  rewrite E1, !(nonnull s1 P1), E2, E3, E4, E5, !(nonnull s1 P1), !(nonnull s2 P2).
  cbn [negb andb]. rewrite E6, E8, (nonnull s3 P3), E7, E9. f_equal.
  apply text_at_app in Ht2 as [_ Ht2].
  rewrite (skip_line_spec m2 _ trail eol x) by (done || lia).
  unfold s3, s2, s1. rewrite !length_app. cbn [length]. lia.
Qed.

End Line.

(** *** The whole text *)

(** The array after the lines: [l] in its first entries, the next one free. *)
Fixpoint parsed (m : mem) (t : Z) (l : list (list Z * list Z)) : Prop :=
  match l with
  | [] => m (key t) = 0
  | (k, v) :: l => cstr_at m (key t) k /\ cstr_at m (string t) v /\ parsed m (t + item_size) l
  end.

(** What one line leaves in the entry at [t], emptied before. *)
Lemma line_mem_entry m t ln :
  line_ok ln -> m (key t) = 0 -> m (string t) = 0 ->
  same_except m (line_mem m t ln) t (Z.to_nat item_size) /\
  match line_item ln with
  | [] => line_mem m t ln (key t) = 0
  | it :: _ => cstr_at (line_mem m t ln) (key t) it.1 /\
               cstr_at (line_mem m t ln) (string t) it.2 /\
               line_mem m t ln (key t) <> 0
  end.
Proof.
  intros Hl Hk0 Hs0.
  assert (Hst : forall p d, t <= p -> p + Z.of_nat (length d) <= t + item_size ->
            forall m, same_except m (store m p d) t (Z.to_nat item_size)).
  { intros p d ?? m' q Hq. apply store_outside. unfold item_size, ITEM_MAX_LEN in *. lia. }
  assert (Htok : forall k, token k -> Z.of_nat (length (k ++ [0])) <= ITEM_MAX_LEN /\
            Forall (fun c => c <> 0) k).
  { intros k (H & Hf & _). unfold fits, ITEM_MAX_LEN in *. rewrite length_app. cbn.
    split; [lia|]. eapply Forall_impl; [exact H|]. by intros ? []. }
  destruct ln as [ind k sep v trail|ind k sep|ind text]; cbn [line_item line_mem fst snd].
  - destruct Hl as (_ & (Hk & _ & _) & _ & _ & Hv & _).
    destruct (Htok k Hk) as [Lk Nk], (Htok v Hv) as [Lv Nv].
    assert (cstr_at (store (store m (key t) (k ++ [0])) (string t) (v ++ [0])) (key t) k) as Ck.
    { eapply cstr_at_ext; [|by apply cstr_at_store]. intros q Hq. apply store_outside.
      rewrite length_app in Lk. cbn in Lk. unfold key, string, ITEM_MAX_LEN in *. lia. }
    split_and!; [|exact Ck|by apply cstr_at_store|].
    + eapply same_except_trans; apply Hst; unfold key, string, item_size, ITEM_MAX_LEN in *; lia.
    + destruct (token_head k Hk) as (c & k' & -> & _ & Hc). apply cstr_at_cons in Ck. by destruct Ck as [-> _].
  - destruct Hl as (_ & (Hk & _ & _) & _). destruct (Htok k Hk) as [Lk Nk].
    assert (cstr_at (store m (key t) (k ++ [0])) (key t) k) as Ck by (by apply cstr_at_store).
    split_and!; [|exact Ck| |].
    + apply Hst; unfold key, item_size, ITEM_MAX_LEN in *; lia.
    + apply cstr_at_nil. rewrite store_outside; [done|].
      unfold key, string, ITEM_MAX_LEN in *. lia.
    + destruct (token_head k Hk) as (c & k' & -> & _ & Hc). apply cstr_at_cons in Ck. by destruct Ck as [-> _].
  - split; [by intros q _|done].
Qed.

Lemma parse_line_spec m t s ln eol x :
  0 < s -> eol_ok eol -> is_linef x = false -> line_ok ln ->
  clear t s (line_text ln ++ eol ++ [x]) -> text_at m s (line_text ln ++ eol ++ [x]) ->
  _parse_line m t s = (line_mem m t ln, s + Z.of_nat (length (line_text ln ++ eol))).
Proof.
  intros Hs He Hx Hl Hc Ht. destruct ln as [ind k sep v trail|ind k sep|ind text].
  - by eapply parse_entry.
  - by eapply parse_flag.
  - destruct Hl. by eapply parse_comment.
Qed.

(** What follows the lines: the "items.end" marker before the end [e] of the
    text, or the end itself, whose next byte is [x]. *)
Inductive ends (e s : Z) : list Z -> Prop :=
| ends_marker ind : blanks ind -> s < e -> ends e s (ind ++ items_end)
| ends_here x : is_linef x = false -> s = e -> ends e s [x].

Definition lines_ok (ls : list (line * list Z)) : Prop :=
  Forall (fun '(ln, eol) => line_ok ln /\ eol_ok eol) ls.

Lemma blanks_head ind c l :
  blanks ind -> is_linef c = false -> exists x u, ind ++ c :: l = x :: u /\ is_linef x = false.
Proof.
  intros [Hi _] Hc. destruct ind as [|b ind]; eexists _, _; (split; [done|]); [done|].
  apply Forall_cons in Hi as [? _]. by apply white_not_linef.
Qed.

Lemma text_head ls stop e s :
  lines_ok ls -> ends e s stop ->
  exists x u, text_of ls ++ stop = x :: u /\ is_linef x = false.
Proof.
  intros Hl He. destruct ls as [|[ln eol] ls]; cbn [text_of map concat app].
  - destruct He as [ind Hi _|x Hx _]; [by apply blanks_head|by eexists _, _].
  - apply Forall_cons in Hl as [[Hln _] _]. rewrite <- !app_assoc.
    assert (forall k, key_ok k -> exists c k', k = c :: k' /\ is_linef c = false) as Hk.
    { intros k [Hk _]. destruct (token_head k Hk) as (c & k' & -> & Hc & _).
      eexists _, _. split; [done|by apply not_stops]. }
    destruct ln as [ind k sep v trail|ind k sep|ind text]; cbn [line_text];
      rewrite <- !app_assoc; [destruct Hln as (Hi & Hkk & _)|destruct Hln as (Hi & Hkk & _)|
        destruct Hln as (Hi & _)].
    + destruct (Hk k Hkk) as (c & k' & -> & Hc). by apply blanks_head.
    + destruct (Hk k Hkk) as (c & k' & -> & Hc). by apply blanks_head.
    + by apply blanks_head.
Qed.

(** The entry the loop empties before it parses a line into it. *)
Definition emptied (m : mem) (t : Z) : mem := upd (upd m (string t) 0) (key t) 0.

Lemma emptied_spec m t :
  emptied m t (key t) = 0 /\ emptied m t (string t) = 0 /\
  same_except m (emptied m t) t (Z.to_nat item_size).
Proof.
  unfold emptied. split_and!; [apply upd_eq| |].
  - rewrite upd_ne, upd_eq; [done|unfold string, key, ITEM_MAX_LEN; lia].
  - intros q Hq. unfold string, key, item_size, ITEM_MAX_LEN in *. rewrite !upd_ne; [done|lia..].
Qed.

Lemma same_except_text m m' t s l :
  same_except m m' t (Z.to_nat item_size) -> clear t s l -> text_at m s l -> text_at m' s l.
Proof.
  intros H Hc Ht. eapply text_at_same; [|exact Ht]. intros q Hq. apply H.
  unfold clear, item_size, ITEM_MAX_LEN in *. lia.
Qed.

(** One turn of the loop on a line. *)
Lemma init_step fuel m items s e i ln eol x u :
  let t := items + item_size * i in
  line_ok ln -> eol_ok eol -> is_linef x = false -> 0 < s -> s < e -> i < ITEM_MAX_COUNT ->
  clear t s (line_text ln ++ eol ++ x :: u) -> text_at m s (line_text ln ++ eol ++ x :: u) ->
  exists m2,
    init_loop (S fuel) m items s e i =
      init_loop fuel m2 items (s + Z.of_nat (length (line_text ln ++ eol))) e
        (i + Z.of_nat (length (line_item ln))) /\
    same_except m m2 t (Z.to_nat item_size) /\
    match line_item ln with
    | [] => m2 (key t) = 0
    | it :: _ => cstr_at m2 (key t) it.1 /\ cstr_at m2 (string t) it.2
    end.
Proof.
  intros t Hl He Hx Hs Hse Hi Hc Ht. destruct (emptied_spec m t) as (Zk & Zs & Hsame).
  apply (same_except_text _ _ _ _ _ Hsame Hc) in Ht.
  replace (line_text ln ++ eol ++ x :: u) with ((line_text ln ++ eol ++ [x]) ++ u) in Ht, Hc
    by (by rewrite <- !app_assoc).
  apply text_at_app in Ht as [Ht _]. cbn [init_loop].
  rewrite (proj2 (Z.ltb_lt i _)), (proj2 (Z.ltb_lt s e)) by done. cbn [andb].
  fold t (emptied m t).
  rewrite (parse_line_spec (emptied m t) t s ln eol x) by
    (try done; unfold clear in *; rewrite length_app in Hc; lia).
  rewrite nonnull by lia.
  destruct (line_mem_entry (emptied m t) t ln Hl Zk Zs) as [Hsame2 Hent].
  exists (line_mem (emptied m t) t ln). split_and!.
  - destruct (line_item ln) as [|it l] eqn:El.
    + rewrite Hent, Z.eqb_refl. cbn [length]. by rewrite Z.add_0_r.
    + destruct Hent as (_ & _ & Hnz). rewrite (proj2 (Z.eqb_neq _ _) Hnz).
      by destruct ln; cbn in El; try done; injection El as <- <-.
  - by eapply same_except_trans.
  - destruct (line_item ln); [done|]. by destruct Hent as (? & ? & _).
Qed.

(** The loop at the marker, or at the end. *)
Lemma init_end fuel m items s e i stop :
  let t := items + item_size * i in
  0 < s -> i < ITEM_MAX_COUNT -> ends e s stop -> clear t s stop -> text_at m s stop ->
  m (key t) = 0 ->
  exists m2, init_loop (S fuel) m items s e i = Some (m2, i) /\
    same_except m m2 t (Z.to_nat item_size) /\ m2 (key t) = 0.
Proof.
  intros t Hs Hi He Hc Ht Hz. cbn [init_loop]. rewrite (proj2 (Z.ltb_lt i _)) by done.
  cbn [andb]. destruct He as [ind Hind Hse|x Hx ->].
  - rewrite (proj2 (Z.ltb_lt s e)) by done. fold t (emptied m t).
    destruct (emptied_spec m t) as (Zk & Zs & Hsame). exists (emptied m t).
    apply (same_except_text _ _ _ _ _ Hsame Hc) in Ht.
    destruct (line_start (emptied m t) s ind 105 (drop 1 items_end)) as [E1 E2]; [done..|].
    unfold _parse_line. cbn zeta. rewrite E1, !(nonnull (s + Z.of_nat (length ind))) by lia.
    rewrite E2, nonnull by lia. apply text_at_app in Ht as [_ Ht].
    pose proof Ht as [-> _]%text_at_cons. apply at_literal_true in Ht. by rewrite Ht.
  - rewrite Z.ltb_irrefl. by exists m.
Qed.

Lemma line_item_fits ln :
  line_ok ln -> Forall (fun it => fits it.1 /\ fits it.2) (line_item ln).
Proof.
  destruct ln; cbn [line_item line_ok]; intros Hl; repeat constructor; cbn [fst snd].
  - by destruct Hl as (_ & ((_ & ? & _) & _) & _).
  - by destruct Hl as (_ & _ & _ & _ & (_ & ? & _) & _).
  - by destruct Hl as (_ & ((_ & ? & _) & _) & _).
Qed.

(** The items of a line in front of those parsed after it. *)
Lemma parsed_line m m' t ln l :
  line_ok ln ->
  match line_item ln with
  | [] => True
  | it :: _ => cstr_at m (key t) it.1 /\ cstr_at m (string t) it.2
  end ->
  (line_item ln <> [] -> forall q, t <= q < t + item_size -> m' q = m q) ->
  parsed m' (t + item_size * Z.of_nat (length (line_item ln))) l ->
  parsed m' t (line_item ln ++ l).
Proof.
  intros Hl%line_item_fits Hent Hq Hp.
  assert (length (line_item ln) <= 1)%nat by (destruct ln; cbn; lia).
  destruct (line_item ln) as [|[k v] [|]]; cbn [app length parsed fst snd] in *; [|  |lia].
  - by rewrite Z.mul_0_r, Z.add_0_r in Hp.
  - apply Forall_cons in Hl as [[Fk Fv] _]. destruct Hent as [Ck Cv].
    unfold fits, key, string, item_size, ITEM_MAX_LEN in *. cbn [fst snd] in *.
    split_and!; [| |by rewrite Z.mul_1_r in Hp].
    + eapply cstr_at_ext; [|exact Ck]. intros q Hr. apply Hq; [done|lia].
    + eapply cstr_at_ext; [|exact Cv]. intros q Hr. apply Hq; [done|lia].
Qed.

Lemma init_loop_spec items e stop ls : forall m s i fuel,
  lines_ok ls -> text_at m s (text_of ls ++ stop) -> 0 < s ->
  ends e (s + Z.of_nat (length (text_of ls))) stop ->
  0 <= i -> i + Z.of_nat (length (items_of ls)) < ITEM_MAX_COUNT ->
  items + item_size * ITEM_MAX_COUNT <= s \/
    s + Z.of_nat (length (text_of ls ++ stop)) <= items ->
  (forall j, i <= j < ITEM_MAX_COUNT -> m (key (items + item_size * j)) = 0) ->
  (length ls < fuel)%nat ->
  exists m', init_loop fuel m items s e i = Some (m', i + Z.of_nat (length (items_of ls))) /\
    parsed m' (items + item_size * i) (items_of ls) /\
    (forall q, ~ items + item_size * i <= q < items + item_size * ITEM_MAX_COUNT ->
       m' q = m q).
Proof.
  unfold item_size, ITEM_MAX_LEN, ITEM_MAX_COUNT.
  induction ls as [|[ln eol] ls IH]; intros m s i [|fuel] Hl Ht Hs He Hi Hn Hd Hz Hf;
    cbn [length] in Hf; try lia.
  - cbn [text_of items_of map concat app length parsed] in *. rewrite Z.add_0_r in *.
    destruct (init_end fuel m items s e i stop) as (m2 & E & Hsame & Hk); try done.
    { unfold clear, item_size, ITEM_MAX_LEN. lia. }
    { apply Hz. lia. }
    exists m2. split_and!; [done|done|]. intros q Hq. apply Hsame.
    unfold item_size, ITEM_MAX_LEN. lia.
  - apply Forall_cons in Hl as [[Hln Heol] Hl].
    change (text_of ((ln, eol) :: ls)) with ((line_text ln ++ eol) ++ text_of ls) in *.
    change (items_of ((ln, eol) :: ls)) with (line_item ln ++ items_of ls) in *.
    assert (0 < length eol)%nat by (destruct Heol as (_ & _ & ?); destruct eol; [done|cbn; lia]).
    assert (s < e) by (destruct He; rewrite !length_app in *; lia).
    destruct (text_head ls stop e _ Hl He) as (x & u & Ex & Hx).
    rewrite <- !app_assoc in Ht, Hd. rewrite Ex in Ht, Hd.
    destruct (init_step fuel m items s e i ln eol x u) as (m2 & -> & Hsame & Hent); try done.
    { unfold ITEM_MAX_COUNT. rewrite length_app in Hn. lia. }
    { unfold clear, item_size, ITEM_MAX_LEN. rewrite length_app in Hn. lia. }
    assert (text_at m2 s (line_text ln ++ eol ++ x :: u)) as Ht2.
    { eapply same_except_text; [exact Hsame| |exact Ht].
      unfold clear, item_size, ITEM_MAX_LEN. rewrite length_app in Hn. lia. }
    rewrite <- Ex, app_assoc in Ht2. apply text_at_app in Ht2 as [_ Ht2].
    set (s' := s + Z.of_nat (length (line_text ln ++ eol))) in *.
    rewrite <- Ex, app_assoc, length_app in Hd. rewrite length_app in Hn, He.
    assert (forall j, i <= j < 200 -> (j = i -> line_item ln = []) ->
              m2 (key (items + 2 * 64 * j)) = 0) as Hz2.
    { intros j Hj Hji. destruct (decide (j = i)) as [->|].
      - by rewrite Hji in Hent.
      - rewrite Hsame; [apply Hz; lia|].
        unfold key, item_size, ITEM_MAX_LEN. lia. }
    destruct (IH m2 s' (i + Z.of_nat (length (line_item ln))) fuel) as (m' & E & Hp & Hq);
      try done; try (unfold s'; lia).
    { by replace (s' + Z.of_nat (length (text_of ls))) with
        (s + Z.of_nat (length (line_text ln ++ eol) + length (text_of ls))) by (unfold s'; lia). }
    { intros j Hj. apply Hz2; [lia|]. intros ->. destruct (line_item ln); [done|cbn in Hj; lia]. }
    exists m'. rewrite E, length_app. split_and!; [do 2 f_equal; lia| |].
    + apply (parsed_line m2); [done|by destruct (line_item ln)| |].
      * unfold item_size, ITEM_MAX_LEN. intros Hne q Hr. apply Hq.
        destruct (line_item ln); [done|cbn [length]; lia].
      * by replace (items + 2 * 64 * i + item_size * Z.of_nat (length (line_item ln)))
          with (items + 2 * 64 * (i + Z.of_nat (length (line_item ln))))
          by (unfold item_size, ITEM_MAX_LEN; lia).
    + intros q Hr. rewrite Hq by lia. apply Hsame. unfold item_size, ITEM_MAX_LEN. lia.
Qed.

(** ** [item_init] *)

Lemma memset_array m items q :
  memset m items 0 (item_size * ITEM_MAX_COUNT) q =
  if (items <=? q) && (q <? items + item_size * ITEM_MAX_COUNT) then 0 else m q.
Proof.
  unfold memset. rewrite memset_spec.
  rewrite u32_small, Z2Nat.id by (unfold item_size, ITEM_MAX_LEN, ITEM_MAX_COUNT; lia).
  done.
Qed.

(** The text, an array clear of it, and enough fuel for its lines. *)
Record config (fuel : nat) (m : mem) (items txt len : Z) (ls : list (line * list Z))
    (stop : list Z) : Prop := {
  cf_lines : lines_ok ls;
  cf_text : text_at m txt (text_of ls ++ stop);
  cf_txt : 0 < txt;
  cf_ends : ends (txt + len) (txt + Z.of_nat (length (text_of ls))) stop;
  cf_count : Z.of_nat (length (items_of ls)) < ITEM_MAX_COUNT;
  cf_clear : items + item_size * ITEM_MAX_COUNT <= txt \/
    txt + Z.of_nat (length (text_of ls ++ stop)) <= items;
  cf_fuel : (length ls < fuel)%nat
}.

Lemma item_init_spec fuel m items txt len ls stop :
  config fuel m items txt len ls stop ->
  exists m', item_init fuel m items txt len = Some (m', Z.of_nat (length (items_of ls))) /\
    parsed m' items (items_of ls) /\
    (forall q, ~ items <= q < items + item_size * ITEM_MAX_COUNT -> m' q = m q).
Proof.
  intros [Hl Ht Hp He Hc Hd Hf]. unfold item_init.
  destruct (init_loop_spec items (txt + len) stop ls
              (memset m items 0 (item_size * ITEM_MAX_COUNT)) txt 0 fuel) as (m' & E & Hpd & Hq);
    try done.
  - eapply text_at_same; [|exact Ht]. intros q Hr. rewrite memset_array.
    destruct ((items <=? q) && _) eqn:Eb; [|done].
    unfold item_size, ITEM_MAX_LEN, ITEM_MAX_COUNT in *. lia.
  - intros j Hj. rewrite memset_array. unfold key, item_size, ITEM_MAX_LEN, ITEM_MAX_COUNT in *.
    by destruct ((items <=? _) && _) eqn:Eb; [|lia].
  - exists m'. rewrite Z.mul_0_r, Z.add_0_r in Hpd, Hq. rewrite Z.add_0_l in E.
    split_and!; [done|done|]. intros q Hr. rewrite Hq, memset_array by done.
    destruct ((items <=? q) && _) eqn:Eb; [lia|done].
Qed.

(** [item_init] on a well-formed text of fewer than 200 items returns,
    reports the number of its item lines, comments and indentation skipped,
    and leaves in the array exactly the keys and values of these lines in
    their order, followed by a free entry; the rest of memory is intact. *)
Theorem item_init_correct fuel m items txt len ls stop :
  config fuel m items txt len ls stop ->
  exists m', item_init fuel m items txt len = Some (m', Z.of_nat (length (items_of ls))) /\
    parsed m' items (items_of ls) /\
    same_except m m' items (Z.to_nat (item_size * ITEM_MAX_COUNT)).
Proof.
  intros H. destruct (item_init_spec _ _ _ _ _ _ _ H) as (m' & E & Hp & Hq).
  exists m'. split_and!; [done|done|]. intros q Hr. apply Hq.
  unfold item_size, ITEM_MAX_LEN, ITEM_MAX_COUNT in *. lia.
Qed.

(** The values of the lines, as sections. *)
Definition sectioned (l : list item) : list (list Z * list Z) :=
  map (fun '(k, ss) => (k, join ss)) l.

Lemma parsed_holds m l : forall t,
  Forall (fun it => it.1 <> [] /\ fits it.1 /\ fits (join it.2) /\ sections_ok it.2) l ->
  parsed m t (sectioned l) -> holds key string m t l.
Proof.
  induction l as [|[k ss] l IH]; intros t Hl Hp; cbn [sectioned map parsed holds] in *; [done|].
  apply Forall_cons in Hl as [(Hk & Fk & Fs & Hss) Hl]. destruct Hp as (Ck & Cs & Hp).
  split; [|by apply IH]. split; cbn [fst snd] in *; try done.
  destruct k as [|c k]; [done|]. apply cstr_at_cons in Ck as (-> & ? & _). done.
Qed.

Lemma items_of_keys ls : lines_ok ls ->
  Forall (fun it => it.1 <> [] /\ fits it.1 /\ fits it.2) (items_of ls).
Proof.
  induction 1 as [|[ln eol] ls [Hl _] _ IH]; [by constructor|].
  cbn [items_of map concat]. apply Forall_app. split; [|exact IH].
  pose proof (line_item_fits ln Hl) as F.
  destruct ln; cbn [line_item line_ok] in *; repeat constructor; cbn [fst snd]; try done;
    apply Forall_cons in F as [[? ?] _]; try done.
  - by destruct Hl as (_ & ((_ & _ & ?) & _) & _).
  - by destruct Hl as (_ & ((_ & _ & ?) & _) & _).
Qed.

(** Every operation stores bytes only. *)
Lemma mem_ok_copy n : forall m p s, mem_ok m -> mem_ok (copy_loop m p s n).1.
Proof.
  induction n as [|n IH]; intros m p s Hm; cbn [copy_loop fst]; [by apply mem_ok_upd|].
  case_match; [apply IH|]; by apply mem_ok_upd.
Qed.

Lemma mem_ok_parse m t s : mem_ok m -> mem_ok (_parse_line m t s).1.
Proof.
  intros Hm. unfold _parse_line, __copy. cbn zeta.
  repeat match goal with
  | |- context [copy_loop ?m ?p ?s ?n] =>
      lazymatch goal with
      | _ : mem_ok (copy_loop m p s n).1 |- _ => fail
      | _ => assert (mem_ok (copy_loop m p s n).1) by (by apply mem_ok_copy);
             destruct (copy_loop m p s n); cbn [fst] in *
      end
  | |- context [if ?b then _ else _] => destruct b; try done
  end.
Qed.

Lemma mem_ok_init fuel : forall m items s e i m' j,
  mem_ok m -> init_loop fuel m items s e i = Some (m', j) -> mem_ok m'.
Proof.
  induction fuel as [|fuel IH]; intros m items s e i m' j Hm E; [done|].
  cbn [init_loop] in E. destruct ((i <? ITEM_MAX_COUNT) && (s <? e)); [|by injection E as <- _].
  pose proof (mem_ok_parse (upd (upd m (string (items + item_size * i)) 0)
                              (key (items + item_size * i)) 0) (items + item_size * i) s) as Hp.
  destruct (_parse_line _ _ _) as [m1 s1]. cbn [fst] in Hp.
  assert (mem_ok m1) by (apply Hp; by repeat apply mem_ok_upd).
  repeat case_match; [by injection E as <- _|by eapply IH|by eapply IH].
Qed.

(** C27: from the text to the answer: after [item_init] of a well-formed text
    whose item values are [l], [item_string] finds in the array what the
    lookup finds in [l]. *)
Theorem item_config_lookup fuel m items txt len ls stop l buf kp sec k :
  config fuel m items txt len ls stop ->
  items_of ls = sectioned l -> Forall sections_ok (map snd l) ->
  (length l + 64 < fuel)%nat -> 0 < items -> 0 <= sec -> mem_ok m ->
  cstr_at m kp k -> fits k ->
  kp + Z.of_nat (length k) < items \/ items + item_size * ITEM_MAX_COUNT <= kp ->
  buf + ITEM_MAX_LEN <= items \/ items + item_size * ITEM_MAX_COUNT <= buf ->
  exists m1, item_init fuel m items txt len = Some (m1, Z.of_nat (length l)) /\
    match item_lookup l k sec with
    | Some s => exists m2, item_string fuel m1 items buf kp sec = Some (m2, 0) /\ cstr_at m2 buf s
    | None => item_string fuel m1 items buf kp sec = Some (m1, - EFAULT)
    end.
Proof.
  intros Hcf El Hss Hf Hi Hs Hm Hk Fk Hkp Hbuf. pose proof (cf_count _ _ _ _ _ _ _ Hcf) as Hn.
  pose proof (items_of_keys ls (cf_lines _ _ _ _ _ _ _ Hcf)) as Hkeys.
  destruct (item_init_spec _ _ _ _ _ _ _ Hcf) as (m1 & E & Hp & Hq). rewrite El in *.
  assert (length (sectioned l) = length l) as Hlen by apply length_map. rewrite Hlen in *.
  exists m1. split; [done|].
  assert (mem_ok m1) as Hm1.
  { eapply mem_ok_init; [|exact E]. intros q. rewrite memset_array.
    destruct (_ && _); [unfold is_byte; lia|apply Hm]. }
  assert (cstr_at m1 kp k) as Hk1.
  { eapply cstr_at_ext; [|exact Hk]. intros q Hr. apply Hq. lia. }
  assert (holds key string m1 items l) as Hh.
  { apply parsed_holds; [|done]. clear -Hkeys Hss. induction l as [|[k ss] l IH]; [done|].
    cbn [sectioned map] in *. apply Forall_cons in Hkeys as [(? & ? & ?) ?].
    apply Forall_cons in Hss as [? ?]. constructor; [done|auto]. }
  destruct (string_found fuel m1 items buf kp sec k l Hm1 Hk1 Fk Hs Hi Hf) with (f := key)
    (g := string) as (q & Eq & H); [|unfold string, ITEM_MAX_LEN; lia|done|].
  { unfold item_size, ITEM_MAX_LEN, ITEM_MAX_COUNT in *. lia. }
  unfold item_string. rewrite Eq. cbn [mbind option_bind].
  destruct (item_lookup l k sec) as [s|]; [|by rewrite H].
  destruct H as (Hq' & Hc & _). rewrite (proj2 (Z.eqb_neq q NULL) Hq'). eauto.
Qed.

(** Well-formedness of a concrete text is decided by computation. *)
#[export] Instance line_ok_dec ln : Decision (line_ok ln).
Proof.
  destruct ln as [ind k sep v trail| |];
    [destruct trail|..]; unfold line_ok, blanks, key_ok, token, rest_ok, short, fits; apply _.
Defined.

#[export] Instance eol_ok_dec l : Decision (eol_ok l).
Proof. unfold eol_ok, short. apply _. Defined.

#[export] Instance lines_ok_dec ls : Decision (lines_ok ls).
Proof.
  unfold lines_ok. apply Forall_dec. intros [ln eol]. apply _.
Defined.

#[export] Instance sections_ok_dec ss : Decision (sections_ok ss).
Proof. unfold sections_ok, section_ok. apply _. Defined.

#[export] Instance fits_dec l : Decision (fits l).
Proof. unfold fits. apply _. Defined.

#[export] Instance cstr_at_dec m p l : Decision (cstr_at m p l).
Proof. unfold cstr_at. apply _. Defined.

Ltac decided := apply (bool_decide_eq_true_1 _); vm_compute; reflexivity.

(** ** Concrete runs *)

Definition s_cpu : list Z := [99; 112; 117].
Definition s_lcd : list Z := [108; 99; 100].
Definition s_i : list (list Z) := [[105; 109]; [56; 48; 48]; [97]].

(** The text, one line each: two blanks, cpu, a blank, im.800.a, a blank, x;
    then a comment; then lcd, a blank, 7. *)
Definition sample_lines : list (line * list Z) :=
  [(Entry [32; 32] s_cpu [32] (join s_i) [32; 120], [13; 10]);
   (Comment [] [32; 99], [10]);
   (Entry [] s_lcd [9] [55] [], [10])].

Definition sample_mem : mem :=
  store (store (store (fun _ => 0) 0x10000 (text_of sample_lines ++ items_end))
           0x4000 (s_cpu ++ [0])) 0x4100 (join [[56; 48]] ++ [0]).

Lemma sample_config : config 100 sample_mem 0x20000 0x10000 100 sample_lines items_end.
Proof.
  split.
  - apply (bool_decide_eq_true_1 _). vm_compute. reflexivity.
  - vm_compute. reflexivity.
  - lia.
  - change items_end with ([] ++ items_end). constructor; [|vm_compute; reflexivity].
    split; [constructor|]. unfold short, PARSE_LIMIT. cbn. lia.
  - vm_compute. reflexivity.
  - right. vm_compute. congruence.
  - cbn. lia.
Qed.

Example item_init_correct_witness :
  exists m', item_init 100 sample_mem 0x20000 0x10000 100 = Some (m', 2) /\
    parsed m' 0x20000 [(s_cpu, join s_i); (s_lcd, [55])] /\
    same_except sample_mem m' 0x20000 (Z.to_nat (item_size * ITEM_MAX_COUNT)).
Proof.
  apply (item_init_correct 100 sample_mem 0x20000 0x10000 100 sample_lines items_end
           sample_config).
Defined.

Lemma sample_mem_ok : mem_ok sample_mem.
Proof.
  unfold sample_mem. repeat apply mem_ok_store;
    try (repeat (constructor; [unfold is_byte; lia|]); constructor).
Qed.

Lemma sample_sections : Forall sections_ok (map snd [(s_cpu, s_i); (s_lcd, [[55]])]).
Proof. decided. Qed.

Example item_config_lookup_witness :
  exists m1, item_init 100 sample_mem 0x20000 0x10000 100 = Some (m1, 2) /\
    exists m2, item_string 100 m1 0x20000 0x5000 0x4000 1 = Some (m2, 0) /\
      cstr_at m2 0x5000 [56; 48; 48; 46; 97].
Proof.
  apply (item_config_lookup 100 sample_mem 0x20000 0x10000 100 sample_lines items_end
           [(s_cpu, s_i); (s_lcd, [[55]])] 0x5000 0x4000 1 s_cpu sample_config).
  - reflexivity.
  - exact sample_sections.
  - cbn. lia.
  - lia.
  - lia.
  - exact sample_mem_ok.
  - decided.
  - decided.
  - left. vm_compute. reflexivity.
  - left. vm_compute. congruence.
Defined.

(** A hand-made array of one item, with a free entry after it. *)
Definition sample_array : mem :=
  store (store sample_mem 0x20000 (s_cpu ++ [0])) 0x20040 (join s_i ++ [0]).

Lemma sample_holds : holds key string sample_array 0x20000 [(s_cpu, s_i)].
Proof.
  split; [|vm_compute; reflexivity]. split; cbn [fst snd].
  - decided.
  - decided.
  - vm_compute. congruence.
  - decided.
  - decided.
  - decided.
Qed.

Lemma sample_array_ok : mem_ok sample_array.
Proof.
  unfold sample_array. repeat apply mem_ok_store;
    try (repeat (constructor; [unfold is_byte; lia|]); constructor).
Qed.

Lemma sample_key : cstr_at sample_array 0x4000 s_cpu.
Proof. decided. Qed.

Example item_string_correct_witness :
  exists m', item_string 100 sample_array 0x20000 0x5000 0x4000 2 = Some (m', 0) /\
    cstr_at m' 0x5000 [97] /\ same_except sample_array m' 0x5000 64.
Proof.
  apply (item_string_correct 100 sample_array 0x20000 0x5000 0x4000 2 s_cpu [(s_cpu, s_i)] false
           sample_array_ok sample_key).
  - decided.
  - lia.
  - lia.
  - cbn. lia.
  - left. vm_compute. congruence.
  - exact sample_holds.
Defined.

(** "80" is accepted for the section "800.a". *)
Example item_equal_correct_witness :
  exists m', item_equal 100 sample_array 0x20000 0x5000 0x4000 0x4100 1 = Some (m', 1).
Proof.
  apply (item_equal_correct 100 sample_array 0x20000 0x5000 0x4000 0x4100 1 s_cpu [56; 48]
           [(s_cpu, s_i)] sample_array_ok sample_key).
  - decided.
  - lia.
  - lia.
  - cbn. lia.
  - left. vm_compute. congruence.
  - exact sample_holds.
  - decided.
  - decided.
  - right. vm_compute. reflexivity.
Defined.

Example __string_sec_correct_witness :
  exists q, __string_sec 100 sample_array 0x20040 2 = Some q /\
    (q = NULL <-> 3 <= 2) /\ (2 < 3 -> cstr_at sample_array q [97]).
Proof.
  apply (__string_sec_correct 100 sample_array 0x20040 s_i 2).
  - decided.
  - decided.
  - cbn. lia.
  - lia.
  - lia.
Defined.

(** *** Where the parser goes wrong *)

(** A key of 70 characters runs over the string of its entry: the NUL that
    ends it is inside the string field. *)
Example long_key_overflows :
  let m := store (fun _ => 0) 0x10000 (repeat 97 70 ++ [32; 98; 10] ++ items_end) in
  match _parse_line m 0x20000 0x10000 with
  | (m', _) => bytes_at m' (string 0x20000) 7 = [98; 0; 97; 97; 97; 97; 0]
  end.
Proof. vm_compute. reflexivity. Qed.

(** A value that ends in a dot makes [__string_sec] step over the NUL and
    search on in whatever follows. *)
Example trailing_dot_overruns :
  let m := store (fun _ => 0) 0x100 [97; 46; 0; 98; 46; 99; 0] in
  __string_sec 20 m 0x100 2 = Some 0x105.
Proof. vm_compute. reflexivity. Qed.

(** An indented item after a line of blanks is lost: its key is taken for
    the value of an empty key. *)
Example blank_line_drops_item :
  let m := store (fun _ => 0) 0x10000 ([32; 10; 32; 97; 32; 98; 10] ++ items_end) in
  match item_init 10 m 0x20000 0x10000 50 with
  | Some (_, n) => n = 0
  | None => False
  end.
Proof. vm_compute. reflexivity. Qed.
