(* ===== verification/Sparse.v ===== *)
(** * Sparse: infotm/strategy/burn/sparse.c, burning Android sparse images

    A sparse image is a header and a sequence of chunks: raw data, a word to
    repeat, blocks to skip, a checksum.  [sparse_burn] reads the image through
    a callback into a 1 MiB buffer, decodes it there and writes the blocks to
    the target device.

    The globals [data_source], [buffer] and [target] are the record [state];
    the copy buffer is a memory of its own, addressed from 0.  What sparse.c
    calls in other files is the record [services]: the callback, the
    storage layer, the allocator with its state.  A fill buffer is never freed
    (sparse.c:299): how many are left is part of what a burn does
    ([apply_with_room]). *)

From S2P Require Import Prelude Mem CString Crc.
Import Crc32.
Local Open Scope Z_scope.

Definition CONFIG_SPARSE_COPY_SIZE := 0x100000.
Definition CONFIG_SPARSE_BUF_SIZE := 0x100000.
Definition SPARSE_HEADER_MAGIC := 0xed26ff3a.
Definition SPARSE_HEADER_MAJOR_VER := 1.
Definition CHUNK_TYPE_RAW := 0xCAC1.
Definition CHUNK_TYPE_FILL := 0xCAC2.
Definition CHUNK_TYPE_DONT_CARE := 0xCAC3.
Definition CHUNK_TYPE_CRC32 := 0xCAC4.
(** [sizeof] of the two headers. *)
Definition SPARSE_HEADER_LEN := 28.
Definition CHUNK_HEADER_LEN := 12.

(** [sizeof(struct buffer)] *)
Definition BUFFER_LEN := 16.

(** [X] is the state of the data source, [D] that of the storage layer, [M]
    that of the heap. *)
Record services (X D M : Type) := Services {
  (** The bytes stored at the pointer, the value returned. *)
  get_data : X -> X * list Z * Z;
  (** [vs_assign_by_id(id, reset)] and its result. *)
  assign : D -> Z -> Z -> D * Z;
  (** [vs_write(buf, offs, len, 0)] of the bytes; the result is not used. *)
  write : D -> Z -> list Z -> D;
  erase : D -> Z -> Z -> D;
  erasable : Z -> bool;
  (** [vs_align] of the target, and of [storage_device()] *)
  align : Z -> Z;
  storage_device : Z;
  (** The address, or NULL. *)
  malloc : M -> Z -> M * option Z;
  free : M -> Z -> M
}.
Arguments get_data {X D M}. Arguments assign {X D M}. Arguments write {X D M}.
Arguments erase {X D M}. Arguments erasable {X D M}. Arguments align {X D M}.
Arguments storage_device {X D M}. Arguments malloc {X D M}. Arguments free {X D M}.

Record buffer := Buf { copybuf : mem; size : Z; index : Z; deepth : Z }.
Record target := Tgt { t_index : Z; t_devid : Z; t_length : Z; t_remain : Z; blksz : Z }.
Record state (X D M : Type) := St {
  remain : Z;           (* data_source.remain *)
  step : Z;             (* data_source.step *)
  buf : buffer;
  tgt : target;
  src : X;
  disk : D;
  heap : M
}.
Arguments St {X D M}. Arguments remain {X D M}. Arguments step {X D M}. Arguments buf {X D M}.
Arguments tgt {X D M}. Arguments src {X D M}. Arguments disk {X D M}. Arguments heap {X D M}.

(** [sparse_header_t] and [chunk_header_t] at [p]. *)
Record sparse_header := SH {
  magic : Z; major_version : Z; minor_version : Z; file_hdr_sz : Z; chunk_hdr_sz : Z;
  blk_sz : Z; total_blks : Z; total_chunks : Z; image_checksum : Z
}.
Record chunk_header := CH { chunk_type : Z; reserved1 : Z; chunk_sz : Z; total_sz : Z }.

Definition read_sparse_header (m : mem) (p : Z) : sparse_header :=
  SH (load32 m p) (load16 m (p + 4)) (load16 m (p + 6)) (load16 m (p + 8)) (load16 m (p + 10))
     (load32 m (p + 12)) (load32 m (p + 16)) (load32 m (p + 20)) (load32 m (p + 24)).
Definition read_chunk_header (m : mem) (p : Z) : chunk_header :=
  CH (load16 m p) (load16 m (p + 2)) (load32 m (p + 4)) (load32 m (p + 8)).

Section Burn.
Context {X D M : Type} (sv : services X D M).
Abbreviation state := (state X D M).
Implicit Type st : state.

Definition set_buf st b : state := St (remain st) (step st) b (tgt st) (src st) (disk st) (heap st).
Definition set_tgt st t : state := St (remain st) (step st) (buf st) t (src st) (disk st) (heap st).
Definition set_disk st d : state := St (remain st) (step st) (buf st) (tgt st) (src st) d (heap st).
Definition set_heap st h : state := St (remain st) (step st) (buf st) (tgt st) (src st) (disk st) h.
Definition set_index (b : buffer) i := Buf (copybuf b) (size b) i (deepth b).

Definition DATA_IN_BUFFER_NOW st : Z := u32 (deepth (buf st) - index (buf st)).

(** With the address of the copy buffer. *)
Definition spare_init (dev offs sz stp : Z) (s : X) (d : D) (h : M) : M * option (state * Z) :=
  let stp := if stp =? 0 then CONFIG_SPARSE_COPY_SIZE else stp in
  let '(h, p) := malloc sv h CONFIG_SPARSE_BUF_SIZE in
  match p with
  | None => (h, None)
  | Some p => (h, Some (St sz stp (Buf (fun _ => 0) CONFIG_SPARSE_BUF_SIZE 0 0)
                           (Tgt offs dev 0 0 (u32 (align sv dev))) s d h, p))
  end.

Definition sparse_deinit st (copybuf : Z) : M := free sv (heap st) copybuf.

Definition seek_buffer st (seek : Z) : state :=
  let b := buf st in
  let i := u32 (index b + seek) in
  set_buf st (if i =? deepth b then Buf (copybuf b) (size b) 0 0 else set_index b i).

(** The callback stored [l] behind the data and returned [got]. *)
Definition after_read st (s : X) (l : list Z) (got : Z) : state :=
  let b := buf st in
  St (s32 (remain st - got)) (step st)
     (Buf (store (copybuf b) (deepth b) l) (size b) (index b) (u32 (deepth b + got)))
     (tgt st) s (disk st) (heap st).

(** The loop of [get_data_from_source]: [stillto] bytes are still wanted. *)
Fixpoint read_loop (fuel : nat) st (stillto : Z) : option state :=
  match fuel with
  | O => None
  | S fuel =>
      if stillto =? 0 then Some st else
      let '(s, l, got) := get_data sv (src st) in
      let st := after_read st s l got in
      if u32 (size (buf st) - step st) <? deepth (buf st) then Some st
      else if (got <? stillto) && (0 <? got) then read_loop fuel st (stillto - got)
      else Some st
  end.

(** Move what the buffer still holds to its start. *)
Definition realign (b : buffer) (still : Z) : buffer :=
  if index b =? 0 then b
  else Buf (memcpy (copybuf b) 0 (index b) still) (size b) 0 (u32 still).

Definition get_data_from_source (fuel : nat) st (len : Z) : option (state * Z) :=
  let b := buf st in
  let still := s32 (deepth b - index b) in
  if (u32 (size b - still) <? u32 (step st)) || (blksz (tgt st) <=? u32 still)
  then Some (st, still) else
  let len := if size b <? u32 (still + len) then u32 (size b - still) else len in
  let room := u32 (size b - deepth b) in
  let b := if (room <? len) || (room <? u32 (step st)) then realign b still else b in
  let len := if u32 (step st) <? len then Z.land len (u32 (Z.lnot (step st - 1))) else len in
  let len := if u32 (remain st) <? len then u32 (remain st) else len in
  st ← read_loop fuel (set_buf st b) (s32 len);
  Some (st, s32 (deepth (buf st) - index (buf st))).

Definition write_data_to_disk st (len : Z) : state * Z :=
  let b := buf st in
  let t := tgt st in
  if deepth b <? u32 (index b + len) then (st, -1) else
  let '(d, r) := assign sv (disk st) (t_devid t) 0 in
  let '(d, len) :=
    if r =? 0 then
      let len := Z.land len (u32 (Z.lnot (u32 (blksz t - 1)))) in
      (write sv d (t_index t) (bytes_at (copybuf b) (index b) (Z.to_nat len)), len)
    else (d, len) in
  (set_disk (set_tgt st (Tgt (s64 (t_index t + len)) (t_devid t) (t_length t)
                             (s64 (t_remain t - len)) (blksz t))) d,
   s32 len).

(** The loop of [process_raw_chunk]; the boolean is false when it returned
    -1. *)
Fixpoint raw_loop (fuel : nat) st (len crc : Z) : option (state * Z * bool) :=
  match fuel with
  | O => None
  | S fuel' =>
      if len =? 0 then Some (st, crc, true) else
      '(st, ret) ← get_data_from_source fuel st len;
      if ret =? -1 then Some (st, crc, false) else
      let ret := if len <=? u32 ret then s32 len else ret in
      let crc := sparse_crc32 crc (bytes_at (copybuf (buf st)) (index (buf st)) (Z.to_nat ret)) in
      let '(st, ret) := write_data_to_disk st (u32 ret) in
      if ret =? -1 then Some (st, crc, false) else
      raw_loop fuel' (seek_buffer st ret) (u32 (len - ret)) crc
  end.

(** The result of a chunk: the number of its blocks, or -1 as the unsigned
    [chunk_blks] sees it. *)
Definition process_raw_chunk (fuel : nat) st (blocks blk crc : Z) : option (state * Z * Z) :=
  '(st, crc, ok) ← raw_loop fuel st (u32 (blocks * blk)) crc;
  Some (st, crc, if ok : bool then blocks else u32 (-1)).

(** The buffer filled with the four bytes at [p]. *)
Definition fill_mem (m : mem) (p : Z) : mem := fun q => m (p + q mod 4).

(** The loop of [process_fill_chunk]; [st] has the fill buffer in place. *)
Fixpoint fill_loop (fuel : nat) st (len crc : Z) : option (state * Z) :=
  match fuel with
  | O => None
  | S fuel =>
      if len =? 0 then Some (st, crc) else
      let chunk := if CONFIG_SPARSE_COPY_SIZE <? len then CONFIG_SPARSE_COPY_SIZE else len in
      let crc := sparse_crc32 crc (bytes_at (copybuf (buf st)) 0 (Z.to_nat chunk)) in
      let '(st, _) := write_data_to_disk st chunk in
      fill_loop fuel st (len - chunk) crc
  end.

(** [None] also when there is no room for the copy of [buffer], which is
    then made at NULL. *)
Definition process_fill_chunk (fuel : nat) st (blocks blk crc : Z) : option (state * Z * Z) :=
  let len := blocks * blk in
  '(st, _) ← if s32 (DATA_IN_BUFFER_NOW st) <? 4 then get_data_from_source fuel st 4
             else Some (st, 0);
  let b := buf st in
  let fill := fill_mem (copybuf b) (index b) in
  let b := set_index b (u32 (index b + 4)) in
  let '(h, fillbuf) := malloc sv (heap st) CONFIG_SPARSE_COPY_SIZE in
  let st := set_heap st h in
  match fillbuf with
  | None => Some (set_buf st b, crc, u32 (-1))
  | Some _ =>
      let '(h, tmpbuf) := malloc sv (heap st) BUFFER_LEN in
      tmpbuf ← tmpbuf;
      let st := set_heap st h in
      '(st, crc) ← fill_loop fuel (set_buf st (Buf fill 0 0 CONFIG_SPARSE_COPY_SIZE)) len crc;
      Some (set_heap (set_buf st b) (free sv (heap st) tmpbuf), crc, blocks)
  end.

Definition process_skip_chunk st (blocks blk : Z) : state * Z :=
  let t := tgt st in
  (set_tgt st (Tgt (s64 (t_index t + u32 (blocks * blk))) (t_devid t) (t_length t)
                   (t_remain t) (blksz t)), blocks).

(** The result is 0, or -1 when the checksum differs. *)
Definition process_crc32_chunk (fuel : nat) st (crc : Z) : option (state * Z) :=
  let ret := s32 (DATA_IN_BUFFER_NOW st) in
  '(st, ret) ← if ret <? 4 then get_data_from_source fuel st 4 else Some (st, ret);
  let b := buf st in
  let file_crc32 := load32 (copybuf b) (index b) in
  let st := set_buf st (set_index b (u32 (index b + 4))) in
  if negb (ret =? 4) then Some (st, -1)
  else if negb (file_crc32 =? crc) then Some (st, -1) else Some (st, 0).

Definition issparse (h : sparse_header) : bool :=
  let blksz := align sv (storage_device sv) in
  if negb (magic h =? SPARSE_HEADER_MAGIC) then false
  else if negb (major_version h =? SPARSE_HEADER_MAJOR_VER) then false
  else if negb (Z.land (blk_sz h) (u32 (blksz - 1)) =? 0) then false
  else true.

(** One turn of the loop over the chunks: [inl] goes on with the checksum
    and the block count, [inr] returns. *)
Definition burn_chunk (fuel : nat) (h : sparse_header) st (crc total : Z)
    : option (state * (Z * Z + Z)) :=
  '(st, ret) ← if DATA_IN_BUFFER_NOW st <? CHUNK_HEADER_LEN
               then get_data_from_source fuel st CHUNK_HEADER_LEN
               else Some (st, CHUNK_HEADER_LEN);
  let c := read_chunk_header (copybuf (buf st)) (index (buf st)) in
  if (u32 ret <? CHUNK_HEADER_LEN) || (ret =? -1) then Some (st, inr (-1)) else
  let st := seek_buffer st CHUNK_HEADER_LEN in
  if chunk_type c =? CHUNK_TYPE_RAW then
    if negb (total_sz c =? u32 (chunk_hdr_sz h + u32 (chunk_sz c * blk_sz h)))
    then Some (st, inr (-1)) else
    '(st, crc, blks) ← process_raw_chunk fuel st (chunk_sz c) (blk_sz h) crc;
    Some (st, inl (crc, u32 (total + blks)))
  else if chunk_type c =? CHUNK_TYPE_FILL then
    if negb (total_sz c =? u32 (chunk_hdr_sz h + 4)) then Some (st, inr (-1)) else
    '(st, crc, blks) ← process_fill_chunk fuel st (chunk_sz c) (blk_sz h) crc;
    Some (st, inl (crc, u32 (total + blks)))
  else if chunk_type c =? CHUNK_TYPE_DONT_CARE then
    if negb (total_sz c =? chunk_hdr_sz h) then Some (st, inr (-1)) else
    let '(st, blks) := process_skip_chunk st (chunk_sz c) (blk_sz h) in
    Some (st, inl (crc, u32 (total + blks)))
  else if chunk_type c =? CHUNK_TYPE_CRC32 then
    '(st, _) ← process_crc32_chunk fuel st crc;
    Some (st, inl (crc, total))
  else Some (st, inl (crc, total)).

Fixpoint chunk_loop (fuel n : nat) (h : sparse_header) st (crc total : Z)
    : option (state * (Z + Z)) :=
  match n with
  | O => Some (st, inl total)
  | S n =>
      '(st, r) ← burn_chunk fuel h st crc total;
      match r with
      | inl (crc, total) => chunk_loop fuel n h st crc total
      | inr e => Some (st, inr e)
      end
  end.

(** The storage and the heap afterwards, and the value returned.  The copy
    buffer is freed only when the blocks counted are those of the header. *)
Definition sparse_burn (fuel : nat) (dev offs sz stp : Z) (s : X) (d : D) (h : M) : option (D * M * Z) :=
  match spare_init dev offs sz stp s d h with
  | (h, None) => Some (d, h, -1)
  | (_, Some (st, p)) =>
    let st := set_disk st (assign sv (disk st) dev 1).1 in
    '(st, ret) ← get_data_from_source fuel st CONFIG_SPARSE_COPY_SIZE;
    let h := read_sparse_header (copybuf (buf st)) (index (buf st)) in
    let st := seek_buffer st SPARSE_HEADER_LEN in
    if negb (issparse h) then Some (disk st, heap st, -1) else
    let total := u32 (total_blks h * blk_sz h) in
    let t := tgt st in
    let st := set_tgt st (Tgt (t_index t) (t_devid t) total total (blksz t)) in
    let st := if erasable sv (t_devid t)
              then let d := (assign sv (disk st) (t_devid t) 0).1 in
                   set_disk st (erase sv d (t_index t) (u32 total))
              else st in
    '(st, r) ← chunk_loop fuel (Z.to_nat (total_chunks h)) h st 0 0;
    match r with
    | inr e => Some (disk st, heap st, e)
    | inl total =>
        if negb (total_blks h =? total) then Some (disk st, heap st, 0) else
        Some (disk st, sparse_deinit st p, 0)
    end
  end.

End Burn.

(** ** Contracts *)

Section Contracts.
Context {X D M : Type} (sv : services X D M).

(** The source delivers its bytes in pieces of [n] bytes, the last one
    shorter. *)
Class ByteSource (content : X -> list Z) (n : nat) : Prop := {
  bs_get s : exists s', get_data sv s =
      (s', take n (content s), Z.of_nat (length (take n (content s)))) /\
    content s' = drop n (content s)
}.

(** The device [dev], in blocks of [2 ^ k] bytes: once assigned it stays so,
    and consecutive writes make one. *)
Class Target (ready : D -> Prop) (dev k : Z) : Prop := {
  tg_align : align sv dev = 2 ^ k;
  tg_first d : ready (assign sv d dev 1).1;
  tg_assign d : ready d -> assign sv d dev 0 = (d, 0);
  tg_write d o l : ready d -> ready (write sv d o l);
  tg_erase d o n : ready d -> ready (erase sv d o n);
  tg_write_nil d o : ready d -> write sv d o [] = d;
  tg_write_app d o a b : ready d ->
    write sv (write sv d o a) (o + Z.of_nat (length a)) b = write sv d o (a ++ b)
}.

(** The heap has room for [room h] more buffers of 1 MiB, and always for a
    small one besides. *)
Class Heap (heap_ok : M -> Prop) (room : M -> nat) : Prop := {
  hp_large h : heap_ok h -> let '(h', p) := malloc sv h CONFIG_SPARSE_COPY_SIZE in
    heap_ok h' /\ match p with Some _ => room h = S (room h') | None => room h = O /\ room h' = O end;
  hp_small h : heap_ok h -> exists h' p, malloc sv h BUFFER_LEN = (h', Some p) /\
    heap_ok (free sv h' p) /\ room (free sv h' p) = room h
}.

End Contracts.

(** ** Reading the source *)

Section Reading.
Context {X D M : Type} (sv : services X D M) (content : X -> list Z) (ready : D -> Prop).
Context (heap_ok : M -> Prop) (room : M -> nat).
Context (dev j k : Z) (Hj : j <= 19) (Hk : 5 <= k <= j).
Context `{BS : !ByteSource sv content (Z.to_nat (2 ^ j))} `{TG : !Target sv ready dev k}.
Context `{HP : !Heap sv heap_ok room}.
Abbreviation state := (state X D M).
Implicit Type st : state.

Record inv st : Prop := {
  inv_index : 0 <= index (buf st) <= deepth (buf st);
  inv_deepth : deepth (buf st) <= size (buf st);
  inv_size : size (buf st) = CONFIG_SPARSE_BUF_SIZE;
  inv_step : step st = 2 ^ j;
  inv_blksz : blksz (tgt st) = 2 ^ k;
  inv_devid : t_devid (tgt st) = dev;
  inv_ready : ready (disk st);
  inv_remain : remain st = Z.of_nat (length (content (src st)));
  inv_small : remain st < 2 ^ 31
}.

(** What is still to be decoded: the buffer, then the source. *)
Definition held st : Z := deepth (buf st) - index (buf st).
Definition avail st : list Z :=
  bytes_at (copybuf (buf st)) (index (buf st)) (Z.to_nat (held st)) ++ content (src st).

(** The parts of the state reading leaves alone. *)
Definition same_target st st' : Prop := tgt st' = tgt st /\ disk st' = disk st.

Lemma pows : 32 <= 2 ^ k <= 2 ^ j /\ 2 ^ j <= 2 ^ 19.
Proof.
  split_and!; [change 32 with (2 ^ 5)| |]; apply Z.pow_le_mono_r; lia.
Qed.

(** One call of the callback with room for a piece. *)
Lemma get_data_spec st s l got :
  inv st -> deepth (buf st) + 2 ^ j <= size (buf st) ->
  get_data sv (src st) = (s, l, got) ->
  let b := buf st in
  let st' := after_read st s l got in
  inv st' /\ avail st' = avail st /\ got = Z.min (2 ^ j) (remain st) /\
  deepth (buf st') = deepth b + got /\ remain st' = remain st - got.
Proof.
  intros [Hi Hd Hs Hst Hb Hv Hr Hrem Hsm] Hroom E b st'. pose proof pows.
  destruct (bs_get sv (src st)) as (s' & E' & Hc). rewrite E' in E. injection E as -> <- <-.
  assert (Hgot : Z.of_nat (length (take (Z.to_nat (2 ^ j)) (content (src st)))) =
          Z.min (2 ^ j) (remain st)) by (rewrite length_take; lia).
  unfold CONFIG_SPARSE_BUF_SIZE in *.
  assert (Hdp : deepth (buf st') = deepth b + Z.min (2 ^ j) (remain st)).
  { cbn. rewrite Hgot. apply u32_small. unfold b. lia. }
  assert (Hrm : remain st' = remain st - Z.min (2 ^ j) (remain st)).
  { cbn. rewrite Hgot. apply s32_small. lia. }
  split_and!; [|  |done|by rewrite Hdp, Hgot|by rewrite Hrm, Hgot].
  - assert (index (buf st') = index b /\ size (buf st') = size b /\ src st' = s)
      as (Hix & Hsz & Hsr) by done.
    split; try done; rewrite ?Hdp, ?Hix, ?Hsz, ?Hrm, ?Hsr; unfold b; [lia..| |lia].
    rewrite Hc, length_drop. lia.
  - unfold avail, held. rewrite Hdp. unfold st', after_read.
    cbn [copybuf buf index src]. fold b. rewrite Hc.
    replace (Z.to_nat (deepth b + Z.min (2 ^ j) (remain st) - index b))
      with (Z.to_nat (deepth b - index b) + Z.to_nat (Z.min (2 ^ j) (remain st)))%nat
      by (unfold b; lia).
    rewrite bytes_at_app, <- app_assoc. f_equal.
    + apply bytes_at_store_disj. unfold b. lia.
    + rewrite Z2Nat.id by (unfold b; lia).
      replace (index b + (deepth b - index b)) with (deepth b) by lia.
      rewrite <- Hgot, Nat2Z.id, bytes_at_store. apply take_drop.
Qed.

Lemma read_loop_spec fuel : forall st stillto,
  inv st -> deepth (buf st) + 2 ^ j <= size (buf st) -> 0 <= stillto <= remain st ->
  stillto < Z.of_nat fuel ->
  exists st', read_loop sv fuel st stillto = Some st' /\ inv st' /\ avail st' = avail st /\
    same_target st st' /\ index (buf st') = index (buf st) /\
    deepth (buf st) <= deepth (buf st') /\
    (0 < stillto -> deepth (buf st) + Z.min (2 ^ j) (remain st) <= deepth (buf st')).
Proof.
  induction fuel as [|fuel IH]; intros st stillto Hinv Hroom Hst Hf; [lia|].
  cbn [read_loop]. destruct (Z.eqb_spec stillto 0) as [->|Hnz].
  { exists st. by split_and!. }
  destruct (get_data sv (src st)) as [[s l] got] eqn:Eg.
  destruct (get_data_spec st s l got Hinv Hroom Eg) as (Hinv1 & Hav & Hgot & Hdp & Hrm).
  assert (Hsame : same_target st (after_read st s l got) /\
                  index (buf (after_read st s l got)) = index (buf st)) by done.
  cbn zeta. set (st1 := after_read st s l got) in *. clearbody st1. pose proof pows.
  rewrite (inv_step _ Hinv1), Hdp. destruct Hsame as [[Ht1 Hd1] Hx1].
  pose proof (inv_size _ Hinv1) as Hsz. unfold CONFIG_SPARSE_BUF_SIZE in *.
  pose proof (inv_size _ Hinv). unfold CONFIG_SPARSE_BUF_SIZE in *.
  pose proof (inv_remain _ Hinv). rewrite u32_small by lia.
  assert (Hdone : exists st', Some st1 = Some st' /\ inv st' /\ avail st' = avail st /\
    same_target st st' /\ index (buf st') = index (buf st) /\
    deepth (buf st) <= deepth (buf st') /\
    (0 < stillto -> deepth (buf st) + Z.min (2 ^ j) (remain st) <= deepth (buf st'))).
  { exists st1. split_and!; try done; lia. }
  destruct (Z.ltb_spec (size (buf st1) - 2 ^ j) (deepth (buf st) + got)); [exact Hdone|].
  destruct (Z.ltb_spec got stillto); [|exact Hdone].
  destruct (Z.ltb_spec 0 got); [|exact Hdone]. cbn [andb].
  destruct (IH st1 (stillto - got)) as (st2 & E & Hi & Ha & [Ht Hd] & Hx & Hle & _); try done;
    [lia..|].
  exists st2. split_and!; [done|done|congruence|split; congruence|congruence|lia|lia].
Qed.

(** Moving the rest of the buffer to its start keeps it. *)
Lemma realign_spec st :
  inv st ->
  inv (set_buf st (realign (buf st) (held st))) /\
  avail (set_buf st (realign (buf st) (held st))) = avail st /\
  held (set_buf st (realign (buf st) (held st))) = held st /\
  deepth (realign (buf st) (held st)) = held st.
Proof.
  intros Hinv. pose proof Hinv as [Hi Hd Hs ? ? ? ? ? ?]. unfold CONFIG_SPARSE_BUF_SIZE in *.
  unfold realign. destruct (Z.eqb_spec (index (buf st)) 0) as [E|E].
  { destruct st as [a b [c d e f] g h i]. cbn in *. subst e. unfold held. cbn.
    split_and!; [done|done|done|lia]. }
  assert (Hu : u32 (held st) = held st) by (apply u32_small; unfold held; lia).
  set (b' := Buf _ _ _ _).
  assert (Hh : held (set_buf st b') = held st)
    by (unfold held; cbn [buf set_buf index deepth b']; rewrite Hu; unfold held; lia).
  split_and!; [|  |exact Hh|exact Hu].
  - split; try done; cbn [buf set_buf index deepth size b']; rewrite ?Hu; unfold held; lia.
  - unfold avail. rewrite Hh. cbn [buf set_buf index copybuf src b']. f_equal.
    apply memcpy_moved; unfold is_u32, held; lia.
Qed.

Lemma length_avail st : inv st -> Z.of_nat (length (avail st)) = held st + remain st.
Proof.
  intros [? ? ? ? ? ? ? Hr ?]. unfold avail. rewrite length_app, length_bytes_at.
  unfold held. lia.
Qed.

(** [get_data_from_source] keeps the data, and makes a block of it present
    as long as the image has one. *)
Lemma source_spec fuel st len :
  inv st -> 0 < len < 2 ^ 31 -> 2 ^ 20 < Z.of_nat fuel ->
  exists st', get_data_from_source sv fuel st len = Some (st', held st') /\ inv st' /\
    avail st' = avail st /\ same_target st st' /\
    Z.min (2 ^ k) (held st + remain st) <= held st'.
Proof.
  intros Hinv Hlen Hf. pose proof Hinv as [Hi Hd Hs Hstep Hblk ? ? Hrem Hsm]. pose proof pows.
  unfold CONFIG_SPARSE_BUF_SIZE in *. unfold get_data_from_source.
  rewrite Hstep, Hblk. fold (held st).
  assert (Hh : 0 <= held st <= 2 ^ 20) by (unfold held; lia).
  rewrite (s32_small (held st)), (u32_small (held st)), (u32_small (size (buf st) - held st)),
    (u32_small (2 ^ j)) by (unfold held in *; lia).
  destruct (Z.leb_spec (2 ^ k) (held st)) as [Hge|Hlt].
  { rewrite orb_true_r. exists st. split_and!; try done. lia. }
  rewrite (proj2 (Z.ltb_ge (size (buf st) - held st) _)) by lia. cbn [orb].
  rewrite (u32_small (held st + len)), (u32_small (size (buf st) - deepth (buf st))) by lia.
  set (len1 := if size (buf st) <? held st + len then _ else len).
  assert (Hlen1 : 0 < len1 <= size (buf st) - held st).
  { unfold len1. destruct (Z.ltb_spec (size (buf st)) (held st + len)); lia. }
  set (b := if (size (buf st) - deepth (buf st) <? len1) || _ then _ else buf st).
  assert (Hb : inv (set_buf st b) /\ avail (set_buf st b) = avail st /\
               held (set_buf st b) = held st /\ deepth b + 2 ^ j <= size b).
  { destruct (realign_spec st Hinv) as (R1 & R2 & R3 & R4). unfold b.
    destruct (Z.ltb_spec (size (buf st) - deepth (buf st)) len1);
      [|destruct (Z.ltb_spec (size (buf st) - deepth (buf st)) (2 ^ j))]; cbn [orb].
    - split_and!; try done. rewrite R4. pose proof (inv_size _ R1) as Hz. cbn in Hz.
      unfold CONFIG_SPARSE_BUF_SIZE in Hz. lia.
    - split_and!; try done. rewrite R4. pose proof (inv_size _ R1) as Hz. cbn in Hz.
      unfold CONFIG_SPARSE_BUF_SIZE in Hz. lia.
    - destruct st. split_and!; try done. lia. }
  destruct Hb as (Hbi & Hba & Hbh & Hroom). clearbody b.
  set (len2 := if 2 ^ j <? len1 then _ else len1).
  assert (Hlen2 : 0 < len2 <= len1).
  { unfold len2. destruct (Z.ltb_spec (2 ^ j) len1); [|lia].
    rewrite <- (u32_small (2 ^ j - 1)) by lia. rewrite align_mask by lia.
    pose proof (Z.mod_pos_bound len1 (2 ^ j)). pose proof (Z.mod_le len1 (2 ^ j)). lia. }
  clearbody len2. rewrite (u32_small (remain st)) by lia.
  set (len3 := if remain st <? len2 then remain st else len2).
  assert (Hlen3 : 0 <= len3 <= remain st /\ len3 <= len1 /\ (0 < remain st -> 0 < len3)).
  { unfold len3. destruct (Z.ltb_spec (remain st) len2); lia. }
  clearbody len3 len1. rewrite s32_small by lia.
  destruct (read_loop_spec fuel (set_buf st b) len3) as (st2 & E & Hi2 & Ha2 & Ht2 & Hx2 & Hle2 & Hmin);
    [done|exact Hroom|cbn [set_buf remain]; lia|lia|].
  rewrite E. cbn [mbind option_bind]. exists st2. fold (held st2).
  pose proof (inv_index _ Hi2). pose proof (inv_deepth _ Hi2). pose proof (inv_size _ Hi2) as Hs2.
  unfold CONFIG_SPARSE_BUF_SIZE in Hs2.
  rewrite s32_small by (unfold held; lia).
  split_and!; [done|done|congruence|done|].
  cbn [buf set_buf remain] in Hx2, Hle2, Hmin. unfold held in Hbh at 1. cbn [buf set_buf] in Hbh.
  unfold held at 2. lia.
Qed.

(** *** Consuming data *)

Lemma avail_take st n :
  0 <= n <= held st ->
  bytes_at (copybuf (buf st)) (index (buf st)) (Z.to_nat n) = take (Z.to_nat n) (avail st).
Proof.
  intros Hn. unfold avail.
  replace (Z.to_nat (held st)) with (Z.to_nat n + Z.to_nat (held st - n))%nat by lia.
  rewrite bytes_at_app, <- app_assoc, take_app_length'; [done|].
  by rewrite length_bytes_at.
Qed.

(** The buffer with [n] bytes less, as [seek_buffer] and the additions to
    [index] leave it. *)
Lemma advance_spec st n :
  inv st -> 0 <= n <= held st ->
  let st' := set_buf st (set_index (buf st) (u32 (index (buf st) + n))) in
  inv st' /\ avail st' = drop (Z.to_nat n) (avail st) /\ held st' = held st - n.
Proof.
  intros [Hi Hd Hs ? ? ? ? ? ?] Hn st'. unfold CONFIG_SPARSE_BUF_SIZE in *.
  assert (Hu : u32 (index (buf st) + n) = index (buf st) + n)
    by (apply u32_small; unfold held in *; lia).
  unfold st'. rewrite Hu.
  assert (Hh : held (set_buf st (set_index (buf st) (index (buf st) + n))) = held st - n)
    by (unfold held; cbn [buf set_buf index set_index deepth]; lia).
  split_and!; [| |exact Hh].
  - split; try done; cbn [buf set_buf index deepth size set_index]; unfold held in *; lia.
  - unfold avail. rewrite Hh. cbn [buf set_buf index copybuf set_index src].
    rewrite drop_app_le by (rewrite length_bytes_at; lia). f_equal.
    replace (Z.to_nat (held st)) with (Z.to_nat n + Z.to_nat (held st - n))%nat by lia.
    rewrite bytes_at_app, drop_app_length', Z2Nat.id by (rewrite ?length_bytes_at; lia). done.
Qed.

Lemma seek_spec st n :
  inv st -> 0 <= n <= held st ->
  inv (seek_buffer st n) /\ avail (seek_buffer st n) = drop (Z.to_nat n) (avail st) /\
  held (seek_buffer st n) = held st - n /\ remain (seek_buffer st n) = remain st /\
  same_target st (seek_buffer st n).
Proof.
  intros Hinv Hn. pose proof (advance_spec st n Hinv Hn) as (Ha & Hb & Hc). cbn zeta in *.
  unfold seek_buffer. destruct (Z.eqb_spec (u32 (index (buf st) + n)) (deepth (buf st))) as [E|E].
  - assert (H0 : held (set_buf st (set_index (buf st) (u32 (index (buf st) + n)))) = 0)
      by (unfold held; cbn [buf set_buf index set_index deepth]; lia).
    destruct Ha as [Hi Hd Hs ? ? ? ? ? ?]. rewrite <- Hb, <- Hc, H0.
    split_and!; try done.
    + split; try done; cbn [buf set_buf index deepth size].
      cbn in Hs. rewrite Hs. unfold CONFIG_SPARSE_BUF_SIZE. lia.
    + unfold avail at 1 2. rewrite H0. done.
  - by split_and!.
Qed.

(** [len] bytes at the index are written, in whole blocks. *)
Lemma write_core st len :
  0 <= index (buf st) -> 0 <= len -> index (buf st) + len <= deepth (buf st) ->
  deepth (buf st) <= 2 ^ 20 -> blksz (tgt st) = 2 ^ k -> t_devid (tgt st) = dev ->
  ready (disk st) -> 0 <= t_index (tgt st) -> t_index (tgt st) + len < 2 ^ 63 ->
  let n := len - len mod 2 ^ k in
  write_data_to_disk sv st len =
    (St (remain st) (step st) (buf st)
        (Tgt (t_index (tgt st) + n) dev (t_length (tgt st)) (s64 (t_remain (tgt st) - n)) (2 ^ k))
        (src st)
        (write sv (disk st) (t_index (tgt st))
           (bytes_at (copybuf (buf st)) (index (buf st)) (Z.to_nat n))) (heap st), n).
Proof.
  intros Hi Hl Hd Hs Hbk Hv Hr Ht Hend n. pose proof pows.
  assert (0 <= n <= len).
  { unfold n. pose proof (Z.mod_pos_bound len (2 ^ k)). pose proof (Z.mod_le len (2 ^ k)). lia. }
  unfold write_data_to_disk. rewrite u32_small by lia.
  rewrite (proj2 (Z.ltb_ge (deepth (buf st)) _)) by lia. rewrite Hv, Hbk.
  rewrite (tg_assign sv (dev:=dev) (k:=k) _ Hr), Z.eqb_refl. cbn [fst].
  rewrite align_mask by lia. fold n. rewrite s32_small by lia.
  assert (s64 (t_index (tgt st) + n) = t_index (tgt st) + n) as ->
    by (unfold s64; rewrite Z.mod_small; lia).
  done.
Qed.

Lemma write_spec st len :
  inv st -> 0 <= len <= held st -> 0 <= t_index (tgt st) -> t_index (tgt st) + len < 2 ^ 63 ->
  let n := len - len mod 2 ^ k in
  exists st', write_data_to_disk sv st len = (st', n) /\ inv st' /\
    avail st' = avail st /\ held st' = held st /\ remain st' = remain st /\
    t_index (tgt st') = t_index (tgt st) + n /\
    disk st' = write sv (disk st) (t_index (tgt st)) (take (Z.to_nat n) (avail st)).
Proof.
  intros Hinv Hlen Ht Hend n. pose proof Hinv as [Hi Hd Hs Hst Hbk Hv Hr ? ?].
  unfold CONFIG_SPARSE_BUF_SIZE in *. pose proof pows.
  assert (0 <= n <= len).
  { unfold n. pose proof (Z.mod_pos_bound len (2 ^ k)). pose proof (Z.mod_le len (2 ^ k)). lia. }
  rewrite write_core by (try done; unfold held in *; lia). fold n.
  eexists. split; [done|]. split_and!; try done.
  - split; try done. by apply (tg_write sv (dev:=dev) (k:=k)).
  - cbn [disk]. by rewrite avail_take by lia.
Qed.

Lemma take_take_drop {A} (l : list A) n m :
  take n l ++ take m (drop n l) = take (n + m) l.
Proof. by rewrite take_take_drop. Qed.

Lemma block_le n len : 0 < n -> 0 < len -> len mod n = 0 -> n <= len.
Proof.
  intros ?? E. destruct (Z.lt_ge_cases len n); [|done]. rewrite Z.mod_small in E; lia.
Qed.

Lemma raw_loop_spec fuel : forall st len crc,
  inv st -> 0 <= len < 2 ^ 31 -> len mod 2 ^ k = 0 -> len <= held st + remain st ->
  0 <= t_index (tgt st) -> t_index (tgt st) + len < 2 ^ 63 ->
  2 ^ 20 + len < Z.of_nat fuel ->
  exists st' crc', raw_loop sv fuel st len crc = Some (st', crc', true) /\ inv st' /\
    avail st' = drop (Z.to_nat len) (avail st) /\
    t_index (tgt st') = t_index (tgt st) + len /\
    disk st' = write sv (disk st) (t_index (tgt st)) (take (Z.to_nat len) (avail st)).
Proof.
  induction fuel as [|fuel IH]; intros st len crc Hinv Hlen Hmod Hav Ht Hend Hf; [lia|].
  cbn [raw_loop]. destruct (Z.eqb_spec len 0) as [->|Hnz].
  { exists st, crc. cbn [Z.to_nat take drop]. split_and!; try done; [lia|].
    symmetry. apply (tg_write_nil sv (dev:=dev) (k:=k)). apply Hinv. }
  destruct (source_spec (S fuel) st len Hinv) as (st1 & E & Hi1 & Ha1 & [Ht1 Hd1] & Hh1); [lia..|].
  rewrite E. cbn [mbind option_bind]. pose proof pows.
  pose proof (inv_index _ Hi1). pose proof (inv_deepth _ Hi1). pose proof (inv_size _ Hi1).
  pose proof (length_avail _ Hi1) as L1. pose proof (length_avail _ Hinv) as L0.
  unfold CONFIG_SPARSE_BUF_SIZE in *. rewrite Ha1 in L1.
  assert (Hh : 2 ^ k <= held st1 <= 2 ^ 20).
  { pose proof (block_le (2 ^ k) len). unfold held in *. lia. }
  rewrite (proj2 (Z.eqb_neq (held st1) (-1))), (u32_small (held st1)), (s32_small len) by lia.
  assert (Hret : (if len <=? held st1 then len else held st1) = Z.min len (held st1))
    by (destruct (Z.leb_spec len (held st1)); lia).
  rewrite Hret. set (ret := Z.min len (held st1)) in *.
  assert (2 ^ k <= ret).
  { pose proof (block_le (2 ^ k) len). unfold ret. lia. }
  rewrite (u32_small ret) by (unfold ret; lia).
  destruct (write_spec st1 ret) as (st2 & E2 & Hi2 & Ha2 & Hh2 & Hr2 & Ht2 & Hd2); try done;
    [unfold ret; lia|by rewrite Ht1|rewrite Ht1; unfold ret; lia|].
  rewrite E2. set (n := ret - ret mod 2 ^ k) in *.
  assert (Hn : 0 < n <= ret /\ (len - n) mod 2 ^ k = 0).
  { unfold n. pose proof (Z.mod_pos_bound ret (2 ^ k)). split; [lia|].
    rewrite Zminus_mod, Hmod. replace ((ret - ret mod 2 ^ k) mod 2 ^ k) with 0; [by rewrite Z.mod_0_l by lia|].
    rewrite Zminus_mod, Z.mod_mod, Z.sub_diag by lia. by rewrite Z.mod_0_l by lia. }
  rewrite (proj2 (Z.eqb_neq n (-1))) by lia.
  destruct (seek_spec st2 n Hi2) as (Hi3 & Ha3 & Hh3 & Hr3 & [Ht3 Hd3]); [unfold ret in *; lia|].
  rewrite (u32_small (len - n)) by (unfold ret in *; lia).
  destruct (IH (seek_buffer st2 n) (len - n)
              (sparse_crc32 crc (bytes_at (copybuf (buf st1)) (index (buf st1)) (Z.to_nat ret))))
    as (st4 & crc4 & E4 & Hi4 & Ha4 & Ht4 & Hd4);
    [done|unfold ret in *; lia|apply Hn|lia|rewrite Ht3, Ht2, Ht1; lia|
     rewrite Ht3, Ht2, Ht1; lia|lia|].
  exists st4, crc4. rewrite E4. split_and!; [done|done| | |].
  - rewrite Ha4, Ha3, Ha2, Ha1, drop_drop. f_equal. unfold ret in *. lia.
  - rewrite Ht4, Ht3, Ht2, Ht1. lia.
  - rewrite Hd4, Hd3, Hd2, Ha3, Ha2, Ha1, Hd1, Ht3, Ht2, Ht1.
    assert (Hl : Z.of_nat (length (take (Z.to_nat n) (avail st))) = n)
      by (rewrite length_take; unfold ret in *; lia).
    replace (Z.to_nat len) with (Z.to_nat n + Z.to_nat (len - n))%nat by (unfold ret in *; lia).
    rewrite <- take_take_drop, <- (tg_write_app sv (dev:=dev) (k:=k)) by apply Hinv.
    by rewrite Hl.
Qed.

(** Reading and writing do not allocate. *)
Lemma read_loop_heap fuel : forall st n st', read_loop sv fuel st n = Some st' -> heap st' = heap st.
Proof.
  induction fuel as [|fuel IH]; intros st n st'; cbn [read_loop]; [done|].
  destruct (_ =? 0); [by intros [= <-]|]. destruct (get_data _ _) as [[s l] got].
  destruct (_ <? deepth _); [by intros [= <-]|]. destruct (_ && _); [by intros ->%IH|by intros [= <-]].
Qed.

Lemma source_heap fuel st n st' r : get_data_from_source sv fuel st n = Some (st', r) -> heap st' = heap st.
Proof.
  unfold get_data_from_source. destruct (_ || _); [by intros [= <- _]|].
  match goal with |- context [read_loop sv fuel ?x ?y] => destruct (read_loop sv fuel x y) as [st1|] eqn:E end; [|done].
  intros [= <- _]. by apply read_loop_heap in E.
Qed.

Lemma write_heap st len : heap (write_data_to_disk sv st len).1 = heap st.
Proof.
  unfold write_data_to_disk. destruct (_ <? _); [done|]. destruct (assign _ _ _ _) as [d r]. by destruct (r =? 0).
Qed.

Lemma seek_heap st n : heap (seek_buffer st n) = heap st.
Proof. done. Qed.

Lemma raw_loop_heap fuel : forall st len crc st' crc' ok,
  raw_loop sv fuel st len crc = Some (st', crc', ok) -> heap st' = heap st.
Proof.
  induction fuel as [|fuel IH]; intros st len crc st' crc' ok; cbn [raw_loop]; [done|].
  destruct (len =? 0); [by intros [= <- _ _]|].
  destruct (get_data_from_source _ _ _ _) as [[st1 ret]|] eqn:E; [|done]. apply source_heap in E. cbn [mbind option_bind].
  destruct (ret =? -1); [by intros [= <- _ _]|].
  match goal with |- context [write_data_to_disk sv st1 ?n] => pose proof (write_heap st1 n) as Hw;
    destruct (write_data_to_disk sv st1 n) as [st2 ret2] end. cbn [fst] in Hw.
  destruct (ret2 =? -1); [intros [= <- _ _]; congruence|]. intros ->%IH. rewrite seek_heap. congruence.
Qed.

Lemma ensure_heap fuel st n d (c : bool) st1 r :
  (if c then get_data_from_source sv fuel st n else Some (st, d)) = Some (st1, r) -> heap st1 = heap st.
Proof. destruct c; [by intros ->%source_heap|by intros [= <- _]]. Qed.

(** *** A few bytes at the front *)

Lemma data_in_buffer st : inv st -> DATA_IN_BUFFER_NOW st = held st /\ 0 <= held st <= 2 ^ 20.
Proof.
  intros [? ? Hs ? ? ? ? ? ?]. unfold CONFIG_SPARSE_BUF_SIZE in *.
  assert (0 <= held st <= 2 ^ 20) by (unfold held; lia).
  split; [|done]. apply u32_small. unfold held in *. lia.
Qed.

(** The headers and the small payloads are fetched like this; [d] is what
    stands for the result when nothing is read. *)
Lemma ensure_spec fuel st n d :
  inv st -> 0 < n <= 32 -> n <= Z.of_nat (length (avail st)) -> 2 ^ 20 < Z.of_nat fuel ->
  exists st1 r,
    (if held st <? n then get_data_from_source sv fuel st n else Some (st, d)) = Some (st1, r) /\
    inv st1 /\ avail st1 = avail st /\ same_target st st1 /\
    n <= held st1 /\ (r = d \/ n <= r <= 2 ^ 20).
Proof.
  intros Hinv Hn Hav Hf. pose proof pows. rewrite length_avail in Hav by done.
  destruct (Z.ltb_spec (held st) n).
  - destruct (source_spec fuel st n Hinv) as (st1 & E & Hi & Ha & Ht & Hh); [lia..|].
    exists st1, (held st1). destruct (data_in_buffer st1 Hi).
    split_and!; try done; lia.
  - exists st, d. split_and!; try done; by left.
Qed.

(** *** A repeated word *)

Lemma pow_multiple a b : 0 <= b <= a -> 2 ^ a mod 2 ^ b = 0.
Proof.
  intros. replace a with ((a - b) + b) by lia. rewrite Z.pow_add_r by lia. apply Z.mod_mul. lia.
Qed.

Lemma mod_4 b x : 2 <= b -> x mod 2 ^ b = 0 -> x mod 4 = 0.
Proof.
  intros ? E. rewrite (Z.div_mod x (2 ^ b)), E by lia.
  replace (2 ^ b) with (4 * 2 ^ (b - 2)) by (change 4 with (2 ^ 2); rewrite <- Z.pow_add_r by lia; f_equal; lia).
  rewrite Z.add_0_r, <- Z.mul_assoc, Z.mul_comm. apply Z.mod_mul. lia.
Qed.

Lemma fill_shift m p n q :
  0 <= q -> q mod 4 = 0 -> bytes_at (fill_mem m p) q n = bytes_at (fill_mem m p) 0 n.
Proof.
  intros Hq E. apply bytes_at_eq_iff. intros i Hi. unfold fill_mem. f_equal. f_equal.
  rewrite Z.add_0_l, Z.add_mod, E, Z.add_0_l, Z.mod_mod by lia. done.
Qed.

Lemma fill_loop_spec m p fuel : forall st len crc,
  buf st = Buf (fill_mem m p) 0 0 CONFIG_SPARSE_COPY_SIZE -> blksz (tgt st) = 2 ^ k ->
  t_devid (tgt st) = dev -> ready (disk st) -> 0 <= len -> len mod 2 ^ k = 0 ->
  0 <= t_index (tgt st) -> t_index (tgt st) + len < 2 ^ 63 -> len < Z.of_nat fuel ->
  exists t' crc', fill_loop sv fuel st len crc =
      Some (St (remain st) (step st) (buf st) t' (src st)
              (write sv (disk st) (t_index (tgt st)) (bytes_at (fill_mem m p) 0 (Z.to_nat len))) (heap st),
            crc') /\
    t_index t' = t_index (tgt st) + len /\ t_devid t' = dev /\ blksz t' = 2 ^ k.
Proof.
  induction fuel as [|fuel IH]; intros st len crc Hb Hbk Hv Hr Hl Hm Ht Hend Hf; [lia|].
  cbn [fill_loop]. destruct (Z.eqb_spec len 0) as [->|Hnz].
  { exists (tgt st), crc. cbn [Z.to_nat bytes_at].
    rewrite (tg_write_nil sv (dev:=dev) (k:=k)) by done.
    split_and!; [by destruct st|lia|done|done]. }
  pose proof pows. set (chunk := if CONFIG_SPARSE_COPY_SIZE <? len then _ else len).
  assert (Hc : 0 < chunk <= len /\ chunk <= 2 ^ 20 /\ chunk mod 2 ^ k = 0).
  { unfold chunk, CONFIG_SPARSE_COPY_SIZE. destruct (Z.ltb_spec 0x100000 len);
      split_and!; try lia; try done. apply (pow_multiple 20); lia. }
  assert (Hn : chunk - chunk mod 2 ^ k = chunk) by lia.
  rewrite write_core by (rewrite ?Hb; cbn [index deepth]; unfold CONFIG_SPARSE_COPY_SIZE; try done; lia).
  rewrite Hn. cbn zeta.
  match goal with |- context [fill_loop sv fuel ?s ?l ?c] =>
    destruct (IH s l c) as (t' & crc' & E & Ht' & Hv' & Hbk'); cbn [buf tgt blksz t_devid t_index disk];
      try done; try lia end.
  { by apply (tg_write sv (dev:=dev) (k:=k)). }
  { rewrite Zminus_mod, Hm. replace (chunk mod 2 ^ k) with 0 by lia. by rewrite Z.mod_0_l by lia. }
  exists t', crc'. rewrite E. cbn [tgt t_index disk remain step buf src] in *.
  split_and!; [|lia|done|done]. do 3 f_equal.
  rewrite Hb. cbn [copybuf index].
  assert (Hl' : Z.of_nat (length (bytes_at (fill_mem m p) 0 (Z.to_nat chunk))) = chunk)
    by (rewrite length_bytes_at; lia).
  rewrite <- Hl' at 2. rewrite (tg_write_app sv (dev:=dev) (k:=k)) by done. f_equal.
  replace (Z.to_nat len) with (Z.to_nat chunk + Z.to_nat (len - chunk))%nat by lia.
  rewrite bytes_at_app, (fill_shift m p _ (0 + _)); [done|lia|].
  rewrite Z.add_0_l, Z2Nat.id by lia. apply (mod_4 k); lia.
Qed.

(** ** The image *)

(** The chunks: [n] blocks of data, [n] blocks of a repeated word, [n]
    blocks to skip, a checksum. *)
Inductive chunk :=
| Raw (n : Z) (data : list Z)
| Fill (n : Z) (word : list Z)
| DontCare (n : Z)
| Checksum (word : list Z).

(** The image's block size, and the chunk header size its header states. *)
Context (blk hsz : Z) (Hblk : 0 < blk < 2 ^ 31) (Hmod : blk mod 2 ^ k = 0) (Hhsz : 0 <= hsz < 2 ^ 16).

Definition chunk_blocks (c : chunk) : Z :=
  match c with Raw n _ | Fill n _ | DontCare n => n | Checksum _ => 0 end.

Definition chunk_ok (c : chunk) : Prop :=
  match c with
  | Raw n data => 0 <= n /\ Z.of_nat (length data) = n * blk
  | Fill n word => 0 <= n < 2 ^ 31 /\ length word = 4%nat
  | DontCare n => 0 <= n /\ n * blk < 2 ^ 32
  | Checksum word => length word = 4%nat
  end.

Definition header_bytes (type blocks total : Z) : list Z :=
  le_put 2 type ++ le_put 2 0 ++ le_put 4 blocks ++ le_put 4 total.

Definition encode (c : chunk) : list Z :=
  match c with
  | Raw n data => header_bytes CHUNK_TYPE_RAW n (u32 (hsz + u32 (n * blk))) ++ data
  | Fill n word => header_bytes CHUNK_TYPE_FILL n (hsz + 4) ++ word
  | DontCare n => header_bytes CHUNK_TYPE_DONT_CARE n hsz
  | Checksum word => header_bytes CHUNK_TYPE_CRC32 0 (hsz + 4) ++ word
  end.

(** [len] bytes of the repeated word. *)
Definition repeated (word : list Z) (len : Z) : list Z :=
  bytes_at (fun q => nth (Z.to_nat (q mod 4)) word 0) 0 (Z.to_nat len).

(** What a chunk does to the device at offset [o]. *)
Definition apply_chunk (c : chunk) (d : D) (o : Z) : D :=
  match c with
  | Raw n data => write sv d o data
  | Fill n word => write sv d o (repeated word (n * blk))
  | DontCare _ | Checksum _ => d
  end.

Fixpoint apply_chunks (l : list chunk) (d : D) (o : Z) : D :=
  match l with
  | [] => d
  | c :: l => apply_chunks l (apply_chunk c d o) (o + chunk_blocks c * blk)
  end.

(** Without room for its buffer a repeated word is dropped, and its blocks are
    not counted: what follows moves down. *)
Definition dropped (c : chunk) (r : nat) : bool :=
  match c, r with Fill _ _, O => true | _, _ => false end.

Definition room_after (c : chunk) (r : nat) : nat :=
  match c with Fill _ _ => pred r | _ => r end.

Fixpoint apply_with_room (r : nat) (l : list chunk) (d : D) (o : Z) : D :=
  match l with
  | [] => d
  | c :: l =>
      if dropped c r then apply_with_room r l d o
      else apply_with_room (room_after c r) l (apply_chunk c d o) (o + chunk_blocks c * blk)
  end.

Definition is_fill (c : chunk) : bool := match c with Fill _ _ => true | _ => false end.

Lemma enough_room l : forall r d o,
  (length (List.filter is_fill l) <= r)%nat -> apply_with_room r l d o = apply_chunks l d o.
Proof.
  induction l as [|c l IH]; intros r d o Hr; [done|]. cbn [apply_with_room apply_chunks List.filter] in *.
  destruct c; cbn [is_fill length] in Hr; cbn [dropped room_after]; try (by apply IH).
  destruct r as [|r]; [lia|]. apply IH. cbn [pred]. lia.
Qed.

(** [text_at] of what is at the front of the data. *)
Lemma front_text st l r :
  avail st = l ++ r -> Z.of_nat (length l) <= held st ->
  text_at (copybuf (buf st)) (index (buf st)) l.
Proof.
  intros E Hl. unfold text_at.
  pose proof (avail_take st (Z.of_nat (length l)) ltac:(lia)) as H.
  rewrite Nat2Z.id, E, take_app_length in H. exact H.
Qed.

Lemma chunk_header_text m p ty n tot :
  text_at m p (header_bytes ty n tot) -> 0 <= ty < 2 ^ 16 -> 0 <= n < 2 ^ 32 -> 0 <= tot < 2 ^ 32 ->
  read_chunk_header m p = CH ty 0 n tot.
Proof.
  unfold header_bytes. rewrite !text_at_app, !length_le_put. intros (H1 & H2 & H3 & H4) ???.
  change (Z.of_nat 2) with 2 in *. change (Z.of_nat 4) with 4 in *.
  unfold read_chunk_header.
  rewrite (load16_text m p ty), (load16_text m (p + 2) 0), (load32_text m (p + 4) n),
    (load32_text m (p + 8) tot); try done.
  - by replace (p + 8) with (p + 2 + 2 + 4) by lia.
  - by replace (p + 4) with (p + 2 + 2) by lia.
Qed.

(** The header of the next chunk is fetched, and the data after it reached. *)
Lemma header_spec fuel st ty n tot r :
  inv st -> avail st = header_bytes ty n tot ++ r -> 2 ^ 20 < Z.of_nat fuel ->
  0 <= ty < 2 ^ 16 -> 0 <= n < 2 ^ 32 -> 0 <= tot < 2 ^ 32 ->
  exists st1 ret,
    (if DATA_IN_BUFFER_NOW st <? CHUNK_HEADER_LEN
     then get_data_from_source sv fuel st CHUNK_HEADER_LEN
     else Some (st, CHUNK_HEADER_LEN)) = Some (st1, ret) /\
    read_chunk_header (copybuf (buf st1)) (index (buf st1)) = CH ty 0 n tot /\
    (u32 ret <? CHUNK_HEADER_LEN) || (ret =? -1) = false /\
    inv (seek_buffer st1 CHUNK_HEADER_LEN) /\ avail (seek_buffer st1 CHUNK_HEADER_LEN) = r /\
    same_target st (seek_buffer st1 CHUNK_HEADER_LEN).
Proof.
  intros Hinv Hav Hf ???. unfold CHUNK_HEADER_LEN.
  destruct (data_in_buffer st Hinv) as [-> _].
  assert (length (header_bytes ty n tot) = 12%nat) as Hl
    by (unfold header_bytes; rewrite !length_app, !length_le_put; done).
  destruct (ensure_spec fuel st 12 12 Hinv) as (st1 & ret & -> & Hi1 & Ha1 & [Ht1 Hd1] & Hh1 & Hr);
    [lia|rewrite Hav, length_app; lia|done|].
  destruct (seek_spec st1 12 Hi1) as (Hi2 & Ha2 & _ & _ & [Ht2 Hd2]); [lia|].
  exists st1, ret. split_and!; [done| | |done| |split; congruence].
  - apply chunk_header_text; try done. apply (front_text _ _ r); [congruence|lia].
  - rewrite u32_small by lia. lia.
  - rewrite Ha2, Ha1, Hav, drop_app_length'; [done|]. by rewrite Hl.
Qed.

Lemma repeated_fill m p word len :
  text_at m p word -> length word = 4%nat ->
  bytes_at (fill_mem m p) 0 (Z.to_nat len) = repeated word len.
Proof.
  intros Ht Hl. unfold repeated. apply bytes_at_eq_iff. intros i Hi. rewrite Z.add_0_l.
  unfold fill_mem. pose proof (Z.mod_pos_bound i 4).
  unfold text_at in Ht. rewrite <- Ht, nth_default_lookup, bytes_at_lookup by lia.
  by rewrite Z2Nat.id by lia.
Qed.

Lemma inv_heap st h : inv st -> inv (set_heap st h).
Proof. by intros []. Qed.

Lemma fill_chunk_spec fuel st n word rest crc :
  inv st -> avail st = word ++ rest -> length word = 4%nat -> heap_ok (heap st) ->
  0 <= n -> 0 <= t_index (tgt st) -> t_index (tgt st) + n * blk < 2 ^ 63 ->
  2 ^ 20 + n * blk < Z.of_nat fuel ->
  exists st' crc' ret, process_fill_chunk sv fuel st n blk crc = Some (st', crc', ret) /\
    inv st' /\ avail st' = rest /\ heap_ok (heap st') /\ room (heap st') = pred (room (heap st)) /\
    if dropped (Fill n word) (room (heap st)) then same_target st st'
    else t_index (tgt st') = t_index (tgt st) + n * blk /\
         disk st' = write sv (disk st) (t_index (tgt st)) (repeated word (n * blk)).
Proof.
  intros Hinv Hav Hw Hok Hn Ht Hend Hf. unfold process_fill_chunk.
  destruct (data_in_buffer st Hinv) as [-> Hh]. rewrite s32_small by lia.
  destruct (ensure_spec fuel st 4 0 Hinv) as (st1 & ret & E1 & Hi1 & Ha1 & [Ht1 Hd1] & Hh1 & _);
    [lia|rewrite Hav, length_app; lia|nia|].
  rewrite E1. apply ensure_heap in E1 as Eh. cbn [mbind option_bind]. rewrite Eh.
  destruct (advance_spec st1 4 Hi1) as (Hi2 & Ha2 & _); [lia|]. cbn zeta in *.
  assert (drop (Z.to_nat 4) (avail st1) = rest) as Hrest.
  { rewrite Ha1, Hav, drop_app_length'; [done|]. by rewrite Hw. }
  rewrite Hrest in Ha2. pose proof (hp_large sv (heap st) Hok) as HL.
  destruct (malloc sv (heap st) CONFIG_SPARSE_COPY_SIZE) as [h p]. destruct HL as [Hok1 Hr1].
  destruct p as [p|]; cycle 1.
  { destruct Hr1 as [-> Hr1]. eexists _, crc, _. split; [done|].
    split_and!; [by apply (inv_heap _ h) in Hi2|exact Ha2|exact Hok1|exact Hr1|split; [exact Ht1|exact Hd1]]. }
  rewrite Hr1. cbn [dropped]. cbn [set_heap heap].
  destruct (hp_small sv h Hok1) as (h2 & tmp & -> & Hok2 & Hr2). cbn [mbind option_bind].
  set (st2 := set_buf st1 (set_index (buf st1) _)) in *.
  pose proof Hi1 as [_ _ _ Hs1 Hbk1 Hv1 Hrd1 _ _].
  match goal with |- context [fill_loop sv fuel ?s ?l ?c] =>
    destruct (fill_loop_spec (copybuf (buf st1)) (index (buf st1)) fuel s l c)
      as (t' & crc' & -> & Ht' & Hv' & Hbk'); cbn [buf tgt set_buf set_heap disk]; try done end.
  { nia. }
  { by rewrite Z.mul_mod, Hmod, Z.mul_0_r, Z.mod_0_l by (pose proof pows; lia). }
  { by rewrite Ht1. }
  { by rewrite Ht1. }
  { lia. }
  cbn [mbind option_bind]. eexists _, crc', _. split; [done|].
  cbn [set_buf tgt set_tgt set_heap t_index disk remain step buf src heap] in *. split_and!.
  - destruct Hi2 as [? ? ? ? ? ? ? ? ?]. split; try done. cbn.
    by apply (tg_write sv (dev:=dev) (k:=k)).
  - exact Ha2.
  - exact Hok2.
  - exact Hr2.
  - by rewrite Ht', Ht1.
  - rewrite (repeated_fill _ _ word), Hd1, Ht1; [done| |done].
    apply (front_text _ _ rest); [congruence|lia].
Qed.

Lemma crc_chunk_spec fuel st word rest crc :
  inv st -> avail st = word ++ rest -> length word = 4%nat -> 2 ^ 20 < Z.of_nat fuel ->
  exists st' r, process_crc32_chunk sv fuel st crc = Some (st', r) /\
    inv st' /\ avail st' = rest /\ same_target st st'.
Proof.
  intros Hinv Hav Hw Hf. unfold process_crc32_chunk.
  destruct (data_in_buffer st Hinv) as [-> Hh]. rewrite s32_small by lia.
  destruct (ensure_spec fuel st 4 (held st) Hinv)
    as (st1 & ret & -> & Hi1 & Ha1 & [Ht1 Hd1] & Hh1 & _); [lia|rewrite Hav, length_app; lia|lia|].
  cbn [mbind option_bind]. destruct (advance_spec st1 4 Hi1) as (Hi2 & Ha2 & _); [lia|].
  cbn zeta in *. set (st2 := set_buf st1 (set_index (buf st1) _)) in *.
  assert (avail st2 = rest) by (rewrite Ha2, Ha1, Hav, drop_app_length'; [done|by rewrite Hw]).
  exists st2. destruct (negb (ret =? 4)); [|case_match]; eexists; by split_and!.
Qed.

Lemma crc_heap fuel st crc st' r : process_crc32_chunk sv fuel st crc = Some (st', r) -> heap st' = heap st.
Proof.
  unfold process_crc32_chunk. match goal with |- context [if ?c then get_data_from_source sv fuel st 4 else Some (st, ?d)] =>
    destruct (if c then get_data_from_source sv fuel st 4 else Some (st, d)) as [[st1 ret]|] eqn:E end; [|done].
  apply ensure_heap in E. cbn [mbind option_bind]. destruct (negb _); [by intros [= <- _]|].
  destruct (negb _); by intros [= <- _].
Qed.

(** One turn of the loop over the chunks. *)
Lemma burn_chunk_spec fuel h st c rest crc total :
  inv st -> avail st = encode c ++ rest -> chunk_ok c -> heap_ok (heap st) ->
  chunk_hdr_sz h = hsz -> blk_sz h = blk -> Z.of_nat (length (avail st)) < 2 ^ 31 ->
  0 <= t_index (tgt st) -> t_index (tgt st) + chunk_blocks c * blk < 2 ^ 63 ->
  2 ^ 20 + chunk_blocks c * blk < Z.of_nat fuel ->
  exists st' crc' total', burn_chunk sv fuel h st crc total = Some (st', inl (crc', total')) /\
    inv st' /\ avail st' = rest /\ heap_ok (heap st') /\ room (heap st') = room_after c (room (heap st)) /\
    if dropped c (room (heap st)) then same_target st st'
    else t_index (tgt st') = t_index (tgt st) + chunk_blocks c * blk /\
         disk st' = apply_chunk c (disk st) (t_index (tgt st)).
Proof.
  intros Hinv Hav Hc Hm Hhs Hbs Hsm Ht Hend Hf. unfold burn_chunk.
  assert (0 <= chunk_blocks c) by (destruct c; cbn in *; lia).
  assert (2 ^ 20 < Z.of_nat fuel) by nia.
  destruct c as [n data|n word|n|word]; cbn [chunk_ok chunk_blocks encode apply_chunk room_after] in *; cbn [dropped].
  - destruct Hc as [_ Hd]. rewrite <- app_assoc in Hav.
    assert (n * blk < 2 ^ 31) by (rewrite Hav, !length_app in Hsm; lia).
    destruct (header_spec fuel st _ _ _ _ Hinv Hav)
      as (st1 & ret & E & Hh & Hret & Hi1 & Ha1 & [Ht1 Hd1]); [done|done|nia|apply u32_range|].
    rewrite E. apply ensure_heap in E as Eh. cbn [mbind option_bind]. rewrite Hh, Hret. cbn [chunk_type chunk_sz total_sz].
    rewrite Z.eqb_refl, Hhs, Hbs, Z.eqb_refl. cbn [negb]. unfold process_raw_chunk.
    rewrite (u32_small (n * blk)) by lia.
    destruct (raw_loop_spec fuel (seek_buffer st1 CHUNK_HEADER_LEN) (n * blk) crc)
      as (st2 & crc2 & E2 & Hi2 & Ha2 & Ht2 & Hd2); try done; try (rewrite Ht1; done); [lia| | |].
    { by rewrite Z.mul_mod, Hmod, Z.mul_0_r, Z.mod_0_l by (pose proof pows; lia). }
    { rewrite <- length_avail, Ha1, length_app by done. lia. }
    rewrite E2. apply raw_loop_heap in E2. rewrite seek_heap, Eh in E2.
    cbn [mbind option_bind]. eexists st2, crc2, _. split; [done|]. rewrite E2.
    assert (Z.to_nat (n * blk) = length data) as El by lia.
    rewrite El in *. rewrite Ha1 in *. rewrite drop_app_length in Ha2.
    rewrite take_app_length in Hd2. rewrite Ht1, Hd1 in *. by split_and!.
  - destruct Hc as [Hn Hw]. rewrite <- app_assoc in Hav.
    destruct (header_spec fuel st _ _ _ _ Hinv Hav)
      as (st1 & ret & E & Hh & Hret & Hi1 & Ha1 & [Ht1 Hd1]); [done|done|lia|lia|].
    rewrite E. apply ensure_heap in E as Eh. cbn [mbind option_bind]. rewrite Hh, Hret. cbn [chunk_type chunk_sz total_sz].
    change (CHUNK_TYPE_FILL =? CHUNK_TYPE_RAW) with false.
    rewrite Z.eqb_refl, Hhs, Hbs, u32_small, Z.eqb_refl by lia. cbn [negb].
    destruct (fill_chunk_spec fuel (seek_buffer st1 CHUNK_HEADER_LEN) n word rest crc)
      as (st2 & crc2 & blks & -> & Hi2 & Ha2 & Ho2 & Hr2 & H2); try done; try (rewrite Ht1; done).
    { by rewrite seek_heap, Eh. }
    cbn [mbind option_bind]. eexists st2, crc2, _. split; [done|].
    rewrite seek_heap, Eh in *. unfold same_target in *. rewrite Ht1, Hd1 in *. by split_and!.
  - destruct (header_spec fuel st _ _ _ _ Hinv Hav)
      as (st1 & ret & E & Hh & Hret & Hi1 & Ha1 & [Ht1 Hd1]); [done|done|nia|lia|].
    rewrite E. apply ensure_heap in E as Eh. cbn [mbind option_bind]. rewrite Hh, Hret. cbn [chunk_type chunk_sz total_sz].
    change (CHUNK_TYPE_DONT_CARE =? CHUNK_TYPE_RAW) with false.
    change (CHUNK_TYPE_DONT_CARE =? CHUNK_TYPE_FILL) with false.
    rewrite Z.eqb_refl, Hhs, Hbs, Z.eqb_refl. cbn [negb]. unfold process_skip_chunk.
    eexists _, _, _. split; [done|]. cbn [tgt set_tgt t_index disk heap]. rewrite seek_heap, Eh.
    rewrite Ht1, (u32_small (n * blk)) by lia. unfold s64. rewrite Z.mod_small by lia.
    split_and!; [|done|done|done|lia|done].
    destruct Hi1. split; try done; cbn; congruence.
  - rewrite <- app_assoc in Hav.
    destruct (header_spec fuel st _ _ _ _ Hinv Hav)
      as (st1 & ret & E & Hh & Hret & Hi1 & Ha1 & [Ht1 Hd1]); [done|done|lia|lia|].
    rewrite E. apply ensure_heap in E as Eh. cbn [mbind option_bind]. rewrite Hh, Hret. cbn [chunk_type chunk_sz total_sz].
    change (CHUNK_TYPE_CRC32 =? CHUNK_TYPE_RAW) with false.
    change (CHUNK_TYPE_CRC32 =? CHUNK_TYPE_FILL) with false.
    change (CHUNK_TYPE_CRC32 =? CHUNK_TYPE_DONT_CARE) with false. rewrite Z.eqb_refl.
    destruct (crc_chunk_spec fuel (seek_buffer st1 CHUNK_HEADER_LEN) word rest crc)
      as (st2 & r & E2 & Hi2 & Ha2 & [Ht2 Hd2]); [done..|].
    rewrite E2. apply crc_heap in E2. rewrite seek_heap, Eh in E2.
    cbn [mbind option_bind]. eexists st2, _, _. split; [done|].
    rewrite Ht2, Hd2, Ht1, Hd1, E2. split_and!; [done|done|done|done|lia|done].
Qed.

Definition encode_all (l : list chunk) : list Z := concat (map encode l).

(** The size of what the chunks stand for. *)
Fixpoint out_size (l : list chunk) : Z :=
  match l with
  | [] => 0
  | c :: l => chunk_blocks c * blk + out_size l
  end.

Lemma out_size_nonneg l : Forall chunk_ok l -> 0 <= out_size l.
Proof.
  induction 1 as [|c l Hc _ IH]; cbn [out_size]; [lia|].
  assert (0 <= chunk_blocks c) by (destruct c; cbn in *; lia). nia.
Qed.

Lemma chunk_loop_spec fuel h l : forall st rest crc total,
  inv st -> avail st = encode_all l ++ rest -> Forall chunk_ok l -> heap_ok (heap st) ->
  chunk_hdr_sz h = hsz -> blk_sz h = blk -> Z.of_nat (length (avail st)) < 2 ^ 31 ->
  0 <= t_index (tgt st) -> t_index (tgt st) + out_size l < 2 ^ 63 ->
  2 ^ 20 + out_size l < Z.of_nat fuel ->
  exists st' total', chunk_loop sv fuel (length l) h st crc total = Some (st', inl total') /\
    disk st' = apply_with_room (room (heap st)) l (disk st) (t_index (tgt st)).
Proof.
  induction l as [|c l IH]; intros st rest crc total Hinv Hav Hok Hm Hhs Hbs Hsm Ht Hend Hf;
    cbn [length chunk_loop out_size apply_with_room] in *; [by eexists _, _|].
  apply Forall_cons in Hok as [Hc Hok]. pose proof (out_size_nonneg l Hok).
  assert (0 <= chunk_blocks c * blk)
    by (assert (0 <= chunk_blocks c) by (destruct c; cbn in *; lia); nia).
  change (encode_all (c :: l)) with (encode c ++ encode_all l) in Hav.
  rewrite <- app_assoc in Hav.
  destruct (burn_chunk_spec fuel h st c _ crc total Hinv Hav Hc Hm Hhs Hbs)
    as (st1 & crc1 & total1 & -> & Hi1 & Ha1 & Ho1 & Hr1 & H1); [done|done|lia|lia|].
  cbn [mbind option_bind].
  assert (0 <= t_index (tgt st1) <= t_index (tgt st) + chunk_blocks c * blk) as Ht1.
  { destruct (dropped _ _); [destruct H1 as [-> _]; lia|destruct H1 as [-> _]; lia]. }
  destruct (IH st1 rest crc1 total1) as (st2 & total2 & -> & Hd2); try done; try lia.
  { rewrite Ha1. rewrite Hav, length_app in Hsm. lia. }
  exists st2, total2. split; [done|]. rewrite Hd2, Hr1.
  destruct (dropped c _) eqn:Ed; destruct H1 as [-> ->]; [|done].
  unfold dropped, room_after in *. destruct c; try done. by destruct (room (heap st)).
Qed.

Lemma length_encode_all l : (length l <= length (encode_all l))%nat.
Proof.
  induction l as [|c l IH]; [done|]. unfold encode_all in *. cbn [map concat length].
  rewrite length_app. assert (0 < length (encode c))%nat; [|lia].
  destruct c; cbn [encode]; unfold header_bytes; rewrite ?length_app, ?length_le_put; lia.
Qed.

(** The file header, with the fields the code looks at and those it does
    not. *)
Definition file_header (minor fhsz total_blks total_chunks checksum : Z) : list Z :=
  le_put 4 SPARSE_HEADER_MAGIC ++ le_put 2 SPARSE_HEADER_MAJOR_VER ++ le_put 2 minor ++
  le_put 2 fhsz ++ le_put 2 hsz ++ le_put 4 blk ++ le_put 4 total_blks ++
  le_put 4 total_chunks ++ le_put 4 checksum.

Lemma file_header_text m p minor fhsz tb tc cs :
  text_at m p (file_header minor fhsz tb tc cs) -> 0 <= tb < 2 ^ 32 -> 0 <= tc < 2 ^ 32 ->
  let h := read_sparse_header m p in
  magic h = SPARSE_HEADER_MAGIC /\ major_version h = SPARSE_HEADER_MAJOR_VER /\
  chunk_hdr_sz h = hsz /\ blk_sz h = blk /\ total_blks h = tb /\ total_chunks h = tc.
Proof.
  unfold file_header. rewrite !text_at_app, !length_le_put.
  intros (H1 & H2 & _ & _ & H5 & H6 & H7 & H8 & _) ??.
  change (Z.of_nat 2) with 2 in *. change (Z.of_nat 4) with 4 in *.
  cbn [read_sparse_header magic major_version chunk_hdr_sz blk_sz total_blks total_chunks].
  replace (p + 4 + 2 + 2 + 2) with (p + 10) in * by lia.
  replace (p + 10 + 2) with (p + 12) in * by lia.
  replace (p + 12 + 4) with (p + 16) in * by lia. replace (p + 16 + 4) with (p + 20) in * by lia.
  split_and!; [by apply load32_text|by apply load16_text|by apply load16_text| | |];
    apply load32_text; try done; lia.
Qed.

Lemma issparse_spec h :
  magic h = SPARSE_HEADER_MAGIC -> major_version h = SPARSE_HEADER_MAJOR_VER ->
  Z.land (blk_sz h) (u32 (align sv (storage_device sv) - 1)) = 0 -> issparse sv h = true.
Proof. intros E1 E2 E3. unfold issparse. by rewrite E1, E2, E3, !Z.eqb_refl. Qed.

(** A well-formed image in the source, and services that work. *)
Record burnable (fuel : nat) (offs sz : Z) (s : X) (l : list chunk) (minor fhsz tb cs : Z)
    : Prop := {
  bn_content : content s = file_header minor fhsz tb (Z.of_nat (length l)) cs ++ encode_all l;
  bn_size : sz = Z.of_nat (length (content s)) /\ sz < 2 ^ 31;
  bn_chunks : Forall chunk_ok l;
  bn_blocks : 0 <= tb < 2 ^ 32;
  bn_system : Z.land blk (u32 (align sv (storage_device sv) - 1)) = 0;
  bn_offs : 0 <= offs /\ offs + out_size l < 2 ^ 63;
  bn_fuel : 2 ^ 20 + out_size l < Z.of_nat fuel
}.


End Reading.
(** ** A concrete burn *)

(** The image in RAM, delivered in pieces of 512 bytes, a device that is a
    memory in blocks of 512 bytes, and a heap of so many bytes with 8 bytes
    beside each allocation, whose addresses stand for their sizes. *)
Definition take_bytes (free n : Z) : Z * option Z :=
  if n + 8 <=? free then (free - (n + 8), Some (n + 8)) else (free, None).

Definition ram_services : services (list Z) mem Z := {|
  get_data := fun s => (drop (Z.to_nat (2 ^ 9)) s, take (Z.to_nat (2 ^ 9)) s,
                        Z.of_nat (length (take (Z.to_nat (2 ^ 9)) s)));
  assign := fun d _ _ => (d, 0);
  write := store;
  erase := fun d o n => store d o (repeat 255 (Z.to_nat n));
  erasable := fun dev => dev =? 1;
  align := fun _ => 2 ^ 9;
  storage_device := 0;
  malloc := take_bytes;
  free := Z.add
|}.

#[export] Instance ram_source : ByteSource ram_services (fun s => s) (Z.to_nat (2 ^ 9)).
Proof. split. intros s. by eexists. Qed.

#[export] Instance ram_target : Target ram_services (fun _ => True) 0 9.
Proof. split; try done. intros d o a b _. symmetry. apply store_app. Qed.

Definition large := CONFIG_SPARSE_COPY_SIZE + 8.
Definition large_left (h : Z) : nat := Z.to_nat (h / large).

#[export] Instance ram_heap : Heap ram_services (fun h => 0 <= h /\ 24 <= h mod large) large_left.
Proof.
  unfold large_left, large, CONFIG_SPARSE_COPY_SIZE. split; intros h [H0 Hm]; cbn [malloc free ram_services]; unfold take_bytes.
  - change (CONFIG_SPARSE_COPY_SIZE + 8) with 1048584. change (0x100000 + 8) with 1048584 in *.
    destruct (Z.leb_spec 1048584 h).
    + replace h with ((h - 1048584) + 1 * 1048584) in Hm by lia. rewrite Z.mod_add in Hm by lia.
      replace (h / 1048584) with ((h - 1048584) / 1048584 + 1)
        by (rewrite <- Z.div_add by lia; f_equal; lia).
      pose proof (Z.div_pos (h - 1048584) 1048584). split; [lia|]. lia.
    + rewrite Z.div_small by lia. done.
  - change (0x100000 + 8) with 1048584 in *. change (BUFFER_LEN + 8) with 24.
    destruct (Z.leb_spec 24 h); [|rewrite Z.mod_small in Hm; lia].
    exists (h - 24), 24. split; [done|]. rewrite Z.sub_add. done.
Qed.

(** A raw block, two blocks of a word, three blocks left alone, a checksum
    that is wrong. *)
Definition sample_chunks : list chunk :=
  [Raw 1 (repeat 7 512); Fill 2 [1; 2; 3; 4]; DontCare 3; Checksum [0; 0; 0; 0]].
Definition sample_image : list Z :=
  file_header 512 12 0 28 6 (Z.of_nat (length sample_chunks)) 0 ++ encode_all 512 12 sample_chunks.


(** After 18 repeated words the next one is dropped, and the data after it
    lands one block too low. *)
Example word_dropped d :
  apply_with_room ram_services 512 18 (replicate 19 (Fill 1 [1; 2; 3; 4]) ++ [Raw 1 (repeat 7 512)]) d 0 =
  store (apply_chunks ram_services 512 (replicate 18 (Fill 1 [1; 2; 3; 4])) d 0) (18 * 512) (repeat 7 512).
Proof. reflexivity. Qed.
