(* ===== verification/Secure.v ===== *)
(** * Secure: infotm/drivers/secure, hashes and the block cipher

    The code that checks images takes every hash through one interface,
    [hash_init], [hash_data], [hash_value] (hash.c), which selects the
    software CRC (crc32.c) or the hash engine of the chip (md5.c, sha1.c,
    sha256.c); the cipher is behind [ss_aes_init] and [ss_aes_data]
    (crypto.c).  A fuse can take engine and cipher away
    (cpu/armv7/imapx800/e-fuse.c).

    The registers of the engine (hash_module.c, crypto_module.c) are the
    parameter [engine]; what the proofs use of it is the class
    [HashEngine], which the engine computing in software, [soft_engine],
    satisfies.  The static variables of these files are the record
    [secure]. *)

From S2P Require Import Prelude Mem Crc Hash Sha256 Sha1 Md5.
Local Open Scope Z_scope.

(** ** The fuses (e-fuse.c) *)

Record efuse_paras := Efuse {
  e_config : Z;
  mux_mmc : Z; mux_default : Z; crystal : Z;
  tg_timing : Z;
  trust : Z;
  phy_read : Z; phy_delay : Z; polynomial : Z;
  seed : list Z;
  efuse_binfo : list Z
}.

Definition ECFG_TRUST_NUM := 0x7259.
Definition ECFG_DEFAULT_BINFO := Z.shiftl 1 10.
Definition ECFG_ENABLE_CRYPTO := Z.shiftl 1 16.

(** A blown fuse takes the feature away. *)
Definition ecfg_check_flag (e : efuse_paras) (flag : Z) : bool :=
  if trust e =? ECFG_TRUST_NUM then Z.land (e_config e) flag =? 0 else true.

(** ** State and hardware *)

Definition IUW_HASH_CRC := 0.
Definition IUW_HASH_MD5 := 1.
Definition IUW_HASH_SHA1 := 2.
Definition IUW_HASH_SHA256 := 3.

(** The engine selections of hash_module.h and crypto_module.h. *)
Definition MD5 := 0.
Definition SHA1 := 1.
Definition SHA256 := 3.
Definition ENCRYPTION := 1.
Definition DECRYPTION := 0.
Definition CUSTOM_KEY := 0.
Definition DEVICEID := 1.

(** The calls return their status; [hash_module_get_result] the 32 bytes it
    stores, [block_cipher_operation] the bytes that reached the output. *)
Record engine (E : Type) := Engine {
  hash_module_init : E -> Z -> Z -> Z -> E * Z;
  hash_dma_transfer : E -> list Z -> E * Z;
  hash_module_get_result : E -> E * list Z * Z;
  block_cipher_aes_init : E -> Z -> Z -> list Z -> list Z -> E * Z;
  block_cipher_operation : E -> list Z -> E * list Z * Z;
  block_cipher_lock_isk : E -> E
}.
Arguments hash_module_init {E}. Arguments hash_dma_transfer {E}.
Arguments hash_module_get_result {E}. Arguments block_cipher_aes_init {E}.
Arguments block_cipher_operation {E}. Arguments block_cipher_lock_isk {E}.

(** [md5_len], [sha1_len] and [sha256_len] are the three [msg_len]. *)
Record secure (E : Type) := Sec {
  g_type : Z;
  g_crc : Z;
  md5_len : Z;
  sha1_len : Z;
  sha256_len : Z;
  hw : E;
  efuse : efuse_paras
}.
Arguments Sec {E}. Arguments g_type {E}. Arguments g_crc {E}. Arguments md5_len {E}.
Arguments sha1_len {E}. Arguments sha256_len {E}. Arguments hw {E}. Arguments efuse {E}.

Section Driver.
Context {E : Type} (eng : engine E).
Abbreviation secure := (secure E).
Implicit Type s : secure.

Definition set_type s t : secure :=
  Sec t (g_crc s) (md5_len s) (sha1_len s) (sha256_len s) (hw s) (efuse s).
Definition set_crc s c : secure :=
  Sec (g_type s) c (md5_len s) (sha1_len s) (sha256_len s) (hw s) (efuse s).
Definition set_md5 s n : secure :=
  Sec (g_type s) (g_crc s) n (sha1_len s) (sha256_len s) (hw s) (efuse s).
Definition set_sha1 s n : secure :=
  Sec (g_type s) (g_crc s) (md5_len s) n (sha256_len s) (hw s) (efuse s).
Definition set_sha256 s n : secure :=
  Sec (g_type s) (g_crc s) (md5_len s) (sha1_len s) n (hw s) (efuse s).
Definition set_hw s e : secure :=
  Sec (g_type s) (g_crc s) (md5_len s) (sha1_len s) (sha256_len s) e (efuse s).

(** ** md5.c, sha1.c, sha256.c: the same three functions, over the [msg_len]
    of the file, the engine it selects and the length of its digest *)

Definition msg_init (set : secure -> Z -> secure) (mode : Z) s (len : Z) : secure * Z :=
  let msg_len := u64 (Z.shiftl len 3) in
  let '(e, ret) := hash_module_init eng (hw s) mode (u32 (Z.shiftr msg_len 32)) (u32 msg_len) in
  let s := set_hw s e in
  if negb (ret =? 0) then (set s msg_len, -1) else (set s (Z.shiftr msg_len 3), 0).

Definition msg_data (get : secure -> Z) (set : secure -> Z -> secure) s (buf : list Z)
    : secure * Z :=
  let len := Z.of_nat (length buf) in
  if get s <? len then (s, -1) else
  let s := set s (get s - len) in
  let '(e, ret) := hash_dma_transfer eng (hw s) buf in
  (set_hw s e, if negb (ret =? 0) then -2 else 0).

Definition msg_value (get : secure -> Z) (n : nat) s (m : mem) (buf : Z) : secure * mem * Z :=
  if negb (get s =? 0) then (s, m, -1) else
  let '(e, tmp, ret) := hash_module_get_result eng (hw s) in
  let s := set_hw s e in
  if negb (ret =? 0) then (s, m, -2) else (s, store m buf (take n tmp), 0).

Definition md5_init := msg_init set_md5 MD5.
Definition md5_data := msg_data md5_len set_md5.
Definition md5_value := msg_value md5_len 16.
Definition sha1_init := msg_init set_sha1 SHA1.
Definition sha1_data := msg_data sha1_len set_sha1.
Definition sha1_value := msg_value sha1_len 20.
Definition sha256_init := msg_init set_sha256 SHA256.
Definition sha256_data := msg_data sha256_len set_sha256.
Definition sha256_value := msg_value sha256_len 32.

(** crc32.c on the state. *)
Definition crc32_init s (len : Z) : secure * Z := (set_crc s (Crc32.crc32_init len), 0).
Definition crc32_data s (buf : list Z) : secure * Z :=
  (set_crc s (Crc32.crc32_data (g_crc s) buf), 0).
Definition crc32_value s (m : mem) (buf : Z) : secure * mem * Z :=
  (s, store m buf (Crc32.crc32_value (g_crc s)), 0).

(** ** hash.c *)

Record hash_func := HashFunc {
  hf_len : Z;
  hf_init : secure -> Z -> secure * Z;
  hf_data : secure -> list Z -> secure * Z;
  hf_value : secure -> mem -> Z -> secure * mem * Z
}.

Definition hash_funcs : list hash_func :=
  [HashFunc 4 crc32_init crc32_data crc32_value;
   HashFunc 16 md5_init md5_data md5_value;
   HashFunc 20 sha1_init sha1_data sha1_value;
   HashFunc 32 sha256_init sha256_data sha256_value].

Definition hash_func_of (type : Z) : hash_func :=
  nth (Z.to_nat type) hash_funcs (HashFunc 4 crc32_init crc32_data crc32_value).

(** The engine is needed and the fuse forbids it. *)
Definition noss s : bool :=
  negb (g_type s =? 0) && negb (ecfg_check_flag (efuse s) ECFG_ENABLE_CRYPTO).

Definition hash_init s (type len : Z) : secure * Z :=
  if IUW_HASH_SHA256 <? u32 type then (s, -1) else
  let s := set_type s type in
  if noss s then (s, 0) else hf_init (hash_func_of type) s (u32 len).

(** The [len] bytes at [buf]. *)
Definition hash_data s (m : mem) (buf len : Z) : secure * Z :=
  if noss s then (s, 0) else
  hf_data (hash_func_of (g_type s)) s (bytes_at m buf (Z.to_nat (u32 len))).

Definition hash_value s (m : mem) (buf : Z) : secure * mem * Z :=
  if noss s then (s, m, 0) else hf_value (hash_func_of (g_type s)) s m buf.

Definition hash_len s : Z := hf_len (hash_func_of (g_type s)).

(** ** crypto.c *)

(** [key] is [None] for NULL, the key of the chip. *)
Definition ss_aes_init s (type : Z) (key : option (list Z)) (iv : list Z) : secure * Z :=
  if negb (ecfg_check_flag (efuse s) ECFG_ENABLE_CRYPTO) then (s, 0) else
  let '(e, ret) :=
    match key with
    | None => block_cipher_aes_init eng (hw s) type DEVICEID [] iv
    | Some key => block_cipher_aes_init eng (hw s) type CUSTOM_KEY key iv
    end in
  (set_hw s e, if negb (ret =? 0) then -1 else 0).

(** [len] bytes at [src], rounded up to blocks of 16, to [buf]. *)
Definition ss_aes_data s (m : mem) (src buf len : Z) : secure * mem * Z :=
  if negb (ecfg_check_flag (efuse s) ECFG_ENABLE_CRYPTO) then (s, m, 0) else
  let len := Z.land (u32 (len + 0xf)) (u32 (Z.lnot 0xf)) in
  let '(e, out, ret) := block_cipher_operation eng (hw s) (bytes_at m src (Z.to_nat len)) in
  (set_hw s e, store m buf out, if negb (ret =? 0) then -1 else 0).

Definition ss_lock_isk s : secure :=
  if negb (ecfg_check_flag (efuse s) ECFG_ENABLE_CRYPTO) then s
  else set_hw s (block_cipher_lock_isk eng (hw s)).

End Driver.

(** ** The contract of the engine, and what the interface then computes *)

(** The standards the four types stand for. *)
Definition digest (type : Z) (msg : list Z) : list Z :=
  if type =? IUW_HASH_CRC then le_put 4 (Crc32.crc32 0 msg)
  else if type =? IUW_HASH_MD5 then Md5.MD5.md5_ref msg
  else if type =? IUW_HASH_SHA1 then Sha1.SHA1.sha1 msg
  else Sha256.SHA256.sha256 msg.

Definition digest_len (type : Z) : nat := nth (Z.to_nat type) [4; 16; 20; 32]%nat 0%nat.

Lemma length_digest type msg : 0 <= type <= 3 -> length (digest type msg) = digest_len type.
Proof.
  intros Ht. assert (type = 0 \/ type = 1 \/ type = 2 \/ type = 3) as [->|[->|[->| ->]]] by lia.
  - apply length_le_put.
  - apply Md5.MD5.length_md5_ref.
  - apply Sha1.SHA1.length_sha1.
  - apply Sha256.SHA256.length_sha256.
Qed.

(** [fed e mode n l]: the engine was started in [mode] for [n] bytes and has
    taken [l]. *)
Class HashEngine {E} (eng : engine E) (fed : E -> Z -> Z -> list Z -> Prop) : Prop := {
  he_init e mode n : 0 <= n < 2 ^ 32 ->
    exists e', hash_module_init eng e mode (Z.shiftr (8 * n) 32) (u32 (8 * n)) = (e', 0) /\
      fed e' mode n [];
  he_data e mode n l d : fed e mode n l -> Z.of_nat (length l + length d) <= n ->
    exists e', hash_dma_transfer eng e d = (e', 0) /\ fed e' mode n (l ++ d);
  he_result e mode n l : fed e mode n l -> Z.of_nat (length l) = n ->
    exists e' out, hash_module_get_result eng e = (e', out, 0) /\ length out = 32%nat /\
      (mode = MD5 -> take 16 out = digest IUW_HASH_MD5 l) /\
      (mode = SHA1 -> take 20 out = digest IUW_HASH_SHA1 l) /\
      (mode = SHA256 -> out = digest IUW_HASH_SHA256 l)
}.

(** Feed the regions [(address, length)] of memory one after the other. *)
Definition feed {E} (eng : engine E) (s : secure E) (m : mem) (rs : list (Z * Z)) : secure E :=
  fold_left (fun s r => (hash_data eng s m r.1 r.2).1) rs s.

Definition region_text (m : mem) (r : Z * Z) : list Z := bytes_at m r.1 (Z.to_nat r.2).
Definition regions_text (m : mem) (rs : list (Z * Z)) : list Z := concat (map (region_text m) rs).

(** The interface on its CRC, which needs no engine. *)
Section CrcType.
Context {E : Type} (eng : engine E).
Implicit Type s : secure E.

Lemma noss_crc s : g_type s = IUW_HASH_CRC -> noss s = false.
Proof. intros H. unfold noss. by rewrite H. Qed.

Lemma hash_init_crc s n :
  hash_init eng s IUW_HASH_CRC n = (set_crc (set_type s IUW_HASH_CRC) (Crc32.crc32_init 0), 0).
Proof. done. Qed.

Lemma hash_data_crc s m p k :
  g_type s = IUW_HASH_CRC ->
  hash_data eng s m p k =
    (set_crc s (Crc32.crc32_data (g_crc s) (bytes_at m p (Z.to_nat (u32 k)))), 0).
Proof. intros H. unfold hash_data. by rewrite noss_crc, H. Qed.

Lemma hash_value_crc s m p :
  g_type s = IUW_HASH_CRC ->
  hash_value eng s m p = (s, store m p (Crc32.crc32_value (g_crc s)), 0).
Proof. intros H. unfold hash_value. by rewrite noss_crc, H. Qed.

Lemma hash_len_crc s : g_type s = IUW_HASH_CRC -> hash_len eng s = Z.of_nat 4.
Proof. intros H. unfold hash_len. by rewrite H. Qed.
End CrcType.

Section Correct.
Context {E : Type} (eng : engine E) (fed : E -> Z -> Z -> list Z -> Prop)
  `{HE : !HashEngine eng fed}.
Abbreviation secure := (secure E).
Implicit Type s : secure.

(** The three engine-backed files, by the type they serve. *)
Definition msg_get (type : Z) : secure -> Z :=
  if type =? IUW_HASH_MD5 then md5_len else if type =? IUW_HASH_SHA1 then sha1_len else sha256_len.
Definition msg_mode (type : Z) : Z :=
  if type =? IUW_HASH_MD5 then MD5 else if type =? IUW_HASH_SHA1 then SHA1 else SHA256.

(** [s] is hashing: [l] of the [n] bytes announced were taken. *)
Record hashing (type n : Z) (l : list Z) s : Prop := {
  h_type : g_type s = type;
  h_on : noss s = false;
  h_crc : type = IUW_HASH_CRC -> g_crc s = Crc32.crc32_data (Crc32.crc32_init 0) l;
  h_eng : type <> IUW_HASH_CRC ->
    fed (hw s) (msg_mode type) n l /\ msg_get type s = n - Z.of_nat (length l)
}.

Lemma hash_func_cases type :
  0 <= type <= 3 ->
  type = 0 \/ type = 1 \/ type = 2 \/ type = 3.
Proof. lia. Qed.

Lemma noss_set_hw s e : noss (set_hw s e) = noss s.
Proof. done. Qed.

(** ** One step of the interface *)

Lemma msg_init_spec set mode s n :
  0 <= n < 2 ^ 32 ->
  exists e, msg_init eng set mode s n = (set (set_hw s e) n, 0) /\ fed e mode n [].
Proof.
  intros Hn. unfold msg_init.
  assert (u64 (Z.shiftl n 3) = 8 * n) as ->.
  { rewrite Z.shiftl_mul_pow2 by lia. rewrite u64_small; lia. }
  rewrite (u32_small (Z.shiftr _ _)).
  2: { rewrite Z.shiftr_div_pow2 by lia. split; [apply Z.div_pos; lia|].
       apply Z.div_lt_upper_bound; lia. }
  destruct (he_init (eng := eng) (hw s) mode n Hn) as (e & -> & Hf). exists e. split; [|done].
  cbn [negb Z.eqb]. rewrite Z.shiftr_div_pow2 by lia. replace (8 * n) with (n * 2 ^ 3) by lia.
  by rewrite Z.div_mul by lia.
Qed.

Lemma msg_data_spec (get : secure -> Z) set s mode n l d :
  (forall v, hw (set s v) = hw s) -> fed (hw s) mode n l ->
  get s = n - Z.of_nat (length l) -> Z.of_nat (length l + length d) <= n ->
  exists e, msg_data eng get set s d =
      (set_hw (set s (n - Z.of_nat (length (l ++ d)))) e, 0) /\ fed e mode n (l ++ d).
Proof.
  intros Hset Hf Hg Hn. unfold msg_data. rewrite Hg.
  destruct (Z.ltb_spec (n - Z.of_nat (length l)) (Z.of_nat (length d))); [lia|]. rewrite Hset.
  destruct (he_data (eng := eng) _ _ _ _ d Hf Hn) as (e & -> & Hf'). exists e.
  split; [|done]. rewrite length_app, Nat2Z.inj_add. by rewrite <- Z.sub_sub_distr || rewrite Z.sub_add_distr.
Qed.

Lemma msg_value_spec (get : secure -> Z) k s m buf mode n l :
  fed (hw s) mode n l -> get s = 0 -> Z.of_nat (length l) = n ->
  exists e out, msg_value eng get k s m buf = (set_hw s e, store m buf (take k out), 0) /\
    length out = 32%nat /\
    (mode = MD5 -> take 16 out = digest IUW_HASH_MD5 l) /\
    (mode = SHA1 -> take 20 out = digest IUW_HASH_SHA1 l) /\
    (mode = SHA256 -> out = digest IUW_HASH_SHA256 l).
Proof.
  intros Hf Hg Hn. unfold msg_value. rewrite Hg.
  destruct (he_result (eng := eng) _ _ _ _ Hf Hn) as (e & out & -> & H). by exists e, out.
Qed.

Lemma hash_init_spec s type n :
  0 <= type <= 3 -> 0 <= n < 2 ^ 32 -> noss (set_type s type) = false ->
  exists s', hash_init eng s type n = (s', 0) /\ hashing type n [] s' /\ efuse s' = efuse s.
Proof.
  intros Ht Hn Hon. unfold hash_init. rewrite (u32_small type), Hon, (u32_small n) by lia.
  unfold IUW_HASH_SHA256. destruct (Z.ltb_spec 3 type); [lia|].
  destruct (hash_func_cases type Ht) as [->|[->|[->| ->]]].
  { eexists. split; [done|]. split; [|done]. by split. }
  all: match goal with |- context [hash_func_of eng ?t] =>
         pose proof (msg_init_spec (nth (Z.to_nat t) [set_md5; set_md5; set_sha1; set_sha256] set_md5)
           (msg_mode t) (set_type s t) n Hn) as (e & He & Hf) end;
    eexists; (split; [exact He|]); split; [|done]; split; try done; intros _;
    (split; [exact Hf|exact (eq_sym (Z.sub_0_r n))]).
Qed.

Lemma hash_data_spec s m p k type n l :
  0 <= type <= 3 -> hashing type n l s -> 0 <= k -> Z.of_nat (length l) + k <= n -> n < 2 ^ 32 ->
  bytes_ok l -> bytes_ok (region_text m (p, k)) ->
  exists s', hash_data eng s m p k = (s', 0) /\ hashing type n (l ++ region_text m (p, k)) s' /\
    efuse s' = efuse s.
Proof.
  intros Ht [Hty Hon Hc He] Hk Hl Hn Hok1 Hok2. unfold hash_data. rewrite Hon, Hty, (u32_small k) by lia.
  change (bytes_at m p (Z.to_nat k)) with (region_text m (p, k)).
  assert (Hlen : Z.of_nat (length l + length (region_text m (p, k))) <= n).
  { unfold region_text. rewrite length_bytes_at. cbn [snd]. lia. }
  destruct (hash_func_cases type Ht) as [Et|Hcase].
  { subst type. rewrite Et. eexists. split; [done|]. split; [|done]. split; [done|exact Hon| |].
    - intros _. cbn. rewrite Hc by done. by apply Crc32Proofs.crc32_data_app.
    - by intros []. }
  assert (Hne : type <> IUW_HASH_CRC) by (unfold IUW_HASH_CRC; lia).
  destruct (He Hne) as [Hf Hg].
  destruct Hcase as [Et|[Et|Et]]; rewrite Et in *;
    (match goal with |- context [hash_func_of eng ?t] =>
       destruct (msg_data_spec (msg_get t)
         (nth (Z.to_nat t) [set_md5; set_md5; set_sha1; set_sha256] set_md5)
         s (msg_mode t) n l (region_text m (p, k)) ltac:(done) Hf Hg Hlen) as (e & Hd & Hf') end);
    eexists; (split; [exact Hd|]); (split; [|done]); split; try done.
Qed.

Lemma hash_value_spec s m buf type n l :
  0 <= type <= 3 -> hashing type n l s -> Z.of_nat (length l) = n -> bytes_ok l ->
  exists s', hash_value eng s m buf = (s', store m buf (digest type l), 0) /\
    g_type s' = type /\ efuse s' = efuse s.
Proof.
  intros Ht [Hty Hon Hc He] Hl Hok. unfold hash_value. rewrite Hon, Hty.
  destruct (hash_func_cases type Ht) as [Et|Hcase].
  { rewrite Et in *. exists s. split; [|done]. transitivity (crc32_value s m buf); [done|].
    unfold crc32_value. rewrite Hc by done. by rewrite Crc32Proofs.crc32_value_data. }
  assert (Hne : type <> IUW_HASH_CRC) by (unfold IUW_HASH_CRC; lia).
  destruct (He Hne) as [Hf Hg].
  destruct Hcase as [Et|[Et|Et]]; rewrite Et in *;
    (match goal with |- context [hash_func_of eng ?t] =>
       destruct (msg_value_spec (msg_get t) (digest_len t) s m buf (msg_mode t) n l Hf
         ltac:(rewrite Hg; lia) Hl) as (e & out & Hv & Hlo & H1 & H2 & H3) end);
    exists (set_hw s e); (split; [etransitivity; [exact Hv|]|done]).
  - change (digest 1 l) with (digest IUW_HASH_MD5 l). by rewrite <- H1.
  - change (digest 2 l) with (digest IUW_HASH_SHA1 l). by rewrite <- H2.
  - change (digest 3 l) with (digest IUW_HASH_SHA256 l).
    rewrite <- H3 by done. rewrite take_ge; [done|]. rewrite Hlo. apply le_n.
Qed.

Lemma feed_spec s m rs type n l :
  0 <= type <= 3 -> hashing type n l s -> Forall (fun r => 0 <= r.2) rs -> n < 2 ^ 32 ->
  Z.of_nat (length (l ++ regions_text m rs)) <= n -> bytes_ok (l ++ regions_text m rs) ->
  hashing type n (l ++ regions_text m rs) (feed eng s m rs) /\
  efuse (feed eng s m rs) = efuse s.
Proof.
  intros Ht Hs Hr Hn. revert s l Hs. induction Hr as [|[p k] rs Hk Hr IH]; intros s l Hs Hl Hok.
  { unfold regions_text. cbn. by rewrite app_nil_r. }
  change (regions_text m ((p, k) :: rs)) with (region_text m (p, k) ++ regions_text m rs) in *.
  rewrite app_assoc in *. pose proof Hok as Hok'. apply Forall_app in Hok' as [Hok1 _].
  apply Forall_app in Hok1 as [Hokl Hokr]. cbn [snd] in Hk.
  assert (Hlen : Z.of_nat (length l) + k <= n).
  { rewrite !length_app in Hl. unfold region_text in Hl at 1. rewrite length_bytes_at in Hl.
    cbn [snd] in Hl. lia. }
  destruct (hash_data_spec s m p k type n l) as (s' & Ed & Hs' & Hf); try done.
  cbn [feed fold_left fst snd]. rewrite Ed. cbn [fst].
  destruct (IH s' _ Hs' Hl Hok) as [H1 H2]. split; [exact H1|]. etransitivity; [exact H2|exact Hf].
Qed.
End Correct.

(** The hash interface computes the standard it was asked for: for each
    of the four types that is available, started for the length of a text
    and fed that text in any pieces, it stores the CRC-32, MD5, SHA-1 or
    SHA-256 of the text, of the length [hash_len] announces. *)
Theorem hash_correct {E} (eng : engine E) fed `{HE : !HashEngine eng fed} s m rs out type :
  0 <= type <= 3 -> noss (set_type s type) = false ->
  Forall (fun r => 0 <= r.2) rs -> bytes_ok (regions_text m rs) ->
  Z.of_nat (length (regions_text m rs)) < 2 ^ 32 ->
  exists s0 s1,
    hash_init eng s type (Z.of_nat (length (regions_text m rs))) = (s0, 0) /\
    hash_value eng (feed eng s0 m rs) m out =
      (s1, store m out (digest type (regions_text m rs)), 0) /\
    hash_len eng s1 = Z.of_nat (length (digest type (regions_text m rs))).
Proof.
  intros Ht Hon Hr Hok Hn. set (n := Z.of_nat (length (regions_text m rs))) in *.
  destruct (hash_init_spec eng fed s type n) as (s0 & E0 & H0 & _); [done|lia|done|].
  destruct (feed_spec eng fed s0 m rs type n []) as [H1 _]; [done..|].
  destruct (hash_value_spec eng fed (feed eng s0 m rs) m out type n (regions_text m rs))
    as (s1 & E1 & Ht1 & _); [done..|].
  exists s0, s1. split; [done|]. split; [done|].
  unfold hash_len. rewrite Ht1, length_digest by done.
  destruct (hash_func_cases type Ht) as [->|[->|[->| ->]]]; done.
Qed.

(** What the interface does when it cannot: an unknown type is refused and
    the previous one stays selected; without the engine every call reports
    success, and nothing is computed or stored. *)
Lemma hash_unavailable {E} (eng : engine E) s m type n :
  (3 < u32 type -> hash_init eng s type n = (s, -1)) /\
  (u32 type <= 3 -> noss (set_type s type) = true ->
   hash_init eng s type n = (set_type s type, 0) /\
   (forall p k, hash_data eng (set_type s type) m p k = (set_type s type, 0)) /\
   forall p, hash_value eng (set_type s type) m p = (set_type s type, m, 0)).
Proof.
  unfold hash_init, hash_data, hash_value, IUW_HASH_SHA256. split.
  - intros H. by destruct (Z.ltb_spec 3 (u32 type)); [|lia].
  - intros H ->. by destruct (Z.ltb_spec 3 (u32 type)); [lia|].
Qed.

(** ** An engine in software *)

(** The mode it was started in, and what it was fed. *)
Definition soft_engine : engine (Z * list Z) := {|
  hash_module_init := fun _ mode _ _ => ((mode, []), 0);
  hash_dma_transfer := fun e d => ((e.1, e.2 ++ d), 0);
  hash_module_get_result := fun e =>
    let type := if e.1 =? MD5 then IUW_HASH_MD5 else if e.1 =? SHA1 then IUW_HASH_SHA1
                else IUW_HASH_SHA256 in
    let d := digest type e.2 in (e, d ++ replicate (32 - length d) 0, 0);
  block_cipher_aes_init := fun e _ _ _ _ => (e, 0);
  block_cipher_operation := fun e l => (e, map (Z.lxor 0x5a) l, 0);
  block_cipher_lock_isk := fun e => e
|}.

#[export] Instance soft_engine_ok : HashEngine soft_engine (fun e mode _ l => e = (mode, l)).
Proof.
  split.
  - by eexists.
  - intros e mode n l d -> _. by eexists.
  - intros e mode n l -> _. cbn [hash_module_get_result soft_engine fst snd].
    set (type := if mode =? MD5 then _ else _).
    assert (0 <= type <= 3) by (unfold type; repeat destruct (_ =? _); done).
    do 2 eexists. split; [done|].
    rewrite length_app, length_replicate, length_digest by done.
    assert (Hlen : (digest_len type <= 32)%nat)
      by (unfold type; repeat destruct (_ =? _); by apply Nat.leb_le).
    split; [lia|]. unfold type. split_and!; intros ->; cbn [Z.eqb MD5 SHA1 SHA256 Pos.eqb];
      rewrite ?take_app_length'; try done.
    + by rewrite length_digest by done.
    + by rewrite length_digest by done.
    + apply app_nil_r.
Qed.

Definition sample_fuses : efuse_paras := Efuse 0 0 0 0 0 0 0 0 0 [] [].
Definition idle_secure : secure (Z * list Z) := Sec 0 0 0 0 0 (0, []) sample_fuses.

Example hash_correct_witness :
  let m := mem_of 0x1000 [97; 98; 99] in
  let rs := [(0x1000, 1); (0x1001, 2)] in
  exists s0 s1,
    hash_init soft_engine idle_secure IUW_HASH_SHA256
      (Z.of_nat (length (regions_text m rs))) = (s0, 0) /\
    hash_value soft_engine (feed soft_engine s0 m rs) m 0x2000 =
      (s1, store m 0x2000 (digest IUW_HASH_SHA256 (regions_text m rs)), 0) /\
    hash_len soft_engine s1 = Z.of_nat (length (digest IUW_HASH_SHA256 (regions_text m rs))).
Proof.
  apply (hash_correct soft_engine (fun e mode _ l => e = (mode, l)) idle_secure
    (mem_of 0x1000 [97; 98; 99]) [(0x1000, 1); (0x1001, 2)] 0x2000 IUW_HASH_SHA256).
  - unfold IUW_HASH_SHA256. lia.
  - reflexivity.
  - repeat constructor; simpl; lia.
  - apply (bool_decide_eq_true_1 _). vm_compute. reflexivity.
  - vm_compute. reflexivity.
Defined.
