(* ===== verification/Image.v ===== *)
(** * Image: headers of images and packages, and who checks them

    - [Isi] (infotm/strategy/isi/isi.c, include/infotm/isi.h): an image is a
      512-byte header and data; the header carries a CRC of itself and a
      signature of the data.
    - [Ius] (infotm/strategy/ius/ius.c, include/infotm/ius.h): a package
      starts with a 512-byte header of 16-byte descriptors.
    - [Cdbg] (infotm/strategy/boots/debug.c): configuration tables inside
      images, and whether packages must be encrypted.

    Headers are checked in place: the CRC field is zeroed, the header hashed,
    the field restored.  The local variables the results are stored in have
    addresses of their own ([sp], [sg]). *)

From S2P Require Import Prelude Mem CString Crc Hash Secure.
Local Open Scope Z_scope.

Definition EBADMAGIC := 31.
Definition EBADCRC := 32.
Definition EBADSIG := 33.
Definition EUNTRUST := 34.
Definition EWRONGTYPE := 35.

(** What the three header checks have in common: the CRC of the [n] bytes at
    [hdr] while the field at offset [off] is zero.  The result is the CRC
    found in the field and the one computed, read back from [sp]. *)
Definition header_crc {E} (eng : engine E) (sp : Z) (s : secure E) (m : mem) (hdr n off : Z)
    : secure E * mem * Z * Z :=
  let crc_ori := load32 m (hdr + off) in
  let m := store32 m (hdr + off) 0 in
  let '(s, _) := hash_init eng s IUW_HASH_CRC n in
  let '(s, _) := hash_data eng s m hdr n in
  let '(s, m, _) := hash_value eng s m sp in
  let m := store32 m (hdr + off) crc_ori in
  (s, m, crc_ori, load32 m sp).

(** ** Images *)

Module Isi.

Definition ISI_SIZE := 0x200.
Definition ISI_MAGIC := 0x6973692b.
Definition ISI_TYPE_CFG := 0x2.

(** The fields of [struct isi_hdr] at [x]. *)
Definition magic (m : mem) (x : Z) := load32 m x.
Definition isi_type (m : mem) (x : Z) := load32 m (x + 4).
Definition isi_is_secure (m : mem) (x : Z) : bool :=
  negb (Z.land (Z.shiftr (isi_type m x) 28) 0xf =? 0).
Definition isi_get_type_image (m : mem) (x : Z) := Z.land (isi_type m x) 0xffffff.
Definition isi_get_type_sig (m : mem) (x : Z) := Z.land (Z.shiftr (isi_type m x) 24) 0xf.
Definition isi_get_flag (m : mem) (x : Z) := load32 m (x + 8).
Definition isi_get_size (m : mem) (x : Z) := load32 m (x + 12).
Definition isi_get_load (m : mem) (x : Z) := load32 m (x + 16).
Definition isi_get_entry (m : mem) (x : Z) := load32 m (x + 20).
Definition hcrc_offset := 28.
(** The address of [dcheck]. *)
Definition isi_get_sig (x : Z) := x + 32.
Definition isi_get_extra (x : Z) := x + 256.
Definition isi_get_data (x : Z) := u32 (x + ISI_SIZE).

Section Check.
Context {E : Type} (eng : engine E) (sp sg : Z).
Abbreviation secure := (secure E).

Definition isi_check_header (s : secure) (m : mem) (data : Z) : secure * mem * Z :=
  if negb (magic m data =? ISI_MAGIC) then (s, m, - EBADMAGIC) else
  let '(s, m, crc_ori, crc_calc) := header_crc eng sp s m data ISI_SIZE hcrc_offset in
  if negb (crc_ori =? crc_calc) then (s, m, - EBADCRC) else (s, m, 0).

Definition isi_check_data_separate (s : secure) (m : mem) (hdr data : Z) : secure * mem * Z :=
  let '(s, _) := hash_init eng s (isi_get_type_sig m hdr) (isi_get_size m hdr) in
  let '(s, _) := hash_data eng s m data (isi_get_size m hdr) in
  let '(s, m, _) := hash_value eng s m sg in
  if negb (memcmp m sg (isi_get_sig hdr) (hash_len eng s) =? 0)
  then (s, m, - EBADSIG) else (s, m, 0).

Definition isi_check_data (s : secure) (m : mem) (data : Z) : secure * mem * Z :=
  isi_check_data_separate s m data (isi_get_data data).

Definition isi_check (s : secure) (m : mem) (data : Z) : secure * mem * Z :=
  let '(s, m, ret) := isi_check_header s m data in
  if negb (ret =? 0) then (s, m, ret) else isi_check_data s m data.
End Check.

End Isi.

(** ** Packages *)

Module Ius.

Definition IUS_DEFAULT_LOCATION := 0x1000000.
Definition IUS_MAGIC := 0x7375692b.
Definition IUS_FLAG_ENCRYPT := 0x2.
(** [sizeof(struct ius_hdr)] and [sizeof(struct ius_desc)]. *)
Definition ius_hdr_size := 512.
Definition ius_desc_size := 16.
Definition hcrc_offset := 24.

Definition magic (m : mem) (x : Z) := load32 m x.
Definition flag (m : mem) (x : Z) := load32 m (x + 4).
Definition swstr (x : Z) := x + 16.
Definition ius_get_count (m : mem) (x : Z) := load32 m (x + 28).
(** The address of descriptor [b]. *)
Definition ius_get_desc (x b : Z) := x + 32 + b * ius_desc_size.

Definition sector (m : mem) (x : Z) := load32 m x.
Definition info0 (m : mem) (x : Z) := load32 m (x + 4).
Definition info1 (m : mem) (x : Z) := load32 m (x + 8).
Definition ius_desc_length (m : mem) (x : Z) := load32 m (x + 12).
Definition ius_desc_offi (m : mem) (x : Z) :=
  u64 (Z.shiftl (Z.land (sector m x) 0xffffff) 9 + IUS_DEFAULT_LOCATION).
Definition ius_desc_offo (m : mem) (x : Z) :=
  Z.lor (info0 m x) (u64 (Z.shiftl (Z.land (info1 m x) 0xffff) 32)).
Definition ius_desc_type (m : mem) (x : Z) := Z.land (Z.shiftr (sector m x) 24) 0x3f.
Definition ius_desc_id (m : mem) (x : Z) := Z.land (Z.shiftr (info1 m x) 16) 0xffff.
Definition ius_desc_maxsize (m : mem) (x : Z) := Z.land (info1 m x) (u32 (Z.lnot 0xffff)).
Definition ius_desc_load (m : mem) (x : Z) := info1 m x.
Definition ius_desc_entry (m : mem) (x : Z) := info0 m x.
Definition ius_desc_sector (m : mem) (x : Z) := Z.land (sector m x) 0xffffff.
Definition ius_desc_mask (m : mem) (x : Z) := Z.shiftr (sector m x) 30.

Definition IUS_DESC_CFG := 0.
Definition IUS_DESC_EXEC := 1.
Definition IUS_DESC_STRW := 2.
Definition IUS_DESC_STNB := 3.
Definition IUS_DESC_STNR := 4.
Definition IUS_DESC_STNF := 5.
Definition IUS_DESC_REBOOT := 0x30.
Definition IUS_DESC_BOOT := 0x31.
Definition IUS_DESC_BOOTR := 0x32.
Definition IUS_DESC_SYSM := 0x20.
Definition IUS_DESC_MISC := 0x21.
Definition IUS_DESC_CACH := 0x22.
Definition IUS_DESC_USER := 0x23.

(** [verify] is [cdbg_verify_burn()], [key] and [iv] what the cipher is set
    up with. *)
Definition ius_check_header {E} (eng : engine E) (sp : Z) (verify : bool) (key iv : list Z)
    (s : secure E) (m : mem) (hdr : Z) : secure E * mem * Z :=
  if negb (magic m hdr =? IUS_MAGIC) then (s, m, -1) else
  let refused := verify && (Z.land (flag m hdr) IUS_FLAG_ENCRYPT =? 0) in
  if refused then (s, m, - EUNTRUST) else
  let '(s, m) :=
    if verify then
      let '(s, _) := ss_aes_init eng s DECRYPTION (Some key) iv in
      let '(s, m, _) := ss_aes_data eng s m (swstr hdr) (swstr hdr) (ius_hdr_size - 16) in
      (s, m)
    else (s, m) in
  let '(s, m, crc_ori, crc_calc) := header_crc eng sp s m hdr ius_hdr_size hcrc_offset in
  if negb (crc_ori =? crc_calc) then (s, m, - EBADCRC) else (s, m, 0).

End Ius.

(** ** Configuration *)

Module Cdbg.

Definition IR_CFG_TLB_MAGIC := 0x69780800.
(** [sizeof(struct cdbg_cfg_table)], and the fields of the table at [t]. *)
Definition table_size := 80.
Definition hcrc_offset := 12.
Definition magic (m : mem) (t : Z) := load32 m t.
Definition length (m : mem) (t : Z) := load32 m (t + 4).
Definition dcrc (m : mem) (t : Z) := load32 m (t + 8).
Definition clksen (m : mem) (t : Z) := s32 (load32 m (t + 16)).
Definition dramen (m : mem) (t : Z) := s32 (load32 m (t + 20)).
Definition nanden (m : mem) (t : Z) := s32 (load32 m (t + 24)).
Definition nandcount (m : mem) (t : Z) := s32 (load32 m (t + 28)).
Definition spibytes (m : mem) (t : Z) := s32 (load32 m (t + 32)).
Definition iomux (m : mem) (t : Z) := s32 (load32 m (t + 36)).
Definition blinfo (m : mem) (t : Z) := s32 (load32 m (t + 40)).
Definition bldevice (m : mem) (t : Z) := s32 (load32 m (t + 44)).
Definition bloffset (m : mem) (t : Z) := load32 m (t + 64).
Definition nand_offset (m : mem) (t : Z) := load32 m (t + 76).

(** Calls into drivers, in their order. *)
Inductive hwcall :=
| spi_set_bytes (n : Z)
| set_mux (mode : Z)
| nand_rescan_config (t count : Z).

(** The statics of debug.c, [xom_info] of boot.c, [dram_enabled], and the
    driver calls made so far. *)
Record cdbg := Cdbg {
  secure_burn : bool;
  secure_key : list Z;
  bl_offset : Z;
  bldev : Z;
  dram_enabled : Z;
  xom_info : Z;
  calls : list hwcall
}.
Implicit Type c : cdbg.

Definition set_redirect c dev offs :=
  Cdbg (secure_burn c) (secure_key c) offs dev (dram_enabled c) (xom_info c) (calls c).
Definition set_dram c d :=
  Cdbg (secure_burn c) (secure_key c) (bl_offset c) (bldev c) d (xom_info c) (calls c).
Definition set_xom_info c x :=
  Cdbg (secure_burn c) (secure_key c) (bl_offset c) (bldev c) (dram_enabled c) x (calls c).
Definition call c h :=
  Cdbg (secure_burn c) (secure_key c) (bl_offset c) (bldev c) (dram_enabled c) (xom_info c)
    (calls c ++ [h]).

(** [set_xom] (boot.c). *)
Definition set_xom c (xom : Z) := set_xom_info c (Z.land (u32 xom) 0x1f).

Definition cdbg_verify_burn_enable c (en : bool) (key : list Z) :=
  Cdbg en (if en then key else secure_key c) (bl_offset c) (bldev c) (dram_enabled c)
    (xom_info c) (calls c).
Definition cdbg_verify_burn c : bool := secure_burn c.
Definition cdbg_verify_burn_key c : list Z := secure_key c.

(** The device and offset to boot from. *)
Definition cdbg_boot_redirect c (id offs : Z) : Z * Z :=
  if bldev c =? -1 then (id, offs) else (bldev c, bl_offset c).

Section Config.
Context {E : Type} (eng : engine E) (sp sg : Z).
Abbreviation secure := (secure E).

Definition cdbg_check_table (s : secure) (m : mem) (t : Z) : secure * mem * Z :=
  if negb (magic m t =? IR_CFG_TLB_MAGIC) then (s, m, -1) else
  let '(s, m, crc_ori, crc_calc) := header_crc eng sp s m t table_size hcrc_offset in
  if negb (crc_ori =? crc_calc) then (s, m, -2) else
  let '(s, _) := hash_init eng s IUW_HASH_CRC (length m t) in
  let '(s, _) := hash_data eng s m (t + table_size) (length m t) in
  let '(s, m, _) := hash_value eng s m sp in
  if negb (dcrc m t =? load32 m sp) then (s, m, -3) else (s, m, 0).

(** The settings of a table, applied in the order of the source. *)
Definition apply_table c (m : mem) (t : Z) : cdbg :=
  let c := if negb (spibytes m t =? 0) then call c (spi_set_bytes (spibytes m t)) else c in
  let c := if negb (blinfo m t =? -1) then set_xom c (blinfo m t) else c in
  let c := if negb (iomux m t =? -1) then call c (set_mux (iomux m t)) else c in
  let c := if negb (bldevice m t =? -1)
           then set_redirect c (bldevice m t) (s32 (bloffset m t)) else c in
  let c := if negb (dramen m t =? 0) then set_dram c 1 else c in
  if negb (nanden m t =? 0)
  then call c (nand_rescan_config (u32 (t + nand_offset m t)) (nandcount m t)) else c.

(** [check] is the argument [c] of the source. *)
Definition cdbg_do_config (s : secure) (m : mem) c (t : Z) (check : bool)
    : secure * mem * cdbg * Z :=
  let '(s, m, ret) := if check then cdbg_check_table s m t else (s, m, 0) in
  if ret <? 0 then (s, m, c, ret) else (s, m, apply_table c m t, 0).

Definition cdbg_config_isi (s : secure) (m : mem) c (data : Z) : secure * mem * cdbg * Z :=
  let '(s, m, ret) := Isi.isi_check eng sp sg s m data in
  if negb (ret =? 0) then (s, m, c, ret) else
  if negb (Isi.isi_get_type_image m data =? Isi.ISI_TYPE_CFG) then (s, m, c, - EWRONGTYPE)
  else cdbg_do_config s m c (Isi.isi_get_data data) true.
End Config.

End Cdbg.

(** ** The header CRC *)

(** The text a header CRC is taken of, and the CRC a header must carry. *)
Definition zeroed (m : mem) (p n off : Z) : list Z :=
  splice (bytes_at m p (Z.to_nat n)) (Z.to_nat off) [0; 0; 0; 0].
Definition hcrc_ok (m : mem) (p n off : Z) : Prop :=
  load32 m (p + off) = Crc32.crc32 0 (zeroed m p n off).

#[global] Instance hcrc_ok_dec m p n off : Decision (hcrc_ok m p n off).
Proof. unfold hcrc_ok. apply _. Defined.

(** The [n] bytes at [p] and the [k] bytes at [q] do not overlap. *)
Definition apart (p n q k : Z) : Prop := p + n <= q \/ q + k <= p.

Section HeaderCrc.
Context {E : Type} (eng : engine E) (sp : Z).
Implicit Types (s : secure E) (m : mem).

Lemma bytes_ok_zeroed m p n off : mem_ok m -> bytes_ok (zeroed m p n off).
Proof.
  intros Hm. apply Forall_splice; [by apply bytes_ok_bytes_at|].
  repeat constructor; unfold is_byte; lia.
Qed.

(** The state the CRC leaves behind. *)
Definition after_crc s (text : list Z) : secure E :=
  set_crc (set_type s IUW_HASH_CRC) (Crc32.crc32_data (Crc32.crc32_init 0) text).

Lemma header_crc_spec s m hdr n off :
  mem_ok m -> 0 <= off -> off + 4 <= n -> n < 2 ^ 32 -> apart sp 4 hdr n ->
  exists m', header_crc eng sp s m hdr n off =
      (after_crc s (zeroed m hdr n off), m', load32 m (hdr + off),
       Crc32.crc32 0 (zeroed m hdr n off)) /\
    same_except m m' sp 4 /\ mem_ok m'.
Proof.
  intros Hm H0 Hn Hn32 Hap. unfold header_crc.
  assert (Hz : bytes_at (store32 m (hdr + off) 0) hdr (Z.to_nat n) = zeroed m hdr n off).
  { unfold zeroed, store32. rewrite <- (Z2Nat.id off) at 1 by done.
    by rewrite bytes_at_store_splice by (rewrite length_le_put; lia). }
  rewrite hash_init_crc, hash_data_crc, (u32_small n), Hz by (done || lia).
  rewrite hash_value_crc by done. cbn [g_crc set_crc].
  rewrite Crc32Proofs.crc32_value_data by (by apply bytes_ok_zeroed).
  pose proof (bytes_ok_zeroed m hdr n off Hm) as Hok.
  set (c := Crc32.crc32 0 (zeroed m hdr n off)).
  assert (Hc : 0 <= c < 2 ^ 32) by (apply Crc32Proofs.crc32_range; [lia|done]).
  eexists. split; [f_equal|].
  - apply load32_text; [|lia]. eapply text_at_same; [|apply bytes_at_store].
    rewrite length_le_put. intros q Hq. apply store_outside. rewrite length_le_put.
    unfold apart in Hap. lia.
  - rewrite store32_load32 by done. split.
    + intros q Hq. destruct (decide (hdr + off <= q < hdr + off + 4)).
      * rewrite (store_inside _ _ _ _ 0) by (rewrite length_bytes_at; lia).
        rewrite nth_default_lookup, bytes_at_lookup by lia. cbn. f_equal. lia.
      * unfold store32. rewrite !store_outside; rewrite ?length_bytes_at, ?length_le_put; lia || done.
    + apply mem_ok_store; [|by apply bytes_ok_bytes_at].
      unfold store32. auto using mem_ok_store, bytes_ok_le_put.
Qed.
End HeaderCrc.

(** ** Images *)

Module IsiProofs.
Import Isi.

(** What the header check answers. *)
Definition header_verdict (m : mem) (p : Z) : Z :=
  if decide (magic m p = ISI_MAGIC)
  then if decide (hcrc_ok m p ISI_SIZE hcrc_offset) then 0 else - EBADCRC
  else - EBADMAGIC.

(** The data of the image at [p], and the signature its header carries. *)
Definition isi_data (m : mem) (p : Z) : list Z :=
  bytes_at m (p + ISI_SIZE) (Z.to_nat (isi_get_size m p)).
Definition carried (m : mem) (p : Z) (n : nat) : list Z := bytes_at m (isi_get_sig p) n.

Section Proofs.
Context {E : Type} (eng : engine E) (fed : E -> Z -> Z -> list Z -> Prop)
  `{HE : !HashEngine eng fed}.
Context (sp sg : Z).
Implicit Types (s : secure E) (m : mem).

(** An image in memory, clear of the local variables of the checks. *)
Record loaded m (p : Z) : Prop := {
  ld_ok : mem_ok m;
  ld_range : 0 <= p /\ p + ISI_SIZE + isi_get_size m p < 2 ^ 32;
  ld_sp : apart sp 4 p (ISI_SIZE + isi_get_size m p);
  ld_sg : apart sg 32 p (ISI_SIZE + isi_get_size m p)
}.

Lemma isi_check_header_spec s m p :
  mem_ok m -> apart sp 4 p ISI_SIZE ->
  exists s' m', isi_check_header eng sp s m p = (s', m', header_verdict m p) /\
    same_except m m' sp 4 /\ mem_ok m' /\ efuse s' = efuse s /\
    (header_verdict m p = 0 -> s' = after_crc s (zeroed m p ISI_SIZE hcrc_offset)).
Proof.
  intros Hm Hap. unfold isi_check_header, header_verdict.
  destruct (Z.eqb_spec (magic m p) ISI_MAGIC) as [Hmg|Hmg]; cbn [negb].
  2: { exists s, m. rewrite decide_False by done. by split_and!. }
  rewrite decide_True by done.
  destruct (header_crc_spec eng sp s m p ISI_SIZE hcrc_offset) as (m' & -> & Hs & Hm');
    [done|done|done|done|done|].
  destruct (Z.eqb_spec (load32 m (p + hcrc_offset)) (Crc32.crc32 0 (zeroed m p ISI_SIZE hcrc_offset)))
    as [He|He]; cbn [negb].
  - rewrite decide_True by done. do 2 eexists. by split_and!.
  - rewrite decide_False by done. do 2 eexists. by split_and!.
Qed.

(** The signature the data check compares with, if it computes one at all:
    [noss] says that the engine is not available. *)
Definition computed (s : secure E) m (p : Z) : option (list Z) :=
  let t := isi_get_type_sig m p in
  if 3 <? t then
    Some (le_put 4 (Crc32.crc32 0 (zeroed m p ISI_SIZE hcrc_offset ++ isi_data m p)))
  else if noss (set_type s t) then None else Some (digest t (isi_data m p)).

Lemma sig_range m x : mem_ok m -> 0 <= isi_get_type_sig m x < 16.
Proof.
  intros Hm. unfold isi_get_type_sig. change 0xf with (Z.ones 4). rewrite Z.land_ones by lia.
  apply Z.mod_pos_bound. lia.
Qed.

Lemma hash_len_digest t : 0 <= t <= 3 -> forall s, g_type s = t -> hash_len eng s = Z.of_nat (digest_len t).
Proof.
  intros Ht s Hs. unfold hash_len. rewrite Hs.
  by destruct (hash_func_cases t Ht) as [->|[->|[->| ->]]].
Qed.

Lemma digest_len_le t : 0 <= t <= 3 -> (4 <= digest_len t <= 32)%nat.
Proof. intros Ht. destruct (hash_func_cases t Ht) as [->|[->|[->| ->]]]; cbv; lia. Qed.

Lemma bytes_ok_digest t msg : bytes_ok msg -> bytes_ok (digest t msg).
Proof.
  intros Hm. unfold digest. repeat case_match; try apply bytes_ok_le_put;
    apply Forall_concat, List.Forall_map, Forall_forall; intros;
    apply bytes_ok_be_put || apply bytes_ok_le_put.
Qed.

(** The verdict on a signature. *)
Definition sig_verdict (l l' : list Z) : Z := if decide (l = l') then 0 else - EBADSIG.

Lemma sig_verdict_zero l l' : sig_verdict l l' = 0 <-> l = l'.
Proof. unfold sig_verdict, EBADSIG. destruct (decide (l = l')); by split; [|intros]. Qed.

Lemma memcmp_verdict m a b (n : nat) l (x : secure E) (y : mem) :
  (n <= 32)%nat -> bytes_at m a n = l ->
  (if negb (memcmp m a b (Z.of_nat n) =? 0) then (x, y, - EBADSIG) else (x, y, 0)) =
  (x, y, sig_verdict (bytes_at m b n) l).
Proof.
  intros Hn <-. unfold sig_verdict.
  pose proof (memcmp_zero m a b (Z.of_nat n)) as Hz. rewrite Nat2Z.id in Hz.
  destruct (Z.eqb_spec (memcmp m a b (Z.of_nat n)) 0) as [H0|H0]; cbn [negb].
  - rewrite decide_True; [done|]. symmetry. apply Hz; [unfold is_u32; lia|done].
  - rewrite decide_False; [done|]. intros Eq. apply H0, Hz; [unfold is_u32; lia|done].
Qed.

Lemma carried_same m m' p n :
  loaded m p -> same_on m m' p (Z.to_nat ISI_SIZE) -> (n <= 32)%nat ->
  bytes_at m' (isi_get_sig p) n = carried m p n.
Proof.
  intros [_ Hr _ _] Hs Hn. apply bytes_at_ext. intros q Hq. apply Hs.
  unfold isi_get_sig, ISI_SIZE in *. lia.
Qed.

(** The signature check, from the state and memory the header check leaves. *)
Lemma isi_check_data_spec s m p m1 :
  loaded m p -> same_except m m1 sp 4 ->
  exists s' m', isi_check_data eng sg (after_crc s (zeroed m p ISI_SIZE hcrc_offset)) m1 p =
      (s', m', match computed s m p with
               | Some l => sig_verdict (carried m p (length l)) l
               | None => let n := digest_len (isi_get_type_sig m p) in
                         sig_verdict (carried m p n) (bytes_at m1 sg n)
               end) /\
    same_except m1 m' sg 32 /\ (mem_ok m1 -> mem_ok m').
Proof.
  intros Hld Hm1. pose proof Hld as [Hok Hr Hsp Hsg].
  pose proof (load32_range m (p + 12) Hok) as Hsz. change (load32 m (p + 12)) with (isi_get_size m p) in Hsz.
  unfold is_u32 in Hsz. unfold apart, ISI_SIZE in Hsp, Hsg, Hr.
  assert (Hon : same_on m m1 p (Z.to_nat (ISI_SIZE + isi_get_size m p))).
  { eapply same_except_on; [exact Hm1|]. unfold ISI_SIZE. lia. }
  assert (Hf : forall k, 0 <= k -> k + 4 <= ISI_SIZE -> load32 m1 (p + k) = load32 m (p + k)).
  { intros k ? Hk. apply load32_same. eapply same_on_sub; [exact Hon|lia|]. unfold ISI_SIZE in *. lia. }
  set (t := isi_get_type_sig m p). pose proof (sig_range m p Hok) as Ht. fold t in Ht.
  unfold isi_check_data, isi_check_data_separate.
  assert (isi_get_type_sig m1 p = t) as ->.
  { unfold t, isi_get_type_sig, isi_type. by rewrite Hf. }
  assert (isi_get_size m1 p = isi_get_size m p) as -> by (by apply (Hf 12)).
  assert (isi_get_data p = p + ISI_SIZE) as -> by (apply u32_small; unfold ISI_SIZE in *; lia).
  assert (Hd : bytes_at m1 (p + ISI_SIZE) (Z.to_nat (isi_get_size m p)) = isi_data m p).
  { apply bytes_at_ext. eapply same_on_sub; [exact Hon|unfold ISI_SIZE; lia|]. unfold ISI_SIZE. lia. }
  assert (Hdok : bytes_ok (isi_data m p)) by (by apply bytes_ok_bytes_at).
  pose proof (bytes_ok_zeroed m p ISI_SIZE hcrc_offset Hok) as Hzok.
  assert (Hsame : forall l, (length l <= 32)%nat -> bytes_ok l ->
    same_on m (store m1 sg l) p (Z.to_nat ISI_SIZE) /\ same_except m1 (store m1 sg l) sg 32 /\
    (mem_ok m1 -> mem_ok (store m1 sg l))).
  { intros l Hl Hlok. split; [|split; [|auto using mem_ok_store]].
    - eapply same_on_trans; [eapply same_on_sub; [exact Hon|lia|unfold ISI_SIZE; lia]|].
      intros q Hq. apply store_outside. unfold ISI_SIZE in *. lia.
    - intros q Hq. apply store_outside. lia. }
  unfold computed. fold t. destruct (Z.ltb_spec 3 t) as [Hbig|Hsmall].
  - (* an unknown type: the CRC goes on *)
    destruct (hash_unavailable eng (after_crc s (zeroed m p ISI_SIZE hcrc_offset)) m1 t
      (isi_get_size m p)) as [-> _]; [|rewrite u32_small; lia].
    set (text := zeroed m p ISI_SIZE hcrc_offset) in *.
    rewrite hash_data_crc, (u32_small (isi_get_size m p)), Hd, hash_value_crc by (done || lia).
    rewrite (hash_len_crc eng) by done. cbn [g_crc set_crc after_crc].
    rewrite Crc32Proofs.crc32_data_app, Crc32Proofs.crc32_value_data by (done || by apply Forall_app_2).
    set (l := le_put 4 _). assert (Hl : length l = 4%nat) by apply length_le_put.
    destruct (Hsame l) as [Hs1 Hs2]; [lia|apply bytes_ok_le_put|].
    rewrite (memcmp_verdict _ _ _ 4 l) by (lia || rewrite <- Hl; apply bytes_at_store).
    rewrite (carried_same m) by (done || lia). do 2 eexists. split; [by rewrite Hl|done].
  - pose proof (digest_len_le t ltac:(lia)) as Hdl.
    destruct (noss (set_type s t)) eqn:Hn.
    + (* no engine: nothing is stored *)
      destruct (hash_unavailable eng (after_crc s (zeroed m p ISI_SIZE hcrc_offset)) m1 t
        (isi_get_size m p)) as [_ H]. destruct H as (-> & -> & ->); [rewrite u32_small; lia|done|].
      rewrite (hash_len_digest t) by (done || lia).
      rewrite (memcmp_verdict _ _ _ _ (bytes_at m1 sg (digest_len t))) by (done || lia).
      rewrite (carried_same m); [|done| |lia].
      2: { eapply same_on_sub; [exact Hon|lia|unfold ISI_SIZE; lia]. }
      do 2 eexists. by split.
    + destruct (hash_init_spec eng fed (after_crc s (zeroed m p ISI_SIZE hcrc_offset)) t
        (isi_get_size m p)) as (s1 & -> & H1 & _); [lia|lia|done|].
      assert (Hrt : region_text m1 (p + ISI_SIZE, isi_get_size m p) = isi_data m p) by done.
      destruct (hash_data_spec eng fed s1 m1 (p + ISI_SIZE) (isi_get_size m p) t (isi_get_size m p) [])
        as (s2 & -> & H2 & _); [lia|done|lia|cbn; lia|lia|constructor|by rewrite Hrt|].
      rewrite Hrt in H2. cbn [app] in H2.
      destruct (hash_value_spec eng fed s2 m1 sg t (isi_get_size m p) (isi_data m p))
        as (s3 & -> & Ht3 & _); [lia|done| |done|].
      { unfold isi_data. rewrite length_bytes_at. lia. }
      assert (Hl : length (digest t (isi_data m p)) = digest_len t) by (apply length_digest; lia).
      destruct (Hsame (digest t (isi_data m p))) as [Hs1 Hs2]; [lia|by apply bytes_ok_digest|].
      rewrite (hash_len_digest t) by (done || lia).
      rewrite (memcmp_verdict _ _ _ _ (digest t (isi_data m p)))
        by (lia || rewrite <- Hl; apply bytes_at_store).
      rewrite (carried_same m) by (done || lia). do 2 eexists. split; [by rewrite Hl|done].
Qed.

Lemma loaded_header m p : loaded m p -> apart sp 4 p ISI_SIZE.
Proof.
  intros [Hm _ Ha _]. pose proof (load32_range m (p + 12) Hm). unfold is_u32 in *.
  change (load32 m (p + 12)) with (isi_get_size m p) in *. unfold apart in *. lia.
Qed.

(** The whole check, whatever the signature type and the engine. *)
Lemma isi_check_spec s m p :
  loaded m p ->
  exists s' m' m1, isi_check eng sp sg s m p =
      (s', m', if decide (header_verdict m p = 0) then
                 match computed s m p with
                 | Some l => sig_verdict (carried m p (length l)) l
                 | None => let n := digest_len (isi_get_type_sig m p) in
                           sig_verdict (carried m p n) (bytes_at m1 sg n)
                 end
               else header_verdict m p) /\
    same_except m m1 sp 4 /\ same_except m1 m' sg 32 /\ mem_ok m'.
Proof.
  intros Hld. pose proof Hld as [Hok _ _ _]. unfold isi_check.
  destruct (isi_check_header_spec s m p) as (s1 & m1 & -> & Hs & Hm1 & _ & H0);
    [done|by apply (loaded_header m)|].
  destruct (Z.eqb_spec (header_verdict m p) 0) as [Hv|Hv]; cbn [negb].
  - rewrite (H0 Hv).
    destruct (isi_check_data_spec s m p m1 Hld Hs) as (s2 & m2 & -> & Hs2 & Hm2).
    exists s2, m2, m1. rewrite decide_True by done. auto.
  - exists s1, m1, m1. by rewrite decide_False.
Qed.

Lemma same_on_image m m1 m' p :
  loaded m p -> same_except m m1 sp 4 -> same_except m1 m' sg 32 ->
  same_on m m' p (Z.to_nat (ISI_SIZE + isi_get_size m p)).
Proof.
  intros [Hm _ H1 H2] Hs Hs'. pose proof (load32_range m (p + 12) Hm). unfold is_u32 in *.
  change (load32 m (p + 12)) with (isi_get_size m p) in *. unfold apart, ISI_SIZE in *.
  eapply same_on_trans; eapply same_except_on; try done; lia.
Qed.
End Proofs.

(** C17: what [isi_check] answers for every image in memory: it tells a wrong
    magic number, a wrong CRC of the header and a wrong signature apart, and
    leaves header and data as they were.  The signature must be the CRC-32,
    MD5, SHA-1 or SHA-256 of the data, as its type field says, with two
    exceptions: for an unknown type (above 3) it is the CRC-32 of header and
    data, which anybody can make, and where the fuses take the crypto engine
    away it is what the local variable [sig] on the stack happens to hold (only
    the CRC of the header has been put near it). *)
Theorem isi_check_correct {E} (eng : engine E) fed `{HE : !HashEngine eng fed} sp sg s m p :
  loaded sp sg m p ->
  let type := isi_get_type_sig m p in
  exists s' m' m1, same_except m m1 sp 4 /\
    let sig := if 3 <? type then le_put 4 (Crc32.crc32 0 (zeroed m p ISI_SIZE hcrc_offset ++ isi_data m p))
               else if noss (set_type s type) then bytes_at m1 sg (digest_len type)
               else digest type (isi_data m p) in
    isi_check eng sp sg s m p =
      (s', m', if decide (magic m p = ISI_MAGIC) then
                 if decide (hcrc_ok m p ISI_SIZE hcrc_offset) then
                   if decide (carried m p (length sig) = sig) then 0 else - EBADSIG
                 else - EBADCRC
               else - EBADMAGIC) /\
    same_on m m' p (Z.to_nat (ISI_SIZE + isi_get_size m p)).
Proof.
  intros Hld type. destruct (isi_check_spec eng fed sp sg s m p Hld) as (s' & m' & m1 & -> & H1 & H2 & _).
  exists s', m', m1. split; [exact H1|]. cbv zeta. split; [|by apply (same_on_image sp sg m m1)].
  unfold computed. fold type. unfold header_verdict, sig_verdict, EBADCRC, EBADMAGIC.
  destruct (decide (magic m p = ISI_MAGIC)); [|by rewrite decide_False].
  destruct (decide (hcrc_ok m p ISI_SIZE hcrc_offset)); [|by rewrite decide_False].
  rewrite decide_True by done. destruct (3 <? type); [done|]. destruct (noss (set_type s type)); [by rewrite length_bytes_at|done].
Qed.

(** Where the signature is not verified.  An unknown signature type is
    not refused: the image is accepted if its signature field starts with the
    CRC-32 of header and data together.  Where the fuses take the engine
    away, the signature is compared with what the local variable happened to
    hold. *)
Theorem isi_check_unverified {E} (eng : engine E) fed `{HE : !HashEngine eng fed} sp sg s m p :
  loaded sp sg m p -> magic m p = ISI_MAGIC -> hcrc_ok m p ISI_SIZE hcrc_offset ->
  let t := isi_get_type_sig m p in
  exists s' m' m1 r, isi_check eng sp sg s m p = (s', m', r) /\ same_except m m1 sp 4 /\
    (3 < t -> r = 0 <->
      carried m p 4 = le_put 4 (Crc32.crc32 0 (zeroed m p ISI_SIZE hcrc_offset ++ isi_data m p))) /\
    (t <= 3 -> noss (set_type s t) = true ->
      r = 0 <-> carried m p (digest_len t) = bytes_at m1 sg (digest_len t)).
Proof.
  intros Hld Hm Hc t.
  destruct (isi_check_spec eng fed sp sg s m p Hld) as (s' & m' & m1 & -> & H1 & H2 & _).
  exists s', m', m1. eexists. split; [done|]. split; [done|].
  assert (Hv : header_verdict m p = 0)
    by (unfold header_verdict; by rewrite !decide_True).
  rewrite decide_True by done. unfold computed. fold t. split.
  - intros Ht. destruct (Z.ltb_spec 3 t); [|lia].
    rewrite length_le_put. apply sig_verdict_zero.
  - intros Ht Hn. destruct (Z.ltb_spec 3 t); [lia|]. rewrite Hn. apply sig_verdict_zero.
Qed.

(** ** Tampering *)

(** The header in pieces around a change. *)
Lemma zeroed_split m p pre a post :
  bytes_at m p (Z.to_nat ISI_SIZE) = pre ++ a ++ post ->
  ((length pre + length a <= 28)%nat ->
   zeroed m p ISI_SIZE hcrc_offset =
     pre ++ a ++ splice post (28 - length pre - length a) [0; 0; 0; 0]) /\
  ((32 <= length pre)%nat ->
   zeroed m p ISI_SIZE hcrc_offset = splice pre 28 [0; 0; 0; 0] ++ a ++ post).
Proof.
  intros Ht. unfold zeroed, hcrc_offset. rewrite Ht. change (Z.to_nat 28) with 28%nat.
  split; intros Hl.
  - rewrite !splice_app_r by lia. done.
  - by rewrite splice_app_l by (simpl; lia).
Qed.

(** The CRC field as a piece of the header. *)
Lemma hcrc_field m p :
  load32 m (p + hcrc_offset) = le_get (slice (bytes_at m p (Z.to_nat ISI_SIZE)) 28 4).
Proof.
  unfold load32. change hcrc_offset with (Z.of_nat 28).
  by rewrite (bytes_at_slice m p 28 4 (Z.to_nat ISI_SIZE)) by (apply Nat.leb_le; reflexivity).
Qed.

Lemma slice_change {A} (pre a b post : list A) k n :
  length a = length b -> (k + n <= length pre)%nat \/ (length pre + length a <= k)%nat ->
  slice (pre ++ a ++ post) k n = slice (pre ++ b ++ post) k n.
Proof.
  intros Hl [H|H]; unfold slice.
  - rewrite !drop_app_le, !take_app_le by (rewrite ?length_drop; lia). done.
  - rewrite !drop_app_ge, Hl by lia. done.
Qed.

(** Two headers with right CRCs that differ in at most four bytes, inside the
    CRC field or outside it, are equal. *)
Lemma hcrc_unique m m' p pre a b post :
  mem_ok m -> mem_ok m' ->
  bytes_at m p (Z.to_nat ISI_SIZE) = pre ++ a ++ post ->
  bytes_at m' p (Z.to_nat ISI_SIZE) = pre ++ b ++ post ->
  length a = length b -> (length a <= 4)%nat ->
  (length pre + length a <= 28)%nat \/ (32 <= length pre)%nat \/
    (28 <= length pre /\ length pre + length a <= 32)%nat ->
  hcrc_ok m p ISI_SIZE hcrc_offset -> hcrc_ok m' p ISI_SIZE hcrc_offset -> a = b.
Proof.
  intros Hm Hm' Ht Ht' Hl H4 Hw Hc Hc'. unfold hcrc_ok in Hc, Hc'.
  assert (Hokh : bytes_ok (pre ++ a ++ post)) by (rewrite <- Ht; by apply bytes_ok_bytes_at).
  assert (Hokh' : bytes_ok (pre ++ b ++ post)) by (rewrite <- Ht'; by apply bytes_ok_bytes_at).
  rewrite hcrc_field in Hc, Hc'. rewrite Ht in Hc. rewrite Ht' in Hc'.
  pose proof (bytes_ok_zeroed m p ISI_SIZE hcrc_offset Hm) as Hz.
  destruct (zeroed_split m p pre a post Ht) as [E1 E2].
  destruct (zeroed_split m' p pre b post Ht') as [E1' E2'].
  assert (Hb : bytes_ok b) by (apply Forall_app in Hokh' as [_ H]; by apply Forall_app in H as [H _]).
  destruct Hw as [Hw|[Hw|Hw]].
  - rewrite E1 in * by done. rewrite E1', <- Hl in Hc' by lia.
    rewrite (slice_change pre a b) in Hc by (lia || done). rewrite Hc in Hc'.
    apply Crc32Proofs.crc32_burst in Hc'; auto with lia.
  - rewrite E2 in * by done. rewrite E2' in Hc' by lia.
    rewrite (slice_change pre a b) in Hc by (lia || done). rewrite Hc in Hc'.
    apply Crc32Proofs.crc32_burst in Hc'; auto with lia.
  - assert (Hze : zeroed m p ISI_SIZE hcrc_offset = zeroed m' p ISI_SIZE hcrc_offset).
    { unfold zeroed, hcrc_offset, splice. rewrite Ht, Ht'. change (Z.to_nat 28) with 28%nat.
      cbn [length]. rewrite !(take_app_le pre), !drop_app_ge, Hl by lia. done. }
    rewrite Hze, <- Hc' in Hc.
    assert (Hs : forall c : list Z, length c = length a ->
      slice (pre ++ c ++ post) 28 4 = drop 28 pre ++ c ++ take (32 - length pre - length a) post).
    { intros c Hlc. unfold slice. rewrite drop_app_le by lia.
      rewrite !take_app_ge by (rewrite ?length_drop; lia). rewrite length_drop.
      do 3 f_equal. lia. }
    rewrite !Hs in Hc by done.
    assert (Hsok : forall c, bytes_ok (pre ++ c ++ post) ->
      bytes_ok (drop 28 pre ++ c ++ take (32 - length pre - length a) post)).
    { intros c Hc0. apply Forall_app in Hc0 as [? Hc0]. apply Forall_app in Hc0 as [? ?].
      repeat apply Forall_app_2; auto using Forall_drop, Forall_take. }
    pose proof (le_put_get _ (Hsok a Hokh)) as Ea. pose proof (le_put_get _ (Hsok b Hokh')) as Eb.
    rewrite Hc in Ea. set (tl := take _ post) in *.
    replace (length (drop 28 pre ++ a ++ tl)) with (length (drop 28 pre ++ b ++ tl)) in Ea
      by (rewrite !length_app; lia).
    rewrite Ea in Eb.
    apply app_inv_head in Eb. by apply app_inj_1 in Eb as [? _].
Qed.

(** The header CRC detects every change of up to four consecutive bytes
    inside the CRC field or outside it: a header that is accepted is not
    accepted any more after such a change. *)
Theorem isi_header_tamper {E} (eng : engine E) sp s m m' p pre a b post :
  mem_ok m -> mem_ok m' -> apart sp 4 p ISI_SIZE ->
  bytes_at m p (Z.to_nat ISI_SIZE) = pre ++ a ++ post ->
  bytes_at m' p (Z.to_nat ISI_SIZE) = pre ++ b ++ post ->
  length a = length b -> (length a <= 4)%nat -> a <> b ->
  (length pre + length a <= 28)%nat \/ (32 <= length pre)%nat \/
    (28 <= length pre /\ length pre + length a <= 32)%nat ->
  (isi_check_header eng sp s m p).2 = 0 -> (isi_check_header eng sp s m' p).2 <> 0.
Proof.
  intros Hm Hm' Hap Ht Ht' Hl H4 Hne Hw.
  destruct (isi_check_header_spec eng sp s m p Hm Hap) as (s1 & m1 & -> & _).
  destruct (isi_check_header_spec eng sp s m' p Hm' Hap) as (s2 & m2 & -> & _). cbn [snd].
  unfold header_verdict, EBADMAGIC, EBADCRC. intros H1 H2. apply Hne.
  destruct (decide (magic m p = ISI_MAGIC)); [|done].
  destruct (decide (hcrc_ok m p ISI_SIZE hcrc_offset)); [|done].
  destruct (decide (magic m' p = ISI_MAGIC)); [|done].
  destruct (decide (hcrc_ok m' p ISI_SIZE hcrc_offset)); [|done].
  by apply (hcrc_unique m m' p pre a b post).
Qed.

(** ** Packing an image *)

(** The fields before and after the CRC. *)
Definition isi_front (type flag size load entry time : Z) : list Z :=
  le_put 4 ISI_MAGIC ++ le_put 4 type ++ le_put 4 flag ++ le_put 4 size ++
  le_put 4 load ++ le_put 4 entry ++ le_put 4 time.
Definition isi_header (front back : list Z) : list Z :=
  front ++ le_put 4 (Crc32.crc32 0 (front ++ [0; 0; 0; 0] ++ back)) ++ back.
Definition sig_of_type (type : Z) : Z := Z.land (Z.shiftr type 24) 0xf.
Definition isi_image (type flag load entry time : Z) (name extra data : list Z) : list Z :=
  let t := sig_of_type type in
  isi_header (isi_front type flag (Z.of_nat (length data)) load entry time)
    ((digest t data ++ replicate (32 - digest_len t) 0) ++ name ++ extra) ++ data.

Lemma length_isi_front type flag size load entry time :
  length (isi_front type flag size load entry time) = 28%nat.
Proof. unfold isi_front. by rewrite !length_app, !length_le_put. Qed.

Lemma bytes_ok_isi_front type flag size load entry time :
  bytes_ok (isi_front type flag size load entry time).
Proof. unfold isi_front. repeat apply Forall_app_2; apply bytes_ok_le_put. Qed.

Lemma length_isi_header front back :
  length front = 28%nat -> length back = 480%nat -> length (isi_header front back) = 512%nat.
Proof. intros Hf Hb. unfold isi_header. by rewrite !length_app, length_le_put, Hf, Hb. Qed.

Lemma isi_header_ok m p front back :
  text_at m p (isi_header front back) -> length front = 28%nat -> length back = 480%nat ->
  bytes_ok front -> bytes_ok back -> hcrc_ok m p ISI_SIZE hcrc_offset.
Proof.
  intros Ht Hf Hb Hof Hob. unfold hcrc_ok, zeroed.
  set (c := Crc32.crc32 0 (front ++ [0; 0; 0; 0] ++ back)).
  assert (Hall : bytes_at m p (Z.to_nat ISI_SIZE) = front ++ le_put 4 c ++ back).
  { unfold text_at in Ht. rewrite length_isi_header in Ht by done. exact Ht. }
  rewrite Hall, splice_app_r by (rewrite Hf; done). rewrite Hf.
  change (Z.to_nat hcrc_offset - 28)%nat with 0%nat. rewrite splice_app_l by (by rewrite length_le_put).
  rewrite (splice_full (le_put 4 c)) by (by rewrite length_le_put).
  unfold isi_header in Ht. rewrite !text_at_app, Hf in Ht. destruct Ht as (_ & Ht & _).
  apply load32_text; [exact Ht|]. apply Crc32Proofs.crc32_range; [lia|].
  repeat apply Forall_app_2; try done. repeat constructor; unfold is_byte; lia.
Qed.

Lemma isi_front_fields m p type flag size load entry time :
  text_at m p (isi_front type flag size load entry time) -> is_u32 type -> is_u32 size ->
  magic m p = ISI_MAGIC /\ isi_type m p = type /\ isi_get_size m p = size.
Proof.
  unfold isi_front. rewrite !text_at_app, !length_le_put. change (Z.of_nat 4) with 4.
  intros (H1 & H2 & _ & H4 & _) Ht Hs.
  replace (p + 4 + 4 + 4) with (p + 12) in H4 by lia.
  split_and!; apply load32_text; try done; unfold ISI_MAGIC; lia.
Qed.

(** An image packed for one of the four signature types is accepted. *)
Theorem isi_pack_check {E} (eng : engine E) fed `{HE : !HashEngine eng fed} sp sg s m p
    type flag load entry time name extra data :
  is_u32 type -> sig_of_type type <= 3 -> noss (set_type s (sig_of_type type)) = false ->
  length name = 192%nat -> length extra = 256%nat -> bytes_ok (name ++ extra ++ data) ->
  mem_ok m -> text_at m p (isi_image type flag load entry time name extra data) ->
  0 <= p -> p + ISI_SIZE + Z.of_nat (length data) < 2 ^ 32 ->
  apart sp 4 p (ISI_SIZE + Z.of_nat (length data)) ->
  apart sg 32 p (ISI_SIZE + Z.of_nat (length data)) ->
  exists s' m', isi_check eng sp sg s m p = (s', m', 0).
Proof.
  intros Hty Hsg Hn Hnl Hel Hok Hm Ht Hp Hend Hsp Hsgp.
  apply Forall_app in Hok as [Hnok Hok]. apply Forall_app in Hok as [Heok Hdok].
  assert (Hs0 : 0 <= sig_of_type type <= 3).
  { split; [|done]. apply Z.land_nonneg. right. done. }
  unfold isi_image in Ht. set (t := sig_of_type type) in *.
  pose proof (digest_len_le t Hs0) as Hdl.
  assert (Hdig : length (digest t data) = digest_len t) by (by apply length_digest).
  set (front := isi_front _ _ _ _ _ _) in Ht. set (back := (_ ++ _) ++ name ++ extra) in Ht.
  assert (Hbl : length back = 480%nat).
  { unfold back. rewrite !length_app, length_replicate, Hdig, Hnl, Hel. lia. }
  assert (Hbok : bytes_ok back).
  { unfold back. repeat apply Forall_app_2; try done; [by apply bytes_ok_digest|].
    apply Forall_replicate. unfold is_byte. lia. }
  rewrite text_at_app in Ht. destruct Ht as [Hh Hd].
  pose proof (isi_header_ok m p front back Hh (length_isi_front _ _ _ _ _ _) Hbl
    (bytes_ok_isi_front _ _ _ _ _ _) Hbok) as Hc.
  rewrite (length_isi_header front back) in Hd by (done || apply length_isi_front). unfold isi_header in Hh. rewrite !text_at_app in Hh.
  destruct Hh as (Hfr & _ & Hback).
  destruct (isi_front_fields m p _ _ _ _ _ _ Hfr) as (Hmg & Htype & Hsize);
    [done|unfold is_u32, ISI_SIZE in *; lia|].
  assert (Hld : loaded sp sg m p).
  { split; rewrite ?Hsize; auto. }
  destruct (isi_check_spec eng fed sp sg s m p Hld) as (s' & m' & m1 & -> & _).
  rewrite decide_True by (unfold header_verdict; by rewrite !decide_True).
  assert (Htt : isi_get_type_sig m p = t) by (unfold isi_get_type_sig; by rewrite Htype).
  unfold computed. rewrite Htt, Hn. destruct (Z.ltb_spec 3 t); [lia|].
  assert (Hdata : isi_data m p = data).
  { unfold isi_data. rewrite Hsize, Nat2Z.id. exact Hd. }
  rewrite Hdata. assert (Hcar : carried m p (length (digest t data)) = digest t data).
  { unfold back in Hback. rewrite !text_at_app in Hback. destruct Hback as [[Hback _] _].
    rewrite length_le_put in Hback. unfold front in Hback. rewrite length_isi_front in Hback.
    unfold carried, isi_get_sig. replace (p + 32) with (p + Z.of_nat 28 + Z.of_nat 4) by lia.
    exact Hback. }
  exists s', m'. unfold sig_verdict. by rewrite decide_True.
Qed.

(** ** Concrete images *)

Definition image_at (type : Z) (data : list Z) : mem :=
  mem_of 0x1000 (isi_image type 0 0 0 0 (replicate 192 0) (replicate 256 0) data).
Definition sample_image : mem := image_at 0x03000001 [1; 2; 3].

Lemma mem_ok_image type data : bytes_ok (isi_image type 0 0 0 0 (replicate 192 0) (replicate 256 0) data) ->
  mem_ok (image_at type data).
Proof. apply mem_ok_mem_of. Qed.

Lemma mem_ok_sample : mem_ok sample_image.
Proof. apply mem_ok_image, (bool_decide_eq_true_1 _). by vm_compute. Qed.

Lemma sample_loaded : loaded 0x8000 0x8010 sample_image 0x1000.
Proof.
  split; [apply mem_ok_sample|split; [done|by vm_compute]|right; by vm_compute..].
Qed.

Example isi_check_correct_witness :
  let type := isi_get_type_sig sample_image 0x1000 in
  type = 3 /\
  exists s' m' m1, same_except sample_image m1 0x8000 4 /\
    let sig := if 3 <? type then le_put 4 (Crc32.crc32 0 (zeroed sample_image 0x1000 ISI_SIZE hcrc_offset ++ isi_data sample_image 0x1000))
               else if noss (set_type idle_secure type) then bytes_at m1 0x8010 (digest_len type)
               else digest type (isi_data sample_image 0x1000) in
    isi_check soft_engine 0x8000 0x8010 idle_secure sample_image 0x1000 =
      (s', m', if decide (magic sample_image 0x1000 = ISI_MAGIC) then
                 if decide (hcrc_ok sample_image 0x1000 ISI_SIZE hcrc_offset) then
                   if decide (carried sample_image 0x1000 (length sig) = sig) then 0 else - EBADSIG
                 else - EBADCRC
               else - EBADMAGIC) /\
    same_on sample_image m' 0x1000 (Z.to_nat (ISI_SIZE + isi_get_size sample_image 0x1000)).
Proof.
  split; [vm_compute; reflexivity|].
  exact (isi_check_correct soft_engine (fun e mode _ l => e = (mode, l)) 0x8000 0x8010 idle_secure sample_image 0x1000 sample_loaded).
Defined.

(** An image of signature type 7, its signature field all zero: the four
    bytes of data make the CRC-32 of header and data zero. *)
Definition forged_image : mem :=
  mem_of 0x1000 (isi_header (isi_front 0x07000001 0 4 0 0 0) (replicate 480 0) ++ [94; 52; 230; 91]).

Lemma forged_loaded : loaded 0x8000 0x8010 forged_image 0x1000.
Proof.
  split; [apply mem_ok_mem_of, (bool_decide_eq_true_1 _); by vm_compute
         |split; [done|by vm_compute]|right; by vm_compute..].
Qed.

Example forged_image_accepted :
  (isi_check soft_engine 0x8000 0x8010 idle_secure forged_image 0x1000).2 = 0.
Proof. vm_compute. reflexivity. Qed.

Example isi_check_unverified_witness :
  let t := isi_get_type_sig forged_image 0x1000 in
  3 < t /\
  exists s' m' m1 r,
    isi_check soft_engine 0x8000 0x8010 idle_secure forged_image 0x1000 = (s', m', r) /\
    same_except forged_image m1 0x8000 4 /\
    (3 < t -> r = 0 <->
      carried forged_image 0x1000 4 =
        le_put 4 (Crc32.crc32 0 (zeroed forged_image 0x1000 ISI_SIZE hcrc_offset ++
                                 isi_data forged_image 0x1000))) /\
    (t <= 3 -> noss (set_type idle_secure t) = true ->
      r = 0 <-> carried forged_image 0x1000 (digest_len t) = bytes_at m1 0x8010 (digest_len t)).
Proof.
  split; [vm_compute; reflexivity|].
  apply (isi_check_unverified soft_engine (fun e mode _ l => e = (mode, l)) 0x8000 0x8010
    idle_secure forged_image 0x1000).
  - exact forged_loaded.
  - vm_compute. reflexivity.
  - unfold hcrc_ok. vm_compute. reflexivity.
Defined.

(** One byte of the name field changed. *)
Definition changed_image : mem := upd sample_image 0x1064 1.

Example isi_header_tamper_witness :
  (isi_check_header soft_engine 0x8000 idle_secure sample_image 0x1000).2 = 0 /\
  (isi_check_header soft_engine 0x8000 idle_secure changed_image 0x1000).2 <> 0.
Proof.
  split; [vm_compute; reflexivity|].
  apply (isi_header_tamper soft_engine 0x8000 idle_secure sample_image changed_image 0x1000
    (bytes_at sample_image 0x1000 100) [0] [1] (bytes_at sample_image 0x1065 411)).
  - exact mem_ok_sample.
  - apply mem_ok_upd; [exact mem_ok_sample|unfold is_byte; lia].
  - right. by vm_compute.
  - vm_compute. reflexivity.
  - vm_compute. reflexivity.
  - reflexivity.
  - simpl. lia.
  - discriminate.
  - right. left. rewrite length_bytes_at. lia.
  - vm_compute. reflexivity.
Defined.

Example isi_pack_check_witness :
  exists s' m', isi_check soft_engine 0x8000 0x8010 idle_secure sample_image 0x1000 = (s', m', 0).
Proof.
  apply (isi_pack_check soft_engine (fun e mode _ l => e = (mode, l)) 0x8000 0x8010
    idle_secure sample_image 0x1000 0x03000001 0 0 0 0 (replicate 192 0) (replicate 256 0) [1; 2; 3]).
  - unfold is_u32. lia.
  - vm_compute. discriminate.
  - reflexivity.
  - reflexivity.
  - reflexivity.
  - apply (bool_decide_eq_true_1 _). vm_compute. reflexivity.
  - exact mem_ok_sample.
  - unfold text_at. vm_compute. reflexivity.
  - lia.
  - vm_compute. reflexivity.
  - right. by vm_compute.
  - right. by vm_compute.
Defined.

End IsiProofs.

(** ** Packages *)

Module IusProofs.
Import Ius.

(** The words of a descriptor of an image for a storage device. *)
Definition desc_words (sec type mask offo id len : Z) : list Z :=
  le_put 4 (sec + type * 2 ^ 24 + mask * 2 ^ 30) ++ le_put 4 (offo mod 2 ^ 32) ++
  le_put 4 (offo / 2 ^ 32 + id * 2 ^ 16) ++ le_put 4 len.

Lemma land_low x n : 0 <= n -> Z.land x (2 ^ n - 1) = x mod 2 ^ n.
Proof. intros. rewrite <- Z.land_ones by done. by rewrite Z.ones_equiv. Qed.

(** The fields of a package descriptor read back as they were packed:
    source sector, type, mask, target offset, device and length do not
    disturb each other, though they share words; and the maximal size is the
    device number, in units of 64 KiB. *)
Theorem ius_desc_roundtrip m x sec type mask offo id len :
  0 <= sec < 2 ^ 24 -> 0 <= type < 2 ^ 6 -> 0 <= mask < 2 ^ 2 -> 0 <= offo < 2 ^ 48 ->
  0 <= id < 2 ^ 16 -> is_u32 len -> text_at m x (desc_words sec type mask offo id len) ->
  ius_desc_sector m x = sec /\ ius_desc_offi m x = sec * 512 + IUS_DEFAULT_LOCATION /\
  ius_desc_type m x = type /\ ius_desc_mask m x = mask /\ ius_desc_offo m x = offo /\
  ius_desc_id m x = id /\ ius_desc_maxsize m x = id * 0x10000 /\ ius_desc_length m x = len.
Proof.
  intros Hs Ht Hm Ho Hi Hl Htx. unfold desc_words in Htx.
  rewrite !text_at_app, !length_le_put in Htx. change (Z.of_nat 4) with 4 in Htx.
  destruct Htx as (H0 & H1 & H2 & H3).
  replace (x + 4 + 4) with (x + 8) in * by lia. replace (x + 8 + 4) with (x + 12) in * by lia.
  assert (Hhi : 0 <= offo / 2 ^ 32 < 2 ^ 16).
  { split; [apply Z.div_pos; lia|]. apply Z.div_lt_upper_bound; lia. }
  apply load32_text in H0, H1, H2, H3; try done; try lia;
    [|split; [apply Z.mod_pos_bound; lia|apply Z.mod_pos_bound; lia]].
  unfold ius_desc_sector, ius_desc_offi, ius_desc_type, ius_desc_mask, ius_desc_offo, ius_desc_id,
    ius_desc_maxsize, ius_desc_length, sector, info0, info1.
  rewrite H0, H1, H2, H3.
  change 0xffffff with (2 ^ 24 - 1). change 0x3f with (2 ^ 6 - 1). change 0xffff with (2 ^ 16 - 1).
  assert (Hi1 : 0 <= offo / 2 ^ 32 + id * 2 ^ 16 < 2 ^ 32) by lia.
  change (u32 (Z.lnot (2 ^ 16 - 1))) with (u32 (Z.lnot (u32 (2 ^ 16 - 1)))).
  rewrite align_mask, !land_low, !Z.shiftr_div_pow2, !Z.shiftl_mul_pow2 by lia.
  set (h := offo / 2 ^ 32) in *.
  assert (Hh : (h + id * 2 ^ 16) mod 2 ^ 16 = h) by (rewrite Z.mod_add, Z.mod_small; lia).
  assert (Hid : (h + id * 2 ^ 16) / 2 ^ 16 = id) by (rewrite Z.div_add, Z.div_small; lia).
  set (w := sec + type * 2 ^ 24 + mask * 2 ^ 30).
  assert (Hw1 : w mod 2 ^ 24 = sec).
  { unfold w. replace (sec + _ + _) with (sec + (type + mask * 2 ^ 6) * 2 ^ 24) by lia.
    rewrite Z.mod_add, Z.mod_small; lia. }
  assert (Hw2 : w / 2 ^ 24 = type + mask * 2 ^ 6).
  { unfold w. replace (sec + _ + _) with (sec + (type + mask * 2 ^ 6) * 2 ^ 24) by lia.
    rewrite Z.div_add, Z.div_small; lia. }
  assert (Hw3 : w / 2 ^ 30 = mask).
  { unfold w. rewrite Z.div_add, Z.div_small; lia. }
  rewrite Hh, Hid, Hw1, Hw2, Hw3, !u64_small by (unfold IUS_DEFAULT_LOCATION; lia).
  rewrite lor_low_high by (try apply Z.mod_pos_bound; lia).
  pose proof (Z.div_mod offo (2 ^ 32) ltac:(lia)) as Hoff. fold h in Hoff.
  unfold IUS_DEFAULT_LOCATION. split_and!; try lia.
  - rewrite Z.mod_add, Z.mod_small; lia.
  - apply Z.mod_small. lia.
Qed.

Example ius_desc_roundtrip_witness :
  let m := mem_of 0x100 (desc_words 0x1234 IUS_DESC_STRW 1 0x123456789a 6 0x10000) in
  ius_desc_sector m 0x100 = 0x1234 /\
  ius_desc_offi m 0x100 = 0x1234 * 512 + IUS_DEFAULT_LOCATION /\
  ius_desc_type m 0x100 = IUS_DESC_STRW /\ ius_desc_mask m 0x100 = 1 /\
  ius_desc_offo m 0x100 = 0x123456789a /\ ius_desc_id m 0x100 = 6 /\
  ius_desc_maxsize m 0x100 = 6 * 0x10000 /\ ius_desc_length m 0x100 = 0x10000.
Proof.
  apply (ius_desc_roundtrip (mem_of 0x100 (desc_words 0x1234 IUS_DESC_STRW 1 0x123456789a 6 0x10000))
    0x100 0x1234 IUS_DESC_STRW 1 0x123456789a 6 0x10000); unfold is_u32, IUS_DESC_STRW; try lia.
  unfold text_at. vm_compute. reflexivity.
Defined.

(** ** The package header *)

(** The header as the check sees it: decrypted if packages must be. *)
Definition deciphered {E} (eng : engine E) (key iv : list Z) (s : secure E) (m : mem) (p : Z) : mem :=
  if ecfg_check_flag (efuse s) ECFG_ENABLE_CRYPTO then
    let e := (block_cipher_aes_init eng (hw s) DECRYPTION CUSTOM_KEY key iv).1 in
    store m (swstr p) (block_cipher_operation eng e (bytes_at m (swstr p) 496)).1.2
  else m.

(** The cipher returns as many bytes as it takes. *)
Definition cipher_ok {E} (eng : engine E) : Prop :=
  forall e l, bytes_ok l -> bytes_ok (block_cipher_operation eng e l).1.2 /\
    length (block_cipher_operation eng e l).1.2 = length l.

Lemma mem_ok_deciphered {E} (eng : engine E) key iv s m p :
  cipher_ok eng -> mem_ok m -> mem_ok (deciphered eng key iv s m p).
Proof.
  intros Hc Hm. unfold deciphered. destruct (ecfg_check_flag _ _); [|done].
  apply mem_ok_store; [done|]. apply Hc. by apply bytes_ok_bytes_at.
Qed.

Lemma deciphered_spec {E} (eng : engine E) key iv s m p :
  exists s', (let '(s1, _) := ss_aes_init eng s DECRYPTION (Some key) iv in
    let '(s2, m2, _) := ss_aes_data eng s1 m (swstr p) (swstr p) (ius_hdr_size - 16) in
    (s2, m2)) = (s', deciphered eng key iv s m p).
Proof.
  unfold ss_aes_init, ss_aes_data, deciphered.
  destruct (ecfg_check_flag (efuse s) ECFG_ENABLE_CRYPTO) eqn:Hf; cbn [negb].
  - destruct (block_cipher_aes_init eng (hw s) DECRYPTION CUSTOM_KEY key iv) as [e r]. cbn [fst efuse set_hw hw].
    rewrite Hf. cbn [negb]. change (Z.to_nat (Z.land _ _)) with 496%nat.
    destruct (block_cipher_operation eng e (bytes_at m (swstr p) 496)) as [[e2 out] r2].
    by eexists.
  - rewrite Hf. cbn [negb]. by eexists.
Qed.

(** What a check may change: the header itself, by decrypting it, and the
    local it computes the CRC in. *)
Lemma ius_check_header_frame {E} (eng : engine E) sp (verify : bool) key iv s m p s' m' r :
  mem_ok m -> cipher_ok eng -> apart sp 4 p ius_hdr_size ->
  ius_check_header eng sp verify key iv s m p = (s', m', r) ->
  mem_ok m' /\ forall q, ~ p <= q < p + ius_hdr_size -> ~ sp <= q < sp + 4 -> m' q = m q.
Proof.
  intros Hm Hc Hap. unfold ius_check_header.
  destruct (Z.eqb_spec (magic m p) IUS_MAGIC); cbn [negb]; [|by intros [= <- <- <-]].
  destruct (verify && _); [by intros [= <- <- <-]|].
  set (seen := if verify then deciphered eng key iv s m p else m).
  assert (exists s1, (if verify then
      let '(s1, _) := ss_aes_init eng s DECRYPTION (Some key) iv in
      let '(s2, m2, _) := ss_aes_data eng s1 m (swstr p) (swstr p) (ius_hdr_size - 16) in (s2, m2)
    else (s, m)) = (s1, seen)) as (s1 & ->).
  { unfold seen. destruct verify; [apply deciphered_spec|by eexists]. }
  assert (Hseen : mem_ok seen) by (unfold seen; destruct verify; auto using mem_ok_deciphered).
  assert (Hfr : forall q, ~ p <= q < p + ius_hdr_size -> seen q = m q).
  { intros q Hq. unfold seen. destruct verify; [|done]. unfold deciphered.
    destruct (ecfg_check_flag _ _); [|done]. apply store_outside.
    rewrite (proj2 (Hc _ _ (bytes_ok_bytes_at m (swstr p) 496 Hm))), length_bytes_at.
    unfold swstr, ius_hdr_size in *. lia. }
  destruct (header_crc_spec eng sp s1 seen p ius_hdr_size hcrc_offset Hseen)
    as (m1 & -> & Hs & Hm1); [done..|].
  assert (Hall : mem_ok m1 /\ forall q, ~ p <= q < p + ius_hdr_size -> ~ sp <= q < sp + 4 -> m1 q = m q).
  { split; [done|]. intros q Hq1 Hq2. rewrite Hs by (cbn; lia). by apply Hfr. }
  destruct (negb _); by intros [= <- <- <-].
Qed.

(** A package header is accepted exactly if its magic number and the CRC
    of its header, after decryption where packages must be encrypted, are
    right; while encryption is demanded a plain package is refused before
    anything is changed. *)
Theorem ius_check_header_correct {E} (eng : engine E) sp (verify : bool) key iv s m p :
  mem_ok m -> cipher_ok eng -> apart sp 4 p ius_hdr_size ->
  let seen := if verify then deciphered eng key iv s m p else m in
  exists s' m' r, ius_check_header eng sp verify key iv s m p = (s', m', r) /\
    r = (if decide (magic m p = IUS_MAGIC) then
           if verify && (Z.land (flag m p) IUS_FLAG_ENCRYPT =? 0) then - EUNTRUST
           else if decide (hcrc_ok seen p ius_hdr_size hcrc_offset) then 0 else - EBADCRC
         else -1) /\
    (r = -1 \/ r = - EUNTRUST -> s' = s /\ m' = m) /\
    (r = 0 \/ r = - EBADCRC -> same_except seen m' sp 4).
Proof.
  intros Hm Hc Hap seen. unfold ius_check_header.
  destruct (Z.eqb_spec (magic m p) IUS_MAGIC) as [Hmg|Hmg]; cbn [negb].
  2: { exists s, m, (-1). rewrite decide_False by done. split_and!; try done. by intros [|]. }
  rewrite decide_True by done.
  destruct (verify && _) eqn:Hv.
  { exists s, m, (- EUNTRUST). split_and!; try done. by intros [|]. }
  assert (exists s1, (if verify then
      let '(s1, _) := ss_aes_init eng s DECRYPTION (Some key) iv in
      let '(s2, m2, _) := ss_aes_data eng s1 m (swstr p) (swstr p) (ius_hdr_size - 16) in (s2, m2)
    else (s, m)) = (s1, seen)) as (s1 & ->).
  { unfold seen. destruct verify; [apply deciphered_spec|by eexists]. }
  assert (Hseen : mem_ok seen) by (unfold seen; destruct verify; auto using mem_ok_deciphered).
  destruct (header_crc_spec eng sp s1 seen p ius_hdr_size hcrc_offset Hseen)
    as (m' & -> & Hs & _); [done..|].
  destruct (Z.eqb_spec (load32 seen (p + hcrc_offset))
    (Crc32.crc32 0 (zeroed seen p ius_hdr_size hcrc_offset))) as [He|He]; cbn [negb].
  - do 3 eexists. split; [done|]. rewrite decide_True by done.
    split; [done|]. split; [by intros [|]|by intros _].
  - do 3 eexists. split; [done|]. rewrite decide_False by done.
    split; [done|]. split; [by intros [|]|by intros _].
Qed.

(** An encrypted package of the software cipher. *)
Definition sample_package : mem :=
  let front := le_put 4 IUS_MAGIC ++ le_put 4 IUS_FLAG_ENCRYPT ++ replicate 16 0 in
  let back := le_put 4 0 ++ replicate 480 0 in
  let plain := front ++ le_put 4 (Crc32.crc32 0 (front ++ [0; 0; 0; 0] ++ back)) ++ back in
  mem_of 0x2000 (take 16 plain ++ map (Z.lxor 0x5a) (drop 16 plain)).

Lemma soft_cipher_ok : cipher_ok soft_engine.
Proof.
  intros e l Hl. cbn. split; [|by rewrite length_map].
  apply List.Forall_map. eapply Forall_impl; [exact Hl|]. intros b Hb. unfold is_byte in *.
  apply (lxor_range 0x5a b 8); lia.
Qed.

Example ius_check_header_correct_witness :
  let seen := deciphered soft_engine [] [] idle_secure sample_package 0x2000 in
  (ius_check_header soft_engine 0x8000 true [] [] idle_secure sample_package 0x2000).2 = 0 /\
  exists s' m' r, ius_check_header soft_engine 0x8000 true [] [] idle_secure sample_package 0x2000
      = (s', m', r) /\
    r = (if decide (magic sample_package 0x2000 = IUS_MAGIC) then
           if true && (Z.land (flag sample_package 0x2000) IUS_FLAG_ENCRYPT =? 0) then - EUNTRUST
           else if decide (hcrc_ok seen 0x2000 ius_hdr_size hcrc_offset) then 0 else - EBADCRC
         else -1) /\
    (r = -1 \/ r = - EUNTRUST -> s' = idle_secure /\ m' = sample_package) /\
    (r = 0 \/ r = - EBADCRC -> same_except seen m' 0x8000 4).
Proof.
  split; [vm_compute; reflexivity|].
  apply (ius_check_header_correct soft_engine 0x8000 true [] [] idle_secure sample_package 0x2000).
  - apply mem_ok_mem_of, (bool_decide_eq_true_1 _). vm_compute. reflexivity.
  - exact soft_cipher_ok.
  - right. by vm_compute.
Defined.
End IusProofs.

(** ** Configuration tables *)

Module CdbgProofs.
Import Cdbg.

(** A table whose two checksums are right. *)
Definition table_ok (m : mem) (t : Z) : Prop :=
  magic m t = IR_CFG_TLB_MAGIC /\ hcrc_ok m t table_size hcrc_offset /\
  dcrc m t = Crc32.crc32 0 (bytes_at m (t + table_size) (Z.to_nat (length m t))).

Lemma cdbg_check_table_spec {E} (eng : engine E) sp s m t :
  mem_ok m -> apart sp 4 t (table_size + length m t) ->
  exists s' m' r, cdbg_check_table eng sp s m t = (s', m', r) /\ r <= 0 /\
    same_except m m' sp 4 /\ (r = 0 <-> table_ok m t).
Proof.
  intros Hm Hap. unfold cdbg_check_table, table_ok.
  pose proof (load32_range m (t + 4) Hm) as Hlen. change (load32 m (t + 4)) with (length m t) in Hlen.
  unfold is_u32 in Hlen. unfold apart, table_size in Hap.
  destruct (Z.eqb_spec (magic m t) IR_CFG_TLB_MAGIC) as [Hmg|Hmg]; cbn [negb].
  2: { exists s, m, (-1). split_and!; try done. split; [done|tauto]. }
  destruct (header_crc_spec eng sp s m t table_size hcrc_offset Hm) as (m1 & -> & Hs1 & Hm1);
    [done|done|done|unfold apart, table_size; lia|].
  destruct (Z.eqb_spec (load32 m (t + hcrc_offset))
    (Crc32.crc32 0 (zeroed m t table_size hcrc_offset))) as [Hc|Hc]; cbn [negb].
  2: { do 3 eexists. split; [done|]. split_and!; try done. split; [done|tauto]. }
  assert (Hon : same_on m m1 t (Z.to_nat (table_size + length m t))).
  { eapply same_except_on; [exact Hs1|]. unfold table_size. lia. }
  assert (length m1 t = length m t) as ->.
  { apply load32_same. eapply same_on_sub; [exact Hon|lia|unfold table_size; lia]. }
  set (data := bytes_at m (t + table_size) (Z.to_nat (length m t))).
  assert (Hdata : bytes_at m1 (t + table_size) (Z.to_nat (length m t)) = data).
  { apply bytes_at_ext. eapply same_on_sub; [exact Hon|unfold table_size; lia|unfold table_size; lia]. }
  rewrite hash_init_crc, hash_data_crc, (u32_small (length m t)), Hdata, hash_value_crc by (done || lia).
  cbn [g_crc set_crc]. rewrite Crc32Proofs.crc32_value_data by (by apply bytes_ok_bytes_at).
  set (c := Crc32.crc32 0 data). set (m2 := store m1 sp (le_put 4 c)).
  assert (Hl : load32 m2 sp = c).
  { apply load32_text; [|apply Crc32Proofs.crc32_range; [lia|by apply bytes_ok_bytes_at]].
    apply bytes_at_store. }
  assert (Hs2 : same_except m m2 sp 4).
  { eapply same_except_trans; [exact Hs1|]. pose proof (same_except_store m1 sp (le_put 4 c)) as H.
    by rewrite length_le_put in H. }
  assert (dcrc m2 t = dcrc m t) as ->.
  { apply load32_same. eapply same_except_on; [exact Hs2|]. lia. }
  rewrite Hl. destruct (Z.eqb_spec (dcrc m t) c) as [Hd|Hd]; cbn [negb]; do 3 eexists;
    (split; [done|]); (split; [lia|]); (split; [done|]); (split; [|tauto || done]); tauto || done.
Qed.

(** The settings depend only on the table. *)
Lemma apply_table_same c m m' t :
  same_on m m' t (Z.to_nat table_size) -> apply_table c m' t = apply_table c m t.
Proof.
  intros Hs. assert (Hf : forall k, 0 <= k -> k + 4 <= table_size -> load32 m' (t + k) = load32 m (t + k)).
  { intros k ? ?. apply load32_same. eapply same_on_sub; [exact Hs|lia|unfold table_size in *; lia]. }
  unfold apply_table, spibytes, blinfo, iomux, bldevice, bloffset, dramen, nanden, nand_offset, nandcount.
  by rewrite !Hf by (unfold table_size; lia).
Qed.

(** No setting is applied unverified.  [cdbg_config_isi] configures the
    board exactly if the image passes [isi_check], is a configuration and
    its table has right checksums; in every other case an error is returned
    and no setting is changed and no driver called. *)
Theorem cdbg_config_isi_safe {E} (eng : engine E) fed `{HE : !HashEngine eng fed} sp sg s m c p :
  IsiProofs.loaded sp sg m p ->
  let t := p + Isi.ISI_SIZE in
  table_size + length m t <= Isi.isi_get_size m p ->
  exists s' m' c' r, cdbg_config_isi eng sp sg s m c p = (s', m', c', r) /\
    (r = 0 <-> (Isi.isi_check eng sp sg s m p).2 = 0 /\
               Isi.isi_get_type_image m p = Isi.ISI_TYPE_CFG /\ table_ok m t) /\
    (r = 0 -> c' = apply_table c m t) /\ (r <> 0 -> c' = c).
Proof.
  intros Hld t Hlen. pose proof Hld as [Hm Hr Hsp Hsg].
  pose proof (load32_range m (t + 4) Hm) as H4. change (load32 m (t + 4)) with (length m t) in H4.
  unfold is_u32 in H4. assert (Ht : t = p + Isi.ISI_SIZE) by done. clearbody t.
  unfold cdbg_config_isi.
  destruct (IsiProofs.isi_check_spec eng fed sp sg s m p Hld) as (s1 & m2 & m1 & Hchk & H1 & H2 & Hm2).
  rewrite Hchk. pose proof (IsiProofs.same_on_image sp sg m m1 m2 p Hld H1 H2) as Hon.
  match type of Hchk with _ = (_, _, ?v) => set (ret := v) in * end. cbn [snd].
  destruct (Z.eqb_spec ret 0) as [H0|H0]; cbn [negb].
  2: { do 4 eexists. split; [done|]. split; [|done]. split; [done|tauto]. }
  unfold Isi.ISI_SIZE, table_size in *.
  assert (Isi.isi_get_type_image m2 p = Isi.isi_get_type_image m p) as ->.
  { unfold Isi.isi_get_type_image, Isi.isi_type. f_equal. apply load32_same.
    eapply same_on_sub; [exact Hon|lia|lia]. }
  destruct (Z.eqb_spec (Isi.isi_get_type_image m p) Isi.ISI_TYPE_CFG) as [Hty|Hty]; cbn [negb].
  2: { do 4 eexists. split; [done|]. split; [|done]. split; [done|tauto]. }
  assert (Isi.isi_get_data p = t) as -> by (rewrite Ht; apply u32_small; lia).
  assert (Hont : same_on m m2 t (Z.to_nat (table_size + length m t)))
    by (eapply same_on_sub; [exact Hon|lia|unfold table_size; lia]).
  assert (Hlt : length m2 t = length m t).
  { apply load32_same. eapply same_on_sub; [exact Hont|lia|unfold table_size; lia]. }
  assert (Hft : forall k, 0 <= k -> k + 4 <= table_size -> load32 m2 (t + k) = load32 m (t + k)).
  { intros k ??. apply load32_same. eapply same_on_sub; [exact Hont|lia|unfold table_size in *; lia]. }
  assert (Htab : table_ok m2 t <-> table_ok m t).
  { unfold table_ok, hcrc_ok, zeroed, magic, dcrc. rewrite Hlt, !Hft by (unfold table_size, hcrc_offset; lia).
    pose proof (Hft 0) as E0. rewrite Z.add_0_r in E0. rewrite E0 by (unfold table_size; lia).
    rewrite !(bytes_at_ext m m2); [done|..];
      (eapply same_on_sub; [exact Hont|unfold table_size; lia|unfold table_size; lia]). }
  destruct (cdbg_check_table_spec eng sp s1 m2 t) as (s3 & m3 & r & E3 & Hr0 & Hs3 & Hok3).
  { done. }
  { rewrite Hlt. unfold apart, table_size in *. lia. }
  unfold cdbg_do_config. rewrite E3. destruct (Z.ltb_spec r 0) as [Hneg|Hpos].
  - do 4 eexists. split; [done|]. split; [|by split; [lia|]].
    split; [lia|]. intros (_ & _ & Hto). apply Htab, Hok3 in Hto. lia.
  - assert (r = 0) as -> by lia. do 4 eexists. split; [done|]. split.
    + split; [|done]. intros _. split; [done|]. split; [done|]. by apply Htab, Hok3.
    + split; [|done]. intros _. apply apply_table_same.
      eapply same_on_trans; [eapply same_on_sub; [exact Hont|lia|unfold table_size; lia]|].
      eapply same_except_on; [exact Hs3|]. unfold apart, table_size in *. lia.
Qed.

(** A configuration that enables the DRAM and sets the boot pins to 3. *)
Definition sample_table : list Z :=
  let data := [1; 2; 3; 4] in
  let words l := concat (map (le_put 4) l) in
  let front := words [IR_CFG_TLB_MAGIC; 4; Crc32.crc32 0 data] in
  let back := words [0; 1; 0; 0; 0; 0xffffffff; 3; 0xffffffff; 0; 0; 0; 0; 0; 0; 0; 0] in
  front ++ le_put 4 (Crc32.crc32 0 (front ++ [0; 0; 0; 0] ++ back)) ++ back ++ data.
Definition sample_config : mem := IsiProofs.image_at Isi.ISI_TYPE_CFG sample_table.
Definition fresh : cdbg := Cdbg true [] 0 (-1) 0 0 [].

Example cdbg_config_isi_safe_witness :
  let m := sample_config in
  let t := 0x1000 + Isi.ISI_SIZE in
  apply_table fresh m t = Cdbg true [] 0 (-1) 1 3 [] /\
  exists s' m' c' r,
    cdbg_config_isi soft_engine 0x8000 0x8010 idle_secure m fresh 0x1000 = (s', m', c', r) /\
    (r = 0 <-> (Isi.isi_check soft_engine 0x8000 0x8010 idle_secure m 0x1000).2 = 0 /\
               Isi.isi_get_type_image m 0x1000 = Isi.ISI_TYPE_CFG /\ table_ok m t) /\
    (r = 0 -> c' = apply_table fresh m t) /\ (r <> 0 -> c' = fresh).
Proof.
  split; [vm_compute; reflexivity|].
  apply (cdbg_config_isi_safe soft_engine (fun e mode _ l => e = (mode, l)) 0x8000 0x8010
    idle_secure sample_config fresh 0x1000).
  - split; [apply IsiProofs.mem_ok_image, (bool_decide_eq_true_1 _); by vm_compute
           |split; [done|by vm_compute]|right; by vm_compute..].
  - vm_compute. discriminate.
Defined.

Example sample_config_accepted :
  (cdbg_config_isi soft_engine 0x8000 0x8010 idle_secure sample_config fresh 0x1000).2 = 0.
Proof. vm_compute. reflexivity. Qed.

End CdbgProofs.
