(* ===== verification/Nand.v ===== *)
(** * Nand: infotm/drivers/nand/nand_base.c, the NAND flash drivers

    Three entries of the device table are views of one NAND chip: "bnd" (the
    pages the boot ROM reads, marked by a magic number), "nnd" (pages, bad
    blocks skipped when reading) and "fnd" (pages with their spare bytes, for
    yaffs images).  This file models their drivers: reading and writing
    pages, erasing, bad block marks, and the read-retry levels of newer
    chips.

    What happens on the wires of the chip ([nf2_page_op], [nf2_erase] and the
    [imap_set_retry_param_*] functions of imapx800.c, register programming)
    is the parameter [nand_hw], and what the proofs use of it is the class
    [NandChip]; [soft_chip] satisfies it.  Resetting, which also scans the
    table of known chips, is left to the drivers below. *)

From S2P Require Import Prelude Mem CString VStorage.
Local Open Scope Z_scope.

(** ** Configuration and state *)

(** [struct nand_config]; the seeds of the randomizer are one field. *)
Record nand_config := NandConfig {
  randomizer : Z; cycle : Z; mecclvl : Z; secclvl : Z; eccen : Z; busw : Z;
  badpagemajor : Z; badpageminor : Z;
  sysinfosize : Z; pagesize : Z; blocksize : Z; pagesperblock : Z;
  read_retry : Z; retry_level : Z; nand_param0 : Z; nand_param1 : Z;
  seeds : list Z
}.

(** The arguments of [nf2_page_op]. *)
Record page_op := PageOp {
  ecc_enable : Z; page_mode : Z; ecc_type : Z; rsvd_ecc_en : Z;
  page_num : Z; sysinfo_num : Z; trans_dir : Z; row_addr : Z;
  ch0_adr : Z; ch0_len : Z; secc_used : Z; secc_type : Z;
  half_page_en : Z; main_part : Z; op_cycle : Z; op_randomizer : Z; op_seeds : list Z;
  ch1_adr : Z; ch1_len : Z; sdma_2ch_mode : Z; op_busw : Z
}.

(** What it returns and stores through its two status pointers. *)
Record page_res := PageRes { ret : Z; ecc_unfixed : Z; secc_unfixed : Z }.

(** The functions that select a read-retry level, by the chips they know. *)
Inductive retry_param := param_20 | param_21 | param_26 | micro_20 | sandisk19.

Record nand_hw (H : Type) := NandHw {
  nf2_page_op : H -> mem -> page_op -> H * mem * page_res;
  nf2_erase : H -> Z -> Z -> Z -> H * Z;
  imap_set_retry_param : H -> retry_param -> Z -> H
}.
Arguments nf2_page_op {H}. Arguments nf2_erase {H}. Arguments imap_set_retry_param {H}.

(** [struct nand_cfg] and the other variables of the file; [chip] is the
    hardware.  [others] is what belongs to other devices. *)
Record devices (H R : Type) := Devices {
  chip : H;
  normal_en : bool; boot_en : bool;
  bnd_size_shift : Z; bnd_page_shift : Z; nnd_page_shift : Z;
  boot : nand_config; normal : nand_config;
  g_retrylevel : Z; g_eslc_param : Z;
  others : R
}.
Arguments chip {H R}. Arguments normal_en {H R}. Arguments boot_en {H R}.
Arguments bnd_size_shift {H R}. Arguments bnd_page_shift {H R}. Arguments nnd_page_shift {H R}.
Arguments boot {H R}. Arguments normal {H R}. Arguments g_retrylevel {H R}.
Arguments g_eslc_param {H R}. Arguments others {H R}. Arguments Devices {H R}.

(** Addresses of the board: the word that keeps the retry level. *)
Definition CONFIG_RESERVED_RRTB_BUFFER := 0x98800000.
Definition RRTB_LEVEL := CONFIG_RESERVED_RRTB_BUFFER + 0x4.

Definition BND_USE_MAGIC := 0x0318.

(** [x & ~(loff_t)(size - 1)] and [x & (size - 1)]. *)
Definition block_of (x size : Z) : Z := Z.land x (Z.lnot (size - 1)).
Definition in_block (x size : Z) : Z := Z.land x (size - 1).

Section Driver.
Context {H R : Type} (hw : nand_hw H).
Abbreviation D := (devices H R).
(** What a NULL pointer to a configuration shows on this machine. *)
Context (null_cfg : nand_config).
Context (malloc : world D -> Z -> world D * Z) (free : world D -> Z -> world D).
(** The address of the local [rsvdbuf] (or [buf]) of the calls. *)
Context (sp : Z).
Implicit Type w : world D.

Definition set_chip w (h : H) : world D :=
  let d := dev w in
  World (ram w) (Devices h (normal_en d) (boot_en d) (bnd_size_shift d) (bnd_page_shift d)
    (nnd_page_shift d) (boot d) (normal d) (g_retrylevel d) (g_eslc_param d) (others d)).
Definition set_level w (l : Z) : world D :=
  let d := dev w in
  World (ram w) (Devices (chip d) (normal_en d) (boot_en d) (bnd_size_shift d) (bnd_page_shift d)
    (nnd_page_shift d) (boot d) (normal d) l (g_eslc_param d) (others d)).
Definition set_eslc w (e : Z) : world D :=
  let d := dev w in
  World (ram w) (Devices (chip d) (normal_en d) (boot_en d) (bnd_size_shift d) (bnd_page_shift d)
    (nnd_page_shift d) (boot d) (normal d) (g_retrylevel d) e (others d)).
Definition set_ram w (m : mem) : world D := World m (dev w).

(** [nand_get_config(NAND_CFG_NORMAL)] and [(NAND_CFG_BOOT)]. *)
Definition normal_config w : option nand_config :=
  if normal_en (dev w) then Some (normal (dev w)) else None.
Definition boot_config w : option nand_config :=
  if boot_en (dev w) then Some (boot (dev w)) else None.
(** Reading through the pointer. *)
Definition at_cfg (c : option nand_config) : nand_config := default null_cfg c.

Definition page_call w (op : page_op) : world D * page_res :=
  let '(h, m, r) := nf2_page_op hw (chip (dev w)) (ram w) op in (set_ram (set_chip w h) m, r).

(** ** Sizes *)

Definition bnd_vs_align w : world D * Z :=
  (w, match boot_config w with Some c => s32 (pagesize c) | None => 0 end).
Definition nnd_vs_align w : world D * Z :=
  (w, match normal_config w with Some c => s32 (pagesize c) | None => 0 end).
Definition fnd_vs_align w : world D * Z := nnd_vs_align w.

Definition fnd_align w : Z :=
  match normal_config w with Some c => u32 (pagesize c + sysinfosize c) | None => 0 end.
Definition fnd_size_match w (size : Z) : bool :=
  match normal_config w with
  | Some c => size mod u32 (pagesize c + sysinfosize c) =? 0
  | None => false
  end.
Definition fnd_size_shrink w (size : Z) : Z :=
  match normal_config w with
  | Some c => u32 (size / u32 (pagesize c + sysinfosize c) * pagesize c)
  | None => 0
  end.

(** ** Page operations *)

(** A whole page: main part at [buf], the reserved bytes at [rsvd]. *)
Definition whole_page (nc : nand_config) (sysinfo dir row buf rsvd rsvd_len : Z) : page_op :=
  PageOp (eccen nc) 0 (mecclvl nc) 1 (pagesize nc) sysinfo dir row buf (pagesize nc)
    (eccen nc) (secclvl nc) 0 1 (cycle nc) (randomizer nc) (seeds nc) rsvd rsvd_len 1 (busw nc).

(** The reserved bytes only, as [base_get_badmark] reads them: raw, and
    through the error correction. *)
Definition spare_raw (nc : nand_config) (row buf : Z) : page_op :=
  PageOp 0 1 (mecclvl nc) 1 (pagesize nc) (sysinfosize nc) 0 row buf (sysinfosize nc)
    0 1 0 0 (cycle nc) 0 (seeds nc) 0 0 0 (busw nc).
Definition spare_ecc (nc : nand_config) (row buf : Z) : page_op :=
  PageOp (eccen nc) 1 (mecclvl nc) 1 (pagesize nc) (sysinfosize nc) 0 row buf (sysinfosize nc)
    (eccen nc) (secclvl nc) 0 0 (cycle nc) (randomizer nc) (seeds nc) 0 0 0 (busw nc).
(** Writing the mark. *)
Definition spare_mark (nc : nand_config) (row buf : Z) : page_op :=
  PageOp (eccen nc) 1 (mecclvl nc) 1 (pagesize nc) (sysinfosize nc) 1 row 0 (pagesize nc)
    (eccen nc) (secclvl nc) 0 0 (cycle nc) (randomizer nc) (seeds nc) buf 4 1 (busw nc).

(** ** Bad block marks *)

Definition base_get_badmark w (row : Z) : world D * Z :=
  match normal_config w with
  | None => (w, -1)
  | Some nc =>
      let '(w, t_buf) := malloc w (u32 (sysinfosize nc + 4)) in
      if t_buf =? NULL then (w, -1) else
      let '(w, r) := page_call w (spare_raw nc row t_buf) in
      if negb (ret r =? 0) then (free w t_buf, ret r) else
      if ram w t_buf =? 0xff then (free w t_buf, ret r) else
      let '(w, r) := page_call w (spare_ecc nc row t_buf) in
      if negb (ret r =? 0) then (free w t_buf, ret r) else
      if (secc_unfixed r =? 0) && (ram w t_buf =? 0xff) then (free w t_buf, ret r)
      else (free w t_buf, 1)
  end.

(** *** Read-retry levels *)

Definition set_retry w (p : retry_param) (level : Z) : world D :=
  set_chip w (imap_set_retry_param hw (chip (dev w)) p level).

(** The level is stored in the reserved buffer for the next boot stage. *)
Definition keep_level w : world D :=
  set_ram w (store32 (ram w) RRTB_LEVEL (u32 (g_retrylevel (dev w)))).

(** The families of chips the retry code tells apart by [nand_param0]. *)
Inductive family := Hynix | Micron | SanDisk.

Definition retry_family (nc : nand_config) : option family :=
  if negb (read_retry nc =? 1) then None
  else if nand_param0 nc =? 0x55 then Some Hynix
  else if nand_param0 nc =? 0x75 then Some Micron
  else if nand_param0 nc =? 0x95 then Some SanDisk
  else None.

Definition apply_level (nc : nand_config) (f : family) w (level : Z) : world D :=
  match f with
  | Hynix =>
      let w := if nand_param1 nc =? 26 then set_retry w param_26 level else w in
      let w := if nand_param1 nc =? 21 then set_retry w param_21 level else w in
      if nand_param1 nc =? 20 then set_retry w param_20 level else w
  | Micron => if nand_param1 nc =? 20 then set_retry w micro_20 level else w
  | SanDisk => if nand_param1 nc =? 20 then set_retry w sandisk19 level else w
  end.

(** The next level after a failure; [true] when all levels have been tried,
    in which case the chip is set back. *)
Definition next_level (nc : nand_config) (f : family) w (level : Z) : world D * Z * bool :=
  let level := u32 (level + 1) in
  let level := if retry_level nc <? level then 0 else level in
  if g_retrylevel (dev w) =? level then
    let level :=
      match f with
      | Hynix => level
      | Micron | SanDisk => if nand_param1 nc =? 20 then 0 else level
      end in
    (apply_level nc f w level, level, true)
  else (apply_level nc f w level, level, false).

(** Some chips go back to level 0 after each access. *)
Definition rest_level (nc : nand_config) w (level : Z) : world D * Z :=
  if negb (read_retry nc =? 1) then (w, level) else
  let back w p level :=
    if negb (level =? 0) then (set_retry (set_level w 0) p 0, 0) else (w, level) in
  let '(w, level) :=
    if (nand_param0 nc =? 0x75) && (nand_param1 nc =? 20) then back w micro_20 level
    else (w, level) in
  let '(w, level) := if nand_param1 nc =? 21 then back w param_21 level else (w, level) in
  if nand_param0 nc =? 0x95 then back w sandisk19 level else (w, level).

(** The labels of [nnd_vs_isbad]: [at_4] is [retry_4_start], which reads the
    major page of the mark, [at_5] is [retry_5_start], the minor page. *)
Inductive label := at_4 | at_5.

(** Chips of the SanDisk family jump from the minor page's loop to the labels
    of the major page. *)
Fixpoint isbad_loop (fuel : nat) (nc : nand_config) (l : label) w (row level : Z)
    : option (world D * Z) :=
  match fuel with
  | O => None
  | S fuel =>
      let go l w level := isbad_loop fuel nc l w row level in
      let end_5 w level ret :=
        let '(w, level) := rest_level nc w level in
        let w := keep_level (set_level w level) in Some (w, ret) in
      let end_4 w level ret :=
        let w := keep_level (set_level w level) in
        if negb (ret =? 0) then Some (w, ret) else
        let '(w, level) := rest_level nc w level in
        if negb (badpageminor nc =? badpagemajor nc) then go at_5 w level
        else end_5 w level ret in
      match l with
      | at_4 =>
          let '(w, ret) := base_get_badmark w (row + badpagemajor nc) in
          if ret <? 0 then Some (w, -1) else
          match (if 0 <? ret then retry_family nc else None) with
          | None => end_4 w level ret
          | Some f =>
              let '(w, level, last) := next_level nc f w level in
              if last : bool then end_4 (keep_level w) level ret else go at_4 w level
          end
      | at_5 =>
          let '(w, ret) := base_get_badmark w (row + badpageminor nc) in
          if ret <? 0 then Some (w, -1) else
          match (if 0 <? ret then retry_family nc else None) with
          | None => end_5 w level ret
          | Some SanDisk =>
              let '(w, level, last) := next_level nc SanDisk w level in
              if last : bool then end_4 (keep_level w) level ret else go at_4 w level
          | Some f =>
              let '(w, level, last) := next_level nc f w level in
              if last : bool then end_5 (keep_level w) level ret else go at_5 w level
          end
      end
  end.

Definition isbad_run (fuel : nat) w (offset : Z) : option (world D * Z) :=
  match normal_config w with
  | None => Some (w, -1)
  | Some nc =>
      let offset := block_of offset (blocksize nc) in
      let row := s32 (Z.shiftr offset (nnd_page_shift (dev w))) in
      isbad_loop fuel nc at_4 w row (g_retrylevel (dev w))
  end.

(** Enough for each level to be tried on both pages. *)
Definition isbad_fuel w : nat := (2 * Z.to_nat (retry_level (normal (dev w))) + 4)%nat.

(** A driver call that does not return has the result [(w, -1)] in the table
    of devices. *)
Definition returning w (r : option (world D * Z)) : world D * Z := default (w, -1) r.

Definition nnd_vs_isbad w (offset : Z) : world D * Z :=
  returning w (isbad_run (isbad_fuel w) w offset).
Definition bnd_vs_isbad w (offset : Z) : world D * Z :=
  nnd_vs_isbad w (s64 (Z.shiftl offset (bnd_size_shift (dev w)))).
Definition fnd_vs_isbad w (offset : Z) : world D * Z := nnd_vs_isbad w offset.

(** ** Erasing *)

Fixpoint erase_loop (n : nat) (nc : nand_config) (scrub : bool) w (row start result : Z)
    : world D * Z :=
  match n with
  | O => (w, result)
  | S n =>
      let '(w, bad) := if scrub then (w, 0) else nnd_vs_isbad w start in
      let '(w, result) :=
        if bad =? 0 then
          let '(h, ret) := nf2_erase hw (chip (dev w)) 0 row (cycle nc) in
          (set_chip w h, if negb (ret =? 0) then -1 else result)
        else (w, result) in
      erase_loop n nc scrub w (s32 (row + pagesperblock nc)) (start + blocksize nc) result
  end.

(** Start and size extended to whole blocks. *)
Definition erase_range (bs start size : Z) : Z * Z :=
  let tmp := in_block start bs in
  let size := u32 (size + tmp) in
  if negb (tmp =? 0) || negb (in_block size bs =? 0)
  then (block_of start bs, Z.land (u32 (size + (bs - 1))) (u32 (Z.lnot (bs - 1))))
  else (start, size).

Definition base_vs_erase w (start size : Z) (scrub : bool) : world D * Z :=
  match normal_config w with
  | None => (w, -1)
  | Some nc =>
      let '(start, size) := erase_range (blocksize nc) start size in
      let row := s32 (Z.shiftr start (nnd_page_shift (dev w))) in
      erase_loop (Z.to_nat (s32 (size / blocksize nc))) nc scrub w row start 0
  end.

Definition nnd_vs_erase w (start size : Z) : world D * Z := base_vs_erase w start size false.
Definition nnd_vs_scrub w (start size : Z) : world D * Z := base_vs_erase w start size true.
Definition bnd_vs_erase w (start size : Z) : world D * Z :=
  let k := bnd_size_shift (dev w) in
  nnd_vs_scrub w (s64 (Z.shiftl start k)) (u32 (Z.shiftl size k)).
Definition fnd_vs_erase w (start size : Z) : world D * Z :=
  nnd_vs_erase w start (u32 (size / fnd_align w * pagesize (at_cfg (normal_config w)))).

(** ** Reading and writing pages *)

(** The pages of one call of [base_vs_read]; [extra] tells whether the spare
    bytes follow each page in the buffer. *)
Fixpoint read_pages (n : nat) (nc : nand_config) w (prsvdbuf row cur total ret0 : Z)
    (extra : bool) : world D * Z :=
  match n with
  | O => (w, ret0)
  | S n =>
      let unit := if extra then u32 (pagesize nc + sysinfosize nc) else pagesize nc in
      let '(w, r) := page_call w
        (whole_page nc (sysinfosize nc) 0 row cur prsvdbuf (u32 (4 + sysinfosize nc))) in
      if negb (ret r =? 0) then (w, -1) else
      let erased := ram w (prsvdbuf + 1) =? 0xff in
      if negb erased && (negb (ecc_unfixed r =? 0) || negb (secc_unfixed r =? 0)) then (w, -1) else
      let w := if erased then set_ram w (memset (ram w) cur 0xff unit) else w in
      let w := if extra
               then set_ram w (memcpy (ram w) (cur + pagesize nc) (prsvdbuf + 4) (sysinfosize nc))
               else w in
      let total := s32 (total + unit) in
      read_pages n nc w prsvdbuf (s32 (row + 1)) (cur + unit) total total extra
  end.

Definition page_unit (nc : nand_config) (extra : bool) : Z :=
  u32 (pagesize nc + (if extra then sysinfosize nc else 0)).

Definition base_vs_read w (buf start length : Z) (extra : bool) : world D * Z :=
  let '(w, prsvdbuf) := malloc w (u32 (sysinfosize (at_cfg (normal_config w)) + 4)) in
  if prsvdbuf =? NULL then (w, -1) else
  match normal_config w with
  | None => (free w prsvdbuf, -1)
  | Some nc =>
      let row := s32 (Z.shiftr start (nnd_page_shift (dev w))) in
      let page_cnt := s32 (u32 length / page_unit nc extra) in
      let '(w, ret) := read_pages (Z.to_nat page_cnt) nc w prsvdbuf row buf 0 0 extra in
      (free w prsvdbuf, ret)
  end.

Fixpoint write_pages (n : nat) (nc : nand_config) w (prsvdbuf row cur total ret0 : Z)
    (extra : bool) : world D * Z :=
  match n with
  | O => (w, ret0)
  | S n =>
      let unit := if extra then u32 (pagesize nc + sysinfosize nc) else pagesize nc in
      let w := if extra
               then set_ram w (memcpy (store (ram w) prsvdbuf [0xff; 0x00; 0xff; 0xff])
                                 (prsvdbuf + 4) (cur + pagesize nc) (sysinfosize nc))
               else w in
      let '(w, r) := page_call w
        (whole_page nc (sysinfosize nc) 1 row cur prsvdbuf (u32 (4 + sysinfosize nc))) in
      if negb (ret r =? 0) then (w, -1) else
      let total := s32 (total + unit) in
      write_pages n nc w prsvdbuf (s32 (row + 1)) (cur + unit) total total extra
  end.

Definition base_vs_write w (buf start length : Z) (extra : bool) : world D * Z :=
  let n := u32 (sysinfosize (at_cfg (normal_config w)) + 4) in
  let '(w, prsvdbuf) := malloc w n in
  if prsvdbuf =? NULL then (w, -1) else
  let w := if extra then w
           else set_ram w (upd (memset (ram w) prsvdbuf 0xff n) (prsvdbuf + 1) 0x0) in
  match normal_config w with
  | None => (free w prsvdbuf, -1)
  | Some nc =>
      let row := s32 (Z.shiftr start (nnd_page_shift (dev w))) in
      let page_cnt := s32 (u32 length / page_unit nc extra) in
      let '(w, ret) := write_pages (Z.to_nat page_cnt) nc w prsvdbuf row buf 0 0 extra in
      (free w prsvdbuf, ret)
  end.

Definition nnd_vs_write w (buf start length extra : Z) : world D * Z :=
  base_vs_write w buf start length false.
Definition fnd_vs_write w (buf start length extra : Z) : world D * Z :=
  base_vs_write w buf start length true.
Definition fnd_vs_read w (buf start length extra : Z) : world D * Z :=
  base_vs_read w buf start length true.

(** *** "nnd": bad blocks are skipped *)

(** [for(skip = 0; vs_isbad(...); skip++, start += block)], [n] being
    [31 - skip]; [vs_isbad] asks the current device, which is "nnd" whenever
    the table leads here. *)
Fixpoint seek_good (n : nat) w (start block : Z) : world D * option Z :=
  let '(w, bad) := nnd_vs_isbad w (block_of start block) in
  if bad =? 0 then (w, Some start) else
  match n with
  | O => (w, None)
  | S n => seek_good n w (s64 (start + block)) block
  end.

(** One piece of a block, at all retry levels if need be. *)
Fixpoint read_level (fuel : nat) (nc : nand_config) w (buf start len level : Z)
    : option (world D * Z * Z) :=
  match fuel with
  | O => None
  | S fuel =>
      let '(w, ret) := base_vs_read w buf start len false in
      match retry_family nc with
      | None => Some (w, level, ret)
      | Some f =>
          if ret =? -1 then
            let '(w, level, last) := next_level nc f w level in
            if last : bool then Some (w, level, ret)
            else read_level fuel nc w buf start len level
          else
            let w := match f with
                     | Hynix => keep_level (set_level w level)
                     | Micron | SanDisk => w
                     end in
            Some (w, level, ret)
      end
  end.

Definition read_piece (nc : nand_config) w (buf start len : Z) : option (world D * Z) :=
  match read_level (S (S (Z.to_nat (retry_level nc)))) nc w buf start len (g_retrylevel (dev w)) with
  | None => None
  | Some (w, level, ret) => let '(w, _) := rest_level nc w level in Some (keep_level w, ret)
  end.

(** [min(block, min(block - (start & (block - 1)), remain))] *)
Definition piece_len (block start remain : Z) : Z :=
  Z.min block (Z.min (block - in_block start block) remain).

Fixpoint nnd_read_loop (fuel : nat) w (buf start remain length : Z) : option (world D * Z) :=
  let nc := at_cfg (normal_config w) in
  let block := s32 (blocksize nc) in
  if remain =? 0 then Some (w, length) else
  match fuel with
  | O => None
  | S fuel =>
      match seek_good 31 w start block with
      | (w, None) => Some (w, -1)
      | (w, Some start) =>
          let len := piece_len block start remain in
          match read_piece nc w buf start len with
          | None => None
          | Some (w, ret) =>
              if ret =? -1 then Some (w, -1) else
              nnd_read_loop fuel w (buf + len) (s64 (start + len)) (s32 (remain - len)) length
          end
      end
  end.

Definition nnd_vs_read w (buf start length extra : Z) : world D * Z :=
  returning w (nnd_read_loop (S (Z.to_nat length)) w buf start length length).

(** ** "bnd": pages with a magic number *)

Definition rsvd_of_magic : Z := Z.lor (Z.shiftl BND_USE_MAGIC 16) 0xff.

(** Pages without the magic number, or that cannot be corrected, are
    skipped: the next page takes their place in the buffer. *)
Fixpoint bnd_read_pages (n : nat) (bc : nand_config) w (row cur total : Z) : world D * Z :=
  match n with
  | O => (w, total)
  | S n =>
      let '(w, r) := page_call w (whole_page bc 0 0 row cur sp 4) in
      if negb (ret r =? 0) then (w, -1) else
      let rsvdbuf := Z.land (Z.shiftr (s32 (load32 (ram w) sp)) 16) 0xffff in
      let w := set_ram w (store32 (ram w) sp rsvdbuf) in
      let good := (ecc_unfixed r =? 0) && (secc_unfixed r =? 0) && (BND_USE_MAGIC =? rsvdbuf) in
      if good then bnd_read_pages n bc w (s32 (row + 1)) (cur + pagesize bc) (s32 (total + pagesize bc))
      else bnd_read_pages n bc w (s32 (row + 1)) cur total
  end.

Definition bnd_vs_read w (buf start length extra : Z) : world D * Z :=
  match boot_config w with
  | None => (w, -1)
  | Some bc =>
      let w := set_ram w (store32 (ram w) sp 0) in
      let row := s32 (Z.shiftr start (bnd_page_shift (dev w))) in
      bnd_read_pages (Z.to_nat (s32 (u32 length / pagesize bc))) bc w row buf 0
  end.

Fixpoint bnd_write_pages (n : nat) (bc : nand_config) w (row cur total : Z) : world D * Z :=
  match n with
  | O => (w, total)
  | S n =>
      let w := set_ram w (store32 (ram w) sp rsvd_of_magic) in
      let '(w, r) := page_call w (whole_page bc 0 1 row cur sp 4) in
      if negb (ret r =? 0) then (w, -1) else
      bnd_write_pages n bc w (s32 (row + 1)) (cur + pagesize bc) (s32 (total + pagesize bc))
  end.

(** The chips whose boot pages are written in an enhanced mode. *)
Definition uses_eslc (bc : nand_config) : bool :=
  (read_retry bc =? 1) && (nand_param0 bc =? 0x55) && (nand_param1 bc =? 20).

Definition bnd_vs_write w (buf start length extra : Z) : world D * Z :=
  let bc := at_cfg (boot_config w) in
  let w := if uses_eslc bc then set_eslc w (s32 (g_eslc_param (dev w) + 0x0a0a0a0a)) else w in
  match boot_config w, normal_config w with
  | Some bc, Some _ =>
      let row := s32 (Z.shiftr start (bnd_page_shift (dev w))) in
      let '(w, ret) := bnd_write_pages (Z.to_nat (s32 (u32 length / pagesize bc))) bc w row buf 0 in
      if ret <? 0 then (w, -1) else
      (if uses_eslc bc then set_eslc w (s32 (g_eslc_param (dev w) - 0x0a0a0a0a)) else w, ret)
  | _, _ => (w, -1)
  end.

(** ** Marking a block *)

Definition __base_block_markbad w (offset : Z) : world D * Z :=
  match normal_config w with
  | None => (w, -1)
  | Some nc =>
      let row := s32 (Z.shiftr offset (nnd_page_shift (dev w))) in
      let w := set_ram w (store (ram w) sp [0; 0; 0; 0]) in
      let '(w, r) := page_call w (spare_mark nc row sp) in (w, ret r)
  end.

Definition base_block_markbad w (offset : Z) : world D * Z :=
  match normal_config w with
  | None => (w, -1)
  | Some nc =>
      let offset := block_of offset (blocksize nc) in
      let '(w, _) := nnd_vs_erase w offset (blocksize nc) in
      let '(w, ret) :=
        __base_block_markbad w (offset + u32 (badpagemajor nc * pagesize nc)) in
      if negb (badpageminor nc =? badpagemajor nc) then
        let '(w, ret') :=
          __base_block_markbad w (offset + u32 (badpageminor nc * pagesize nc)) in
        (w, Z.lor ret ret')
      else (w, ret)
  end.
End Driver.

(** ** The device table with these drivers *)

Definition nand_drivers {H R} (hw : nand_hw H) (null_cfg : nand_config) (sp : Z)
    (dr : drivers (devices H R)) : drivers (devices H R) :=
  let ma := malloc dr in
  let fr := free dr in
  {| vs_align_of := fun d => match d with
       | d_bnd => bnd_vs_align | d_nnd => nnd_vs_align | d_fnd => fnd_vs_align
       | _ => vs_align_of dr d end;
     vs_read_of := fun d => match d with
       | d_bnd => bnd_vs_read hw sp | d_nnd => nnd_vs_read hw null_cfg ma fr
       | d_fnd => fnd_vs_read hw null_cfg ma fr | _ => vs_read_of dr d end;
     vs_write_of := fun d => match d with
       | d_bnd => bnd_vs_write hw null_cfg sp | d_nnd => nnd_vs_write hw null_cfg ma fr
       | d_fnd => fnd_vs_write hw null_cfg ma fr | _ => vs_write_of dr d end;
     vs_reset_of := vs_reset_of dr;
     vs_erase_of := fun d => match d with
       | d_bnd => bnd_vs_erase hw ma fr | d_nnd => nnd_vs_erase hw ma fr
       | d_fnd => fnd_vs_erase hw null_cfg ma fr | _ => vs_erase_of dr d end;
     vs_scrub_of := fun d => match d with
       | d_nnd => nnd_vs_scrub hw ma fr | _ => vs_scrub_of dr d end;
     vs_isbad_of := fun d => match d with
       | d_bnd => bnd_vs_isbad hw ma fr | d_nnd => nnd_vs_isbad hw ma fr
       | d_fnd => fnd_vs_isbad hw ma fr | _ => vs_isbad_of dr d end;
     vs_capacity_of := vs_capacity_of dr;
     malloc := ma; free := fr |}.

(** ** The contract of the chip *)

Inductive page := Erased | Programmed (main rsvd : list Z) | Marked.

(** [nc] describes the chip, whose pages have [2 ^ k] and whose blocks
    [2 ^ b] bytes. *)
Record geometry (nc : nand_config) (k b : Z) : Prop := {
  geo_sizes : 0 <= k <= b /\ b <= 30;
  geo_page : pagesize nc = 2 ^ k;
  geo_block : blocksize nc = 2 ^ b;
  geo_count : pagesperblock nc = 2 ^ (b - k);
  geo_major : 0 <= badpagemajor nc < 2 ^ (b - k);
  geo_minor : 0 <= badpageminor nc < 2 ^ (b - k);
  geo_spare : 0 <= sysinfosize nc <= 2 ^ 16;
  geo_level : 0 <= retry_level nc < 2 ^ 31
}.

Definition rsvd_size (nc : nand_config) : nat := Z.to_nat (4 + sysinfosize nc).

(** [pg] shows the pages of the chip by their row. *)
Class NandChip {H} (hw : nand_hw H) (nc : nand_config) (pg : H -> Z -> page) : Prop := {
  chip_write c m row buf rsvd :
    pg c row = Erased ->
    exists c' e s, nf2_page_op hw c m
        (whole_page nc (sysinfosize nc) 1 row buf rsvd (u32 (4 + sysinfosize nc))) =
        (c', m, PageRes 0 e s) /\
      forall q, pg c' q =
        if q =? row then Programmed (bytes_at m buf (Z.to_nat (pagesize nc)))
                           (bytes_at m rsvd (rsvd_size nc))
        else pg c q;
  chip_read c m row buf rsvd main rs :
    pg c row = Programmed main rs ->
    exists c', nf2_page_op hw c m
        (whole_page nc (sysinfosize nc) 0 row buf rsvd (u32 (4 + sysinfosize nc))) =
        (c', store (store m buf main) rsvd rs, PageRes 0 0 0) /\
      forall q, pg c' q = pg c q;
  chip_read_erased c m row buf rsvd :
    pg c row = Erased ->
    exists c' main rs r, nf2_page_op hw c m
        (whole_page nc (sysinfosize nc) 0 row buf rsvd (u32 (4 + sysinfosize nc))) =
        (c', store (store m buf main) rsvd rs, r) /\
      length main = Z.to_nat (pagesize nc) /\ length rs = rsvd_size nc /\
      nth 1 rs 0 = 0xff /\ ret r = 0 /\ forall q, pg c' q = pg c q;
  chip_spare_raw c m row buf :
    exists c' rs r, nf2_page_op hw c m (spare_raw nc row buf) = (c', store m buf rs, r) /\
      length rs = rsvd_size nc /\ ret r = 0 /\ (forall q, pg c' q = pg c q) /\
      (pg c row = Marked -> nth 0 rs 0 <> 0xff) /\ (pg c row = Erased -> nth 0 rs 0 = 0xff);
  chip_spare_ecc c m row buf :
    exists c' rs r, nf2_page_op hw c m (spare_ecc nc row buf) = (c', store m buf rs, r) /\
      length rs = rsvd_size nc /\ ret r = 0 /\ (forall q, pg c' q = pg c q) /\
      (pg c row = Marked -> secc_unfixed r <> 0 \/ nth 0 rs 0 <> 0xff) /\
      (forall main rs', pg c row = Programmed main rs' ->
         secc_unfixed r = 0 /\ nth 0 rs 0 = nth 0 rs' 0);
  chip_mark c m row buf :
    bytes_at m buf 4 = [0; 0; 0; 0] -> pg c row = Erased ->
    exists c' r, nf2_page_op hw c m (spare_mark nc row buf) = (c', m, r) /\ ret r = 0 /\
      forall q, pg c' q = if q =? row then Marked else pg c q;
  chip_erase c row :
    row mod pagesperblock nc = 0 ->
    (forall q, row <= q < row + pagesperblock nc -> pg c q <> Marked) ->
    exists c', nf2_erase hw c 0 row (cycle nc) = (c', 0) /\
      forall q, pg c' q =
        if (row <=? q) && (q <? row + pagesperblock nc) then Erased else pg c q;
  chip_retry c p l q : pg (imap_set_retry_param hw c p l) q = pg c q
}.

(** ** Texts across bad blocks *)

(** [C] is the first good block from [B] on, at most [most] blocks away and
    below block [top]. *)
Record next_good (bad : Z -> bool) (most top B C : Z) : Prop := {
  ng_range : B <= C <= B + most;
  ng_top : C < top;
  ng_good : bad C = false;
  ng_skipped X : B <= X < C -> bad X = true
}.

(** The text [l] lies on a medium with blocks of [bs] bytes from block [B]
    on, continued in the next good block where a block ends. *)
Inductive laid_out (bad : Z -> bool) (disk : mem) (bs most top : Z) : Z -> list Z -> Prop :=
| laid_nil B : laid_out bad disk bs most top B []
| laid_last B C l :
    next_good bad most top B C -> (0 < length l)%nat -> Z.of_nat (length l) <= bs ->
    text_at disk (C * bs) l -> laid_out bad disk bs most top B l
| laid_block B C l l' :
    next_good bad most top B C -> Z.of_nat (length l) = bs -> text_at disk (C * bs) l ->
    laid_out bad disk bs most top (C + 1) l' -> laid_out bad disk bs most top B (l ++ l').

Lemma next_good_ext bad bad' most top B C :
  (forall X, bad' X = bad X) -> next_good bad most top B C -> next_good bad' most top B C.
Proof. intros Hb [H1 H2 H3 H4]. split; [done|done|by rewrite Hb|]. intros X. rewrite Hb. apply H4. Qed.

Lemma laid_out_ext bad bad' disk disk' bs most top B l :
  (forall X, bad' X = bad X) -> (forall x, disk' x = disk x) ->
  laid_out bad disk bs most top B l -> laid_out bad' disk' bs most top B l.
Proof.
  intros Hb Hd. induction 1 as [B|B C l Hn H1 H2 Ht|B C l l' Hn H1 Ht _ IH]; [constructor| |].
  - apply (laid_last _ _ _ _ _ _ C); [by eapply next_good_ext|done|done|].
    eapply text_at_same; [|exact Ht]. intros x _. apply Hd.
  - apply (laid_block _ _ _ _ _ _ C); [by eapply next_good_ext|done| |done].
    eapply text_at_same; [|exact Ht]. intros x _. apply Hd.
Qed.

Lemma laid_out_most bad disk bs most most' top B l :
  most <= most' -> laid_out bad disk bs most top B l -> laid_out bad disk bs most' top B l.
Proof.
  intros Hm. assert (Hn : forall B C, next_good bad most top B C -> next_good bad most' top B C).
  { intros X C [H1 H2 H3 H4]. split; [lia|done..]. }
  induction 1 as [B|B C l H H1 H2 Ht|B C l l' H H1 Ht _ IH]; [constructor| |].
  - by apply (laid_last _ _ _ _ _ _ C); [apply Hn|..].
  - by apply (laid_block _ _ _ _ _ _ C); [apply Hn|..].
Qed.

(** A text depends on the blocks it is looked for in only. *)
Lemma laid_out_region bad disk disk' bs most top B l :
  0 < bs -> (forall x, B * bs <= x < top * bs -> disk' x = disk x) ->
  laid_out bad disk bs most top B l -> laid_out bad disk' bs most top B l.
Proof.
  intros Hb Hd Hl. induction Hl as [B|B C l H H1 H2 Ht|B C l l' H H1 Ht _ IH]; [constructor| |];
    destruct (ng_range _ _ _ _ _ H); pose proof (ng_top _ _ _ _ _ H).
  - apply (laid_last _ _ _ _ _ _ C); [done..|]. eapply text_at_same; [|exact Ht].
    intros x Hx. apply Hd. nia.
  - apply (laid_block _ _ _ _ _ _ C); [done..| |].
    + eapply text_at_same; [|exact Ht]. intros x Hx. apply Hd. nia.
    + apply IH. intros x Hx. apply Hd. nia.
Qed.

(** The first piece of a text. *)
Lemma laid_out_first bad disk bs most top B l :
  0 < bs -> laid_out bad disk bs most top B l -> (0 < length l)%nat ->
  exists C l1 l2, l = l1 ++ l2 /\ next_good bad most top B C /\ (0 < length l1)%nat /\
    (length l2 = 0%nat \/ Z.of_nat (length l1) = bs) /\ Z.of_nat (length l1) <= bs /\
    text_at disk (C * bs) l1 /\ laid_out bad disk bs most top (C + 1) l2.
Proof.
  intros Hb Hl Hz.
  inversion Hl as [|B' C l' Hn H1 H2 Ht|B' C l1 l2 Hn H1 Ht Hr]; subst; [cbn in Hz; lia| |].
  - exists C, l, []. rewrite app_nil_r. split_and!; first [done|by left|constructor].
  - exists C, l1, l2. split_and!; first [done|by right|lia].
Qed.

(** How a text comes to lie so: pieces of [step] bytes, a good block being
    looked for whenever the offset [o] is at the start of one. *)
Inductive laid_steps (bad : Z -> bool) (disk : mem) (bs step most top : Z) : Z -> list Z -> Prop :=
| steps_nil o : laid_steps bad disk bs step most top o []
| steps_cons o o' l l' :
    (if decide (o mod bs = 0) then exists C, next_good bad most top (o / bs) C /\ o' = C * bs
     else o' = o) ->
    Z.of_nat (length l) = step -> text_at disk o' l ->
    laid_steps bad disk bs step most top (o' + step) l' ->
    laid_steps bad disk bs step most top o (l ++ l').

Lemma laid_steps_ext bad disk disk' bs step most top o l :
  0 < step -> 0 < bs ->
  (forall x, o <= x -> disk' x = disk x) ->
  laid_steps bad disk bs step most top o l -> laid_steps bad disk' bs step most top o l.
Proof.
  intros Hst Hbs Hd. induction 1 as [o|o o' l l' Ho Hl Ht _ IH]; [constructor|].
  assert (o <= o').
  { destruct (decide (o mod bs = 0)) as [Hm|Hm]; [|lia]. destruct Ho as (C & Hn & ->).
    pose proof (ng_range _ _ _ _ _ Hn). pose proof (Z.div_mod o bs). nia. }
  apply (steps_cons _ _ _ _ _ _ o o'); [done|done| |].
  - eapply text_at_same; [|exact Ht]. intros x Hx. apply Hd. lia.
  - apply IH. intros x Hx. apply Hd. lia.
Qed.

(** Pieces that started inside block [C], after the text [acc]. *)
Lemma laid_steps_blocks bad disk bs step most top o l :
  0 < step -> 0 < bs -> bs mod step = 0 -> laid_steps bad disk bs step most top o l ->
  forall B C acc j, next_good bad most top B C -> 0 < j -> j * step <= bs ->
    o = C * bs + j * step -> text_at disk (C * bs) acc -> Z.of_nat (length acc) = j * step ->
    laid_out bad disk bs most top B (acc ++ l).
Proof.
  intros Hst Hbs Hdiv. induction 1 as [o|o o' l l' Ho Hl Ht _ IH];
    intros B C acc j HC Hj Hjs -> Hacc Hlen.
  - rewrite app_nil_r. apply (laid_last _ _ _ _ _ _ C); [done|nia|lia|done].
  - assert (Hb : bs = bs / step * step) by (pose proof (Z.div_mod bs step); lia).
    destruct (decide (j * step = bs)) as [Hfull|Hpart].
    + replace (C * bs + j * step) with ((C + 1) * bs) in * by lia.
      rewrite Z.mod_mul in Ho by lia. destruct (decide (0 = 0)) as [_|]; [|done].
      destruct Ho as (C' & HC' & ->). rewrite Z.div_mul in HC' by lia.
      apply (laid_block _ _ _ _ _ _ C); [done|lia|done|].
      apply (IH (C + 1) C' l 1); [done|lia|nia|lia|done|lia].
    + assert (Hm : (C * bs + j * step) mod bs <> 0).
      { rewrite Z.add_comm, Z.mod_add, Z.mod_small by nia. nia. }
      destruct (decide _) as [|_]; [done|]. subst o'.
      assert (j < bs / step) by (apply (Z.mul_lt_mono_pos_r step); lia).
      assert ((j + 1) * step <= bs) by (rewrite Hb; apply Z.mul_le_mono_nonneg_r; lia).
      rewrite app_assoc. apply (IH B C (acc ++ l) (j + 1)); [done|lia|done|lia| |].
      * rewrite text_at_app. split; [done|]. by rewrite Hlen.
      * rewrite length_app. lia.
Qed.

Lemma laid_steps_out bad disk bs step most top B l :
  0 < step -> 0 < bs -> bs mod step = 0 -> laid_steps bad disk bs step most top (B * bs) l ->
  laid_out bad disk bs most top B l.
Proof.
  intros Hst Hbs Hdiv Hl. remember (B * bs) as o eqn:HB.
  destruct Hl as [|o o' l1 l2 Ho H1 Ht Hr]; [constructor|].
  subst o. rewrite Z.mod_mul in Ho by lia. destruct (decide (0 = 0)) as [_|]; [|done].
  destruct Ho as (C & HC & ->). rewrite Z.div_mul in HC by lia.
  assert (step <= bs) by (apply Z.divide_pos_le; [done|]; apply Z.mod_divide; [lia|done]).
  by apply (laid_steps_blocks bad disk bs step most top (C * bs + step) l2 Hst Hbs Hdiv Hr B C l1 1);
    first [done|lia].
Qed.

(** The first bytes of a text. *)
Lemma laid_out_take bad disk bs most top n B l :
  0 < bs -> laid_out bad disk bs most top B l -> laid_out bad disk bs most top B (take n l).
Proof.
  intros Hbs Hl. revert n.
  induction Hl as [B|B C l Hn H1 H2 Ht|B C l l' Hn H1 Ht _ IH]; intros n.
  - rewrite take_nil. constructor.
  - destruct (decide (n = 0%nat)) as [->|Hn0]; [rewrite take_0; constructor|].
    apply (laid_last _ _ _ _ _ _ C); [done|rewrite length_take; lia|rewrite length_take; lia|].
    rewrite <- (take_drop n l) in Ht. by apply text_at_app in Ht as [Ht _].
  - destruct (decide (n = 0%nat)) as [->|Hn0]; [rewrite take_0; constructor|].
    destruct (Nat.le_gt_cases n (length l)) as [Hle|Hgt].
    + rewrite take_app_le by done.
      apply (laid_last _ _ _ _ _ _ C); [done|rewrite length_take; lia|rewrite length_take; lia|].
      rewrite <- (take_drop n l) in Ht. by apply text_at_app in Ht as [Ht _].
    + rewrite take_app_ge by lia. by apply (laid_block _ _ _ _ _ _ C).
Qed.

(** How many of the [n] blocks from [B] on are bad. *)
Fixpoint count_bad (bad : Z -> bool) (B : Z) (n : nat) : Z :=
  match n with O => 0 | S n => b2z (bad B) + count_bad bad (B + 1) n end.

Lemma count_bad_ext bad bad' B n :
  (forall X, bad' X = bad X) -> count_bad bad' B n = count_bad bad B n.
Proof. intros Hb. revert B. induction n as [|n IH]; intros B; simpl; [done|]. by rewrite Hb, IH. Qed.

Lemma count_bad_range bad B n : 0 <= count_bad bad B n <= Z.of_nat n.
Proof. revert B. induction n as [|n IH]; intros B; simpl; [lia|]. specialize (IH (B + 1)). destruct (bad B); simpl b2z; lia. Qed.

(** ** Blocks and pages *)

Section Chip.
Context {H R : Type} (hw : nand_hw H) (null_cfg : nand_config) (sp : Z).
Context (dr : drivers (devices H R)) (nc : nand_config) (k b : Z) (pg : H -> Z -> page).
Context (h hn : Z).
Context `{NC : !NandChip hw nc pg} `{HP : !Heap dr h hn} (geo : geometry nc k b).
Abbreviation world := (world (devices H R)).
Abbreviation ma := (malloc dr).
Abbreviation fr := (free dr).
Implicit Type w : world.

Definition pages w : Z -> page := pg (chip (dev w)).

(** Everything but the chip and the level. *)
Definition config_of w :=
  let d := dev w in
  (normal_en d, boot_en d, (bnd_size_shift d, bnd_page_shift d, nnd_page_shift d),
   (boot d, normal d), g_eslc_param d, others d).

Definition scratch (q : Z) : Prop := h <= q < h + hn \/ RRTB_LEVEL <= q < RRTB_LEVEL + 4.

Record nand_ok w : Prop := {
  ok_en : normal_en (dev w) = true;
  ok_cfg : normal (dev w) = nc;
  ok_shift : nnd_page_shift (dev w) = k;
  ok_level : 0 <= g_retrylevel (dev w) <= retry_level nc;
  ok_pages row main rs : pages w row = Programmed main rs ->
    length main = Z.to_nat (2 ^ k) /\ length rs = rsvd_size nc /\
    nth 0 rs 0 = 0xff /\ nth 1 rs 0 = 0;
  ok_marks row : pages w row = Marked ->
    row mod 2 ^ (b - k) = badpagemajor nc \/ row mod 2 ^ (b - k) = badpageminor nc
}.

(** Only the [n] bytes at [p], the heap and the word of the level differ. *)
Definition ram_frame (p n : Z) w w' : Prop :=
  forall q, ~ p <= q < p + n -> ~ scratch q -> ram w' q = ram w q.

(** A call that does not change pages. *)
Record quiet (p n : Z) w w' : Prop := {
  quiet_ram : ram_frame p n w w';
  quiet_cfg : config_of w' = config_of w;
  quiet_pages q : pages w' q = pages w q;
  quiet_level : 0 <= g_retrylevel (dev w') <= retry_level nc
}.

Lemma quiet_ok p n w w' : nand_ok w -> quiet p n w w' -> nand_ok w'.
Proof.
  intros [E C S L P M] [_ Q1 Q2 Q3]. unfold config_of in Q1. simplify_eq.
  split; try congruence; try done.
  - intros row main rs. rewrite Q2. apply P.
  - intros row. rewrite Q2. apply M.
Qed.

Lemma quiet_refl p n w : nand_ok w -> quiet p n w w.
Proof. intros Hok. split; [by intros q|done|done|apply Hok]. Qed.

Lemma quiet_trans p n p1 n1 p2 n2 w w1 w2 :
  quiet p1 n1 w w1 -> quiet p2 n2 w1 w2 ->
  (n1 <= 0 \/ p <= p1 /\ p1 + n1 <= p + n) -> (n2 <= 0 \/ p <= p2 /\ p2 + n2 <= p + n) ->
  quiet p n w w2.
Proof.
  intros [F1 C1 P1 L1] [F2 C2 P2 L2] H1 H2. split; [| |intros q; by rewrite P2|done].
  - intros q Hq Hs. rewrite F2, F1 by (done || lia). done.
  - by rewrite C2.
Qed.

Lemma quiet_join p n w w1 w2 : quiet p n w w1 -> quiet p n w1 w2 -> quiet p n w w2.
Proof. intros Q1 Q2. eapply quiet_trans; [exact Q1|exact Q2|lia..]. Qed.

Lemma quiet_weaken p n p1 n1 w w' :
  quiet p1 n1 w w' -> n1 <= 0 \/ p <= p1 /\ p1 + n1 <= p + n -> quiet p n w w'.
Proof. intros [F C P L] H1. split; try done. intros q Hq. apply F. lia. Qed.

(** The memory changes, the devices do not. *)
Lemma quiet_set_ram p n w m :
  nand_ok w -> (forall q, ~ p <= q < p + n -> ~ scratch q -> m q = ram w q) ->
  quiet p n w (set_ram w m).
Proof. intros Hok Hm. split; [done..|apply Hok]. Qed.

Lemma malloc_quiet w n :
  nand_ok w -> 0 < n <= 2 ^ 20 ->
  exists w' p, ma w n = (w', p) /\ p <> NULL /\ h <= p /\ p + n <= h + hn /\
    quiet 0 0 w w' /\ dev w' = dev w.
Proof.
  intros Hok Hn. destruct (ma w n) as [w' p] eqn:E.
  destruct (heap_malloc w n w' p Hn E) as (H1 & H2 & H3 & H4 & H5).
  exists w', p. split_and!; try done. pose proof heap_size.
  split; [|by unfold config_of; rewrite H5|intros q; unfold pages; by rewrite H5
          |rewrite H5; apply Hok].
  intros q _ Hs. apply H4. unfold scratch in Hs. lia.
Qed.

Lemma free_quiet w p : nand_ok w -> quiet 0 0 w (fr w p) /\ dev (fr w p) = dev w.
Proof.
  intros Hok. destruct (heap_free w p) as [H1 H2]. split; [|done]. pose proof heap_size.
  split; [|by unfold config_of; rewrite H2|intros q; unfold pages; by rewrite H2
          |rewrite H2; apply Hok].
  intros q _ Hs. apply H1. unfold scratch in Hs. lia.
Qed.

(** A page operation that only reads. *)
Lemma call_quiet w op c' m' r p n :
  nand_ok w -> nf2_page_op hw (chip (dev w)) (ram w) op = (c', m', r) ->
  (forall q, pg c' q = pages w q) ->
  (forall q, ~ p <= q < p + n -> ~ scratch q -> m' q = ram w q) ->
  exists w', page_call hw w op = (w', r) /\ quiet p n w w' /\ ram w' = m' /\
    g_retrylevel (dev w') = g_retrylevel (dev w).
Proof.
  intros Hok E Hp Hm. unfold page_call. rewrite E. eexists. split; [done|].
  split; [|done]. split; [done|done|done|apply Hok].
Qed.

Lemma spare_size : 0 < u32 (sysinfosize nc + 4) <= 2 ^ 20 /\
  u32 (sysinfosize nc + 4) = Z.of_nat (rsvd_size nc).
Proof.
  pose proof (geo_spare _ _ _ geo). unfold rsvd_size. rewrite u32_small by lia. lia.
Qed.

(** The mark of a page. *)
Lemma badmark_spec w row :
  nand_ok w ->
  exists w' r, base_get_badmark hw ma fr w row = (w', r) /\ quiet 0 0 w w' /\
    g_retrylevel (dev w') = g_retrylevel (dev w) /\
    (r = 0 \/ r = 1) /\ (r = 1 <-> pages w row = Marked).
Proof.
  intros Hok. unfold base_get_badmark, normal_config. rewrite (ok_en w Hok), (ok_cfg w Hok).
  destruct spare_size as [Hs1 Hs2].
  destruct (malloc_quiet w (u32 (sysinfosize nc + 4)) Hok Hs1) as (w1 & p & -> & Hp & Hp1 & Hp2 & Q1 & D1).
  destruct (Z.eqb_spec p NULL); [done|].
  pose proof (quiet_ok _ _ _ _ Hok Q1) as Hok1.
  assert (Hin : forall rs m, length rs = rsvd_size nc ->
    forall q, ~ 0 <= q < 0 + 0 -> ~ scratch q -> store m p rs q = m q).
  { intros rs m Hl q _ Hsq. apply store_outside. unfold scratch in Hsq. lia. }
  assert (Hhd : forall m rs, length rs = rsvd_size nc -> store m p rs p = nth 0 rs 0).
  { intros m rs Hl. rewrite (store_inside _ _ _ _ 0) by (pose proof (geo_spare _ _ _ geo); unfold rsvd_size in *; lia).
    by rewrite Z.sub_diag. }
  destruct (chip_spare_raw (chip (dev w1)) (ram w1) row p) as (c2 & rs & r2 & E2 & L2 & R2 & P2 & M2 & Er2).
  destruct (call_quiet w1 _ _ _ _ 0 0 Hok1 E2 P2 (Hin rs (ram w1) L2)) as (w2 & -> & Q2 & Hm2 & G2).
  assert (Q12 : quiet 0 0 w w2) by (eapply quiet_trans; [exact Q1|exact Q2|lia..]).
  assert (Epg : pg (chip (dev w1)) row = pages w row) by (unfold pages; by rewrite D1).
  rewrite Epg in *. rewrite R2. cbn [Z.eqb negb]. rewrite Hm2, Hhd by done.
  pose proof (quiet_ok _ _ _ _ Hok Q12) as Hok2.
  destruct (Z.eqb_spec (nth 0 rs 0) 0xff) as [Hff|Hff].
  { destruct (free_quiet w2 p Hok2) as [Q3 D3].
    exists (fr w2 p), 0. split; [done|]. split; [eapply quiet_trans; [exact Q12|exact Q3|lia..]|].
    split; [by rewrite D3, G2, D1|]. split; [by left|]. split; [done|]. intros Hm. by apply M2 in Hm. }
  destruct (chip_spare_ecc (chip (dev w2)) (ram w2) row p) as (c3 & rs3 & r3 & E3 & L3 & R3 & P3 & M3 & Pr3).
  destruct (call_quiet w2 _ _ _ _ 0 0 Hok2 E3 P3 (Hin rs3 (ram w2) L3)) as (w3 & -> & Q3 & Hm3 & G3).
  assert (Q13 : quiet 0 0 w w3) by (eapply quiet_trans; [exact Q12|exact Q3|lia..]).
  destruct (free_quiet w3 p (quiet_ok _ _ _ _ Hok Q13)) as [Q4 D4].
  assert (Q14 : quiet 0 0 w (fr w3 p)) by (eapply quiet_trans; [exact Q13|exact Q4|lia..]).
  assert (G4 : g_retrylevel (dev (fr w3 p)) = g_retrylevel (dev w)) by (by rewrite D4, G3, G2, D1).
  rewrite R3. cbn [Z.eqb negb]. rewrite Hm3, Hhd by done.
  assert (Epg2 : pg (chip (dev w2)) row = pages w row) by apply Q12. rewrite Epg2 in *.
  destruct (pages w row) as [|main rs'|] eqn:Hpg.
  - by specialize (Er2 eq_refl).
  - destruct (Pr3 main rs' eq_refl) as [-> ->].
    destruct (ok_pages w Hok row main rs' Hpg) as (_ & _ & -> & _). cbn [Z.eqb andb Pos.eqb].
    exists (fr w3 p), 0. split_and!; try done. by left.
  - specialize (M3 eq_refl). destruct ((secc_unfixed r3 =? 0) && (nth 0 rs3 0 =? 255)) eqn:Hb.
    { apply andb_true_iff in Hb as [Hb1 Hb2]. lia. }
    exists (fr w3 p), 1. split_and!; try done. by right.
Qed.

(** *** Retry levels *)

Lemma set_retry_quiet w p l :
  nand_ok w -> quiet 0 0 w (set_retry hw w p l).
Proof.
  intros Hok. split; [by intros q|done| |apply Hok].
  intros q. unfold pages, set_retry, set_chip. cbn [dev chip]. by rewrite chip_retry.
Qed.

Lemma set_level_quiet w l : nand_ok w -> 0 <= l <= retry_level nc -> quiet 0 0 w (set_level w l).
Proof. intros Hok Hl. by split. Qed.

Lemma keep_level_quiet w : nand_ok w -> quiet 0 0 w (keep_level w).
Proof.
  intros Hok. apply quiet_set_ram; [done|]. intros q _ Hs. apply store_outside.
  unfold scratch in Hs. rewrite length_le_put. lia.
Qed.

Lemma quiet_if (c : bool) w w' : nand_ok w -> quiet 0 0 w w' -> quiet 0 0 w (if c then w' else w).
Proof. intros Hok Q. destruct c; [done|by apply quiet_refl]. Qed.

Lemma apply_level_quiet f w l :
  nand_ok w -> quiet 0 0 w (apply_level hw nc f w l) /\
    g_retrylevel (dev (apply_level hw nc f w l)) = g_retrylevel (dev w).
Proof.
  intros Hok. unfold apply_level.
  assert (Hif : forall (c : bool) w0 p, quiet 0 0 w w0 ->
    quiet 0 0 w (if c then set_retry hw w0 p l else w0)).
  { intros c w0 p Q. destruct c; [|done]. eapply quiet_join; [exact Q|].
    apply set_retry_quiet. by eapply quiet_ok. }
  split.
  - destruct f; repeat apply Hif; by apply quiet_refl.
  - destruct f; repeat (match goal with |- context [if ?c then _ else _] => destruct c end); done.
Qed.

(** How many levels are left before the one in use comes round again. *)
Definition levels_left (g level : Z) : nat :=
  Z.to_nat ((g - level - 1) mod (retry_level nc + 1) + 1).

Lemma next_level_spec f w level :
  nand_ok w -> 0 <= level <= retry_level nc ->
  exists w' level' last, next_level hw nc f w level = (w', level', last) /\
    quiet 0 0 w w' /\ g_retrylevel (dev w') = g_retrylevel (dev w) /\
    0 <= level' <= retry_level nc /\
    (last = false -> levels_left (g_retrylevel (dev w)) level =
       S (levels_left (g_retrylevel (dev w)) level')).
Proof.
  intros Hok Hl. pose proof (geo_level _ _ _ geo) as HL. pose proof (ok_level w Hok) as Hg.
  unfold next_level. rewrite (u32_small (level + 1)) by lia.
  set (next := if retry_level nc <? level + 1 then 0 else level + 1).
  assert (Hn : 0 <= next <= retry_level nc) by (unfold next; destruct (Z.ltb_spec (retry_level nc) (level + 1)); lia).
  set (g := g_retrylevel (dev w)) in *.
  destruct (Z.eqb_spec g next) as [Hgn|Hgn].
  - match goal with |- context [apply_level hw nc f w ?l] => set (l0 := l) end.
    destruct (apply_level_quiet f w l0 Hok) as [Q G].
    eexists _, l0, true. split_and!; try done.
    all: unfold l0; destruct f; [lia|destruct (_ =? _); lia..].
  - destruct (apply_level_quiet f w next Hok) as [Q G].
    eexists _, next, false. split_and!; try done; try lia.
    intros _. unfold levels_left. rewrite <- Z2Nat.inj_succ by (pose proof (Z.mod_pos_bound (g - next - 1) (retry_level nc + 1)); lia).
    f_equal. unfold Z.succ. f_equal.
    assert (Hlv : exists j, level + 1 = next + j * (retry_level nc + 1)).
    { unfold next. destruct (Z.ltb_spec (retry_level nc) (level + 1)); [exists 1; lia|exists 0; lia]. }
    destruct Hlv as [j Hj].
    replace (g - level - 1) with (g - next + (- j) * (retry_level nc + 1)) by lia.
    rewrite Z.mod_add by lia.
    destruct (Z.ltb_spec next g).
    + rewrite !Z.mod_small by lia. lia.
    + rewrite <- (Z.mod_unique_pos (g - next) (retry_level nc + 1) (-1) (g - next + retry_level nc + 1)) by lia.
      rewrite <- (Z.mod_unique_pos (g - next - 1) (retry_level nc + 1) (-1) (g - next + retry_level nc)) by lia.
      lia.
Qed.

Lemma levels_left_bound g level : (1 <= levels_left g level <= Z.to_nat (retry_level nc) + 1)%nat.
Proof.
  pose proof (geo_level _ _ _ geo). unfold levels_left.
  pose proof (Z.mod_pos_bound (g - level - 1) (retry_level nc + 1)). lia.
Qed.

Lemma rest_level_spec w level :
  nand_ok w -> 0 <= level <= retry_level nc ->
  exists w' level', rest_level hw nc w level = (w', level') /\ quiet 0 0 w w' /\
    0 <= level' <= retry_level nc.
Proof.
  intros Hok Hl. unfold rest_level.
  destruct (negb (read_retry nc =? 1)); [by exists w, level; split; [|split; [apply quiet_refl|]]|].
  assert (Hb : forall p w0 l, quiet 0 0 w w0 -> 0 <= l <= retry_level nc ->
    let r := (if negb (l =? 0) then (set_retry hw (set_level w0 0) p 0, 0) else (w0, l)) in
    quiet 0 0 w r.1 /\ 0 <= r.2 <= retry_level nc).
  { intros p w0 l Q Hl0. pose proof (quiet_ok _ _ _ _ Hok Q) as Hok0.
    destruct (negb (l =? 0)); cbn [fst snd]; [|done]. split; [|lia].
    assert (Q1 : quiet 0 0 w0 (set_level w0 0)) by (apply set_level_quiet; [done|lia]).
    eapply quiet_join; [exact Q|]. eapply quiet_join; [exact Q1|].
    apply set_retry_quiet. by eapply quiet_ok. }
  assert (Hc : forall (c : bool) p w0 l, quiet 0 0 w w0 -> 0 <= l <= retry_level nc ->
    let r := (if c then if negb (l =? 0) then (set_retry hw (set_level w0 0) p 0, 0) else (w0, l)
              else (w0, l)) in
    quiet 0 0 w r.1 /\ 0 <= r.2 <= retry_level nc).
  { intros c p w0 l Q Hl0. destruct c; [by apply Hb|done]. }
  destruct (Hc ((nand_param0 nc =? 0x75) && (nand_param1 nc =? 20)) micro_20 w level
              (quiet_refl _ _ _ Hok) Hl) as [Q1 L1].
  match type of Q1 with quiet _ _ _ (fst ?r) => destruct r as [w1 l1] end. cbn [fst snd] in *.
  destruct (Hc (nand_param1 nc =? 21) param_21 w1 l1 Q1 L1) as [Q2 L2].
  match type of Q2 with quiet _ _ _ (fst ?r) => destruct r as [w2 l2] end. cbn [fst snd] in *.
  destruct (Hc (nand_param0 nc =? 0x95) sandisk19 w2 l2 Q2 L2) as [Q3 L3].
  match type of Q3 with quiet _ _ _ (fst ?r) => destruct r as [w3 l3] end. cbn [fst snd] in *.
  by exists w3, l3.
Qed.

Lemma record_level_quiet w l :
  nand_ok w -> 0 <= l <= retry_level nc -> quiet 0 0 w (keep_level (set_level w l)).
Proof.
  intros Hok Hl. pose proof (set_level_quiet w l Hok Hl) as Q. eapply quiet_join; [exact Q|].
  apply keep_level_quiet. by eapply quiet_ok.
Qed.

(** *** [nnd_vs_isbad] *)

Lemma end_5_spec w level :
  nand_ok w -> 0 <= level <= retry_level nc ->
  exists w', (let '(w1, l1) := rest_level hw nc w level in keep_level (set_level w1 l1)) = w' /\
    quiet 0 0 w w'.
Proof.
  intros Hok Hl. destruct (rest_level_spec w level Hok Hl) as (w1 & l1 & -> & Q1 & L1).
  eexists. split; [done|]. eapply quiet_join; [exact Q1|].
  apply record_level_quiet; [by eapply quiet_ok|done].
Qed.

Definition answers (w : world) (marked : Prop) (r : option (world * Z)) : Prop :=
  exists w' v, r = Some (w', v) /\ quiet 0 0 w w' /\ (v = 0 \/ v = 1) /\ (v = 1 <-> marked).

Lemma answers_from w w1 marked r : quiet 0 0 w w1 -> answers w1 marked r -> answers w marked r.
Proof.
  intros Q (w' & v & -> & Q' & Hv). exists w', v. split; [done|]. split; [|done].
  by eapply quiet_join.
Qed.

Lemma isbad_minor fuel w row level :
  nand_ok w -> 0 <= level <= retry_level nc -> retry_family nc <> Some SanDisk ->
  (levels_left (g_retrylevel (dev w)) level <= fuel)%nat ->
  answers w (pages w (row + badpageminor nc) = Marked)
    (isbad_loop hw ma fr fuel nc at_5 w row level).
Proof.
  intros Hok Hl Hns. revert w level Hok Hl.
  induction fuel as [|fuel IH]; intros w level Hok Hl Hf;
    [pose proof (levels_left_bound (g_retrylevel (dev w)) level); lia|].
  cbn [isbad_loop].
  destruct (badmark_spec w (row + badpageminor nc) Hok) as (w1 & r & -> & Q1 & G1 & Hr & Hm).
  pose proof (quiet_ok _ _ _ _ Hok Q1) as Hok1.
  destruct (Z.ltb_spec r 0); [lia|]. apply (answers_from w w1); [done|].
  assert (Hend : forall w2 l2, nand_ok w2 -> 0 <= l2 <= retry_level nc ->
    answers w2 (pages w (row + badpageminor nc) = Marked)
      (let '(w0, level0) := rest_level hw nc w2 l2 in Some (keep_level (set_level w0 level0), r))).
  { intros w2 l2 Hok2 Hl2. destruct (rest_level_spec w2 l2 Hok2 Hl2) as (w3 & l3 & -> & Q3 & L3).
    do 2 eexists. split; [done|]. split; [|done].
    eapply quiet_join; [exact Q3|]. apply record_level_quiet; [by eapply quiet_ok|done]. }
  destruct (if 0 <? r then retry_family nc else None) as [f|] eqn:Hfam; [|by apply Hend].
  destruct (Z.ltb_spec 0 r); [|done].
  destruct (next_level_spec f w1 level Hok1 Hl) as (w2 & l2 & last & E2 & Q2 & G2 & L2 & D2).
  pose proof (quiet_ok _ _ _ _ Hok1 Q2) as Hok2. apply (answers_from w1 w2); [done|].
  assert (answers w2 (pages w (row + badpageminor nc) = Marked)
    (if last then
       let '(w0, level0) := rest_level hw nc (keep_level w2) l2 in
       Some (keep_level (set_level w0 level0), r)
     else isbad_loop hw ma fr fuel nc at_5 w2 row l2)) as Ha.
  { destruct last.
    - pose proof (keep_level_quiet w2 Hok2) as Qk. apply (answers_from w2 (keep_level w2)); [done|].
      apply Hend; [by eapply quiet_ok|done].
    - assert (pages w (row + badpageminor nc) = pages w2 (row + badpageminor nc)) as ->
        by (by rewrite (quiet_pages _ _ _ _ Q2), (quiet_pages _ _ _ _ Q1)).
      apply IH; [done..|]. rewrite G2, G1. rewrite G1 in D2. specialize (D2 eq_refl). lia. }
  destruct f; [rewrite E2; exact Ha|rewrite E2; exact Ha|done].
Qed.

(** Whether the block a row starts is marked bad. *)
Definition marked_row w (row : Z) : Prop :=
  pages w (row + badpagemajor nc) = Marked \/ pages w (row + badpageminor nc) = Marked.

Lemma isbad_major fuel w row level :
  nand_ok w -> 0 <= level <= retry_level nc -> retry_family nc <> Some SanDisk ->
  (levels_left (g_retrylevel (dev w)) level + Z.to_nat (retry_level nc) + 2 <= fuel)%nat ->
  answers w (marked_row w row) (isbad_loop hw ma fr fuel nc at_4 w row level).
Proof.
  intros Hok Hl Hns. revert w level Hok Hl.
  induction fuel as [|fuel IH]; intros w level Hok Hl Hf; [lia|].
  cbn [isbad_loop].
  destruct (badmark_spec w (row + badpagemajor nc) Hok) as (w1 & r & -> & Q1 & G1 & Hr & Hm).
  pose proof (quiet_ok _ _ _ _ Hok Q1) as Hok1.
  destruct (Z.ltb_spec r 0); [lia|]. apply (answers_from w w1); [done|].
  destruct (if 0 <? r then retry_family nc else None) as [f|] eqn:Hfam.
  - destruct (Z.ltb_spec 0 r); [|done]. assert (r = 1) as -> by lia.
    destruct (next_level_spec f w1 level Hok1 Hl) as (w2 & l2 & last & -> & Q2 & G2 & L2 & D2).
    pose proof (quiet_ok _ _ _ _ Hok1 Q2) as Hok2. apply (answers_from w1 w2); [done|].
    destruct last.
    + pose proof (keep_level_quiet w2 Hok2) as Qk. pose proof (quiet_ok _ _ _ _ Hok2 Qk) as Hokk.
      cbn [Z.eqb negb]. do 2 eexists. split; [done|].
      split; [eapply quiet_join; [exact Qk|by apply record_level_quiet]|].
      split; [by right|]. split; [intros _; left; by apply Hm|done].
    + assert (marked_row w row <-> marked_row w2 row) as Hmr.
      { unfold marked_row. by rewrite !(quiet_pages _ _ _ _ Q2), !(quiet_pages _ _ _ _ Q1). }
      destruct (IH w2 l2) as (w3 & v & E3 & Q3 & Hv & Hv1); try done.
      { rewrite G2, G1. rewrite G1 in D2. specialize (D2 eq_refl). lia. }
      exists w3, v. split_and!; try done. by rewrite Hmr.
  - pose proof (record_level_quiet w1 level Hok1 Hl) as Q2.
    set (w2 := keep_level (set_level w1 level)) in *.
    pose proof (quiet_ok _ _ _ _ Hok1 Q2) as Hok2. apply (answers_from w1 w2); [done|].
    destruct (Z.eqb_spec r 0) as [->|Hr0]; cbn [negb].
    2: { exists w2, r. split; [done|]. split; [by apply quiet_refl|]. split; [done|].
      assert (r = 1) as -> by lia. split; [intros _; left; by apply Hm|done]. }
    assert (Hnot : pages w (row + badpagemajor nc) <> Marked).
    { intros Hmk. apply Hm in Hmk. done. }
    destruct (rest_level_spec w2 level Hok2 Hl) as (w3 & l3 & -> & Q3 & L3).
    pose proof (quiet_ok _ _ _ _ Hok2 Q3) as Hok3. apply (answers_from w2 w3); [done|].
    assert (Hpg : forall q, pages w3 q = pages w q).
    { intros q. by rewrite (quiet_pages _ _ _ _ Q3), (quiet_pages _ _ _ _ Q2), (quiet_pages _ _ _ _ Q1). }
    destruct (Z.eqb_spec (badpageminor nc) (badpagemajor nc)) as [Heq|Hne]; cbn [negb].
    + destruct (rest_level_spec w3 l3 Hok3 L3) as (w4 & l4 & -> & Q4 & L4).
      do 2 eexists. split; [done|]. split.
      { eapply quiet_join; [exact Q4|]. apply record_level_quiet; [by eapply quiet_ok|done]. }
      split; [by left|]. unfold marked_row. rewrite Heq. split; [done|]. by intros [|].
    + destruct (isbad_minor fuel w3 row l3) as (w4 & v & E4 & Q4 & Hv & Hv1); try done.
      { pose proof (levels_left_bound (g_retrylevel (dev w3)) l3).
        pose proof (levels_left_bound (g_retrylevel (dev w)) level). lia. }
      exists w4, v. split_and!; try done. rewrite Hv1, Hpg. unfold marked_row. tauto.
Qed.

(** The block the offset [x] is in, and its state. *)
Definition bad_block w (x : Z) : Prop := marked_row w (x / 2 ^ b * 2 ^ (b - k)).

Lemma pow_pos n : 0 <= n -> 0 < 2 ^ n.
Proof. intros. by apply Z.pow_pos_nonneg. Qed.

Lemma block_of_spec x : block_of x (2 ^ b) = x / 2 ^ b * 2 ^ b.
Proof.
  destruct (geo_sizes _ _ _ geo). unfold block_of.
  replace (2 ^ b - 1) with (Z.ones b) by (rewrite Z.ones_equiv; lia).
  rewrite <- Z.ldiff_land, Z.ldiff_ones_r, Z.shiftl_mul_pow2, Z.shiftr_div_pow2 by lia. done.
Qed.

Lemma in_block_spec x : in_block x (2 ^ b) = x mod 2 ^ b.
Proof.
  destruct (geo_sizes _ _ _ geo). unfold in_block.
  replace (2 ^ b - 1) with (Z.ones b) by (rewrite Z.ones_equiv; lia).
  by rewrite Z.land_ones by lia.
Qed.

Lemma pow_split : 2 ^ b = 2 ^ (b - k) * 2 ^ k.
Proof. destruct (geo_sizes _ _ _ geo). rewrite <- Z.pow_add_r by lia. f_equal. lia. Qed.

Lemma row_of_block B :
  0 <= B -> B * 2 ^ (b - k) < 2 ^ 31 -> s32 (Z.shiftr (B * 2 ^ b) k) = B * 2 ^ (b - k).
Proof.
  intros HB Hr. pose proof (geo_sizes _ _ _ geo). pose proof (pow_pos k). pose proof (pow_pos (b - k)).
  rewrite Z.shiftr_div_pow2, pow_split, Z.mul_assoc, Z.div_mul by lia. apply s32_small. nia.
Qed.

Lemma block_row_small x : 0 <= x < 2 ^ 31 * 2 ^ k -> x / 2 ^ b * 2 ^ (b - k) < 2 ^ 31.
Proof.
  intros Hx. pose proof (geo_sizes _ _ _ geo).
  pose proof (pow_pos k). pose proof (pow_pos (b - k)). pose proof (pow_pos b).
  assert (x / 2 ^ b * 2 ^ b <= x) by (rewrite Z.mul_comm; apply Z.mul_div_le; lia).
  assert (x / 2 ^ b * 2 ^ (b - k) * 2 ^ k <= x) by (rewrite <- Z.mul_assoc, <- pow_split; lia).
  nia.
Qed.

Lemma block_num_pos x : 0 <= x -> 0 <= x / 2 ^ b.
Proof. intros. apply Z.div_pos; [done|]. apply pow_pos. pose proof (geo_sizes _ _ _ geo). lia. Qed.

Lemma isbad_spec w x :
  nand_ok w -> retry_family nc <> Some SanDisk -> 0 <= x < 2 ^ 31 * 2 ^ k ->
  answers w (bad_block w x) (isbad_run hw ma fr (isbad_fuel w) w x).
Proof.
  intros Hok Hns Hx. unfold isbad_run, normal_config, isbad_fuel.
  rewrite (ok_en w Hok), (ok_cfg w Hok), (ok_shift w Hok), (geo_block _ _ _ geo).
  rewrite block_of_spec, row_of_block by (apply block_num_pos || apply block_row_small; lia).
  apply isbad_major; [done|apply Hok|done|].
  pose proof (levels_left_bound (g_retrylevel (dev w)) (g_retrylevel (dev w))). lia.
Qed.

Lemma nnd_isbad_spec w x :
  nand_ok w -> retry_family nc <> Some SanDisk -> 0 <= x < 2 ^ 31 * 2 ^ k ->
  exists w' v, nnd_vs_isbad hw ma fr w x = (w', v) /\ quiet 0 0 w w' /\
    (v = 0 \/ v = 1) /\ (v = 1 <-> bad_block w x).
Proof.
  intros Hok Hns Hx. destruct (isbad_spec w x Hok Hns Hx) as (w' & v & E & Q & Hv).
  exists w', v. unfold nnd_vs_isbad. by rewrite E.
Qed.

(** C6: a block is reported bad exactly if the major or the minor page of
    its mark is marked.  The answer always comes, also on the chips where a
    failed page is read again at every level, and neither pages nor memory,
    the heap and the word of the level apart, are changed; the chips of the
    SanDisk family are excluded. *)
Theorem nnd_vs_isbad_correct w x :
  nand_ok w -> retry_family nc <> Some SanDisk -> 0 <= x < 2 ^ 31 * 2 ^ k ->
  exists w' v, isbad_run hw ma fr (isbad_fuel w) w x = Some (w', v) /\ quiet 0 0 w w' /\
    (v = 0 \/ v = 1) /\ (v = 1 <-> bad_block w x).
Proof. apply isbad_spec. Qed.

(** *** The SanDisk family *)

Lemma rest_level_sandisk w level :
  nand_ok w -> 0 <= level <= retry_level nc -> retry_family nc = Some SanDisk ->
  g_retrylevel (dev w) = level ->
  exists w', rest_level hw nc w level = (w', 0) /\ g_retrylevel (dev w') = 0.
Proof.
  intros Hok Hl Hf Hg. unfold retry_family in Hf.
  destruct (read_retry nc =? 1) eqn:Hr; [|done]. cbn [negb] in Hf.
  destruct (nand_param0 nc =? 0x55) eqn:H55; [done|].
  destruct (nand_param0 nc =? 0x75) eqn:H75; [done|].
  destruct (nand_param0 nc =? 0x95) eqn:H95; [|done].
  unfold rest_level. rewrite Hr, H75, H95. cbn [negb andb].
  destruct (nand_param1 nc =? 21).
  - destruct (Z.eqb_spec level 0) as [->|]; cbn [negb Z.eqb]; [|by eexists].
    by eexists.
  - destruct (Z.eqb_spec level 0) as [->|]; cbn [negb Z.eqb]; by eexists.
Qed.

Lemma sandisk_loops fuel w row :
  nand_ok w -> retry_family nc = Some SanDisk -> 1 <= retry_level nc ->
  badpageminor nc <> badpagemajor nc ->
  pages w (row + badpagemajor nc) <> Marked -> pages w (row + badpageminor nc) = Marked ->
  (forall level, 0 <= level <= retry_level nc -> isbad_loop hw ma fr fuel nc at_4 w row level = None) /\
  (g_retrylevel (dev w) = 0 -> isbad_loop hw ma fr fuel nc at_5 w row 0 = None).
Proof.
  intros Hok Hf HL Hne Hmaj Hmin. revert w Hok Hmaj Hmin.
  induction fuel as [|fuel IH]; intros w Hok Hmaj Hmin; [done|].
  assert (Hkeep : forall w', quiet 0 0 w w' -> nand_ok w' /\
    pages w' (row + badpagemajor nc) <> Marked /\ pages w' (row + badpageminor nc) = Marked).
  { intros w' Q. rewrite !(quiet_pages _ _ _ _ Q). split; [by eapply quiet_ok|done]. }
  split.
  - intros level Hl. cbn [isbad_loop].
    destruct (badmark_spec w (row + badpagemajor nc) Hok) as (w1 & r & -> & Q1 & G1 & Hr & Hm).
    assert (r = 0) as -> by (destruct Hr as [->| ->]; [done|by destruct Hmaj; apply Hm]).
    cbn [Z.ltb Z.compare Z.eqb negb].
    pose proof (quiet_ok _ _ _ _ Hok Q1) as Hok1.
    pose proof (record_level_quiet w1 level Hok1 Hl) as Q2. set (w2 := keep_level _) in *.
    pose proof (quiet_ok _ _ _ _ Hok1 Q2) as Hok2.
    destruct (rest_level_spec w2 level Hok2 Hl) as (w3 & l3 & E3 & Q3 & L3).
    destruct (rest_level_sandisk w2 level Hok2 Hl Hf eq_refl) as (w3' & E3' & G3).
    rewrite E3 in E3'. injection E3' as -> ->. rewrite E3.
    destruct (Z.eqb_spec (badpageminor nc) (badpagemajor nc)); [done|]. cbn [negb].
    destruct (Hkeep w3') as (Hok3 & Hmaj3 & Hmin3);
      [eapply quiet_join; [exact Q1|eapply quiet_join; [exact Q2|exact Q3]]|].
    by apply (IH w3').
  - intros Hg. cbn [isbad_loop].
    destruct (badmark_spec w (row + badpageminor nc) Hok) as (w1 & r & -> & Q1 & G1 & Hr & Hm).
    rewrite (proj2 Hm Hmin). cbn [Z.ltb Z.compare]. rewrite Hf.
    pose proof (quiet_ok _ _ _ _ Hok Q1) as Hok1. pose proof (geo_level _ _ _ geo).
    assert (exists w2, next_level hw nc SanDisk w1 0 = (w2, 1, false) /\ quiet 0 0 w1 w2) as (w2 & -> & Q2).
    { unfold next_level. change (u32 (0 + 1)) with 1.
      destruct (Z.ltb_spec (retry_level nc) 1); [lia|]. rewrite G1, Hg. cbn [Z.eqb].
      eexists. split; [done|]. by apply apply_level_quiet. }
    destruct (Hkeep w2) as (Hok2 & Hmaj2 & Hmin2); [by eapply quiet_join|].
    apply (IH w2); [done..|lia].
Qed.

(** C39: on a chip of the SanDisk family a block whose minor page alone is
    marked makes [nnd_vs_isbad] read for ever: the retry loop of the minor
    page jumps back into that of the major page, which succeeds and sets the
    level back. *)
Theorem nnd_vs_isbad_hangs w x fuel :
  nand_ok w -> retry_family nc = Some SanDisk -> 1 <= retry_level nc ->
  badpageminor nc <> badpagemajor nc -> 0 <= x < 2 ^ 31 * 2 ^ k ->
  let row := x / 2 ^ b * 2 ^ (b - k) in
  pages w (row + badpagemajor nc) <> Marked -> pages w (row + badpageminor nc) = Marked ->
  isbad_run hw ma fr fuel w x = None.
Proof.
  intros Hok Hf HL Hne Hx row Hmaj Hmin. unfold isbad_run, normal_config.
  rewrite (ok_en w Hok), (ok_cfg w Hok), (ok_shift w Hok), (geo_block _ _ _ geo).
  rewrite block_of_spec, row_of_block by (apply block_num_pos || apply block_row_small; lia).
  apply (sandisk_loops fuel w row); [done..|apply Hok].
Qed.

(** ** Changing pages *)

(** Only the scratch areas of the memory differ, and the pages are [pm]. *)
Record effect w w' (pm : Z -> page) : Prop := {
  eff_ram : ram_frame 0 0 w w';
  eff_cfg : config_of w' = config_of w;
  eff_pages q : pages w' q = pm q;
  eff_level : 0 <= g_retrylevel (dev w') <= retry_level nc
}.

Definition page_ok (p : page) : Prop :=
  match p with
  | Programmed main rs => length main = Z.to_nat (2 ^ k) /\ length rs = rsvd_size nc /\
      nth 0 rs 0 = 0xff /\ nth 1 rs 0 = 0
  | Erased => True
  | Marked => False
  end.

(** Every page is kept or is a new one without a mark. *)
Lemma effect_ok w w' pm :
  nand_ok w -> effect w w' pm -> (forall q, pm q = pages w q \/ page_ok (pm q)) -> nand_ok w'.
Proof.
  intros [E C S L P M] [_ Q1 Q2 Q3] Hpm. unfold config_of in Q1. simplify_eq.
  split; try congruence; try done.
  - intros row main rs. rewrite Q2. intros Hr. destruct (Hpm row) as [Hq|Hq].
    + apply (P row). congruence.
    + by rewrite Hr in Hq.
  - intros row. rewrite Q2. intros Hr. destruct (Hpm row) as [Hq|Hq].
    + apply M. congruence.
    + by rewrite Hr in Hq.
Qed.

Lemma quiet_effect w w' : quiet 0 0 w w' -> effect w w' (pages w).
Proof. by intros [? ? ? ?]. Qed.

Lemma effect_trans w w1 w2 pm pm' : effect w w1 pm -> effect w1 w2 pm' -> effect w w2 pm'.
Proof.
  intros [F1 C1 P1 L1] [F2 C2 P2 L2]. split; try done; [|by rewrite C2].
  intros q Hq Hs. rewrite F2, F1; done.
Qed.

Lemma effect_ext w w' pm pm' : effect w w' pm -> (forall q, pm q = pm' q) -> effect w w' pm'.
Proof. intros [F C P L] Hq. split; try done. intros q. by rewrite P. Qed.

Lemma quiet_effect_trans w w1 w2 pm : quiet 0 0 w w1 -> effect w1 w2 pm -> effect w w2 pm.
Proof. intros Q. by apply (effect_trans w w1 w2 (pages w)), quiet_effect. Qed.

Lemma effect_quiet_trans w w1 w2 pm : effect w w1 pm -> quiet 0 0 w1 w2 -> effect w w2 pm.
Proof.
  intros E Q. eapply effect_trans; [exact E|]. eapply effect_ext; [by apply quiet_effect|].
  apply E.
Qed.

(** ** Erasing *)

Definition is_marked (p : page) : bool := match p with Marked => true | _ => false end.

(** Block number [B] is bad. *)
Definition bad w (B : Z) : bool :=
  is_marked (pages w (B * 2 ^ (b - k) + badpagemajor nc)) ||
  is_marked (pages w (B * 2 ^ (b - k) + badpageminor nc)).

Lemma is_marked_true p : is_marked p = true <-> p = Marked.
Proof. by destruct p. Qed.

Lemma bad_block_spec w x : bad_block w x <-> bad w (x / 2 ^ b) = true.
Proof. unfold bad_block, marked_row, bad. by rewrite orb_true_iff, !is_marked_true. Qed.

Lemma bad_same w w' B : (forall q, pages w' q = pages w q) -> bad w' B = bad w B.
Proof. intros Hq. unfold bad. by rewrite !Hq. Qed.

(** A good block has no mark on any page. *)
Lemma good_unmarked w B q :
  nand_ok w -> bad w B = false ->
  B * 2 ^ (b - k) <= q < B * 2 ^ (b - k) + 2 ^ (b - k) -> pages w q <> Marked.
Proof.
  intros Hok Hb Hq Hm. destruct (geo_sizes _ _ _ geo). pose proof (pow_pos (b - k)).
  pose proof (ok_marks w Hok q Hm) as Hmod.
  assert (Hqm : q mod 2 ^ (b - k) = q - B * 2 ^ (b - k))
    by (symmetry; apply (Z.mod_unique_pos _ _ B); lia).
  apply orb_false_iff in Hb as [Hb1 Hb2]. rewrite Hqm in Hmod. destruct Hmod as [Hmod|Hmod].
  - rewrite <- Hmod in Hb1. replace (B * 2 ^ (b - k) + (q - B * 2 ^ (b - k))) with q in Hb1 by lia.
    by rewrite Hm in Hb1.
  - rewrite <- Hmod in Hb2. replace (B * 2 ^ (b - k) + (q - B * 2 ^ (b - k))) with q in Hb2 by lia.
    by rewrite Hm in Hb2.
Qed.

(** The pages after the good ones among the [n] blocks from [B] on have been
    erased. *)
Definition erased_blocks w (B n q : Z) : page :=
  let C := q / 2 ^ (b - k) in
  if (B <=? C) && (C <? B + n) && negb (bad w C) then Erased else pages w q.

Lemma erased_blocks_ok w B n q : erased_blocks w B n q = pages w q \/ page_ok (erased_blocks w B n q).
Proof. unfold erased_blocks. destruct (_ && _); [by right|by left]. Qed.

Lemma erased_blocks_bad w w' B n C :
  effect w w' (erased_blocks w B n) -> bad w' C = bad w C.
Proof.
  intros E. destruct (geo_sizes _ _ _ geo). pose proof (pow_pos (b - k)).
  pose proof (geo_major _ _ _ geo). pose proof (geo_minor _ _ _ geo).
  assert (Hmk : forall m, 0 <= m < 2 ^ (b - k) ->
    (m = badpagemajor nc \/ m = badpageminor nc) ->
    is_marked (pages w' (C * 2 ^ (b - k) + m)) = is_marked (pages w (C * 2 ^ (b - k) + m))).
  { intros m Hm Hmm. rewrite (eff_pages _ _ _ E). unfold erased_blocks.
    replace ((C * 2 ^ (b - k) + m) / 2 ^ (b - k)) with C
      by (apply (Z.div_unique_pos _ _ _ m); lia).
    destruct (_ && _) eqn:Hb; [|done]. apply andb_true_iff in Hb as [_ Hb].
    apply negb_true_iff, orb_false_iff in Hb as [Hb1 Hb2].
    destruct Hmm as [-> | ->]; [by rewrite Hb1|by rewrite Hb2]. }
  unfold bad. rewrite !Hmk by tauto. done.
Qed.

(** One good block. *)
Lemma erase_good w w1 B :
  nand_ok w -> quiet 0 0 w w1 -> bad w B = false ->
  exists c', nf2_erase hw (chip (dev w1)) 0 (B * 2 ^ (b - k)) (cycle nc) = (c', 0) /\
    effect w (set_chip w1 c') (erased_blocks w B 1).
Proof.
  intros Hok Q1 Hgood. pose proof (geo_sizes _ _ _ geo). pose proof (pow_pos (b - k)).
  destruct (chip_erase (chip (dev w1)) (B * 2 ^ (b - k))) as (c' & Ec & Pc).
  { rewrite (geo_count _ _ _ geo). apply Z.mod_mul. lia. }
  { rewrite (geo_count _ _ _ geo). intros q Hq.
    change (pages w1 q <> Marked). rewrite (quiet_pages _ _ _ _ Q1). by apply (good_unmarked w B). }
  exists c'. split; [done|]. eapply (quiet_effect_trans w w1); [done|].
  split; [by intros q|done| |apply (quiet_level _ _ _ _ Q1)].
  intros q. unfold pages at 1, set_chip. cbn [dev chip]. rewrite Pc, (geo_count _ _ _ geo).
  unfold erased_blocks. destruct (Z.leb_spec (B * 2 ^ (b - k)) q); cbn [andb].
  - assert (B <= q / 2 ^ (b - k)) by (apply Z.div_le_lower_bound; lia).
    destruct (Z.leb_spec B (q / 2 ^ (b - k))); [|lia]. cbn [andb].
    destruct (Z.ltb_spec q (B * 2 ^ (b - k) + 2 ^ (b - k))).
    + assert (q / 2 ^ (b - k) < B + 1) by (apply Z.div_lt_upper_bound; lia).
      replace (q / 2 ^ (b - k)) with B by lia. rewrite Hgood.
      by destruct (Z.ltb_spec B (B + 1)); [|lia].
    + assert (B + 1 <= q / 2 ^ (b - k)) by (apply Z.div_le_lower_bound; lia).
      destruct (Z.ltb_spec (q / 2 ^ (b - k)) (B + 1)); [lia|]. apply Q1.
  - assert (q / 2 ^ (b - k) < B) by (apply Z.div_lt_upper_bound; lia).
    destruct (Z.leb_spec B (q / 2 ^ (b - k))); [lia|]. apply Q1.
Qed.

(** A bad block is left alone. *)
Lemma erase_bad w w1 B :
  quiet 0 0 w w1 -> bad w B = true -> effect w w1 (erased_blocks w B 1).
Proof.
  intros Q1 Hb. eapply effect_ext; [by apply quiet_effect|].
  intros q. unfold erased_blocks. destruct (Z.leb_spec B (q / 2 ^ (b - k))); [|done].
  destruct (Z.ltb_spec (q / 2 ^ (b - k)) (B + 1)); [|done].
  replace (q / 2 ^ (b - k)) with B by lia. by rewrite Hb.
Qed.

Lemma erased_blocks_step w w2 B n q :
  0 <= n -> effect w w2 (erased_blocks w B 1) ->
  erased_blocks w2 (B + 1) n q = erased_blocks w B (n + 1) q.
Proof.
  intros Hn E2. unfold erased_blocks at 1. rewrite (erased_blocks_bad w w2 B 1) by done.
  rewrite (eff_pages _ _ _ E2). unfold erased_blocks. set (C := q / 2 ^ (b - k)).
  destruct (Z.leb_spec (B + 1) C), (Z.ltb_spec C (B + 1 + n)), (Z.leb_spec B C),
    (Z.ltb_spec C (B + 1)), (Z.ltb_spec C (B + (n + 1))), (bad w C);
    cbn [andb negb]; done || lia.
Qed.

Lemma erase_loop_spec n w B :
  nand_ok w -> retry_family nc <> Some SanDisk ->
  0 <= B -> (B + Z.of_nat n) * 2 ^ (b - k) < 2 ^ 31 ->
  exists w', erase_loop hw ma fr n nc false w (B * 2 ^ (b - k)) (B * 2 ^ b) 0 = (w', 0) /\
    effect w w' (erased_blocks w B (Z.of_nat n)).
Proof.
  intros Hok Hns. revert w B Hok. induction n as [|n IH]; intros w B Hok HB Hend.
  { exists w. split; [done|]. eapply effect_ext; [apply quiet_effect, quiet_refl; done|].
    intros q. unfold erased_blocks. destruct (Z.leb_spec B (q / 2 ^ (b - k))); [|done].
    destruct (Z.ltb_spec (q / 2 ^ (b - k)) (B + Z.of_nat 0)); [lia|done]. }
  pose proof (geo_sizes _ _ _ geo). pose proof (pow_pos (b - k)). pose proof (pow_pos k).
  pose proof (pow_pos b). rewrite Nat2Z.inj_succ in *. unfold Z.succ in *.
  cbn [erase_loop]. rewrite (geo_count _ _ _ geo), (geo_block _ _ _ geo).
  destruct (nnd_isbad_spec w (B * 2 ^ b) Hok Hns) as (w1 & v & -> & Q1 & Hv & Hbad).
  { split; [nia|]. rewrite pow_split, Z.mul_assoc. assert (B * 2 ^ (b - k) < 2 ^ 31) by nia. nia. }
  rewrite bad_block_spec, Z.div_mul in Hbad by lia.
  replace (B * 2 ^ (b - k) + 2 ^ (b - k)) with ((B + 1) * 2 ^ (b - k)) by lia.
  replace (B * 2 ^ b + 2 ^ b) with ((B + 1) * 2 ^ b) by lia.
  rewrite s32_small by nia.
  set (step := if v =? 0 then _ else _).
  assert (exists w2, step = (w2, 0) /\ effect w w2 (erased_blocks w B 1)) as (w2 & -> & E2).
  { unfold step. destruct (Z.eqb_spec v 0) as [->|Hv0].
    - destruct (erase_good w w1 B Hok Q1) as (c' & -> & E);
        [by destruct (bad w B); [destruct Hbad as [_ Hb]; specialize (Hb eq_refl)|]|by eexists].
    - exists w1. split; [done|]. apply erase_bad; [done|apply Hbad; lia]. }
  pose proof (effect_ok _ _ _ Hok E2 (erased_blocks_ok w B 1)) as Hok2.
  destruct (IH w2 (B + 1) Hok2) as (w3 & -> & E3); [lia..|].
  exists w3. split; [done|]. eapply effect_ext; [by eapply effect_trans|].
  intros q. apply erased_blocks_step; [lia|done].
Qed.

Lemma erase_range_spec start size :
  0 <= start -> 0 <= size -> size + start mod 2 ^ b + 2 ^ b <= 2 ^ 32 ->
  erase_range (2 ^ b) start size =
    (start / 2 ^ b * 2 ^ b, (size + start mod 2 ^ b + 2 ^ b - 1) / 2 ^ b * 2 ^ b).
Proof.
  intros Hs Hz Hr. pose proof (geo_sizes _ _ _ geo). pose proof (pow_pos b).
  pose proof (Z.mod_pos_bound start (2 ^ b)). pose proof (Z.div_mod start (2 ^ b)).
  unfold erase_range. rewrite !in_block_spec, block_of_spec, u32_small by lia.
  set (t := start mod 2 ^ b) in *. set (n := size + t) in *.
  destruct (Z.eqb_spec t 0) as [Ht|Ht], (Z.eqb_spec (n mod 2 ^ b) 0) as [Hn|Hn]; cbn [negb orb].
  1: { f_equal; [lia|]. pose proof (Z.div_mod n (2 ^ b)).
    replace (n + 2 ^ b - 1) with (2 ^ b * (n / 2 ^ b) + (2 ^ b - 1)) by lia.
    rewrite <- (Z.div_unique_pos (2 ^ b * (n / 2 ^ b) + (2 ^ b - 1)) (2 ^ b) (n / 2 ^ b) (2 ^ b - 1)) by lia.
    lia. }
  all: f_equal; rewrite (u32_small (n + (2 ^ b - 1))) by lia;
    replace (2 ^ b - 1) with (u32 (2 ^ b - 1)) at 2 by (apply u32_small; split; [lia|];
      apply Z.le_lt_trans with (2 ^ 30); [|done]; pose proof (Z.pow_le_mono_r 2 b 30); lia);
    rewrite align_mask by lia; rewrite Z.add_sub_assoc;
    pose proof (Z.div_mod (n + 2 ^ b - 1) (2 ^ b)); lia.
Qed.

Lemma base_erase_spec w start size :
  nand_ok w -> retry_family nc <> Some SanDisk ->
  0 <= start -> 0 <= size -> size + start mod 2 ^ b + 2 ^ b <= 2 ^ 32 ->
  let n := (size + start mod 2 ^ b + 2 ^ b - 1) / 2 ^ b in
  (start / 2 ^ b + n) * 2 ^ (b - k) < 2 ^ 31 ->
  exists w', nnd_vs_erase hw ma fr w start size = (w', 0) /\
    effect w w' (erased_blocks w (start / 2 ^ b) n).
Proof.
  intros Hok Hns Hs Hz Hr n Hend. pose proof (geo_sizes _ _ _ geo). pose proof (pow_pos b).
  pose proof (pow_pos (b - k)). pose proof (Z.mod_pos_bound start (2 ^ b)).
  pose proof (Z.div_pos start (2 ^ b)).
  assert (Hn : 0 <= n) by (apply Z.div_pos; lia).
  unfold nnd_vs_erase, base_vs_erase, normal_config.
  rewrite (ok_en w Hok), (ok_cfg w Hok), (ok_shift w Hok), (geo_block _ _ _ geo), erase_range_spec by done.
  fold n. rewrite Z.div_mul by lia. rewrite s32_small by nia.
  rewrite row_of_block by (done || nia).
  destruct (erase_loop_spec (Z.to_nat n) w (start / 2 ^ b) Hok Hns) as (w' & -> & E);
    [lia|rewrite Z2Nat.id by done; done|].
  exists w'. split; [done|]. by rewrite Z2Nat.id in E.
Qed.

(** ** Reading and writing pages *)

Definition page_bytes (p : page) : list Z :=
  match p with Programmed main _ => main | _ => replicate (Z.to_nat (2 ^ k)) 0xff end.

(** The main parts of all pages, one after the other. *)
Definition flash w : mem := fun x => nth (Z.to_nat (x mod 2 ^ k)) (page_bytes (pages w (x / 2 ^ k))) 0.

Lemma length_page_bytes w q : nand_ok w -> length (page_bytes (pages w q)) = Z.to_nat (2 ^ k).
Proof.
  intros Hok. destruct (pages w q) as [|main rs|] eqn:Hq; cbn [page_bytes].
  - apply length_replicate.
  - by apply (ok_pages w Hok q main rs).
  - apply length_replicate.
Qed.

Lemma flash_page w row :
  nand_ok w -> bytes_at (flash w) (row * 2 ^ k) (Z.to_nat (2 ^ k)) = page_bytes (pages w row).
Proof.
  intros Hok. pose proof (geo_sizes _ _ _ geo). pose proof (pow_pos k).
  apply (nth_ext _ _ 0 0); [by rewrite length_bytes_at, length_page_bytes|].
  intros i Hi. rewrite length_bytes_at in Hi.
  rewrite nth_default_lookup, bytes_at_lookup by done. cbn [default]. unfold flash.
  replace ((row * 2 ^ k + Z.of_nat i) / 2 ^ k) with row
    by (apply (Z.div_unique_pos _ _ _ (Z.of_nat i)); lia).
  replace ((row * 2 ^ k + Z.of_nat i) mod 2 ^ k) with (Z.of_nat i)
    by (apply (Z.mod_unique_pos _ _ row); lia).
  by rewrite Nat2Z.id.
Qed.

Lemma flash_quiet p n w w' x : quiet p n w w' -> flash w' x = flash w x.
Proof. intros Q. unfold flash. by rewrite (quiet_pages _ _ _ _ Q). Qed.

(** A buffer that no call uses for its own purposes. *)
Definition clear (buf n : Z) : Prop := forall q, buf <= q < buf + n -> ~ scratch q.

Lemma clear_sub buf n p m : clear buf n -> buf <= p -> p + m <= buf + n -> clear p m.
Proof. intros Hc ?? q Hq. apply Hc. lia. Qed.

(** The reserved bytes of a call, inside the heap. *)
Definition in_heap (p : Z) : Prop := h <= p /\ p + Z.of_nat (rsvd_size nc) <= h + hn.

Lemma store_clear m p l buf n :
  clear buf n -> in_heap p -> length l = rsvd_size nc -> 0 <= n ->
  bytes_at (store m p l) buf (Z.to_nat n) = bytes_at m buf (Z.to_nat n).
Proof.
  intros Hc [H1 H2] Hl Hn. apply bytes_at_ext. intros q Hq. apply store_outside.
  assert (~ scratch q) by (apply Hc; lia). unfold scratch in *. lia.
Qed.

Lemma store_both_frame m buf main prs rs :
  in_heap prs -> length rs = rsvd_size nc ->
  forall q, ~ buf <= q < buf + Z.of_nat (length main) -> ~ scratch q ->
  store (store m buf main) prs rs q = m q.
Proof.
  intros [H1 H2] Hl q Hq Hs. rewrite !store_outside; [done|done|]. unfold scratch in Hs. lia.
Qed.

Lemma read_page_spec w row buf prs :
  nand_ok w -> pages w row <> Marked -> in_heap prs -> clear buf (2 ^ k) ->
  exists w1 r,
    page_call hw w (whole_page nc (sysinfosize nc) 0 row buf prs (u32 (4 + sysinfosize nc))) = (w1, r) /\
    ret r = 0 /\ quiet buf (2 ^ k) w w1 /\
    if ram w1 (prs + 1) =? 0xff then page_bytes (pages w row) = replicate (Z.to_nat (2 ^ k)) 0xff
    else ecc_unfixed r = 0 /\ secc_unfixed r = 0 /\
      bytes_at (ram w1) buf (Z.to_nat (2 ^ k)) = page_bytes (pages w row).
Proof.
  intros Hok Hm Hh Hc. pose proof (geo_sizes _ _ _ geo). pose proof (pow_pos k).
  pose proof (geo_spare _ _ _ geo).
  assert (Hsz : (1 < rsvd_size nc)%nat) by (unfold rsvd_size; lia).
  assert (Hone : forall m rs, length rs = rsvd_size nc -> store m prs rs (prs + 1) = nth 1 rs 0).
  { intros m rs Hl. rewrite (store_inside _ _ _ _ 0) by lia. f_equal. lia. }
  destruct (pages w row) as [|main rs|] eqn:Hp; [| |done].
  - destruct (chip_read_erased (chip (dev w)) (ram w) row buf prs Hp)
      as (c' & main & rs & r & E & Hlm & Hlr & Hff & Hr & Pc).
    rewrite (geo_page _ _ _ geo) in Hlm.
    destruct (call_quiet w _ _ _ _ buf (2 ^ k) Hok E Pc) as (w1 & -> & Q & Hm1 & _).
    { intros q Hq. apply store_both_frame; [done|done|]. rewrite Hlm. lia. }
    exists w1, r. split; [done|]. split; [done|]. split; [done|]. rewrite Hm1, Hone, Hff by done. done.
  - destruct (chip_read (chip (dev w)) (ram w) row buf prs main rs Hp) as (c' & E & Pc).
    destruct (ok_pages w Hok row main rs Hp) as (Hlm & Hlr & _ & Ho).
    destruct (call_quiet w _ _ _ _ buf (2 ^ k) Hok E Pc) as (w1 & -> & Q & Hm1 & _).
    { intros q Hq. apply store_both_frame; [done|done|]. rewrite Hlm. lia. }
    exists w1, (PageRes 0 0 0). split; [done|]. split; [done|]. split; [done|].
    rewrite Hm1, Hone, Ho by done. cbn [Z.eqb]. split; [done|]. split; [done|].
    rewrite store_clear by (done || lia). cbn [page_bytes]. rewrite <- Hlm. apply bytes_at_store.
Qed.

Lemma page_size_small : 0 < 2 ^ k <= 2 ^ 30.
Proof.
  pose proof (geo_sizes _ _ _ geo). split; [apply pow_pos; lia|apply Z.pow_le_mono_r; lia].
Qed.

Lemma memset_page m buf :
  bytes_at (memset m buf 0xff (2 ^ k)) buf (Z.to_nat (2 ^ k)) = replicate (Z.to_nat (2 ^ k)) 0xff /\
  forall q, ~ buf <= q < buf + 2 ^ k -> memset m buf 0xff (2 ^ k) q = m q.
Proof.
  pose proof page_size_small. unfold memset. rewrite u32_small by lia. split.
  - apply (nth_ext _ _ 0 0); [by rewrite length_bytes_at, length_replicate|].
    intros i Hi. rewrite length_bytes_at in Hi.
    rewrite !nth_default_lookup, bytes_at_lookup, memset_spec, lookup_replicate_2 by lia.
    cbn [default].
    destruct ((buf <=? buf + Z.of_nat i) && (buf + Z.of_nat i <? buf + Z.of_nat (Z.to_nat (2 ^ k)))) eqn:E;
      [done|lia].
  - intros q Hq. rewrite memset_spec.
    destruct ((buf <=? q) && (q <? buf + Z.of_nat (Z.to_nat (2 ^ k)))) eqn:E; [lia|done].
Qed.

(** What [read_pages] does with one page, the status checks included. *)
Lemma read_pages_step n w row buf prs total ret0 :
  nand_ok w -> pages w row <> Marked -> in_heap prs -> clear buf (2 ^ k) ->
  0 <= row < 2 ^ 31 - 1 -> 0 <= total -> total + 2 ^ k < 2 ^ 31 ->
  exists w2, quiet buf (2 ^ k) w w2 /\
    bytes_at (ram w2) buf (Z.to_nat (2 ^ k)) = page_bytes (pages w row) /\
    read_pages hw (S n) nc w prs row buf total ret0 false =
      read_pages hw n nc w2 prs (row + 1) (buf + 2 ^ k) (total + 2 ^ k) (total + 2 ^ k) false.
Proof.
  intros Hok Hm Hh Hc Hrow Ht Htt. pose proof page_size_small.
  destruct (read_page_spec w row buf prs Hok Hm Hh Hc) as (w1 & r & E & Hr & Q & Hb).
  cbn [read_pages]. rewrite E, Hr, (geo_page _ _ _ geo), !s32_small by lia. cbn [Z.eqb negb].
  destruct (ram w1 (prs + 1) =? 0xff) eqn:Hff; cbn [negb andb].
  - eexists. split_and!; [| |done].
    + eapply quiet_join; [exact Q|]. apply quiet_set_ram; [by eapply quiet_ok|].
      intros q Hq _. by apply memset_page.
    + rewrite Hb. apply memset_page.
  - destruct Hb as (He & Hs & Hb). rewrite He, Hs. cbn [Z.eqb negb orb].
    exists w1. by split_and!.
Qed.

Lemma bytes_at_row w row n :
  nand_ok w ->
  bytes_at (flash w) (row * 2 ^ k) (Z.to_nat (Z.of_nat (S n) * 2 ^ k)) =
  page_bytes (pages w row) ++
    bytes_at (flash w) ((row + 1) * 2 ^ k) (Z.to_nat (Z.of_nat n * 2 ^ k)).
Proof.
  intros Hok. pose proof page_size_small.
  replace (Z.to_nat (Z.of_nat (S n) * 2 ^ k))
    with (Z.to_nat (2 ^ k) + Z.to_nat (Z.of_nat n * 2 ^ k))%nat by lia.
  rewrite bytes_at_app, flash_page by done. do 2 f_equal. lia.
Qed.

Lemma read_pages_spec n w row buf prs total :
  nand_ok w -> (forall q, row <= q < row + Z.of_nat n -> pages w q <> Marked) -> in_heap prs ->
  clear buf (Z.of_nat n * 2 ^ k) -> 0 <= row -> row + Z.of_nat n < 2 ^ 31 -> 0 <= total ->
  total + Z.of_nat n * 2 ^ k < 2 ^ 31 ->
  exists w', read_pages hw n nc w prs row buf total total false =
      (w', total + Z.of_nat n * 2 ^ k) /\
    quiet buf (Z.of_nat n * 2 ^ k) w w' /\
    bytes_at (ram w') buf (Z.to_nat (Z.of_nat n * 2 ^ k)) =
      bytes_at (flash w) (row * 2 ^ k) (Z.to_nat (Z.of_nat n * 2 ^ k)).
Proof.
  intros Hok Hm Hh. pose proof page_size_small. revert w row buf total Hok Hm.
  induction n as [|n IH]; intros w row buf total Hok Hm Hc Hrow Hend Ht Htt.
  { exists w. cbn [read_pages]. split; [f_equal; lia|]. split; [by apply quiet_refl|done]. }
  rewrite Nat2Z.inj_succ in *. unfold Z.succ in *.
  destruct (read_pages_step n w row buf prs total total) as (w2 & Q2 & B2 & ->); try done; try lia.
  { apply Hm. lia. } { eapply clear_sub; [exact Hc|lia|lia]. }
  pose proof (quiet_ok _ _ _ _ Hok Q2) as Hok2.
  destruct (IH w2 (row + 1) (buf + 2 ^ k) (total + 2 ^ k) Hok2) as (w3 & -> & Q3 & B3); try lia.
  { intros q Hq. rewrite (quiet_pages _ _ _ _ Q2). apply Hm. lia. }
  { eapply clear_sub; [exact Hc|lia|lia]. }
  exists w3. split; [f_equal; lia|]. split; [eapply quiet_trans; [exact Q2|exact Q3|lia..]|].
  replace (Z.of_nat n + 1) with (Z.of_nat (S n)) by lia. rewrite bytes_at_row by done.
  replace (Z.to_nat (Z.of_nat (S n) * 2 ^ k))
    with (Z.to_nat (2 ^ k) + Z.to_nat (Z.of_nat n * 2 ^ k))%nat by lia.
  rewrite bytes_at_app, Z2Nat.id by lia. f_equal.
  - rewrite <- B2. apply bytes_at_ext. intros q Hq. apply (quiet_ram _ _ _ _ Q3); [lia|].
    apply Hc. lia.
  - rewrite B3. apply bytes_at_ext. intros x _. by eapply flash_quiet.
Qed.

Lemma quiet_clear_bytes p n w w' buf m :
  quiet p n w w' -> clear buf m -> buf + m <= p \/ p + n <= buf \/ n <= 0 -> 0 <= m ->
  bytes_at (ram w') buf (Z.to_nat m) = bytes_at (ram w) buf (Z.to_nat m).
Proof.
  intros Q Hc Hd Hm. apply bytes_at_ext. intros q Hq.
  apply (quiet_ram _ _ _ _ Q); [lia|apply Hc; lia].
Qed.

(** The buffer for the reserved bytes that reading and writing set up. *)
Lemma rsvd_malloc w :
  nand_ok w ->
  exists w' p, ma w (u32 (sysinfosize nc + 4)) = (w', p) /\ p <> NULL /\ in_heap p /\
    quiet 0 0 w w' /\ dev w' = dev w.
Proof.
  intros Hok. destruct spare_size as [Hs1 Hs2].
  destruct (malloc_quiet w _ Hok Hs1) as (w' & p & E & Hp & H1 & H2 & Q & Dv).
  exists w', p. split_and!; try done. split; lia.
Qed.

Lemma row_shift row : 0 <= row < 2 ^ 31 -> s32 (Z.shiftr (row * 2 ^ k) k) = row.
Proof.
  intros Hr. pose proof (geo_sizes _ _ _ geo). pose proof page_size_small.
  rewrite Z.shiftr_div_pow2, Z.div_mul by lia. apply s32_small. lia.
Qed.

Lemma page_count n : 0 <= n -> n * 2 ^ k < 2 ^ 31 -> s32 (u32 (n * 2 ^ k) / page_unit nc false) = n.
Proof.
  intros Hn Hl. pose proof page_size_small. unfold page_unit.
  rewrite (geo_page _ _ _ geo), Z.add_0_r, !u32_small, Z.div_mul by lia. apply s32_small. nia.
Qed.

Lemma base_read_spec w buf row n :
  nand_ok w -> 0 <= row -> 0 <= n -> row + n < 2 ^ 31 -> n * 2 ^ k < 2 ^ 31 ->
  (forall q, row <= q < row + n -> pages w q <> Marked) -> clear buf (n * 2 ^ k) ->
  exists w', base_vs_read hw null_cfg ma fr w buf (row * 2 ^ k) (n * 2 ^ k) false =
      (w', n * 2 ^ k) /\
    quiet buf (n * 2 ^ k) w w' /\
    bytes_at (ram w') buf (Z.to_nat (n * 2 ^ k)) =
      bytes_at (flash w) (row * 2 ^ k) (Z.to_nat (n * 2 ^ k)).
Proof.
  intros Hok Hrow Hn Hend Hlen Hm Hc. unfold base_vs_read, normal_config.
  rewrite (ok_en w Hok), (ok_cfg w Hok). change (at_cfg null_cfg (Some nc)) with nc.
  destruct (rsvd_malloc w Hok) as (w1 & p & -> & Hp & Hh & Q1 & D1).
  destruct (Z.eqb_spec p NULL); [done|]. rewrite D1, (ok_en w Hok), (ok_cfg w Hok), (ok_shift w Hok).
  rewrite row_shift, page_count by lia.
  pose proof (quiet_ok _ _ _ _ Hok Q1) as Hok1.
  destruct (read_pages_spec (Z.to_nat n) w1 row buf p 0 Hok1) as (w2 & E2 & Q2 & B2);
    rewrite ?Z2Nat.id by done; try done; try lia.
  { intros q Hq. rewrite (quiet_pages _ _ _ _ Q1). apply Hm. lia. }
  rewrite E2. rewrite Z2Nat.id in * by done.
  assert (Q12 : quiet buf (n * 2 ^ k) w w2) by (eapply quiet_trans; [exact Q1|exact Q2|lia..]).
  destruct (free_quiet w2 p (quiet_ok _ _ _ _ Hok Q12)) as [Q3 D3].
  exists (fr w2 p). split; [f_equal; lia|]. split; [eapply quiet_trans; [exact Q12|exact Q3|lia..]|].
  pose proof page_size_small.
  rewrite (quiet_clear_bytes _ _ _ _ _ _ Q3 Hc), B2 by lia.
  apply bytes_at_ext. intros x _. by eapply flash_quiet.
Qed.

(** The pages after writing the [n] pages at [buf] to row [row] on. *)
Definition written (pm : Z -> page) (m : mem) (rs : list Z) (row n buf q : Z) : page :=
  if (row <=? q) && (q <? row + n)
  then Programmed (bytes_at m (buf + (q - row) * 2 ^ k) (Z.to_nat (2 ^ k))) rs
  else pm q.

Lemma write_pages_spec n w row buf prs total rs :
  nand_ok w -> (forall q, row <= q < row + Z.of_nat n -> pages w q = Erased) ->
  bytes_at (ram w) prs (rsvd_size nc) = rs -> nth 0 rs 0 = 0xff -> nth 1 rs 0 = 0 ->
  0 <= row -> row + Z.of_nat n < 2 ^ 31 -> 0 <= total -> total + Z.of_nat n * 2 ^ k < 2 ^ 31 ->
  exists w', write_pages hw n nc w prs row buf total total false =
      (w', total + Z.of_nat n * 2 ^ k) /\ ram w' = ram w /\
    effect w w' (written (pages w) (ram w) rs row (Z.of_nat n) buf).
Proof.
  intros Hok He Hrs H0 H1. pose proof page_size_small. revert w row buf total Hok He Hrs.
  induction n as [|n IH]; intros w row buf total Hok He Hrs Hrow Hend Ht Htt.
  { exists w. cbn [write_pages]. split; [f_equal; lia|]. split; [done|].
    eapply effect_ext; [by apply quiet_effect, quiet_refl|]. intros q. unfold written.
    destruct (Z.leb_spec row q), (Z.ltb_spec q (row + Z.of_nat 0)); done || lia. }
  rewrite Nat2Z.inj_succ in *. unfold Z.succ in *. cbn [write_pages].
  destruct (chip_write (chip (dev w)) (ram w) row buf prs) as (c' & e & s & E & Pc).
  { apply He. lia. }
  unfold page_call. rewrite E. cbn [ret Z.eqb negb].
  rewrite (geo_page _ _ _ geo), !s32_small by lia.
  set (w1 := set_ram (set_chip w c') (ram w)).
  assert (E1 : effect w w1 (written (pages w) (ram w) rs row 1 buf)).
  { split; [by intros q|done| |apply Hok]. intros q. unfold pages at 1, w1. cbn [dev set_ram set_chip chip].
    rewrite Pc, Hrs, (geo_page _ _ _ geo). unfold written.
    destruct (Z.eqb_spec q row), (Z.leb_spec row q), (Z.ltb_spec q (row + 1)); try lia; try done.
    cbn [andb]. do 2 f_equal. lia. }
  assert (Hok1 : nand_ok w1).
  { eapply effect_ok; [exact Hok|exact E1|]. intros q. unfold written. destruct (_ && _); [right|by left].
    cbn [page_ok]. rewrite length_bytes_at. split; [done|]. split; [|done].
    rewrite <- Hrs. apply length_bytes_at. }
  destruct (IH w1 (row + 1) (buf + 2 ^ k) (total + 2 ^ k) Hok1) as (w2 & -> & Hr2 & E2); try done; try lia.
  { intros q Hq. rewrite (eff_pages _ _ _ E1). unfold written.
    destruct (Z.ltb_spec q (row + 1)); [lia|]. rewrite andb_false_r. apply He. lia. }
  exists w2. split; [f_equal; lia|]. split; [done|].
  eapply effect_ext; [by eapply effect_trans|]. intros q. change (ram w1) with (ram w).
  unfold written at 1. rewrite (eff_pages _ _ _ E1). unfold written.
  destruct (Z.leb_spec (row + 1) q), (Z.ltb_spec q (row + 1 + Z.of_nat n)),
    (Z.leb_spec row q), (Z.ltb_spec q (row + 1)), (Z.ltb_spec q (row + (Z.of_nat n + 1)));
    cbn [andb]; try done; try lia. do 2 f_equal. lia.
Qed.

(** Pages [row] to [row + n] now hold the text [l], the others are as before. *)
Record programmed w w' (row n : Z) (l : list Z) : Prop := {
  prog_ok : nand_ok w';
  prog_ram : ram_frame 0 0 w w';
  prog_cfg : config_of w' = config_of w;
  prog_text : bytes_at (flash w') (row * 2 ^ k) (Z.to_nat (n * 2 ^ k)) = l;
  prog_in q : row <= q < row + n -> exists main rs, pages w' q = Programmed main rs;
  prog_out q : ~ row <= q < row + n -> pages w' q = pages w q
}.

Lemma written_ok w m rs row n buf q :
  length rs = rsvd_size nc -> nth 0 rs 0 = 0xff -> nth 1 rs 0 = 0 ->
  written (pages w) m rs row n buf q = pages w q \/ page_ok (written (pages w) m rs row n buf q).
Proof.
  intros Hl H0 H1. unfold written. destruct (_ && _); [right|by left].
  cbn [page_ok]. by rewrite length_bytes_at.
Qed.

Lemma written_programmed w w' m rs row n buf :
  nand_ok w -> 0 <= n -> length rs = rsvd_size nc -> nth 0 rs 0 = 0xff -> nth 1 rs 0 = 0 ->
  effect w w' (written (pages w) m rs row n buf) ->
  programmed w w' row n (bytes_at m buf (Z.to_nat (n * 2 ^ k))).
Proof.
  intros Hok Hn Hl H0 H1 E. pose proof page_size_small.
  assert (Hok' : nand_ok w') by (eapply effect_ok; [exact Hok|exact E|intros q; by apply written_ok]).
  assert (Hin : forall q, row <= q < row + n ->
    pages w' q = Programmed (bytes_at m (buf + (q - row) * 2 ^ k) (Z.to_nat (2 ^ k))) rs).
  { intros q Hq. rewrite (eff_pages _ _ _ E). unfold written.
    destruct (Z.leb_spec row q), (Z.ltb_spec q (row + n)); done || lia. }
  split; [done|apply E|apply E| |intros q Hq; rewrite Hin by done; by do 2 eexists|].
  2: { intros q Hq. rewrite (eff_pages _ _ _ E). unfold written.
    destruct (Z.leb_spec row q), (Z.ltb_spec q (row + n)); done || lia. }
  assert (Hj : forall j : nat, Z.of_nat j <= n -> forall r, row <= r -> r + Z.of_nat j <= row + n ->
    bytes_at (flash w') (r * 2 ^ k) (Z.to_nat (Z.of_nat j * 2 ^ k)) =
    bytes_at m (buf + (r - row) * 2 ^ k) (Z.to_nat (Z.of_nat j * 2 ^ k))).
  { induction j as [|j IH]; intros Hjn r Hr Hrn; [done|].
    rewrite bytes_at_row by done. rewrite Hin by lia. cbn [page_bytes]. rewrite IH by lia.
    replace (Z.to_nat (Z.of_nat (S j) * 2 ^ k))
      with (Z.to_nat (2 ^ k) + Z.to_nat (Z.of_nat j * 2 ^ k))%nat by lia.
    rewrite bytes_at_app, Z2Nat.id by lia. do 2 f_equal. lia. }
  specialize (Hj (Z.to_nat n) ltac:(lia) row ltac:(lia) ltac:(lia)).
  rewrite Z2Nat.id in Hj by done. rewrite Hj. f_equal. lia.
Qed.

(** The reserved bytes of a page without spare data: all set but the flag
    that tells a written page. *)
Lemma spare_buffer w p :
  nand_ok w -> in_heap p ->
  let w' := set_ram w (upd (memset (ram w) p 0xff (u32 (sysinfosize nc + 4))) (p + 1) 0x0) in
  let rs := bytes_at (ram w') p (rsvd_size nc) in
  quiet 0 0 w w' /\ nth 0 rs 0 = 0xff /\ nth 1 rs 0 = 0.
Proof.
  intros Hok [Hh1 Hh2] w' rs. pose proof (geo_spare _ _ _ geo). destruct spare_size as [_ Hsz].
  assert (Hlr : (1 < rsvd_size nc)%nat) by (unfold rsvd_size; lia).
  assert (Hm : forall q, ram w' q = if q =? p + 1 then 0 else
    if (p <=? q) && (q <? p + Z.of_nat (rsvd_size nc)) then 0xff else ram w q).
  { intros q. cbn [w' ram set_ram]. unfold upd. destruct (q =? p + 1); [done|]. unfold memset.
    rewrite memset_spec, Hsz, u32_small, Nat2Z.id by (unfold rsvd_size; lia). done. }
  assert (Hrs : forall i, (i < 2)%nat -> nth i rs 0 = if (i =? 1)%nat then 0 else 0xff).
  { intros i Hi. unfold rs. rewrite nth_default_lookup, bytes_at_lookup by lia. cbn [default].
    rewrite Hm. destruct (Z.eqb_spec (p + Z.of_nat i) (p + 1)), (Nat.eqb_spec i 1); try lia; try done.
    destruct (Z.leb_spec p (p + Z.of_nat i)), (Z.ltb_spec (p + Z.of_nat i) (p + Z.of_nat (rsvd_size nc)));
      done || lia. }
  split; [|split; by rewrite Hrs by lia].
  apply quiet_set_ram; [done|]. intros q _ Hs. change (ram w' q = ram w q). rewrite Hm.
  unfold scratch in Hs. destruct (Z.eqb_spec q (p + 1)); [lia|].
  destruct (Z.leb_spec p q), (Z.ltb_spec q (p + Z.of_nat (rsvd_size nc))); done || lia.
Qed.

Lemma nnd_write_spec w buf row n extra :
  nand_ok w -> 0 <= row -> 0 <= n -> row + n < 2 ^ 31 -> n * 2 ^ k < 2 ^ 31 ->
  (forall q, row <= q < row + n -> pages w q = Erased) -> clear buf (n * 2 ^ k) ->
  exists w', nnd_vs_write hw null_cfg ma fr w buf (row * 2 ^ k) (n * 2 ^ k) extra =
      (w', n * 2 ^ k) /\
    programmed w w' row n (bytes_at (ram w) buf (Z.to_nat (n * 2 ^ k))).
Proof.
  intros Hok Hrow Hn Hend Hlen He Hc. pose proof page_size_small.
  unfold nnd_vs_write, base_vs_write, normal_config.
  rewrite (ok_en w Hok), (ok_cfg w Hok). change (at_cfg null_cfg (Some nc)) with nc.
  destruct (rsvd_malloc w Hok) as (w1 & p & -> & Hp & Hh & Q1 & D1).
  destruct (Z.eqb_spec p NULL); [done|].
  pose proof (quiet_ok _ _ _ _ Hok Q1) as Hok1.
  destruct (spare_buffer w1 p Hok1 Hh) as (Q12 & Hs0 & Hs1). set (w2 := set_ram w1 _) in *.
  change (normal_en (dev w2)) with (normal_en (dev w1)). change (normal (dev w2)) with (normal (dev w1)).
  change (nnd_page_shift (dev w2)) with (nnd_page_shift (dev w1)).
  rewrite D1, (ok_en w Hok), (ok_cfg w Hok), (ok_shift w Hok), row_shift, page_count by lia.
  assert (Q2 : quiet 0 0 w w2) by (by eapply quiet_join).
  set (rs := bytes_at (ram w2) p (rsvd_size nc)) in *.
  assert (Hlr : length rs = rsvd_size nc) by apply length_bytes_at.
  pose proof (quiet_ok _ _ _ _ Hok Q2) as Hok2.
  destruct (write_pages_spec (Z.to_nat n) w2 row buf p 0 rs Hok2) as (w3 & -> & Hr3 & E3);
    rewrite ?Z2Nat.id by done; try done; try lia.
  { intros q Hq. rewrite (quiet_pages _ _ _ _ Q2). by apply He. }
  rewrite Z2Nat.id in E3 by done.
  assert (Hok3 : nand_ok w3)
    by (eapply effect_ok; [exact Hok2|exact E3|intros q; by apply written_ok]).
  destruct (free_quiet w3 p Hok3) as [Q4 D4].
  exists (fr w3 p). split; [f_equal; lia|].
  rewrite <- (quiet_clear_bytes _ _ _ _ _ _ Q2 Hc) by lia.
  apply (written_programmed w _ _ rs); try done.
  eapply effect_ext; [eapply quiet_effect_trans; [exact Q2|by eapply effect_quiet_trans]|].
  intros q. unfold written. by rewrite (quiet_pages _ _ _ _ Q2).
Qed.

(** ** Reading across bad blocks *)

Lemma block_size_small : 0 < 2 ^ b <= 2 ^ 30.
Proof.
  pose proof (geo_sizes _ _ _ geo). split; [apply pow_pos; lia|apply Z.pow_le_mono_r; lia].
Qed.

(** Block numbers whose rows fit. *)
Definition in_chip (B : Z) : Prop := 0 <= B /\ (B + 1) * 2 ^ (b - k) < 2 ^ 31.

Lemma in_chip_offset B : in_chip B -> 0 <= B * 2 ^ b < 2 ^ 31 * 2 ^ k.
Proof.
  intros [H0 H1]. pose proof (geo_sizes _ _ _ geo). pose proof page_size_small.
  pose proof block_size_small. pose proof (pow_pos (b - k)).
  split; [lia|]. rewrite pow_split. nia.
Qed.

Lemma isbad_block w B :
  nand_ok w -> retry_family nc <> Some SanDisk -> in_chip B ->
  exists w' v, nnd_vs_isbad hw ma fr w (B * 2 ^ b) = (w', v) /\ quiet 0 0 w w' /\
    (v =? 0) = negb (bad w B).
Proof.
  intros Hok Hns HB. destruct (nnd_isbad_spec w (B * 2 ^ b) Hok Hns (in_chip_offset B HB))
    as (w' & v & E & Q & Hv & Hb).
  exists w', v. split; [done|]. split; [done|]. pose proof block_size_small.
  rewrite bad_block_spec, Z.div_mul in Hb by lia.
  destruct Hv as [->| ->], (bad w B); try done; [|by destruct Hb as [Hb _]; specialize (Hb eq_refl)].
  by destruct Hb as [_ Hb]; specialize (Hb eq_refl).
Qed.

Lemma in_block_start B : in_block (B * 2 ^ b) (2 ^ b) = 0.
Proof. rewrite in_block_spec. apply Z.mod_mul. pose proof block_size_small. lia. Qed.

Lemma block_of_start B : block_of (B * 2 ^ b) (2 ^ b) = B * 2 ^ b.
Proof. pose proof block_size_small. rewrite block_of_spec, Z.div_mul by lia. done. Qed.

Lemma seek_good_spec n w top B C :
  nand_ok w -> retry_family nc <> Some SanDisk -> 0 <= B -> in_chip C ->
  next_good (bad w) (Z.of_nat n) top B C ->
  exists w', seek_good hw ma fr n w (B * 2 ^ b) (2 ^ b) = (w', Some (C * 2 ^ b)) /\ quiet 0 0 w w'.
Proof.
  intros Hok Hns HB HC. pose proof block_size_small as Hbs. pose proof page_size_small as Hps.
  pose proof (pow_pos (b - k)). pose proof (geo_sizes _ _ _ geo).
  revert w B Hok HB. induction n as [|n IH]; intros w B Hok HB [Hr Ht Hg Hs]; cbn [seek_good];
    rewrite block_of_start;
    (destruct (isbad_block w B Hok Hns) as (w1 & v & -> & Q1 & ->);
       [destruct HC; split; [done|nia]|]).
  - assert (C = B) as -> by lia. rewrite Hg. by exists w1.
  - destruct (decide (C = B)) as [->|Hne]; [rewrite Hg; by exists w1|].
    rewrite Hs by lia. cbn [negb]. pose proof (in_chip_offset C HC) as Ho.
    assert (Hsm : 0 <= (B + 1) * 2 ^ b < 2 ^ 62).
    { split; [nia|]. apply Z.le_lt_trans with (C * 2 ^ b); [nia|].
      apply Z.lt_le_trans with (2 ^ 31 * 2 ^ k); [lia|]. change (2 ^ 62) with (2 ^ 31 * 2 ^ 31). nia. }
    replace (s64 (B * 2 ^ b + 2 ^ b)) with ((B + 1) * 2 ^ b) by words.
    destruct (IH w1 (B + 1)) as (w2 & -> & Q2); [by eapply quiet_ok|lia| |].
    { split; [lia|done|by rewrite (bad_same w w1) by apply Q1|]. intros X HX.
      rewrite (bad_same w w1) by apply Q1. apply Hs. lia. }
    exists w2. split; [done|]. by eapply quiet_join.
Qed.

(** Reading good pages needs no retry. *)
Lemma read_piece_spec w buf row n :
  nand_ok w -> 0 <= row -> 0 <= n -> row + n < 2 ^ 31 -> n * 2 ^ k < 2 ^ 31 ->
  (forall q, row <= q < row + n -> pages w q <> Marked) -> clear buf (n * 2 ^ k) ->
  exists w', read_piece hw null_cfg ma fr nc w buf (row * 2 ^ k) (n * 2 ^ k) = Some (w', n * 2 ^ k) /\
    quiet buf (n * 2 ^ k) w w' /\
    bytes_at (ram w') buf (Z.to_nat (n * 2 ^ k)) =
      bytes_at (flash w) (row * 2 ^ k) (Z.to_nat (n * 2 ^ k)).
Proof.
  intros Hok Hrow Hn Hend Hlen Hm Hc. pose proof page_size_small. unfold read_piece.
  destruct (base_read_spec w buf row n) as (w1 & E & Q1 & B1); [done..|].
  pose proof (quiet_ok _ _ _ _ Hok Q1) as Hok1. pose proof (ok_level w Hok) as Hlv.
  assert (exists w2, read_level hw null_cfg ma fr (S (S (Z.to_nat (retry_level nc)))) nc w buf
      (row * 2 ^ k) (n * 2 ^ k) (g_retrylevel (dev w)) =
      Some (w2, g_retrylevel (dev w), n * 2 ^ k) /\ quiet 0 0 w1 w2) as (w2 & -> & Q2).
  { cbn [read_level]. rewrite E. destruct (retry_family nc) as [f|].
    - destruct (Z.eqb_spec (n * 2 ^ k) (-1)); [lia|]. eexists. split; [done|].
      destruct f; [by apply record_level_quiet|by apply quiet_refl..].
    - exists w1. split; [done|by apply quiet_refl]. }
  pose proof (quiet_ok _ _ _ _ Hok1 Q2) as Hok2.
  destruct (rest_level_spec w2 (g_retrylevel (dev w)) Hok2 Hlv) as (w3 & l3 & -> & Q3 & _).
  pose proof (keep_level_quiet w3 (quiet_ok _ _ _ _ Hok2 Q3)) as Q4.
  assert (Q14 : quiet 0 0 w1 (keep_level w3))
    by (eapply quiet_join; [exact Q2|]; eapply quiet_join; [exact Q3|exact Q4]).
  exists (keep_level w3). split; [done|]. split; [eapply quiet_trans; [exact Q1|exact Q14|lia..]|].
  rewrite (quiet_clear_bytes _ _ _ _ _ _ Q14 Hc) by lia. done.
Qed.

Lemma good_rows w C :
  nand_ok w -> bad w C = false ->
  forall q, C * 2 ^ (b - k) <= q < C * 2 ^ (b - k) + 2 ^ (b - k) -> pages w q <> Marked.
Proof. intros Hok Hg q Hq. by apply (good_unmarked w C). Qed.

Lemma block_offset C : C * 2 ^ b = C * 2 ^ (b - k) * 2 ^ k.
Proof. rewrite pow_split at 1. lia. Qed.

(** One block, or the part of it that is still wanted. *)
Lemma read_block_spec w buf C n :
  nand_ok w -> in_chip C -> bad w C = false -> 0 <= n <= 2 ^ (b - k) -> clear buf (n * 2 ^ k) ->
  exists w', read_piece hw null_cfg ma fr nc w buf (C * 2 ^ b) (n * 2 ^ k) = Some (w', n * 2 ^ k) /\
    quiet buf (n * 2 ^ k) w w' /\
    bytes_at (ram w') buf (Z.to_nat (n * 2 ^ k)) =
      bytes_at (flash w) (C * 2 ^ b) (Z.to_nat (n * 2 ^ k)).
Proof.
  intros Hok [HC0 HC1] Hg Hn Hc. pose proof block_size_small. pose proof page_size_small.
  pose proof (geo_sizes _ _ _ geo). pose proof (pow_pos (b - k)). pose proof pow_split.
  rewrite block_offset. apply read_piece_spec; [done|nia|lia|nia|nia| |done].
  intros q Hq. apply (good_rows w C); [done|done|lia].
Qed.

(** One turn of the loop of [nnd_vs_read]. *)
Lemma nnd_read_step top fuel w B C buf l1 rest length0 :
  nand_ok w -> retry_family nc <> Some SanDisk -> 0 <= B -> top * 2 ^ (b - k) < 2 ^ 31 ->
  next_good (bad w) 31 top B C -> (0 < length l1)%nat -> 0 <= rest ->
  Z.of_nat (length l1) <= 2 ^ b -> Z.of_nat (length l1) mod 2 ^ k = 0 ->
  (rest = 0 \/ Z.of_nat (length l1) = 2 ^ b) -> text_at (flash w) (C * 2 ^ b) l1 ->
  Z.of_nat (length l1) + rest < 2 ^ 31 -> clear buf (Z.of_nat (length l1)) ->
  exists w2, nnd_read_loop hw null_cfg ma fr (S fuel) w buf (B * 2 ^ b)
      (Z.of_nat (length l1) + rest) length0 =
      nnd_read_loop hw null_cfg ma fr fuel w2 (buf + Z.of_nat (length l1))
        (s64 (C * 2 ^ b + Z.of_nat (length l1))) rest length0 /\
    quiet buf (Z.of_nat (length l1)) w w2 /\ text_at (ram w2) buf l1.
Proof.
  intros Hok Hns HB Htop Hng H1 Hr H3 Hmod H2 Ht Hlen Hc.
  pose proof block_size_small as Hbs. pose proof page_size_small as Hps.
  pose proof (geo_sizes _ _ _ geo). pose proof (pow_pos (b - k)) as Hpp. pose proof pow_split as Hsp.
  pose proof (ng_range _ _ _ _ _ Hng). pose proof (ng_top _ _ _ _ _ Hng).
  assert (HC : in_chip C) by (split; nia).
  cbn [nnd_read_loop]. unfold normal_config. rewrite (ok_en w Hok), (ok_cfg w Hok).
  change (at_cfg null_cfg (Some nc)) with nc. rewrite (geo_block _ _ _ geo), (s32_small (2 ^ b)) by lia.
  destruct (Z.eqb_spec (Z.of_nat (length l1) + rest) 0); [lia|].
  destruct (seek_good_spec 31 w top B C) as (w1 & -> & Q1); [done..|].
  unfold piece_len. rewrite in_block_start.
  replace (Z.min (2 ^ b) (Z.min (2 ^ b - 0) (Z.of_nat (length l1) + rest)))
    with (Z.of_nat (length l1)) by lia.
  assert (Hpg : Z.of_nat (length l1) = Z.of_nat (length l1) / 2 ^ k * 2 ^ k)
    by (pose proof (Z.div_mod (Z.of_nat (length l1)) (2 ^ k)); lia).
  set (np := Z.of_nat (length l1) / 2 ^ k) in *.
  pose proof (quiet_ok _ _ _ _ Hok Q1) as Hok1.
  destruct (read_block_spec w1 buf C np) as (w2 & E2 & Q2 & B2); try done.
  { rewrite (bad_same w w1) by apply Q1. apply Hng. }
  { split; [lia|]. nia. }
  { by rewrite <- Hpg. }
  rewrite <- Hpg in *. rewrite E2. destruct (Z.eqb_spec (Z.of_nat (length l1)) (-1)); [lia|].
  exists w2. rewrite s32_small by lia. split; [f_equal; lia|].
  split; [eapply quiet_trans; [exact Q1|exact Q2|lia..]|].
  unfold text_at. rewrite Nat2Z.id in B2. rewrite B2. etransitivity; [|exact Ht].
  apply bytes_at_ext. intros x _. by eapply flash_quiet.
Qed.

Lemma nnd_read_loop_spec top l fuel w B buf length0 :
  nand_ok w -> retry_family nc <> Some SanDisk -> 0 <= B -> top * 2 ^ (b - k) < 2 ^ 31 ->
  laid_out (bad w) (flash w) (2 ^ b) 31 top B l ->
  Z.of_nat (length l) mod 2 ^ k = 0 -> Z.of_nat (length l) < 2 ^ 31 ->
  clear buf (Z.of_nat (length l)) -> (length l <= fuel)%nat ->
  exists w', nnd_read_loop hw null_cfg ma fr fuel w buf (B * 2 ^ b) (Z.of_nat (length l)) length0 =
      Some (w', length0) /\
    quiet buf (Z.of_nat (length l)) w w' /\ text_at (ram w') buf l.
Proof.
  intros Hok Hns HB Htop. pose proof block_size_small as Hbs. pose proof page_size_small as Hps.
  pose proof (geo_sizes _ _ _ geo). pose proof (pow_pos (b - k)) as Hpp. pose proof pow_split as Hsp.
  assert (Hnil : forall fuel w buf start length0, nand_ok w ->
    exists w', nnd_read_loop hw null_cfg ma fr fuel w buf start 0 length0 = Some (w', length0) /\
      quiet buf 0 w w' /\ text_at (ram w') buf []).
  { intros f w0 bf st ln Hok0. exists w0. split; [by destruct f|]. split; [by apply quiet_refl|done]. }
  revert B fuel w buf Hok HB. induction l as [l IH] using (induction_ltof1 _ (@length Z)).
  unfold ltof in IH. intros B fuel w buf Hok HB Hl Hmod Hlen Hc Hf.
  destruct (Nat.eq_dec (length l) 0) as [Hz|Hz]; [apply nil_length_inv in Hz as ->; by apply Hnil|].
  destruct fuel as [|fuel]; [lia|].
  destruct (laid_out_first _ _ (2 ^ b) _ _ _ _ ltac:(lia) Hl) as (C & l1 & l2 & -> & Hng & H1 & H2 & H3 & Ht & Hr);
    [lia|].
  rewrite length_app in *. rewrite Nat2Z.inj_add in *. pose proof (ng_range _ _ _ _ _ Hng).
  pose proof (ng_top _ _ _ _ _ Hng).
  assert (Hm1 : Z.of_nat (length l1) mod 2 ^ k = 0).
  { destruct H2 as [E|E]; [by rewrite E, Z.add_0_r in Hmod|]. rewrite E, Hsp. apply Z.mod_mul. lia. }
  assert (Hm2 : Z.of_nat (length l2) mod 2 ^ k = 0).
  { rewrite Z.add_mod, Hm1, Z.add_0_l, Z.mod_mod in Hmod by lia. done. }
  destruct (nnd_read_step top fuel w B C buf l1 (Z.of_nat (length l2)) length0) as (w2 & -> & Q2 & T2);
    try done; try lia. { eapply clear_sub; [exact Hc|lia..]. }
  pose proof (quiet_ok _ _ _ _ Hok Q2) as Hok2.
  assert (exists w3, nnd_read_loop hw null_cfg ma fr fuel w2 (buf + Z.of_nat (length l1))
      (s64 (C * 2 ^ b + Z.of_nat (length l1))) (Z.of_nat (length l2)) length0 = Some (w3, length0) /\
      quiet (buf + Z.of_nat (length l1)) (Z.of_nat (length l2)) w2 w3 /\
      text_at (ram w3) (buf + Z.of_nat (length l1)) l2) as (w3 & E3 & Q3 & T3).
  { destruct H2 as [E|E]; [rewrite E; apply nil_length_inv in E as ->; by apply Hnil|].
    assert (0 <= C * 2 ^ b < 2 ^ 61).
    { split; [nia|]. rewrite Hsp. change (2 ^ 61) with (2 ^ 31 * 2 ^ 30).
      assert (C * 2 ^ (b - k) < 2 ^ 31) by nia. nia. }
    replace (s64 (C * 2 ^ b + Z.of_nat (length l1))) with ((C + 1) * 2 ^ b) by (rewrite E; words).
    apply IH; try done; try lia.
    - eapply laid_out_ext; [| |exact Hr]; [intros X; apply bad_same; apply Q2|].
      intros x. by eapply flash_quiet.
    - eapply clear_sub; [exact Hc|lia..]. }
  exists w3. split; [done|]. split; [eapply quiet_trans; [exact Q2|exact Q3|lia..]|].
  rewrite text_at_app. split; [|done]. eapply text_at_same; [|exact T2].
  intros q Hq. apply (quiet_ram _ _ _ _ Q3); [lia|apply Hc; lia].
Qed.

(** A text that lies on the chip from block [B] on is what "nnd" reads. *)
Lemma nnd_read_spec top l w B buf extra :
  nand_ok w -> retry_family nc <> Some SanDisk -> 0 <= B -> top * 2 ^ (b - k) < 2 ^ 31 ->
  laid_out (bad w) (flash w) (2 ^ b) 31 top B l ->
  Z.of_nat (length l) mod 2 ^ k = 0 -> Z.of_nat (length l) < 2 ^ 31 ->
  clear buf (Z.of_nat (length l)) ->
  exists w', nnd_vs_read hw null_cfg ma fr w buf (B * 2 ^ b) (Z.of_nat (length l)) extra =
      (w', Z.of_nat (length l)) /\
    quiet buf (Z.of_nat (length l)) w w' /\ text_at (ram w') buf l.
Proof.
  intros Hok Hns HB Htop Hl Hmod Hlen Hc. unfold nnd_vs_read.
  destruct (nnd_read_loop_spec top l (S (Z.to_nat (Z.of_nat (length l)))) w B buf
    (Z.of_nat (length l)) Hok Hns HB Htop Hl Hmod Hlen Hc) as (w' & -> & Q & T); [lia|].
  by exists w'.
Qed.
End Chip.

(** ** A chip in software *)

Definition resize (n : nat) (l : list Z) : list Z := take n (l ++ replicate n 0).

Lemma length_resize n l : length (resize n l) = n.
Proof. unfold resize. rewrite length_take, length_app, length_replicate. lia. Qed.

Lemma nth_resize n l : (0 < n)%nat -> nth 0 (resize n l) 0 = nth 0 l 0.
Proof. intros. unfold resize. destruct n; [lia|]. by destruct l. Qed.

(** The pages by row; [ppb] pages to a block. *)
Definition soft_chip (ppb : Z) : nand_hw (Z -> page) := {|
  nf2_page_op := fun c m op =>
    let spare := Z.to_nat (4 + sysinfo_num op) in
    let rs := Z.to_nat (ch1_len op) in
    let put p := (fun q => if q =? row_addr op then p else c q, m, PageRes 0 0 0) in
    if (trans_dir op =? 1) && (page_mode op =? 0)
    then put (Programmed (bytes_at m (ch0_adr op) (Z.to_nat (page_num op)))
                         (bytes_at m (ch1_adr op) rs))
    else if trans_dir op =? 1 then put Marked
    else if page_mode op =? 0 then
      match c (row_addr op) with
      | Programmed main r => (c, store (store m (ch0_adr op) main) (ch1_adr op) r, PageRes 0 0 0)
      | Erased | Marked =>
          (c, store (store m (ch0_adr op) (replicate (Z.to_nat (page_num op)) 0xff))
                (ch1_adr op) (replicate rs 0xff), PageRes 0 1 1)
      end
    else
      match c (row_addr op) with
      | Programmed _ r => (c, store m (ch0_adr op) (resize spare r), PageRes 0 0 0)
      | Erased => (c, store m (ch0_adr op) (replicate spare 0xff), PageRes 0 0 0)
      | Marked => (c, store m (ch0_adr op) (replicate spare 0), PageRes 0 0 1)
      end;
  nf2_erase := fun c _ row _ => (fun q => if (row <=? q) && (q <? row + ppb) then Erased else c q, 0);
  imap_set_retry_param := fun c _ _ => c
|}.

#[export] Instance soft_chip_ok nc k b (geo : geometry nc k b) :
  NandChip (soft_chip (pagesperblock nc)) nc (fun c => c).
Proof.
  pose proof (geo_spare _ _ _ geo) as Hs. unfold rsvd_size.
  assert (Hu : u32 (4 + sysinfosize nc) = 4 + sysinfosize nc) by (apply u32_small; lia).
  assert (Hn : (1 < Z.to_nat (4 + sysinfosize nc))%nat) by lia.
  split; cbn.
  - intros c m row buf rsvd _. rewrite Hu. by do 3 eexists.
  - intros c m row buf rsvd main rs E. rewrite E. by eexists.
  - intros c m row buf rsvd E. rewrite E, Hu. do 4 eexists. split; [done|].
    rewrite !length_replicate. split_and!; try done.
    destruct (Z.to_nat (4 + sysinfosize nc)) as [|[|n]]; [lia..|done].
  - intros c m row buf. destruct (c row) as [|main r|]; do 3 eexists; (split; [done|]);
      rewrite ?length_replicate, ?length_resize; split_and!; try done;
      destruct (Z.to_nat (4 + sysinfosize nc)) as [|n]; done || lia.
  - intros c m row buf. destruct (c row) as [|main r|]; do 3 eexists; (split; [done|]);
      rewrite ?length_replicate, ?length_resize; split_and!; try done.
    + intros main' rs' [= <- <-]. split; [done|]. apply nth_resize. lia.
    + intros _. by left.
  - intros c m row buf _ _. by do 2 eexists.
  - intros c row _ _. by eexists.
  - done.
Qed.

(** ** A sample chip: pages of 8 KiB, blocks of 2 MiB *)

Definition sample_nand (retry p0 : Z) : nand_config :=
  NandConfig 0 5 15 1 1 8 255 0 16 0x2000 0x200000 256 retry 6 p0 20 [].

Lemma sample_geometry retry p0 : geometry (sample_nand retry p0) 13 21.
Proof. split; vm_compute; intuition congruence. Qed.

Definition sample_devices (retry p0 : Z) (c : Z -> page) : devices (Z -> page) unit :=
  Devices c true true 3 10 13 (sample_nand retry p0) (sample_nand retry p0) 0 0 tt.

(** The RAM disk of [VStorage.sample_drivers], for these devices. *)
Definition nand_sample_drivers : drivers (devices (Z -> page) unit) :=
  Drivers _ (fun _ => ram_vs_align) (fun _ => ram_vs_read) (fun _ => ram_vs_write)
    (fun _ => ram_vs_reset) (fun _ w _ _ => (w, 0)) (fun _ w _ _ => (w, 0))
    (fun _ w _ => (w, 0)) (fun _ w => (w, 0)) (fun w _ => (w, 0x100000)) (fun w _ => w).

#[export] Instance nand_sample_heap : Heap nand_sample_drivers 0x100000 0x100000.
Proof.
  split; [lia| |done].
  intros w n w' p Hn [= <- <-]. split_and!; [done|lia|lia|done|done].
Qed.

Definition sample_nand_world (retry p0 : Z) (c : Z -> page) : world (devices (Z -> page) unit) :=
  World (fun _ => 0) (sample_devices retry p0 c).

(** A chip whose only mark is on page [q]. *)
Definition one_mark (q r : Z) : page := if r =? q then Marked else Erased.

Lemma sample_nand_ok retry p0 q :
  q mod 256 = 255 \/ q mod 256 = 0 ->
  nand_ok (H := Z -> page) (sample_nand retry p0) 13 21 (fun c => c)
    (sample_nand_world retry p0 (one_mark q)).
Proof.
  intros Hq. split; try done.
  - intros row main rs. unfold pages, one_mark. cbn. by destruct (row =? q).
  - intros row. unfold pages, one_mark. cbn. destruct (Z.eqb_spec row q) as [->|]; [|done].
    intros _. change (2 ^ (21 - 13)) with 256. done.
Qed.

Lemma nnd_vs_isbad_correct_witness :
  let w := sample_nand_world 1 0x55 (one_mark 511) in
  exists w' v,
    isbad_run (soft_chip 256) (malloc nand_sample_drivers) (free nand_sample_drivers)
      (isbad_fuel w) w 0x200123 = Some (w', v) /\
    quiet (sample_nand 1 0x55) (fun c => c) 0x100000 0x100000 0 0 w w' /\ (v = 0 \/ v = 1) /\
    (v = 1 <-> bad_block (sample_nand 1 0x55) 13 21 (fun c => c) w 0x200123).
Proof.
  apply (nnd_vs_isbad_correct (soft_chip 256) nand_sample_drivers (sample_nand 1 0x55) 13 21
    (fun c => c) 0x100000 0x100000 (NC := soft_chip_ok _ _ _ (sample_geometry 1 0x55))).
  - apply sample_geometry.
  - apply sample_nand_ok. by left.
  - vm_compute. congruence.
  - done.
Defined.

Lemma nnd_vs_isbad_hangs_witness :
  isbad_run (soft_chip 256) (malloc nand_sample_drivers) (free nand_sample_drivers) 1000
    (sample_nand_world 1 0x95 (one_mark 256)) 0x200123 = None.
Proof.
  apply (nnd_vs_isbad_hangs (soft_chip 256) nand_sample_drivers (sample_nand 1 0x95) 13 21
    (fun c => c) 0x100000 0x100000 (NC := soft_chip_ok _ _ _ (sample_geometry 1 0x95))).
  - apply sample_geometry.
  - apply sample_nand_ok. by right.
  - reflexivity.
  - vm_compute. congruence.
  - vm_compute. congruence.
  - done.
  - vm_compute. congruence.
  - reflexivity.
Defined.
