(* ===== verification/Burn.v ===== *)
(** * Burn: infotm/strategy/burn/burn.c, burning the images of a package

    [burn] searches the devices that can hold a package, [burn_images] goes
    through the descriptors of a package that was found, [burn_image_loop]
    copies one image from the source device to its target, step by step,
    skipping bad blocks on the NAND views and encrypting boot images that ask
    for it.

    The devices are those of [VStorage], with the NAND drivers of [Nand]
    below "bnd", "nnd" and "fnd".  [burn_extra] (images for file systems) and
    [cdbg_jump] are parameters. *)

From S2P Require Import Prelude Mem CString VStorage Secure Image Nand.
Local Open Scope Z_scope.

Definition EFAILED := 1.
Definition EACCESS := 3.
Definition ENOCFG := 52.
Definition EBADBLK := 53.

Definition IR_MAX_BUFFER := 0x4000.
(** [BL_SIZE_FIXED] (bootlist.h). *)
Definition BL_SIZE_FIXED := 0x8000.
Definition BOOT_FACTORY_INIT := 1.

(** What the burner works on: the memory and the devices, [vs_current], the
    security drivers, the statics of debug.c, and the boot type in the
    environment. *)
Record station (D E : Type) := Station {
  wd : world D;
  cur : option (vstorage D);
  sec : secure E;
  dbg : Cdbg.cdbg;
  boottype : Z
}.
Arguments Station {D E}. Arguments wd {D E}. Arguments cur {D E}. Arguments sec {D E}.
Arguments dbg {D E}. Arguments boottype {D E}.

Section Burn.
Context {H R E : Type} (hw : nand_hw H) (null_cfg : nand_config) (eng : engine E).
Context (dr0 : drivers (devices H R)) (CONFIG_ENABLE_UDISK : bool).
Context (__irom_ver : list Z).
(** The addresses of the locals of the checks and of the NAND drivers. *)
Context (sp sg spn : Z).
Abbreviation D := (devices H R).
Abbreviation station := (station D E).
Abbreviation dr := (nand_drivers hw null_cfg spn dr0).
Implicit Type st : station.

Context (burn_extra : station -> Z -> Z -> option station).
Context (cdbg_jump : station -> Z -> option station).

Definition set_wd st w : station := Station w (cur st) (sec st) (dbg st) (boottype st).
Definition set_sec st s m : station :=
  Station (World m (dev (wd st))) (cur st) s (dbg st) (boottype st).
Definition set_dbg st c : station := Station (wd st) (cur st) (sec st) c (boottype st).

(** The calls of vstorage.c, on the current device. *)
Definition assign_id st (id reset : Z) : station * Z :=
  let '(p, w, r) := vs_assign_by_id dr CONFIG_ENABLE_UDISK (wd st) id reset in
  (Station w p (sec st) (dbg st) (boottype st), r).
Definition do_read st (buf offs len extra : Z) : option (station * Z) :=
  '(w, r) ← vs_read dr CONFIG_ENABLE_UDISK (cur st) (wd st) buf offs len extra;
  Some (set_wd st w, r).
Definition do_write st (buf offs len : Z) : station :=
  set_wd st (vs_write (cur st) (wd st) buf offs len 0).1.
Definition do_erase st (offs len : Z) : station :=
  set_wd st (vs_erase (cur st) (wd st) offs len).1.
Definition do_isbad st (offs : Z) : station * bool :=
  let '(w, r) := vs_isbad (cur st) (wd st) offs in (set_wd st w, negb (r =? 0)).
Definition is_device st (id : Z) (nm : list Z) : bool :=
  negb (vs_is_device dr CONFIG_ENABLE_UDISK (cur st) id nm =? 0).

Definition load st : mem := ram (wd st).

(** The variables of the loop. *)
Record progress := Progress {
  p_buf : Z; offs_i : Z; offs_o : Z; remain : Z; leeway : Z
}.

(** What does not change in the loop: the type of the image, the devices,
    the channel, the size of a step, the size of a NAND block or 0, whether
    the data is encrypted. *)
Record job := Job {
  itype : Z; id_i : Z; id_o : Z; channel : Z; step : Z; skip : Z; encrypt : bool
}.

Definition is_fnd (j : job) : bool := itype j =? Ius.IUS_DESC_STNF.

(** [for(; vs_isbad(offs_o); )]: the result tells whether a good block was
    found. *)
Fixpoint skip_bad (fuel : nat) st (skip offs_o leeway : Z) : option (station * option (Z * Z)) :=
  match fuel with
  | O => None
  | S fuel =>
      let '(st, bad) := do_isbad st offs_o in
      if bad : bool then
        if skip <? leeway then skip_bad fuel st skip (s64 (offs_o + skip)) (s32 (leeway - skip))
        else Some (st, None)
      else Some (st, Some (offs_o, leeway))
  end.

(** One turn of the loop: [inl] is the error it returns with. *)
Definition burn_step (j : job) st (p : progress) : option (station * (Z + progress)) :=
  let unit w := if is_fnd j then fnd_align w else step j in
  let '(st, _) := assign_id st (id_i j) 0 in
  '(st, _) ← do_read st (p_buf p) (offs_i p) (s32 (unit (wd st))) (channel j);
  let st := if encrypt j
            then let '(s, m, _) := ss_aes_data eng (sec st) (load st) (p_buf p) (p_buf p) (step j) in
                 set_sec st s m
            else st in
  let '(st, ret) := assign_id st (id_o j) 0 in
  '(st, place) ←
    (if ret =? 0 then
       '(st, place) ←
         (if negb (skip j =? 0) && (Z.land (offs_o p) (skip j - 1) =? 0)
          then skip_bad (S (Z.to_nat (leeway p))) st (skip j) (offs_o p) (leeway p)
          else Some (st, Some (offs_o p, leeway p)));
       match place with
       | None => Some (st, None)
       | Some (offs_o, leeway) =>
           Some (do_write st (p_buf p) offs_o (s32 (unit (wd st))), Some (offs_o, leeway))
       end
     else Some (st, Some (offs_o p, leeway p)));
  match place with
  | None => Some (st, inl (- EBADBLK))
  | Some (offs_o, leeway) =>
      Some (st, inr (Progress
        (if itype j =? Ius.IUS_DESC_EXEC then p_buf p + step j else p_buf p)
        (s64 (offs_i p + unit (wd st))) (s64 (offs_o + step j))
        (u32 (remain p - Z.min (remain p) (step j))) leeway))
  end.

(** [while(remain > 0)] *)
Fixpoint burn_loop (fuel : nat) (j : job) st (p : progress) : option (station * Z) :=
  if remain p <=? 0 then Some (st, 0) else
  match fuel with
  | O => None
  | S fuel =>
      '(st, r) ← burn_step j st p;
      match r with
      | inl err => Some (st, err)
      | inr p => burn_loop fuel j st p
      end
  end.

(** The block size of the NAND view [id_o], 0 for other devices; [None] is
    the missing configuration.  A boot image is at least 32 KiB long. *)
Definition nand_skip st (id_o length remain : Z) : option Z * Z :=
  if is_device st id_o n_nnd || is_device st id_o n_fnd || is_device st id_o n_bnd then
    if is_device st id_o n_bnd
    then (s32 ∘ blocksize <$> boot_config (wd st), if length <? BL_SIZE_FIXED then BL_SIZE_FIXED else remain)
    else (s32 ∘ blocksize <$> normal_config (wd st), remain)
  else (Some 0, remain).

(** Whether a boot image asks for encryption, which is then set up. *)
Definition burn_encrypt st (type offs_i channel buf : Z) : option (station * bool) :=
  if (type =? Ius.IUS_DESC_STNB) || (type =? Ius.IUS_DESC_STRW) then
    '(st, _) ← do_read st buf offs_i Isi.ISI_SIZE channel;
    let '(s, m, r) := Isi.isi_check_header eng sp (sec st) (load st) buf in
    let st := set_sec st s m in
    if (r =? 0) && Isi.isi_is_secure (load st) buf then
      let '(s, _) := ss_aes_init eng (sec st) ENCRYPTION None __irom_ver in
      Some (set_sec st s (load st), true)
    else Some (st, false)
  else Some (st, false).

Definition burn_image_loop (fuel : nat) st (desc id_i channel id_o max buf : Z)
    : option (station * Z) :=
  if buf =? NULL then None else
  if id_i =? id_o then Some (st, -2) else
  let offs_i := Ius.ius_desc_offi (load st) desc in
  let offs_o := Ius.ius_desc_offo (load st) desc in
  let type := Ius.ius_desc_type (load st) desc in
  let length := Ius.ius_desc_length (load st) desc in
  let st := if negb (vs_device_erasable dr CONFIG_ENABLE_UDISK id_o =? 0)
            then do_erase (assign_id st id_o 0).1 offs_o max else st in
  let '(st, _) := assign_id st id_i 0 in
  '(st, encrypt) ← burn_encrypt st type offs_i channel buf;
  let fnd := type =? Ius.IUS_DESC_STNF in
  let '(w, align) := if fnd then vs_align dr CONFIG_ENABLE_UDISK (cur st) (wd st) id_o
                     else (wd st, IR_MAX_BUFFER) in
  let st := set_wd st w in
  let step := u32 align in
  let remain := if fnd then fnd_size_shrink (wd st) length else length in
  if fnd && negb (fnd_size_match (wd st) length) then Some (st, -1) else
  match nand_skip st id_o length remain with
  | (None, _) => Some (st, - ENOCFG)
  | (Some skip, remain) =>
      burn_loop fuel (Job type id_i id_o channel step skip encrypt) st
        (Progress buf offs_i offs_o remain (s32 (max - remain)))
  end.

(** ** The images of a package *)

(** The target of an image, [None] for those that [burn_extra] handles. *)
Definition image_target (m : mem) (desc type : Z) : option Z :=
  let dev_id := vs_device_id dr CONFIG_ENABLE_UDISK in
  if type =? Ius.IUS_DESC_STNB then Some (dev_id n_bnd)
  else if type =? Ius.IUS_DESC_STNR then Some (dev_id n_nnd)
  else if type =? Ius.IUS_DESC_STNF then Some (dev_id n_fnd)
  else if type =? Ius.IUS_DESC_STRW then Some (Ius.ius_desc_id m desc)
  else if (type =? Ius.IUS_DESC_EXEC) || (type =? Ius.IUS_DESC_CFG) then Some DEV_NONE
  else None.

(** One turn of the loop of [burn_images]: [inl] ends it with an error. *)
Definition burn_image (fuel : nat) st (hdr i id channel buf : Z) : option (station * option Z) :=
  let desc := Ius.ius_get_desc hdr i in
  let m := load st in
  let type := Ius.ius_desc_type m desc in
  let max := Ius.ius_desc_maxsize m desc in
  if negb (Ius.ius_desc_mask m desc =? 1) then Some (st, None) else
  match image_target m desc type with
  | None => st ← burn_extra st desc id; Some (st, None)
  | Some ido =>
      let target := if type =? Ius.IUS_DESC_EXEC then Ius.ius_desc_load m desc else buf in
      let '(st, r) := if negb (ido =? DEV_NONE) then assign_id st ido 1 else (st, 0) in
      if negb (r =? 0) then Some (st, Some (- EACCESS)) else
      '(st, r) ← burn_image_loop fuel st desc id channel ido max target;
      if r <? 0 then Some (st, Some (- EFAILED)) else
      st ← (if type =? Ius.IUS_DESC_EXEC
            then cdbg_jump st (Ius.ius_desc_entry (load st) desc) else Some st);
      if type =? Ius.IUS_DESC_CFG then
        let '(s, m, c, _) := Cdbg.cdbg_config_isi eng sp sg (sec st) (load st) (dbg st) buf in
        Some (set_dbg (set_sec st s m) c, None)
      else Some (st, None)
  end.

Fixpoint images_loop (n : nat) (fuel : nat) st (hdr i id channel buf : Z) : option (station * Z) :=
  match n with
  | O => Some (st, 0)
  | S n =>
      '(st, r) ← burn_image fuel st hdr i id channel buf;
      match r with
      | Some err => Some (st, err)
      | None => images_loop n fuel st hdr (i + 1) id channel buf
      end
  end.

Definition burn_images (fuel : nat) st (hdr id channel : Z) : option (station * Z) :=
  let count := s32 (Ius.ius_get_count (load st) hdr) in
  let '(w, buf) := malloc dr (wd st) IR_MAX_BUFFER in
  let st := set_wd st w in
  if buf =? NULL then Some (st, -1) else
  '(st, ret) ← images_loop (Z.to_nat count) fuel st hdr 0 id channel buf;
  Some (set_wd st (free dr (wd st) buf), ret).

(** ** Searching for a package *)

Inductive found := Package (id : Z) | Finished | Nothing.

Definition verified st (hdr : Z) : station * bool :=
  let '(s, m, r) := Ius.ius_check_header eng sp (Cdbg.cdbg_verify_burn (dbg st))
    (Cdbg.cdbg_verify_burn_key (dbg st)) __irom_ver (sec st) (load st) hdr in
  (set_sec st s m, r =? 0).

(** Reading and checking the header on the device just assigned. *)
Definition probe st (ius id : Z) : option (station * bool) :=
  '(st, _) ← do_read st ius Ius.IUS_DEFAULT_LOCATION Ius.ius_hdr_size 0;
  Some (verified st ius).

Fixpoint burn_search (n : nat) st (mask ius id : Z) : option (station * found) :=
  match n with
  | O => Some (st, Nothing)
  | S n =>
      let next st := burn_search n st mask ius (id + 1) in
      if vs_device_burnsrc dr CONFIG_ENABLE_UDISK id =? 0 then next st else
      if negb (Z.land mask (Z.shiftl 1 id) =? 0) then next st else
      if is_device st id n_eth || is_device st id n_udc then
        let '(st, r) := assign_id st id 0 in
        if r =? 0 then
          let '(w, r) := vs_special (cur st) (wd st) NULL in
          let st := set_wd st w in
          if r =? 0 then Some (st, Finished) else next st
        else next st
      else
        let '(st, r) := assign_id st id 1 in
        if negb (r =? 0) then next st else
        '(st, ok) ← probe st ius id;
        if ok : bool then Some (st, Package id) else next st
  end.

Definition finish st (ius : Z) : station :=
  Station (free dr (wd st) ius) (cur st) (sec st) (dbg st) BOOT_FACTORY_INIT.

Definition burn (fuel : nat) st (mask : Z) : option (station * Z) :=
  let '(w, ius) := malloc dr (wd st) Ius.ius_hdr_size in
  let st := set_wd st w in
  if ius =? NULL then Some (st, -1) else
  '(st, r) ← burn_search (Z.to_nat (vs_device_count dr CONFIG_ENABLE_UDISK)) st mask ius 0;
  match r with
  | Nothing => Some (set_wd st (free dr (wd st) ius), -1)
  | Finished => Some (finish st ius, 0)
  | Package id =>
      let st := set_dbg st (Cdbg.cdbg_verify_burn_enable (dbg st) false []) in
      '(st, _) ← burn_images fuel st ius id 0;
      Some (finish st ius, 0)
  end.

(** ** What a search finds *)

(** C38: the search ends in a package to burn only at a device of the table
    that is a burn source and is not masked out, whose reset reported no
    error, and whose header, as it was read to [ius], passed
    [ius_check_header] in the state in which the search ends. *)
Theorem burn_search_sound n st mask ius id st' found_id :
  burn_search n st mask ius id = Some (st', Package found_id) ->
  id <= found_id < id + Z.of_nat n /\
  vs_device_burnsrc dr CONFIG_ENABLE_UDISK found_id = 1 /\ Z.land mask (Z.shiftl 1 found_id) = 0 /\
  exists st0 st1 st2 rd, assign_id st0 found_id 1 = (st1, 0) /\
    do_read st1 ius Ius.IUS_DEFAULT_LOCATION Ius.ius_hdr_size 0 = Some (st2, rd) /\
    verified st2 ius = (st', true).
Proof.
  revert st id. induction n as [|n IH]; intros st id; [done|]. cbn [burn_search].
  assert (Hnext : forall st, burn_search n st mask ius (id + 1) = Some (st', Package found_id) ->
    id <= found_id < id + Z.of_nat (S n) /\
    vs_device_burnsrc dr CONFIG_ENABLE_UDISK found_id = 1 /\ Z.land mask (Z.shiftl 1 found_id) = 0 /\
    exists st0 st1 st2 rd, assign_id st0 found_id 1 = (st1, 0) /\
      do_read st1 ius Ius.IUS_DEFAULT_LOCATION Ius.ius_hdr_size 0 = Some (st2, rd) /\
      verified st2 ius = (st', true)).
  { intros st1 E1. apply IH in E1 as [? E1]. split; [lia|exact E1]. }
  destruct (Z.eqb_spec (vs_device_burnsrc dr CONFIG_ENABLE_UDISK id) 0) as [|Hsrc]; [by apply Hnext|].
  destruct (Z.eqb_spec (Z.land mask (Z.shiftl 1 id)) 0) as [Hmask|]; [cbn [negb]|by apply Hnext].
  destruct (is_device st id n_eth || is_device st id n_udc).
  { destruct (assign_id st id 0) as [st1 r1]. destruct (r1 =? 0); [|by apply Hnext].
    destruct (vs_special _ _ _) as [w r]. destruct (r =? 0); [done|by apply Hnext]. }
  destruct (assign_id st id 1) as [st1 r1] eqn:Ea.
  destruct (Z.eqb_spec r1 0) as [->|]; cbn [negb]; [|by apply Hnext].
  unfold probe. destruct (do_read st1 ius _ _ 0) as [[st2 rd]|] eqn:Er; cbn [mbind option_bind]; [|done].
  destruct (verified st2 ius) as [st3 ok] eqn:Ev. destruct ok; [|by apply Hnext].
  intros [= -> ->]. split; [lia|]. split; [|split; [done|by exists st, st1, st2, rd]].
  revert Hsrc. unfold vs_device_burnsrc, vs_flag. destruct (id_valid _ _ found_id); [|done].
  destruct (entry _ _ found_id) as [p|]; [|done]. by destruct (negb _).
Qed.
End Burn.

(** ** Burning to "nnd" *)

Section Count.
Context (bad : Z -> bool) (top : Z).

Lemma count_bad_good B n :
  count_bad bad B n < Z.of_nat n -> top = B + Z.of_nat n ->
  exists C, next_good bad (count_bad bad B n) top B C.
Proof.
  revert B. induction n as [|n IH]; intros B Hc Ht; simpl in *; [lia|].
  pose proof (count_bad_range bad (B + 1) n).
  destruct (bad B) eqn:Hb; simpl b2z in *.
  - destruct (IH (B + 1)) as [C [H1 H2 H3 H4]]; [lia|lia|]. exists C. split; [lia|done|done|].
    intros X HX. destruct (decide (X = B)) as [->|]; [done|]. apply H4. lia.
  - exists B. split; [lia|lia|done|lia].
Qed.

(** The bad blocks before the good one are those that are counted first. *)
Lemma count_bad_skip most B C n :
  next_good bad most top B C -> top = B + Z.of_nat n ->
  count_bad bad B n = (C - B) + count_bad bad (C + 1) (Z.to_nat (top - C - 1)).
Proof.
  revert B. induction n as [|n IH]; intros B [H1 H2 H3 H4] Ht; simpl; [lia|].
  destruct (decide (C = B)) as [->|Hne].
  - rewrite H3. simpl b2z. replace (Z.to_nat (top - B - 1)) with n by lia. lia.
  - rewrite H4 by lia. simpl b2z. rewrite (IH (B + 1)); [lia| |lia].
    split; [lia|done|done|]. intros X HX. apply H4. lia.
Qed.
End Count.

Section ToNand.
Context {H R E : Type} (hw : nand_hw H) (null_cfg : nand_config) (eng : engine E).
Context (dr0 : drivers (devices H R)) (udisk : bool) (irom : list Z) (sp sg spn : Z).
Context (nc : nand_config) (k b : Z) (pg : H -> Z -> page) (h hn : Z).
Context `{NC : !NandChip hw nc pg} `{HP : !Heap dr0 h hn} (geo : geometry nc k b).
Context (Hns : retry_family nc <> Some SanDisk).
(** A step is a whole number of pages, a block a whole number of steps. *)
Context (Hk : k <= 14) (Hb : 14 <= b).
Abbreviation D := (devices H R).
Abbreviation station := (station D E).
Abbreviation dr := (nand_drivers hw null_cfg spn dr0).
Abbreviation nand_ok := (nand_ok nc k b pg).
Abbreviation pages := (pages pg).
Abbreviation bad := (bad nc k b pg).
Abbreviation flash := (flash k pg).
Abbreviation ram_frame := (ram_frame h hn).
Abbreviation clear := (clear h hn).
Abbreviation quiet := (quiet nc pg h hn).
Implicit Type w : world D.
Implicit Type st : station.

(** The entry of "nnd" in the table. *)
Definition nnd_entry : vstorage D :=
  VS n_nnd (Z.lor (Z.lor DEVICE_BURNDST (DEVICE_ID DEV_NAND)) DEVICE_ERASABLE)
    (Some nnd_vs_align) (Some (nnd_vs_read hw null_cfg (malloc dr0) (free dr0)))
    (Some (nnd_vs_write hw null_cfg (malloc dr0) (free dr0)))
    (Some (vs_reset_of dr0 d_nnd)) (Some (nnd_vs_erase hw (malloc dr0) (free dr0)))
    (Some (nnd_vs_scrub hw (malloc dr0) (free dr0)))
    (Some (nnd_vs_isbad hw (malloc dr0) (free dr0))) None None.

Lemma entry_nnd : entry dr udisk DEV_NAND = Some nnd_entry.
Proof. done. Qed.

Lemma assign_nnd st :
  assign_id hw null_cfg dr0 udisk spn st DEV_NAND 0 =
    (Station (wd st) (Some nnd_entry) (sec st) (dbg st) (boottype st), 0).
Proof. done. Qed.

(** What the burner relies on of the device the package is on: it shows the
    bytes [image] at the offsets from [lo] to [hi], as long as [inv] holds,
    which neither the buffer nor the NAND drivers can break. *)
Class PackageSource (id : Z) (image : mem) (lo hi buf : Z) (inv : world D -> Prop) : Prop := {
  src_id : 0 <= id < 14 /\ id <> DEV_NAND;
  src_range : 0 <= lo /\ hi < 2 ^ 62;
  src_buf : clear buf IR_MAX_BUFFER;
  src_read w offs len ch :
    inv w -> nand_ok w -> lo <= offs -> offs + len <= hi -> offs mod 512 = 0 ->
    0 < len <= IR_MAX_BUFFER ->
    exists w' r, vs_read dr udisk (entry dr udisk id) w buf offs len ch = Some (w', r) /\
      bytes_at (ram w') buf (Z.to_nat len) = bytes_at image offs (Z.to_nat len) /\
      ram_frame buf len w w' /\ inv w' /\ nand_ok w' /\ (forall q, pages w' q = pages w q);
  src_keep w w' :
    inv w -> ram_frame buf IR_MAX_BUFFER w w' -> config_of w' = config_of w -> inv w'
}.

Lemma assign_source st id :
  0 <= id < 14 ->
  assign_id hw null_cfg dr0 udisk spn st id 0 =
    (Station (wd st) (entry dr udisk id) (sec st) (dbg st) (boottype st), 0).
Proof.
  intros Hid. unfold assign_id, vs_assign_by_id.
  assert (id_valid dr udisk id = true) as ->.
  { unfold id_valid. change (ARRAY_SIZE_vs_list dr udisk) with 14. lia. }
  done.
Qed.

(** *** Skipping bad blocks *)

Lemma isbad_nnd st B :
  nand_ok (wd st) -> cur st = Some nnd_entry -> in_chip k b B ->
  exists w', do_isbad st (B * 2 ^ b) = (set_wd st w', bad (wd st) B) /\ quiet 0 0 (wd st) w'.
Proof.
  intros Hok Hc HB.
  destruct (isbad_block hw dr0 nc k b pg h hn geo (wd st) B Hok Hns HB) as (w' & v & E1 & Q & Hv).
  exists w'. split; [|done]. unfold do_isbad, vs_isbad. rewrite Hc. cbn [isbad nnd_entry].
  rewrite E1. by rewrite Hv, negb_involutive.
Qed.

Lemma skip_bad_spec fuel top most st B C lee :
  nand_ok (wd st) -> cur st = Some nnd_entry -> 0 <= B -> top * 2 ^ (b - k) < 2 ^ 31 ->
  next_good (bad (wd st)) most top B C -> (C = B \/ (C - B) * 2 ^ b < lee) -> lee < 2 ^ 31 ->
  C - B < Z.of_nat fuel ->
  exists w', skip_bad fuel st (2 ^ b) (B * 2 ^ b) lee =
      Some (set_wd st w', Some (C * 2 ^ b, lee - (C - B) * 2 ^ b)) /\ quiet 0 0 (wd st) w'.
Proof.
  intros Hok Hc HB Htop. pose proof (block_size_small nc k b geo) as Hbs.
  pose proof (page_size_small nc k b geo) as Hps. pose proof (pow_split nc k b geo) as Hsp.
  pose proof (geo_sizes _ _ _ geo) as Hgs.
  assert (Hpp : 0 < 2 ^ (b - k)) by (apply Z.pow_pos_nonneg; lia).
  revert st B lee Hok Hc HB. induction fuel as [|fuel IH]; intros st B lee Hok Hc HB Hng Hl Hl2 Hf; [destruct Hng; lia|].
  pose proof (ng_range _ _ _ _ _ Hng) as Hr. pose proof (ng_top _ _ _ _ _ Hng).
  cbn [skip_bad]. destruct (isbad_nnd st B Hok Hc) as (w1 & -> & Q1); [split; [done|nia]|].
  destruct (decide (C = B)) as [->|Hne].
  - rewrite (ng_good _ _ _ _ _ Hng). exists w1. split; [|done].
    by replace (lee - (B - B) * 2 ^ b) with lee by lia.
  - rewrite (ng_skipped _ _ _ _ _ Hng) by lia.
    destruct Hl as [|Hl]; [done|]. destruct (Z.ltb_spec (2 ^ b) lee); [|nia].
    assert (Hsm : 0 <= (B + 1) * 2 ^ b < 2 ^ 62).
    { split; [nia|]. rewrite Hsp. change (2 ^ 62) with (2 ^ 31 * 2 ^ 31).
      assert ((B + 1) * 2 ^ (b - k) < 2 ^ 31) by nia. nia. }
    replace (s64 (B * 2 ^ b + 2 ^ b)) with ((B + 1) * 2 ^ b) by words.
    rewrite s32_small by lia.
    destruct (IH (set_wd st w1) (B + 1) (lee - 2 ^ b)) as (w2 & E2 & Q2); try done; try lia.
    { by eapply quiet_ok. }
    { apply (next_good_ext (bad (wd st))); [intros X; apply bad_same, Q1|].
      destruct Hng as [? ? ? Hsk]. split; [lia|done|done|]. intros X HX. apply Hsk. lia. }
    exists w2. split; [|by eapply quiet_join]. rewrite E2.
    by replace (lee - 2 ^ b - (C - (B + 1)) * 2 ^ b) with (lee - (C - B) * 2 ^ b) by lia.
Qed.

(** *** Where the next step goes *)

Definition next_block (o : Z) : Z := (o + 2 ^ b - 1) / 2 ^ b.

(** The bad blocks between the offset [o] and block [top] that have not been
    passed yet. *)
Definition bad_ahead w (top o : Z) : Z :=
  count_bad (bad w) (next_block o) (Z.to_nat (top - next_block o)).

(** The burner is at [o]: inside a good block or at the start of any; the
    good blocks up to [top] are erased. *)
Record at_pos (top : Z) w (o : Z) : Prop := {
  pos_range : 0 <= o;
  pos_step : o mod IR_MAX_BUFFER = 0;
  pos_block : o mod 2 ^ b = 0 \/ bad w (o / 2 ^ b) = false;
  pos_blank q : o <= q * 2 ^ k -> q * 2 ^ k < top * 2 ^ b ->
    bad w (q * 2 ^ k / 2 ^ b) = false -> pages w q = Erased
}.

(** Room for [n] steps, whatever blocks are bad. *)
Record room (top : Z) w (o n lee : Z) : Prop := {
  room_end : o + n * IR_MAX_BUFFER + bad_ahead w top o * 2 ^ b <= top * 2 ^ b;
  room_leeway : bad_ahead w top o = 0 \/ bad_ahead w top o * 2 ^ b < lee
}.

Lemma block_steps : 2 ^ b = 2 ^ (b - 14) * IR_MAX_BUFFER /\ 0 < 2 ^ (b - 14).
Proof.
  split; [|apply Z.pow_pos_nonneg; lia]. change IR_MAX_BUFFER with (2 ^ 14).
  rewrite <- Z.pow_add_r by lia. f_equal. lia.
Qed.

Lemma step_pages : IR_MAX_BUFFER = 2 ^ (14 - k) * 2 ^ k /\ 0 < 2 ^ (14 - k).
Proof.
  pose proof (geo_sizes _ _ _ geo). split; [|apply Z.pow_pos_nonneg; lia].
  change IR_MAX_BUFFER with (2 ^ 14). rewrite <- Z.pow_add_r by lia. f_equal. lia.
Qed.

(** Inside block [C], a step does not cross its end. *)
Lemma step_inside o :
  o mod IR_MAX_BUFFER = 0 -> o mod 2 ^ b + IR_MAX_BUFFER <= 2 ^ b.
Proof.
  intros Ho. destruct block_steps as [Hs Hp]. pose proof (block_size_small nc k b geo).
  pose proof (Z.mod_pos_bound o (2 ^ b)).
  assert ((o mod 2 ^ b) mod IR_MAX_BUFFER = 0) as Hm.
  { rewrite Hs, Z.mul_comm, Z.rem_mul_r by (unfold IR_MAX_BUFFER; lia). rewrite Ho, Z.add_0_l.
    rewrite Z.mul_comm, Z.mod_mul by (unfold IR_MAX_BUFFER; lia). done. }
  pose proof (Z.div_mod (o mod 2 ^ b) IR_MAX_BUFFER).
  assert (Hq : o mod 2 ^ b = o mod 2 ^ b / IR_MAX_BUFFER * IR_MAX_BUFFER) by (unfold IR_MAX_BUFFER in *; lia).
  assert (o mod 2 ^ b / IR_MAX_BUFFER < 2 ^ (b - 14)).
  { apply (Z.mul_lt_mono_pos_r IR_MAX_BUFFER); [unfold IR_MAX_BUFFER; lia|]. rewrite <- Hq, <- Hs. lia. }
  unfold IR_MAX_BUFFER in *. lia.
Qed.

Lemma next_block_after C r :
  0 < r <= 2 ^ b -> next_block (C * 2 ^ b + r) = C + 1.
Proof.
  intros Hr. unfold next_block. symmetry. apply (Z.div_unique_pos _ _ _ (r - 1)); lia.
Qed.

Lemma next_block_start B : next_block (B * 2 ^ b) = B.
Proof.
  pose proof (block_size_small nc k b geo).
  unfold next_block. symmetry. apply (Z.div_unique_pos _ _ _ (2 ^ b - 1)); lia.
Qed.

(** The place of the next step, [sk] bad blocks further on. *)
Lemma place_exists top w o n lee most :
  at_pos top w o -> room top w o n lee -> 1 <= n -> bad_ahead w top o <= most ->
  exists sk C, let o' := o + sk * 2 ^ b in
    0 <= sk /\ C = o' / 2 ^ b /\ C < top /\ bad w C = false /\
    (if decide (o mod 2 ^ b = 0)
     then next_good (bad w) most top (o / 2 ^ b) C /\ sk = C - o / 2 ^ b /\ o' = C * 2 ^ b
     else sk = 0) /\
    bad_ahead w top o = sk + bad_ahead w top (o' + IR_MAX_BUFFER).
Proof.
  intros [Ho Hst Hbl Hblank] [Hr1 Hr2] Hn Hmost.
  pose proof (block_size_small nc k b geo) as Hbs. pose proof (step_inside o Hst) as Hin.
  pose proof (Z.div_mod o (2 ^ b)) as Hdm. pose proof (Z.mod_pos_bound o (2 ^ b)) as Hmb.
  remember (o / 2 ^ b) as B eqn:HB.
  assert (Hstep : 0 < IR_MAX_BUFFER) by done.
  pose proof (count_bad_range (bad w) (next_block o) (Z.to_nat (top - next_block o))) as Hcr.
  fold (bad_ahead w top o) in Hcr. unfold IR_MAX_BUFFER in *.
  destruct (decide (o mod 2 ^ b = 0)) as [Hm|Hm].
  - assert (Hoo : o = B * 2 ^ b) by lia. clear HB Hdm. subst o. unfold bad_ahead in *. rewrite next_block_start in *.
    set (m := Z.to_nat (top - B)) in *.
    assert (HBt : count_bad (bad w) B m < top - B) by nia.
    destruct (count_bad_good (bad w) top B m) as [C HC]; [lia|lia|].
    pose proof (ng_range _ _ _ _ _ HC). pose proof (ng_top _ _ _ _ _ HC).
    exists (C - B), C. replace (B * 2 ^ b + (C - B) * 2 ^ b) with (C * 2 ^ b) by ring.
    rewrite !Z.div_mul by lia. split_and!; try done; try lia.
    + apply HC.
    + destruct HC. split; [lia|done..].
    + rewrite next_block_after by lia. rewrite (count_bad_skip _ top _ B C m HC) by lia.
      do 2 f_equal. lia.
  - exists 0, B. rewrite Z.mul_0_l, Z.add_0_r. destruct Hbl as [|Hbl]; [done|].
    assert (Hoo : o = B * 2 ^ b + o mod 2 ^ b) by lia.
    split_and!; try done.
    + assert (next_block o = B + 1) as Hnb by (rewrite Hoo at 1; apply next_block_after; lia).
      nia.
    + rewrite Z.add_0_l. unfold bad_ahead.
      assert (next_block o = B + 1) as -> by (rewrite Hoo at 1; apply next_block_after; lia).
      assert (next_block (o + 0x4000) = B + 1) as ->; [|done].
      rewrite Hoo at 1. rewrite <- Z.add_assoc. apply next_block_after. lia.
Qed.

(** *** One step *)

Context (id : Z) (image : mem) (lo hi buf : Z) (inv : world D -> Prop).
Context `{PS : !PackageSource id image lo hi buf inv}.

(** A job that copies from the package to "nnd" as it is. *)
Record nand_job (j : job) : Prop := {
  nj_fnd : is_fnd j = false;
  nj_exec : itype j <> Ius.IUS_DESC_EXEC;
  nj_in : id_i j = id;
  nj_out : id_o j = DEV_NAND;
  nj_step : step j = IR_MAX_BUFFER;
  nj_skip : skip j = 2 ^ b;
  nj_plain : encrypt j = false
}.

(** What one step leaves: its bytes at [o'], every other page as it was. *)
Record wrote w w' (offs o' : Z) : Prop := {
  wr_ok : nand_ok w';
  wr_inv : inv w';
  wr_bad X : bad w' X = bad w X;
  wr_text : bytes_at (flash w') o' (Z.to_nat IR_MAX_BUFFER) = bytes_at image offs (Z.to_nat IR_MAX_BUFFER);
  wr_out q : ~ o' <= q * 2 ^ k < o' + IR_MAX_BUFFER -> pages w' q = pages w q
}.

Lemma buffer_frame w w' : ram_frame 0 0 w w' -> ram_frame buf IR_MAX_BUFFER w w'.
Proof. intros Hf q Hq Hs. apply Hf; [lia|done]. Qed.

(** Only erased pages are written, which bear no mark. *)
Lemma programmed_bad w w' row n l :
  programmed nc k b pg h hn w w' row n l -> (forall q, row <= q < row + n -> pages w q = Erased) ->
  forall X, bad w' X = bad w X.
Proof.
  intros Hp He X. unfold Nand.bad.
  assert (Hq : forall q, is_marked (pages w' q) = is_marked (pages w q)).
  { intros q. destruct (decide (row <= q < row + n)) as [Hi|Ho].
    - destruct (prog_in _ _ _ _ _ _ _ _ _ _ _ Hp q Hi) as (main & rs & ->). by rewrite He.
    - by rewrite (prog_out _ _ _ _ _ _ _ _ _ _ _ Hp). }
  by rewrite !Hq.
Qed.

Lemma write_step w w1 st offs o' :
  nand_ok w -> inv w -> wd st = w1 -> cur st = Some nnd_entry ->
  nand_ok w1 -> inv w1 -> (forall q, pages w1 q = pages w q) ->
  bytes_at (ram w1) buf (Z.to_nat IR_MAX_BUFFER) = bytes_at image offs (Z.to_nat IR_MAX_BUFFER) ->
  0 <= o' -> o' mod IR_MAX_BUFFER = 0 -> o' / 2 ^ k + 2 ^ (14 - k) < 2 ^ 31 ->
  (forall q, o' <= q * 2 ^ k < o' + IR_MAX_BUFFER -> pages w q = Erased) ->
  exists w', do_write st buf o' IR_MAX_BUFFER = set_wd st w' /\ wrote w w' offs o'.
Proof.
  intros Hok Hi Hw Hcur Hok1 Hi1 Hpg Htext Ho Hm Hend Her. subst w1.
  destruct step_pages as [Hsp Hnp]. pose proof (page_size_small nc k b geo) as Hps.
  assert (Hrow : o' = o' / 2 ^ k * 2 ^ k).
  { pose proof (Z.div_mod o' IR_MAX_BUFFER). rewrite Hsp in *.
    assert (o' = o' / (2 ^ (14 - k) * 2 ^ k) * 2 ^ (14 - k) * 2 ^ k) as Heq by lia.
    rewrite Heq at 2. rewrite Z.div_mul by lia. done. }
  set (row := o' / 2 ^ k) in *.
  assert (Her' : forall q, row <= q < row + 2 ^ (14 - k) -> pages w q = Erased).
  { intros q Hq. apply Her. rewrite Hsp, Hrow. nia. }
  destruct (nnd_write_spec hw null_cfg dr0 nc k b pg h hn geo (wd st) buf row (2 ^ (14 - k)) 0 Hok1)
    as (w' & Ew & Hp).
  { apply Z.div_pos; lia. } { lia. } { done. } { by rewrite <- Hsp. }
  { intros q Hq. rewrite Hpg. by apply Her'. }
  { rewrite <- Hsp. apply PS. }
  rewrite <- Hrow, <- Hsp in Ew. exists w'. split.
  { unfold do_write, vs_write. rewrite Hcur. cbn [write nnd_entry]. by rewrite Ew. }
  split.
  - apply Hp.
  - apply (src_keep (wd st)); [done|apply buffer_frame, Hp|apply Hp].
  - intros X. rewrite <- (bad_same nc k b pg w (wd st)) by done.
    eapply programmed_bad; [exact Hp|]. intros q Hq. rewrite Hpg. by apply Her'.
  - pose proof (prog_text _ _ _ _ _ _ _ _ _ _ _ Hp) as Ht. rewrite <- Hrow, <- Hsp in Ht. congruence.
  - intros q Hq. rewrite (prog_out _ _ _ _ _ _ _ _ _ _ _ Hp), Hpg; [done|].
    rewrite Hsp, Hrow in Hq. nia.
Qed.

Lemma bad_ahead_same w w' top o : (forall X, bad w' X = bad w X) -> bad_ahead w' top o = bad_ahead w top o.
Proof. intros Hq. by apply count_bad_ext. Qed.

(** The place the code finds is the one [place_exists] tells. *)
Lemma find_place top most j st o sk C lee :
  nand_job j -> nand_ok (wd st) -> cur st = Some nnd_entry -> at_pos top (wd st) o ->
  top * 2 ^ (b - k) < 2 ^ 31 -> (sk = 0 \/ sk * 2 ^ b < lee) -> lee < 2 ^ 31 -> 0 <= sk ->
  (if decide (o mod 2 ^ b = 0)
   then next_good (bad (wd st)) most top (o / 2 ^ b) C /\ sk = C - o / 2 ^ b /\
        o + sk * 2 ^ b = C * 2 ^ b
   else sk = 0) ->
  exists w', quiet 0 0 (wd st) w' /\
    (if negb (skip j =? 0) && (Z.land o (skip j - 1) =? 0)
     then skip_bad (S (Z.to_nat lee)) st (skip j) o lee
     else Some (st, Some (o, lee))) =
    Some (set_wd st w', Some (o + sk * 2 ^ b, lee - sk * 2 ^ b)).
Proof.
  intros Hj Hok Hcur [Ho Hst _ _] Htop Hlee Hlee2 Hsk Hpl.
  pose proof (block_size_small nc k b geo) as Hbs. rewrite (nj_skip j Hj).
  destruct (Z.eqb_spec (2 ^ b) 0); [lia|]. cbn [negb andb].
  change (Z.land o (2 ^ b - 1)) with (in_block o (2 ^ b)). rewrite (in_block_spec nc k b geo).
  destruct (Z.eqb_spec (o mod 2 ^ b) 0) as [Hm|Hm], (decide (o mod 2 ^ b = 0)); try done.
  - destruct Hpl as (HC & -> & Ho').
    assert (Hoo : o = o / 2 ^ b * 2 ^ b) by (pose proof (Z.div_mod o (2 ^ b)); lia).
    destruct (skip_bad_spec (S (Z.to_nat lee)) top most st (o / 2 ^ b) C lee) as (w' & E1 & Q);
      [done|done|apply Z.div_pos; lia|done|done|destruct Hlee; [left|right]; lia|done|destruct Hlee; nia|].
    exists w'. split; [done|]. rewrite <- Hoo in E1. rewrite E1, Ho'. done.
  - subst sk. exists (wd st). split; [by apply quiet_refl with (b := b) (k := k)|].
    rewrite Z.mul_0_l, Z.add_0_r, Z.sub_0_r. by destruct st.
Qed.

Lemma at_pos_same top w w' o :
  (forall q, pages w' q = pages w q) -> at_pos top w o -> at_pos top w' o.
Proof.
  intros Hq [P1 P2 P3 P4]. split; [done|done| |].
  - destruct P3 as [P3|P3]; [by left|right]. by rewrite (bad_same nc k b pg w w').
  - intros q. rewrite Hq, (bad_same nc k b pg w w') by done. apply P4.
Qed.

(** A step at [o'], in the good block [C]. *)
Lemma step_place top w o sk C :
  at_pos top w o -> 0 <= sk -> C = (o + sk * 2 ^ b) / 2 ^ b -> C < top -> bad w C = false ->
  top * 2 ^ (b - k) < 2 ^ 31 ->
  let o' := o + sk * 2 ^ b in
  0 <= o' /\ o' mod IR_MAX_BUFFER = 0 /\ C * 2 ^ b <= o' /\ o' + IR_MAX_BUFFER <= (C + 1) * 2 ^ b /\
  o' / 2 ^ k + 2 ^ (14 - k) < 2 ^ 31 /\
  (forall q, o' <= q * 2 ^ k < o' + IR_MAX_BUFFER -> pages w q = Erased).
Proof.
  intros [Ho Hst _ Hbl] Hsk HC HCt HCg Htop o'.
  pose proof (block_size_small nc k b geo) as Hbs. pose proof (page_size_small nc k b geo) as Hps.
  destruct block_steps as [Hbst _]. destruct step_pages as [Hsp Hnp].
  assert (Hm : o' mod IR_MAX_BUFFER = 0).
  { unfold o'. rewrite Hbst, Z.mul_assoc, Z.mod_add by done. done. }
  assert (H0 : 0 <= o') by (unfold o'; nia).
  pose proof (step_inside o' Hm) as Hin. fold o' in HC.
  pose proof (Z.div_mod o' (2 ^ b)) as Hdm. rewrite <- HC in Hdm.
  assert (Hc1 : C * 2 ^ b <= o') by (pose proof (Z.mod_pos_bound o' (2 ^ b)); lia).
  assert (Hc2 : o' + IR_MAX_BUFFER <= (C + 1) * 2 ^ b) by lia.
  split_and!; try done.
  - pose proof (Z.mul_div_le o' (2 ^ k)).
    assert ((o' / 2 ^ k + 2 ^ (14 - k)) * 2 ^ k <= top * 2 ^ (b - k) * 2 ^ k).
    { rewrite <- Z.mul_assoc, <- (pow_split nc k b geo).
      assert ((C + 1) * 2 ^ b <= top * 2 ^ b) by (apply Z.mul_le_mono_nonneg_r; lia). lia. }
    assert (o' / 2 ^ k + 2 ^ (14 - k) <= top * 2 ^ (b - k)) by (apply (Z.mul_le_mono_pos_r _ _ (2 ^ k)); lia).
    lia.
  - intros q Hq. apply Hbl.
    + unfold o' in Hq. nia.
    + assert ((C + 1) * 2 ^ b <= top * 2 ^ b) by (apply Z.mul_le_mono_nonneg_r; lia). lia.
    + replace (q * 2 ^ k / 2 ^ b) with C; [done|].
      apply (Z.div_unique_pos _ _ _ (q * 2 ^ k - C * 2 ^ b)); lia.
Qed.

Lemma burn_step_nand top most j st p n :
  nand_job j -> nand_ok (wd st) -> inv (wd st) -> p_buf p = buf ->
  offs_i p mod 512 = 0 -> lo <= offs_i p -> offs_i p + n * IR_MAX_BUFFER <= hi ->
  at_pos top (wd st) (offs_o p) -> room top (wd st) (offs_o p) n (leeway p) -> 1 <= n ->
  bad_ahead (wd st) top (offs_o p) <= most -> top * 2 ^ (b - k) < 2 ^ 31 -> leeway p < 2 ^ 31 ->
  is_u32 (remain p) ->
  exists st' sk C, let o' := offs_o p + sk * 2 ^ b in
    burn_step hw null_cfg eng dr0 udisk spn j st p =
      Some (st', inr (Progress buf (offs_i p + IR_MAX_BUFFER) (o' + IR_MAX_BUFFER)
        (remain p - Z.min (remain p) IR_MAX_BUFFER) (leeway p - sk * 2 ^ b))) /\
    wrote (wd st) (wd st') (offs_i p) o' /\ 0 <= sk /\ C = o' / 2 ^ b /\ C < top /\
    bad (wd st) C = false /\
    (if decide (offs_o p mod 2 ^ b = 0)
     then next_good (bad (wd st)) most top (offs_o p / 2 ^ b) C /\ sk = C - offs_o p / 2 ^ b /\
          o' = C * 2 ^ b
     else sk = 0) /\
    bad_ahead (wd st) top (offs_o p) = sk + bad_ahead (wd st) top (o' + IR_MAX_BUFFER).
Proof.
  intros Hj Hok Hi Hbuf Hm Hlo Hhi Hpos Hroom Hn Hmost Htop Hlee Hrem.
  destruct (place_exists top (wd st) (offs_o p) n (leeway p) most Hpos Hroom Hn Hmost)
    as (sk & C & Hsk & HC & HCt & HCg & Hpl & Hah).
  destruct (step_place top (wd st) (offs_o p) sk C Hpos Hsk HC HCt HCg Htop)
    as (Ho0 & Hom & Hc1 & Hc2 & Hrow & Her).
  pose proof (block_size_small nc k b geo) as Hbs.
  destruct src_range as [Hlo0 Hhi0]. destruct src_id as [Hid _].
  destruct (src_read (wd st) (offs_i p) IR_MAX_BUFFER (channel j)) as (w1 & r & E1 & T1 & F1 & I1 & O1 & P1);
    [done|done|done|unfold IR_MAX_BUFFER in *; lia|done|done|].
  set (st2 := Station w1 (Some nnd_entry) (sec st) (dbg st) (boottype st)).
  destruct (find_place top most j st2 (offs_o p) sk C (leeway p)) as (w2 & Q2 & E2);
    [exact Hj|exact O1|reflexivity|by apply (at_pos_same top (wd st))|exact Htop| |exact Hlee|exact Hsk| |].
  { pose proof (room_leeway _ _ _ _ _ Hroom) as Hrl.
    pose proof (count_bad_range (bad (wd st)) (next_block (offs_o p + sk * 2 ^ b + IR_MAX_BUFFER))
      (Z.to_nat (top - next_block (offs_o p + sk * 2 ^ b + IR_MAX_BUFFER)))) as Hcr.
    fold (bad_ahead (wd st) top (offs_o p + sk * 2 ^ b + IR_MAX_BUFFER)) in Hcr.
    destruct Hrl; [left; lia|right; nia]. }
  { destruct (decide _); [|exact Hpl]. destruct Hpl as (Hng & ? & ?). split; [|by split].
    eapply next_good_ext; [|exact Hng]. intros X. apply (bad_same nc k b pg (wd st) w1). exact P1. }
  cbn [wd st2] in Q2.
  assert (Hok2 : nand_ok w2) by (by eapply quiet_ok).
  destruct (write_step (wd st) w2 (set_wd st2 w2) (offs_i p) (offs_o p + sk * 2 ^ b)) as (w3 & E3 & W3);
    [exact Hok|exact Hi|reflexivity|reflexivity|exact Hok2| | | |exact Ho0|exact Hom|exact Hrow|exact Her|].
  { apply (src_keep w1); [done|apply buffer_frame, Q2|apply Q2]. }
  { intros q. by rewrite (quiet_pages _ _ _ _ _ _ _ _ Q2). }
  { rewrite <- T1. cbn [set_wd wd]. apply (quiet_clear_bytes nc pg h hn 0 0 w1 w2); [done|apply PS|lia|done]. }
  exists (set_wd (set_wd st2 w2) w3), sk, C. cbn zeta.
  split; [|split; [exact W3|split_and!; assumption]].
  unfold burn_step. rewrite (nj_in j Hj), assign_source by done.
  unfold do_read at 1. cbn [wd cur]. rewrite (nj_fnd j Hj), (nj_step j Hj), Hbuf.
  change (s32 IR_MAX_BUFFER) with IR_MAX_BUFFER. rewrite E1. cbn [mbind option_bind set_wd wd cur sec dbg boottype].
  rewrite (nj_plain j Hj), (nj_out j Hj), assign_nnd. cbn [set_wd wd sec dbg boottype Z.eqb].
  fold st2. rewrite E2. cbn [mbind option_bind].
  rewrite E3. assert (Hend : offs_o p + sk * 2 ^ b + IR_MAX_BUFFER <= 2 ^ 31 * 2 ^ 14).
  { apply (Z.le_trans _ (top * 2 ^ b)); [nia|]. rewrite (pow_split nc k b geo).
    pose proof (page_size_small nc k b geo). pose proof (Z.pow_le_mono_r 2 k 14).
    assert (top * 2 ^ (b - k) * 2 ^ k <= 2 ^ 31 * 2 ^ k) by (apply Z.mul_le_mono_nonneg_r; lia). lia. }
  unfold is_u32, IR_MAX_BUFFER in *. rewrite !s64_small, u32_small by lia.
  destruct (Z.eqb_spec (itype j) Ius.IUS_DESC_EXEC) as [Hx|_]; [by destruct (nj_exec j Hj)|]. done.
Qed.

(** The position after a step in block [C]. *)
Lemma at_pos_next top w w' offs o sk C :
  at_pos top w o -> 0 <= sk -> C * 2 ^ b <= o + sk * 2 ^ b ->
  o + sk * 2 ^ b + IR_MAX_BUFFER <= (C + 1) * 2 ^ b -> bad w C = false ->
  wrote w w' offs (o + sk * 2 ^ b) -> at_pos top w' (o + sk * 2 ^ b + IR_MAX_BUFFER).
Proof.
  intros [Ho Hst _ Hbl] Hsk Hc1 Hc2 HCg W. set (o' := o + sk * 2 ^ b) in *.
  pose proof (block_size_small nc k b geo) as Hbs. destruct block_steps as [Hbst _].
  assert (0 <= o') by (unfold o'; nia). assert (0 < IR_MAX_BUFFER) by done. split.
  - lia.
  - rewrite <- (Z.mul_1_l IR_MAX_BUFFER) at 1. rewrite Z.mod_add by lia.
    unfold o'. rewrite Hbst, Z.mul_assoc, Z.mod_add by lia. done.
  - rewrite (wr_bad _ _ _ _ W).
    destruct (decide (o' + IR_MAX_BUFFER = (C + 1) * 2 ^ b)) as [->|]; [left; apply Z.mod_mul; lia|right].
    replace ((o' + IR_MAX_BUFFER) / 2 ^ b) with C; [done|].
    apply (Z.div_unique_pos _ _ _ (o' + IR_MAX_BUFFER - C * 2 ^ b)); lia.
  - intros q Hq1 Hq2. rewrite (wr_bad _ _ _ _ W), (wr_out _ _ _ _ W) by lia.
    apply Hbl; [unfold o' in *; nia|done].
Qed.

Lemma flash_pages w w' x : pages w' (x / 2 ^ k) = pages w (x / 2 ^ k) -> flash w' x = flash w x.
Proof. intros Hq. unfold Nand.flash. by rewrite Hq. Qed.

(** What the loop leaves: the text laid out from [o] on, nothing changed
    before [o], from block [top] on, or in a bad block. *)
Record burned (most top o : Z) (l : list Z) w w' : Prop := {
  bd_ok : nand_ok w';
  bd_inv : inv w';
  bd_bad X : bad w' X = bad w X;
  bd_text : laid_steps (bad w) (flash w') (2 ^ b) IR_MAX_BUFFER most top o l;
  bd_out q : q * 2 ^ k < o \/ top * 2 ^ b <= q * 2 ^ k \/ bad w (q * 2 ^ k / 2 ^ b) = true ->
    pages w' q = pages w q
}.

(** A step, then the rest. *)
Lemma burned_cons most top o sk C offs l w w1 w' :
  0 <= o -> 0 <= sk -> C = (o + sk * 2 ^ b) / 2 ^ b -> C < top -> bad w C = false ->
  o + sk * 2 ^ b + IR_MAX_BUFFER <= (C + 1) * 2 ^ b ->
  (if decide (o mod 2 ^ b = 0)
   then next_good (bad w) most top (o / 2 ^ b) C /\ sk = C - o / 2 ^ b /\
        o + sk * 2 ^ b = C * 2 ^ b
   else sk = 0) ->
  wrote w w1 offs (o + sk * 2 ^ b) ->
  burned most top (o + sk * 2 ^ b + IR_MAX_BUFFER) l w1 w' ->
  burned most top o (bytes_at image offs (Z.to_nat IR_MAX_BUFFER) ++ l) w w'.
Proof.
  intros Ho Hsk HC HCt HCg Hc2 Hpl W [B1 B2 B3 B4 B5]. set (o' := o + sk * 2 ^ b) in *.
  pose proof (block_size_small nc k b geo) as Hbs. pose proof (page_size_small nc k b geo) as Hps.
  assert (Hoo : o <= o') by (unfold o'; nia). assert (Hstep : 0 < IR_MAX_BUFFER) by done.
  assert (Hblk : forall q, o' <= q * 2 ^ k < o' + IR_MAX_BUFFER -> q * 2 ^ k / 2 ^ b = C).
  { intros q Hq. symmetry. pose proof (Z.mul_div_le o' (2 ^ b)). rewrite <- HC in *.
    apply (Z.div_unique_pos _ _ _ (q * 2 ^ k - C * 2 ^ b)); lia. }
  assert (Htop : (C + 1) * 2 ^ b <= top * 2 ^ b) by (apply Z.mul_le_mono_nonneg_r; lia).
  split; [done|done|intros X; by rewrite B3, (wr_bad _ _ _ _ W)| |].
  - apply (steps_cons _ _ _ _ _ _ o o').
    + destruct (decide (o mod 2 ^ b = 0)); [by exists C; destruct Hpl as (? & _ & ?)|].
      unfold o'. lia.
    + by rewrite length_bytes_at, Z2Nat.id.
    + unfold text_at. rewrite length_bytes_at, <- (wr_text _ _ _ _ W).
      apply bytes_at_ext. intros x Hx. apply flash_pages, B5. left.
      pose proof (Z.mul_div_le x (2 ^ k)). rewrite Z2Nat.id in Hx by lia. lia.
    + assert (Hext : forall X, bad w X = bad w1 X) by (intros X; by rewrite (wr_bad _ _ _ _ W)).
      clear -B4 Hext Hstep. revert B4. generalize (o' + IR_MAX_BUFFER).
      induction 1 as [|o1 o2 l1 l2 H1 H2 H3 _ IH]; [constructor|].
      apply (steps_cons _ _ _ _ _ _ o1 o2); [|done..].
      destruct (decide _); [|done]. destruct H1 as (C1 & H1 & ->). exists C1. split; [|done].
      by apply (next_good_ext (bad w1)).
  - intros q Hq. rewrite B5 by (destruct Hq as [|[|]]; [left; lia|by right; left|right; right;
      by rewrite (wr_bad _ _ _ _ W)]).
    apply (wr_out _ _ _ _ W). intros Hin. destruct Hq as [Hq|[Hq|Hq]]; [lia|lia|].
    rewrite (Hblk q Hin) in Hq. congruence.
Qed.

Lemma burned_nil most top w : nand_ok w -> inv w -> forall o, burned most top o [] w w.
Proof. intros Hok Hi o. by split; [..|constructor|]. Qed.

Lemma bytes_at_steps m offs n :
  bytes_at m offs (Z.to_nat (Z.of_nat (S n) * IR_MAX_BUFFER)) =
  bytes_at m offs (Z.to_nat IR_MAX_BUFFER) ++
    bytes_at m (offs + IR_MAX_BUFFER) (Z.to_nat (Z.of_nat n * IR_MAX_BUFFER)).
Proof.
  replace (Z.to_nat (Z.of_nat (S n) * IR_MAX_BUFFER))
    with (Z.to_nat IR_MAX_BUFFER + Z.to_nat (Z.of_nat n * IR_MAX_BUFFER))%nat
    by (unfold IR_MAX_BUFFER; lia).
  by rewrite bytes_at_app.
Qed.

Lemma burn_loop_nand top most j n fuel st p :
  nand_job j -> nand_ok (wd st) -> inv (wd st) -> p_buf p = buf ->
  offs_i p mod 512 = 0 -> lo <= offs_i p -> offs_i p + Z.of_nat n * IR_MAX_BUFFER <= hi ->
  at_pos top (wd st) (offs_o p) -> room top (wd st) (offs_o p) (Z.of_nat n) (leeway p) ->
  bad_ahead (wd st) top (offs_o p) <= most -> top * 2 ^ (b - k) < 2 ^ 31 -> leeway p < 2 ^ 31 ->
  (Z.of_nat n - 1) * IR_MAX_BUFFER < remain p <= Z.of_nat n * IR_MAX_BUFFER ->
  0 <= remain p < 2 ^ 32 -> (n <= fuel)%nat ->
  exists st', burn_loop hw null_cfg eng dr0 udisk spn fuel j st p = Some (st', 0) /\
    burned most top (offs_o p) (bytes_at image (offs_i p) (Z.to_nat (Z.of_nat n * IR_MAX_BUFFER)))
      (wd st) (wd st').
Proof.
  intros Hj. revert fuel st p. induction n as [|n IH];
    intros fuel st p Hok Hi Hbuf Hm Hlo Hhi Hpos Hroom Hmost Htop Hlee Hn Hrem Hf.
  { exists st. split; [|by apply burned_nil]. unfold IR_MAX_BUFFER in *.
    destruct fuel; cbn [burn_loop]; (destruct (Z.leb_spec (remain p) 0); [done|lia]). }
  destruct fuel as [|fuel]; [lia|]. cbn [burn_loop].
  destruct (Z.leb_spec (remain p) 0); [unfold IR_MAX_BUFFER in *; lia|].
  destruct (burn_step_nand top most j st p (Z.of_nat (S n)))
    as (st1 & sk & C & E1 & W & Hsk & HC & HCt & HCg & Hpl & Hah);
    [exact Hj|exact Hok|exact Hi|exact Hbuf|exact Hm|exact Hlo|exact Hhi|exact Hpos|exact Hroom
    |lia|exact Hmost|exact Htop|exact Hlee|split; apply Hrem|].
  destruct (step_place top (wd st) (offs_o p) sk C Hpos Hsk HC HCt HCg Htop)
    as (Ho0 & Hom & Hc1 & Hc2 & _ & _).
  rewrite E1. cbn [mbind option_bind].
  pose proof (block_size_small nc k b geo) as Hbs. destruct Hroom as [Hr1 Hr2].
  assert (Hah' : bad_ahead (wd st1) top (offs_o p + sk * 2 ^ b + IR_MAX_BUFFER) =
    bad_ahead (wd st) top (offs_o p) - sk).
  { rewrite (bad_ahead_same (wd st)) by apply W. lia. }
  match goal with |- context [burn_loop _ _ _ _ _ _ fuel j st1 ?q] => set (p1 := q) end.
  destruct (IH fuel st1 p1) as (st' & E2 & B2); unfold p1; cbn [p_buf offs_i offs_o remain leeway].
  - apply W.
  - apply W.
  - reflexivity.
  - rewrite Z.add_mod, Hm by done. reflexivity.
  - unfold IR_MAX_BUFFER. lia.
  - unfold IR_MAX_BUFFER in *. lia.
  - by eapply at_pos_next.
  - split; rewrite Hah'; [unfold IR_MAX_BUFFER in *; nia|].
    pose proof (count_bad_range (bad (wd st1)) (next_block (offs_o p + sk * 2 ^ b + IR_MAX_BUFFER))
      (Z.to_nat (top - next_block (offs_o p + sk * 2 ^ b + IR_MAX_BUFFER)))) as Hcr.
    fold (bad_ahead (wd st1) top (offs_o p + sk * 2 ^ b + IR_MAX_BUFFER)) in Hcr.
    destruct Hr2; [left; lia|right; nia].
  - rewrite Hah'. lia.
  - exact Htop.
  - nia.
  - unfold IR_MAX_BUFFER in *. lia.
  - unfold IR_MAX_BUFFER in *. lia.
  - lia.
  - exists st'. split; [exact E2|]. rewrite bytes_at_steps.
    destruct Hpos as [Hp0 _ _ _]. by apply (burned_cons most top (offs_o p) sk C (offs_i p) _ (wd st) (wd st1)).
Qed.

(** *** The image as a whole *)

(** The bytes of whole steps that hold an image of [length] bytes. *)
Definition steps_len (length : Z) : Z := (length + IR_MAX_BUFFER - 1) / IR_MAX_BUFFER * IR_MAX_BUFFER.

(** The blocks that [max] bytes take. *)
Definition blocks_of (max : Z) : Z := (max + 2 ^ b - 1) / 2 ^ b.

(** The region for an image: at block [B], room for [max] bytes, erased but
    for its bad blocks. *)
Lemma erase_target st B max :
  nand_ok (wd st) -> inv (wd st) -> 0 <= B -> 0 <= max < 2 ^ 31 ->
  (B + blocks_of max) * 2 ^ (b - k) < 2 ^ 31 ->
  let st1 := do_erase (assign_id hw null_cfg dr0 udisk spn st DEV_NAND 0).1 (B * 2 ^ b) max in
  nand_ok (wd st1) /\ inv (wd st1) /\ (forall X, bad (wd st1) X = bad (wd st) X) /\
  at_pos (B + blocks_of max) (wd st1) (B * 2 ^ b) /\
  (forall q, q * 2 ^ k / 2 ^ b < B \/ B + blocks_of max <= q * 2 ^ k / 2 ^ b \/
     bad (wd st) (q * 2 ^ k / 2 ^ b) = true -> pages (wd st1) q = pages (wd st) q).
Proof.
  intros Hok Hi HB Hmax Hend st1. pose proof (block_size_small nc k b geo) as Hbs.
  pose proof (page_size_small nc k b geo) as Hps. pose proof (pow_split nc k b geo) as Hsp.
  pose proof (geo_sizes _ _ _ geo) as Hgs.
  assert (Hdiv : forall q, q * 2 ^ k / 2 ^ b = q / 2 ^ (b - k)).
  { intros q. rewrite Hsp. apply Z.div_mul_cancel_r; [|lia]. apply Z.pow_nonzero; lia. }
  destruct (base_erase_spec hw dr0 nc k b pg h hn geo (wd st) (B * 2 ^ b) max Hok Hns)
    as (w1 & E1 & Eff); [nia|lia|rewrite Z.mod_mul by lia; lia
                        |rewrite Z.mod_mul, Z.div_mul, Z.add_0_r by lia; exact Hend|].
  rewrite Z.mod_mul, Z.div_mul, Z.add_0_r in Eff by lia. fold (blocks_of max) in Eff.
  assert (Hw : wd st1 = w1).
  { unfold st1. rewrite assign_nnd. unfold do_erase, vs_erase. cbn [fst cur wd erase nnd_entry].
    by rewrite E1. }
  rewrite Hw. clear st1 Hw.
  assert (Hbad : forall X, bad w1 X = bad (wd st) X)
    by (intros X; by apply (erased_blocks_bad nc k b pg h hn geo _ _ B (blocks_of max))).
  split_and!.
  - eapply effect_ok; [exact Hok|exact Eff|]. apply erased_blocks_ok.
  - apply (src_keep (wd st)); [done|apply buffer_frame, Eff|apply Eff].
  - exact Hbad.
  - destruct block_steps as [Hbst _]. split; [nia| | |].
    + rewrite Hbst, Z.mul_assoc. by apply Z.mod_mul.
    + left. apply Z.mod_mul. lia.
    + intros q Hq1 Hq2 Hq3. rewrite Hbad in Hq3. rewrite (eff_pages _ _ _ _ _ _ _ Eff).
      unfold erased_blocks. rewrite <- Hdiv.
      assert (B <= q * 2 ^ k / 2 ^ b) by (apply Z.div_le_lower_bound; lia).
      assert (q * 2 ^ k / 2 ^ b < B + blocks_of max) by (apply Z.div_lt_upper_bound; lia).
      destruct (Z.leb_spec B (q * 2 ^ k / 2 ^ b)); [|lia].
      destruct (Z.ltb_spec (q * 2 ^ k / 2 ^ b) (B + blocks_of max)); [|lia]. by rewrite Hq3.
  - intros q Hq. rewrite (eff_pages _ _ _ _ _ _ _ Eff). unfold erased_blocks. rewrite <- Hdiv.
    destruct (Z.leb_spec B (q * 2 ^ k / 2 ^ b)), (Z.ltb_spec (q * 2 ^ k / 2 ^ b) (B + blocks_of max));
      try done. destruct Hq as [|[|Hq]]; [lia|lia|]. by rewrite Hq.
Qed.

Lemma steps_len_spec length :
  0 <= length -> steps_len length = Z.of_nat (Z.to_nat (steps_len length / IR_MAX_BUFFER)) * IR_MAX_BUFFER /\
  length <= steps_len length < length + IR_MAX_BUFFER.
Proof.
  intros Hl. unfold steps_len. rewrite Z.div_mul by done.
  pose proof (Z.div_mod (length + IR_MAX_BUFFER - 1) IR_MAX_BUFFER).
  pose proof (Z.mod_pos_bound (length + IR_MAX_BUFFER - 1) IR_MAX_BUFFER).
  pose proof (Z.div_pos (length + IR_MAX_BUFFER - 1) IR_MAX_BUFFER).
  unfold IR_MAX_BUFFER in *. lia.
Qed.

Lemma blocks_of_spec max : 0 <= max -> max <= blocks_of max * 2 ^ b /\ 0 <= blocks_of max.
Proof.
  intros Hm. pose proof (block_size_small nc k b geo). unfold blocks_of.
  pose proof (Z.div_mod (max + 2 ^ b - 1) (2 ^ b)). pose proof (Z.mod_pos_bound (max + 2 ^ b - 1) (2 ^ b)).
  pose proof (Z.div_pos (max + 2 ^ b - 1) (2 ^ b)). lia.
Qed.

(** An image of [length] bytes and the bad blocks of its region fit, so that
    the loop may skip all of them. *)
Definition fits w (B max length : Z) : Prop :=
  let bads := count_bad (bad w) B (Z.to_nat (blocks_of max)) in
  0 <= length <= max /\ (bads = 0 \/ length + bads * 2 ^ b < max).

Lemma bad_ahead_start w B max :
  bad_ahead w (B + blocks_of max) (B * 2 ^ b) = count_bad (bad w) B (Z.to_nat (blocks_of max)).
Proof. unfold bad_ahead. rewrite next_block_start. do 2 f_equal. lia. Qed.

Lemma room_start w B max length :
  0 <= max -> fits w B max length ->
  room (B + blocks_of max) w (B * 2 ^ b) (Z.of_nat (Z.to_nat (steps_len length / IR_MAX_BUFFER))) (max - length).
Proof.
  intros Hmax [Hl Hfit]. destruct (steps_len_spec length) as [Hs Hs2]; [lia|].
  destruct (blocks_of_spec max Hmax) as [Hb1 Hb2]. pose proof (block_size_small nc k b geo) as Hbs.
  destruct block_steps as [Hbst Hbp].
  split; rewrite bad_ahead_start; [|destruct Hfit; [by left|right; lia]].
  rewrite <- Hs. set (c := count_bad _ _ _) in *.
  assert (steps_len length <= (blocks_of max - c) * 2 ^ b); [|lia].
  assert (length <= (blocks_of max - c) * 2 ^ b) by (destruct Hfit as [->|]; nia).
  rewrite Hs. apply Z.lt_succ_r. set (n := Z.of_nat _) in *. rewrite Hs in Hs2.
  assert (n < (blocks_of max - c) * 2 ^ (b - 14) + 1); [|rewrite Hbst; unfold IR_MAX_BUFFER in *; nia].
  apply (Z.mul_lt_mono_pos_r IR_MAX_BUFFER); [done|]. rewrite Hbst in *. unfold IR_MAX_BUFFER in *. lia.
Qed.

(** What burning an image leaves on the chip: its bytes, in whole steps, on
    the good blocks from [B] on; nothing changed elsewhere. *)
Record image_burned (B max offs length : Z) w w' : Prop := {
  ib_ok : nand_ok w';
  ib_inv : inv w';
  ib_bad X : bad w' X = bad w X;
  ib_text : laid_out (bad w) (flash w') (2 ^ b) (count_bad (bad w) B (Z.to_nat (blocks_of max)))
    (B + blocks_of max) B (bytes_at image offs (Z.to_nat (steps_len length)));
  ib_out q : q * 2 ^ k / 2 ^ b < B \/ B + blocks_of max <= q * 2 ^ k / 2 ^ b \/
    bad w (q * 2 ^ k / 2 ^ b) = true -> pages w' q = pages w q
}.

Lemma offi_sector m desc : Ius.ius_desc_offi m desc mod 512 = 0.
Proof.
  unfold Ius.ius_desc_offi, u64.
  rewrite Z.mod_mod_divide by (by exists (2 ^ 55)).
  rewrite Z.shiftl_mul_pow2 by lia. change Ius.IUS_DEFAULT_LOCATION with (0x8000 * 512).
  change (2 ^ 9) with 512. rewrite Z.mod_add by lia. by apply Z.mod_mul.
Qed.

Lemma nand_skip_nnd st length remain :
  nand_ok (wd st) ->
  nand_skip hw null_cfg dr0 udisk spn st DEV_NAND length remain = (Some (2 ^ b), remain).
Proof.
  intros Hok. pose proof (block_size_small nc k b geo). unfold nand_skip.
  change (is_device hw null_cfg dr0 udisk spn st DEV_NAND n_nnd) with true.
  change (is_device hw null_cfg dr0 udisk spn st DEV_NAND n_bnd) with false.
  cbn [orb]. unfold normal_config. rewrite (ok_en _ _ _ _ _ Hok), (ok_cfg _ _ _ _ _ Hok).
  cbn [fmap option_fmap option_map compose]. rewrite (geo_block _ _ _ geo), s32_small by lia. done.
Qed.

(** The job and the loop's variables for an image to "nnd". *)
Definition image_job (ch : Z) : job :=
  Job Ius.IUS_DESC_STNR id DEV_NAND ch IR_MAX_BUFFER (2 ^ b) false.

(** Everything before the loop: the region is erased. *)
Lemma burn_image_start fuel st desc ch B max :
  let m := load st in
  let offs := Ius.ius_desc_offi m desc in
  let length := Ius.ius_desc_length m desc in
  nand_ok (wd st) -> inv (wd st) -> buf <> NULL ->
  Ius.ius_desc_type m desc = Ius.IUS_DESC_STNR -> Ius.ius_desc_offo m desc = B * 2 ^ b ->
  0 <= B -> (B + blocks_of max) * 2 ^ (b - k) < 2 ^ 31 -> max < 2 ^ 31 -> 0 <= length <= max ->
  exists st2, burn_image_loop hw null_cfg eng dr0 udisk irom sp spn fuel st desc id ch DEV_NAND max buf =
      burn_loop hw null_cfg eng dr0 udisk spn fuel (image_job ch) st2
        (Progress buf offs (B * 2 ^ b) length (max - length)) /\
    nand_ok (wd st2) /\ inv (wd st2) /\ (forall X, bad (wd st2) X = bad (wd st) X) /\
    at_pos (B + blocks_of max) (wd st2) (B * 2 ^ b) /\
    (forall q, q * 2 ^ k / 2 ^ b < B \/ B + blocks_of max <= q * 2 ^ k / 2 ^ b \/
       bad (wd st) (q * 2 ^ k / 2 ^ b) = true -> pages (wd st2) q = pages (wd st) q).
Proof.
  intros m offs length Hok Hi Hbuf Htype Hoffo HB Htop Hmax Hlen.
  destruct (src_id (id := id)) as [Hid Hne].
  unfold burn_image_loop. fold m. fold offs. fold length. rewrite Htype, Hoffo.
  destruct (Z.eqb_spec buf NULL); [done|]. destruct (Z.eqb_spec id DEV_NAND); [done|].
  change (negb (vs_device_erasable dr udisk DEV_NAND =? 0)) with true. cbn match.
  destruct (erase_target st B max Hok Hi HB) as (Hok1 & Hi1 & Hbad1 & Hpos & Hout); [lia|exact Htop|].
  set (st1 := do_erase _ _ _) in *. rewrite assign_source by done.
  set (st2 := Station (wd st1) _ _ _ _).
  change (burn_encrypt _ _ _ _ _ _ _ _ _ _ _ _ _) with (Some (st2, false)).
  cbn [mbind option_bind Z.eqb Pos.eqb Ius.IUS_DESC_STNR Ius.IUS_DESC_STNF andb].
  change (set_wd st2 (wd st2)) with st2. rewrite nand_skip_nnd by exact Hok1.
  change (u32 IR_MAX_BUFFER) with IR_MAX_BUFFER. rewrite s32_small by lia.
  exists st2. split_and!; [reflexivity|assumption..].
Qed.

Lemma burn_image_nnd fuel st desc channel B max :
  let m := load st in
  let offs := Ius.ius_desc_offi m desc in
  let length := Ius.ius_desc_length m desc in
  nand_ok (wd st) -> inv (wd st) -> buf <> NULL ->
  Ius.ius_desc_type m desc = Ius.IUS_DESC_STNR -> Ius.ius_desc_offo m desc = B * 2 ^ b ->
  0 <= B -> (B + blocks_of max) * 2 ^ (b - k) < 2 ^ 31 -> max < 2 ^ 31 -> fits (wd st) B max length ->
  lo <= offs -> offs + steps_len length <= hi -> length <= Z.of_nat fuel * IR_MAX_BUFFER ->
  exists st', burn_image_loop hw null_cfg eng dr0 udisk irom sp spn fuel st desc id channel
      DEV_NAND max buf = Some (st', 0) /\
    image_burned B max offs length (wd st) (wd st').
Proof.
  intros m offs length Hok Hi Hbuf Htype Hoffo HB Htop Hmax Hfit Hlo Hhi Hfuel.
  pose proof (block_size_small nc k b geo) as Hbs. pose proof Hfit as [Hlen _].
  destruct (steps_len_spec length) as [Hs Hs2]; [lia|].
  destruct (burn_image_start fuel st desc channel B max Hok Hi Hbuf Htype Hoffo HB Htop Hmax Hlen)
    as (st2 & E0 & Hok1 & Hi1 & Hbad1 & Hpos & Hout).
  set (most := count_bad (bad (wd st)) B (Z.to_nat (blocks_of max))).
  assert (Hfit1 : fits (wd st2) B max length).
  { unfold fits. by rewrite (count_bad_ext (bad (wd st))). }
  rewrite E0. fold m. fold offs. fold length. set (p := Progress _ _ _ _ _).
  destruct (burn_loop_nand (B + blocks_of max) most (image_job channel)
      (Z.to_nat (steps_len length / IR_MAX_BUFFER)) fuel st2 p)
    as (st' & E1 & [D1 D2 D3 D4 D5]); cbn [p p_buf offs_i offs_o remain leeway];
    try assumption; try done.
  - apply offi_sector.
  - rewrite <- Hs. exact Hhi.
  - apply room_start; [lia|exact Hfit1].
  - rewrite bad_ahead_start, (count_bad_ext (bad (wd st))) by done. reflexivity.
  - lia.
  - rewrite Z.mul_sub_distr_r, <- Hs. lia.
  - lia.
  - unfold IR_MAX_BUFFER in *. lia.
  - cbn [p offs_o offs_i] in *. exists st'. split; [exact E1|]. rewrite <- Hs in D4.
    assert (Hdiv : forall q, q * 2 ^ k / 2 ^ b < B -> q * 2 ^ k < B * 2 ^ b).
    { intros q Hq. apply Z.lt_nge. intros ?. assert (B <= q * 2 ^ k / 2 ^ b); [|lia].
      apply Z.div_le_lower_bound; lia. }
    split; [exact D1|exact D2|intros X; by rewrite D3| |].
    + eapply (laid_out_ext (bad (wd st2))); [intros X; by rewrite Hbad1|reflexivity|].
      apply (laid_steps_out _ _ _ IR_MAX_BUFFER); [done|lia| |exact D4].
      destruct block_steps as [-> _]. apply Z.mod_mul. done.
    + intros q Hq. rewrite <- Hout by exact Hq. apply D5. rewrite Hbad1.
      destruct Hq as [Hq|[Hq|Hq]]; [left; by apply Hdiv|right; left|by right; right].
      pose proof (Z.mul_div_le (q * 2 ^ k) (2 ^ b)). nia.
Qed.

(** *** Reading an image back *)

(** The whole pages that hold [length] bytes. *)
Definition pages_len (length : Z) : Z := length + 2 ^ k - 1 - (length + 2 ^ k - 1) mod 2 ^ k.

Lemma pages_len_spec length :
  0 < length -> length <= pages_len length < length + 2 ^ k /\ pages_len length mod 2 ^ k = 0 /\
  pages_len length <= steps_len length.
Proof.
  intros Hl. pose proof (page_size_small nc k b geo) as Hps. destruct step_pages as [Hsp Hnp].
  destruct (steps_len_spec length) as [Hs Hs2]; [lia|].
  unfold pages_len. pose proof (Z.mod_pos_bound (length + 2 ^ k - 1) (2 ^ k)).
  pose proof (Z.div_mod (length + 2 ^ k - 1) (2 ^ k)) as Hd.
  set (r := (length + 2 ^ k - 1) mod 2 ^ k) in *. set (a := (length + 2 ^ k - 1) / 2 ^ k) in *.
  replace (length + 2 ^ k - 1 - r) with (a * 2 ^ k) by lia. split_and!; [lia|lia|apply Z.mod_mul; lia|].
  rewrite Hs, Hsp, Z.mul_assoc in *. set (n := Z.of_nat _ * _) in *.
  assert (a < n + 1); [|nia]. apply (Z.mul_lt_mono_pos_r (2 ^ k)); lia.
Qed.

(** [vs_read] at the start of a block rounds the length up to whole pages
    and leaves the rest to the driver. *)
Lemma vs_read_nnd w dst B length extra w' :
  nand_ok w -> 0 <= B -> 0 < length -> pages_len length < 2 ^ 31 ->
  nnd_vs_read hw null_cfg (malloc dr0) (free dr0) w dst (B * 2 ^ b) (pages_len length) extra =
    (w', pages_len length) ->
  B * 2 ^ b < 2 ^ 62 ->
  vs_read dr udisk (entry dr udisk DEV_NAND) w dst (B * 2 ^ b) length extra =
    Some (w', pages_len length).
Proof.
  intros Hok HB Hl Hlen Er Hsm. pose proof (page_size_small nc k b geo) as Hps.
  pose proof (block_size_small nc k b geo) as Hbs. pose proof (geo_sizes _ _ _ geo) as Hgs.
  destruct (pages_len_spec length Hl) as (Hp1 & Hp2 & Hp3).
  rewrite entry_nnd. unfold vs_read. cbn [read nnd_entry name].
  destruct (Z.eqb_spec length 0); [lia|].
  change (strncmp_eq n_nnd n_fnd 3) with false. change (strncmp_eq n_nnd n_nnd 3) with true. cbn match.
  assert (vs_align dr udisk (Some nnd_entry) w DEV_CURRENT = (w, 2 ^ k)) as ->.
  { transitivity (nnd_vs_align w); [reflexivity|]. unfold nnd_vs_align, normal_config.
    rewrite (ok_en _ _ _ _ _ Hok), (ok_cfg _ _ _ _ _ Hok), (geo_page _ _ _ geo), s32_small by lia. done. }
  rewrite (u32_small (2 ^ k)), (u32_small (2 ^ k - 1)) by lia.
  rewrite (u32_small (length + (2 ^ k - 1))) by lia.
  assert (Hk32 : 0 <= k < 32) by lia. pose proof (align_mask k (length + (2 ^ k - 1)) Hk32) as Hal.
  rewrite (u32_small (2 ^ k - 1)) in Hal by lia. rewrite Hal by lia.
  replace (length + (2 ^ k - 1) - (length + (2 ^ k - 1)) mod 2 ^ k) with (pages_len length)
    by (unfold pages_len; do 2 f_equal; f_equal; lia).
  rewrite s32_small by lia. set (r := pages_len length) in *.
  assert (Hst : (B * 2 ^ b) mod 2 ^ k = 0) by (rewrite (pow_split nc k b geo), Z.mul_assoc; apply Z.mod_mul; lia).
  unfold vs_read_split. rewrite !land_mask by lia. rewrite Hst. change (u32 0 =? 0) with true. cbn match zeta.
  rewrite Z.sub_0_r, (u32_small r), Hp2 by lia. cbn [Z.eqb andb negb first_block middle_blocks].
  change (u32 0) with 0. rewrite !Z.add_0_r, !Z.sub_0_r, !(s32_small r), s64_small by lia.
  change (negb ((0 =? 0) && true)) with false. cbn [andb first_block Z.eqb middle_blocks].
  destruct (Z.eqb_spec r 0); [lia|]. rewrite Er. destruct (Z.ltb_spec r 0); [lia|].
  cbn [last_block Z.eqb]. by rewrite Z.add_0_l, s32_small by lia.
Qed.

(** Reading an image that was burnt gives it back, though bad blocks were
    skipped: the reader skips the same ones. *)
Lemma image_reads_back B max offs length w w' dst extra :
  image_burned B max offs length w w' -> count_bad (bad w) B (Z.to_nat (blocks_of max)) <= 31 ->
  0 <= B -> 0 <= max -> (B + blocks_of max) * 2 ^ (b - k) < 2 ^ 31 -> 0 < length < 2 ^ 30 ->
  clear dst (pages_len length) ->
  exists w2, vs_read dr udisk (entry dr udisk DEV_NAND) w' dst (B * 2 ^ b) length extra =
      Some (w2, pages_len length) /\
    quiet dst (pages_len length) w' w2 /\
    bytes_at (ram w2) dst (Z.to_nat length) = bytes_at image offs (Z.to_nat length).
Proof.
  intros [Hok Hi Hbad Htext Hout] Hmost HB Hmax Htop Hl Hc.
  pose proof (page_size_small nc k b geo) as Hps. pose proof (block_size_small nc k b geo) as Hbs.
  destruct (pages_len_spec length) as (Hp1 & Hp2 & Hp3); [lia|].
  pose proof (Z.pow_le_mono_r 2 k 14 ltac:(lia) Hk).
  set (l := bytes_at image offs (Z.to_nat (pages_len length))).
  assert (Hlen : Z.of_nat (List.length l) = pages_len length)
    by (unfold l; rewrite length_bytes_at; lia).
  assert (Hlay : laid_out (bad w') (flash w') (2 ^ b) 31 (B + blocks_of max) B l).
  { eapply laid_out_ext; [exact Hbad|reflexivity|]. apply (laid_out_most _ _ _ _ _ _ _ _ Hmost).
    replace l with (take (Z.to_nat (pages_len length)) (bytes_at image offs (Z.to_nat (steps_len length))));
      [apply laid_out_take; [lia|exact Htext]|].
    unfold l. apply take_bytes_at. lia. }
  destruct (nnd_read_spec hw null_cfg dr0 nc k b pg h hn geo (B + blocks_of max) l w' B dst extra Hok Hns HB Htop Hlay)
    as (w2 & Er & Q & Ht); rewrite Hlen in *; [exact Hp2|lia|exact Hc|].
  exists w2. split; [|split; [exact Q|]].
  - apply vs_read_nnd; [exact Hok|exact HB|lia|lia|exact Er|].
    destruct (blocks_of_spec max Hmax) as [_ Hblk]. rewrite (pow_split nc k b geo).
    assert (0 < 2 ^ (b - k)) by (apply Z.pow_pos_nonneg; pose proof (geo_sizes _ _ _ geo); lia).
    assert (B * 2 ^ (b - k) < 2 ^ 31) by nia. nia.
  - rewrite <- (take_bytes_at (ram w2) dst (Z.to_nat length) (Z.to_nat (pages_len length))) by lia.
    rewrite <- (take_bytes_at image offs (Z.to_nat length) (Z.to_nat (pages_len length))) by lia.
    f_equal. unfold text_at in Ht. fold l. rewrite <- Ht at 1. f_equal. lia.
Qed.

(** *** No good block left *)

Lemma skip_bad_fails fuel top st B lee :
  nand_ok (wd st) -> cur st = Some nnd_entry -> 0 <= B -> top * 2 ^ (b - k) < 2 ^ 31 ->
  (forall X, X = B \/ B <= X /\ (X - B) * 2 ^ b < lee -> X < top /\ bad (wd st) X = true) ->
  lee < 2 ^ 31 -> lee <= Z.of_nat (S fuel) * 2 ^ b ->
  exists w', skip_bad (S fuel) st (2 ^ b) (B * 2 ^ b) lee = Some (set_wd st w', None) /\
    quiet 0 0 (wd st) w'.
Proof.
  intros Hok Hc HB Htop. pose proof (block_size_small nc k b geo) as Hbs.
  pose proof (page_size_small nc k b geo) as Hps. pose proof (pow_split nc k b geo) as Hsp.
  pose proof (geo_sizes _ _ _ geo) as Hgs.
  assert (Hpp : 0 < 2 ^ (b - k)) by (apply Z.pow_pos_nonneg; lia).
  revert st B lee Hok Hc HB. induction fuel as [|fuel IH];
    intros st B lee Hok Hc HB Hrun Hl2 Hf; destruct (Hrun B) as [HBt HBb]; try (by left);
    (destruct (isbad_nnd st B Hok Hc) as (w1 & E1 & Q1); [split; [done|nia]|]).
  - exists w1. split; [|done]. cbn [skip_bad]. rewrite E1, HBb.
    destruct (Z.ltb_spec (2 ^ b) lee); [lia|done].
  - cbn [skip_bad]. rewrite E1, HBb.
    destruct (Z.ltb_spec (2 ^ b) lee) as [Hlt|Hge]; [|by exists w1].
    assert (Hsm : 0 <= (B + 1) * 2 ^ b < 2 ^ 62).
    { split; [nia|]. rewrite Hsp. change (2 ^ 62) with (2 ^ 31 * 2 ^ 31).
      destruct (Hrun (B + 1)) as [HB1 _]; [right; lia|].
      assert ((B + 1) * 2 ^ (b - k) < 2 ^ 31) by nia. nia. }
    replace (s64 (B * 2 ^ b + 2 ^ b)) with ((B + 1) * 2 ^ b) by words.
    rewrite s32_small by lia.
    destruct (IH (set_wd st w1) (B + 1) (lee - 2 ^ b)) as (w2 & E2 & Q2); [| | | | | |].
    + by eapply quiet_ok.
    + exact Hc.
    + lia.
    + intros X HX. cbn [set_wd wd]. rewrite (bad_same nc k b pg (wd st) w1) by apply Q1.
      apply Hrun. right. destruct HX as [->|HX]; lia.
    + lia.
    + lia.
    + exists w2. split; [exact E2|]. by eapply quiet_join.
Qed.

(** C5: an image that was burnt is what is read back.  When at most 31
    blocks of its region are bad, [vs_read] on "nnd" at the start of the
    region gives the bytes the package has, whatever blocks are bad: the
    reader skips the blocks the burner skipped. *)
Theorem burn_read_roundtrip fuel st desc ch B max dst extra :
  let m := load st in
  let offs := Ius.ius_desc_offi m desc in
  let length := Ius.ius_desc_length m desc in
  nand_ok (wd st) -> inv (wd st) -> buf <> NULL ->
  Ius.ius_desc_type m desc = Ius.IUS_DESC_STNR -> Ius.ius_desc_offo m desc = B * 2 ^ b ->
  0 <= B -> (B + blocks_of max) * 2 ^ (b - k) < 2 ^ 31 -> max < 2 ^ 30 -> fits (wd st) B max length ->
  count_bad (bad (wd st)) B (Z.to_nat (blocks_of max)) <= 31 -> 0 < length ->
  lo <= offs -> offs + steps_len length <= hi -> length <= Z.of_nat fuel * IR_MAX_BUFFER ->
  clear dst (pages_len length) ->
  exists st' w, burn_image_loop hw null_cfg eng dr0 udisk irom sp spn fuel st desc id ch
      DEV_NAND max buf = Some (st', 0) /\
    vs_read dr udisk (entry dr udisk DEV_NAND) (wd st') dst (B * 2 ^ b) length extra =
      Some (w, pages_len length) /\
    bytes_at (ram w) dst (Z.to_nat length) = bytes_at image offs (Z.to_nat length).
Proof.
  intros m offs length Hok Hi Hbuf Htype Hoffo HB Htop Hmax Hfit Hmost Hl Hlo Hhi Hfuel Hc.
  pose proof Hfit as [Hlen _].
  destruct (burn_image_nnd fuel st desc ch B max Hok Hi Hbuf Htype Hoffo HB Htop) as (st' & E1 & B1);
    [lia|done..|].
  destruct (image_reads_back B max offs length (wd st) (wd st') dst extra B1 Hmost HB)
    as (w2 & E2 & _ & T); [lia|exact Htop|lia|exact Hc|].
  exists st', w2. by split_and!.
Qed.

(** When the room is used up by bad blocks, burning fails: if the
    region of the image begins with bad blocks, as many as the room that the
    image leaves has (at least one), the result is [-EBADBLK] and no page of
    those blocks, nor of any other block outside the region, has changed. *)
Theorem burn_no_room fuel st desc ch B max :
  let m := load st in
  let offs := Ius.ius_desc_offi m desc in
  let length := Ius.ius_desc_length m desc in
  nand_ok (wd st) -> inv (wd st) -> buf <> NULL ->
  Ius.ius_desc_type m desc = Ius.IUS_DESC_STNR -> Ius.ius_desc_offo m desc = B * 2 ^ b ->
  0 <= B -> (B + blocks_of max) * 2 ^ (b - k) < 2 ^ 31 -> 0 < length <= max -> max < 2 ^ 31 ->
  lo <= offs -> offs + IR_MAX_BUFFER <= hi -> (0 < fuel)%nat ->
  (forall X, X = B \/ B <= X /\ (X - B) * 2 ^ b < max - length -> bad (wd st) X = true) ->
  exists st', burn_image_loop hw null_cfg eng dr0 udisk irom sp spn fuel st desc id ch
      DEV_NAND max buf = Some (st', - EBADBLK) /\
    nand_ok (wd st') /\ (forall X, bad (wd st') X = bad (wd st) X) /\
    (forall q, q * 2 ^ k / 2 ^ b < B \/ B + blocks_of max <= q * 2 ^ k / 2 ^ b \/
       bad (wd st) (q * 2 ^ k / 2 ^ b) = true -> pages (wd st') q = pages (wd st) q).
Proof.
  intros m offs length Hok Hi Hbuf Htype Hoffo HB Htop Hlen Hmax Hlo Hhi Hf Hrun.
  pose proof (block_size_small nc k b geo) as Hbs. destruct (src_id (id := id)) as [Hid _].
  destruct (burn_image_start fuel st desc ch B max Hok Hi Hbuf Htype Hoffo HB Htop Hmax)
    as (st2 & -> & Hok2 & Hi2 & Hbad2 & Hpos & Hout); [change (0 <= length <= max); lia|].
  fold m. fold offs. fold length. destruct fuel as [|fuel]; [lia|].
  cbn [burn_loop remain]. destruct (Z.leb_spec length 0); [lia|].
  destruct (src_read (wd st2) offs IR_MAX_BUFFER ch) as (w1 & r & E1 & T1 & F1 & I1 & O1 & P1);
    [done|done|done|exact Hhi|apply offi_sector|done|].
  set (st3 := Station w1 (Some nnd_entry) (sec st2) (dbg st2) (boottype st2)).
  assert (Hbad3 : forall X, bad w1 X = bad (wd st) X).
  { intros X. rewrite <- Hbad2. by apply bad_same. }
  destruct (skip_bad_fails (Z.to_nat (max - length)) (B + blocks_of max) st3 B (max - length))
    as (w2 & E2 & Q2); [exact O1|done|exact HB|exact Htop| |lia|rewrite Nat2Z.inj_succ, Z2Nat.id by lia; nia|].
  { intros X HX. cbn [wd st3]. rewrite Hbad3. split; [|by apply Hrun].
    destruct (blocks_of_spec max) as [Hbl _]; [lia|]. destruct HX as [->|[HX1 HX2]]; nia. }
  exists (set_wd st3 w2). split; [|split; [|split]].
  - unfold burn_step. cbn [id_i id_o image_job is_fnd itype step skip encrypt channel p_buf offs_i offs_o leeway].
    rewrite assign_source by done. unfold do_read at 1. cbn [wd cur].
    change (is_fnd (image_job ch)) with false. cbn match.
    change (s32 IR_MAX_BUFFER) with IR_MAX_BUFFER. rewrite E1.
    cbn [mbind option_bind set_wd wd cur sec dbg boottype].
    rewrite assign_nnd. cbn [set_wd wd sec dbg boottype Z.eqb]. fold st3.
    change (Z.land (B * 2 ^ b) (2 ^ b - 1)) with (in_block (B * 2 ^ b) (2 ^ b)).
    rewrite (in_block_spec nc k b geo), Z.mod_mul by lia.
    destruct (Z.eqb_spec (2 ^ b) 0); [lia|]. cbn [negb andb Z.eqb]. rewrite E2. reflexivity.
  - by eapply quiet_ok.
  - intros X. rewrite <- Hbad3. apply bad_same. apply Q2.
  - intros q Hq. rewrite <- Hout by exact Hq. rewrite <- P1. apply Q2.
Qed.

(** *** The images of a package *)

Context (burn_extra : station -> Z -> Z -> option station) (cdbg_jump : station -> Z -> option station).
(** The reset of "nnd" works and leaves the pages alone. *)
Context (reset_ok : forall w, nand_ok w ->
  exists w', vs_reset_of dr0 d_nnd w = (w', 0) /\ quiet 0 0 w w').
(** The header is in memory that the burner does not use. *)
Context (hdr : Z).
Context (header_kept : forall w w', inv w -> inv w' ->
  same_on (ram w) (ram w') hdr (Z.to_nat Ius.ius_hdr_size)).

(** Descriptor [i]: the room and the length of its image, and where it is in
    the package. *)
Definition max_of (m : mem) (i : Z) : Z := Ius.ius_desc_maxsize m (Ius.ius_get_desc hdr i).
Definition len_of (m : mem) (i : Z) : Z := Ius.ius_desc_length m (Ius.ius_get_desc hdr i).
Definition offi_of (m : mem) (i : Z) : Z := Ius.ius_desc_offi m (Ius.ius_get_desc hdr i).

(** It tells to burn to "nnd", from block [B] on. *)
Record nnd_desc (m : mem) (i B : Z) : Prop := {
  nd_mask : Ius.ius_desc_mask m (Ius.ius_get_desc hdr i) = 1;
  nd_type : Ius.ius_desc_type m (Ius.ius_get_desc hdr i) = Ius.IUS_DESC_STNR;
  nd_offo : Ius.ius_desc_offo m (Ius.ius_get_desc hdr i) = B * 2 ^ b;
  nd_block : 0 <= B;
  nd_top : (B + blocks_of (max_of m i)) * 2 ^ (b - k) < 2 ^ 31;
  nd_max : max_of m i < 2 ^ 31;
  nd_lo : lo <= offi_of m i;
  nd_hi : offi_of m i + steps_len (len_of m i) <= hi
}.

Lemma desc_words_same m m' i :
  0 <= i < 30 -> same_on m m' hdr (Z.to_nat Ius.ius_hdr_size) ->
  let x := Ius.ius_get_desc hdr i in
  Ius.sector m' x = Ius.sector m x /\ Ius.info0 m' x = Ius.info0 m x /\
  Ius.info1 m' x = Ius.info1 m x /\ Ius.ius_desc_length m' x = Ius.ius_desc_length m x.
Proof.
  intros Hi Hs x. unfold x, Ius.ius_get_desc, Ius.ius_desc_size, Ius.ius_hdr_size in *.
  split_and!; apply load32_same; intros q Hq; apply Hs; lia.
Qed.

Lemma nnd_desc_same m m' i B :
  0 <= i < 30 -> same_on m m' hdr (Z.to_nat Ius.ius_hdr_size) ->
  max_of m' i = max_of m i /\ len_of m' i = len_of m i /\ offi_of m' i = offi_of m i /\
  (nnd_desc m i B -> nnd_desc m' i B).
Proof.
  intros Hi Hs. destruct (desc_words_same m m' i Hi Hs) as (Es & E0 & E1 & El).
  assert (Hm : max_of m' i = max_of m i) by (unfold max_of, Ius.ius_desc_maxsize; by rewrite E1).
  assert (Ho : offi_of m' i = offi_of m i) by (unfold offi_of, Ius.ius_desc_offi; by rewrite Es).
  split_and!; [done|done|done|]. intros [D1 D2 D3 D4 D5 D6 D7 D8].
  unfold Ius.ius_desc_mask, Ius.ius_desc_type, Ius.ius_desc_offo in *.
  split; unfold Ius.ius_desc_mask, Ius.ius_desc_type, Ius.ius_desc_offo;
    rewrite ?Es, ?E0, ?E1, ?Hm, ?Ho; try done. unfold len_of. by rewrite El.
Qed.

Lemma burn_image_one fuel st i B channel :
  0 <= i < 30 -> nand_ok (wd st) -> inv (wd st) -> buf <> NULL -> nnd_desc (load st) i B ->
  fits (wd st) B (max_of (load st) i) (len_of (load st) i) ->
  len_of (load st) i <= Z.of_nat fuel * IR_MAX_BUFFER ->
  exists st', burn_image hw null_cfg eng dr0 udisk irom sp sg spn burn_extra cdbg_jump fuel st hdr i id
      channel buf = Some (st', None) /\
    image_burned B (max_of (load st) i) (offi_of (load st) i) (len_of (load st) i) (wd st) (wd st').
Proof.
  intros Hir Hok Hi Hbuf D Hfit Hfuel. destruct (reset_ok (wd st) Hok) as (w1 & E1 & Q1).
  assert (Hi1 : inv w1) by (apply (src_keep (wd st)); [done|apply buffer_frame, Q1|apply Q1]).
  pose proof (header_kept _ _ Hi Hi1) as Hsame.
  set (st1 := Station w1 (Some nnd_entry) (sec st) (dbg st) (boottype st)).
  destruct (nnd_desc_same (load st) (load st1) i B Hir Hsame) as (Em & El & Eo & D').
  specialize (D' D). pose proof (quiet_ok _ _ _ _ _ _ _ _ _ _ Hok Q1) as Hok1.
  assert (Hbad : forall X, bad w1 X = bad (wd st) X) by (intros X; apply bad_same; apply Q1).
  destruct (burn_image_nnd fuel st1 (Ius.ius_get_desc hdr i) channel B (max_of (load st) i))
    as (st' & E2 & [B1 B2 B3 B4 B5]); fold (len_of (load st1) i) (offi_of (load st1) i) in *; rewrite ?El, ?Eo in *;
    try apply D; try apply D'; try assumption.
  { unfold fits in *. by rewrite (count_bad_ext (bad (wd st))). }
  exists st'. split.
  - unfold burn_image. fold (max_of (load st) i). rewrite (nd_mask _ _ _ D), (nd_type _ _ _ D).
    change (image_target _ _ _ _ _ _ _ _) with (Some DEV_NAND). cbn [Z.eqb negb].
    assert (assign_id hw null_cfg dr0 udisk spn st DEV_NAND 1 = (st1, 0)) as ->.
    { unfold assign_id, vs_assign_by_id. change (id_valid dr udisk DEV_NAND) with true.
      rewrite entry_nnd. unfold vs_reset. cbn [Z.eqb DEV_NAND reset nnd_entry]. by rewrite E1. }
    change (negb (DEV_NAND =? DEV_NONE)) with true. cbn match.
    change (Ius.IUS_DESC_STNR =? Ius.IUS_DESC_EXEC) with false.
    change (Ius.IUS_DESC_STNR =? Ius.IUS_DESC_CFG) with false.
    cbn [Z.eqb negb]. rewrite E2. reflexivity.
  - split; [exact B1|exact B2|intros X; by rewrite B3| |].
    + rewrite (count_bad_ext (bad (wd st))) in B4 by done.
      eapply laid_out_ext; [intros X; symmetry; apply Hbad|reflexivity|exact B4].
    + intros q Hq. rewrite B5; [apply Q1|]. by rewrite Hbad.
Qed.

(** The regions of two images do not meet. *)
Definition regions_apart (m : mem) (i B j B' : Z) : Prop :=
  B + blocks_of (max_of m i) <= B' \/ B' + blocks_of (max_of m j) <= B.

(** What the images of a package leave: [plan] has the block each one goes
    to, from descriptor [i] on. *)
Record all_burned (i : Z) (plan : list Z) w w' : Prop := {
  ab_ok : nand_ok w';
  ab_inv : inv w';
  ab_bad X : bad w' X = bad w X;
  ab_text (j : nat) B : plan !! j = Some B ->
    let n := i + Z.of_nat j in
    laid_out (bad w) (flash w') (2 ^ b) (count_bad (bad w) B (Z.to_nat (blocks_of (max_of (ram w) n))))
      (B + blocks_of (max_of (ram w) n)) B
      (bytes_at image (offi_of (ram w) n) (Z.to_nat (steps_len (len_of (ram w) n))));
  ab_out q : (forall (j : nat) B, plan !! j = Some B ->
      q * 2 ^ k / 2 ^ b < B \/ B + blocks_of (max_of (ram w) (i + Z.of_nat j)) <= q * 2 ^ k / 2 ^ b) ->
    pages w' q = pages w q
}.

Lemma page_block x : x / 2 ^ k * 2 ^ k / 2 ^ b = x / 2 ^ b.
Proof.
  pose proof (pow_split nc k b geo) as Hsp. pose proof (geo_sizes _ _ _ geo) as Hgs.
  pose proof (page_size_small nc k b geo). rewrite Hsp.
  rewrite Z.div_mul_cancel_r by (try apply Z.pow_nonzero; lia).
  rewrite Z.div_div by (try apply Z.pow_nonzero; lia). by rewrite (Z.mul_comm (2 ^ k)).
Qed.

Lemma all_burned_cons i B plan w w1 w' :
  image_burned B (max_of (ram w) i) (offi_of (ram w) i) (len_of (ram w) i) w w1 ->
  all_burned (i + 1) plan w1 w' ->
  (forall (j : nat) B', plan !! j = Some B' ->
     let n := i + 1 + Z.of_nat j in
     max_of (ram w1) n = max_of (ram w) n /\ len_of (ram w1) n = len_of (ram w) n /\
     offi_of (ram w1) n = offi_of (ram w) n /\ regions_apart (ram w) i B n B') ->
  all_burned i (B :: plan) w w'.
Proof.
  intros [I1 I2 I3 I4 I5] [A1 A2 A3 A4 A5] Hj. pose proof (block_size_small nc k b geo).
  assert (Hidx : forall j, i + Z.of_nat (S j) = i + 1 + Z.of_nat j) by lia.
  split; [done|done|intros X; by rewrite A3| |].
  - intros [|j] B' Hl; cbn zeta.
    + injection Hl as <-. rewrite Z.add_0_r.
      eapply laid_out_region; [lia| |exact I4]. intros x Hx. apply flash_pages, A5.
      intros j B' Hl. destruct (Hj j B' Hl) as (-> & _ & _ & Ha). rewrite page_block.
      assert (B <= x / 2 ^ b) by (apply Z.div_le_lower_bound; lia).
      assert (x / 2 ^ b < B + blocks_of (max_of (ram w) i)) by (apply Z.div_lt_upper_bound; lia).
      destruct Ha; [left|right]; lia.
    + rewrite Hidx. destruct (Hj j B' Hl) as (<- & <- & <- & _).
      rewrite <- (count_bad_ext (bad w) (bad w1)) by done.
      eapply laid_out_ext; [|reflexivity|by apply (A4 j)]. intros X. by rewrite I3.
  - intros q Hq. rewrite A5.
    + apply I5. specialize (Hq 0%nat B eq_refl). rewrite Z.add_0_r in Hq. destruct Hq; [by left|right; by left].
    + intros j B' Hl. destruct (Hj j B' Hl) as (-> & _). rewrite <- Hidx. by apply Hq.
Qed.

(** C4: burning the images of a package to "nnd", on a chip that can be reset
    and is not of the SanDisk family.  If the regions of the images do not
    meet and the room of each is more than its image and the bad blocks of its
    region together (without bad blocks: not less than its image), then
    every image is burnt: the loop ends with 0, each image lies, in order
    and in whole steps of 16 KiB, on the good blocks of its region, no block
    has become bad or good, and no page outside the regions has changed. *)
Theorem images_loop_nnd fuel channel plan st i :
  0 <= i -> i + Z.of_nat (length plan) <= 30 -> nand_ok (wd st) -> inv (wd st) -> buf <> NULL ->
  (forall (j : nat) B, plan !! j = Some B ->
     let n := i + Z.of_nat j in
     nnd_desc (load st) n B /\ fits (wd st) B (max_of (load st) n) (len_of (load st) n) /\
     len_of (load st) n <= Z.of_nat fuel * IR_MAX_BUFFER) ->
  (forall (j j' : nat) B B', plan !! j = Some B -> plan !! j' = Some B' -> (j < j')%nat ->
     regions_apart (load st) (i + Z.of_nat j) B (i + Z.of_nat j') B') ->
  exists st', images_loop hw null_cfg eng dr0 udisk irom sp sg spn burn_extra cdbg_jump
      (length plan) fuel st hdr i id channel buf = Some (st', 0) /\
    all_burned i plan (wd st) (wd st').
Proof.
  intros Hi0 Hi30 Hok Hi Hbuf. revert st i Hi0 Hi30 Hok Hi.
  induction plan as [|B plan IH]; intros st i Hi0 Hi30 Hok Hi Hd Hap.
  { exists st. split; [done|]. by split. }
  cbn [length images_loop] in *. destruct (Hd 0%nat B) as (D & Hfit & Hfuel); [done|].
  change (i + Z.of_nat 0) with (i + 0) in *. rewrite Z.add_0_r in *.
  destruct (burn_image_one fuel st i B channel) as (st1 & E1 & B1); [lia|done..|].
  rewrite E1. cbn [mbind option_bind].
  pose proof (header_kept _ _ Hi (ib_inv _ _ _ _ _ _ B1)) as Hsame.
  assert (Hidx : forall j, i + Z.of_nat (S j) = i + 1 + Z.of_nat j) by lia.
  assert (Hn : forall (j : nat) B', plan !! j = Some B' -> 0 <= i + 1 + Z.of_nat j < 30).
  { intros j B' Hl. apply lookup_lt_Some in Hl. lia. }
  destruct (IH st1 (i + 1)) as (st' & E2 & A); [lia|lia|apply B1|apply B1| | |].
  - intros j B' Hl. destruct (Hd (S j) B' Hl) as (D2 & F2 & L2). rewrite Hidx in *.
    destruct (nnd_desc_same (load st) (load st1) (i + 1 + Z.of_nat j) B') as (-> & -> & _ & Hd2); [by eapply Hn|done|].
    split_and!; [by apply Hd2| |exact L2]. unfold fits in *.
    by rewrite (count_bad_ext (bad (wd st))) by apply B1.
  - intros j j' B' B'' Hl Hl' Hjj. pose proof (Hap (S j) (S j') B' B'' Hl Hl') as Ha.
    rewrite !Hidx in Ha. unfold regions_apart in *.
    destruct (nnd_desc_same (load st) (load st1) (i + 1 + Z.of_nat j) B') as (-> & _); [by eapply Hn|done|].
    destruct (nnd_desc_same (load st) (load st1) (i + 1 + Z.of_nat j') B'') as (-> & _); [by eapply Hn|done|].
    apply Ha. lia.
  - exists st'. split; [exact E2|]. eapply all_burned_cons; [exact B1|exact A|].
    intros j B' Hl. cbn zeta.
    destruct (nnd_desc_same (load st) (load st1) (i + 1 + Z.of_nat j) B') as (Em & El & Eo & _); [by eapply Hn|done|].
    split_and!; [exact Em|exact El|exact Eo|]. rewrite <- Hidx, <- (Z.add_0_r i) at 1.
    apply (Hap 0%nat (S j)); [done|done|lia].
Qed.
End ToNand.

(** ** A package on the RAM disk *)

Section FromRam.
Context {H R : Type} (hw : nand_hw H) (null_cfg : nand_config) (dr0 : drivers (devices H R)).
Context (udisk : bool) (spn : Z) (nc : nand_config) (k b : Z) (pg : H -> Z -> page) (h hn : Z).
Context `{HP : !Heap dr0 h hn} (Hram : has_ramdisk dr0).
Context (top : Z) (Htop : IUS_DEFAULT_LOCATION <= top <= 2 ^ 32 - (DRAM_BASE_PA - IUS_DEFAULT_LOCATION)).
Abbreviation D := (devices H R).
Abbreviation dr := (nand_drivers hw null_cfg spn dr0).
Implicit Type w : world D.

Instance nand_heap : Heap dr h hn.
Proof. destruct HP as [H1 H2 H3]. split; [exact H1|exact H2|exact H3]. Qed.

Lemma nand_ramdisk : has_ramdisk dr.
Proof. destruct Hram. by split. Qed.

(** Reading the RAM disk does not touch the other devices. *)
Definition stage_dev (s : @stage D) : devices H R :=
  match s with Next w _ | End w _ => dev w end.

Lemma ram_stages_dev w tmp buf start align mask pre len post ch :
  stage_dev (last_block ram_vs_read
    (middle_blocks ram_vs_read (first_block ram_vs_read w tmp buf start align mask pre ch)
       (buf + pre) (s64 (start + pre)) len ch)
    tmp (buf + pre + len) (s64 (s64 (start + pre) + len)) align post ch) = dev w.
Proof.
  unfold first_block, middle_blocks, last_block, ram_vs_read.
  repeat (cbn [stage_dev dev]; case_match; simplify_eq; try done).
Qed.

Lemma ram_read_dev w buf offs len ch w' r :
  vs_read dr udisk (Some (ram_entry dr)) w buf offs len ch = Some (w', r) -> dev w' = dev w.
Proof.
  unfold vs_read. cbn [read ram_entry name]. destruct (len =? 0); [by intros [= <- _]|].
  change (strncmp_eq n_ram n_fnd 3) with false. change (strncmp_eq n_ram n_nnd 3) with false.
  destruct nand_ramdisk as [Hr _ Ha _].
  assert (vs_align dr udisk (Some (ram_entry dr)) w DEV_CURRENT = (w, 0x200)) as ->.
  { unfold vs_align. change (id_valid dr udisk DEV_CURRENT) with false. change (DEV_CURRENT =? DEV_CURRENT) with true.
    cbn [align ram_entry]. by rewrite Ha. }
  rewrite Hr. change (u32 0x200) with (2 ^ 9). unfold vs_read_split.
  set (pre := if _ =? 0 then _ else _). set (post := Z.land _ _).
  set (buffered := negb _). set (mask := u32 (Z.lnot _)).
  destruct (if buffered then malloc dr w (2 ^ 9) else (w, NULL)) as [w1 tmp] eqn:Em.
  assert (Hd1 : dev w1 = dev w).
  { destruct buffered; [|by injection Em as <- _].
    by destruct (heap_malloc (h := h) (hn := hn) w (2 ^ 9) w1 tmp ltac:(lia) Em) as (_ & _ & _ & _ & ->). }
  destruct (buffered && (tmp =? NULL)); [done|].
  pose proof (ram_stages_dev w1 tmp buf offs (2 ^ 9) mask pre (s32 (s32 (len - pre) - post)) post ch) as Hs.
  intros E. destruct (last_block _ _ _ _ _ _ _ _) as [w2 rd|w2 rd]; cbn [stage_dev] in Hs;
    (destruct buffered; injection E as <- _; [|congruence]);
    (rewrite (proj2 (heap_free (h := h) (hn := hn) w2 tmp)); congruence).
Qed.

(** The header at [hdr] and the buffer are outside the heap, the RAM disk,
    the word that keeps the retry level and each other. *)
Context (buf hdr : Z).
Context (Hheap : ram_apart top h hn) (Hretry : ram_apart top RRTB_LEVEL 4) 
  (Hbuf : ram_apart top buf IR_MAX_BUFFER).
Context (Hbh : buf + IR_MAX_BUFFER <= h \/ h + hn <= buf).
Context (Hbr : buf + IR_MAX_BUFFER <= RRTB_LEVEL \/ RRTB_LEVEL + 4 <= buf).
Context (Hhr : hdr + Ius.ius_hdr_size <= RRTB_LEVEL \/ RRTB_LEVEL + 4 <= hdr).
Context (Hhh : hdr + Ius.ius_hdr_size <= h \/ h + hn <= hdr).
Context (Hhb : hdr + Ius.ius_hdr_size <= buf \/ buf + IR_MAX_BUFFER <= hdr).

(** The RAM disk holds the package, the header is where it was read to. *)
Record package_there (image hd : mem) w : Prop := {
  pt_disk x : IUS_DEFAULT_LOCATION <= x < top -> ram_disk w x = image x;
  pt_header : same_on hd (ram w) hdr (Z.to_nat Ius.ius_hdr_size)
}.

Lemma package_kept image hd w w' len :
  package_there image hd w -> len <= IR_MAX_BUFFER -> ram_frame h hn buf len w w' ->
  package_there image hd w'.
Proof.
  intros [P1 P2] Hl Hf. unfold ram_frame, scratch, ram_apart, Ius.ius_hdr_size, same_on in *. split.
  - intros x Hx. rewrite <- P1 by done. unfold ram_disk. rewrite (ram_addr_eq top Htop) by done.
    unfold IUS_DEFAULT_LOCATION, DRAM_BASE_PA, IR_MAX_BUFFER in *.
    apply Hf; lia.
  - intros q Hq. rewrite <- P2 by done. 
    apply Hf; unfold IR_MAX_BUFFER, Ius.ius_hdr_size in *; lia.
Qed.

Lemma ram_request offs len :
  IUS_DEFAULT_LOCATION <= offs -> offs + len <= top - 0x200 -> offs mod 512 = 0 ->
  0 < len <= IR_MAX_BUFFER -> request (ram_apart top) 9 IUS_DEFAULT_LOCATION top h hn buf offs len.
Proof.
  intros Hlo Hhi Hm Hl. unfold IUS_DEFAULT_LOCATION, IR_MAX_BUFFER in *.
  assert (Hh : head_len 9 offs = 0) by (unfold head_len; change (2 ^ 9) with 512; by rewrite Hm).
  pose proof (Z.mod_pos_bound len 512). split; rewrite ?Hh; cbn [Z.eqb]; try lia.
  - unfold body_len, tail_len. rewrite Hh, Z.sub_0_r. change (2 ^ 9) with 512. case_match; lia.
  - unfold ram_apart in *. lia.
Qed.

#[export] Instance ram_source image hd :
  PackageSource hw null_cfg dr0 udisk spn nc k b pg h hn DEV_RAM image IUS_DEFAULT_LOCATION (top - 0x200)
    buf (package_there image hd).
Proof.
  unfold DEV_RAM. split.
  - done.
  - unfold IUS_DEFAULT_LOCATION, DRAM_BASE_PA in *. lia.
  - intros q Hq. unfold scratch. lia.
  - intros w offs len ch [P1 P2] Hok Hlo Hhi Hm Hl.
    pose proof (ram_request offs len Hlo Hhi Hm Hl) as Rq.
    destruct (vs_read_serves dr ram_vs_read ram_disk (ram_apart top) 9 IUS_DEFAULT_LOCATION top h hn
      (BD := ram_block_device top Htop) Hheap (ram_entry dr) udisk w buf offs len ch)
      as (w' & r & E & _ & T & F); [apply ram_entry_of, nand_ramdisk|lia|exact Rq|].
    assert (Hh : head_len 9 offs = 0) by (unfold head_len; change (2 ^ 9) with 512; by rewrite Hm).
    rewrite Hh in T, F. change (bytes_at _ _ (Z.to_nat 0)) with (@nil Z) in T, F. cbn [app] in T, F. rewrite Z.add_0_r, Z.sub_0_r in T, F.
    change (eff_len 9 (ram_entry dr) len) with len in T, F.
    rewrite length_bytes_at in T, F. rewrite ?Z2Nat.id in F by lia.
    assert (Hf : ram_frame h hn buf len w w').
    { intros q Hq Hs. apply F; [exact Hq|]. unfold scratch in Hs. lia. }
    pose proof (ram_read_dev w buf offs len ch w' r E) as Hd.
    assert (Hp : forall q, pages pg w' q = pages pg w q) by (intros q; unfold pages; by rewrite Hd).
    exists w', r. split_and!; [exact E| |exact Hf| | |exact Hp].
    + rewrite T. apply bytes_at_ext. intros x Hx. apply P1. lia.
    + eapply package_kept; [by split|apply Hl|exact Hf].
    + destruct Hok as [O1 O2 O3 O4 O5 O6]. split; rewrite ?Hd; try done.
      * intros row main rs. rewrite Hp. apply O5.
      * intros row. rewrite Hp. apply O6.
  - intros w w' Hi Hf _. by eapply package_kept.
Qed.
End FromRam.

(** ** Concrete runs *)

(** A package on the RAM disk, its header at 0x8000: an image of 32 KiB for
    block 1 with room for 6 MiB, one of 20 KiB for block 4 with room for
    4 MiB, and one of 2 MiB for block 1 with room for 4 MiB. *)
Definition sample_burn_ram : mem :=
  store (store (store (mem_of (DRAM_BASE_PA + 3) [11; 22; 33])
    (Ius.ius_get_desc 0x8000 0) (IusProofs.desc_words 0 Ius.IUS_DESC_STNR 1 0x200000 0x60 0x8000))
    (Ius.ius_get_desc 0x8000 1) (IusProofs.desc_words 64 Ius.IUS_DESC_STNR 1 0x800000 0x40 0x5000))
    (Ius.ius_get_desc 0x8000 2) (IusProofs.desc_words 64 Ius.IUS_DESC_STNR 1 0x200000 0x40 0x200000).

(** Block 1 is bad. *)
Definition sample_station : station (devices (Z -> page) unit) (Z * list Z) :=
  Station (World sample_burn_ram (dev (sample_nand_world 1 0x55 (one_mark 511)))) None idle_secure
    (Cdbg.Cdbg false [] 0 0 0 0 []) 0.

Definition sample_top := 0x2000000.

#[export] Instance sample_source :
  PackageSource (soft_chip 256) (sample_nand 1 0x55) nand_sample_drivers false 0x9000 (sample_nand 1 0x55)
    13 21 (fun c => c) 0x100000 0x100000 DEV_RAM (ram_disk (wd sample_station)) IUS_DEFAULT_LOCATION
    (sample_top - 0x200) 0x4000 (package_there sample_top 0x8000 (ram_disk (wd sample_station)) sample_burn_ram).
Proof.
  apply ram_source; [apply _|done|split; vm_compute; congruence|..];
    first [left; vm_compute; congruence|right; vm_compute; congruence].
Qed.

Lemma sample_burn_ok : nand_ok (H := Z -> page) (sample_nand 1 0x55) 13 21 (fun c => c) (wd sample_station).
Proof. destruct (sample_nand_ok 1 0x55 511) as [O1 O2 O3 O4 O5 O6]; [by left|]. by split. Qed.

Lemma sample_package_there :
  package_there (H := Z -> page) (R := unit) sample_top 0x8000 (ram_disk (wd sample_station)) sample_burn_ram
    (wd sample_station).
Proof. by split. Qed.

Lemma sample_header_kept image hd w w' :
  package_there (H := Z -> page) (R := unit) sample_top 0x8000 image hd w ->
  package_there (H := Z -> page) (R := unit) sample_top 0x8000 image hd w' ->
  same_on (ram w) (ram w') 0x8000 (Z.to_nat Ius.ius_hdr_size).
Proof. intros [_ P] [_ P'] q Hq. by rewrite P, P'. Qed.

Lemma sample_reset w :
  nand_ok (H := Z -> page) (sample_nand 1 0x55) 13 21 (fun c => c) w ->
  exists w', vs_reset_of nand_sample_drivers d_nnd w = (w', 0) /\
    quiet (sample_nand 1 0x55) (fun c => c) 0x100000 0x100000 0 0 w w'.
Proof. intros Hok. exists w. split; [done|]. by apply quiet_refl with (k := 13) (b := 21). Qed.

Lemma sample_family : retry_family (sample_nand 1 0x55) <> Some SanDisk.
Proof. vm_compute. congruence. Qed.

(** Neither the soft engine nor jumps and file systems are used here. *)
Definition no_extra (st : station (devices (Z -> page) unit) (Z * list Z)) (_ _ : Z) := Some st.
Definition no_jump (st : station (devices (Z -> page) unit) (Z * list Z)) (_ : Z) := Some st.

Lemma images_loop_nnd_witness :
  let st := sample_station in
  exists st', images_loop (soft_chip 256) (sample_nand 1 0x55) soft_engine nand_sample_drivers false []
      0xa000 0xb000 0x9000 no_extra no_jump (length [1; 4]) 2 st 0x8000 0 DEV_RAM 0 0x4000 = Some (st', 0) /\
    all_burned (sample_nand 1 0x55) 13 21 (fun c => c) (ram_disk (wd st))
      (package_there sample_top 0x8000 (ram_disk (wd st)) sample_burn_ram) 0x8000 0 [1; 4] (wd st) (wd st').
Proof.
  apply (images_loop_nnd (soft_chip 256) (sample_nand 1 0x55) soft_engine nand_sample_drivers false []
    0xa000 0xb000 0x9000 (sample_nand 1 0x55) 13 21 (fun c => c) 0x100000 0x100000
    (NC := soft_chip_ok _ _ _ (sample_geometry 1 0x55)) (sample_geometry 1 0x55)
    sample_family ltac:(lia) ltac:(lia) DEV_RAM _ _ _ 0x4000 _ (PS := sample_source) no_extra no_jump
    sample_reset 0x8000 (sample_header_kept _ _) 2 0 [1; 4] sample_station 0).
  - lia.
  - vm_compute. congruence.
  - exact sample_burn_ok.
  - exact sample_package_there.
  - done.
  - intros [|[|j]] B; [intros [= <-]|intros [= <-]|done]; cbn zeta;
      (split; [split; vm_compute; (reflexivity || congruence)|]);
      (split; [split; vm_compute; intuition congruence|vm_compute; congruence]).
  - intros [|[|j]] [|[|j']] B B'; try done; try lia. intros [= <-] [= <-] _. left. vm_compute. congruence.
Defined.

Lemma burn_read_roundtrip_witness :
  let st := sample_station in
  exists st' w, burn_image_loop (soft_chip 256) (sample_nand 1 0x55) soft_engine nand_sample_drivers false []
      0xa000 0x9000 2 st (Ius.ius_get_desc 0x8000 1) DEV_RAM 0 DEV_NAND 0x400000 0x4000 = Some (st', 0) /\
    vs_read (nand_drivers (soft_chip 256) (sample_nand 1 0x55) 0x9000 nand_sample_drivers) false
      (entry (nand_drivers (soft_chip 256) (sample_nand 1 0x55) 0x9000 nand_sample_drivers) false DEV_NAND)
      (wd st') 0x300000 (4 * 2 ^ 21) 0x5000 0 = Some (w, 0x6000) /\
    bytes_at (ram w) 0x300000 (Z.to_nat 0x5000) = bytes_at (ram_disk (wd st)) 0x1008000 (Z.to_nat 0x5000).
Proof.
  apply (burn_read_roundtrip (soft_chip 256) (sample_nand 1 0x55) soft_engine nand_sample_drivers false []
    0xa000 0x9000 (sample_nand 1 0x55) 13 21 (fun c => c) 0x100000 0x100000
    (NC := soft_chip_ok _ _ _ (sample_geometry 1 0x55)) (sample_geometry 1 0x55)
    sample_family ltac:(lia) ltac:(lia) DEV_RAM _ _ _ 0x4000 _ (PS := sample_source)
    2 sample_station (Ius.ius_get_desc 0x8000 1) 0 4 0x400000 0x300000 0).
  - exact sample_burn_ok.
  - exact sample_package_there.
  - done.
  - reflexivity.
  - reflexivity.
  - lia.
  - vm_compute. congruence.
  - lia.
  - split; vm_compute; intuition congruence.
  - vm_compute. congruence.
  - vm_compute. congruence.
  - vm_compute. congruence.
  - vm_compute. congruence.
  - vm_compute. congruence.
  - intros q Hq. unfold scratch. change (pages_len 13 _) with 0x6000 in Hq.
    unfold RRTB_LEVEL, CONFIG_RESERVED_RRTB_BUFFER. lia.
Defined.

(** The third image just fills the good block of its region, the leeway is
    one block, and one block is bad: there would be room. *)
Lemma burn_no_room_witness :
  let st := sample_station in
  exists st', burn_image_loop (soft_chip 256) (sample_nand 1 0x55) soft_engine nand_sample_drivers false []
      0xa000 0x9000 1000 st (Ius.ius_get_desc 0x8000 2) DEV_RAM 0 DEV_NAND 0x400000 0x4000 =
      Some (st', - EBADBLK) /\
    nand_ok (sample_nand 1 0x55) 13 21 (fun c => c) (wd st') /\
    (forall X, bad (sample_nand 1 0x55) 13 21 (fun c => c) (wd st') X =
       bad (sample_nand 1 0x55) 13 21 (fun c => c) (wd st) X) /\
    (forall q, q * 2 ^ 13 / 2 ^ 21 < 1 \/ 1 + blocks_of 21 0x400000 <= q * 2 ^ 13 / 2 ^ 21 \/
       bad (sample_nand 1 0x55) 13 21 (fun c => c) (wd st) (q * 2 ^ 13 / 2 ^ 21) = true ->
       pages (fun c => c) (wd st') q = pages (fun c => c) (wd st) q).
Proof.
  apply (burn_no_room (soft_chip 256) (sample_nand 1 0x55) soft_engine nand_sample_drivers false []
    0xa000 0x9000 (sample_nand 1 0x55) 13 21 (fun c => c) 0x100000 0x100000
    (NC := soft_chip_ok _ _ _ (sample_geometry 1 0x55)) (sample_geometry 1 0x55)
    sample_family ltac:(lia) ltac:(lia) DEV_RAM _ _ _ 0x4000 _ (PS := sample_source)
    1000 sample_station (Ius.ius_get_desc 0x8000 2) 0 1 0x400000).
  - exact sample_burn_ok.
  - exact sample_package_there.
  - done.
  - reflexivity.
  - reflexivity.
  - lia.
  - vm_compute. congruence.
  - split; vm_compute; congruence.
  - lia.
  - vm_compute. congruence.
  - vm_compute. congruence.
  - lia.
  - change (Ius.ius_desc_length _ _) with 0x200000. intros X HX.
    assert (X = 1) as -> by (destruct HX; lia). reflexivity.
Defined.

(** The encrypted package of [Image] on the RAM disk, which every device
    shows here; the first card slot is masked out. *)
Definition search_station : station (devices (Z -> page) unit) (Z * list Z) :=
  Station (World (mem_of DRAM_BASE_PA (bytes_at IusProofs.sample_package 0x2000 512))
    (sample_devices 1 0x55 (fun _ => Erased))) None idle_secure (Cdbg.Cdbg true [] 0 0 0 0 []) 0.

#[local] Abbreviation searched :=
  (burn_search (soft_chip 256) (sample_nand 1 0x55) soft_engine nand_sample_drivers false []
    0xa000 0x9000 14 search_station 0x40 0x3000 0).

Lemma searched_second_slot : option_map snd searched = Some (Package 7).
Proof. vm_compute. reflexivity. Qed.

Lemma burn_search_sound_witness :
  exists st', searched = Some (st', Package 7) /\ 0 <= 7 < 14 /\
    vs_device_burnsrc (nand_drivers (soft_chip 256) (sample_nand 1 0x55) 0x9000 nand_sample_drivers) false 7 = 1 /\
    Z.land 0x40 (Z.shiftl 1 7) = 0 /\
    exists st0 st1 st2 rd,
      assign_id (soft_chip 256) (sample_nand 1 0x55) nand_sample_drivers false 0x9000 st0 7 1 = (st1, 0) /\
      do_read (soft_chip 256) (sample_nand 1 0x55) nand_sample_drivers false 0x9000 st1 0x3000
        Ius.IUS_DEFAULT_LOCATION Ius.ius_hdr_size 0 = Some (st2, rd) /\
      verified soft_engine [] 0xa000 st2 0x3000 = (st', true).
Proof.
  pose proof searched_second_slot as Hs. destruct searched as [[st' r]|] eqn:Es; [|done].
  injection Hs as ->. exists st'. split; [reflexivity|].
  change (0 <= 7 < 14) with (0 <= 7 < 0 + Z.of_nat 14).
  apply (burn_search_sound (soft_chip 256) (sample_nand 1 0x55) soft_engine nand_sample_drivers false []
    0xa000 0x9000 14 search_station 0x40 0x3000 0 st' 7). exact Es.
Defined.
