(* ===== verification/Iuw.v ===== *)
(** * Iuw: infotm/strategy/iuw/iuw_base.c, the upgrade protocol

    A host connected by USB or Ethernet sends commands of 32 bytes: read and
    write devices or memory, hash, encrypt.  [iuw_server] answers them one
    after the other; while the board is to burn verified packages only, it
    refuses all but the commands that identify the host.

    A transport is a [trans_dev] over a state [T]; what the host sends is in
    that state.  Module [Udc] is the one that is configured, USB
    (infotm/drivers/udc/imapx800_udc.c), over a controller that is a
    parameter; it may wait for ever, and it says 0 for a read that was served.
    The commands for file system images ([iuw_extra]) are a parameter.  The
    rest is the state of [Burn]. *)

From stdpp Require Import relations.
From S2P Require Import Prelude Mem CString VStorage Secure Image Nand Burn.
Local Open Scope Z_scope.

Definition IUW_CMD_VSWR := 0x10.
Definition IUW_CMD_VSRD := 0x11.
Definition IUW_CMD_NBWR := 0x12.
Definition IUW_CMD_NBRD := 0x13.
Definition IUW_CMD_NRWR := 0x14.
Definition IUW_CMD_NRRD := 0x15.
Definition IUW_CMD_NFWR := 0x16.
Definition IUW_CMD_NFRD := 0x17.
Definition IUW_CMD_MMWR := 0x20.
Definition IUW_CMD_MMRD := 0x21.
Definition IUW_CMD_CONFIG := 0x30.
Definition IUW_CMD_JUMP := 0x31.
Definition IUW_CMD_IDENTIFY := 0x33.
Definition IUW_CMD_ENC := 0x42.
Definition IUW_CMD_DEC := 0x44.
Definition IUW_CMD_HASH := 0x46.
Definition IUW_CMD_READY := 0x02.
Definition IUW_CMD_FINISH := 0xe0.
Definition IUW_CMD_ERROR := 0xf0.
Definition IUW_SUB_STEP := 0x40.
Definition IUW_CMD_MAGIC := 0xaa.
Definition IUW_CMD_LEN := 0x20.
Definition IUW_AES_KEYLEN := 0x20.
Definition IUW_RETRY := 100.
Definition TDEV_UDC := 0.
Definition TDEV_ETH := 1.

Definition opt_is_read (x : Z) : bool := negb (Z.land x 0x1 =? 0).
Definition opt_is_write (x : Z) : bool := Z.land x 0x1 =? 0.
Definition aes_option (o : Z) : Z := if o =? IUW_CMD_ENC then 0 else 1.

(** ** Commands in memory *)

Definition iuw_cmd_cmd (m : mem) (buf : Z) : Z := Z.land (load32 m buf) 0xffffff.
Definition iuw_cmd_para (m : mem) (buf num : Z) : Z := load32 m (buf + 4 + Z.shiftl num 2).
Definition iuw_cmd_id (m : mem) (buf : Z) : Z := load16 m (buf + 10).
Definition iuw_cmd_offs (m : mem) (buf : Z) : Z :=
  Z.lor (Z.shiftl (load16 m (buf + 8)) 32) (load32 m (buf + 4)).
Definition iuw_cmd_addr (m : mem) (buf : Z) : Z := load32 m (buf + 4).
Definition iuw_cmd_crypt_isk (m : mem) (buf : Z) : bool := load32 m (buf + 4) =? 0.
Definition iuw_cmd_hash_type (m : mem) (buf : Z) : Z := load32 m (buf + 4).
Definition iuw_cmd_hash_len (m : mem) (buf : Z) : Z := load32 m (buf + 8).
Definition iuw_cmd_max (m : mem) (buf : Z) : Z := s32 (Z.land (load32 m (buf + 8)) (Z.lnot 0xffff)).
Definition iuw_cmd_len (m : mem) (buf : Z) : Z := s32 (load32 m (buf + 12)).

(** The sum over the bytes before the last word. *)
Definition cmd_sum (m : mem) (buf : Z) : Z :=
  fold_left (fun tmp c => u32 (tmp + c)) (bytes_at m buf (Z.to_nat (IUW_CMD_LEN - 4))) 0.

Definition iuw_is_cmd (m : mem) (buf : Z) : bool :=
  (m (buf + 3) =? IUW_CMD_MAGIC) && (cmd_sum m buf =? load32 m (buf + (IUW_CMD_LEN - 4))).

Definition iuw_pack_cmd (m : mem) (buf cmd para0 para1 : Z) : mem :=
  let m := memset m buf 0 IUW_CMD_LEN in
  let m := store32 m buf (u32 (Z.lor cmd (Z.shiftl IUW_CMD_MAGIC 24))) in
  let m := store32 m (buf + 4) para0 in
  let m := store32 m (buf + 8) para1 in
  store32 m (buf + (IUW_CMD_LEN - 4)) (cmd_sum m buf).

(** ** Transports *)

(** [t_read t m buf len]: memory with what came in the buffer, and the
    result; [t_write t l]: the bytes that are sent.  [None]: it does not come
    back. *)
Record trans_dev (T : Type) := TransDev {
  t_connect : T -> option (T * Z);
  t_read : T -> mem -> Z -> Z -> option (T * mem * Z);
  t_write : T -> list Z -> option (T * Z)
}.
Arguments t_connect {T}. Arguments t_read {T}. Arguments t_write {T}.

(** *** USB *)

Module Udc.

(** [cable_in] is set nowhere else. *)
Definition cable_in := 1.
Definition TRANSFER_MAX := 0x40000.

(** [udc_dev] as far as transfers go, and the controller. *)
Record udc (C : Type) := UdcDev { rx_en : bool; tx_en : bool; link_ok : bool; ctl : C }.
Arguments UdcDev {C}. Arguments rx_en {C}. Arguments tx_en {C}. Arguments link_ok {C}. Arguments ctl {C}.

Section Driver.
Context {C : Type}.
Implicit Type u : udc C.
(** The driver's work on the registers: the reset, the handler that is
    polled, the start of a transfer of so many bytes from the host or of these
    bytes to it, the endpoints; and what the last transfer left in memory. *)
Context (udc_init : udc C -> udc C * Z) (udc_event_handle : udc C -> udc C).
Context (start_out : C -> Z -> C) (start_in : C -> list Z -> C) (udc_bulk_enable : C -> C).
Context (received : C -> list Z).

(** Polling while a transfer is under way. *)
Fixpoint poll (busy : udc C -> bool) (fuel : nat) u : option (udc C) :=
  if busy u then match fuel with O => None | S fuel => poll busy fuel (udc_event_handle u) end
  else Some u.

Definition armed_out u (len : Z) : udc C := UdcDev true (tx_en u) (link_ok u) (start_out (ctl u) len).
Definition armed_in u (l : list Z) : udc C := UdcDev (rx_en u) true (link_ok u) (start_in (ctl u) l).
Definition rx_busy u : bool := rx_en u && negb (cable_in =? 0).
Definition tx_busy u : bool := tx_en u && negb (cable_in =? 0).

Fixpoint udc_read (n fuel : nat) u (m : mem) (rx_addr len : Z) : option (udc C * mem * Z) :=
  if len =? 0 then Some (u, m, len) else
  match n with
  | O => None
  | S n =>
      let rx_len := if TRANSFER_MAX <? len then TRANSFER_MAX else len in
      u ← poll rx_busy fuel (armed_out u rx_len);
      let m := store m rx_addr (received (ctl u)) in
      if rx_en u then Some (u, m, -1) else udc_read n fuel u m (rx_addr + rx_len) (len - rx_len)
  end.

Fixpoint udc_write (n fuel : nat) u (l : list Z) : option (udc C * Z) :=
  match l with
  | [] => Some (u, 0)
  | _ =>
    match n with
    | O => None
    | S n =>
        u ← poll tx_busy fuel (armed_in u (take (Z.to_nat TRANSFER_MAX) l));
        udc_write n fuel u (drop (Z.to_nat TRANSFER_MAX) l)
    end
  end.

Definition udc_connect (fuel : nat) u : option (udc C * Z) :=
  let '(u, ret) := udc_init u in
  if ret <? 0 then Some (u, ret) else
  u ← poll (fun u => negb (link_ok u)) fuel (udc_event_handle u);
  Some (UdcDev (rx_en u) (tx_en u) (link_ok u) (udc_bulk_enable (ctl u)), 0).

(** [n] bounds the transfers of one call, [fuel] the polls of a transfer. *)
Definition transport (n fuel : nat) : trans_dev (udc C) :=
  TransDev _ (udc_connect fuel) (udc_read n fuel) (udc_write n fuel).

(** The host sends nothing more. *)
Definition silent u : Prop :=
  forall len k, rx_en (Nat.iter k udc_event_handle (armed_out u len)) = true.

(** What the controller stores is what it was told to receive, at most. *)
Definition obedient : Prop := forall u len k,
  0 < len <= TRANSFER_MAX ->
  bytes_ok (received (ctl (Nat.iter k udc_event_handle (armed_out u len)))) /\
  Z.of_nat (length (received (ctl (Nat.iter k udc_event_handle (armed_out u len))))) <= len.

Lemma poll_iter busy fuel : forall u u', poll busy fuel u = Some u' ->
  busy u' = false /\ exists k, u' = Nat.iter k udc_event_handle u.
Proof.
  induction fuel as [|fuel IH]; intros u u'; cbn [poll].
  - destruct (busy u) eqn:E; [done|]. intros [= <-]. split; [done|]. by exists O.
  - destruct (busy u) eqn:E; [|intros [= <-]; split; [done|by exists O]].
    intros (H & k & ->)%IH. split; [done|]. exists (S k). by rewrite Nat.iter_succ_r.
Qed.

Lemma poll_for_ever busy fuel : forall u,
  (forall k, busy (Nat.iter k udc_event_handle u) = true) -> poll busy fuel u = None.
Proof.
  induction fuel as [|fuel IH]; intros u H; cbn [poll]; rewrite (H O : busy u = true); [done|].
  apply IH. intros k. specialize (H (S k)). by rewrite Nat.iter_succ_r in H.
Qed.

Lemma rx_busy_en u : rx_busy u = rx_en u.
Proof. apply andb_true_r. Qed.

(** A read that comes back says 0, whatever its length. *)
Lemma udc_read_zero n fuel u m a len u' m' r : udc_read n fuel u m a len = Some (u', m', r) -> r = 0.
Proof.
  revert u m a len. induction n as [|n IH]; intros u m a len; cbn [udc_read];
    (destruct (Z.eqb_spec len 0) as [->|_]; [by intros [= _ _ <-]|]); [done|].
  destruct (poll _ _ _) as [u1|] eqn:E; [|done]. cbn [mbind option_bind].
  apply poll_iter in E as [E _]. rewrite rx_busy_en in E. rewrite E. apply IH.
Qed.

Lemma udc_read_silent n fuel u m a len : silent u -> len <> 0 -> udc_read n fuel u m a len = None.
Proof.
  intros H Hl. destruct n as [|n]; cbn [udc_read]; rewrite (proj2 (Z.eqb_neq len 0)) by done; [done|].
  rewrite poll_for_ever; [done|]. intros k. rewrite rx_busy_en. apply H.
Qed.

Lemma udc_read_inside n fuel u m a len u' m' r : obedient -> 0 <= len ->
  udc_read n fuel u m a len = Some (u', m', r) ->
  same_except m m' a (Z.to_nat len) /\ (mem_ok m -> mem_ok m').
Proof.
  intros Ho. revert u m a len. induction n as [|n IH]; intros u m a len Hl; cbn [udc_read];
    (destruct (Z.eqb_spec len 0) as [->|Hz]; [by intros [= _ <- _]|]); [done|].
  set (rx_len := if TRANSFER_MAX <? len then _ else len).
  assert (0 < rx_len <= TRANSFER_MAX /\ rx_len <= len) as [Hrx Hle].
  { unfold rx_len, TRANSFER_MAX. destruct (Z.ltb_spec 0x40000 len); lia. }
  destruct (poll _ _ _) as [u1|] eqn:E; [|done]. cbn [mbind option_bind].
  apply poll_iter in E as [_ (k & Hk)]. destruct (Ho u rx_len k Hrx) as [Hb Hn]. rewrite <- Hk in Hb, Hn.
  assert (same_except m (store m a (received (ctl u1))) a (Z.to_nat len) /\
          (mem_ok m -> mem_ok (store m a (received (ctl u1))))) as [S1 M1].
  { split; [|by intros; apply mem_ok_store].
    apply (same_except_weaken _ _ a (length (received (ctl u1)))); [lia|lia|apply same_except_store]. }
  destruct (rx_en u1); [by intros [= _ <- _]|]. intros [S2 M2]%IH; [|lia]. split; [|auto].
  intros q Hq. rewrite S2 by lia. by apply S1.
Qed.
End Driver.
End Udc.

(** The state of the burner and the statics of the file; [host] is behind
    the transports. *)
Record server (D E T : Type) := Server {
  stn : station D E; host : T; tdev_current : Z; pack : Z
}.
Arguments Server {D E T}. Arguments stn {D E T}. Arguments host {D E T}.
Arguments tdev_current {D E T}. Arguments pack {D E T}.

Section Server.
Context {H R E T : Type} (hw : nand_hw H) (null_cfg : nand_config) (eng : engine E).
Context (dr0 : drivers (devices H R)) (CONFIG_ENABLE_UDISK : bool) (__irom_ver : list Z).
Context (sp spn : Z) (tdev : Z -> trans_dev T).
Abbreviation D := (devices H R).
Abbreviation dr := (nand_drivers hw null_cfg spn dr0).
Abbreviation server := (server D E T).
Implicit Type sv : server.
Context (iuw_extra : server -> option (server * Z)).

Definition with_stn sv (st : station D E) : server := Server st (host sv) (tdev_current sv) (pack sv).
Definition with_host sv (t : T) : server := Server (stn sv) t (tdev_current sv) (pack sv).
Definition with_pack sv (p : Z) : server := Server (stn sv) (host sv) (tdev_current sv) p.
Definition sv_ram sv : mem := load (stn sv).
Definition with_ram sv (m : mem) : server :=
  with_stn sv (set_wd (stn sv) (World m (dev (wd (stn sv))))).
(** The security drivers with the memory they worked on. *)
Definition with_sec sv (s : secure E) (m : mem) : server := with_stn sv (set_sec (stn sv) s m).

Definition ptdev sv : trans_dev T := tdev (tdev_current sv).

(** [ptdev->read(buf, len)] and [ptdev->write(buf, len)]. *)
Definition dev_read sv (buf len : Z) : option (server * Z) :=
  '(t, m, ret) ← t_read (ptdev sv) (host sv) (sv_ram sv) buf len;
  Some (with_ram (with_host sv t) m, ret).
Definition dev_write sv (buf len : Z) : option (server * Z) :=
  '(t, ret) ← t_write (ptdev sv) (host sv) (bytes_at (sv_ram sv) buf (Z.to_nat len));
  Some (with_host sv t, ret).

Definition iuw_send_cmd sv (cmd para0 para1 : Z) : option (server * Z) :=
  let sv := with_ram sv (iuw_pack_cmd (sv_ram sv) (pack sv) cmd para0 para1) in
  '(sv, ret) ← dev_write sv (pack sv) IUW_CMD_LEN;
  Some (sv, if ret <? 0 then -1 else 0).

Definition iuw_shake_hand sv (subcmd para : Z) : option (server * Z) :=
  '(sv, ret) ← iuw_send_cmd sv IUW_CMD_READY (u32 subcmd) (u32 para);
  if ret <? 0 then Some (sv, -1) else
  '(sv, ret) ← dev_read sv (pack sv) IUW_CMD_LEN;
  if ret <? IUW_CMD_LEN then Some (sv, ret) else
  if iuw_is_cmd (sv_ram sv) (pack sv) && (iuw_cmd_cmd (sv_ram sv) (pack sv) =? IUW_CMD_READY)
  then Some (sv, 0) else Some (sv, -1).

Definition iuw_set_dev sv (id : Z) : server * Z :=
  if (id =? TDEV_ETH) || (id =? TDEV_UDC)
  then (Server (stn sv) (host sv) id (pack sv), 0) else (sv, -1).

Definition drop_pack sv : server :=
  with_pack (with_stn sv (set_wd (stn sv) (free dr (wd (stn sv)) (pack sv)))) NULL.

Definition iuw_connect sv : option (server * Z) :=
  '(t, ret) ← t_connect (ptdev sv) (host sv);
  let sv := with_host sv t in
  if ret <? 0 then Some (sv, ret) else
  let sv := if pack sv =? NULL
            then let '(w, p) := malloc dr (wd (stn sv)) IR_MAX_BUFFER in
                 with_pack (with_stn sv (set_wd (stn sv) w)) p
            else sv in
  if pack sv =? NULL then Some (drop_pack sv, ret) else
  '(sv, ret) ← iuw_shake_hand sv 0 0;
  Some (if ret =? 0 then (sv, 0) else (drop_pack sv, ret)).

Definition iuw_close sv : server * Z := (drop_pack sv, 0).

Definition init_iuw sv : server * Z := (Server (stn sv) (host sv) TDEV_ETH (pack sv), 0).

(** ** Reading and writing on behalf of the host *)

Definition is_one_of (x : Z) (l : list Z) : bool := existsb (Z.eqb x) l.

Definition iuw_local_rw sv (buf offs len opt : Z) : option server :=
  let m := sv_ram sv in
  if is_one_of opt [IUW_CMD_VSRD; IUW_CMD_NBRD; IUW_CMD_NRRD] then
    '(st, _) ← do_read hw null_cfg dr0 CONFIG_ENABLE_UDISK spn (stn sv) buf offs len 0;
    Some (with_stn sv st)
  else if is_one_of opt [IUW_CMD_VSWR; IUW_CMD_NBWR; IUW_CMD_NRWR; IUW_CMD_NFWR] then
    Some (with_stn sv (do_write (stn sv) buf offs len))
  else if opt =? IUW_CMD_MMRD then Some (with_ram sv (memcpy m buf (u32 offs) (u32 len)))
  else if opt =? IUW_CMD_MMWR then Some (with_ram sv (memcpy m (u32 offs) buf (u32 len)))
  else if opt =? IUW_CMD_HASH then
    Some (with_sec sv (hash_data eng (sec (stn sv)) m buf len).1 m)
  else if is_one_of opt [IUW_CMD_ENC; IUW_CMD_DEC] then
    let '(s, m, _) := ss_aes_data eng (sec (stn sv)) m buf (buf + Z.shiftr IR_MAX_BUFFER 1) len in
    Some (with_sec sv s m)
  else Some sv.

(** The device of a command, [DEV_NONE] for those that need none. *)
Definition rw_id (m : mem) (buf opt : Z) : Z :=
  if is_one_of opt [IUW_CMD_VSRD; IUW_CMD_VSWR] then iuw_cmd_id m buf
  else if is_one_of opt [IUW_CMD_NBRD; IUW_CMD_NBWR] then DEV_BND
  else if is_one_of opt [IUW_CMD_NRRD; IUW_CMD_NRWR] then DEV_NAND
  else if is_one_of opt [IUW_CMD_NFWR; IUW_CMD_NFRD] then DEV_FND
  else DEV_NONE.

Definition is_memory (opt : Z) : bool := is_one_of opt [IUW_CMD_MMRD; IUW_CMD_MMWR].
Definition is_crypt (opt : Z) : bool := is_one_of opt [IUW_CMD_ENC; IUW_CMD_DEC].

(** How a command ends before its data: [goto __exit_error__], or a plain
    [return]. *)
Inductive early := Exit_error | Return (ret : Z).

(** Selecting the device: its block size if it is a view of the NAND chip,
    the bytes it takes per step and the bytes that pass per step. *)
Definition rw_device sv (id remain : Z) : server * (early + Z * Z * Z) :=
  let is_dev st nm := is_device hw null_cfg dr0 CONFIG_ENABLE_UDISK spn st id nm in
  let '(st, ret) := assign_id hw null_cfg dr0 CONFIG_ENABLE_UDISK spn (stn sv) id 1 in
  let sv := with_stn sv st in
  if ret <? 0 then (sv, inl Exit_error) else
  if is_dev st n_bnd || is_dev st n_nnd || is_dev st n_fnd then
    match (if is_dev st n_bnd then boot_config (wd st) else normal_config (wd st)) with
    | None => (sv, inl (Return (- ENOCFG)))
    | Some nc =>
        let skip := s32 (blocksize nc) in
        if is_dev st n_fnd then
          if negb (fnd_size_match (wd st) (u32 remain)) then (sv, inl Exit_error) else
          let exstep := s32 (fnd_align (wd st)) in
          let '(w, step) := vs_align dr CONFIG_ENABLE_UDISK (cur st) (wd st) id in
          (with_stn sv (set_wd st w), inr (skip, step, exstep))
        else (sv, inr (skip, IR_MAX_BUFFER, IR_MAX_BUFFER))
    end
  else (sv, inr (0, IR_MAX_BUFFER, IR_MAX_BUFFER)).

(** What does not change while the data passes. *)
Record transfer := Transfer {
  opt : Z; rskip : Z; rstep : Z; exstep : Z; rhash : Z; size : Z
}.

(** The variables of the loop. *)
Record rw_vars := RwVars { rw_offs : Z; rw_remain : Z; rw_leeway : Z; rw_encrypt : bool }.

(** Data from the host; the first packet tells whether it is an image to be
    encrypted. *)
Definition rw_receive (j : transfer) sv (len remain : Z) (encrypt : bool) : option (server * bool) :=
  if opt_is_write (opt j) then
    '(sv, _) ← dev_read sv (pack sv) len;
    Some (if size j =? remain then
      let '(s, m, r) := Isi.isi_check_header eng sp (sec (stn sv)) (sv_ram sv) (pack sv) in
      let sv := with_sec sv s m in
      if (r =? 0) && Isi.isi_is_secure (sv_ram sv) (pack sv) then
        (with_sec sv (ss_aes_init eng (sec (stn sv)) ENCRYPTION None __irom_ver).1 (sv_ram sv), true)
      else (sv, encrypt)
    else (sv, encrypt))
  else Some (sv, encrypt).

(** One turn of the loop; [None] as the second part is [__exit_error__]. *)
Definition rw_turn (j : transfer) sv (v : rw_vars) : option (server * option rw_vars) :=
  let len := Z.min (rw_remain v) (exstep j) in
  '(sv, encrypt) ← rw_receive j sv len (rw_remain v) (rw_encrypt v);
  let sv := if encrypt : bool
            then let '(s, m, _) := ss_aes_data eng (sec (stn sv)) (sv_ram sv) (pack sv) (pack sv) len in
                 with_sec sv s m
            else sv in
  '(st, place) ←
    (if negb (rskip j =? 0) && (Z.land (rw_offs v) (rskip j - 1) =? 0)
     then skip_bad (S (Z.to_nat (rw_leeway v))) (stn sv) (rskip j) (rw_offs v) (rw_leeway v)
     else Some (stn sv, Some (rw_offs v, rw_leeway v)));
  let sv := with_stn sv st in
  match place with
  | None => Some (sv, None)
  | Some (offs, leeway) =>
      sv ← iuw_local_rw sv (pack sv) offs (if 0 <=? rhash j then len else exstep j) (opt j);
      '(sv, _) ← (if opt_is_read (opt j) then dev_write sv (pack sv) len else Some (sv, 0));
      '(sv, _) ← (if is_crypt (opt j)
                  then '(sv, _) ← iuw_shake_hand sv 0 0;
                       '(sv, _) ← dev_write sv (pack sv + Z.shiftr IR_MAX_BUFFER 1) len;
                       iuw_shake_hand sv 0 0
                  else Some (sv, 0));
      Some (sv, Some (RwVars (s64 (offs + rstep j)) (s32 (rw_remain v - len)) leeway encrypt))
  end.

Fixpoint rw_loop (fuel : nat) (j : transfer) sv (v : rw_vars) : option (server * bool) :=
  if rw_remain v <=? 0 then Some (sv, true) else
  match fuel with
  | O => None
  | S fuel =>
      '(sv, r) ← rw_turn j sv v;
      match r with
      | None => Some (sv, false)
      | Some v => rw_loop fuel j sv v
      end
  end.

Definition exit_error sv : option (server * Z) :=
  '(sv, _) ← iuw_send_cmd sv IUW_CMD_ERROR 0 0; Some (sv, -1).

(** After the data: the digest, the final handshake. *)
Definition rw_finish (j : transfer) sv : option (server * Z) :=
  '(sv, ok) ←
    (if 0 <=? rhash j then
      '(sv, _) ← iuw_shake_hand sv IUW_SUB_STEP (hash_len eng (sec (stn sv)));
      let '(s, m, r) := hash_value eng (sec (stn sv)) (sv_ram sv) (pack sv) in
      let sv := with_sec sv s m in
      if r <? 0 then Some (sv, false)
      else '(sv, _) ← dev_write sv (pack sv) (hash_len eng (sec (stn sv))); Some (sv, true)
    else Some (sv, true));
  if negb ok then exit_error sv else
  '(sv, _) ← (if is_crypt (opt j) then Some (sv, 0) else iuw_shake_hand sv 0 0);
  Some (sv, 0).

(** The key for encryption comes from the host or is the chip's. *)
Definition rw_crypt sv (opt : Z) (isk : bool) : option (server * Z) :=
  if is_crypt opt then
    '(sv, key) ←
      (if isk then Some (sv, None)
      else '(sv, _) ← dev_read sv (pack sv) IUW_AES_KEYLEN;
           Some (sv, Some (bytes_at (sv_ram sv) (pack sv) (Z.to_nat IUW_AES_KEYLEN))));
    let '(s, ret) := ss_aes_init eng (sec (stn sv)) (aes_option opt) key __irom_ver in
    Some (with_sec sv s (sv_ram sv), ret)
  else Some (sv, 0).

Definition iuw_process_rw (fuel : nat) sv (buf : Z) : option (server * Z) :=
  let m := sv_ram sv in
  let opt := iuw_cmd_cmd m buf in
  let id := rw_id m buf opt in
  let offs := if is_memory opt then iuw_cmd_addr m buf else iuw_cmd_offs m buf in
  let remain := if is_memory opt || is_crypt opt || (opt =? IUW_CMD_HASH)
                then s32 (iuw_cmd_para m buf 1) else iuw_cmd_len m buf in
  let max := u32 (iuw_cmd_max m buf) in
  let isk := iuw_cmd_crypt_isk m buf in
  let hash := if opt =? IUW_CMD_HASH then s32 (iuw_cmd_hash_type m buf) else -1 in
  let sv := if opt =? IUW_CMD_HASH
            then with_sec sv (hash_init eng (sec (stn sv)) hash (s32 (iuw_cmd_hash_len m buf))).1 m
            else sv in
  let '(sv, target) :=
    if id =? DEV_NONE
    then (sv, inr (0, IR_MAX_BUFFER, if is_crypt opt then Z.shiftr IR_MAX_BUFFER 1 else IR_MAX_BUFFER))
    else rw_device sv id remain in
  match target with
  | inl Exit_error => exit_error sv
  | inl (Return ret) => Some (sv, ret)
  | inr (skip, step, exstep) =>
      let sv := if opt_is_write opt && negb (vs_device_erasable dr CONFIG_ENABLE_UDISK id =? 0)
                then with_stn sv (do_erase (stn sv) offs max) else sv in
      '(sv, ret) ← rw_crypt sv opt isk;
      if ret <? 0 then exit_error sv else
      '(sv, ret) ← iuw_shake_hand sv IUW_SUB_STEP exstep;
      if negb (ret =? 0) then Some (sv, -2) else
      let j := Transfer opt skip step exstep hash remain in
      '(sv, ok) ← rw_loop fuel j sv (RwVars offs remain (s32 (max - remain)) false);
      if ok : bool then rw_finish j sv else exit_error sv
  end.

(** ** The server *)

(** The identity is the header of a package: [cdbg_verify_burn] ends when it
    passes the check. *)
Definition iuw_check_identity sv : option (server * Z) :=
  let len := Ius.ius_hdr_size in
  '(sv, ret) ← iuw_shake_hand sv IUW_SUB_STEP len;
  if negb (ret =? 0) then Some (sv, -2) else
  '(sv, _) ← dev_read sv (pack sv) len;
  let '(st, pass) := verified eng __irom_ver sp (stn sv) (pack sv) in
  let sv := with_stn sv st in
  if negb pass then '(sv, _) ← iuw_send_cmd sv IUW_CMD_ERROR 2 0; Some (sv, 0) else
  let sv := with_stn sv (set_dbg st (Cdbg.cdbg_verify_burn_enable (dbg st) false [])) in
  '(sv, ret) ← iuw_shake_hand sv 0 0;
  Some (sv, if negb (ret =? 0) then -2 else 0).

(** The commands that are refused while only verified packages may be
    burnt. *)
Definition secure_cmds (fuel : nat) sv (cmd : Z) : option server :=
  if is_one_of cmd [IUW_CMD_VSRD; IUW_CMD_VSWR; IUW_CMD_MMRD; IUW_CMD_MMWR; IUW_CMD_NBWR; IUW_CMD_NBRD;
                    IUW_CMD_NRWR; IUW_CMD_NRRD; IUW_CMD_NFWR; IUW_CMD_HASH; IUW_CMD_ENC; IUW_CMD_DEC]
  then fst <$> iuw_process_rw fuel sv (pack sv)
  else if is_one_of cmd [IUW_CMD_JUMP; IUW_CMD_CONFIG]
  then fst <$> iuw_send_cmd sv IUW_CMD_ERROR 0 0
  else '(sv, r) ← iuw_extra sv;
       if negb (r =? 0) then fst <$> iuw_send_cmd sv IUW_CMD_ERROR 0 0 else Some sv.

(** One turn of the server, with the failed reads so far: it goes on with
    [inl retry] or ends with [inr] its result. *)
Definition serve (fuel : nat) sv (retry : Z) : option (server * (Z + Z)) :=
  '(sv, ret) ← dev_read sv (pack sv) IUW_CMD_LEN;
  let result := iuw_cmd_para (sv_ram sv) (pack sv) 0 in
  if ret <? 0 then Some (sv, if retry <? IUW_RETRY then inl (retry + 1) else inr result) else
  let cmd := iuw_cmd_cmd (sv_ram sv) (pack sv) in
  if cmd =? IUW_CMD_FINISH then Some (sv, inr result) else
  sv ← (if cmd =? IUW_CMD_IDENTIFY then fst <$> iuw_check_identity sv
        else if is_one_of cmd [IUW_CMD_READY; IUW_CMD_ERROR] || Cdbg.cdbg_verify_burn (dbg (stn sv))
        then fst <$> iuw_send_cmd sv IUW_CMD_ERROR 0 0
        else secure_cmds fuel sv cmd);
  Some (sv, inl retry).

Fixpoint iuw_server (n fuel : nat) sv (retry : Z) : option (server * Z) :=
  match n with
  | O => None
  | S n =>
      '(sv, r) ← serve fuel sv retry;
      match r with
      | inl retry => iuw_server n fuel sv retry
      | inr result => Some (sv, result)
      end
  end.
End Server.

(** ** Commands: packed and read back *)

Lemma cmd_sum_range m buf : 0 <= cmd_sum m buf < 2 ^ 32.
Proof.
  unfold cmd_sum. generalize (bytes_at m buf (Z.to_nat (IUW_CMD_LEN - 4))).
  intros l. assert (Hl : forall t, 0 <= t < 2 ^ 32 ->
    0 <= fold_left (fun tmp c => u32 (tmp + c)) l t < 2 ^ 32); [|by apply Hl].
  induction l as [|c l IH]; intros t Ht; [done|]. apply IH, u32_range.
Qed.

Lemma cmd_sum_same m m' buf : same_on m m' buf 28 -> cmd_sum m' buf = cmd_sum m buf.
Proof. intros Hs. unfold cmd_sum. f_equal. by apply bytes_at_ext. Qed.

Lemma cmd_word cmd : 0 <= cmd < 2 ^ 24 -> Z.lor cmd (Z.shiftl IUW_CMD_MAGIC 24) = cmd + IUW_CMD_MAGIC * 2 ^ 24.
Proof. intros Hc. rewrite Z.shiftl_mul_pow2 by lia. rewrite lor_low_high by lia. lia. Qed.

Lemma iuw_pack_frame m buf cmd para0 para1 :
  same_except m (iuw_pack_cmd m buf cmd para0 para1) buf (Z.to_nat IUW_CMD_LEN).
Proof.
  change (Z.to_nat IUW_CMD_LEN) with 32%nat. intros q Hq.
  unfold iuw_pack_cmd, store32, IUW_CMD_LEN. rewrite !store_outside by (rewrite length_le_put; lia).
  unfold memset. rewrite memset_spec. change (Z.of_nat (Z.to_nat (u32 32))) with 32.
  destruct (_ && _) eqn:E; [lia|done].
Qed.

Lemma iuw_pack_ok m buf cmd para0 para1 : mem_ok m -> mem_ok (iuw_pack_cmd m buf cmd para0 para1).
Proof.
  intros Hm. unfold iuw_pack_cmd, store32. repeat apply mem_ok_store; try apply bytes_ok_le_put.
  intros q. unfold memset. rewrite memset_spec. destruct (_ && _); [done|apply Hm].
Qed.

(** A command that is packed passes the check of the receiver, who reads
    the command and the parameters that were packed; nothing outside the 32
    bytes changes. *)
Theorem iuw_pack_roundtrip m buf cmd para0 para1 :
  0 <= cmd < 2 ^ 24 -> is_u32 para0 -> is_u32 para1 ->
  let m' := iuw_pack_cmd m buf cmd para0 para1 in
  iuw_is_cmd m' buf = true /\ iuw_cmd_cmd m' buf = cmd /\
  iuw_cmd_para m' buf 0 = para0 /\ iuw_cmd_para m' buf 1 = para1 /\
  same_except m m' buf (Z.to_nat IUW_CMD_LEN).
Proof.
  intros Hc H0 H1 m'.
  cut (iuw_is_cmd m' buf = true /\ iuw_cmd_cmd m' buf = cmd /\
    iuw_cmd_para m' buf 0 = para0 /\ iuw_cmd_para m' buf 1 = para1).
  { intros (? & ? & ? & ?). split_and!; try assumption. apply iuw_pack_frame. }
  unfold m', iuw_pack_cmd.
  rewrite cmd_word, u32_small by (unfold IUW_CMD_MAGIC; lia).
  set (w := cmd + IUW_CMD_MAGIC * 2 ^ 24). set (m1 := memset m buf 0 IUW_CMD_LEN).
  set (m4 := store32 (store32 (store32 m1 buf w) (buf + 4) para0) (buf + 8) para1).
  unfold is_u32, IUW_CMD_LEN, IUW_CMD_MAGIC in *. change (32 - 4) with 28.
  assert (Hsum : cmd_sum (store32 m4 (buf + 28) (cmd_sum m4 buf)) buf = cmd_sum m4 buf).
  { apply cmd_sum_same. intros q Hq. apply store_outside. rewrite length_le_put. lia. }
  unfold iuw_is_cmd, iuw_cmd_cmd, iuw_cmd_para. rewrite Hsum. change (IUW_CMD_LEN - 4) with 28.
  change (Z.shiftl 0 2) with 0. change (Z.shiftl 1 2) with 4. rewrite Z.add_0_r.
  replace (buf + 4 + 4) with (buf + 8) by lia.
  pose proof (cmd_sum_range m4 buf) as Hr.
  rewrite load32_store32, (Z.mod_small (cmd_sum m4 buf)), Z.eqb_refl by lia.
  set (c := cmd_sum m4 buf) in *. clearbody c. unfold m4. split_and!.
  - rewrite andb_true_r. apply Z.eqb_eq. unfold store32 at 1 2 3.
    rewrite !store_outside by (rewrite length_le_put; lia). unfold store32.
    rewrite (store_inside _ _ _ _ 0) by (rewrite length_le_put; lia).
    replace (buf + 3 - buf) with 3 by lia. change (Z.to_nat 3) with 3%nat. cbn [le_put nth].
    unfold w. rewrite !Z.div_div by lia. change (256 * (256 * 256)) with (2 ^ 24).
    rewrite Z.div_add, Z.div_small by lia. done.
  - rewrite 3!load32_store32_ne, load32_store32, Z.mod_small by (unfold w; lia).
    change 0xffffff with (2 ^ 24 - 1). rewrite IusProofs.land_low by lia. unfold w.
    rewrite Z.mod_add by lia. by apply Z.mod_small.
  - rewrite 2!load32_store32_ne, load32_store32, Z.mod_small by lia. done.
  - rewrite load32_store32_ne, load32_store32, Z.mod_small by lia. done.
Qed.

Lemma iuw_pack_roundtrip_witness :
  let m' := iuw_pack_cmd (fun _ => 7) 0x1000 IUW_CMD_READY IUW_SUB_STEP 0x4000 in
  iuw_is_cmd m' 0x1000 = true /\ iuw_cmd_cmd m' 0x1000 = IUW_CMD_READY /\
  iuw_cmd_para m' 0x1000 0 = IUW_SUB_STEP /\ iuw_cmd_para m' 0x1000 1 = 0x4000 /\
  same_except (fun _ => 7) m' 0x1000 (Z.to_nat IUW_CMD_LEN).
Proof. apply iuw_pack_roundtrip; unfold is_u32, IUW_CMD_READY, IUW_SUB_STEP; lia. Defined.

(** ** A server that accepts verified packages only *)

(** The transports write bytes, to the buffer only. *)
Class Transports {T} (tdev : Z -> trans_dev T) : Prop :=
  t_read_ok : forall i t m buf n t' m' r, 0 <= n -> t_read (tdev i) t m buf n = Some (t', m', r) ->
    same_except m m' buf (Z.to_nat n) /\ (mem_ok m -> mem_ok m').

(** USB does, when the controller does. *)
Lemma udc_transports {C} (init : Udc.udc C -> Udc.udc C * Z) event start_out start_in enable received n fuel :
  Udc.obedient event start_out received ->
  Transports (fun _ => Udc.transport init event start_out start_in enable received n fuel).
Proof. intros Ho i t m buf len t' m' r Hl E. by apply (Udc.udc_read_inside _ _ _ _ _ _ _ _ _ _ _ _ Ho Hl E). Qed.

Section Locked.
Context {H R E T : Type} (hw : nand_hw H) (null_cfg : nand_config) (eng : engine E).
Context (dr0 : drivers (devices H R)) (udisk : bool) (irom : list Z).
Context (sp spn : Z) (tdev : Z -> trans_dev T) `{TR : !Transports tdev}.
Abbreviation D := (devices H R).
Abbreviation server := (server D E T).
Context (iuw_extra : server -> option (server * Z)).
Context (Hc : IusProofs.cipher_ok eng).
Implicit Type sv : server.

(** The board burns verified packages only. *)
Definition locked sv : Prop := Cdbg.cdbg_verify_burn (dbg (stn sv)) = true.

(** Nothing but the addresses [Q], the package buffer, the local of the check
    and the security drivers' own state may differ. *)
Record confined (Q : Z -> Prop) sv sv' : Prop := {
  in_ram q : ~ Q q -> ~ pack sv <= q < pack sv + IR_MAX_BUFFER -> ~ sp <= q < sp + 4 ->
    sv_ram sv' q = sv_ram sv q;
  in_ok : mem_ok (sv_ram sv) -> mem_ok (sv_ram sv');
  in_dev : dev (wd (stn sv')) = dev (wd (stn sv));
  in_cur : cur (stn sv') = cur (stn sv);
  in_dbg : dbg (stn sv') = dbg (stn sv);
  in_boot : boottype (stn sv') = boottype (stn sv);
  in_pack : pack sv' = pack sv;
  in_tdev : tdev_current sv' = tdev_current sv
}.

(** Nowhere else. *)
Abbreviation inert := (confined (fun _ => False)).

Lemma inert_refl sv : inert sv sv.
Proof. by split. Qed.

Lemma confined_trans (Q1 Q2 Q : Z -> Prop) sv1 sv2 sv3 :
  (forall q, Q1 q \/ Q2 q -> Q q) ->
  confined Q1 sv1 sv2 -> confined Q2 sv2 sv3 -> confined Q sv1 sv3.
Proof.
  intros HQ [A1 A2 A3 A4 A5 A6 A7 A8] [B1 B2 B3 B4 B5 B6 B7 B8]. rewrite A7 in *.
  split; try congruence; auto. intros q Hq Hb Hs. rewrite B1, A1; auto.
Qed.

Lemma inert_trans sv1 sv2 sv3 : inert sv1 sv2 -> inert sv2 sv3 -> inert sv1 sv3.
Proof. apply confined_trans. by intros q [[]|[]]. Qed.

Lemma inert_ram sv m n :
  0 <= n <= IR_MAX_BUFFER -> same_except (sv_ram sv) m (pack sv) (Z.to_nat n) ->
  (mem_ok (sv_ram sv) -> mem_ok m) -> inert sv (with_ram sv m).
Proof.
  intros Hn Hs Hm. split; try done. intros q _ Hq _. cbn. apply Hs. unfold IR_MAX_BUFFER in *. lia.
Qed.

Lemma dev_read_inert sv n sv' r :
  0 <= n <= IR_MAX_BUFFER -> dev_read tdev sv (pack sv) n = Some (sv', r) -> inert sv sv'.
Proof.
  intros Hn. unfold dev_read. destruct (t_read _ _ _ _ _) as [[[t m] r']|] eqn:Et; [|done]. intros [= <- _].
  destruct (t_read_ok (tdev := tdev) _ _ _ _ _ _ _ _ (proj1 Hn) Et) as [Hs Hm].
  apply (inert_trans _ (with_host sv t)); [by split|]. by apply (inert_ram _ _ n Hn).
Qed.

Lemma dev_write_inert sv p n sv' r : dev_write tdev sv p n = Some (sv', r) -> inert sv sv'.
Proof. unfold dev_write. destruct (t_write _ _ _) as [[t r']|]; [|done]. intros [= <- _]. by split. Qed.

Lemma iuw_send_cmd_inert sv c p0 p1 sv' r : iuw_send_cmd tdev sv c p0 p1 = Some (sv', r) -> inert sv sv'.
Proof.
  unfold iuw_send_cmd. set (sv1 := with_ram sv _).
  destruct (dev_write tdev sv1 (pack sv1) IUW_CMD_LEN) as [[sv2 r2]|] eqn:Ew; [|done]. intros [= <- _].
  apply dev_write_inert in Ew. apply (inert_trans _ sv1); [|done].
  apply (inert_ram _ _ IUW_CMD_LEN); [done|apply iuw_pack_frame|apply iuw_pack_ok].
Qed.

Lemma iuw_shake_hand_inert sv sub para sv' r : iuw_shake_hand tdev sv sub para = Some (sv', r) -> inert sv sv'.
Proof.
  unfold iuw_shake_hand. destruct (iuw_send_cmd _ _ _ _ _) as [[sv1 r1]|] eqn:E1; [|done].
  apply iuw_send_cmd_inert in E1. cbn [mbind option_bind].
  destruct (r1 <? 0); [by intros [= <- _]|]. destruct (dev_read _ _ _ _) as [[sv2 r2]|] eqn:E2; [|done].
  apply dev_read_inert in E2; [|done]. cbn [mbind option_bind].
  pose proof (inert_trans _ _ _ E1 E2) as I.
  destruct (r2 <? IUW_CMD_LEN); [by intros [= <- _]|]. destruct (_ && _); by intros [= <- _].
Qed.

(** The next command is an identification and the card that comes with it
    passes the check. *)
Definition accepts sv : bool :=
  match dev_read tdev sv (pack sv) IUW_CMD_LEN with
  | Some (sv, ret) =>
      if ret <? 0 then false else
      if iuw_cmd_cmd (sv_ram sv) (pack sv) =? IUW_CMD_IDENTIFY then
        match iuw_shake_hand tdev sv IUW_SUB_STEP Ius.ius_hdr_size with
        | Some (sv, 0) =>
            match dev_read tdev sv (pack sv) Ius.ius_hdr_size with
            | Some (sv, _) => (verified eng irom sp (stn sv) (pack sv)).2
            | None => false
            end
        | _ => false
        end
      else false
  | None => false
  end.

(** The buffer for packages and the local of the check do not overlap. *)
Record placed sv : Prop := {
  pl_ok : mem_ok (sv_ram sv);
  pl_apart : apart sp 4 (pack sv) Ius.ius_hdr_size
}.

Lemma inert_placed sv sv' : inert sv sv' -> placed sv -> placed sv'.
Proof. intros I [P1 P2]. split; [by apply (in_ok _ _ _ I)|by rewrite (in_pack _ _ _ I)]. Qed.

Lemma inert_locked sv sv' : inert sv sv' -> locked sv -> locked sv'.
Proof. intros I L. unfold locked. by rewrite (in_dbg _ _ _ I). Qed.

Lemma verified_inert sv st' pass :
  placed sv -> verified eng irom sp (stn sv) (pack sv) = (st', pass) -> inert sv (with_stn sv st').
Proof.
  intros [P1 P2]. unfold verified. destruct (Ius.ius_check_header _ _ _ _ _ _ _ _) as [[s m] r] eqn:Eh.
  intros [= <- <-]. destruct (IusProofs.ius_check_header_frame _ _ _ _ _ _ _ _ _ _ _ P1 Hc P2 Eh) as [Hm Hf].
  split; try done. intros q _ Hq Hs. cbn. apply Hf; [|done].
  unfold IR_MAX_BUFFER, Ius.ius_hdr_size in *. lia.
Qed.

Lemma identity_inert sv ret sv1 sv' r :
  placed sv1 -> dev_read tdev sv (pack sv) IUW_CMD_LEN = Some (sv1, ret) -> (ret <? 0) = false ->
  (iuw_cmd_cmd (sv_ram sv1) (pack sv1) =? IUW_CMD_IDENTIFY) = true -> accepts sv = false ->
  iuw_check_identity eng irom sp tdev sv1 = Some (sv', r) -> inert sv1 sv'.
Proof.
  intros P Er Eneg Ecmd. unfold accepts. rewrite Er, Eneg, Ecmd. clear Er. unfold iuw_check_identity.
  destruct (iuw_shake_hand _ _ _ _) as [[sv2 r2]|] eqn:E2; [|done]. apply iuw_shake_hand_inert in E2 as I2.
  cbn [mbind option_bind]. destruct (Z.eqb_spec r2 0) as [->|]; cbn [negb]; [|by intros _ [= <- _]].
  destruct (dev_read _ _ _ _) as [[sv3 r3]|] eqn:E3; [|done].
  apply dev_read_inert in E3 as I3; [|done]. cbn [mbind option_bind].
  destruct (verified _ _ _ _ _) as [st4 pass] eqn:Ev. cbn [snd]. intros ->. cbn [negb].
  destruct (iuw_send_cmd _ _ _ _ _) as [[sv5 r5]|] eqn:E5; [|done]. apply iuw_send_cmd_inert in E5.
  intros [= <- _]. apply (inert_trans _ sv2); [done|]. apply (inert_trans _ sv3); [done|].
  apply (inert_trans _ (with_stn sv3 st4)); [|exact E5].
  apply (verified_inert _ _ false); [|done].
  apply (inert_placed sv2); [done|]. by apply (inert_placed sv1).
Qed.

Abbreviation serve := (serve hw null_cfg eng dr0 udisk irom sp spn tdev iuw_extra).
Abbreviation iuw_server := (iuw_server hw null_cfg eng dr0 udisk irom sp spn tdev iuw_extra).

(** A turn of a locked server that does not accept a card touches nothing. *)
Lemma serve_locked fuel sv retry sv' r :
  locked sv -> placed sv -> accepts sv = false -> serve fuel sv retry = Some (sv', r) -> inert sv sv'.
Proof.
  intros L P A. unfold Iuw.serve.
  destruct (dev_read _ _ _ _) as [[sv1 ret]|] eqn:E1; [|done]. cbn [mbind option_bind].
  apply dev_read_inert in E1 as I1; [|done].
  pose proof (inert_placed _ _ I1 P) as P1. pose proof (inert_locked _ _ I1 L) as L1.
  destruct (ret <? 0) eqn:Er; [by intros [= <- _]|]. destruct (_ =? IUW_CMD_FINISH); [by intros [= <- _]|].
  destruct (_ =? IUW_CMD_IDENTIFY) eqn:Ei.
  - destruct (iuw_check_identity _ _ _ _ _) as [[sv2 r2]|] eqn:E2; [|done]. intros [= <- _].
    apply (inert_trans _ sv1); [done|]. by apply (identity_inert _ _ _ _ _ P1 E1 Er Ei A) in E2.
  - rewrite L1, orb_true_r. destruct (iuw_send_cmd _ _ _ _ _) as [[sv2 r2]|] eqn:E2; [|done]. intros [= <- _].
    apply iuw_send_cmd_inert in E2. by apply (inert_trans _ sv1).
Qed.

(** From one command to the next. *)
Definition serves (fuel : nat) (x y : server * Z) : Prop :=
  serve fuel x.1 x.2 = Some (y.1, inl y.2).

(** C7: until a card is accepted, a board that burns verified packages only
    gives a host nothing: whatever commands came, memory outside the buffer
    for packages (and the local of the check), the devices, the current
    device, the security settings and the boot type are as they were. *)
Theorem locked_server_inert fuel x y :
  locked x.1 -> placed x.1 -> rtc (serves fuel) x y ->
  (locked y.1 /\ inert x.1 y.1) \/
  exists z, rtc (serves fuel) x z /\ locked z.1 /\ inert x.1 z.1 /\ accepts z.1 = true.
Proof.
  intros L P Hr. induction Hr as [x|x y z Hs _ IH].
  - left. split; [done|apply inert_refl].
  - destruct (accepts x.1) eqn:A.
    { right. exists x. split_and!; [done|done|apply inert_refl|done]. }
    pose proof (serve_locked _ _ _ _ _ L P A Hs) as I.
    destruct (IH (inert_locked _ _ I L) (inert_placed _ _ I P)) as [[? I']|(u & ? & ? & I' & ?)].
    + left. split; [done|]. by apply (inert_trans _ y.1).
    + right. exists u. split_and!; [by apply (rtc_l _ _ y)|done|by apply (inert_trans _ y.1)|done].
Qed.

End Locked.

(** ** Writing to memory for a host that delivers what it announced *)

(** [reads t]: the packets the host is about to send, [sent t] what was sent
    to it.  A read that was served says how much came, or 0 as USB does. *)
Class Willing {T} (tdev : Z -> trans_dev T) (reads sent : T -> list (list Z)) : Prop := {
  w_read i t m buf p l : reads t = p :: l -> (0 < length p)%nat -> Z.of_nat (length p) <= IR_MAX_BUFFER ->
    exists t' r, t_read (tdev i) t m buf (Z.of_nat (length p)) = Some (t', store m buf p, r) /\
      (r = 0 \/ r = Z.of_nat (length p)) /\ reads t' = l /\ sent t' = sent t;
  w_write i t l : (0 < length l)%nat -> Z.of_nat (length l) <= IR_MAX_BUFFER ->
    exists t' r, t_write (tdev i) t l = Some (t', r) /\ 0 <= r /\ reads t' = reads t /\ sent t' = sent t ++ [l]
}.

(** A command as a packet. *)
Definition command (cmd para0 para1 : Z) : list Z :=
  bytes_at (iuw_pack_cmd (fun _ => 0) 0 cmd para0 para1) 0 (Z.to_nat IUW_CMD_LEN).

(** A packed command is the same everywhere. *)
Definition copied (m m0 : mem) (buf : Z) : Prop := forall i, 0 <= i < IUW_CMD_LEN -> m (buf + i) = m0 i.

Lemma copied_store32 m m0 buf o v : copied m m0 buf -> copied (store32 m (buf + o) v) (store32 m0 o v) buf.
Proof.
  intros H i Hi. unfold store32. destruct (decide (o <= i < o + 4)) as [Hin|Hout].
  - rewrite (store_inside _ _ _ _ 0), (store_inside _ _ _ _ 0) by (rewrite length_le_put; lia).
    by replace (buf + i - (buf + o)) with (i - o) by lia.
  - rewrite !store_outside by (rewrite length_le_put; lia). by apply H.
Qed.

Lemma copied_bytes m m0 buf n : copied m m0 buf -> (n <= Z.to_nat IUW_CMD_LEN)%nat -> bytes_at m buf n = bytes_at m0 0 n.
Proof. intros H Hn. apply bytes_at_eq_iff. intros i Hi. rewrite H by lia. f_equal. Qed.

Lemma packed_command m buf c p0 p1 :
  bytes_at (iuw_pack_cmd m buf c p0 p1) buf (Z.to_nat IUW_CMD_LEN) = command c p0 p1.
Proof.
  unfold command. apply copied_bytes; [|lia]. unfold iuw_pack_cmd.
  set (m1 := memset m buf 0 IUW_CMD_LEN). set (n1 := memset (fun _ => 0) 0 0 IUW_CMD_LEN).
  assert (copied m1 n1 buf) as C1.
  { intros i Hi. unfold m1, n1, memset. rewrite !memset_spec. change (Z.of_nat (Z.to_nat (u32 IUW_CMD_LEN))) with 32.
    unfold IUW_CMD_LEN in Hi. replace ((buf <=? buf + i) && (buf + i <? buf + 32)) with true by lia.
    by destruct (_ && _). }
  assert (copied (store32 m1 buf (u32 (Z.lor c (Z.shiftl IUW_CMD_MAGIC 24))))
            (store32 n1 0 (u32 (Z.lor c (Z.shiftl IUW_CMD_MAGIC 24)))) buf) as C2.
  { rewrite <- (Z.add_0_r buf) at 1. by apply copied_store32. }
  apply (copied_store32 _ _ _ 4 p0) in C2. apply (copied_store32 _ _ _ 8 p1) in C2.
  change (0 + 4) with 4. change (0 + 8) with 8. change (0 + (IUW_CMD_LEN - 4)) with (IUW_CMD_LEN - 4).
  match goal with |- copied (store32 ?a _ (cmd_sum ?a buf)) (store32 ?b _ (cmd_sum ?b 0)) buf =>
    assert (cmd_sum a buf = cmd_sum b 0) as -> end; [|by apply copied_store32].
  unfold cmd_sum. f_equal. apply copied_bytes; [exact C2|unfold IUW_CMD_LEN; lia].
Qed.

(** A packet that says ready. *)
Definition is_ready (p : list Z) : Prop :=
  length p = Z.to_nat IUW_CMD_LEN /\
  forall m buf, bytes_at m buf (Z.to_nat IUW_CMD_LEN) = p ->
    iuw_is_cmd m buf = true /\ iuw_cmd_cmd m buf = IUW_CMD_READY.

(** The packets of a transfer: full but for the last. *)
Inductive packets : list (list Z) -> Prop :=
| packets_last c : (0 < length c <= Z.to_nat IR_MAX_BUFFER)%nat -> packets [c]
| packets_more c l : length c = Z.to_nat IR_MAX_BUFFER -> packets l -> packets (c :: l).

Section Memory.
Context {H R E T : Type} (hw : nand_hw H) (null_cfg : nand_config) (eng : engine E).
Context (dr0 : drivers (devices H R)) (udisk : bool) (irom : list Z).
Context (sp spn : Z) (tdev : Z -> trans_dev T) `{TR : !Transports tdev}.
Context (reads sent : T -> list (list Z)) `{W : !Willing tdev reads sent}.
Abbreviation D := (devices H R).
Abbreviation server := (server D E T).
Implicit Type sv : server.
Abbreviation confined := (confined sp).
Abbreviation inert := (confined (fun _ => False)).

Lemma with_sec_same sv : with_sec sv (sec (stn sv)) (sv_ram sv) = sv.
Proof. by destruct sv as [[[] ? ? ? ?] ? ? ?]. Qed.

Lemma with_stn_same sv : with_stn sv (stn sv) = sv.
Proof. by destruct sv. Qed.

Lemma dev_read_willing sv n p l :
  reads (host sv) = p :: l -> n = Z.of_nat (length p) -> 0 < n <= IR_MAX_BUFFER ->
  exists sv' r, dev_read tdev sv (pack sv) n = Some (sv', r) /\ (r = 0 \/ r = n) /\
    sv_ram sv' = store (sv_ram sv) (pack sv) p /\ reads (host sv') = l /\ sent (host sv') = sent (host sv) /\
    stn sv' = set_wd (stn sv) (World (sv_ram sv') (dev (wd (stn sv)))) /\ inert sv sv'.
Proof.
  intros Hr -> Hn. pose proof (dev_read_inert sp tdev sv (Z.of_nat (length p))) as I.
  unfold dev_read in *.
  destruct (w_read (tdev_current sv) _ (sv_ram sv) (pack sv) _ _ Hr ltac:(lia) ltac:(lia)) as (t' & r & Et & Hret & Hl & Hs).
  unfold ptdev in *. rewrite Et in *. eexists _, r. split; [reflexivity|]. split_and!; try done.
  apply (I _ r); [lia|done].
Qed.

Lemma dev_write_willing sv p n : 0 < n <= IR_MAX_BUFFER ->
  exists sv' r, dev_write tdev sv p n = Some (sv', r) /\ 0 <= r /\ reads (host sv') = reads (host sv) /\
    sent (host sv') = sent (host sv) ++ [bytes_at (sv_ram sv) p (Z.to_nat n)] /\ stn sv' = stn sv.
Proof.
  intros Hn. unfold dev_write. edestruct w_write as (t' & r & Et & Hr & Hl & Hs); [| |unfold ptdev; rewrite Et].
  - rewrite length_bytes_at. lia.
  - rewrite length_bytes_at. lia.
  - eexists _, _. by split_and!.
Qed.

Lemma iuw_send_cmd_willing sv c p0 p1 :
  exists sv', iuw_send_cmd tdev sv c p0 p1 = Some (sv', 0) /\ reads (host sv') = reads (host sv) /\
    sent (host sv') = sent (host sv) ++ [command c p0 p1].
Proof.
  unfold iuw_send_cmd. set (sv1 := with_ram sv _).
  destruct (dev_write_willing sv1 (pack sv1) IUW_CMD_LEN) as (sv2 & r & -> & Hr & Hl & Hs & _); [done|].
  exists sv2. cbn [mbind option_bind]. destruct (Z.ltb_spec r 0); [lia|]. split_and!; [done|done|].
  rewrite Hs. f_equal. f_equal. apply packed_command.
Qed.

Lemma iuw_shake_hand_willing sv sub para p l :
  reads (host sv) = p :: l -> is_ready p ->
  exists sv', iuw_shake_hand tdev sv sub para = Some (sv', 0) /\ reads (host sv') = l /\ inert sv sv'.
Proof.
  intros Hr [Hp Hok]. pose proof (iuw_shake_hand_inert sp tdev sv sub para) as I.
  unfold iuw_shake_hand in *.
  destruct (iuw_send_cmd_willing sv IUW_CMD_READY (u32 sub) (u32 para)) as (sv1 & E1 & Hl1 & _).
  rewrite E1 in *. cbn [mbind option_bind] in *. change (0 <? 0) with false in *. cbn iota in *.
  destruct (dev_read_willing sv1 IUW_CMD_LEN p l) as (sv2 & r & E2 & Hret & Em & Hl2 & _ & _ & I2);
    [congruence|by rewrite Hp|done|].
  rewrite E2 in *. cbn [mbind option_bind] in *. destruct Hret as [-> | ->].
  - change (0 <? IUW_CMD_LEN) with true in *. cbn iota in *. exists sv2. split_and!; [done|done|by apply (I _ 0)].
  - change (IUW_CMD_LEN <? IUW_CMD_LEN) with false in *. cbn iota in *.
    pose proof (in_pack _ _ _ _ I2) as Hpk.
    destruct (Hok (sv_ram sv2) (pack sv2)) as [Hi Hcmd].
    { rewrite Em, Hpk, <- Hp. apply bytes_at_store. }
    rewrite Hi, Hcmd in *. exists sv2. split_and!; [done|done|by apply (I _ 0)].
Qed.

Abbreviation rw_turn := (rw_turn hw null_cfg eng dr0 udisk irom sp spn tdev).
Abbreviation rw_loop := (rw_loop hw null_cfg eng dr0 udisk irom sp spn tdev).
Abbreviation iuw_process_rw := (iuw_process_rw hw null_cfg eng dr0 udisk irom sp spn tdev).

(** A step of the transfer. *)
Definition mm_transfer (n : Z) : transfer := Transfer IUW_CMD_MMWR 0 IR_MAX_BUFFER IR_MAX_BUFFER (-1) n.

(** [c] does not begin like an image. *)
Definition plain (c : list Z) : Prop := (4 <= length c)%nat /\ le_get (take 4 c) <> Isi.ISI_MAGIC.

(** The addresses of [k] steps from [offs]. *)
Definition steps (offs : Z) (k : nat) (q : Z) : Prop := offs <= q < offs + IR_MAX_BUFFER * Z.of_nat k.

Lemma rw_receive_plain n sv remain c l :
  reads (host sv) = c :: l -> 0 < Z.of_nat (length c) <= IR_MAX_BUFFER -> (n = remain -> plain c) ->
  exists sv', rw_receive eng irom sp tdev (mm_transfer n) sv (Z.of_nat (length c)) remain false = Some (sv', false) /\
    sv_ram sv' = store (sv_ram sv) (pack sv) c /\ reads (host sv') = l /\ inert sv sv'.
Proof.
  intros Hr Hc Hp. unfold rw_receive. cbn [mm_transfer opt size].
  change (opt_is_write IUW_CMD_MMWR) with true. cbn iota.
  destruct (dev_read_willing sv _ c l Hr eq_refl Hc) as (sv1 & ret & E1 & _ & Em & Hl & _ & _ & I).
  rewrite E1. cbn [mbind option_bind]. destruct (Z.eqb_spec n remain) as [Hn|Hn]; [|by exists sv1].
  destruct (Hp Hn) as [Hc4 Hm]. unfold Isi.isi_check_header.
  replace (Isi.magic (sv_ram sv1) (pack sv1)) with (le_get (take 4 c)).
  - destruct (Z.eqb_spec (le_get (take 4 c)) Isi.ISI_MAGIC) as [Eq|_]; [by elim Hm|]. cbn [negb].
    exists sv1. by rewrite with_sec_same.
  - unfold Isi.magic, load32. rewrite Em, (in_pack _ _ _ _ I), <- (take_bytes_at _ _ 4 (length c)) by lia.
    by rewrite bytes_at_store.
Qed.

Lemma inert_confined Q sv1 sv2 sv3 : inert sv1 sv2 -> confined Q sv2 sv3 -> confined Q sv1 sv3.
Proof. apply confined_trans. by intros q [[]|]. Qed.

Lemma confined_inert Q sv1 sv2 sv3 : confined Q sv1 sv2 -> inert sv2 sv3 -> confined Q sv1 sv3.
Proof. apply confined_trans. by intros q [|[]]. Qed.

Lemma confined_ram Q sv m :
  (forall q, ~ Q q -> m q = sv_ram sv q) -> (mem_ok (sv_ram sv) -> mem_ok m) ->
  confined Q sv (with_ram sv m).
Proof. intros Hq Hm. split; try done. intros q Hn _ _. by apply Hq. Qed.

Lemma memcpy_ok m d s n :
  is_u32 n -> d <= s \/ s + n <= d -> mem_ok m -> mem_ok (memcpy m d s n).
Proof.
  intros Hn Hs Hm q. unfold memcpy. rewrite u32_small by done. rewrite copy_up_spec.
  - destruct (_ && _); apply Hm.
  - unfold is_u32 in Hn. lia.
Qed.

Lemma local_mmwr sv buf offs len :
  iuw_local_rw hw null_cfg eng dr0 udisk spn sv buf offs len IUW_CMD_MMWR =
  Some (with_ram sv (memcpy (sv_ram sv) (u32 offs) buf (u32 len))).
Proof. reflexivity. Qed.

Lemma mm_turn n sv offs remain leeway c l :
  reads (host sv) = c :: l -> (n = remain -> plain c) ->
  0 < remain < 2 ^ 31 -> Z.min remain IR_MAX_BUFFER = Z.of_nat (length c) ->
  0 <= offs -> offs + IR_MAX_BUFFER <= 2 ^ 32 -> apart offs IR_MAX_BUFFER (pack sv) IR_MAX_BUFFER ->
  exists sv', rw_turn (mm_transfer n) sv (RwVars offs remain leeway false) =
      Some (sv', Some (RwVars (offs + IR_MAX_BUFFER) (remain - Z.of_nat (length c)) leeway false)) /\
    reads (host sv') = l /\ bytes_at (sv_ram sv') offs (length c) = c /\ confined (steps offs 1) sv sv'.
Proof.
  intros Hr Hp Hrem Hlen Ho Ho2 Ha. unfold Iuw.rw_turn, IR_MAX_BUFFER in *.
  cbn [rw_remain rw_offs rw_leeway rw_encrypt mm_transfer exstep rskip rhash opt rstep].
  unfold IR_MAX_BUFFER. rewrite Hlen.
  destruct (rw_receive_plain n sv remain c l Hr) as (sv1 & E1 & Em & Hl & I);
    [unfold IR_MAX_BUFFER; lia|done|].
  change (Transfer IUW_CMD_MMWR 0 0x4000 0x4000 (-1) n) with (mm_transfer n). rewrite E1.
  cbn [mm_transfer rskip rhash exstep opt rstep].
  change (0 =? 0) with true. change (0 <=? -1) with false. cbn [negb andb mbind option_bind].
  rewrite with_stn_same. rewrite local_mmwr.
  change (opt_is_read IUW_CMD_MMWR) with false. change (is_crypt IUW_CMD_MMWR) with false.
  cbn [mbind option_bind]. change (u32 0x4000) with 0x4000.
  rewrite (u32_small offs) by lia. rewrite s64_small, s32_small by lia.
  eexists. split; [done|].
  assert (offs <= pack sv1 \/ pack sv1 + 0x4000 <= offs) as Hs.
  { rewrite (in_pack _ _ _ _ I). unfold apart in Ha. lia. }
  destruct (memcpy_moved (sv_ram sv1) offs (pack sv1) 0x4000) as [Hb Hx]; [done|done|].
  assert (Z.of_nat (Z.to_nat 0x4000) = 0x4000) as Hk by (by rewrite Z2Nat.id).
  set (k := Z.to_nat 0x4000) in *. clearbody k.
  split_and!; [done| |].
  - change (sv_ram (with_ram sv1 ?m)) with m. rewrite <- (take_bytes_at _ _ _ k) by lia.
    rewrite Hb, take_bytes_at, Em, (in_pack _ _ _ _ I) by lia. apply bytes_at_store.
  - apply (inert_confined _ _ sv1); [done|].
    apply confined_ram.
    + intros q Hq. apply Hx. unfold steps, IR_MAX_BUFFER in Hq. lia.
    + intros Hm. by apply memcpy_ok.
Qed.

Lemma bytes_at_kept Q sv sv' p n :
  confined Q sv sv' -> (forall q, p <= q < p + Z.of_nat n ->
    ~ Q q /\ ~ pack sv <= q < pack sv + IR_MAX_BUFFER /\ ~ sp <= q < sp + 4) ->
  bytes_at (sv_ram sv') p n = bytes_at (sv_ram sv) p n.
Proof. intros I Hq. apply bytes_at_ext. intros q Hin. destruct (Hq q Hin) as (? & ? & ?). by apply (in_ram _ _ _ _ I). Qed.

Lemma packets_full cs : packets cs ->
  match cs with
  | [] => False
  | c :: cs => (0 < length c)%nat /\
      (cs = [] /\ (length c <= Z.to_nat IR_MAX_BUFFER)%nat \/ packets cs /\ length c = Z.to_nat IR_MAX_BUFFER)
  end.
Proof.
  intros [c Hc|c l Hc Hl]; [split; [lia|left; split; [done|lia]]|].
  split; [|by right]. rewrite Hc. unfold IR_MAX_BUFFER. lia.
Qed.

Lemma mm_loop cs : packets cs -> forall n fuel sv offs remain leeway rest,
  reads (host sv) = cs ++ rest -> remain = Z.of_nat (length (concat cs)) -> remain <= n < 2 ^ 31 ->
  (n = remain -> plain (hd [] cs)) ->
  0 <= offs -> offs + IR_MAX_BUFFER * Z.of_nat (length cs) <= 2 ^ 32 ->
  apart offs (IR_MAX_BUFFER * Z.of_nat (length cs)) (pack sv) IR_MAX_BUFFER ->
  apart offs (IR_MAX_BUFFER * Z.of_nat (length cs)) sp 4 ->
  (length cs <= fuel)%nat ->
  exists sv', rw_loop fuel (mm_transfer n) sv (RwVars offs remain leeway false) = Some (sv', true) /\
    reads (host sv') = rest /\ bytes_at (sv_ram sv') offs (length (concat cs)) = concat cs /\
    confined (steps offs (length cs)) sv sv'.
Proof.
  induction 1 as [c Hc|c l Hc Hl IH]; intros n fuel sv offs remain leeway rest Hr Hrem Hn Hp Ho Ho2 Ha Has Hf;
    (destruct fuel as [|fuel]; [cbn in Hf; lia|]); cbn [concat hd length app] in *;
    assert (Z.of_nat (Z.to_nat IR_MAX_BUFFER) = IR_MAX_BUFFER) as Hk by done;
    assert (0 < IR_MAX_BUFFER) as Hk0 by done;
    rewrite ?app_nil_r, ?length_app, ?Nat2Z.inj_succ, ?Z.mul_succ_r in *.
  - destruct (mm_turn n sv offs remain leeway c rest Hr Hp) as (sv1 & E1 & Hl1 & Hb & I);
      [lia|lia|lia|lia|unfold apart in *; lia|].
    exists sv1. split_and!; try done. cbn [Iuw.rw_loop rw_remain].
    destruct (Z.leb_spec remain 0); [lia|]. rewrite E1. cbn [mbind option_bind].
    replace (remain - Z.of_nat (length c)) with 0 by lia. by destruct fuel.
  - pose proof (packets_full _ Hl) as Hl0. destruct l as [|c' l']; [done|]. set (l := c' :: l') in *.
    assert (0 < length (concat l))%nat by (cbn; rewrite length_app; lia).
    pose proof (Z.mul_nonneg_nonneg IR_MAX_BUFFER (Z.of_nat (length l)) ltac:(lia) ltac:(lia)).
    destruct (mm_turn n sv offs remain leeway c (l ++ rest) Hr Hp) as (sv1 & E1 & Hl1 & Hb & I);
      [lia|lia|lia|lia|unfold apart in *; lia|].
    destruct (IH n fuel sv1 (offs + IR_MAX_BUFFER) (remain - Z.of_nat (length c)) leeway rest Hl1)
      as (sv2 & E2 & Hl2 & Hb2 & I2);
      [lia|lia|lia|lia|lia|rewrite (in_pack _ _ _ _ I); unfold apart in *; lia|unfold apart in *; lia|lia|].
    exists sv2. split_and!.
    + cbn [Iuw.rw_loop rw_remain]. destruct (Z.leb_spec remain 0); [lia|]. rewrite E1. apply E2.
    + done.
    + rewrite bytes_at_app, (bytes_at_kept _ _ _ _ _ I2), Hb.
      * f_equal. rewrite Hc, Hk. done.
      * intros q Hq. rewrite (in_pack _ _ _ _ I). unfold steps, apart in *. lia.
    + apply (confined_trans sp (steps offs 1) (steps (offs + IR_MAX_BUFFER) (length l)) _ sv sv1 sv2); [|done|done].
      intros q. unfold steps. rewrite Nat2Z.inj_succ, Z.mul_succ_r. lia.
Qed.

Lemma packets_room cs :
  packets cs -> Z.of_nat (length (concat cs)) <= IR_MAX_BUFFER * Z.of_nat (length cs).
Proof.
  assert (Z.of_nat (Z.to_nat IR_MAX_BUFFER) = IR_MAX_BUFFER) as Hk by done.
  induction 1; cbn [concat length]; rewrite length_app, Nat2Z.inj_succ, Z.mul_succ_r; cbn; lia.
Qed.

(** C33: a host that writes to memory and keeps to the protocol finds its
    data at the address it asked for, and the command succeeds, if the data do
    not begin like a signed image (the magic of one: a secure one is encrypted
    on the way, to memory too).  Steps are whole: behind the data, up to the
    end of the last step, memory changes too. *)
Theorem iuw_write_memory fuel sv cs r1 r2 rest :
  let addr := iuw_cmd_addr (sv_ram sv) (pack sv) in
  let n := length (concat cs) in
  let room := IR_MAX_BUFFER * Z.of_nat (length cs) in
  iuw_cmd_cmd (sv_ram sv) (pack sv) = IUW_CMD_MMWR ->
  iuw_cmd_para (sv_ram sv) (pack sv) 1 = Z.of_nat n -> Z.of_nat n < 2 ^ 31 ->
  reads (host sv) = r1 :: cs ++ r2 :: rest -> is_ready r1 -> is_ready r2 ->
  packets cs -> plain (hd [] cs) ->
  0 <= addr -> addr + room <= 2 ^ 32 ->
  apart addr room (pack sv) IR_MAX_BUFFER -> apart addr room sp 4 -> (length cs <= fuel)%nat ->
  exists sv', iuw_process_rw fuel sv (pack sv) = Some (sv', 0) /\ reads (host sv') = rest /\
    bytes_at (sv_ram sv') addr n = concat cs /\ confined (steps addr (length cs)) sv sv'.
Proof.
  intros addr n room Hcmd Hpara Hn Hr H1 H2 Hcs Hp Ha0 Ha1 Ha2 Ha3 Hf. unfold Iuw.iuw_process_rw.
  rewrite Hcmd, Hpara, (s32_small (Z.of_nat n)) by lia.
  change (is_memory IUW_CMD_MMWR) with true. change (is_crypt IUW_CMD_MMWR) with false.
  change (IUW_CMD_MMWR =? IUW_CMD_HASH) with false. change (rw_id (sv_ram sv) (pack sv) IUW_CMD_MMWR) with DEV_NONE.
  change (opt_is_write IUW_CMD_MMWR) with true. cbn [orb]. change (DEV_NONE =? DEV_NONE) with true. cbn iota.
  change (vs_device_erasable (nand_drivers hw null_cfg spn dr0) udisk DEV_NONE) with 0.
  change (0 =? 0) with true. cbn [negb andb]. cbn iota.
  change (rw_crypt eng irom tdev sv IUW_CMD_MMWR (iuw_cmd_crypt_isk (sv_ram sv) (pack sv))) with (Some (sv, 0)).
  cbn [mbind option_bind].
  change (0 <? 0) with false. cbn iota.
  destruct (iuw_shake_hand_willing sv IUW_SUB_STEP IR_MAX_BUFFER r1 _ Hr H1) as (sv1 & -> & Hl1 & I1).
  cbn [mbind option_bind]. change (0 =? 0) with true. cbn [negb].
  set (leeway := s32 _). change (iuw_cmd_addr (sv_ram sv) (pack sv)) with addr.
  destruct (mm_loop cs Hcs (Z.of_nat n) fuel sv1 addr (Z.of_nat n) leeway (r2 :: rest) Hl1 eq_refl)
    as (sv2 & E2 & Hl2 & Hb & I2); [lia|done|done|done|by rewrite (in_pack _ _ _ _ I1)|done|done|].
  unfold mm_transfer in E2. rewrite E2. cbn [mbind option_bind].
  destruct (iuw_shake_hand_willing sv2 0 0 r2 rest Hl2 H2) as (sv3 & E3 & Hl3 & I3).
  exists sv3. unfold rw_finish. cbn [rhash opt]. change (0 <=? -1) with false. cbn iota. cbn [mbind option_bind negb].
  change (is_crypt IUW_CMD_MMWR) with false. cbn iota. rewrite E3.
  pose proof (inert_confined _ _ _ _ I1 I2) as I12.
  split_and!; [done|done| |].
  - rewrite (bytes_at_kept _ _ _ _ _ I3); [done|]. intros q Hq. rewrite (in_pack _ _ _ _ I12).
    pose proof (packets_room _ Hcs).
    unfold apart in *. lia.
  - by apply (confined_inert _ _ sv2).
Qed.
(** What a packet asks for, whether it is a well-formed command or not. *)
Definition asks (p : list Z) : Z := Z.land (le_get (take 4 p)) 0xffffff.
Definition asks_with (p : list Z) : Z := le_get (slice p 4 4).

Lemma packet_read m buf p : bytes_at m buf (length p) = p -> length p = Z.to_nat IUW_CMD_LEN ->
  iuw_cmd_cmd m buf = asks p /\ iuw_cmd_para m buf 0 = asks_with p.
Proof.
  intros Hb Hp. change (Z.to_nat IUW_CMD_LEN) with 32%nat in Hp. rewrite Hp in Hb. split.
  - unfold iuw_cmd_cmd, asks, load32. by rewrite <- (take_bytes_at m buf 4 32), Hb by lia.
  - unfold iuw_cmd_para, asks_with, load32. rewrite <- Hb.
    replace (buf + 4 + Z.shiftl 0 2) with (buf + Z.of_nat 4) by (change (Z.shiftl 0 2) with 0; lia).
    by rewrite (bytes_at_slice m buf 4 4 32) by lia.
Qed.

Context (iuw_extra : server -> option (server * Z)).
Abbreviation serve := (serve hw null_cfg eng dr0 udisk irom sp spn tdev iuw_extra).
Abbreviation iuw_server := (iuw_server hw null_cfg eng dr0 udisk irom sp spn tdev iuw_extra).

(** The read at the beginning of a turn. *)
Lemma serve_read sv p l :
  reads (host sv) = p :: l -> length p = Z.to_nat IUW_CMD_LEN ->
  exists sv' r, dev_read tdev sv (pack sv) IUW_CMD_LEN = Some (sv', r) /\ (r <? 0) = false /\
    reads (host sv') = l /\ sent (host sv') = sent (host sv) /\ inert sv sv' /\
    iuw_cmd_cmd (sv_ram sv') (pack sv') = asks p /\ iuw_cmd_para (sv_ram sv') (pack sv') 0 = asks_with p.
Proof.
  intros Hr Hp. destruct (dev_read_willing sv IUW_CMD_LEN p l Hr) as (sv1 & r & E1 & Hret & Em & Hl & Hs & _ & I);
    [by rewrite Hp|done|].
  exists sv1, r. split_and!; try done; [destruct Hret as [-> | ->]; reflexivity| |];
    (apply packet_read; [|done]); rewrite Em, (in_pack _ _ _ _ I); apply bytes_at_store.
Qed.

Lemma serve_refuses fuel sv retry p l :
  locked sv -> reads (host sv) = p :: l -> length p = Z.to_nat IUW_CMD_LEN ->
  asks p <> IUW_CMD_IDENTIFY -> asks p <> IUW_CMD_FINISH ->
  exists sv', serve fuel sv retry = Some (sv', inl retry) /\ inert sv sv' /\ reads (host sv') = l /\
    sent (host sv') = sent (host sv) ++ [command IUW_CMD_ERROR 0 0].
Proof.
  intros L Hr Hp Hi Hf. unfold Iuw.serve. destruct (serve_read sv p l Hr Hp) as (sv1 & r & E1 & Hneg & Hl & Hs & I & Hc & _).
  rewrite E1. cbn [mbind option_bind]. rewrite Hneg, Hc, !(proj2 (Z.eqb_neq _ _)) by done.
  rewrite (inert_locked sp _ _ I L : Cdbg.cdbg_verify_burn _ = true), orb_true_r.
  destruct (iuw_send_cmd_willing sv1 IUW_CMD_ERROR 0 0) as (sv2 & E2 & Hl2 & Hs2).
  rewrite E2. cbn [mbind option_bind option_fmap option_map fmap fst]. exists sv2.
  apply (iuw_send_cmd_inert sp) in E2. split_and!; [done|by apply (inert_trans _ _ sv1)|congruence|congruence].
Qed.

(** C8: a board that burns verified packages only tells a host off and lets
    it go: every command but the identification, whatever it is, is answered
    with "error", until the host says "finish"; the server then ends with the
    host's word, and memory outside the buffer, the devices and the settings
    are as they were.  This is for a host that does send "finish", over a
    transport that delivers what it sends and may, as USB does, say 0 for it:
    a host on USB that falls silent keeps the server for ever
    ([usb_server_ends]). *)
Theorem locked_server_answers n fuel sv retry cmds fin rest :
  locked sv -> reads (host sv) = cmds ++ fin :: rest ->
  Forall (fun p => length p = Z.to_nat IUW_CMD_LEN /\ asks p <> IUW_CMD_IDENTIFY /\ asks p <> IUW_CMD_FINISH) cmds ->
  length fin = Z.to_nat IUW_CMD_LEN -> asks fin = IUW_CMD_FINISH -> (length cmds < n)%nat ->
  exists sv', iuw_server n fuel sv retry = Some (sv', asks_with fin) /\ inert sv sv' /\ reads (host sv') = rest /\
    sent (host sv') = sent (host sv) ++ repeat (command IUW_CMD_ERROR 0 0) (length cmds).
Proof.
  intros L Hr Hc. revert n sv L Hr.
  induction Hc as [|p cmds (Hp & Hi & Hf) _ IH]; intros [|n] sv L Hr Hfl Hfin Hn; cbn [length] in Hn; try lia; cbn [Iuw.iuw_server app] in *.
  - unfold Iuw.serve. destruct (serve_read sv fin rest Hr Hfl) as (sv1 & r & E1 & Hneg & Hl & Hs & I & Hcmd & Hpara).
    rewrite E1. cbn [mbind option_bind]. rewrite Hneg, Hcmd, Hfin, Z.eqb_refl. cbn [mbind option_bind].
    exists sv1. rewrite Hpara, app_nil_r. by split_and!.
  - destruct (serve_refuses fuel sv retry p _ L Hr Hp Hi Hf) as (sv1 & -> & I1 & Hl1 & Hs1). cbn [mbind option_bind].
    destruct (IH n sv1 (inert_locked sp _ _ I1 L) Hl1 Hfl Hfin) as (sv2 & E2 & I2 & Hl2 & Hs2); [lia|].
    exists sv2. split_and!; [done|by apply (inert_trans _ _ sv1)|done|].
    rewrite Hs2, Hs1, <- app_assoc. done.
Qed.
End Memory.

(** ** The server over USB *)

Section Usb.
Context {H R E C : Type} (hw : nand_hw H) (null_cfg : nand_config) (eng : engine E).
Context (dr0 : drivers (devices H R)) (udisk : bool) (irom : list Z) (sp spn : Z).
Context (udc_init : Udc.udc C -> Udc.udc C * Z) (udc_event_handle : Udc.udc C -> Udc.udc C).
Context (start_out : C -> Z -> C) (start_in : C -> list Z -> C) (udc_bulk_enable : C -> C).
Context (received : C -> list Z) (transfers polls : nat).
Definition usb (_ : Z) : trans_dev (Udc.udc C) :=
  Udc.transport udc_init udc_event_handle start_out start_in udc_bulk_enable received transfers polls.
Abbreviation server := (server (devices H R) E (Udc.udc C)).
Context (iuw_extra : server -> option (server * Z)).
Implicit Type sv : server.
Abbreviation serves := (serves hw null_cfg eng dr0 udisk irom sp spn usb iuw_extra).
Abbreviation iuw_server := (iuw_server hw null_cfg eng dr0 udisk irom sp spn usb iuw_extra).

Lemma usb_read_zero sv p n sv' r : dev_read usb sv p n = Some (sv', r) -> r = 0.
Proof.
  unfold dev_read. destruct (t_read _ _ _ _ _) as [[[t m] r']|] eqn:Et; [|done]. intros [= _ <-].
  by apply Udc.udc_read_zero in Et.
Qed.

(** Over USB no read ever fails: it waits.  Whatever state the server is in,
    it ends only by "finish", the limit of failed reads is not reached; and
    when the host says nothing more it does not end at all. *)
Theorem usb_server_ends n fuel sv retry :
  (forall sv' ret, iuw_server n fuel sv retry = Some (sv', ret) ->
    exists z, rtc (serves fuel) (sv, retry) (z, retry) /\
      dev_read usb z (pack z) IUW_CMD_LEN = Some (sv', 0) /\
      iuw_cmd_cmd (sv_ram sv') (pack sv') = IUW_CMD_FINISH /\ ret = iuw_cmd_para (sv_ram sv') (pack sv') 0) /\
  (Udc.silent udc_event_handle start_out (host sv) -> iuw_server n fuel sv retry = None).
Proof.
  split.
  - revert sv. induction n as [|n IH]; intros sv sv' ret; cbn [Iuw.iuw_server]; [done|].
    destruct (serve _ _ _ _ _ _ _ _ _ _ _ _ _) as [[sv1 r]|] eqn:Es; [|done]. cbn [mbind option_bind].
    assert (serve hw null_cfg eng dr0 udisk irom sp spn usb iuw_extra fuel sv retry = Some (sv1, r)) as Hs by exact Es.
    unfold Iuw.serve in Es. destruct (dev_read _ _ _ _) as [[sv2 r2]|] eqn:E1; [|done]. apply usb_read_zero in E1 as Hz.
    subst r2. cbn [mbind option_bind] in Es. change (0 <? 0) with false in Es. cbn iota in Es.
    destruct (Z.eqb_spec (iuw_cmd_cmd (sv_ram sv2) (pack sv2)) IUW_CMD_FINISH) as [Hf|_].
    + injection Es as <- <-. intros [= <- <-]. exists sv. by split_and!.
    + assert (r = inl retry) as ->.
      { revert Es. match goal with |- ?o ≫= _ = _ -> _ => destruct o; [|done] end. by intros [= _ <-]. }
      intros (z & Hz & H3)%IH. exists z. split; [|done]. by apply (rtc_l _ _ (sv1, retry)).
  - intros Hs. destruct n as [|n]; cbn [Iuw.iuw_server]; [done|]. unfold Iuw.serve, dev_read.
    unfold ptdev, usb. cbn [Udc.transport t_read]. by rewrite Udc.udc_read_silent.
Qed.
End Usb.

(** ** A host on USB that has sent all it has to say *)

(** The controller: the packets to come, the length armed, what the last
    transfer received, what was sent. *)
Record soft_udc := Soft { inq : list (list Z); want : Z; got : list Z; outq : list (list Z) }.

Definition soft_out (c : soft_udc) (len : Z) : soft_udc := Soft (inq c) len [] (outq c).
Definition soft_in (c : soft_udc) (l : list Z) : soft_udc := Soft (inq c) (want c) (got c) (outq c ++ [l]).

(** A transfer to the host is done at once, one from the host when there is a
    packet. *)
Definition soft_event (u : Udc.udc soft_udc) : Udc.udc soft_udc :=
  let c := Udc.ctl u in
  if Udc.tx_en u then Udc.UdcDev (Udc.rx_en u) false true c else
  match Udc.rx_en u, inq c with
  | true, p :: q => Udc.UdcDev false false true (Soft q (want c) (take (Z.to_nat (want c)) (map u8 p)) (outq c))
  | rx, _ => Udc.UdcDev rx false true c
  end.

Definition peer : Z -> trans_dev (Udc.udc soft_udc) :=
  usb (fun u => (u, 0)) soft_event soft_out soft_in (fun c => c) got 1 2.

Definition host_with (t : list (list Z)) : Udc.udc soft_udc := Udc.UdcDev false false true (Soft t 0 [] []).

Lemma soft_obedient : Udc.obedient soft_event soft_out got.
Proof.
  intros u len k Hl. assert (forall k : nat, let v := Nat.iter k soft_event (Udc.armed_out soft_out u len) in
    want (Udc.ctl v) = len /\ bytes_ok (got (Udc.ctl v)) /\ Z.of_nat (length (got (Udc.ctl v))) <= len) as H; [|apply H].
  clear k. intros k. induction k as [|k IH]; cbn zeta in *; [cbn; split_and!; [done|constructor|lia]|].
  rewrite Nat.iter_succ. destruct (Nat.iter k _ _) as [rx tx ok [q w g o]]. cbn in *. destruct IH as (-> & H1 & H2).
  destruct tx, rx, q as [|p q]; cbn; try done. split_and!; [done| |rewrite length_take; lia].
  apply Forall_take, Forall_map, Forall_true. intros; apply u8_range.
Qed.

#[export] Instance peer_transports : Transports peer.
Proof. apply udc_transports, soft_obedient. Qed.

Definition soft_reads (u : Udc.udc soft_udc) : list (list Z) := map (map u8) (inq (Udc.ctl u)).
Definition soft_sent (u : Udc.udc soft_udc) : list (list Z) := outq (Udc.ctl u).

#[export] Instance peer_willing : Willing peer soft_reads soft_sent.
Proof.
  split.
  - intros i [rx tx ok [q w g o]] m buf p l Hq H0 Hn. cbn [soft_reads Udc.ctl inq] in Hq. destruct q as [|p0 q]; [done|].
    injection Hq as <- <-. unfold peer, usb, IR_MAX_BUFFER in *. cbn [Udc.transport t_read Udc.udc_read].
    rewrite (proj2 (Z.eqb_neq _ _)) by lia. unfold Udc.TRANSFER_MAX. destruct (Z.ltb_spec 0x40000 (Z.of_nat (length (map u8 p0)))); [lia|].
    destruct tx; cbn; rewrite Z.sub_diag, Nat2Z.id, take_ge by lia; cbn;
      eexists _, 0; (split; [reflexivity|]); by split; [left|].
  - intros i [rx tx ok [q w g o]] l H0 Hn. unfold peer, usb, IR_MAX_BUFFER in *. cbn [Udc.transport t_write Udc.udc_write].
    destruct l as [|x l]; [cbn in H0; lia|]. set (y := x :: l) in *. clearbody y.
    rewrite (take_ge y), (drop_ge y) by (unfold Udc.TRANSFER_MAX; lia). cbn.
    cbn. eexists _, 0. split; [reflexivity|]. by split_and!.
Qed.

(** What a packet must hold to say ready. *)
Definition says_ready (p : list Z) : bool :=
  (nth 3 p 0 =? IUW_CMD_MAGIC) &&
  (fold_left (fun tmp c => u32 (tmp + c)) (take 28 p) 0 =? le_get (drop 28 p)) &&
  (Z.land (le_get (take 4 p)) 0xffffff =? IUW_CMD_READY).

Lemma says_ready_ok p : length p = 32%nat -> says_ready p = true -> is_ready p.
Proof.
  intros Hp Hs. apply andb_true_iff in Hs as [Hs H3]. apply andb_true_iff in Hs as [H1 H2].
  split; [done|]. change (Z.to_nat IUW_CMD_LEN) with 32%nat. intros m buf Hb.
  unfold iuw_is_cmd, iuw_cmd_cmd, cmd_sum, load32.
  change (Z.to_nat (IUW_CMD_LEN - 4)) with 28%nat. change (IUW_CMD_LEN - 4) with (Z.of_nat 28).
  rewrite (bytes_at_slice m buf 28 4 32), <- (take_bytes_at m buf 28 32), <- (take_bytes_at m buf 4 32), Hb by lia.
  replace (m (buf + 3)) with (nth 3 p 0).
  - rewrite H1. unfold slice. rewrite (take_ge (drop 28 p)) by (rewrite length_drop; lia).
    rewrite H2. by apply Z.eqb_eq in H3.
  - rewrite <- Hb, nth_default_lookup. rewrite bytes_at_lookup by lia. done.
Qed.

Lemma ready_there : is_ready (command IUW_CMD_READY 0 0).
Proof. by apply says_ready_ok. Qed.

(** A board that burns verified packages only, with the host [t], its buffer
    at 0x10000. *)
Definition locked_sample (t : list (list Z)) : server (devices (Z -> page) unit) (Z * list Z) (Udc.udc soft_udc) :=
  Server search_station (host_with t) TDEV_UDC 0x10000.

(** The same board, open, with a command in its buffer. *)
Definition open_sample (cmd : list Z) (t : list (list Z)) :
    server (devices (Z -> page) unit) (Z * list Z) (Udc.udc soft_udc) :=
  Server (Station (World (mem_of 0x10000 cmd) (sample_devices 1 0x55 (fun _ => Erased))) None idle_secure
    (Cdbg.Cdbg false [] 0 0 0 0 []) 0) (host_with t) TDEV_UDC 0x10000.

Definition no_commands (sv : server (devices (Z -> page) unit) (Z * list Z) (Udc.udc soft_udc)) := Some (sv, -1).

Lemma locked_sample_placed t : placed 0xa000 (locked_sample t).
Proof. split; [|by vm_compute; intuition congruence]. apply mem_ok_mem_of, (bool_decide_eq_true_1 _). vm_compute. reflexivity. Qed.

(** The host asks for memory; it is told off. *)
#[local] Abbreviation nosy := (locked_sample [command IUW_CMD_MMRD 0x80000000 0x4000]).

Lemma nosy_served :
  option_map snd (serve (soft_chip 256) (sample_nand 1 0x55) soft_engine nand_sample_drivers false []
    0xa000 0x9000 peer no_commands 9 nosy 0) = Some (inl 0).
Proof. vm_compute. reflexivity. Qed.

Lemma locked_server_inert_witness :
  exists y, serves (soft_chip 256) (sample_nand 1 0x55) soft_engine nand_sample_drivers false []
      0xa000 0x9000 peer no_commands 9 (nosy, 0) y /\
    ((locked y.1 /\ confined 0xa000 (fun _ => False) nosy y.1) \/
     exists z, rtc (serves (soft_chip 256) (sample_nand 1 0x55) soft_engine nand_sample_drivers false []
        0xa000 0x9000 peer no_commands 9) (nosy, 0) z /\
      locked z.1 /\ confined 0xa000 (fun _ => False) nosy z.1 /\
      accepts soft_engine [] 0xa000 peer z.1 = true).
Proof.
  pose proof nosy_served as Hs. destruct (serve _ _ _ _ _ _ _ _ _ _ _ _ _) as [[sv r]|] eqn:Es; [|done].
  injection Hs as ->. exists (sv, 0).
  assert (serves (soft_chip 256) (sample_nand 1 0x55) soft_engine nand_sample_drivers false []
    0xa000 0x9000 peer no_commands 9 (nosy, 0) (sv, 0)) as H1 by exact Es.
  split; [exact H1|].
  apply (locked_server_inert (soft_chip 256) (sample_nand 1 0x55) soft_engine nand_sample_drivers false []
    0xa000 0x9000 peer no_commands IusProofs.soft_cipher_ok 9 (nosy, 0) (sv, 0)).
  - reflexivity.
  - apply locked_sample_placed.
  - by apply rtc_once.
Defined.

(** It goes on to ask for a jump, and is let go with 7. *)
Lemma locked_server_answers_witness :
  let cmds := [command IUW_CMD_MMRD 0x80000000 0x4000; command IUW_CMD_JUMP 0x80000000 0] in
  let host0 := locked_sample (cmds ++ [command IUW_CMD_FINISH 7 0]) in
  exists sv', iuw_server (soft_chip 256) (sample_nand 1 0x55) soft_engine nand_sample_drivers false []
      0xa000 0x9000 peer no_commands 3 9 host0 0 = Some (sv', 7) /\
    confined 0xa000 (fun _ => False) host0 sv' /\ soft_reads (host sv') = [] /\
    soft_sent (host sv') = [] ++ repeat (command IUW_CMD_ERROR 0 0) 2.
Proof.
  cbv zeta.
  apply (locked_server_answers (soft_chip 256) (sample_nand 1 0x55) soft_engine nand_sample_drivers false []
    0xa000 0x9000 peer soft_reads soft_sent no_commands 3 9
    (locked_sample ([command IUW_CMD_MMRD 0x80000000 0x4000; command IUW_CMD_JUMP 0x80000000 0] ++ [command IUW_CMD_FINISH 7 0]))
    0 [command IUW_CMD_MMRD 0x80000000 0x4000; command IUW_CMD_JUMP 0x80000000 0] (command IUW_CMD_FINISH 7 0) []).
  - reflexivity.
  - reflexivity.
  - repeat constructor; vm_compute; congruence.
  - reflexivity.
  - reflexivity.
  - cbn. lia.
Defined.

(** A host that has said nothing else leaves the server waiting. *)
Lemma usb_server_ends_witness :
  iuw_server (soft_chip 256) (sample_nand 1 0x55) soft_engine nand_sample_drivers false []
    0xa000 0x9000 peer no_commands 1000 9 (locked_sample []) 0 = None.
Proof.
  apply (usb_server_ends (soft_chip 256) (sample_nand 1 0x55) soft_engine nand_sample_drivers false []
    0xa000 0x9000 (fun u => (u, 0)) soft_event soft_out soft_in (fun c => c) got 1 2 no_commands 1000 9 (locked_sample []) 0).
  intros len k. assert (let v := Nat.iter k soft_event (Udc.armed_out soft_out (host (locked_sample [])) len) in
    Udc.rx_en v = true /\ inq (Udc.ctl v) = []) as H; [|apply H].
  induction k as [|k IH]; [by split|]. rewrite Nat.iter_succ. cbn zeta in *. destruct (Nat.iter k _ _) as [rx tx ok [q w g o]].
  cbn in IH. destruct IH as [-> ->]. by destruct tx.
Defined.

(** Twelve bytes for 0x80001000. *)
#[local] Abbreviation willing := (open_sample (command IUW_CMD_MMWR 0x80001000 12)
  [command IUW_CMD_READY 0 0; [11; 22; 33; 44; 55; 66; 77; 88; 99; 10; 20; 30]; command IUW_CMD_READY 0 0]).

Lemma iuw_write_memory_witness :
  exists sv', iuw_process_rw (soft_chip 256) (sample_nand 1 0x55) soft_engine nand_sample_drivers false []
      0xa000 0x9000 peer 1 willing 0x10000 = Some (sv', 0) /\ soft_reads (host sv') = [] /\
    bytes_at (sv_ram sv') 0x80001000 12 = [11; 22; 33; 44; 55; 66; 77; 88; 99; 10; 20; 30] /\
    confined 0xa000 (steps 0x80001000 1) willing sv'.
Proof.
  apply (iuw_write_memory (soft_chip 256) (sample_nand 1 0x55) soft_engine nand_sample_drivers false []
    0xa000 0x9000 peer soft_reads soft_sent 1 willing [[11; 22; 33; 44; 55; 66; 77; 88; 99; 10; 20; 30]]
    (command IUW_CMD_READY 0 0) (command IUW_CMD_READY 0 0) []).
  - reflexivity.
  - reflexivity.
  - reflexivity.
  - reflexivity.
  - exact ready_there.
  - exact ready_there.
  - constructor. vm_compute. lia.
  - split; [cbn; lia|vm_compute; congruence].
  - vm_compute. congruence.
  - vm_compute. congruence.
  - vm_compute. intuition congruence.
  - vm_compute. intuition congruence.
  - cbn. lia.
Defined.
