(* ===== verification/Env.v ===== *)
(** * Env: common/env_common.c, env_nowhere.c and cmd_nvedit.c, the environment

    The environment is a block of memory: a CRC, then the definitions
    "name=value" one after the other, each ended by a NUL, the last one by
    two.  [getenv] searches it, [_do_setenv] takes a definition out, closes
    the gap and appends the new one.

    The state is that of [gd] and of the statics, over [Mem.mem]; the
    console and the serial line, which some variables switch, are
    parameters.  The configuration is include/configs/imapx800.h: the
    environment is kept nowhere else, and may be overwritten. *)

From stdpp Require Import relations.
From S2P Require Import Prelude Mem CString Crc Vsprintf.
Local Open Scope Z_scope.

Definition CONFIG_ENV_SIZE := 0x4000.
Definition ENV_SIZE := CONFIG_ENV_SIZE - 4.

(** "bootdelay=0", "baudrate=115200": what is configured. *)
Definition default_definitions : list Z :=
  [98; 111; 111; 116; 100; 101; 108; 97; 121; 61; 48; 0;
   98; 97; 117; 100; 114; 97; 116; 101; 61; 49; 49; 53; 50; 48; 48; 0; 0; 0].

Definition baudrate_table : list Z := [9600; 19200; 38400; 57600; 115200].

(** [gd] and the statics; [console] is what [console_assign] and the serial
    line work on. *)
Record env_state (X : Type) := Env {
  ram : mem;
  relocated : bool;        (* GD_FLG_RELOC *)
  env_valid : bool;
  env_addr : Z;
  env_ptr : Z;
  env_id : Z;
  gd_baudrate : Z;
  bi_ip_addr : Z;
  load_addr : Z;
  console : X
}.
Arguments Env {X}. Arguments ram {X}. Arguments relocated {X}. Arguments env_valid {X}.
Arguments env_addr {X}. Arguments env_ptr {X}. Arguments env_id {X}. Arguments gd_baudrate {X}.
Arguments bi_ip_addr {X}. Arguments load_addr {X}. Arguments console {X}.

(** The string from [p] on. *)
Fixpoint chars_at (fuel : nat) (m : mem) (p : Z) : option (list Z) :=
  match fuel with
  | O => None
  | S fuel => if m p =? 0 then Some [] else l ← chars_at fuel m (p + 1); Some (m p :: l)
  end.

(** [strcmp(s, lit) == 0] for a literal. *)
Definition is_string (m : mem) (s : Z) (lit : list Z) : bool :=
  bool_decide (bytes_at m s (S (length lit)) = lit ++ [0]).

Definition n_stdin := [115; 116; 100; 105; 110].
Definition n_stdout := [115; 116; 100; 111; 117; 116].
Definition n_stderr := [115; 116; 100; 101; 114; 114].
Definition n_baudrate := [98; 97; 117; 100; 114; 97; 116; 101].
Definition n_ethaddr := [101; 116; 104; 97; 100; 100; 114].
Definition n_ipaddr := [105; 112; 97; 100; 100; 114].
Definition n_loadaddr := [108; 111; 97; 100; 97; 100; 100; 114].
Definition stdin := 0.
Definition stdout := 1.
Definition stderr := 2.

Section Env.
Context {X : Type}.
(** [console_assign(file, devname)]; switching the line to a baud rate,
    which waits for a RETURN that may not come. *)
Context (console_assign : X -> mem -> Z -> Z -> X * Z) (switch_line : X -> Z -> option X).
(** The address of [default_environment[]]. *)
Context (default_environment : Z).
Abbreviation env_state := (env_state X).
Implicit Type s : env_state.

Definition with_ram s (m : mem) : env_state :=
  Env m (relocated s) (env_valid s) (env_addr s) (env_ptr s) (env_id s) (gd_baudrate s)
    (bi_ip_addr s) (load_addr s) (console s).
Definition with_id s (i : Z) : env_state :=
  Env (ram s) (relocated s) (env_valid s) (env_addr s) (env_ptr s) i (gd_baudrate s)
    (bi_ip_addr s) (load_addr s) (console s).
Definition with_console s (x : X) : env_state :=
  Env (ram s) (relocated s) (env_valid s) (env_addr s) (env_ptr s) (env_id s) (gd_baudrate s)
    (bi_ip_addr s) (load_addr s) x.
Definition with_baudrate s (b : Z) (x : X) : env_state :=
  Env (ram s) (relocated s) (env_valid s) (env_addr s) (env_ptr s) (env_id s) b
    (bi_ip_addr s) (load_addr s) x.
Definition with_ip s (a : Z) : env_state :=
  Env (ram s) (relocated s) (env_valid s) (env_addr s) (env_ptr s) (env_id s) (gd_baudrate s)
    a (load_addr s) (console s).
Definition with_load s (a : Z) : env_state :=
  Env (ram s) (relocated s) (env_valid s) (env_addr s) (env_ptr s) (env_id s) (gd_baudrate s)
    (bi_ip_addr s) a (console s).

(** ** The block *)

Definition env_data (p : Z) : Z := p + 4.

Definition env_crc_update s : env_state :=
  with_ram s (store32 (ram s) (env_ptr s)
    (Crc32.crc32 0 (bytes_at (ram s) (env_data (env_ptr s)) (Z.to_nat ENV_SIZE)))).

Definition env_get_char_spec s (index : Z) : Z := ram s (env_addr s + index).

Definition env_get_char_init s (index : Z) : Z :=
  if env_valid s then env_get_char_spec s index else ram s (default_environment + index).

Definition env_get_char_memory s (index : Z) : Z :=
  if env_valid s then ram s (env_addr s + index) else ram s (default_environment + index).

Definition env_get_char s (index : Z) : Z :=
  if relocated s then env_get_char_memory s index else env_get_char_init s index.

Definition env_get_addr s (index : Z) : Z :=
  if env_valid s then env_addr s + index else default_environment + index.

Definition sizeof_default : Z := Z.of_nat (length default_definitions).

Definition set_default_env s : env_state :=
  if ENV_SIZE <? sizeof_default then s else
  let m := memset (ram s) (env_ptr s) 0 CONFIG_ENV_SIZE in
  let m := memcpy m (env_data (env_ptr s)) default_environment sizeof_default in
  let s := env_crc_update (with_ram s m) in
  Env (ram s) (relocated s) true (env_addr s) (env_ptr s) (env_id s) (gd_baudrate s)
    (bi_ip_addr s) (load_addr s) (console s).

Definition env_init s : env_state :=
  Env (ram s) (relocated s) false default_environment (env_ptr s) (env_id s) (gd_baudrate s)
    (bi_ip_addr s) (load_addr s) (console s).

Definition env_relocate_spec s : env_state := s.

(** [block] is what [malloc] returned. *)
Definition env_relocate (block : Z) s : env_state :=
  let s := Env (ram s) (relocated s) (env_valid s) (env_addr s) block (env_id s) (gd_baudrate s)
    (bi_ip_addr s) (load_addr s) (console s) in
  let s := if env_valid s then env_relocate_spec s else set_default_env s in
  Env (ram s) (relocated s) (env_valid s) (env_data (env_ptr s)) (env_ptr s) (env_id s)
    (gd_baudrate s) (bi_ip_addr s) (load_addr s) (console s).

(** ** Searching *)

(** The index of the value, or -1. *)
Fixpoint envmatch (fuel : nat) s (s1 i2 : Z) : option Z :=
  match fuel with
  | O => None
  | S fuel =>
      if ram s s1 =? env_get_char s i2
      then if ram s s1 =? 61 then Some (i2 + 1) else envmatch fuel s (s1 + 1) (i2 + 1)
      else Some (if (ram s s1 =? 0) && (env_get_char s i2 =? 61) then i2 + 1 else -1)
  end.

(** The end of the string at index [nxt]; [inr] when the block ends before. *)
Fixpoint string_end (fuel : nat) s (nxt : Z) : option (Z + unit) :=
  match fuel with
  | O => None
  | S fuel =>
      if env_get_char s nxt =? 0 then Some (inl nxt)
      else if CONFIG_ENV_SIZE <=? nxt then Some (inr tt) else string_end fuel s (nxt + 1)
  end.

(** The index of the value of [name]. *)
Fixpoint find_value (fuel : nat) s (name i : Z) : option (option Z) :=
  match fuel with
  | O => None
  | S fuel' =>
      if env_get_char s i =? 0 then Some None else
      e ← string_end fuel s i;
      match e with
      | inr _ => Some None
      | inl nxt =>
          val ← envmatch fuel s name i;
          if val <? 0 then find_value fuel' s name (nxt + 1) else Some (Some val)
      end
  end.

Definition getenv (fuel : nat) s (name : Z) : option Z :=
  v ← find_value fuel s name 0;
  Some (match v with Some val => env_get_addr s val | None => NULL end).

(** Copying to the buffer: the memory, how often the loop counted, where the
    buffer pointer is. *)
Fixpoint copy_value (fuel : nat) s (buf len val n : Z) : option (env_state * Z * Z) :=
  match fuel with
  | O => None
  | S fuel =>
      if n <? len then
        let c := env_get_char s val in
        let s := with_ram s (upd (ram s) buf c) in
        if c =? 0 then Some (s, u32 (n + 1), buf + 1)
        else copy_value fuel s (buf + 1) len (val + 1) (u32 (n + 1))
      else Some (s, u32 (n + 1), buf)
  end.

Definition getenv_r (fuel : nat) s (name buf len : Z) : option (env_state * Z) :=
  v ← find_value fuel s name 0;
  match v with
  | None => Some (s, -1)
  | Some val =>
      '(s, n, buf) ← copy_value fuel s buf len val 0;
      Some (if len =? n then with_ram s (upd (ram s) buf 0) else s, s32 n)
  end.

(** ** Changing *)

(** The first definition that [name] matches: the index of its value or -1,
    where it begins and where it ends. *)
Fixpoint find_old (fuel : nat) s (name data env : Z) : option (Z * Z * Z) :=
  match fuel with
  | O => None
  | S fuel' =>
      if ram s env =? 0 then Some (-1, env, NULL) else
      nxt ← skip_to_nul fuel (ram s) env;
      oldval ← envmatch fuel s name (env - data);
      if 0 <=? oldval then Some (oldval, env, nxt) else find_old fuel' s name data (nxt + 1)
  end.

(** Moving the rest of the block down over the old definition. *)
Fixpoint close_gap (fuel : nat) (m : mem) (env nxt : Z) : option (mem * Z) :=
  match fuel with
  | O => None
  | S fuel =>
      let m := upd m env (m nxt) in
      let nxt := nxt + 1 in
      if (m env =? 0) && (m nxt =? 0) then Some (m, env) else close_gap fuel m (env + 1) nxt
  end.

Definition delete_old (fuel : nat) (m : mem) (data env nxt : Z) : option mem :=
  let nxt := nxt + 1 in
  '(m, env) ← (if m nxt =? 0
               then Some (if data <? env then (m, env - 1) else (upd m env 0, env))
               else close_gap fuel m env nxt);
  Some (upd m (env + 1) 0).

(** What an old definition of some variables means for the devices, before
    it is deleted; [inr] is the result when it may not be. *)
Definition redirect (fuel : nat) s (name : Z) (argc : nat) (arg2 : Z) : option (env_state * bool) :=
  let file :=
    if is_string (ram s) name n_stdin then stdin
    else if is_string (ram s) name n_stdout then stdout
    else if is_string (ram s) name n_stderr then stderr else -1 in
  if negb (file =? -1) then
    if (argc <? 3)%nat then Some (s, false) else
    let '(x, r) := console_assign (console s) (ram s) file arg2 in
    Some (with_console s x, negb (r <? 0))
  else if is_string (ram s) name n_baudrate then
    l ← chars_at fuel (ram s) arg2;
    let baudrate := s32 (simple_strtoul l 10).1 in
    if existsb (Z.eqb (u32 baudrate)) baudrate_table then
      x ← switch_line (console s) baudrate; Some (with_baudrate s baudrate x, true)
    else Some (s, false)
  else Some (s, true).

Fixpoint find_tail (fuel : nat) (m : mem) (env : Z) : option Z :=
  match fuel with
  | O => None
  | S fuel => if (m env =? 0) && (m (env + 1) =? 0) then Some env else find_tail fuel m (env + 1)
  end.

(** [strlen(argv[i]) + 1] of every argument, added up. *)
Fixpoint values_len (fuel : nat) (m : mem) (args : list Z) (len : Z) : option Z :=
  match args with
  | [] => Some len
  | a :: args => n ← strlen fuel m a; values_len fuel m args (s32 (len + n + 1))
  end.

(** Copying a string with its NUL, whose address is returned. *)
Fixpoint put_string (fuel : nat) (m : mem) (env from : Z) : option (mem * Z) :=
  match fuel with
  | O => None
  | S fuel =>
      let c := m from in
      let m := upd m env c in
      if c =? 0 then Some (m, env) else put_string fuel m (env + 1) (from + 1)
  end.

Fixpoint put_values (fuel : nat) (m : mem) (env sep : Z) (args : list Z) : option (mem * Z) :=
  match args with
  | [] => Some (m, env)
  | a :: args =>
      '(m, env) ← put_string fuel (upd m env sep) (env + 1) a;
      put_values fuel m env 32 args
  end.

(** Four numbers with something between them. *)
Fixpoint parse_ip (fuel n : nat) (m : mem) (p addr : Z) : option Z :=
  match n with
  | O => Some addr
  | S n =>
      '(val, p) ← (if p =? NULL then Some (0, NULL) else
        l ← chars_at fuel m p;
        let '(val, r) := simple_strtoul l 10 in
        let e := p + Z.of_nat (length l - length r) in
        Some (val, if m e =? 0 then e else e + 1));
      parse_ip fuel n m p (Z.lor (u32 (Z.shiftl addr 8)) (Z.land val 0xff))
  end.

Definition htonl (x : Z) : Z := le_get (be_put 4 x).

(** The variables that are kept elsewhere too. *)
Definition follow (fuel : nat) s (name arg2 : Z) : option env_state :=
  if is_string (ram s) name n_ethaddr then Some s
  else if is_string (ram s) name n_ipaddr then
    addr ← parse_ip fuel 4 (ram s) arg2 0; Some (with_ip s (htonl addr))
  else if is_string (ram s) name n_loadaddr then
    l ← chars_at fuel (ram s) arg2; Some (with_load s (simple_strtoul l 16).1)
  else Some s.

(** Appending the definition; [false] when there is no room for it. *)
Definition append (fuel : nat) s (data name : Z) (args : list Z) : option (env_state * bool) :=
  env ← find_tail fuel (ram s) data;
  let env := if data <? env then env + 1 else env in
  n ← strlen fuel (ram s) name;
  len ← values_len fuel (ram s) args (s32 (n + 2));
  if data + ENV_SIZE - env <? len then Some (s, false) else
  '(m, env) ← put_string fuel (ram s) env name;
  '(m, env) ← put_values fuel m env 61 args;
  Some (env_crc_update (with_ram s (upd m (env + 1) 0)), true).

(** [args]: [argv[2]] to [argv[argc - 1]]. *)
Definition _do_setenv (fuel : nat) s (name : Z) (args : list Z) : option (env_state * Z) :=
  let data := env_get_addr s 0 in
  if data =? NULL then Some (s, 1) else
  eq ← strchr fuel (ram s) name 61;
  if negb (eq =? NULL) then Some (s, 1) else
  let s := with_id s (s32 (env_id s + 1)) in
  '(oldval, env, nxt) ← find_old fuel s name data data;
  '(s, ok) ← (if 0 <=? oldval then
      '(s, ok) ← redirect fuel s name (2 + length args) (hd NULL args);
      if ok : bool then m ← delete_old fuel (ram s) data env nxt; Some (with_ram s m, true)
      else Some (s, false)
    else Some (s, true));
  if negb ok then Some (s, 1) else
  if hd NULL args =? NULL then Some (env_crc_update s, 0) else
  '(s, ok) ← append fuel s data name args;
  if negb ok then Some (s, 1) else
  s ← follow fuel s name (hd NULL args);
  Some (s, 0).

Definition setenv (fuel : nat) s (varname varvalue : Z) : option (env_state * Z) :=
  _do_setenv fuel s varname (if varvalue =? NULL then [] else [varvalue]).

(** [args]: [argv[1]] and the rest; without them the usage is printed. *)
Definition do_setenv (fuel : nat) s (args : list Z) : option (env_state * Z) :=
  match args with
  | [] => Some (s, 1)
  | name :: args => _do_setenv fuel s name args
  end.
End Env.

(** ** The environment as a list of definitions *)

(** A definition: no NUL, a name, "=" and a value. *)
Definition is_def (e : list Z) : Prop := Forall (fun c => c <> 0) e /\ In 61 e.

(** The definitions one after the other; the block they make. *)
Definition flat (l : list (list Z)) : list Z := concat (map (fun e => e ++ [0]) l).
Definition image (l : list (list Z)) : list Z :=
  match l with [] => [0; 0] | _ => flat l ++ [0] end.

Definition defines (nm e : list Z) : bool := bool_decide (take (S (length nm)) e = nm ++ [61]).

Fixpoint lookup_env (nm : list Z) (l : list (list Z)) : option (list Z) :=
  match l with
  | [] => None
  | e :: l => if defines nm e then Some (drop (S (length nm)) e) else lookup_env nm l
  end.

Fixpoint remove_env (nm : list Z) (l : list (list Z)) : list (list Z) :=
  match l with
  | [] => []
  | e :: l => if defines nm e then l else e :: remove_env nm l
  end.

(** The arguments behind the name: "=" before the first, a blank before each
    other one. *)
Fixpoint joined (sep : Z) (vs : list (list Z)) : list Z :=
  match vs with [] => [] | v :: vs => sep :: v ++ joined 32 vs end.

(** A name: a string without "=". *)
Definition is_name (nm : list Z) : Prop := Forall (fun c => c <> 0) nm /\ ~ In 61 nm.

(** The definitions are at [p]. *)
Definition env_at (m : mem) (p : Z) (l : list (list Z)) : Prop :=
  text_at m p (image l) /\ Forall is_def l.

(** What [envmatch] compares: up to the first "=". *)
Fixpoint key (nm : list Z) : list Z :=
  match nm with
  | [] => []
  | c :: nm => if c =? 61 then [] else c :: key nm
  end.

Lemma is_name_char nm : is_name nm <-> Forall (fun c => c <> 0 /\ c <> 61) nm.
Proof.
  unfold is_name. rewrite !Forall_forall. split.
  - intros [H1 H2] c Hc. split; [by apply H1|]. intros ->. by apply H2, list_elem_of_In.
  - intros H. split; [intros c Hc; by apply H|]. intros Hc%list_elem_of_In. by apply H in Hc as [_ ?].
Qed.

Lemma key_is_name nm : Forall (fun c => c <> 0) nm -> is_name (key nm).
Proof.
  intros H. apply is_name_char. induction H as [|c nm Hc H IH]; cbn; [done|].
  destruct (Z.eqb_spec c 61); [done|]. by constructor.
Qed.

Lemma key_name nm : is_name nm -> key nm = nm.
Proof.
  intros H%is_name_char. induction H as [|c nm [_ Hc] H IH]; cbn; [done|].
  destruct (Z.eqb_spec c 61); [done|]. by rewrite IH.
Qed.

Lemma flat_app l l' : flat (l ++ l') = flat l ++ flat l'.
Proof. unfold flat. by rewrite map_app, concat_app. Qed.

Lemma flat_cons e l : flat (e :: l) = e ++ 0 :: flat l.
Proof. unfold flat. cbn. by rewrite <- app_assoc. Qed.

Lemma is_def_cons c e : is_def (c :: e) -> c <> 0 /\ (c = 61 \/ is_def e).
Proof. intros [H [->|Hi]]; apply Forall_cons in H as [H0 H]; [by auto|]. split; [done|right; by split]. Qed.

Lemma is_def_nonempty e : is_def e -> (0 < length e)%nat.
Proof. intros [_ H]. destruct e; [done|cbn; lia]. Qed.

(** Whatever the block holds, the definitions and a NUL are there, and two
    bytes at least. *)
Lemma env_at_flat m p l : env_at m p l -> text_at m p (flat l ++ [0]).
Proof.
  intros [H _]. destruct l as [|e l]; [|done]. change (text_at m p ([0] ++ [0])) in H.
  by apply text_at_app in H as [H _].
Qed.

Lemma defines_nil nm : defines nm [] = false.
Proof. apply bool_decide_eq_false. by destruct nm. Qed.

Lemma nil_defines c e : defines [] (c :: e) = (c =? 61).
Proof.
  unfold defines. cbn. destruct (Z.eqb_spec c 61) as [->|H]; [done|].
  apply bool_decide_eq_false. congruence.
Qed.

Section Search.
Context {X : Type} (default_environment : Z).
Abbreviation env_state := (env_state X).
Implicit Type s : env_state.
Abbreviation envmatch := (envmatch default_environment).
Abbreviation env_get_char := (env_get_char default_environment).
Abbreviation find_value := (find_value default_environment).
Abbreviation find_old := (find_old default_environment).

(** Where the environment is. *)
Definition data_of s : Z := env_get_addr default_environment s 0.

Lemma env_get_char_ram s i : env_get_char s i = ram s (data_of s + i).
Proof.
  unfold Env.env_get_char, env_get_char_memory, env_get_char_init, data_of, env_get_addr, env_get_char_spec.
  destruct (relocated s), (env_valid s); f_equal; lia.
Qed.

Lemma env_get_addr_data s i : env_get_addr default_environment s i = data_of s + i.
Proof. unfold data_of, env_get_addr. destruct (env_valid s); lia. Qed.

Lemma defines_cons a nm c e : defines (a :: nm) (c :: e) = (c =? a) && defines nm e.
Proof.
  unfold defines. cbn [length take app]. apply Bool.eq_iff_eq_true. rewrite andb_true_iff, !bool_decide_eq_true.
  split; [intros [= -> ?]; split; [lia|done]|intros [Hc ->]; f_equal; lia].
Qed.

Lemma envmatch_key fuel s p i nm e :
  cstr_at (ram s) p nm -> text_at (ram s) (data_of s + i) e -> is_def e ->
  (length nm < fuel)%nat ->
  envmatch fuel s p i = Some (if defines (key nm) e then i + Z.of_nat (length (key nm)) + 1 else -1).
Proof.
  intros Hp He Hd Hf. revert fuel p i e Hp He Hd Hf.
  induction nm as [|a nm IH]; intros [|fuel] p i e Hp He Hd Hf; cbn [length] in Hf; try lia;
    (destruct e as [|c e]; [by destruct Hd|]); apply text_at_cons in He as [Hc He];
    destruct (is_def_cons _ _ Hd) as [Hc0 Hd']; cbn [Env.envmatch key]; rewrite env_get_char_ram, Hc.
  - apply cstr_at_nil in Hp. rewrite Hp, nil_defines. destruct (Z.eqb_spec 0 c); [done|]. cbn [andb Z.eqb].
    destruct (c =? 61); f_equal. cbn. lia.
  - apply cstr_at_cons in Hp as (Ha & Ha0 & Hp). rewrite Ha.
    destruct (Z.eqb_spec a 61) as [->|Ha61].
    + rewrite nil_defines, (Z.eqb_sym c). destruct (Z.eqb_spec 61 c) as [<-|]; cbn [andb Z.eqb]; f_equal. cbn. lia.
    + rewrite defines_cons. destruct (Z.eqb_spec a c) as [->|Hne].
      * destruct Hd' as [|Hd']; [done|].
        rewrite (IH fuel (p + 1) (i + 1) e); [|done|by rewrite Z.add_assoc|done|lia].
        rewrite Z.eqb_refl. cbn [andb length]. destruct (defines (key nm) e); f_equal; lia.
      * destruct (Z.eqb_spec a 0); [done|]. destruct (Z.eqb_spec c a); [by subst|done].
Qed.

Lemma envmatch_spec fuel s p i nm e :
  cstr_at (ram s) p nm -> is_name nm -> text_at (ram s) (data_of s + i) e -> is_def e ->
  (length nm < fuel)%nat ->
  envmatch fuel s p i = Some (if defines nm e then i + Z.of_nat (length nm) + 1 else -1).
Proof. intros Hp Hn He Hd Hf. by rewrite (envmatch_key _ _ _ _ nm e), key_name. Qed.

Lemma string_end_spec fuel s i e :
  text_at (ram s) (data_of s + i) (e ++ [0]) -> Forall (fun c => c <> 0) e ->
  i + Z.of_nat (length e) <= CONFIG_ENV_SIZE -> (length e < fuel)%nat ->
  string_end default_environment fuel s i = Some (inl (i + Z.of_nat (length e))).
Proof.
  intros He Hz Hi Hf. revert fuel i He Hi Hf.
  induction e as [|c e IH]; intros [|fuel] i He Hi Hf; cbn [length] in *; try lia;
    apply text_at_cons in He as [Hc He]; cbn [string_end]; rewrite env_get_char_ram, Hc.
  - do 2 f_equal. lia.
  - apply Forall_cons in Hz as [Hc0 Hz]. destruct (Z.eqb_spec c 0); [done|].
    destruct (Z.leb_spec CONFIG_ENV_SIZE i); [lia|].
    rewrite IH; [do 2 f_equal; lia|done|by rewrite Z.add_assoc|lia|lia].
Qed.

(** The index of the value that [getenv] finds. *)
Fixpoint locate (nm : list Z) (l : list (list Z)) (i : Z) : option Z :=
  match l with
  | [] => None
  | e :: l => if defines nm e then Some (i + Z.of_nat (length nm) + 1)
              else locate nm l (i + Z.of_nat (length e) + 1)
  end.

Lemma find_value_spec fuel s p nm l i :
  cstr_at (ram s) p nm ->
  text_at (ram s) (data_of s + i) (flat l ++ [0]) -> Forall is_def l -> 0 <= i ->
  i + Z.of_nat (length (flat l)) <= CONFIG_ENV_SIZE -> (length (flat l) + length nm < fuel)%nat ->
  find_value fuel s p i = Some (locate (key nm) l i).
Proof.
  intros Hp. revert fuel i. induction l as [|e l IH]; intros [|fuel] i Ht Hl Hi0 Hi Hf;
    rewrite ?flat_cons in *; cbn [length] in *; try lia; cbn [Env.find_value locate].
  - apply text_at_cons in Ht as [Hz _]. by rewrite env_get_char_ram, Hz.
  - apply Forall_cons in Hl as [He Hl]. rewrite length_app in *. cbn [length] in *.
    rewrite <- app_assoc in Ht. pose proof Ht as Ht'. apply text_at_app in Ht' as [Hte Htl].
    cbn [app] in Htl. apply text_at_cons in Htl as [Hz Htl].
    assert (text_at (ram s) (data_of s + i) (e ++ [0])) as Hte0.
    { apply text_at_app. split; [done|]. by apply text_at_cons. }
    destruct e as [|c e]; [by destruct He|]. pose proof Hte as [Hc _]%text_at_cons.
    destruct (is_def_cons _ _ He) as [Hc0 _]. rewrite env_get_char_ram, Hc.
    destruct (Z.eqb_spec c 0); [done|].
    rewrite (string_end_spec _ _ _ _ Hte0), (envmatch_key _ _ _ _ _ _ Hp Hte He);
      [|cbn [length] in *; lia|apply He|lia|cbn [length] in *; lia].
    cbn [mbind option_bind]. destruct (defines (key nm) (c :: e)).
    + destruct (Z.ltb_spec (i + Z.of_nat (length (key nm)) + 1) 0); [lia|done].
    + change (-1 <? 0) with true. cbn iota. apply IH; [|done|lia|lia|lia].
      replace (data_of s + (i + Z.of_nat (length (c :: e)) + 1))
        with (data_of s + i + Z.of_nat (length (c :: e)) + 1) by lia. done.
Qed.

(** At the index that is found there is the value. *)
Lemma locate_lookup m p nm l i :
  text_at m (p + i) (flat l ++ [0]) -> Forall is_def l ->
  match locate nm l i, lookup_env nm l with
  | Some j, Some v => cstr_at m (p + j) v /\ i < j
  | None, None => True
  | _, _ => False
  end.
Proof.
  intros Ht Hl. revert i Ht. induction Hl as [|e l He Hl IH]; intros i Ht; cbn; [done|].
  rewrite flat_cons, <- app_assoc in Ht. apply text_at_app in Ht as [Hte Htl]. cbn [app] in Htl.
  apply text_at_cons in Htl as [Hz Htl].
  unfold defines. case_bool_decide as Hd.
  - split; [|lia].
    assert (length nm < length e)%nat as Hlen.
    { apply (f_equal length) in Hd. rewrite length_take, length_app in Hd. change (length [61]) with 1%nat in Hd. lia. }
    rewrite <- (take_drop (S (length nm)) e) in Hte. apply text_at_app in Hte as [_ Hte].
    rewrite length_take, Nat.min_l in Hte by lia.
    replace (p + (i + Z.of_nat (length nm) + 1)) with (p + i + Z.of_nat (S (length nm))) by lia.
    split.
    + replace (S (length (drop (S (length nm)) e))) with (length (drop (S (length nm)) e ++ [0]))
        by (rewrite length_app; cbn; lia).
      apply text_at_app. split; [done|]. apply text_at_cons. split; [|done].
      rewrite length_drop. replace (p + i + Z.of_nat (S (length nm)) + Z.of_nat (length e - S (length nm)))
        with (p + i + Z.of_nat (length e)) by lia. done.
    + by apply Forall_drop, He.
  - specialize (IH (i + Z.of_nat (length e) + 1)).
    assert (text_at m (p + (i + Z.of_nat (length e) + 1)) (flat l ++ [0])) as H1.
    { by replace (p + (i + Z.of_nat (length e) + 1)) with (p + i + Z.of_nat (length e) + 1) by lia. }
    specialize (IH H1). destruct (locate _ _ _), (lookup_env _ _); try done. destruct IH. split; [done|lia].
Qed.
End Search.

(** ** Taking a definition out *)

(** The definitions before and after the first that defines [nm]. *)
Fixpoint split_env (nm : list Z) (l : list (list Z)) : option (list (list Z) * list Z * list (list Z)) :=
  match l with
  | [] => None
  | e :: l =>
      if defines nm e then Some ([], e, l)
      else '(l1, x, l2) ← split_env nm l; Some (e :: l1, x, l2)
  end.

Lemma split_env_some nm l l1 e l2 :
  split_env nm l = Some (l1, e, l2) ->
  l = l1 ++ e :: l2 /\ remove_env nm l = l1 ++ l2 /\ defines nm e = true.
Proof.
  revert l1. induction l as [|x l IH]; intros l1; cbn; [done|].
  destruct (defines nm x) eqn:Hx; [by intros [= <- <- <-]|].
  destruct (split_env nm l) as [[[l1' x'] l2']|]; [|done]. intros [= <- -> ->].
  destruct (IH l1' eq_refl) as (-> & -> & ?). done.
Qed.

Lemma split_env_none nm l : split_env nm l = None -> remove_env nm l = l /\ lookup_env nm l = None.
Proof.
  induction l as [|x l IH]; cbn; [done|]. destruct (defines nm x); [done|].
  destruct (split_env nm l) as [[[]]|]; [done|]. intros _. destruct IH as [-> ->]; done.
Qed.

(** No two NULs in a row, the last byte is one. *)
Fixpoint gaps (t : list Z) : Prop :=
  match t with
  | [] => False
  | [c] => c = 0
  | c :: ((d :: _) as t') => ~ (c = 0 /\ d = 0) /\ gaps t'
  end.

Lemma gaps_app e t : Forall (fun c => c <> 0) e -> gaps t -> gaps (e ++ t).
Proof.
  intros He Ht. induction He as [|c e Hc He IH]; [done|]. cbn.
  destruct (e ++ t) as [|d u]; [done|]. split; [tauto|done].
Qed.

Lemma gaps_flat l : Forall is_def l -> l <> [] -> gaps (flat l).
Proof.
  induction 1 as [|e l He Hl IH]; [done|]. intros _. rewrite flat_cons. apply gaps_app; [by apply He|].
  destruct l as [|e' l]; [done|]. specialize (IH ltac:(done)). rewrite flat_cons in *.
  apply Forall_cons in Hl as [He' _]. destruct e' as [|c e']; [by destruct He'|]. cbn.
  split; [|done]. intros [_ ->]. by destruct (is_def_cons _ _ He').
Qed.

Lemma close_gap_spec t fuel m env nxt :
  gaps t -> text_at m nxt (t ++ [0]) -> env < nxt -> (length t <= fuel)%nat ->
  close_gap fuel m env nxt = Some (copy_up m env nxt (length t), env + Z.of_nat (length t) - 1).
Proof.
  revert fuel m env nxt. induction t as [|c t IH]; intros [|fuel] m env nxt Hg Ht Hlt Hf;
    cbn [length] in *; try done; try lia.
  cbn [close_gap copy_up]. apply text_at_cons in Ht as [Hc Ht].
  rewrite upd_eq, Hc, upd_ne by lia.
  assert (text_at (upd m env c) (nxt + 1) (t ++ [0])) as Ht'.
  { apply (text_at_same m); [|done]. intros q Hq. apply upd_ne. lia. }
  destruct t as [|d t].
  - cbn in Hg. subst c. apply text_at_cons in Ht as [Hz _]. rewrite Hz. cbn. do 2 f_equal. lia.
  - destruct Hg as [Hcd Hg]. pose proof Ht as [Hd _]%text_at_cons. rewrite Hd.
    destruct ((c =? 0) && (d =? 0)) eqn:E; [lia|].
    rewrite IH; [do 2 f_equal; cbn [length]; lia|done|done|lia|lia].
Qed.

Lemma find_tail_spec t fuel m env :
  gaps t -> text_at m env (t ++ [0]) -> (length t <= fuel)%nat ->
  find_tail fuel m env = Some (env + Z.of_nat (length t) - 1).
Proof.
  revert fuel env. induction t as [|c t IH]; intros [|fuel] env Hg Ht Hf; cbn [length] in *; try done; try lia.
  cbn [find_tail]. apply text_at_cons in Ht as [Hc Ht]. rewrite Hc. destruct t as [|d t].
  - cbn in Hg. subst c. apply text_at_cons in Ht as [Hz _]. rewrite Hz. cbn. f_equal. lia.
  - destruct Hg as [Hcd Hg]. pose proof Ht as [Hd _]%text_at_cons. rewrite Hd.
    destruct ((c =? 0) && (d =? 0)) eqn:E; [lia|].
    rewrite IH; [f_equal; cbn [length]; lia|done|done|lia].
Qed.

Lemma env_at_intro m p l : text_at m p (flat l ++ [0]) -> m (p + 1) = 0 \/ l <> [] -> Forall is_def l -> env_at m p l.
Proof.
  intros Ht Hz Hl. split; [|done]. destruct l as [|e l]; [|done].
  destruct Hz as [Hz|]; [|done]. apply text_at_cons in Ht as [H0 _].
  apply text_at_cons. split; [done|]. by apply text_at_cons.
Qed.

Lemma length_flat_pos e l : is_def e -> (1 < length (flat (e :: l)))%nat.
Proof. intros He%is_def_nonempty. rewrite flat_cons, length_app. cbn. lia. Qed.

Lemma delete_old_spec fuel m data l1 e l2 :
  env_at m data (l1 ++ e :: l2) -> (length (flat l2) <= fuel)%nat ->
  let env := data + Z.of_nat (length (flat l1)) in
  exists m', delete_old fuel m data env (env + Z.of_nat (length e)) = Some m' /\
    env_at m' data (l1 ++ l2) /\ same_except m m' data (length (image (l1 ++ e :: l2))).
Proof.
  intros H Hf env. pose proof (env_at_flat _ _ _ H) as Ht. destruct H as [_ Hl].
  pose proof Hl as [Hl1 [He Hl2]%Forall_cons]%Forall_app.
  assert (length (image (l1 ++ e :: l2)) = length (flat l1) + length e + length (flat l2) + 2)%nat as Hlen.
  { replace (image (l1 ++ e :: l2)) with (flat (l1 ++ e :: l2) ++ [0]) by (by destruct l1).
    rewrite flat_app, flat_cons, !length_app. cbn. lia. }
  rewrite flat_app, flat_cons, <- !app_assoc in Ht. apply text_at_app in Ht as [Ht1 Ht]. fold env in Ht.
  apply text_at_app in Ht as [Hte Ht]. cbn [app] in Ht. apply text_at_cons in Ht as [Hz Ht2].
  set (nxt := env + Z.of_nat (length e)) in *. pose proof (is_def_nonempty _ He) as Hpos.
  unfold delete_old. destruct l2 as [|e2 l2].
  - change (flat [] ++ [0]) with [0] in Ht2. apply text_at_cons in Ht2 as [Hz2 _].
    rewrite Hz2. cbn [Z.eqb mbind option_bind]. rewrite app_nil_r.
    destruct (Z.ltb_spec data env) as [Hd|Hd].
    + eexists. split; [done|]. split.
      * apply env_at_intro; [|right; intros ->; unfold env in Hd; cbn in Hd; lia|done].
        apply text_at_app. replace (env - 1 + 1) with env by lia. split.
        { apply (text_at_same m); [|done]. intros q Hq. apply upd_ne. lia. }
        apply text_at_cons. split; [|done]. apply upd_eq.
      * intros q Hq. apply upd_ne. lia.
    + eexists. split; [done|]. assert (l1 = []) as ->.
      { destruct l1 as [|e1 l1]; [done|]. apply Forall_cons in Hl1 as [He1 _].
        pose proof (length_flat_pos _ l1 He1). lia. }
      assert (env = data) as Henv by (unfold env; cbn; lia). rewrite Henv. split.
      * apply env_at_intro; [|left; apply upd_eq|done]. apply text_at_cons. split; [|done].
        rewrite upd_ne by lia. apply upd_eq.
      * intros q Hq. change (length (flat [])) with 0%nat in Hlen. rewrite !upd_ne by lia. done.
  - pose proof (gaps_flat _ Hl2 ltac:(done)) as Hg. set (t := flat (e2 :: l2)) in *.
    apply Forall_cons in Hl2 as [He2 _]. pose proof (length_flat_pos _ l2 He2) as Htl. fold t in Htl.
    assert (m (nxt + 1) <> 0) as Hnz.
    { unfold t in Ht2. rewrite flat_cons in Ht2. destruct e2 as [|c e2]; [by destruct He2|].
      apply text_at_cons in Ht2 as [-> _]. by destruct (is_def_cons _ _ He2). }
    destruct (Z.eqb_spec (m (nxt + 1)) 0); [done|].
    rewrite (close_gap_spec t) by (done || lia). cbn [mbind option_bind]. eexists. split; [done|].
    replace (env + Z.of_nat (length t) - 1 + 1) with (env + Z.of_nat (length t)) by lia.
    assert (forall q, copy_up m env (nxt + 1) (length t) q =
      if (env <=? q) && (q <? env + Z.of_nat (length t)) then m (nxt + 1 + (q - env)) else m q) as Hcp.
    { intros q. apply copy_up_spec. lia. }
    split.
    + apply env_at_intro; [|right; by destruct l1|apply Forall_app; split; [done|]; by apply Forall_app in Hl as [_ [_ ?]%Forall_cons]].
      rewrite flat_app, <- app_assoc. apply text_at_app. fold env t. split.
      { apply (text_at_same m); [|done]. intros q Hq. rewrite upd_ne, Hcp by lia.
        destruct (_ && _) eqn:E; [lia|done]. }
      apply text_at_app. split; [|by apply text_at_cons; split; [apply upd_eq|]].
      apply text_at_app in Ht2 as [Ht2 _]. transitivity (bytes_at m (nxt + 1) (length t)); [|exact Ht2].
      apply bytes_at_eq_iff. intros i Hi. rewrite upd_ne, Hcp by lia.
      destruct (_ && _) eqn:E; [f_equal; lia|lia].
    + intros q Hq. rewrite upd_ne, Hcp by lia. destruct (_ && _) eqn:E; [lia|done].
Qed.

(** ** Appending a definition *)

Lemma put_string_spec fuel m env from t :
  cstr_at m from t -> from + Z.of_nat (length t) < env \/ env + Z.of_nat (length t) < from ->
  (length t < fuel)%nat ->
  put_string fuel m env from = Some (store m env (t ++ [0]), env + Z.of_nat (length t)).
Proof.
  revert fuel m env from. induction t as [|c t IH]; intros [|fuel] m env from Ht Hs Hf;
    cbn [length] in *; try lia; cbn [put_string].
  - apply cstr_at_nil in Ht. rewrite Ht. cbn. do 2 f_equal. lia.
  - apply cstr_at_cons in Ht as (Hc & Hc0 & Ht). rewrite Hc. destruct (Z.eqb_spec c 0); [done|].
    rewrite IH; [cbn; do 2 f_equal; lia| |lia|lia].
    apply (cstr_at_ext m); [|done]. intros q Hq. apply upd_ne. lia.
Qed.

(** The strings [vs] at the pointers [ps], clear of the block at [data]. *)
Definition args_at (m : mem) (data : Z) : list Z -> list (list Z) -> Prop :=
  Forall2 (fun p v => cstr_at m p v /\
    (0 < p /\ p + Z.of_nat (length v) < data - 4 \/ 0 < data /\ data + ENV_SIZE <= p)).

Lemma args_at_same m m' data ps vs :
  (forall q, q < data - 4 \/ data + ENV_SIZE <= q -> m' q = m q) -> args_at m data ps vs -> args_at m' data ps vs.
Proof.
  intros Hm H. eapply Forall2_impl; [exact H|]. intros p v [Hv Hp]. split; [|done].
  apply (cstr_at_ext m); [|done]. intros q Hq. apply Hm. lia.
Qed.

Lemma put_values_spec fuel m data env sep ps vs :
  args_at m data ps vs -> m env = 0 -> data <= env ->
  env + Z.of_nat (length (joined sep vs)) < data + ENV_SIZE ->
  Forall (fun v => length v < fuel)%nat vs ->
  exists m', put_values fuel m env sep ps = Some (m', env + Z.of_nat (length (joined sep vs))) /\
    text_at m' env (joined sep vs ++ [0]) /\
    same_except m m' env (length (joined sep vs) + 1).
Proof.
  revert vs m env sep. induction ps as [|p ps IH]; intros vs m env sep Ha Hz Hd Hr Hf;
    apply Forall2_cons_inv_l in Ha || apply Forall2_nil_inv_l in Ha.
  - subst vs. cbn. exists m. split_and!; [do 2 f_equal; lia|by apply text_at_cons|done].
  - destruct Ha as (v & vs' & [Hv Hp] & Ha & ->). apply Forall_cons in Hf as [Hfv Hf].
    cbn [joined length put_values] in *. rewrite length_app in *.
    rewrite (put_string_spec _ _ _ _ v); [|apply (cstr_at_ext m); [|done]; intros q Hq; apply upd_ne; lia|lia|done].
    cbn [mbind option_bind]. set (m1 := store (upd m env sep) (env + 1) (v ++ [0])).
    assert (same_except m m1 env (length v + 2)) as Hm1.
    { intros q Hq. unfold m1. rewrite store_outside, upd_ne by (rewrite ?length_app; cbn; lia). done. }
    assert (m1 (env + 1 + Z.of_nat (length v)) = 0) as Hz1.
    { unfold m1. rewrite store_app. by apply upd_eq. }
    destruct (IH vs' m1 (env + 1 + Z.of_nat (length v)) 32) as (m2 & E2 & Ht2 & Hs2); [|done|lia|lia|done|].
    { apply (args_at_same m); [|done]. intros q Hq. apply Hm1. lia. }
    rewrite E2. exists m2. split_and!.
    + do 2 f_equal. lia.
    + change ((sep :: v ++ joined 32 vs') ++ [0]) with (sep :: (v ++ joined 32 vs') ++ [0]).
      rewrite <- app_assoc.
      assert (text_at m2 env (sep :: v)) as Hsv.
      { apply (text_at_same m1); [intros q Hq; apply Hs2; cbn [length] in Hq; lia|].
        apply text_at_cons. unfold m1. split; [rewrite store_outside by lia; apply upd_eq|].
        rewrite store_app. apply (text_at_same (store (upd m env sep) (env + 1) v)).
        - intros q Hq. apply store_outside. cbn. lia.
        - apply bytes_at_store. }
      apply text_at_cons in Hsv as [H1 H2]. apply text_at_cons. split; [done|].
      apply text_at_app. by split.
    + intros q Hq. cbn [length] in Hq. rewrite ?length_app in Hq. rewrite Hs2, Hm1 by lia. done.
Qed.

Lemma values_len_spec fuel m data ps vs len :
  args_at m data ps vs -> Forall (fun v => length v < fuel)%nat vs -> 0 <= len ->
  len + Z.of_nat (length (joined 0 vs)) < 2 ^ 31 ->
  values_len fuel m ps len = Some (len + Z.of_nat (length (joined 0 vs))).
Proof.
  intros Ha Hf. revert len. induction Ha as [|p v ps vs [Hv _] Ha IH]; intros len H0 Hl.
  - cbn. f_equal. lia.
  - apply Forall_cons in Hf as [Hfv Hf]. cbn [values_len joined length] in *. rewrite length_app in *.
    assert (forall a b, length (joined a vs) = length (joined b vs)) as Hj by (intros; by destruct vs).
    rewrite (Hj 32 0) in *. rewrite (strlen_spec _ _ _ v) by done. cbn [mbind option_bind].
    rewrite s32_small, IH by (done || lia). f_equal. lia.
Qed.

Lemma length_joined a b vs : length (joined a vs) = length (joined b vs).
Proof. by destruct vs. Qed.

Section Set_.
Context {X : Type} (console_assign : X -> mem -> Z -> Z -> X * Z) (switch_line : X -> Z -> option X).
Context (default_environment : Z).
Abbreviation env_state := (env_state X).
Implicit Type s : env_state.

(** The block lies behind its CRC and holds the definitions [l]. *)
Record env_holds s (l : list (list Z)) : Prop := {
  eh_ptr : data_of default_environment s = env_data (env_ptr s);
  eh_null : 0 < data_of default_environment s;
  eh_text : env_at (ram s) (data_of default_environment s) l;
  eh_room : Z.of_nat (length (image l)) <= ENV_SIZE
}.

(** The CRC is that of the block. *)
Definition crc_ok s : Prop :=
  load32 (ram s) (env_ptr s) =
  u32 (Crc32.crc32 0 (bytes_at (ram s) (env_data (env_ptr s)) (Z.to_nat ENV_SIZE))).

(** Nothing but the block is changed. *)
Definition block_only s s' : Prop :=
  data_of default_environment s' = data_of default_environment s /\ env_ptr s' = env_ptr s /\
  forall q, q < data_of default_environment s - 4 \/ data_of default_environment s + ENV_SIZE <= q ->
    ram s' q = ram s q.

Lemma block_only_trans s1 s2 s3 : block_only s1 s2 -> block_only s2 s3 -> block_only s1 s3.
Proof.
  intros (A1 & A2 & A3) (B1 & B2 & B3). split_and!; [congruence|congruence|].
  intros q Hq. rewrite B3, A3 by (rewrite ?A1; done). done.
Qed.

Lemma env_crc_update_ok s :
  data_of default_environment s = env_data (env_ptr s) ->
  crc_ok (env_crc_update s) /\ block_only s (env_crc_update s) /\
  (forall q, data_of default_environment s <= q -> ram (env_crc_update s) q = ram s q).
Proof.
  intros Hd. unfold env_data in *.
  assert (forall q, data_of default_environment s <= q -> ram (env_crc_update s) q = ram s q) as Hq.
  { intros q Hq. apply store_outside. rewrite length_le_put. lia. }
  split_and!; [| |done].
  - unfold crc_ok, env_data. change (env_ptr (env_crc_update s)) with (env_ptr s).
    rewrite (bytes_at_ext (ram s)) by (intros q Hin; apply Hq; rewrite Hd; apply Hin).
    apply load32_store32.
  - split_and!; [done|done|]. intros q Hq'. apply store_outside. rewrite length_le_put.
    unfold ENV_SIZE, CONFIG_ENV_SIZE in *. lia.
Qed.

Lemma find_old_spec fuel s p nm l i :
  cstr_at (ram s) p nm -> is_name nm ->
  text_at (ram s) (data_of default_environment s + i) (flat l ++ [0]) -> Forall is_def l -> 0 <= i ->
  (length (flat l) + length nm < fuel)%nat ->
  match split_env nm l with
  | None => exists env nxt, find_old default_environment fuel s p (data_of default_environment s)
      (data_of default_environment s + i) = Some (-1, env, nxt)
  | Some (l1, e, l2) => exists oldval, 0 <= oldval /\
      let env := data_of default_environment s + i + Z.of_nat (length (flat l1)) in
      find_old default_environment fuel s p (data_of default_environment s)
        (data_of default_environment s + i) = Some (oldval, env, env + Z.of_nat (length e))
  end.
Proof.
  intros Hp Hn. set (data := data_of default_environment s). revert fuel i.
  induction l as [|e l IH]; intros [|fuel] i Ht Hl Hi0 Hf;
    rewrite ?flat_cons in *; cbn [length] in *; try lia; cbn [Env.find_old split_env].
  - apply text_at_cons in Ht as [Hz _]. rewrite Hz. by exists (data + i), NULL.
  - apply Forall_cons in Hl as [He Hl]. rewrite length_app in *. cbn [length] in *.
    rewrite <- app_assoc in Ht. apply text_at_app in Ht as [Hte Htl].
    cbn [app] in Htl. apply text_at_cons in Htl as [Hz Htl].
    assert (cstr_at (ram s) (data + i) e) as Hce.
    { split; [|apply He]. replace (S (length e)) with (length (e ++ [0])) by (rewrite length_app; cbn; lia).
      apply text_at_app. split; [done|]. by apply text_at_cons. }
    assert (ram s (data + i) <> 0) as Hnz.
    { destruct e as [|c e]; [by destruct He|]. apply cstr_at_cons in Hce as (-> & ? & _). done. }
    destruct (Z.eqb_spec (ram s (data + i)) 0); [done|].
    rewrite (skip_to_nul_spec _ _ _ e) by (done || lia).
    replace (data + i - data) with i by lia. cbn [mbind option_bind].
    rewrite (envmatch_spec _ _ _ _ _ _ _ Hp Hn Hte He) by lia. cbn [mbind option_bind].
    destruct (defines nm e).
    + exists (i + Z.of_nat (length nm) + 1). split; [lia|].
      destruct (Z.leb_spec 0 (i + Z.of_nat (length nm) + 1)); [|lia]. cbn. do 3 f_equal; lia.
    + change (0 <=? -1) with false. cbn iota.
      replace (data + i + Z.of_nat (length e) + 1) with (data + (i + Z.of_nat (length e) + 1)) in * by lia.
      specialize (IH fuel _ Htl Hl ltac:(lia) ltac:(lia)).
      destruct (split_env nm l) as [[[l1 x] l2]|]; [|done].
      destruct IH as (oldval & Ho & ->). exists oldval. split; [done|]. cbn zeta.
      rewrite flat_cons, length_app. cbn [length]. do 3 f_equal; lia.
Qed.

Lemma is_string_spec m p nm lit :
  cstr_at m p nm -> Forall (fun c => c <> 0) lit -> is_string m p lit = bool_decide (nm = lit).
Proof.
  intros Hp Hz. unfold is_string. apply bool_decide_ext. split.
  - intros H. apply (cstr_at_inj m p); [done|]. by split.
  - intros <-. apply Hp.
Qed.

Definition reserved (nm : list Z) : Prop := nm ∈ [n_stdin; n_stdout; n_stderr; n_baudrate].

Lemma redirect_plain fuel s p nm argc a :
  cstr_at (ram s) p nm -> ~ reserved nm -> redirect console_assign switch_line fuel s p argc a = Some (s, true).
Proof.
  intros Hp Hr. unfold redirect, reserved in *. rewrite !not_elem_of_cons in Hr. destruct Hr as (H1 & H2 & H3 & H4 & _).
  assert (forall lit, In lit [n_stdin; n_stdout; n_stderr; n_baudrate] -> Forall (fun c => c <> 0) lit) as Hz.
  { intros lit Hl. apply (bool_decide_eq_true_1 _). by destruct Hl as [<-|[<-|[<-|[<-|[]]]]]. }
  rewrite !(is_string_spec _ _ nm) by (done || apply Hz; cbn; tauto).
  rewrite !bool_decide_false by done. done.
Qed.

Lemma strchr_none fuel m p nm : cstr_at m p nm -> ~ In 61 nm -> (length nm < fuel)%nat ->
  strchr fuel m p 61 = Some NULL.
Proof.
  revert fuel p. induction nm as [|c nm IH]; intros [|fuel] p Hp Hn Hf; cbn [length] in Hf; try lia; cbn [strchr].
  - apply cstr_at_nil in Hp. by rewrite Hp.
  - apply cstr_at_cons in Hp as (Hc & Hz & Hp). rewrite Hc. change (u8 61) with 61.
    destruct (Z.eqb_spec c 61) as [->|_]; [by elim Hn; left|]. destruct (Z.eqb_spec c 0); [done|].
    apply IH; [done|intros ?; apply Hn; by right|lia].
Qed.

Lemma chars_at_spec fuel m p v : cstr_at m p v -> (length v < fuel)%nat -> chars_at fuel m p = Some v.
Proof.
  revert fuel p. induction v as [|c v IH]; intros [|fuel] p Hp Hf; cbn [length] in Hf; try lia; cbn [chars_at].
  - apply cstr_at_nil in Hp. by rewrite Hp.
  - apply cstr_at_cons in Hp as (Hc & Hz & Hp). rewrite Hc. destruct (Z.eqb_spec c 0); [done|].
    by rewrite IH by (done || lia).
Qed.

Lemma digits_suffix w cp base r : (digits_loop w cp base r).2 `suffix_of` cp.
Proof.
  revert r. induction cp as [|c cp IH]; intros r; cbn [digits_loop]; [done|].
  destruct (_ && _); [|done]. by apply suffix_cons_r, IH.
Qed.

Lemma tl_suffix (l : list Z) : tl l `suffix_of` l.
Proof. destruct l; [done|]. by apply suffix_cons_r. Qed.

Lemma strtou_suffix w cp base : (strtou w cp base).2 `suffix_of` cp.
Proof.
  unfold strtou. destruct (ch cp =? 48); [|apply digits_suffix].
  destruct (_ && _).
  - etrans; [apply digits_suffix|]. etrans; apply tl_suffix.
  - etrans; [apply digits_suffix|]. apply tl_suffix.
Qed.

Lemma cstr_suffix m p v r :
  cstr_at m p v -> r `suffix_of` v -> cstr_at m (p + Z.of_nat (length v - length r)) r.
Proof.
  intros Hp [d ->]. rewrite length_app, Nat.add_sub. by apply cstr_at_app_r in Hp.
Qed.

Lemma parse_ip_total fuel n m p v addr :
  cstr_at m p v -> (length v < fuel)%nat -> exists a, parse_ip fuel n m p addr = Some a.
Proof.
  revert p v addr. induction n as [|n IH]; intros p v addr Hp Hf; cbn [parse_ip]; [by eauto|].
  destruct (Z.eqb_spec p NULL) as [->|_]; [cbn [mbind option_bind]; by apply (IH _ v)|].
  rewrite (chars_at_spec _ _ _ v) by done. cbn [mbind option_bind].
  pose proof (strtou_suffix u32 v 10) as Hs. unfold simple_strtoul.
  destruct (strtou u32 v 10) as [val r]. cbn [snd] in Hs.
  pose proof (cstr_suffix _ _ _ _ Hp Hs) as Hr. pose proof (suffix_length _ _ Hs). cbn [mbind option_bind].
  destruct r as [|c r].
  - pose proof Hr as Hz%cstr_at_nil. rewrite Hz. apply (IH _ []); [done|cbn in *; lia].
  - apply cstr_at_cons in Hr as (Hc & Hz & Hr). rewrite Hc. destruct (Z.eqb_spec c 0); [done|].
    apply (IH _ r); [done|cbn in *; lia].
Qed.

Lemma follow_total fuel s p nm a v :
  cstr_at (ram s) p nm -> cstr_at (ram s) a v -> (length v < fuel)%nat ->
  exists s', follow fuel s p a = Some s' /\ ram s' = ram s /\ env_ptr s' = env_ptr s /\
    data_of default_environment s' = data_of default_environment s.
Proof.
  intros Hp Ha Hf. unfold follow. destruct (is_string _ _ n_ethaddr); [by eauto|].
  destruct (is_string _ _ n_ipaddr).
  { destruct (parse_ip_total fuel 4 (ram s) a v 0 Ha Hf) as [addr ->]. cbn. eauto. }
  destruct (is_string _ _ n_loadaddr); [|by eauto].
  rewrite (chars_at_spec _ _ _ v) by done. cbn. eauto.
Qed.
End Set_.

Section Setenv.
Context {X : Type} (console_assign : X -> mem -> Z -> Z -> X * Z) (switch_line : X -> Z -> option X).
Context (default_environment : Z).
Abbreviation env_state := (env_state X).
Abbreviation data_of := (data_of default_environment).
Abbreviation env_holds := (env_holds default_environment).
Abbreviation block_only := (block_only default_environment).
Implicit Type s : env_state.

Lemma length_image l : Forall is_def l -> length (image l) = Nat.max 2 (S (length (flat l))).
Proof.
  intros Hl. destruct l as [|e l]; [done|]. apply Forall_cons in Hl as [He _].
  pose proof (length_flat_pos _ l He). change (image (e :: l)) with (flat (e :: l) ++ [0]).
  rewrite length_app. cbn [length]. lia.
Qed.

Lemma remove_env_def nm l : Forall is_def l -> Forall is_def (remove_env nm l).
Proof.
  induction 1 as [|e l He Hl IH]; cbn; [done|]. destruct (defines nm e); [done|]. by constructor.
Qed.

Lemma length_image_remove nm l : Forall is_def l -> (length (image (remove_env nm l)) <= length (image l))%nat.
Proof.
  intros Hl. pose proof (remove_env_def nm l Hl) as Hr. rewrite !length_image by done.
  destruct (split_env nm l) as [[[l1 e] l2]|] eqn:Es; [|by apply split_env_none in Es as [-> _]].
  apply split_env_some in Es as (-> & -> & _). apply Forall_app in Hl as [_ [He _]%Forall_cons].
  rewrite !flat_app, flat_cons, !length_app. cbn [length]. lia.
Qed.

(** The place where a definition is appended. *)
Lemma tail_spec fuel m p l :
  env_at m p l -> (length (image l) <= fuel)%nat ->
  exists t, find_tail fuel m p = Some t /\ (if p <? t then t + 1 else t) = p + Z.of_nat (length (flat l)).
Proof.
  intros H Hf. pose proof H as [Ht Hl]. rewrite length_image in Hf by done. destruct l as [|e l].
  - apply text_at_cons in Ht as [H0 Ht]. apply text_at_cons in Ht as [H1 _].
    exists p. destruct fuel; [lia|]. cbn. rewrite H0, H1. cbn. split; [done|].
    destruct (Z.ltb_spec p p); lia.
  - apply env_at_flat in H. eexists. split; [apply find_tail_spec; [by apply gaps_flat|done|lia]|].
    apply Forall_cons in Hl as [He _]. pose proof (length_flat_pos _ l He).
    destruct (Z.ltb_spec p (p + Z.of_nat (length (flat (e :: l))) - 1)); lia.
Qed.

Lemma joined_def nm vs : is_name nm -> vs <> [] -> Forall (Forall (fun c => c <> 0)) vs ->
  is_def (nm ++ joined 61 vs).
Proof.
  intros [Hn _] Hv Hz. destruct vs as [|v vs]; [done|]. split; [|apply in_or_app; right; by left].
  apply Forall_app. split; [done|].
  enough (forall sep, sep <> 0 -> Forall (fun c => c <> 0) (joined sep (v :: vs))) by auto.
  clear Hv. induction Hz as [|x l Hx Hl IH]; intros sep Hs; cbn; [done|].
  constructor; [done|]. apply Forall_app. split; [done|]. by apply IH.
Qed.

Lemma length_joined_each sep vs : Forall (fun v => length v < S (length (joined sep vs)))%nat vs.
Proof.
  revert sep. induction vs as [|v vs IH]; intros sep; [done|]. cbn. rewrite length_app. constructor; [lia|].
  eapply Forall_impl; [apply (IH 32)|]. cbn. lia.
Qed.

Lemma image_snoc l e : image (l ++ [e]) = flat l ++ e ++ [0; 0].
Proof.
  replace (image (l ++ [e])) with (flat (l ++ [e]) ++ [0]) by (by destruct l).
  rewrite flat_app, flat_cons, <- !app_assoc. done.
Qed.

(** Name, values and the NUL that ends the block, behind the definitions. *)
Lemma put_definition fuel m data l p nm ps vs :
  env_at m data l -> args_at m data (p :: ps) (nm :: vs) ->
  (length nm < fuel)%nat -> Forall (fun v => length v < fuel)%nat vs ->
  Z.of_nat (length (flat l) + length nm + length (joined 61 vs)) + 2 <= ENV_SIZE ->
  let env := data + Z.of_nat (length (flat l)) in
  exists m1 e1 m2 e2, put_string fuel m env p = Some (m1, e1) /\
    put_values fuel m1 e1 61 ps = Some (m2, e2) /\
    text_at (upd m2 (e2 + 1) 0) data (image (l ++ [nm ++ joined 61 vs])) /\
    same_except m (upd m2 (e2 + 1) 0) env (length nm + length (joined 61 vs) + 2).
Proof.
  intros E Ha Hf Hvf Hle env. apply Forall2_cons in Ha as [[Hp Hs] Ha].
  set (k := length (flat l)) in *. set (j := length (joined 61 vs)) in *.
  rewrite (put_string_spec _ _ _ _ nm) by (done || lia). set (m1 := store m env (nm ++ [0])).
  assert (same_except m m1 env (length nm + 1)) as Hm1.
  { intros q Hq. unfold m1. rewrite store_outside by (rewrite length_app; cbn; lia). done. }
  destruct (put_values_spec fuel m1 data (env + Z.of_nat (length nm)) 61 ps vs) as (m2 & E2 & Ht2 & Hs2);
    [|unfold m1; rewrite store_app; by apply upd_eq|lia|fold j; lia|done|].
  { apply (args_at_same m); [|done]. intros q Hq. apply Hm1. lia. }
  fold j in Hs2, E2. do 4 eexists. split; [done|]. split; [exact E2|]. set (m3 := upd m2 _ 0).
  assert (same_except m m3 env (length nm + j + 2)) as Hm3.
  { intros q Hq. unfold m3. rewrite upd_ne, Hs2, Hm1 by lia. done. }
  split; [|done]. rewrite image_snoc. apply text_at_app. split.
  { apply env_at_flat, text_at_app in E as [E _]. apply (text_at_same m); [|done].
    intros q Hq. apply Hm3. fold k in Hq. lia. }
  fold k env. rewrite <- app_assoc. apply text_at_app. split.
  { apply (text_at_same (store m env nm)); [|apply bytes_at_store].
    intros q Hq. unfold m3. rewrite upd_ne, Hs2 by lia. unfold m1. rewrite store_app.
    apply store_outside. cbn. lia. }
  change [0; 0] with ([0] ++ [0]). rewrite app_assoc. apply text_at_app. rewrite length_app.
  fold j. cbn [length]. split.
  - apply (text_at_same m2); [|done]. intros q Hq. rewrite length_app in Hq.
    fold j in Hq. cbn [length] in Hq. unfold m3. apply upd_ne. lia.
  - apply text_at_cons. split; [|done]. unfold m3.
    replace (env + Z.of_nat (length nm) + Z.of_nat (j + 1)) with (env + Z.of_nat (length nm) + Z.of_nat j + 1) by lia.
    apply upd_eq.
Qed.

Lemma args_at_strings m data ps vs : args_at m data ps vs -> Forall (Forall (fun c => c <> 0)) vs.
Proof. induction 1 as [|? ? ? ? [[_ ?] _] ? IH]; by constructor. Qed.

Lemma append_spec fuel s l p nm ps vs :
  env_holds s l -> is_name nm -> args_at (ram s) (data_of s) (p :: ps) (nm :: vs) -> vs <> [] ->
  (length (image l) + length nm + length (joined 61 vs) < fuel)%nat ->
  Z.of_nat (length nm + length (joined 61 vs)) + 2 < 2 ^ 31 ->
  if Z.of_nat (length (image (l ++ [nm ++ joined 61 vs]))) <=? ENV_SIZE
  then exists s', append fuel s (data_of s) p ps = Some (s', true) /\
         env_holds s' (l ++ [nm ++ joined 61 vs]) /\ crc_ok s' /\ block_only s s'
  else append fuel s (data_of s) p ps = Some (s, false).
Proof.
  intros [E1 E2 E3 E4] Hn Ha Hv Hf Hw. pose proof Ha as Ha'. apply Forall2_cons in Ha' as [[Hp Hs] Ha'].
  unfold append. destruct (tail_spec fuel _ _ _ E3 ltac:(lia)) as (t & -> & Ht). cbn [mbind option_bind].
  rewrite Ht, (strlen_spec _ _ _ nm) by (done || lia). cbn [mbind option_bind].
  assert (Forall (fun v => length v < fuel)%nat vs) as Hvf.
  { eapply Forall_impl; [apply (length_joined_each 61)|]. cbn. lia. }
  rewrite s32_small, (values_len_spec _ _ (data_of s) _ vs) by (done || (rewrite ?(length_joined 0 61); lia)).
  cbn [mbind option_bind]. rewrite (length_joined 0 61), image_snoc, !length_app. cbn [length].
  destruct (Z.leb_spec (Z.of_nat (length (flat l) + (length nm + length (joined 61 vs) + 2))) ENV_SIZE) as [Hle|Hgt];
    destruct (Z.ltb_spec (data_of s + ENV_SIZE - (data_of s + Z.of_nat (length (flat l))))
      (Z.of_nat (length nm) + 2 + Z.of_nat (length (joined 61 vs)))); try lia; [|done].
  destruct (put_definition fuel (ram s) (data_of s) l p nm ps vs) as (m1 & e1 & m2 & e2 & -> & E & Ht3 & Hm3);
    [done|done|lia|done|lia|].
  cbn [mbind option_bind]. rewrite E. cbn [mbind option_bind]. set (m3 := upd m2 _ 0) in *.
  set (s3 := with_ram s m3). destruct (env_crc_update_ok default_environment s3 E1) as (C1 & C2 & C3).
  eexists. split; [done|]. split_and!; [split| |].
  - exact E1.
  - exact E2.
  - split; [apply (text_at_same m3); [|done]; intros q Hq; apply C3; exact (proj1 Hq)|].
    apply Forall_app. split; [apply E3|]. constructor; [|done].
    apply joined_def; [done|done|by eapply args_at_strings].
  - rewrite image_snoc, !length_app. cbn [length]. lia.
  - done.
  - apply (block_only_trans _ _ s3); [|done]. split_and!; [done|done|]. intros q Hq. apply Hm3. lia.
Qed.

(** ** [_do_setenv] *)

(** Taking out what [nm] has, if it has something. *)
Lemma delete_cases fuel s l p nm :
  env_holds s l -> is_name nm -> cstr_at (ram s) p nm -> (length (image l) + length nm < fuel)%nat ->
  exists oldval env nxt,
    find_old default_environment fuel s p (data_of s) (data_of s) = Some (oldval, env, nxt) /\
    if 0 <=? oldval
    then exists m', delete_old fuel (ram s) (data_of s) env nxt = Some m' /\
           env_at m' (data_of s) (remove_env nm l) /\
           same_except (ram s) m' (data_of s) (length (image l))
    else remove_env nm l = l.
Proof.
  intros [E1 E2 E3 E4] Hn Hp Hf. pose proof E3 as [_ Hl]. rewrite length_image in Hf, E4 by done.
  pose proof (find_old_spec default_environment fuel s p nm l 0 Hp Hn) as Hfo.
  rewrite Z.add_0_r in Hfo. specialize (Hfo (env_at_flat _ _ _ E3) Hl ltac:(lia) ltac:(lia)).
  destruct (split_env nm l) as [[[l1 e] l2]|] eqn:Es.
  - destruct Hfo as (oldval & Ho & Hfo). apply split_env_some in Es as (-> & -> & _).
    rewrite flat_app, flat_cons, !length_app in Hf. cbn [length] in Hf.
    do 3 eexists. split; [exact Hfo|]. destruct (Z.leb_spec 0 oldval); [|lia].
    apply (delete_old_spec fuel (ram s) (data_of s) l1 e l2 E3). lia.
  - destruct Hfo as (env & nxt & Hfo). apply split_env_none in Es as [-> _].
    by exists (-1), env, nxt.
Qed.

(** With the definitions changed in memory. *)
Lemma env_holds_ram s s0 l l' m' :
  env_holds s l -> data_of s0 = data_of s -> env_ptr s0 = env_ptr s ->
  env_at m' (data_of s) l' -> Z.of_nat (length (image l')) <= ENV_SIZE -> env_holds (with_ram s0 m') l'.
Proof.
  intros [E1 E2 E3 E4] Hd Hp E H. split.
  - change (data_of s0 = env_data (env_ptr s0)). congruence.
  - change (0 < data_of s0). congruence.
  - change (env_at m' (data_of s0) l'). congruence.
  - exact H.
Qed.

Lemma remove_room nm l : Forall is_def l -> Z.of_nat (length (image l)) <= ENV_SIZE ->
  Z.of_nat (length (image (remove_env nm l))) <= ENV_SIZE.
Proof. intros Hl. pose proof (length_image_remove nm l Hl). lia. Qed.

Lemma delete_spec fuel s l p nm argc a :
  env_holds s l -> is_name nm -> ~ reserved nm -> cstr_at (ram s) p nm ->
  (length (image l) + length nm < fuel)%nat ->
  exists m' oldval env nxt,
    find_old default_environment fuel s p (data_of s) (data_of s) = Some (oldval, env, nxt) /\
    (if 0 <=? oldval then
       '(s', ok) ← redirect console_assign switch_line fuel s p argc a;
       if ok : bool then m ← delete_old fuel (ram s') (data_of s) env nxt; Some (with_ram s' m, true)
       else Some (s', false)
     else Some (s, true)) = Some (with_ram s m', true) /\
    env_holds (with_ram s m') (remove_env nm l) /\ block_only s (with_ram s m').
Proof.
  intros E Hn Hr Hp Hf. destruct (delete_cases _ _ _ _ _ E Hn Hp Hf) as (oldval & env & nxt & H1 & H2).
  pose proof E as [_ _ [E3 Hl] E4]. destruct (0 <=? oldval) eqn:Ho.
  - destruct H2 as (m' & Hd & He & Hs). exists m', oldval, env, nxt. split; [done|]. rewrite Ho.
    rewrite (redirect_plain _ _ _ _ _ nm) by done. cbn [mbind option_bind]. rewrite Hd. split; [done|].
    split; [apply (env_holds_ram s s l); auto using remove_room|].
    split_and!; [done|done|]. intros q Hq. apply Hs. lia.
  - exists (ram s), oldval, env, nxt. rewrite Ho, H2. split; [done|]. split; [by destruct s|].
    split; [by destruct s|]. by split_and!.
Qed.

Lemma args_null m data ps vs : args_at m data ps vs -> hd NULL ps = NULL -> vs = [].
Proof.
  intros [|p v ps' vs' [_ Hp] _]; [done|]. cbn. unfold NULL, ENV_SIZE, CONFIG_ENV_SIZE in *. lia.
Qed.

(** Setting a variable takes its definition out and appends the new one;
    with no value it is only taken out.  If there is no room the variable is
    gone, and the CRC is left as it was. *)
Lemma setenv_spec fuel s l p nm ps vs :
  env_holds s l -> is_name nm -> ~ reserved nm -> args_at (ram s) (data_of s) (p :: ps) (nm :: vs) ->
  (length (image l) + length nm + length (joined 61 vs) < fuel)%nat ->
  Z.of_nat (length nm + length (joined 61 vs)) + 2 < 2 ^ 31 ->
  let l1 := remove_env nm l in
  let l2 := l1 ++ [nm ++ joined 61 vs] in
  exists s' r, _do_setenv console_assign switch_line default_environment fuel s p ps = Some (s', r) /\
    block_only s s' /\
    (if bool_decide (vs = []) then env_holds s' l1 /\ crc_ok s' /\ r = 0
     else if Z.of_nat (length (image l2)) <=? ENV_SIZE then env_holds s' l2 /\ crc_ok s' /\ r = 0
     else env_holds s' l1 /\ r = 1).
Proof.
  intros E Hn Hr Ha Hf Hw l1 l2. pose proof Ha as Ha'. apply Forall2_cons in Ha' as [[Hp Hs] Ha'].
  pose proof (eh_null _ _ _ E) as Hd0. pose proof E as [_ _ [_ Hl] _].
  unfold _do_setenv. change (env_get_addr default_environment s 0) with (data_of s).
  destruct (Z.eqb_spec (data_of s) NULL) as [H0|_]; [rewrite H0 in Hd0; done|].
  rewrite (strchr_none _ _ _ nm) by (done || apply Hn || lia). cbn [mbind option_bind]. rewrite Z.eqb_refl. cbn [negb].
  set (s0 := with_id s _). assert (env_holds s0 l) as E0 by (by destruct E; split).
  destruct (delete_spec fuel s0 l p nm (2 + length ps) (hd NULL ps) E0 Hn Hr Hp ltac:(lia))
    as (m' & oldval & env & nxt & H1 & H2 & E1 & B1).
  change (data_of s) with (data_of s0). rewrite H1. cbn [mbind option_bind] in H2 |- *. rewrite H2.
  cbn [mbind option_bind negb]. clear H1 H2. set (s1 := with_ram s0 m') in *. fold l1 in E1.
  assert (block_only s s1) as B by done.
  case_bool_decide as Hvs.
  - subst vs. apply Forall2_nil_inv_r in Ha'. subst ps. cbn [hd]. rewrite Z.eqb_refl.
    destruct (env_crc_update_ok default_environment s1 (eh_ptr _ _ _ E1)) as (C1 & C2 & C3).
    eexists _, _. split; [done|]. split; [exact (block_only_trans _ _ _ _ B C2)|]. split; [|split; [exact C1|reflexivity]].
    destruct E1 as [D1 D2 [D3 D4] D5]. split; [exact D1|exact D2| |exact D5]. split; [|exact D4].
    apply (text_at_same (ram s1)); [|done]. intros q Hq. apply C3. exact (proj1 Hq).
  - destruct (Z.eqb_spec (hd NULL ps) NULL) as [H0|_]; [elim Hvs; exact (args_null _ _ _ _ Ha' H0)|].
    assert (args_at (ram s1) (data_of s1) (p :: ps) (nm :: vs)) as Ha1.
    { apply (args_at_same (ram s)); [|done]. apply B1. }
    pose proof (length_image_remove nm l Hl).
    pose proof (append_spec fuel s1 l1 p nm ps vs E1 Hn Ha1 Hvs ltac:(unfold l1; lia) Hw) as Happ.
    change (data_of s0) with (data_of s1). fold l2 in Happ. destruct (_ <=? ENV_SIZE).
    + destruct Happ as (s2 & -> & E2 & C2 & B2). cbn [mbind option_bind negb].
      pose proof (block_only_trans _ _ _ _ B B2) as B'.
      assert (args_at (ram s2) (data_of s) (p :: ps) (nm :: vs)) as Ha2.
      { apply (args_at_same (ram s)); [|done]. apply B'. }
      apply Forall2_cons in Ha2 as [[Hp2 _] Ha2].
      destruct ps as [|p1 ps]; [elim Hvs; exact (Forall2_nil_inv_l _ _ Ha2)|].
      apply Forall2_cons_inv_l in Ha2 as (v1 & vs' & [Hv1 _] & _ & ->).
      cbn [hd]. destruct (follow_total default_environment fuel s2 p nm p1 v1) as (s3 & -> & Er & Ep & Ed);
        [exact Hp2|exact Hv1|cbn [joined length] in Hf; rewrite length_app in Hf; lia|].
      cbn [mbind option_bind]. exists s3, 0. split; [reflexivity|]. destruct B' as (B1' & B2' & B3'). split.
      { split_and!; [congruence|congruence|]. intros q Hq. rewrite Er. by apply B3'. }
      split; [|split; [|reflexivity]].
      * destruct E2 as [D1 D2 D3 D4]. split; rewrite ?Ed, ?Er, ?Ep; assumption.
      * unfold crc_ok in *. rewrite Er, Ep. exact C2.
    + rewrite Happ. cbn [mbind option_bind negb]. by exists s1, 1.
Qed.
End Setenv.

(** ** Looking up what was set *)

Lemma defines_inj nm nm' e : is_name nm -> is_name nm' -> defines nm e = true -> defines nm' e = true -> nm = nm'.
Proof.
  intros Hn%is_name_char Hn'%is_name_char. revert nm' Hn' e.
  induction Hn as [|c nm [_ Hc] Hn IH]; intros nm' Hn' [|d e]; rewrite ?defines_nil; try done;
    destruct Hn' as [|c' nm' [_ Hc'] Hn']; rewrite ?defines_cons, ?nil_defines, ?andb_true_iff; try done.
  - intros Hd [Hd' _]. lia.
  - intros [Hd _] Hd'. lia.
  - intros [Hd H1] [Hd' H2]. f_equal; [lia|]. by apply (IH nm' Hn' e).
Qed.

Lemma defines_new nm v : defines nm (nm ++ 61 :: v) = true.
Proof.
  unfold defines. apply bool_decide_eq_true. change (61 :: v) with ([61] ++ v).
  rewrite app_assoc. apply take_app_length'. rewrite length_app. cbn. lia.
Qed.

Lemma lookup_app nm l l' :
  lookup_env nm (l ++ l') = match lookup_env nm l with Some v => Some v | None => lookup_env nm l' end.
Proof. induction l as [|e l IH]; cbn; [done|]. by destruct (defines nm e). Qed.

(** No name is defined twice. *)
Fixpoint uniq (l : list (list Z)) : Prop :=
  match l with
  | [] => True
  | e :: l => (forall nm, is_name nm -> defines nm e = true -> lookup_env nm l = None) /\ uniq l
  end.

Lemma lookup_remove_other nm nm' l : is_name nm -> is_name nm' -> nm' <> nm ->
  lookup_env nm' (remove_env nm l) = lookup_env nm' l.
Proof.
  intros Hn Hn' Hne. induction l as [|e l IH]; cbn; [done|].
  destruct (defines nm e) eqn:Hd; cbn; [|by rewrite IH].
  destruct (defines nm' e) eqn:Hd'; [|done]. elim Hne. by apply (defines_inj _ _ e).
Qed.

Lemma lookup_remove nm l : is_name nm -> uniq l -> lookup_env nm (remove_env nm l) = None.
Proof.
  intros Hn. induction l as [|e l IH]; cbn; [done|]. intros [H Hu].
  destruct (defines nm e) eqn:Hd; [by apply H|]. cbn. rewrite Hd. by apply IH.
Qed.

Lemma uniq_remove nm l : is_name nm -> uniq l -> uniq (remove_env nm l).
Proof.
  intros Hn. induction l as [|e l IH]; cbn; [done|]. intros [H Hu].
  destruct (defines nm e) eqn:Hd; [done|]. cbn. split; [|by apply IH].
  intros nm' Hn' Hd'. rewrite lookup_remove_other; [by apply H|done|done|]. intros ->. congruence.
Qed.

Lemma uniq_snoc l nm v : is_name nm -> lookup_env nm l = None -> uniq l -> uniq (l ++ [nm ++ 61 :: v]).
Proof.
  intros Hn. induction l as [|e l IH]; cbn.
  - intros _ _. split; [|done]. done.
  - intros Hl [H Hu]. destruct (defines nm e) eqn:Hd; [done|]. split; [|by apply IH].
    intros nm' Hn' Hd'. rewrite lookup_app, H by done. cbn.
    destruct (defines nm' (nm ++ 61 :: v)) eqn:Hd2; [|done].
    rewrite (defines_inj nm' nm _ Hn' Hn Hd2 (defines_new nm v)) in Hd'. congruence.
Qed.

(** The definitions after [nm] was given the values [vs]. *)
Lemma uniq_set nm l vs : is_name nm -> uniq l -> vs <> [] ->
  uniq (remove_env nm l ++ [nm ++ joined 61 vs]).
Proof.
  intros Hn Hu Hv. destruct vs as [|v vs]; [done|].
  apply uniq_snoc; auto using uniq_remove, lookup_remove.
Qed.

Lemma lookup_set nm nm' l v vs : is_name nm -> is_name nm' -> uniq l ->
  lookup_env nm' (remove_env nm l ++ [nm ++ joined 61 (v :: vs)]) =
  if bool_decide (nm' = nm) then Some (v ++ joined 32 vs) else lookup_env nm' l.
Proof.
  intros Hn Hn' Hu. rewrite lookup_app. cbn [joined lookup_env]. case_bool_decide as Heq.
  - subst nm'. rewrite lookup_remove, defines_new by done. f_equal. change (61 :: v ++ joined 32 vs) with ([61] ++ v ++ joined 32 vs).
    rewrite app_assoc. apply drop_app_length'. rewrite length_app. cbn. lia.
  - rewrite lookup_remove_other by done. destruct (lookup_env nm' l); [done|].
    destruct (defines nm' _) eqn:Hd; [|done]. elim Heq. apply (defines_inj _ _ _ Hn' Hn Hd), defines_new.
Qed.

Lemma locate_bound nm l i j v : locate nm l i = Some j -> lookup_env nm l = Some v ->
  j + Z.of_nat (length v) < i + Z.of_nat (length (flat l)).
Proof.
  revert i. induction l as [|e l IH]; intros i; cbn [locate lookup_env]; [done|].
  rewrite flat_cons, length_app. cbn [length]. destruct (defines nm e) eqn:Hd.
  - intros [= <-] [= <-]. rewrite length_drop. apply bool_decide_eq_true in Hd.
    apply (f_equal length) in Hd. rewrite length_take, length_app in Hd. change (length [61]) with 1%nat in Hd. lia.
  - intros Hj Hv. pose proof (IH _ Hj Hv). lia.
Qed.

Section Getenv.
Context {X : Type} (console_assign : X -> mem -> Z -> Z -> X * Z) (switch_line : X -> Z -> option X).
Context (default_environment : Z).
Abbreviation env_state := (env_state X).
Abbreviation data_of := (data_of default_environment).
Abbreviation env_holds := (env_holds default_environment).
Abbreviation block_only := (block_only default_environment).
Abbreviation getenv := (getenv default_environment).
Abbreviation setenv := (setenv console_assign switch_line default_environment).
Abbreviation _do_setenv := (_do_setenv console_assign switch_line default_environment).
Implicit Type s : env_state.

(** What [getenv] returns for a variable that has the value [v]. *)
Definition points_to (m : mem) (a : Z) (v : option (list Z)) : Prop :=
  match v with Some v => cstr_at m a v /\ a <> NULL | None => a = NULL end.

(** Where it is. *)
Lemma getenv_at fuel s l p nm :
  env_holds s l -> cstr_at (ram s) p nm -> (length (image l) + length nm < fuel)%nat ->
  exists a, getenv fuel s p = Some a /\ points_to (ram s) a (lookup_env (key nm) l) /\
    (forall v, lookup_env (key nm) l = Some v ->
       data_of s <= a /\ a + Z.of_nat (length v) < data_of s + Z.of_nat (length (flat l))).
Proof.
  intros [E1 E2 [E3 Hl] E4] Hp Hf. pose proof (env_at_flat _ _ _ (conj E3 Hl)) as Ht.
  rewrite length_image in Hf, E4 by done. rewrite <- (Z.add_0_r (data_of s)) in Ht.
  unfold Env.getenv. rewrite (find_value_spec default_environment fuel s p nm l 0 Hp Ht Hl)
    by (unfold ENV_SIZE, CONFIG_ENV_SIZE in *; lia).
  pose proof (locate_lookup _ _ (key nm) l 0 Ht Hl) as Hloc. cbn [mbind option_bind].
  pose proof (locate_bound (key nm) l 0) as Hb.
  destruct (locate (key nm) l 0) as [j|], (lookup_env (key nm) l) as [v|]; try done;
    eexists; (split; [done|]); (split; [|intros v' Hv]); try done; rewrite env_get_addr_data; cbn; unfold NULL.
  - destruct Hloc. split; [done|lia].
  - injection Hv as <-. specialize (Hb _ _ eq_refl eq_refl). lia.
Qed.

Lemma getenv_key fuel s l p nm :
  env_holds s l -> cstr_at (ram s) p nm -> (length (image l) + length nm < fuel)%nat ->
  exists a, getenv fuel s p = Some a /\ points_to (ram s) a (lookup_env (key nm) l).
Proof. intros E Hp Hf. destruct (getenv_at fuel s l p nm E Hp Hf) as (a & H1 & H2 & _). by exists a. Qed.

Lemma getenv_spec fuel s l p nm :
  env_holds s l -> is_name nm -> cstr_at (ram s) p nm -> (length (image l) + length nm < fuel)%nat ->
  exists a, getenv fuel s p = Some a /\ points_to (ram s) a (lookup_env nm l).
Proof. intros E Hn Hp Hf. destruct (getenv_key fuel s l p nm E Hp Hf) as (a & Ha). rewrite key_name in Ha by done. by exists a. Qed.

(** The definitions after [setenv(nm, v)], if they fit. *)
Definition set_env (nm v : list Z) (l : list (list Z)) : list (list Z) := remove_env nm l ++ [nm ++ 61 :: v].
Definition fits (l : list (list Z)) : bool := Z.of_nat (length (image l)) <=? ENV_SIZE.

Lemma setenv_cases fuel s l p nm p1 v q nm' :
  env_holds s l -> is_name nm -> is_name nm' -> ~ reserved nm ->
  args_at (ram s) (data_of s) [p; p1; q] [nm; v; nm'] ->
  Z.of_nat (length nm + length v) + 3 < 2 ^ 31 ->
  ENV_SIZE + Z.of_nat (length nm + length v + length nm') + 1 < Z.of_nat fuel ->
  exists s' a, setenv fuel s p p1 = Some (s', if fits (set_env nm v l) then 0 else 1) /\
    getenv fuel s' q = Some a /\
    points_to (ram s') a (lookup_env nm' (if fits (set_env nm v l) then set_env nm v l else remove_env nm l)).
Proof.
  intros E Hn Hn' Hr Ha Hw Hf. pose proof (eh_room _ _ _ E) as Hroom.
  pose proof Ha as [Hp [Hp1 Hq]%Forall2_cons]%Forall2_cons.
  assert (args_at (ram s) (data_of s) [p1] [v]) as Ha1 by (constructor; [done|constructor]).
  assert (args_at (ram s) (data_of s) [p; p1] [nm; v]) as Ha2 by (constructor; done).
  assert (joined 61 [v] = 61 :: v) as Hj by (cbn; by rewrite app_nil_r).
  destruct (setenv_spec console_assign switch_line default_environment fuel s l p nm [p1] [v] E Hn Hr Ha2)
    as (s' & r & Es & B & H); [rewrite Hj; cbn [length]; lia|rewrite Hj; cbn [length]; lia|].
  rewrite Hj, bool_decide_false in H by done.
  assert (cstr_at (ram s') q nm') as Hq'.
  { apply (args_at_same (ram s) (ram s')) in Ha; [|apply B].
    by apply Forall2_cons in Ha as [_ [_ [[? _] _]%Forall2_cons]%Forall2_cons]. }
  assert (setenv fuel s p p1 = Some (s', r)) as Hset.
  { unfold Env.setenv. destruct (Z.eqb_spec p1 NULL) as [H0|_]; [|exact Es].
    pose proof (args_null _ _ _ _ Ha1 H0). done. }
  unfold fits, set_env. destruct (_ <=? ENV_SIZE).
  - destruct H as (E' & _ & ->). pose proof (eh_room _ _ _ E').
    destruct (getenv_spec fuel s' _ q nm' E' Hn' Hq') as (a & Eg & Hpt); [lia|]. by exists s', a.
  - destruct H as (E' & ->). pose proof (eh_room _ _ _ E').
    destruct (getenv_spec fuel s' _ q nm' E' Hn' Hq') as (a & Eg & Hpt); [lia|]. by exists s', a.
Qed.

(** C13: what is set is what is read: after [setenv], [getenv] returns the
    new value for its name and for every other name what it had before. *)
Theorem setenv_getenv fuel s l p nm p1 v q nm' :
  env_holds s l -> uniq l -> is_name nm -> is_name nm' -> ~ reserved nm ->
  args_at (ram s) (data_of s) [p; p1; q] [nm; v; nm'] -> fits (set_env nm v l) = true ->
  ENV_SIZE + Z.of_nat (length nm + length v + length nm') + 1 < Z.of_nat fuel ->
  exists s' a, setenv fuel s p p1 = Some (s', 0) /\ getenv fuel s' q = Some a /\
    points_to (ram s') a (if bool_decide (nm' = nm) then Some v else lookup_env nm' l).
Proof.
  intros E Hu Hn Hn' Hr Ha Hfit Hf.
  destruct (setenv_cases fuel s l p nm p1 v q nm' E Hn Hn' Hr Ha) as (s' & a & Es & Eg & Hpt); [|done|].
  - unfold fits, set_env in Hfit. rewrite image_snoc, !length_app in Hfit. cbn [length] in Hfit.
    unfold ENV_SIZE, CONFIG_ENV_SIZE in *. lia.
  - rewrite Hfit in *. exists s', a. split; [exact Es|]. split; [exact Eg|].
    pose proof (lookup_set nm nm' l v [] Hn Hn' Hu) as Hl. cbn [joined] in Hl. rewrite app_nil_r in Hl.
    by rewrite <- Hl.
Qed.

(** [setenv] of a value for which there is no room says so and leaves
    the name undefined, whatever it was before; no other name changes. *)
Theorem setenv_no_room fuel s l p nm p1 v q nm' :
  env_holds s l -> uniq l -> is_name nm -> is_name nm' -> ~ reserved nm ->
  args_at (ram s) (data_of s) [p; p1; q] [nm; v; nm'] -> fits (set_env nm v l) = false ->
  Z.of_nat (length nm + length v) + 3 < 2 ^ 31 ->
  ENV_SIZE + Z.of_nat (length nm + length v + length nm') + 1 < Z.of_nat fuel ->
  exists s' a, setenv fuel s p p1 = Some (s', 1) /\ getenv fuel s' q = Some a /\
    points_to (ram s') a (if bool_decide (nm' = nm) then None else lookup_env nm' l).
Proof.
  intros E Hu Hn Hn' Hr Ha Hfit Hw Hf.
  destruct (setenv_cases fuel s l p nm p1 v q nm' E Hn Hn' Hr Ha Hw Hf) as (s' & a & Es & Eg & Hpt).
  rewrite Hfit in *. exists s', a. split; [exact Es|]. split; [exact Eg|].
  case_bool_decide as Heq; [subst nm'; by rewrite lookup_remove in Hpt|].
  by rewrite lookup_remove_other in Hpt.
Qed.

(** What the rest of the program may do: set variables, and write anywhere
    but to the block. *)
Inductive env_step (fuel : nat) : env_state -> env_state -> Prop :=
| step_set s s' p nm ps vs r :
    args_at (ram s) (data_of s) (p :: ps) (nm :: vs) ->
    Z.of_nat (length nm + length (joined 61 vs)) + ENV_SIZE < Z.of_nat fuel ->
    Z.of_nat (length nm + length (joined 61 vs)) + 2 < 2 ^ 31 ->
    _do_setenv fuel s p ps = Some (s', r) -> env_step fuel s s'
| step_other s m x :
    (forall q, env_ptr s <= q < data_of s + ENV_SIZE -> m q = ram s q) ->
    env_step fuel s (with_console (with_ram s m) x).

Definition sound s : Prop := exists l, env_holds s l /\ uniq l.

Lemma same_block s s' :
  sound s -> data_of s' = data_of s -> env_ptr s' = env_ptr s ->
  (forall q, data_of s <= q < data_of s + ENV_SIZE -> ram s' q = ram s q) -> sound s'.
Proof.
  intros (l & [E1 E2 [E3 Hl] E4] & Hu) Hd Hp Hr. exists l. split; [|done]. split; [congruence|congruence| |done].
  split; [|done]. rewrite Hd. apply (text_at_same (ram s)); [|done]. intros q Hq. apply Hr. lia.
Qed.

Lemma redirect_ram fuel s p argc a s' ok :
  redirect console_assign switch_line fuel s p argc a = Some (s', ok) ->
  ram s' = ram s /\ data_of s' = data_of s /\ env_ptr s' = env_ptr s.
Proof.
  unfold redirect. set (file := if is_string _ _ n_stdin then _ else _). destruct (negb _).
  - destruct (argc <? 3)%nat; [by intros [= <- <-]|]. destruct (console_assign _ _ _ _). by intros [= <- <-].
  - destruct (is_string _ _ n_baudrate); [|by intros [= <- <-]].
    destruct (chars_at _ _ _) as [t|]; [|done]. cbn [mbind option_bind].
    destruct (existsb _ _); [|by intros [= <- <-]].
    destruct (switch_line _ _) as [x|]; [|done]. by intros [= <- <-].
Qed.

Lemma follow_ram fuel s p a s' : follow fuel s p a = Some s' ->
  ram s' = ram s /\ data_of s' = data_of s /\ env_ptr s' = env_ptr s.
Proof.
  unfold follow. destruct (is_string _ _ n_ethaddr); [by intros [= <-]|]. destruct (is_string _ _ n_ipaddr).
  { destruct (parse_ip _ _ _ _ _) as [addr|]; [|done]. by intros [= <-]. }
  destruct (is_string _ _ n_loadaddr); [|by intros [= <-]].
  destruct (chars_at _ _ _) as [t|]; [|done]. by intros [= <-].
Qed.

Lemma strchr_some fuel m p nm : cstr_at m p nm -> In 61 nm -> (length nm < fuel)%nat ->
  exists k, strchr fuel m p 61 = Some (p + k) /\ 0 <= k < Z.of_nat (length nm).
Proof.
  revert fuel p. induction nm as [|c nm IH]; intros [|fuel] p Hp Hi Hf; cbn [length] in Hf; try done; try lia.
  apply cstr_at_cons in Hp as (Hc & Hz & Hp). cbn [strchr length]. rewrite Hc. change (u8 61) with 61.
  destruct (Z.eqb_spec c 61) as [->|Hne]; [exists 0; split; [f_equal; lia|lia]|].
  destruct (Z.eqb_spec c 0); [done|]. destruct Hi as [|Hi]; [done|].
  destruct (IH fuel (p + 1) Hp Hi ltac:(lia)) as (k & -> & Hk). exists (k + 1). split; [f_equal; lia|lia].
Qed.

Lemma sound_ram s s' : sound s -> ram s' = ram s -> data_of s' = data_of s -> env_ptr s' = env_ptr s -> sound s'.
Proof. intros S Hr Hd Hp. apply (same_block s); [done|done|done|]. intros q _. by rewrite Hr. Qed.

(** The part of [_do_setenv] from the new definition on. *)
Lemma append_sound fuel s l p nm ps vs s' r :
  env_holds s (remove_env nm l) -> uniq l -> is_name nm -> args_at (ram s) (data_of s) (p :: ps) (nm :: vs) ->
  ENV_SIZE + Z.of_nat (length nm + length (joined 61 vs)) < Z.of_nat fuel ->
  Z.of_nat (length nm + length (joined 61 vs)) + 2 < 2 ^ 31 ->
  (if hd NULL ps =? NULL then Some (env_crc_update s, 0) else
   '(s, ok) ← append fuel s (data_of s) p ps;
   if negb ok then Some (s, 1) else s ← follow fuel s p (hd NULL ps); Some (s, 0)) = Some (s', r) ->
  sound s'.
Proof.
  intros E Hu Hn Ha Hf Hw. pose proof (eh_room _ _ _ E) as Hroom.
  destruct (Z.eqb_spec (hd NULL ps) NULL) as [H0|H0].
  - intros [= <- _]. destruct (env_crc_update_ok default_environment s (eh_ptr _ _ _ E)) as (_ & _ & C3).
    apply (same_block s); [|done|done|intros q Hq; apply C3; lia]. exists (remove_env nm l). auto using uniq_remove.
  - assert (vs <> []) as Hvs.
    { intros ->. apply Forall2_cons in Ha as [_ Ha]. by apply Forall2_nil_inv_r in Ha as ->. }
    pose proof (append_spec default_environment fuel s _ p nm ps vs E Hn Ha Hvs ltac:(lia) Hw) as Happ.
    destruct (_ <=? ENV_SIZE).
    + destruct Happ as (s2 & -> & E2 & _ & _). cbn [mbind option_bind negb].
      destruct (follow _ _ _ _) as [s3|] eqn:Ef; [|done]. intros [= <- _].
      apply follow_ram in Ef as (R1 & R2 & R3). apply (sound_ram s2); [|done|done|done].
      eexists. split; [exact E2|]. by apply uniq_set.
    + rewrite Happ. intros [= <- _]. exists (remove_env nm l). auto using uniq_remove.
Qed.

Lemma do_setenv_sound fuel s p nm ps vs s' r :
  sound s -> args_at (ram s) (data_of s) (p :: ps) (nm :: vs) ->
  ENV_SIZE + Z.of_nat (length nm + length (joined 61 vs)) < Z.of_nat fuel ->
  Z.of_nat (length nm + length (joined 61 vs)) + 2 < 2 ^ 31 ->
  _do_setenv fuel s p ps = Some (s', r) -> sound s'.
Proof.
  intros S Ha Hf Hw. pose proof S as (l & E & Hu). pose proof Ha as [[Hp Hs] _]%Forall2_cons.
  pose proof (eh_room _ _ _ E) as Hroom. pose proof E as [_ _ [_ Hl] _].
  unfold Env._do_setenv. change (env_get_addr default_environment s 0) with (data_of s).
  destruct (_ =? NULL); [by intros [= <- _]|].
  destruct (in_dec Z.eq_dec 61 nm) as [Hi|Hi].
  { destruct (strchr_some fuel _ _ _ Hp Hi ltac:(lia)) as (k & -> & Hk). cbn [mbind option_bind].
    destruct (Z.eqb_spec (p + k) NULL) as [H0|_]; [unfold NULL, ENV_SIZE, CONFIG_ENV_SIZE in *; lia|].
    by intros [= <- _]. }
  assert (is_name nm) as Hn by (split; [apply Hp|done]).
  rewrite (strchr_none _ _ _ nm) by (done || lia). cbn [mbind option_bind]. rewrite Z.eqb_refl. cbn [negb].
  set (s0 := with_id s _). assert (env_holds s0 l) as E0 by (by destruct E; split).
  destruct (delete_cases default_environment fuel s0 l p nm E0 Hn Hp ltac:(lia)) as (oldval & env & nxt & H1 & H2).
  change (data_of s) with (data_of s0). rewrite H1. cbn [mbind option_bind].
  destruct (0 <=? oldval).
  - destruct (redirect _ _ _ _ _ _ _) as [[s1 ok]|] eqn:Er; [|done]. cbn [mbind option_bind].
    apply redirect_ram in Er as (R1 & R2 & R3). destruct ok.
    + destruct H2 as (m' & Hd & He & Hsm). rewrite R1, Hd. cbn [mbind option_bind negb].
      rewrite <- R2. change (data_of s1) with (data_of (with_ram s1 m')).
      apply (append_sound _ _ l _ nm _ vs); [|done|done| |done|done].
      * apply (env_holds_ram _ s0 s1 l); auto using remove_room.
      * change (data_of (with_ram s1 m')) with (data_of s1). rewrite R2.
        apply (args_at_same (ram s)); [|exact Ha]. intros q Hq. apply Hsm. change (data_of s0) with (data_of s) in *. lia.
    + intros [= <- _]. apply (sound_ram s0); [by exists l|done|done|done].
  - cbn [mbind option_bind negb]. apply (append_sound _ _ l _ nm _ vs); rewrite ?H2; done.
Qed.

Lemma append_returns fuel s l p nm ps vs :
  env_holds s (remove_env nm l) -> is_name nm -> args_at (ram s) (data_of s) (p :: ps) (nm :: vs) ->
  ENV_SIZE + Z.of_nat (length nm + length (joined 61 vs)) < Z.of_nat fuel ->
  Z.of_nat (length nm + length (joined 61 vs)) + 2 < 2 ^ 31 ->
  is_Some (if hd NULL ps =? NULL then Some (env_crc_update s, 0) else
   '(s, ok) ← append fuel s (data_of s) p ps;
   if negb ok then Some (s, 1) else s ← follow fuel s p (hd NULL ps); Some (s, 0)).
Proof.
  intros E Hn Ha Hf Hw. pose proof (eh_room _ _ _ E) as Hroom.
  destruct (Z.eqb_spec (hd NULL ps) NULL) as [H0|H0]; [by eexists|].
  assert (vs <> []) as Hvs.
  { intros ->. apply Forall2_cons in Ha as [_ Ha]. by apply Forall2_nil_inv_r in Ha as ->. }
  pose proof (append_spec default_environment fuel s _ p nm ps vs E Hn Ha Hvs ltac:(lia) Hw) as Happ.
  destruct (_ <=? ENV_SIZE); [|rewrite Happ; by eexists].
  destruct Happ as (s2 & -> & _ & _ & B2). cbn [mbind option_bind negb].
  apply (args_at_same _ (ram s2)) in Ha; [|apply B2]. apply Forall2_cons in Ha as [[Hp _] Ha].
  destruct Ha as [|p1 v ps vs [Hv _] _]; [done|]. cbn [hd joined length] in *. rewrite length_app in Hf.
  destruct (follow_total default_environment fuel s2 p nm p1 v Hp Hv ltac:(lia)) as (s3 & -> & _). by eexists.
Qed.

Lemma redirect_returns fuel s p nm argc a :
  cstr_at (ram s) p nm -> nm <> n_baudrate -> is_Some (redirect console_assign switch_line fuel s p argc a).
Proof.
  intros Hp Hr. unfold redirect. rewrite (is_string_spec _ p nm n_baudrate Hp) by by apply (bool_decide_eq_true_1 _).
  rewrite bool_decide_false by done. destruct (negb _); [|by eexists].
  destruct (argc <? 3)%nat; [by eexists|]. destruct (console_assign _ _ _ _). by eexists.
Qed.

Lemma do_setenv_returns fuel s p nm ps vs :
  sound s -> args_at (ram s) (data_of s) (p :: ps) (nm :: vs) -> nm <> n_baudrate ->
  ENV_SIZE + Z.of_nat (length nm + length (joined 61 vs)) < Z.of_nat fuel ->
  Z.of_nat (length nm + length (joined 61 vs)) + 2 < 2 ^ 31 ->
  is_Some (_do_setenv fuel s p ps).
Proof.
  intros (l & E & Hu) Ha Hb Hf Hw. pose proof Ha as [[Hp Hs] _]%Forall2_cons.
  pose proof (eh_room _ _ _ E) as Hroom. pose proof E as [_ _ [_ Hl] _].
  unfold Env._do_setenv. change (env_get_addr default_environment s 0) with (data_of s).
  destruct (_ =? NULL); [by eexists|].
  destruct (in_dec Z.eq_dec 61 nm) as [Hi|Hi].
  { destruct (strchr_some fuel _ _ _ Hp Hi ltac:(lia)) as (k & -> & Hk). cbn [mbind option_bind].
    destruct (Z.eqb_spec (p + k) NULL) as [H0|_]; [unfold NULL, ENV_SIZE, CONFIG_ENV_SIZE in *; lia|]. by eexists. }
  assert (is_name nm) as Hn by (split; [apply Hp|done]).
  rewrite (strchr_none _ _ _ nm) by (done || lia). cbn [mbind option_bind]. rewrite Z.eqb_refl. cbn [negb].
  set (s0 := with_id s _). assert (env_holds s0 l) as E0 by (by destruct E; split).
  destruct (delete_cases default_environment fuel s0 l p nm E0 Hn Hp ltac:(lia)) as (oldval & env & nxt & H1 & H2).
  change (data_of s) with (data_of s0). rewrite H1. cbn [mbind option_bind].
  destruct (0 <=? oldval).
  - destruct (redirect_returns fuel s0 p nm (2 + length ps) (hd NULL ps) Hp Hb) as [[s1 ok] Er].
    rewrite Er. cbn [mbind option_bind].
    apply redirect_ram in Er as (R1 & R2 & R3). destruct ok; [|by eexists].
    destruct H2 as (m' & Hd & He & Hsm). rewrite R1, Hd. cbn [mbind option_bind negb].
    rewrite <- R2. change (data_of s1) with (data_of (with_ram s1 m')).
    apply (append_returns _ _ l _ nm _ vs); [|done| |done|done].
    + apply (env_holds_ram _ s0 s1 l); auto using remove_room.
    + change (data_of (with_ram s1 m')) with (data_of s1). rewrite R2.
      apply (args_at_same (ram s)); [|exact Ha]. intros q Hq. apply Hsm. change (data_of s0) with (data_of s) in *. lia.
  - cbn [mbind option_bind negb]. apply (append_returns _ _ l _ nm _ vs); rewrite ?H2; done.
Qed.

(** [_do_setenv] stores bytes. *)
Lemma close_gap_bytes fuel m env nxt r : mem_ok m -> close_gap fuel m env nxt = Some r -> mem_ok r.1.
Proof.
  revert m env nxt. induction fuel as [|fuel IH]; intros m env nxt Hm; cbn [close_gap]; [done|].
  assert (mem_ok (upd m env (m nxt))) as H by (apply mem_ok_upd; [done|apply Hm]).
  destruct (_ && _); [by intros [= <-]|by apply IH].
Qed.

Lemma delete_old_bytes fuel m data env nxt m' : mem_ok m -> delete_old fuel m data env nxt = Some m' -> mem_ok m'.
Proof.
  intros Hm. unfold delete_old. set (e := if _ =? 0 then _ else _).
  destruct e as [[m1 e1]|] eqn:E; [|done]. cbn [mbind option_bind]. intros [= <-]. apply mem_ok_upd; [|done].
  unfold e in E. destruct (_ =? 0).
  - destruct (data <? env); injection E as <- _; [done|by apply mem_ok_upd].
  - by apply (close_gap_bytes _ _ _ _ _ Hm) in E.
Qed.

Lemma put_string_bytes fuel m env from r : mem_ok m -> put_string fuel m env from = Some r -> mem_ok r.1.
Proof.
  revert m env from. induction fuel as [|fuel IH]; intros m env from Hm; cbn [put_string]; [done|].
  assert (mem_ok (upd m env (m from))) as H by (apply mem_ok_upd; [done|apply Hm]).
  destruct (_ =? 0); [by intros [= <-]|by apply IH].
Qed.

Lemma put_values_bytes fuel m env sep args r :
  mem_ok m -> is_byte sep -> put_values fuel m env sep args = Some r -> mem_ok r.1.
Proof.
  revert m env sep. induction args as [|a args IH]; intros m env sep Hm Hs; cbn [put_values]; [by intros [= <-]|].
  destruct (put_string _ _ _ _) as [[m1 e1]|] eqn:E; [|done]. cbn [mbind option_bind].
  apply put_string_bytes in E; [|by apply mem_ok_upd]. by apply IH.
Qed.

Lemma env_crc_update_bytes s : mem_ok (ram s) -> mem_ok (ram (env_crc_update s)).
Proof. intros H. apply mem_ok_store; [done|apply bytes_ok_le_put]. Qed.

Lemma append_bytes fuel s data p args s' ok :
  mem_ok (ram s) -> append fuel s data p args = Some (s', ok) -> mem_ok (ram s').
Proof.
  intros Hm. unfold append. destruct (find_tail _ _ _) as [t|]; [|done]. cbn [mbind option_bind].
  destruct (strlen _ _ _) as [n|]; [|done]. cbn [mbind option_bind].
  destruct (values_len _ _ _ _) as [len|]; [|done]. cbn [mbind option_bind].
  destruct (_ <? len); [by intros [= <- _]|].
  destruct (put_string _ _ _ _) as [[m1 e1]|] eqn:E1; [|done]. cbn [mbind option_bind].
  destruct (put_values _ _ _ _ _) as [[m2 e2]|] eqn:E2; [|done]. cbn [mbind option_bind]. intros [= <- _].
  apply put_string_bytes in E1; [|done]. apply put_values_bytes in E2; [|done|done].
  by apply env_crc_update_bytes, mem_ok_upd.
Qed.

Lemma do_setenv_bytes fuel s p ps s' r :
  mem_ok (ram s) -> _do_setenv fuel s p ps = Some (s', r) -> mem_ok (ram s').
Proof.
  intros Hm. unfold Env._do_setenv. destruct (_ =? NULL); [by intros [= <- _]|].
  destruct (strchr _ _ _ _) as [e|]; [|done]. cbn [mbind option_bind]. destruct (negb _); [by intros [= <- _]|].
  destruct (find_old _ _ _ _ _ _) as [[[oldval env] nxt]|]; [|done]. cbn [mbind option_bind].
  set (s0 := with_id s _). assert (mem_ok (ram s0)) as Hm0 by done. clearbody s0.
  set (del := if 0 <=? oldval then _ else _). assert (forall s1 ok, del = Some (s1, ok) -> mem_ok (ram s1)) as Hdel.
  { intros s1 ok. unfold del. destruct (0 <=? oldval); [|by intros [= <- _]].
    destruct (redirect _ _ _ _ _ _ _) as [[s2 [|]]|] eqn:Er; [| |done]; cbn [mbind option_bind];
      apply redirect_ram in Er as (R & _ & _).
    - rewrite R. destruct (delete_old _ _ _ _ _) as [m|] eqn:Ed; [|done]. intros [= <- _].
      by apply delete_old_bytes in Ed.
    - intros [= <- _]. by rewrite R. }
  destruct del as [[s1 ok]|]; [|done]. specialize (Hdel _ _ eq_refl). cbn [mbind option_bind].
  destruct (negb ok); [by intros [= <- _]|].
  destruct (_ =? NULL); [intros [= <- _]; by apply env_crc_update_bytes|].
  destruct (append _ _ _ _ _) as [[s2 ok2]|] eqn:Ea; [|done]. apply append_bytes in Ea; [|done]. cbn [mbind option_bind].
  destruct (negb ok2); [by intros [= <- _]|].
  destruct (follow _ _ _ _) as [s3|] eqn:Ef; [|done]. intros [= <- _]. apply follow_ram in Ef as (R & _ & _). by rewrite R.
Qed.

Lemma env_steps_sound fuel s s' : sound s -> rtc (env_step fuel) s s' -> sound s'.
Proof.
  intros S Hr. induction Hr as [|s s1 s' Hs _ IH]; [done|]. apply IH. destruct Hs as [s s1 p nm ps vs r Ha Hf Hw Hd|s m x Hm].
  - apply (do_setenv_sound fuel s p nm ps vs s1 r S Ha); [lia|done|done].
  - apply (same_block s); [done|done|done|]. intros q Hq. apply Hm.
    destruct S as (l & [E1 _ _ _] & _). unfold env_data in E1. lia.
Qed.

(** What is configured. *)
Definition default_list : list (list Z) :=
  [[98; 111; 111; 116; 100; 101; 108; 97; 121; 61; 48];
   [98; 97; 117; 100; 114; 97; 116; 101; 61; 49; 49; 53; 50; 48; 48]].

Lemma name_dec nm : bool_decide (Forall (fun c => c <> 0) nm) && negb (existsb (Z.eqb 61) nm) = true -> is_name nm.
Proof.
  rewrite andb_true_iff, bool_decide_eq_true, negb_true_iff. intros [H1 H2]. split; [done|].
  intros Hi. apply Bool.not_true_iff_false in H2. apply H2, existsb_exists. by exists 61.
Qed.

Lemma default_uniq : uniq default_list.
Proof.
  split; [|split; [done|done]]. intros nm Hn Hd.
  assert (is_name [98; 111; 111; 116; 100; 101; 108; 97; 121]) as Hb by (by apply name_dec).
  rewrite (defines_inj _ _ _ Hn Hb Hd eq_refl). reflexivity.
Qed.

Lemma default_copied m block :
  text_at m default_environment default_definitions ->
  default_environment + sizeof_default <= block \/ block + CONFIG_ENV_SIZE <= default_environment ->
  text_at (memcpy (memset m block 0 CONFIG_ENV_SIZE) (env_data block) default_environment sizeof_default)
    (env_data block) default_definitions.
Proof.
  intros Ht Ha. set (m1 := memset _ _ _ _).
  destruct (memcpy_moved m1 (env_data block) default_environment sizeof_default) as [Hm _].
  - split; [done|reflexivity].
  - unfold env_data, sizeof_default, CONFIG_ENV_SIZE in *. lia.
  - rewrite (Nat2Z.id (length default_definitions) : Z.to_nat sizeof_default = _) in Hm. unfold text_at.
    rewrite Hm, (bytes_at_ext m); [exact Ht|]. intros q Hq. unfold m1, memset. rewrite memset_spec.
    rewrite u32_small, Z2Nat.id by (unfold CONFIG_ENV_SIZE; lia).
    destruct (_ && _) eqn:Eq; [|reflexivity]. unfold sizeof_default in Ha. lia.
Qed.

(** What [env_relocate] leaves when there is no environment. *)
Lemma relocate_fields block s :
  env_valid s = false ->
  let m := memcpy (memset (ram s) block 0 CONFIG_ENV_SIZE) (env_data block) default_environment sizeof_default in
  let s' := env_relocate default_environment block s in
  env_valid s' = true /\ env_addr s' = env_data block /\ env_ptr s' = block /\
  exists c, ram s' = store32 m block c.
Proof.
  destruct s as [r0 rel v a p i b ip ld x]. cbn [env_valid]. intros ->. cbv zeta.
  unfold env_relocate, set_default_env. change (ENV_SIZE <? sizeof_default) with false.
  unfold env_crc_update. cbn [ram env_valid env_addr env_ptr with_ram].
  set (m := memcpy _ _ _ _). split; [reflexivity|]. split; [reflexivity|]. split; [reflexivity|].
  by eexists.
Qed.

Lemma relocate_holds block s :
  0 < block -> env_valid s = false -> text_at (ram s) default_environment default_definitions ->
  default_environment + sizeof_default <= block \/ block + CONFIG_ENV_SIZE <= default_environment ->
  env_holds (env_relocate default_environment block s) default_list.
Proof.
  intros Hb Hv Ht Ha. pose proof (default_copied _ block Ht Ha) as Ht2.
  destruct (relocate_fields block s Hv) as (V & A & P & c & M).
  revert V A P M. generalize (env_relocate default_environment block s). intros s' V A P M.
  change default_definitions with (image default_list ++ [0]) in Ht2. apply text_at_app in Ht2 as [Ht2 _].
  assert (data_of s' = env_data block) as D.
  { unfold Env.data_of, env_get_addr. rewrite V, A. lia. }
  split; rewrite ?D, ?P.
  - reflexivity.
  - unfold env_data. lia.
  - split.
    + rewrite M. eapply text_at_same; [|exact Ht2]. intros q Hq. apply store_outside.
      rewrite length_le_put. unfold env_data in Hq. lia.
    + constructor; [|constructor; [|constructor]]; (split; [apply (bool_decide_eq_true_1 _); reflexivity|cbn; tauto]).
  - by vm_compute.
Qed.

Lemma relocate_sound block s :
  0 < block -> env_valid s = false -> text_at (ram s) default_environment default_definitions ->
  default_environment + sizeof_default <= block \/ block + CONFIG_ENV_SIZE <= default_environment ->
  sound (env_relocate default_environment block s).
Proof. intros Hb Hv Ht Ha. exists default_list. split; [by apply relocate_holds|exact default_uniq]. Qed.

(** C14: whatever variables are set from the start on, with arguments that
    lie outside the block, and whatever the rest of the program writes outside
    it, the block stays a list of definitions "name=value", ended by two NULs,
    with no name twice; and from there [_do_setenv] comes back for every name
    and all values, but for [baudrate], which waits for the user. *)
Theorem env_always_sound fuel block s s' :
  0 < block -> env_valid s = false -> text_at (ram s) default_environment default_definitions ->
  default_environment + sizeof_default <= block \/ block + CONFIG_ENV_SIZE <= default_environment ->
  rtc (env_step fuel) (env_relocate default_environment block s) s' ->
  sound s' /\
  forall p nm ps vs,
    args_at (ram s') (data_of s') (p :: ps) (nm :: vs) -> nm <> n_baudrate ->
    ENV_SIZE + Z.of_nat (length nm + length (joined 61 vs)) < Z.of_nat fuel ->
    Z.of_nat (length nm + length (joined 61 vs)) + 2 < 2 ^ 31 ->
    exists s2 r, _do_setenv fuel s' p ps = Some (s2, r) /\ sound s2.
Proof.
  intros Hb Hv Ht Ha Hr.
  assert (sound s') as S by exact (env_steps_sound fuel _ _ (relocate_sound block s Hb Hv Ht Ha) Hr).
  split; [exact S|]. intros p nm ps vs Hargs Hn Hf Hw.
  destruct (do_setenv_returns fuel s' p nm ps vs S Hargs Hn Hf Hw) as [[s2 r] Hd].
  exists s2, r. split; [exact Hd|]. exact (do_setenv_sound fuel s' p nm ps vs s2 r S Hargs Hf Hw Hd).
Qed.

(** ** The copy of a value *)

Lemma copy_value_spec fuel s buf len i n v :
  cstr_at (ram s) (data_of s + i) v ->
  data_of s + i + Z.of_nat (length v) < buf \/ buf + len - n <= data_of s + i ->
  0 <= n <= len -> len < 2 ^ 31 -> (length v < fuel)%nat ->
  exists m', copy_value default_environment fuel s buf len i n =
      Some (with_ram s m', Z.min (n + Z.of_nat (length v)) len + 1, buf + Z.min (Z.of_nat (length v) + 1) (len - n)) /\
    m' = store (ram s) buf (take (Z.to_nat (len - n)) (v ++ [0])).
Proof.
  revert fuel s buf i n. induction v as [|c v IH]; intros [|fuel] s buf i n Hv Ha Hn Hl Hf;
    cbn [length] in Hf; try lia; cbn [copy_value]; destruct (Z.ltb_spec n len) as [Hlt|Hge].
  2, 4: exists (ram s); assert (len - n = 0) as -> by lia; split; [|done]; rewrite u32_small by lia;
    assert (with_ram s (ram s) = s) as -> by (by destruct s); do 3 f_equal; cbn [length]; lia.
  - apply cstr_at_nil in Hv. rewrite env_get_char_ram, Hv. cbn [Z.eqb]. rewrite u32_small by lia.
    exists (upd (ram s) buf 0). split; [do 2 f_equal; [f_equal; cbn [length]; lia|cbn [length]; lia]|].
    destruct (Z.to_nat (len - n)) eqn:E; [lia|]. cbn. by rewrite take_nil.
  - apply cstr_at_cons in Hv as (Hc & Hz & Hv). rewrite env_get_char_ram, Hc.
    destruct (Z.eqb_spec c 0); [done|]. rewrite u32_small by lia.
    destruct (IH fuel (with_ram s (upd (ram s) buf c)) (buf + 1) (i + 1) (n + 1)) as (m' & E & Em);
      [|change (data_of (with_ram s (upd (ram s) buf c))) with (data_of s); cbn [length] in Ha; lia|lia|lia|lia|].
    + change (data_of (with_ram s (upd (ram s) buf c))) with (data_of s). rewrite Z.add_assoc.
      apply (cstr_at_ext (ram s)); [|done]. intros q Hq. apply upd_ne. cbn [length] in *. lia.
    + exists m'. rewrite E. split; [do 2 f_equal; [f_equal; cbn [length]; lia|cbn [length]; lia]|].
      rewrite Em. replace (Z.to_nat (len - n)) with (S (Z.to_nat (len - (n + 1)))) by lia. done.
Qed.

(** [getenv_r] ends a value that is shorter than the buffer with a NUL;
    if the value with its NUL just fills the buffer it writes another NUL
    behind it, and a longer value is cut without one. *)
Theorem getenv_r_edges fuel s l p nm v buf len :
  env_holds s l -> is_name nm -> cstr_at (ram s) p nm -> lookup_env nm l = Some v -> 0 <= len < 2 ^ 31 ->
  data_of s + ENV_SIZE <= buf \/ buf + len <= data_of s -> ENV_SIZE + Z.of_nat (length nm) < Z.of_nat fuel ->
  exists s', getenv_r default_environment fuel s p buf len = Some (s', Z.min (Z.of_nat (length v)) len + 1) /\
    ram s' = store (ram s) buf
      (take (Z.to_nat len) (v ++ [0]) ++ if Z.of_nat (length v) + 1 =? len then [0] else []).
Proof.
  intros [E1 E2 [E3 Hl] E4] Hn Hp Hv Hlen Ha Hf. pose proof (env_at_flat _ _ _ (conj E3 Hl)) as Ht.
  rewrite length_image in E4 by done. rewrite <- (Z.add_0_r (data_of s)) in Ht.
  unfold getenv_r. rewrite (find_value_spec default_environment fuel s p nm l 0 Hp Ht Hl)
    by (unfold ENV_SIZE, CONFIG_ENV_SIZE in *; lia).
  pose proof (locate_lookup _ _ (key nm) l 0 Ht Hl) as Hloc. rewrite key_name, Hv in * by done.
  destruct (locate nm l 0) as [j|] eqn:El; [|done]. destruct Hloc as [Hvj Hj]. cbn [mbind option_bind].
  pose proof (locate_bound nm l 0 j v El Hv) as Hb.
  destruct (copy_value_spec fuel s buf len j 0 v) as (m' & -> & Em); [done|lia|lia|lia|lia|].
  cbn [mbind option_bind]. rewrite !Z.add_0_l, Z.sub_0_r in *.
  replace (len =? Z.min (Z.of_nat (length v)) len + 1) with (Z.of_nat (length v) + 1 =? len) by lia.
  unfold ENV_SIZE, CONFIG_ENV_SIZE in E4.
  eexists. split; [rewrite s32_small by lia; reflexivity|].
  destruct (Z.eqb_spec (Z.of_nat (length v) + 1) len) as [He|He].
  - cbn [ram with_ram]. rewrite Em, store_app. cbn [store].
    f_equal. rewrite length_take, length_app. cbn [length]. lia.
  - cbn [ram with_ram]. by rewrite Em, app_nil_r.
Qed.
End Getenv.

(** ** A sample *)

(** The configured environment in a block at 0x1000, and the strings "a",
    "hi" and "baudrate". *)
Definition sample_env : env_state unit :=
  Env (fun q => if q <? 0x1000
        then mem_of 0x100 [97; 0; 104; 105; 0; 98; 97; 117; 100; 114; 97; 116; 101; 0] q
        else mem_of 0x1000 ([22; 244; 187; 10] ++ image default_list) q)
    true true 0x1004 0x1000 1 115200 0 0 tt.

Definition no_console (x : unit) (_ : mem) (_ _ : Z) : unit * Z := (x, 0).
Definition no_line (x : unit) (_ : Z) : option unit := Some x.

Lemma sample_env_holds : env_holds 0x100 sample_env default_list.
Proof.
  split; [reflexivity|reflexivity| |by vm_compute]. split; [by vm_compute|].
  constructor; [|constructor; [|constructor]]; (split; [apply (bool_decide_eq_true_1 _); reflexivity|cbn; tauto]).
Qed.

Lemma sample_args : args_at (ram sample_env) (data_of 0x100 sample_env) [0x100; 0x102; 0x105] [[97]; [104; 105]; n_baudrate].
Proof.
  repeat constructor; try (vm_compute; reflexivity); try (vm_compute; congruence); left; by vm_compute.
Qed.

Lemma a_not_reserved : ~ reserved [97].
Proof. unfold reserved. apply (bool_decide_eq_false_1 _). by vm_compute. Qed.

Lemma setenv_getenv_witness :
  exists s' a, setenv no_console no_line 0x100 (Z.to_nat 16500) sample_env 0x100 0x102 = Some (s', 0) /\
    getenv 0x100 (Z.to_nat 16500) s' 0x105 = Some a /\
    points_to (ram s') a (if bool_decide (n_baudrate = [97]) then Some [104; 105]
                          else lookup_env n_baudrate default_list).
Proof.
  apply (setenv_getenv no_console no_line 0x100 (Z.to_nat 16500) sample_env default_list 0x100 [97] 0x102 [104; 105]
    0x105 n_baudrate sample_env_holds default_uniq).
  - by apply name_dec.
  - by apply name_dec.
  - exact a_not_reserved.
  - exact sample_args.
  - by vm_compute.
  - rewrite Z2Nat.id by lia. by vm_compute.
Defined.

(** A value of 16400 characters, at 0x10000. *)
Definition long_value : list Z := replicate (Z.to_nat 16400) 120.
Definition long_env : env_state unit :=
  with_ram sample_env (fun q =>
    if q <? 0x10000 then ram sample_env q else if q <? 0x10000 + 16400 then 120 else 0).

Lemma bytes_at_const m p n c : (forall q, p <= q < p + Z.of_nat n -> m q = c) -> bytes_at m p n = replicate n c.
Proof.
  revert p. induction n as [|n IH]; intros p H; cbn; [done|]. rewrite H by lia. f_equal. apply IH.
  intros q Hq. apply H. lia.
Qed.

Lemma long_value_there : cstr_at (ram long_env) 0x10000 long_value.
Proof.
  split; [|by apply Forall_replicate].
  replace (S (length long_value)) with (length long_value + 1)%nat by lia. rewrite bytes_at_app.
  unfold long_value. rewrite !length_replicate, Z2Nat.id by lia. apply f_equal2; [|reflexivity].
  apply bytes_at_const. rewrite Z2Nat.id by lia. intros q Hq. cbn [ram long_env with_ram].
  destruct (Z.ltb_spec q 0x10000); [lia|]. destruct (Z.ltb_spec q (0x10000 + 16400)); [done|lia].
Qed.

Lemma long_env_same q : q < 0x10000 -> ram long_env q = ram sample_env q.
Proof. intros Hq. cbn [ram long_env with_ram]. destruct (Z.ltb_spec q 0x10000); [done|lia]. Qed.

Lemma long_env_holds : env_holds 0x100 long_env default_list.
Proof.
  pose proof (eh_text _ _ _ sample_env_holds) as [Ht Hl].
  apply (env_holds_ram 0x100 sample_env sample_env default_list default_list).
  - exact sample_env_holds.
  - reflexivity.
  - reflexivity.
  - split; [|exact Hl]. apply (text_at_same (ram sample_env)); [|exact Ht].
    intros q Hq. apply long_env_same. change (0x1004 + 0 <= q < 0x1004 + 0 + 29) in Hq. lia.
  - by vm_compute.
Qed.

Lemma setenv_no_room_witness :
  exists s' a, setenv no_console no_line 0x100 (Z.to_nat 33000) long_env 0x100 0x10000 = Some (s', 1) /\
    getenv 0x100 (Z.to_nat 33000) s' 0x105 = Some a /\
    points_to (ram s') a (if bool_decide (n_baudrate = [97]) then None
                          else lookup_env n_baudrate default_list).
Proof.
  assert (Z.of_nat (length long_value) = 16400) as Hlen by (unfold long_value; rewrite length_replicate; lia).
  apply (setenv_no_room no_console no_line 0x100 (Z.to_nat 33000) long_env default_list 0x100 [97] 0x10000 long_value
    0x105 n_baudrate long_env_holds default_uniq).
  - by apply name_dec.
  - by apply name_dec.
  - exact a_not_reserved.
  - pose proof sample_args as [H1 [_ [H3 _]%Forall2_cons]%Forall2_cons]%Forall2_cons.
    constructor; [exact H1|constructor; [split; [exact long_value_there|right; by vm_compute]|constructor; [exact H3|constructor]]].
  - unfold fits, set_env. rewrite image_snoc, !length_app. cbn [length].
    apply Z.leb_gt.    unfold ENV_SIZE, CONFIG_ENV_SIZE. lia.
  - cbn [length]. lia.
  - change (length n_baudrate) with 8%nat. cbn [length]. unfold ENV_SIZE, CONFIG_ENV_SIZE. lia.
Defined.

(** Before the environment is there, with the strings "a", "hi" and "yo!" in
    memory. *)
Definition fresh_env : env_state unit :=
  Env (fun q => if q <? 0x200 then mem_of 0x100 default_definitions q
                else mem_of 0x200 [97; 0; 104; 105; 0; 121; 111; 33; 0] q)
    true false 0 0 1 115200 0 0 tt.

Definition started_env : env_state unit := env_relocate 0x100 0x1000 fresh_env.

Lemma started_same q : q < 0x1000 -> ram started_env q = ram fresh_env q.
Proof.
  intros Hq. destruct (relocate_fields 0x100 0x1000 fresh_env eq_refl) as (_ & _ & _ & c & M).
  unfold started_env. rewrite M. unfold store32. rewrite store_outside by (rewrite length_le_put; lia).
  change (env_data 0x1000) with 0x1004.
  destruct (memcpy_moved (memset (ram fresh_env) 0x1000 0 CONFIG_ENV_SIZE) 0x1004 0x100 sizeof_default)
    as [_ Hm]; [split; [done|reflexivity]|right; change sizeof_default with 30; lia|].
  rewrite Hm by lia. unfold memset. rewrite memset_spec.
  rewrite (proj2 (Z.leb_gt 0x1000 q)) by lia. done.
Qed.

Lemma started_args m nm v p : (forall q, q < 0x1000 -> m q = ram fresh_env q) ->
  0x200 <= p < 0x210 -> (length v < 16)%nat -> cstr_at (ram fresh_env) p v -> nm = [97] ->
  args_at m 0x1004 [0x200; p] [nm; v].
Proof.
  intros Hm Hp Hl Hv ->. constructor; [|constructor; [|constructor]].
  - split; [|left; cbn; lia]. apply (cstr_at_ext (ram fresh_env)); [intros q Hq; apply Hm; cbn in Hq; lia|].
    split; [by vm_compute|by repeat constructor].
  - split; [|left; lia]. apply (cstr_at_ext (ram fresh_env)); [intros q Hq; apply Hm; lia|done].
Qed.

Lemma started_holds : env_holds 0x100 started_env default_list.
Proof. apply relocate_holds; [lia|reflexivity|by vm_compute|left; by vm_compute]. Qed.

(** "a" is set to "hi", and then to "yo!". *)
Lemma env_always_sound_witness :
  let set := _do_setenv no_console no_line 0x100 (Z.to_nat 33000) in
  exists s1 s2, set started_env 0x200 [0x202] = Some (s1, 0) /\ set s1 0x200 [0x205] = Some (s2, 0) /\
    env_holds 0x100 s2 (default_list ++ [[97; 61; 121; 111; 33]]) /\ sound 0x100 s2.
Proof.
  cbv zeta. assert (is_name [97]) as Hn by (by apply name_dec).
  assert (cstr_at (ram fresh_env) 0x202 [104; 105]) as Hv1 by (split; [by vm_compute|by repeat constructor]).
  assert (cstr_at (ram fresh_env) 0x205 [121; 111; 33]) as Hv2 by (split; [by vm_compute|by repeat constructor]).
  assert (data_of 0x100 started_env = 0x1004) as Hd by (by vm_compute).
  assert (args_at (ram started_env) (data_of 0x100 started_env) [0x200; 0x202] [[97]; [104; 105]]) as A1.
  { rewrite Hd. apply started_args; [exact started_same|lia|cbn; lia|done|done]. }
  destruct (setenv_spec no_console no_line 0x100 (Z.to_nat 33000) started_env default_list 0x200 [97] [0x202]
    [[104; 105]] started_holds Hn a_not_reserved A1) as (s1 & r1 & E1 & (D1 & _ & B1) & H1 & _ & ->);
    [change (length (image default_list)) with 29%nat; cbn; lia|cbn; lia|].
  assert (args_at (ram s1) (data_of 0x100 s1) [0x200; 0x205] [[97]; [121; 111; 33]]) as A2.
  { rewrite D1, Hd. apply started_args; [|lia|cbn; lia|done|done].
    intros q Hq. rewrite B1 by (rewrite Hd; lia). by apply started_same. }
  destruct (setenv_spec no_console no_line 0x100 (Z.to_nat 33000) s1 (default_list ++ [[97; 61; 104; 105]]) 0x200 [97]
    [0x205] [[121; 111; 33]] H1 Hn a_not_reserved A2) as (s2 & r2 & E2 & _ & H2 & _ & ->);
    [change (length (image (default_list ++ _))) with 34%nat; cbn; lia|cbn; lia|].
  exists s1, s2. split; [exact E1|]. split; [exact E2|]. split; [exact H2|].
  apply (env_always_sound no_console no_line 0x100 (Z.to_nat 33000) 0x1000 fresh_env).
  - lia.
  - reflexivity.
  - by vm_compute.
  - left. by vm_compute.
  - apply (rtc_l _ _ s1).
    + eapply step_set; [exact A1|unfold ENV_SIZE, CONFIG_ENV_SIZE; cbn; lia|cbn; lia|exact E1].
    + apply rtc_once.
      eapply step_set; [exact A2|unfold ENV_SIZE, CONFIG_ENV_SIZE; cbn; lia|cbn; lia|exact E2].
Defined.

Lemma getenv_r_edges_witness :
  exists s', getenv_r 0x100 (Z.to_nat 16500) sample_env 0x105 0x8000 7 =
      Some (s', Z.min (Z.of_nat (length [49; 49; 53; 50; 48; 48])) 7 + 1) /\
    ram s' = store (ram sample_env) 0x8000
      (take (Z.to_nat 7) ([49; 49; 53; 50; 48; 48] ++ [0]) ++
       if Z.of_nat (length [49; 49; 53; 50; 48; 48]) + 1 =? 7 then [0] else []).
Proof.
  apply (getenv_r_edges 0x100 (Z.to_nat 16500) sample_env default_list 0x105 n_baudrate [49; 49; 53; 50; 48; 48] 0x8000 7
    sample_env_holds).
  - by apply name_dec.
  - pose proof sample_args as [_ [_ [[H3 _] _]%Forall2_cons]%Forall2_cons]%Forall2_cons. exact H3.
  - reflexivity.
  - lia.
  - left. by vm_compute.
  - rewrite Z2Nat.id by lia. by vm_compute.
Defined.
