(* ===== verification/Cli.v ===== *)
(** * Cli: common/main.c and command.c, running a command line

    [run_command] copies a line, cuts it at semicolons, replaces the
    variables of each piece ([process_macros]), cuts that into words
    ([parse_line]), finds the command ([find_cmd]) and calls it.

    Memory and environment are the state of [Env].  The commands themselves
    are the parameter [exec]; the buffers on the stack are at the addresses
    [cmdbuf], [finaltoken] and [envname]; an array of arguments is a list. *)

From stdpp Require Import relations.
From S2P Require Import Prelude Mem CString Env.
Local Open Scope Z_scope.

Definition CONFIG_SYS_CBSIZE := 256.
Definition CONFIG_SYS_MAXARGS := 16.
Definition CMD_FLAG_BOOTD := 2.

(** [cmd] stands for the function. *)
Record cmd_tbl_t := Cmd { name : Z; maxargs : Z; repeatable : Z; cmd : Z }.

(** ** Words *)

Definition is_blank (c : Z) : bool := (c =? 32) || (c =? 9).

Fixpoint skip_blanks (fuel : nat) (m : mem) (line : Z) : option Z :=
  match fuel with
  | O => None
  | S fuel => if is_blank (m line) then skip_blanks fuel m (line + 1) else Some line
  end.

Fixpoint skip_word (fuel : nat) (m : mem) (line : Z) : option Z :=
  match fuel with
  | O => None
  | S fuel =>
      if negb (m line =? 0) && negb (is_blank (m line)) then skip_word fuel m (line + 1) else Some line
  end.

(** [room]: how many arguments may still come.  The pointers found, with the
    NULL if it was written. *)
Fixpoint parse_args (fuel room : nat) (m : mem) (line : Z) : option (mem * list Z * Z) :=
  match room with
  | O => Some (m, [], 0)
  | S room =>
      line ← skip_blanks fuel m line;
      if m line =? 0 then Some (m, [NULL], 0) else
      let arg := line in
      line ← skip_word fuel m line;
      if m line =? 0 then Some (m, [arg; NULL], 1) else
      '(m, argv, nargs) ← parse_args fuel room (upd m line 0) (line + 1);
      Some (m, arg :: argv, nargs + 1)
  end.

Definition parse_line (fuel : nat) (m : mem) (line : Z) : option (mem * list Z * Z) :=
  parse_args fuel (Z.to_nat CONFIG_SYS_MAXARGS) m line.

(** ** The command table *)

Fixpoint find_loop (fuel : nat) (m : mem) (cmd len : Z) (table : list cmd_tbl_t)
    (temp : option cmd_tbl_t) (n_found : Z) : option (option cmd_tbl_t) :=
  match table with
  | [] => Some (if n_found =? 1 then temp else None)
  | cmdtp :: table =>
      if strncmp m cmd (name cmdtp) len =? 0 then
        n ← strlen fuel m (name cmdtp);
        if len =? n then Some (Some cmdtp)
        else find_loop fuel m cmd len table (Some cmdtp) (n_found + 1)
      else find_loop fuel m cmd len table temp n_found
  end.

Definition find_cmd_tbl (fuel : nat) (m : mem) (cmd : Z) (table : list cmd_tbl_t) : option (option cmd_tbl_t) :=
  p ← strchr fuel m cmd 46;
  len ← (if p =? NULL then strlen fuel m cmd else Some (p - cmd));
  find_loop fuel m cmd len table None 0.

(** ** Variables *)

(** The local variables of [process_macros]. *)
Record macros := Macros {
  input : Z; inputcnt : Z; output : Z; outputcnt : Z; state : Z; prev : Z; varname_start : Z
}.

Section Macros.
Context {X : Type} (default_environment envname : Z).
Abbreviation env_state := (env_state X).
Implicit Type s : env_state.

(** [*(output++) = c; outputcnt--;] *)
Definition put s (v : macros) (c : Z) : env_state * macros :=
  (with_ram s (upd (ram s) (output v) c),
   Macros (input v) (inputcnt v) (output v + 1) (outputcnt v - 1) (state v) (prev v) (varname_start v)).

Definition in_state (v : macros) (i : Z) : macros :=
  Macros (input v) (inputcnt v) (output v) (outputcnt v) i (prev v) (varname_start v).
Definition from_here (v : macros) : macros :=
  Macros (input v) (inputcnt v) (output v) (outputcnt v) (state v) (prev v) (input v).
Definition with_prev (v : macros) (c : Z) : macros :=
  Macros (input v) (inputcnt v) (output v) (outputcnt v) (state v) c (varname_start v).

Fixpoint copy_name (m : mem) (to from : Z) (n : nat) : mem :=
  match n with O => m | S n => copy_name (upd m to (m from)) (to + 1) (from + 1) n end.

Fixpoint put_value (fuel : nat) s (v : macros) (envval : Z) : option (env_state * macros) :=
  match fuel with
  | O => None
  | S fuel =>
      if (ram s envval =? 0) || (outputcnt v =? 0) then Some (s, v)
      else let '(s, v) := put s v (ram s envval) in put_value fuel s v (envval + 1)
  end.

(** The [switch] on the state, with the character [c]. *)
Definition macro_char (fuel : nat) s (v : macros) (c : Z) : option (env_state * macros) :=
  if state v =? 0 then
    if (c =? 39) && negb (prev v =? 92) then Some (s, in_state v 3)
    else if (c =? 36) && negb (prev v =? 92) then Some (s, in_state v 1)
    else Some (put s v c)
  else if state v =? 1 then
    if (c =? 40) || (c =? 123) then Some (s, from_here (in_state v 2))
    else let '(s, v) := put s (in_state v 0) 36 in
         Some (if outputcnt v =? 0 then (s, v) else put s v c)
  else if state v =? 2 then
    if (c =? 41) || (c =? 125) then
      let envcnt := input v - varname_start v - 1 in
      let m := copy_name (ram s) envname (varname_start v) (Z.to_nat envcnt) in
      let s := with_ram s (upd m (envname + Z.max envcnt 0) 0) in
      envval ← getenv default_environment fuel s envname;
      '(s, v) ← (if envval =? NULL then Some (s, v) else put_value fuel s v envval);
      Some (s, in_state v 0)
    else Some (s, v)
  else
    if (c =? 39) && negb (prev v =? 92) then Some (s, in_state v 0)
    else Some (put s v c).

(** One turn of the loop; [false] is the [break]. *)
Definition macro_step (fuel : nat) s (v : macros) : option (env_state * macros * bool) :=
  let c := ram s (input v) in
  let v := Macros (input v + 1) (inputcnt v - 1) (output v) (outputcnt v) (state v) (prev v) (varname_start v) in
  if negb (state v =? 3) && (c =? 92) && negb (prev v =? 92) then
    if inputcnt v =? 0 then Some (s, v, false) else
    let d := ram s (input v) in
    let v := Macros (input v + 1) (inputcnt v - 1) (output v) (outputcnt v) (state v) c (varname_start v) in
    '(s, v) ← macro_char fuel s v d; Some (s, with_prev v d, true)
  else '(s, v) ← macro_char fuel s v c; Some (s, with_prev v c, true).

Fixpoint macro_loop (n fuel : nat) s (v : macros) : option (env_state * macros) :=
  if (inputcnt v =? 0) || (outputcnt v =? 0) then Some (s, v) else
  match n with
  | O => None
  | S n =>
      '(s, v, go) ← macro_step fuel s v;
      if go : bool then macro_loop n fuel s v else Some (s, v)
  end.

Definition process_macros (fuel : nat) s (inp out : Z) : option env_state :=
  len ← strlen fuel (ram s) inp;
  '(s, v) ← macro_loop fuel fuel s (Macros inp len out CONFIG_SYS_CBSIZE 0 0 NULL);
  Some (with_ram s (upd (ram s) (if outputcnt v =? 0 then output v - 1 else output v) 0)).
End Macros.

(** ** Command lines *)

(** The end of the first command from [str] on. *)
Fixpoint find_sep (fuel : nat) (m : mem) (str sep : Z) (inquotes : bool) : option Z :=
  match fuel with
  | O => None
  | S fuel =>
      if m sep =? 0 then Some sep else
      let inquotes := if (m sep =? 39) && negb (m (sep - 1) =? 92) then negb inquotes else inquotes in
      if negb inquotes && (m sep =? 59) && negb (sep =? str) && negb (m (sep - 1) =? 92)
      then Some sep else find_sep fuel m str (sep + 1) inquotes
  end.

Section Run.
Context {X : Type} (default_environment cmdbuf finaltoken envname : Z).
Context (table : list cmd_tbl_t) (do_bootd : Z).
Abbreviation env_state := (env_state X).
Implicit Type s : env_state.
(** Calling a command: its table entry, the flags, the arguments. *)
Context (exec : cmd_tbl_t -> env_state -> Z -> Z -> list Z -> option (env_state * Z)).
Context (clear_ctrlc : X -> X) (had_ctrlc : X -> bool).

Definition find_cmd (fuel : nat) (m : mem) (cmd : Z) : option (option cmd_tbl_t) := find_cmd_tbl fuel m cmd table.

(** What becomes of one command: not executed, or executed, with its result
    and whether it may be repeated. *)
Inductive outcome := Refused | Executed (ret repeatable : Z).

Definition run_one (fuel : nat) s (token flag : Z) : option (env_state * Z * outcome) :=
  s ← process_macros default_environment envname fuel s token finaltoken;
  '(m, argv, argc) ← parse_line fuel (ram s) finaltoken;
  let s := with_ram s m in
  if argc =? 0 then Some (s, flag, Refused) else
  c ← find_cmd fuel m (hd NULL argv);
  match c with
  | None => Some (s, flag, Refused)
  | Some cmdtp =>
      if maxargs cmdtp <? argc then Some (s, flag, Refused) else
      if (cmd cmdtp =? do_bootd) && negb (Z.land flag CMD_FLAG_BOOTD =? 0) then Some (s, flag, Refused) else
      let flag := if cmd cmdtp =? do_bootd then Z.lor flag CMD_FLAG_BOOTD else flag in
      '(s, ret) ← exec cmdtp s flag argc argv;
      Some (s, flag, Executed ret (repeatable cmdtp))
  end.

Fixpoint run_loop (n fuel : nat) s (str flag rep rc : Z) : option (env_state * Z) :=
  if ram s str =? 0 then Some (s, if rc =? 0 then rep else rc) else
  match n with
  | O => None
  | S n =>
      sep ← find_sep fuel (ram s) str str false;
      let '(s, next) := if ram s sep =? 0 then (s, sep) else (with_ram s (upd (ram s) sep 0), sep + 1) in
      '(s, flag, r) ← run_one fuel s str flag;
      match r with
      | Refused => run_loop n fuel s next flag rep (-1)
      | Executed ret r =>
          let rc := if ret =? 0 then rc else -1 in
          let rep := Z.land rep r in
          if had_ctrlc (console s) then Some (s, -1) else run_loop n fuel s next flag rep rc
      end
  end.

Definition run_command (fuel : nat) s (cmd flag : Z) : option (env_state * Z) :=
  let s := with_console s (clear_ctrlc (console s)) in
  if (cmd =? NULL) || (ram s cmd =? 0) then Some (s, -1) else
  len ← strlen fuel (ram s) cmd;
  if CONFIG_SYS_CBSIZE <=? len then Some (s, -1) else
  m ← strcpy fuel (ram s) cmdbuf cmd;
  run_loop fuel fuel (with_ram s m) cmdbuf flag 1 0.
End Run.
(** ** What the words are *)

Fixpoint words (s : list Z) : list (list Z) :=
  match s with
  | [] => []
  | c :: t =>
      if is_blank c then words t
      else match t with
           | [] => [[c]]
           | d :: _ => if is_blank d then [c] :: words t
                       else match words t with w :: ws => (c :: w) :: ws | [] => [[c]] end
           end
  end.

Definition is_word (w : list Z) : Prop := w <> [] /\ Forall (fun c => is_blank c = false) w.

(** The line ends with a word. *)
Definition ends_in_word (s : list Z) : bool :=
  match last s with Some c => negb (is_blank c) | None => false end.

(** [parse_line] comes to the end of the line before it runs out of room. *)
Definition complete (room : nat) (s : list Z) : bool :=
  (length (words s) <? room)%nat || ((length (words s) =? room)%nat && ends_in_word s).

Lemma words_blank c s : is_blank c = true -> words (c :: s) = words s.
Proof. intros H. cbn. by rewrite H. Qed.

Lemma words_word w s : is_word w -> words w = [w] /\
  (forall b, is_blank b = true -> words (w ++ b :: s) = w :: words s).
Proof.
  intros [Hn H]. induction H as [|c w Hc H IH]; [done|]. destruct w as [|d w].
  - cbn. rewrite Hc. split; [done|]. intros b Hb. by rewrite Hb.
  - apply Forall_cons in H as [Hd _]. specialize (IH ltac:(done)) as [IH1 IH2].
    split.
    + change (words (c :: d :: w)) with
        (if is_blank c then words (d :: w) else if is_blank d then [c] :: words (d :: w)
         else match words (d :: w) with w :: ws => (c :: w) :: ws | [] => [[c]] end).
      by rewrite Hc, Hd, IH1.
    + intros b Hb. change (words ((c :: d :: w) ++ b :: s)) with
        (if is_blank c then words ((d :: w) ++ b :: s) else if is_blank d then [c] :: words ((d :: w) ++ b :: s)
         else match words ((d :: w) ++ b :: s) with w :: ws => (c :: w) :: ws | [] => [[c]] end).
      by rewrite Hc, Hd, IH2.
Qed.

(** A string is blank, or blanks, a word, and nothing or a blank and a rest. *)
Lemma first_word s : exists bs w r, s = bs ++ w ++ r /\ Forall (fun c => is_blank c = true) bs /\
  (w = [] /\ r = [] \/ is_word w /\ (r = [] \/ exists b r', r = b :: r' /\ is_blank b = true)).
Proof.
  induction s as [|c s (bs & w & r & -> & Hb & Hw)]; [exists [], [], []; by auto|].
  destruct (is_blank c) eqn:Hc.
  { exists (c :: bs), w, r. split; [done|]. split; [by constructor|done]. }
  destruct bs as [|b bs].
  - destruct Hw as [[-> ->]|[[Hw1 Hw2] Hr]].
    + exists [], [c], []. split; [done|]. split; [done|]. right. split; [|by left]. split; [done|]. by constructor.
    + exists [], (c :: w), r. split; [done|]. split; [done|]. right. split; [|done]. split; [done|]. by constructor.
  - apply Forall_cons in Hb as [Hb Hbs]. exists [], [c], (b :: bs ++ w ++ r). split; [done|]. split; [done|].
    right. split; [split; [done|by constructor]|]. right. by exists b, (bs ++ w ++ r).
Qed.

Lemma words_skip bs s : Forall (fun c => is_blank c = true) bs -> words (bs ++ s) = words s.
Proof. induction 1 as [|b bs Hb _ IH]; [done|]. cbn [app]. by rewrite words_blank. Qed.

Lemma skip_blanks_spec fuel m p bs s :
  cstr_at m p (bs ++ s) -> Forall (fun c => is_blank c = true) bs -> (length bs < fuel)%nat ->
  (forall c t, s = c :: t -> is_blank c = false) ->
  skip_blanks fuel m p = Some (p + Z.of_nat (length bs)).
Proof.
  intros Hs Hb Hf Hn. revert fuel p Hs Hf.
  induction Hb as [|b bs Hb _ IH]; intros [|fuel] p Hs Hf; cbn [length] in Hf; try lia; cbn [skip_blanks].
  - cbn in Hs. replace (is_blank (m p)) with false; [f_equal; cbn; lia|]. destruct s as [|c s].
    + apply cstr_at_nil in Hs. by rewrite Hs.
    + apply cstr_at_cons in Hs as (-> & _). symmetry. by eapply Hn.
  - apply cstr_at_cons in Hs as (-> & _ & Hs). rewrite Hb, IH by (done || lia). f_equal. cbn [length]. lia.
Qed.

Lemma skip_word_spec fuel m p w r :
  cstr_at m p (w ++ r) -> Forall (fun c => is_blank c = false) w -> (length w < fuel)%nat ->
  (forall c t, r = c :: t -> is_blank c = true) ->
  skip_word fuel m p = Some (p + Z.of_nat (length w)).
Proof.
  intros Hs Hb Hf Hn. revert fuel p Hs Hf.
  induction Hb as [|b w Hb _ IH]; intros [|fuel] p Hs Hf; cbn [length] in Hf; try lia; cbn [skip_word].
  - cbn in Hs. replace (negb (m p =? 0) && negb (is_blank (m p))) with false; [f_equal; cbn; lia|].
    destruct r as [|c r].
    + apply cstr_at_nil in Hs. by rewrite Hs.
    + apply cstr_at_cons in Hs as (-> & _). by rewrite (Hn c r), andb_false_r.
  - apply cstr_at_cons in Hs as (-> & Hz & Hs). rewrite Hb, (proj2 (Z.eqb_neq b 0)) by done. cbn [negb andb].
    rewrite IH by (done || lia). f_equal. cbn [length]. lia.
Qed.

Lemma complete_word room bs w b r : Forall (fun c => is_blank c = true) bs -> is_word w -> is_blank b = true ->
  complete (S room) (bs ++ w ++ b :: r) = complete room r.
Proof.
  intros Hbs Hw Hb. unfold complete. rewrite words_skip, (proj2 (words_word w r Hw)) by done. cbn [length].
  f_equal. f_equal. unfold ends_in_word. rewrite app_assoc, last_app_cons. destruct r as [|c r]; cbn; [by rewrite Hb|done].
Qed.

Lemma complete_end room bs w : Forall (fun c => is_blank c = true) bs -> is_word w ->
  complete (S room) (bs ++ w) = true.
Proof.
  intros Hbs Hw. unfold complete. rewrite words_skip, (proj1 (words_word w [] Hw)) by done. cbn [length].
  destruct room; [|done]. cbn. unfold ends_in_word. destruct Hw as [Hn Hw].
  destruct (exists_last Hn) as (w' & c & ->). rewrite app_assoc, last_snoc.
  apply Forall_app in Hw as [_ [-> _]%Forall_cons]. done.
Qed.
Lemma no_words s : words s = [] -> ends_in_word s = false.
Proof.
  induction s as [|c s IH]; [done|]. unfold ends_in_word in *. intros H.
  assert (is_blank c = true /\ words s = []) as [Hc Hs].
  { cbn in H. destruct (is_blank c); [done|]. destruct s as [|d s]; [done|].
    destruct (is_blank d); [done|]. by destruct (words (d :: s)). }
  destruct s as [|d s]; [cbn; by rewrite Hc|]. by apply IH.
Qed.

(** A string ends where a NUL is stored over one of its characters. *)
Lemma cstr_cut m p a b s : cstr_at m p (a ++ b :: s) ->
  cstr_at (upd m (p + Z.of_nat (length a)) 0) p a /\
  cstr_at (upd m (p + Z.of_nat (length a)) 0) (p + Z.of_nat (length a) + 1) s.
Proof.
  intros H. split.
  - revert p H. induction a as [|c a IH]; intros p H.
    + apply cstr_at_nil. cbn. rewrite Z.add_0_r. apply upd_eq.
    + apply cstr_at_cons in H as (Hc & Hz & H). apply cstr_at_cons. split_and!; [|done|].
      * rewrite upd_ne; [done|cbn; lia].
      * apply IH in H. cbn [length]. replace (p + Z.of_nat (S (length a))) with (p + 1 + Z.of_nat (length a)) by lia. done.
  - apply cstr_at_app_r in H. apply cstr_at_cons in H as (_ & _ & H).
    eapply cstr_at_ext; [|exact H]. intros q Hq. apply upd_ne. lia.
Qed.

(** The word [w] at [a], inside the [n] characters from [p] on. *)
Definition word_in (m : mem) (p n a : Z) (w : list Z) : Prop :=
  cstr_at m a w /\ p <= a /\ a + Z.of_nat (length w) <= p + n.

Lemma parse_args_spec room fuel m p s :
  mem_ok m -> cstr_at m p s -> (length s < fuel)%nat ->
  exists m' argv, parse_args fuel room m p =
      Some (m', argv ++ (if complete room s then [NULL] else []), Z.of_nat (length argv)) /\
    Forall2 (word_in m' p (Z.of_nat (length s))) argv (take room (words s)) /\
    same_except m m' p (length s) /\ mem_ok m'.
Proof.
  revert fuel m p s. induction room as [|room IH]; intros fuel m p s Ho Hs Hf; cbn [parse_args].
  { exists m, []. split; [|by split_and!]. unfold complete. cbn. destruct (words s) eqn:Hw; [|done].
    by rewrite no_words. }
  destruct (first_word s) as (bs & w & r & -> & Hbs & [[-> ->]|[Hw Hr]]).
  { rewrite !app_nil_r in *. rewrite (skip_blanks_spec _ _ _ bs []) by (rewrite ?app_nil_r; done). cbn [mbind option_bind].
    pose proof (words_skip bs [] Hbs) as Hn. rewrite app_nil_r in Hn.
    pose proof Hs as Hz. rewrite <- (app_nil_r bs) in Hz. apply cstr_at_app_r, cstr_at_nil in Hz. rewrite Hz.
    exists m, []. unfold complete. rewrite Hn. by split_and!. }
  rewrite !length_app in Hf. pose proof Hw as [Hw1 Hw2].
  rewrite (skip_blanks_spec _ _ _ bs (w ++ r)) by (first [done|lia|intros c t E; destruct w; [done|];
    injection E as -> _; by apply Forall_cons in Hw2 as [? _]]). cbn [mbind option_bind].
  pose proof (cstr_at_app_r _ _ _ _ Hs) as Hs'. set (arg := p + _) in *.
  replace (m arg =? 0) with false; cycle 1.
  { symmetry. apply Z.eqb_neq. destruct w; [done|]. apply cstr_at_cons in Hs' as (-> & ? & _). done. }
  rewrite (skip_word_spec _ _ _ w r) by (first [done|lia|intros c t ->; by destruct Hr as [|(b & r' & [= <- <-] & ?)]]).
  cbn [mbind option_bind]. destruct Hr as [->|(b & r' & -> & Hb)].
  - rewrite app_nil_r in Hs'. pose proof Hs' as Hn. rewrite <- (app_nil_r w) in Hn. apply cstr_at_app_r, cstr_at_nil in Hn.
    rewrite Hn. cbn [Z.eqb]. exists m, [arg]. rewrite app_nil_r, complete_end, words_skip by done.
    rewrite (proj1 (words_word w [] Hw)). split; [done|]. split; [|by split_and!].
    cbn [take]. rewrite take_nil. constructor; [|done]. split; [done|]. rewrite length_app. unfold arg. lia.
  - pose proof (cstr_at_app_r _ _ _ _ Hs') as Hz. apply cstr_at_cons in Hz as (Hb1 & Hb2 & _).
    rewrite Hb1, (proj2 (Z.eqb_neq b 0)) by done. apply cstr_cut in Hs' as [Ha Hrest].
    assert (mem_ok (upd m (arg + Z.of_nat (length w)) 0)) as Ho' by (apply mem_ok_upd; done).
    destruct (IH fuel _ _ r' Ho' Hrest ltac:(cbn in Hf; lia)) as (m' & argv & -> & HF & Hx & Hok).
    cbn [mbind option_bind]. exists m', (arg :: argv). rewrite complete_word by done. split_and!.
    + cbn [app length]. f_equal. f_equal. lia.
    + rewrite words_skip, (proj2 (words_word w r' Hw)) by done. cbn [take]. rewrite !length_app. cbn [length].
      constructor; [split; [|unfold arg; lia]|].
      * eapply cstr_at_ext; [|exact Ha]. intros q Hq. apply Hx. lia.
      * eapply Forall2_impl; [exact HF|]. intros a v (Hav & Hav1 & Hav2). split; [done|]. unfold arg in *. lia.
    + intros q Hq. rewrite Hx, upd_ne; [done| |]; rewrite ?length_app in Hq; cbn in Hq; unfold arg; lia.
    + done.
Qed.

(** C29: [parse_line] returns at most sixteen words of the line, which it
    terminates in place, writing nowhere else; [argv] is ended by a NULL
    unless the room for the words ran out before the end of the line. *)
Theorem parse_line_words fuel m line s :
  mem_ok m -> cstr_at m line s -> (length s < fuel)%nat ->
  exists m' argv, parse_line fuel m line =
      Some (m', argv ++ (if complete 16 s then [NULL] else []), Z.of_nat (length (take 16 (words s)))) /\
    Forall2 (word_in m' line (Z.of_nat (length s))) argv (take 16 (words s)) /\ same_except m m' line (length s).
Proof.
  intros Ho Hs Hf. destruct (parse_args_spec 16 fuel m line s Ho Hs Hf) as (m' & argv & E & HF & Hx & _).
  exists m', argv. by rewrite <- (Forall2_length _ _ _ HF).
Qed.
(** ** What [find_cmd] finds *)

(** A command word up to its first dot. *)
Fixpoint stem (w : list Z) : list Z :=
  match w with [] => [] | c :: w => if c =? 46 then [] else c :: stem w end.

Definition begins (st n : list Z) : bool := bool_decide (take (length st) n = st).

(** The entry of that name, or the only one that begins with it. *)
Definition lookup_cmd (st : list Z) (before t : list (cmd_tbl_t * list Z)) : option cmd_tbl_t :=
  match List.find (fun e => bool_decide (e.2 = st)) t with
  | Some e => Some e.1
  | None => match before ++ List.filter (fun e => begins st e.2) t with [e] => Some e.1 | _ => None end
  end.

Definition named (m : mem) (e : cmd_tbl_t * list Z) : Prop := cstr_at m (name e.1) e.2.

Lemma stem_prefix w : take (length (stem w)) w = stem w.
Proof. induction w as [|c w IH]; [done|]. cbn. destruct (c =? 46); [done|]. cbn. by rewrite IH. Qed.

Lemma stem_length w : (length (stem w) <= length w)%nat.
Proof. rewrite <- (stem_prefix w) at 1. rewrite length_take. lia. Qed.

Lemma strchr_stem fuel m p w : cstr_at m p w -> (length w < fuel)%nat ->
  strchr fuel m p 46 = Some (if bool_decide (46 ∈ w) then p + Z.of_nat (length (stem w)) else NULL) /\
  (~ 46 ∈ w -> stem w = w).
Proof.
  revert fuel p. induction w as [|c w IH]; intros [|fuel] p Hp Hf; cbn [length] in Hf; try lia; cbn [strchr stem].
  - apply cstr_at_nil in Hp. by rewrite Hp.
  - apply cstr_at_cons in Hp as (Hc & Hz & Hp). rewrite Hc. change (u8 46) with 46.
    destruct (Z.eqb_spec c 46) as [->|Hne].
    { rewrite bool_decide_true by set_solver. split; [f_equal; cbn; lia|]. set_solver. }
    rewrite (proj2 (Z.eqb_neq c 0)) by done. destruct (IH fuel (p + 1) Hp ltac:(lia)) as [-> Hs].
    split.
    + f_equal. destruct (bool_decide_reflect (46 ∈ w)) as [Hi|Hi].
      * rewrite bool_decide_true by set_solver. cbn [length]. lia.
      * by rewrite bool_decide_false by set_solver.
    + intros Hn. rewrite Hs; [done|]. set_solver.
Qed.

Lemma find_loop_spec fuel m p w t before :
  mem_ok m -> cstr_at m p w -> Z.of_nat (length w) < 2 ^ 32 ->
  Forall (fun e => named m e /\ (length e.2 < fuel)%nat) t ->
  find_loop fuel m p (Z.of_nat (length (stem w))) t.*1 (fst <$> last before) (Z.of_nat (length before)) =
  Some (lookup_cmd (stem w) before t).
Proof.
  intros Ho Hp Hl Ht. pose proof (stem_length w) as Hsl. revert before.
  induction Ht as [|[c n] t [Hn Hf] Ht IH]; intros before; cbn [find_loop fmap list_fmap fst].
  { f_equal. unfold lookup_cmd. cbn. rewrite app_nil_r. destruct before as [|e [|e' before]]; [done|done|].
    destruct (Z.eqb_spec (Z.of_nat (length (e :: e' :: before))) 1) as [E|]; [cbn in E; lia|done]. }
  cbn [fst snd] in *. unfold named in Hn; cbn [fst snd] in Hn.
  pose proof (strncmp_zero m p (name c) w n (Z.of_nat (length (stem w))) Ho Hp Hn) as Hcmp.
  specialize (Hcmp ltac:(unfold is_u32; lia)). rewrite Nat2Z.id, stem_prefix in Hcmp.
  unfold lookup_cmd, begins in *. cbn [List.find List.filter snd fst].
  destruct (Z.eqb_spec (strncmp m p (name c) (Z.of_nat (length (stem w)))) 0) as [Hz|Hz].
  - rewrite (bool_decide_true (take _ n = _)) by (symmetry; tauto).
    rewrite (strlen_spec fuel m (name c) n Hn Hf). cbn [mbind option_bind].
    destruct (Z.eqb_spec (Z.of_nat (length (stem w))) (Z.of_nat (length n))) as [El|El].
    + apply Hcmp in Hz. apply Nat2Z.inj in El. rewrite El, firstn_all in Hz. by rewrite bool_decide_true.
    + rewrite bool_decide_false by (intros ->; done).
      specialize (IH (before ++ [(c, n)])). rewrite last_snoc, length_app in IH. cbn [length fmap option_fmap option_map fst] in IH.
      replace (Z.of_nat (length before + 1)) with (Z.of_nat (length before) + 1) in IH by lia. rewrite IH.
      destruct (List.find _ t); [done|]. by rewrite <- app_assoc.
  - rewrite (bool_decide_false (take _ n = _)) by (intros E; by apply Hz, Hcmp).
    rewrite bool_decide_false; [apply IH|]. intros ->. apply Hz, Hcmp. by rewrite firstn_all.
Qed.

Lemma find_cmd_spec fuel m p w t :
  mem_ok m -> cstr_at m p w -> 0 < p -> Z.of_nat (length w) < 2 ^ 32 -> (length w < fuel)%nat ->
  Forall (fun e => named m e /\ (length e.2 < fuel)%nat) t ->
  find_cmd t.*1 fuel m p = Some (lookup_cmd (stem w) [] t).
Proof.
  intros Ho Hp H0 Hl Hf Ht. unfold find_cmd, find_cmd_tbl. destruct (strchr_stem fuel m p w Hp Hf) as [-> Hs].
  cbn [mbind option_bind]. pose proof (find_loop_spec fuel m p w t [] Ho Hp Hl Ht) as Hloop.
  destruct (bool_decide_reflect (46 ∈ w)) as [Hi|Hi].
  - destruct (Z.eqb_spec (p + Z.of_nat (length (stem w))) NULL) as [E|_]; [unfold NULL in E; lia|]. cbn [mbind option_bind].
    replace (p + Z.of_nat (length (stem w)) - p) with (Z.of_nat (length (stem w))) by lia. exact Hloop.
  - change (NULL =? NULL) with true. cbv iota. rewrite (strlen_spec _ _ _ _ Hp Hf). cbn [mbind option_bind].
    rewrite (Hs Hi) in Hloop |- *. exact Hloop.
Qed.
(** ** What the variables become *)

(** Between a dollar and its brace; in the braces, with what was read of the
    name; in single quotes. *)
Inductive mode := Plain | Dollar | Name (raw : list Z) | Quoted.

Section Expand.
(** The value of a variable; empty if there is none. *)
Context (val : list Z -> list Z).

Definition take_char (md : mode) (prev c : Z) : list Z * mode :=
  match md with
  | Plain => if (c =? 39) && negb (prev =? 92) then ([], Quoted)
             else if (c =? 36) && negb (prev =? 92) then ([], Dollar) else ([c], Plain)
  | Dollar => if (c =? 40) || (c =? 123) then ([], Name []) else ([36; c], Plain)
  | Name raw => if (c =? 41) || (c =? 125) then (val raw, Plain) else ([], Name (raw ++ [c]))
  | Quoted => if (c =? 39) && negb (prev =? 92) then ([], Plain) else ([c], Quoted)
  end.

(** A backslash: it is kept in a name. *)
Definition escaped (md : mode) : mode :=
  match md with Name raw => Name (raw ++ [92]) | md => md end.
Definition is_quoted (md : mode) : bool := match md with Quoted => true | _ => false end.

Fixpoint expand (md : mode) (prev : Z) (s : list Z) : list Z :=
  match s with
  | [] => []
  | c :: s =>
      if negb (is_quoted md) && (c =? 92) && negb (prev =? 92) then
        match s with
        | [] => []
        | d :: s => let '(o, md) := take_char (escaped md) c d in o ++ expand md d s
        end
      else let '(o, md) := take_char md prev c in o ++ expand md c s
  end.
End Expand.

(** A character that means nothing to the expansion, outside names. *)
Definition is_plain (c : Z) : bool := negb (c =? 39) && negb (c =? 36) && negb (c =? 92).

Lemma take_plain val p c : is_plain c = true -> take_char val Plain p c = ([c], Plain).
Proof.
  unfold is_plain. rewrite !andb_true_iff, !negb_true_iff. intros [[H1 H2] H3]. cbn [take_char]. by rewrite H1, H2.
Qed.

(** Text without quotes, dollars and backslashes stays as it is. *)
Lemma expand_plain val p a b : Forall (fun c => is_plain c = true) a -> 
  expand val Plain p (a ++ b) = a ++ expand val Plain (default p (last a)) b.
Proof.
  intros Ha. revert p. induction Ha as [|c a Hc _ IH]; intros p; [done|]. cbn [app expand].
  replace (c =? 92) with false by (unfold is_plain in Hc; destruct (c =? 92); [by rewrite andb_false_r in Hc|done]).
  rewrite andb_false_r. cbn [andb]. rewrite take_plain, IH by done. cbn [app]. rewrite last_cons. by destruct (last a).
Qed.

(** A variable in braces, with a name free of brackets and backslashes. *)
Lemma expand_name val p raw nm b : Forall (fun c => c <> 41 /\ c <> 125 /\ c <> 92) nm ->
  expand val (Name raw) p (nm ++ 125 :: b) = val (raw ++ nm) ++ expand val Plain 125 b.
Proof.
  intros Hn. revert p raw. induction Hn as [|c nm (H1 & H2 & H3) _ IH]; intros p raw; cbn [app expand].
  - by rewrite app_nil_r.
  - rewrite (proj2 (Z.eqb_neq c 92)) by done. cbn [is_quoted negb andb take_char].
    rewrite (proj2 (Z.eqb_neq c 41)), (proj2 (Z.eqb_neq c 125)) by done. cbn [orb app]. rewrite IH. by rewrite <- app_assoc.
Qed.

Lemma expand_variable val p nm b : p <> 92 -> Forall (fun c => c <> 41 /\ c <> 125 /\ c <> 92) nm ->
  expand val Plain p (36 :: 123 :: nm ++ 125 :: b) = val nm ++ expand val Plain 125 b.
Proof.
  intros Hp Hn. cbn [expand take_char]. rewrite (proj2 (Z.eqb_neq p 92)) by done. cbn. by apply (expand_name val 123 []).
Qed.

(** The value [getenv] finds. *)
Definition value (l : list (list Z)) (nm : list Z) : list Z := default [] (lookup_env (key nm) l).

Section Macros_.
Context {X : Type} (default_environment envname : Z).
Abbreviation env_state := (env_state X).
Abbreviation data_of := (data_of default_environment).
Abbreviation env_holds := (env_holds default_environment).
Implicit Type s : env_state.

(** The environment block with its CRC. *)
Definition off_block s (p : Z) (n : Z) : Prop :=
  p + n <= data_of s - 4 \/ data_of s + ENV_SIZE <= p.

(** The string to expand is [txt] at [inp], the buffers are apart. *)
Record laid_out s (l : list (list Z)) (inp out : Z) (txt : list Z) : Prop := {
  lo_env : env_holds s l;
  lo_txt : cstr_at (ram s) inp txt;
  lo_len : Z.of_nat (length txt) < CONFIG_SYS_CBSIZE;
  lo_out : off_block s out CONFIG_SYS_CBSIZE;
  lo_name : off_block s envname CONFIG_SYS_CBSIZE;
  lo_apart : out + CONFIG_SYS_CBSIZE <= envname \/ envname + CONFIG_SYS_CBSIZE <= out;
  lo_in_out : out + CONFIG_SYS_CBSIZE <= inp \/ inp + Z.of_nat (length txt) < out;
  lo_in_name : envname + CONFIG_SYS_CBSIZE <= inp \/ inp + Z.of_nat (length txt) < envname;
  lo_ok : mem_ok (ram s)
}.

Lemma with_ram_same s : with_ram s (ram s) = s.
Proof. by destruct s. Qed.

(** Nothing but the two buffers has changed. *)
Definition only_buffers (m m' : mem) (out : Z) : Prop :=
  forall q, (q < out \/ out + CONFIG_SYS_CBSIZE <= q) -> (q < envname \/ envname + CONFIG_SYS_CBSIZE <= q) -> m' q = m q.

Lemma only_buffers_trans m m' m'' out : only_buffers m m' out -> only_buffers m' m'' out -> only_buffers m m'' out.
Proof. intros H1 H2 q Ho Hn. by rewrite H2, H1. Qed.

(** The output so far. *)
Record written (m : mem) (out : Z) (v : macros) (o : list Z) : Prop := {
  wr_text : text_at m out o;
  wr_out : output v = out + Z.of_nat (length o);
  wr_cnt : outputcnt v = CONFIG_SYS_CBSIZE - Z.of_nat (length o);
  wr_len : (length o <= 256)%nat
}.

(** What [put] does: of the locals only the two of the output are changed, of
    the memory only the buffer. *)
Record appended (m m' : mem) (out : Z) (v v' : macros) (o : list Z) : Prop := {
  ap_written : written m' out v' o;
  ap_v : v' = Macros (input v) (inputcnt v) (output v') (outputcnt v') (state v) (prev v) (varname_start v);
  ap_mem : same_except m m' out 256;
  ap_ok : mem_ok m'
}.

Lemma appended_trans m m1 m2 out v v1 v2 o1 o2 :
  appended m m1 out v v1 o1 -> appended m1 m2 out v1 v2 o2 -> appended m m2 out v v2 o2.
Proof.
  intros [A1 A2 A3 A4] [B1 B2 B3 B4]. split; [done| |by eapply same_except_trans|done].
  rewrite B2, A2. done.
Qed.

Lemma put_spec s m out v o c :
  written m out v o -> (length o < 256)%nat -> is_byte c -> mem_ok m ->
  exists m' v', put (with_ram s m) v c = (with_ram s m', v') /\ appended m m' out v v' (o ++ [c]).
Proof.
  intros [W1 W2 W3 W4] Hl Hc Ho. eexists _, _. split; [reflexivity|]. cbn [with_ram ram]. split.
  - split; cbn [output outputcnt]; rewrite ?length_app; cbn [length]; [|lia|lia|lia].
    apply text_at_app. split.
    + eapply text_at_same; [|exact W1]. intros q Hq. apply upd_ne. lia.
    + apply text_at_cons. rewrite W2. split; [apply upd_eq|done].
  - done.
  - intros q Hq. apply upd_ne. rewrite W2. lia.
  - by apply mem_ok_upd.
Qed.

Lemma put_value_spec fuel s m out v o a vv :
  written m out v o -> mem_ok m -> cstr_at m a vv -> (length vv < fuel)%nat ->
  out + CONFIG_SYS_CBSIZE <= a \/ a + Z.of_nat (length vv) < out ->
  exists m' v', put_value fuel (with_ram s m) v a = Some (with_ram s m', v') /\
    appended m m' out v v' (take 256 (o ++ vv)).
Proof.
  unfold CONFIG_SYS_CBSIZE. revert fuel m v o a. induction vv as [|c vv IH]; intros [|fuel] m v o a W Ho Ha Hf Hd;
    cbn [length] in Hf, Hd; try lia; cbn [put_value with_ram ram]; pose proof (wr_len _ _ _ _ W) as Hl.
  - apply cstr_at_nil in Ha. rewrite Ha. cbn [orb Z.eqb]. rewrite app_nil_r, take_ge by done.
    exists m, v. split; [done|]. split; [done|by destruct v|done|done].
  - pose proof (Ho a) as Hb. apply cstr_at_cons in Ha as (Hc & Hz & Ha). rewrite Hc in Hb |- *.
    rewrite (proj2 (Z.eqb_neq c 0)) by done. cbn [orb]. pose proof (wr_cnt _ _ _ _ W) as Hcnt.
    unfold CONFIG_SYS_CBSIZE in *. destruct (Z.eqb_spec (outputcnt v) 0) as [H0|H0].
    + exists m, v. split; [done|]. rewrite take_app_le, take_ge by lia. split; [done|by destruct v|done|done].
    + destruct (put_spec s m out v o c W ltac:(lia) Hb Ho) as (m1 & v1 & -> & A1).
      destruct (IH fuel m1 v1 (o ++ [c]) (a + 1)) as (m2 & v2 & E & A2).
      * apply A1.
      * apply A1.
      * eapply cstr_at_ext; [|exact Ha]. intros q Hq. apply A1. lia.
      * lia.
      * lia.
      * exists m2, v2. rewrite <- app_assoc in A2. split; [exact E|]. by eapply appended_trans.
Qed.

Lemma copy_name_spec m to from n :
  (forall q, from <= q < from + Z.of_nat n -> q < to \/ to + Z.of_nat n <= q) ->
  copy_name m to from n = store m to (bytes_at m from n).
Proof.
  revert m to from. induction n as [|n IH]; intros m to from Hd; cbn [copy_name bytes_at store]; [done|].
  rewrite IH.
  - f_equal. apply bytes_at_ext. intros q Hq. apply upd_ne. specialize (Hd q). lia.
  - intros q Hq. specialize (Hd q). lia.
Qed.
(** A run over [txt] at [inp], into [out]. *)
Section Over.
Context (s : env_state) (l : list (list Z)) (inp out : Z) (txt : list Z) (fuel : nat).
Hypothesis L : laid_out s l inp out txt.
Hypothesis Hfuel : (length (image l) + 256 < fuel)%nat.

Definition matches (md : mode) (v : macros) (pre : list Z) : Prop :=
  match md with
  | Plain => state v = 0
  | Dollar => state v = 1
  | Name raw => state v = 2 /\ exists a, pre = a ++ raw /\ varname_start v = inp + Z.of_nat (length a)
  | Quoted => state v = 3
  end.

(** [pre] is read, [rest] is to come, [o] is put out. *)
Record going (m : mem) (v : macros) (o : list Z) (md : mode) (pre rest : list Z) : Prop := {
  go_txt : txt = pre ++ rest;
  go_in : input v = inp + Z.of_nat (length pre);
  go_cnt : inputcnt v = Z.of_nat (length rest);
  go_out : written m out v o;
  go_mode : matches md v pre;
  go_mem : only_buffers (ram s) m out;
  go_ok : mem_ok m
}.

Lemma going_txt m v o md pre rest : going m v o md pre rest -> cstr_at m inp txt.
Proof.
  intros G. pose proof L as [_ L1 L2 _ _ _ L3 L4 _]. eapply cstr_at_ext; [|exact L1].
  intros q Hq. apply (go_mem _ _ _ _ _ _ G); unfold CONFIG_SYS_CBSIZE in *; lia.
Qed.

Lemma going_char m v o md pre c rest : going m v o md pre (c :: rest) -> m (input v) = c /\ c <> 0.
Proof.
  intros G. pose proof (going_txt _ _ _ _ _ _ G) as Ht. rewrite (go_txt _ _ _ _ _ _ G) in Ht.
  apply cstr_at_app_r, cstr_at_cons in Ht as (Hc & Hz & _). rewrite (go_in _ _ _ _ _ _ G). done.
Qed.

(** [c = *input++; inputcnt--;], with [p] as the previous character. *)
Definition reading (v : macros) (p : Z) : macros :=
  Macros (input v + 1) (inputcnt v - 1) (output v) (outputcnt v) (state v) p (varname_start v).

(** What is appended to the output, and the new state. *)
Lemma going_appended m m' v v' o o' md md' pre c rest p :
  going m v o md pre (c :: rest) -> appended m m' out (reading v p) v' o' ->
  forall i start, matches md' (Macros 0 0 0 0 i 0 start) (pre ++ [c]) ->
  going m' (Macros (input v') (inputcnt v') (output v') (outputcnt v') i (prev v') start) o' md' (pre ++ [c]) rest.
Proof.
  intros [G1 G2 G3 G4 G5 G6 G7] [A1 A2 A3 A4] i start M. rewrite A2. cbn [length] in G3.
  split; cbn [input inputcnt reading]; [|rewrite length_app; cbn; lia|lia| | | |done].
  - by rewrite <- app_assoc.
  - destruct A1. by split.
  - by destruct md'.
  - eapply only_buffers_trans; [done|]. intros q Hq _. apply A3. unfold CONFIG_SYS_CBSIZE in Hq. lia.
Qed.

Lemma going_quiet m v o md md' pre c rest p i start :
  going m v o md pre (c :: rest) -> matches md' (Macros 0 0 0 0 i 0 start) (pre ++ [c]) ->
  going m (Macros (input v + 1) (inputcnt v - 1) (output v) (outputcnt v) i p start) (take 256 (o ++ [])) md' (pre ++ [c]) rest.
Proof.
  intros G M. pose proof (go_out _ _ _ _ _ _ G) as W. rewrite app_nil_r, take_ge by apply W.
  refine (going_appended m m v (reading v p) o o md md' pre c rest p G _ i start M).
  split; [|done|done|apply (go_ok _ _ _ _ _ _ G)]. destruct W. by split.
Qed.

Lemma only_buffers_holds m : only_buffers (ram s) m out -> env_holds (with_ram s m) l.
Proof.
  intros F. pose proof L as [E _ _ Lo Ln _ _ _ _]. pose proof E as [E1 E2 [E3 Hl] E4].
  apply (env_holds_ram default_environment s s l l m E); [done|done| |done]. split; [|done].
  eapply text_at_same; [|exact E3]. intros q Hq. unfold off_block in *. apply F; unfold CONFIG_SYS_CBSIZE in *; lia.
Qed.

Lemma value_points m a raw : points_to m a (lookup_env (key raw) l) -> mem_ok m ->
  (forall v, lookup_env (key raw) l = Some v -> a <> NULL /\ cstr_at m a v) /\
  (lookup_env (key raw) l = None -> a = NULL).
Proof.
  intros Hp Ho. split; [intros v Hv|intros Hv]; rewrite Hv in Hp; cbn in Hp; [|done]. by destruct Hp.
Qed.

(** The name is copied to its buffer. *)
Lemma name_copied m v o raw a rest c :
  going m v o (Name raw) (a ++ raw) (c :: rest) ->
  let m1 := upd (copy_name m envname (inp + Z.of_nat (length a)) (length raw)) (envname + Z.of_nat (length raw)) 0 in
  cstr_at m1 envname raw /\ same_except m m1 envname 256 /\ mem_ok m1.
Proof.
  intros G m1. pose proof (going_txt _ _ _ _ _ _ G) as Ht. pose proof L as [_ _ Ll _ _ _ _ Ln _].
  pose proof (go_txt _ _ _ _ _ _ G) as Et. pose proof (f_equal length Et) as El. rewrite !length_app in El.
  cbn [length] in El. unfold CONFIG_SYS_CBSIZE in *.
  assert (m1 = store m envname (raw ++ [0])) as ->.
  { unfold m1. rewrite copy_name_spec by (intros q Hq; lia). rewrite Et, <- !app_assoc in Ht.
    pose proof Ht as [_ Hnz]. apply cstr_at_app_r in Ht. destruct Ht as [Hb _].
    apply (f_equal (take (length raw))) in Hb. rewrite take_bytes_at in Hb by (rewrite length_app; lia).
    rewrite <- app_assoc, take_app_length in Hb. rewrite Hb, store_app. done. }
  pose proof (cstr_chars _ _ _ (go_ok _ _ _ _ _ _ G) (going_txt _ _ _ _ _ _ G)) as Hc.
  rewrite Et, <- app_assoc, !Forall_app in Hc. destruct Hc as (_ & Hc & _).
  split_and!.
  - apply cstr_at_store. eapply Forall_impl; [exact Hc|]. unfold is_char. lia.
  - intros q Hq. apply store_outside. rewrite length_app. cbn [length]. lia.
  - apply mem_ok_store; [apply G|]. apply Forall_app. split; [|by repeat constructor].
    eapply Forall_impl; [exact Hc|]. unfold is_char, is_byte. lia.
Qed.

(** Writing the name leaves the rest as it is. *)
Lemma going_named m m1 v o md pre rest :
  going m v o md pre rest -> same_except m m1 envname 256 -> mem_ok m1 -> going m1 v o md pre rest.
Proof.
  intros [G1 G2 G3 [W1 W2 W3 W4] G5 G6 G7] H Ho. pose proof L as [_ _ _ _ _ La _ _ _]. unfold CONFIG_SYS_CBSIZE in La.
  split; try done.
  - split; try done. eapply text_at_same; [|exact W1]. intros q Hq. apply H. lia.
  - eapply only_buffers_trans; [exact G6|]. intros q _ Hq. apply H. unfold CONFIG_SYS_CBSIZE in Hq. lia.
Qed.

Lemma name_spec m v o raw a rest c p :
  going m v o (Name raw) (a ++ raw) (c :: rest) -> varname_start v = inp + Z.of_nat (length a) ->
  exists m' v',
    (let v := reading v p in
     let envcnt := input v - varname_start v - 1 in
     let m := copy_name m envname (varname_start v) (Z.to_nat envcnt) in
     let s := with_ram s (upd m (envname + Z.max envcnt 0) 0) in
     envval ← getenv default_environment fuel s envname;
     '(s, v) ← (if envval =? NULL then Some (s, v) else put_value fuel s v envval);
     Some (s, in_state v 0)) = Some (with_ram s m', v') /\
    going m' v' (take 256 (o ++ value l raw)) Plain ((a ++ raw) ++ [c]) rest.
Proof.
  intros G Hs. destruct (name_copied _ _ _ _ _ _ _ G) as (N1 & N2 & N3). cbn zeta.
  pose proof (go_in _ _ _ _ _ _ G) as Gi. rewrite length_app in Gi. 
  change (input (reading v p)) with (input v + 1). change (varname_start (reading v p)) with (varname_start v).
  replace (input v + 1 - varname_start v - 1) with (Z.of_nat (length raw)) by lia.
  rewrite Nat2Z.id, Z.max_l, Hs by lia. set (m1 := upd _ _ _) in *.
  assert (only_buffers (ram s) m1 out) as F1.
  { eapply only_buffers_trans; [apply G|]. intros q _ Hq. apply N2. unfold CONFIG_SYS_CBSIZE in Hq. lia. }
  pose proof (only_buffers_holds m1 F1) as E1.
  pose proof (going_named _ _ _ _ _ _ _ G N2 N3) as Gm.
  pose proof (go_txt _ _ _ _ _ _ G) as Et. pose proof (f_equal length Et) as El. rewrite !length_app in El.
  pose proof L as [_ _ Ll Lo _ _ _ _ _]. pose proof (eh_room _ _ _ E1) as Er. pose proof (proj2 (eh_text _ _ _ E1)) as Hl.
  unfold CONFIG_SYS_CBSIZE, off_block in *.
  destruct (getenv_at default_environment fuel (with_ram s m1) l envname raw E1 N1 ltac:(lia)) as (b & -> & Hp & Hb).
  cbn [mbind option_bind]. unfold value. change (ram (with_ram s m1)) with m1 in Hp.
  change (data_of (with_ram s m1)) with (data_of s) in Hb. pose proof Hfuel as Hfu. rewrite length_image in Hfu, Er by done.
  destruct (lookup_env (key raw) l) as [vv|]; cbn [points_to default] in *.
  - destruct Hp as [Hp Hn]. rewrite (proj2 (Z.eqb_neq b NULL)) by done. specialize (Hb _ eq_refl).
    destruct (put_value_spec fuel s m1 out (reading v p) o b vv) as (m2 & v2 & E & A).
    + destruct (go_out _ _ _ _ _ _ Gm). by split.
    + done.
    + done.
    + lia.
    + unfold CONFIG_SYS_CBSIZE. unfold ENV_SIZE, CONFIG_ENV_SIZE in *. lia.
    + rewrite E. exists m2, (in_state v2 0).
      split; [reflexivity|exact (going_appended _ _ _ _ _ _ _ Plain _ _ _ _ Gm A 0 (varname_start v2) eq_refl)].
  - rewrite Hp. change (NULL =? NULL) with true. cbv iota. eexists _, _. split; [reflexivity|].
    exact (going_quiet m1 v o _ Plain _ _ _ p 0 _ Gm eq_refl).
Qed.
(** A dollar that begins no variable is put out with what follows. *)
Lemma dollar_spec m v o pre c rest p :
  going m v o Dollar pre (c :: rest) -> (length o < 256)%nat ->
  exists m' v', (let '(s, v) := put (with_ram s m) (in_state (reading v p) 0) 36 in
      Some (if outputcnt v =? 0 then (s, v) else put s v c)) = Some (with_ram s m', v') /\
    going m' v' (take 256 (o ++ [36; c])) Plain (pre ++ [c]) rest.
Proof.
  intros G Hl. pose proof (go_ok _ _ _ _ _ _ G) as Ho.
  pose proof (going_char _ _ _ _ _ _ _ G) as [Hc Hz]. pose proof (Ho (input v)) as Hb. rewrite Hc in Hb.
  assert (written m out (reading v p) o) as W by (destruct (go_out _ _ _ _ _ _ G); by split).
  destruct (put_spec s m out (reading v p) o 36 W Hl ltac:(by unfold is_byte) Ho) as (m1 & v1 & E1 & A1).
  change (put (with_ram s m) (in_state (reading v p) 0) 36) with
    (let '(s, v) := put (with_ram s m) (reading v p) 36 in (s, in_state v 0)).
  rewrite E1. change (outputcnt (in_state v1 0)) with (outputcnt v1). pose proof (wr_cnt _ _ _ _ (ap_written _ _ _ _ _ _ A1)) as Hn.
  unfold CONFIG_SYS_CBSIZE in Hn. rewrite length_app in Hn. cbn [length] in Hn.
  change [36; c] with ([36] ++ [c]). rewrite app_assoc. destruct (Z.eqb_spec (outputcnt v1) 0) as [H0|H0].
  - eexists _, _. split; [reflexivity|].
    rewrite take_app_le, take_ge by (rewrite length_app; cbn; lia).
    exact (going_appended _ _ _ _ _ _ _ Plain _ _ _ _ G A1 0 (varname_start v1) eq_refl).
  - destruct (put_spec s m1 out v1 (o ++ [36]) c (ap_written _ _ _ _ _ _ A1)) as (m2 & v2 & E2 & A2);
      [rewrite length_app; cbn; lia|done|apply A1|].
    change (put (with_ram s m1) (in_state v1 0) c) with (let '(s, v) := put (with_ram s m1) v1 c in (s, in_state v 0)).
    rewrite E2. eexists _, _. split; [reflexivity|].
    rewrite take_ge by (rewrite !length_app; cbn; lia).
    exact (going_appended _ _ _ _ _ _ _ Plain _ _ _ _ G (appended_trans _ _ _ _ _ _ _ _ _ A1 A2) 0 (varname_start v2) eq_refl).
Qed.

Lemma macro_char_spec m v o md pre c rest p :
  going m v o md pre (c :: rest) -> (length o < 256)%nat ->
  exists m' v', macro_char default_environment envname fuel (with_ram s m) (reading v p) c = Some (with_ram s m', v') /\
    going m' v' (take 256 (o ++ (take_char (value l) md p c).1)) (take_char (value l) md p c).2 (pre ++ [c]) rest.
Proof.
  intros G Hl. pose proof (go_mode _ _ _ _ _ _ G) as M. pose proof (go_ok _ _ _ _ _ _ G) as Ho.
  pose proof (going_char _ _ _ _ _ _ _ G) as [Hc Hz]. pose proof (Ho (input v)) as Hb. rewrite Hc in Hb.
  assert (written m out (reading v p) o) as W by (destruct (go_out _ _ _ _ _ _ G); by split).
  unfold macro_char. change (state (reading v p)) with (state v). change (prev (reading v p)) with p.
  assert (forall i, matches md (Macros 0 0 0 0 i 0 (varname_start v)) (pre ++ [c]) -> i = state v ->
    exists m' v', Some (put (with_ram s m) (reading v p) c) = Some (with_ram s m', v') /\
    going m' v' (take 256 (o ++ [c])) md (pre ++ [c]) rest) as Hput.
  { intros i Mi ->. destruct (put_spec s m out (reading v p) o c W Hl Hb Ho) as (m' & v' & -> & A).
    eexists _, _. split; [reflexivity|]. pose proof (going_appended _ _ _ _ _ _ _ md _ _ _ _ G A _ _ Mi) as G'.
    rewrite take_ge by (rewrite length_app; cbn; lia). rewrite (ap_v _ _ _ _ _ _ A) in G' |- *. exact G'. }
  destruct md as [| |raw|]; cbn [matches take_char] in *.
  - rewrite M. cbn [Z.eqb Pos.eqb]. destruct (_ && _).
    { eexists _, _. split; [reflexivity|]. exact (going_quiet m v o _ Quoted _ _ _ p 3 _ G eq_refl). }
    destruct (_ && _).
    { eexists _, _. split; [reflexivity|]. exact (going_quiet m v o _ Dollar _ _ _ p 1 _ G eq_refl). }
    by apply (Hput 0).
  - rewrite M. cbn [Z.eqb Pos.eqb]. destruct (_ || _).
    { eexists _, _. split; [reflexivity|]. refine (going_quiet m v o _ (Name []) _ _ _ p 2 (input v + 1) G _).
      split; [done|]. exists (pre ++ [c]). rewrite app_nil_r, length_app, (go_in _ _ _ _ _ _ G). split; [done|cbn; lia]. }
    exact (dollar_spec m v o pre c rest p G Hl).
  - destruct M as [M (a & -> & Ms)]. rewrite M. cbn [Z.eqb Pos.eqb]. destruct (_ || _).
    + exact (name_spec m v o raw a rest c p G Ms).
    + eexists _, _. split; [reflexivity|]. refine (going_quiet m v o _ (Name (raw ++ [c])) _ _ _ p (state v) (varname_start v) G _).
      split; [done|]. exists a. by rewrite app_assoc.
  - rewrite M. cbn [Z.eqb Pos.eqb]. destruct (_ && _).
    { eexists _, _. split; [reflexivity|]. exact (going_quiet m v o _ Plain _ _ _ p 0 _ G eq_refl). }
    by apply (Hput 3).
Qed.

Lemma going_prev m v o md pre rest c : going m v o md pre rest -> going m (with_prev v c) o md pre rest.
Proof. intros [G1 G2 G3 [W1 W2 W3 W4] G5 G6 G7]. by split. Qed.

Lemma macro_step_spec m v o md pre c rest :
  going m v o md pre (c :: rest) -> (length o < 256)%nat ->
  exists m' v' go, macro_step default_environment envname fuel (with_ram s m) v = Some (with_ram s m', v', go) /\
    if go : bool then exists o' md' pre' rest',
      going m' v' (take 256 (o ++ o')) md' pre' rest' /\ (length rest' < length (c :: rest))%nat /\
      expand (value l) md (prev v) (c :: rest) = o' ++ expand (value l) md' (prev v') rest'
    else m' = m /\ expand (value l) md (prev v) (c :: rest) = [] /\ written m out v' o.
Proof.
  intros G Hl. pose proof (going_char _ _ _ _ _ _ _ G) as [Hc _]. unfold macro_step.
  assert ((state v =? 3) = is_quoted md) as Hq.
  { pose proof (go_mode _ _ _ _ _ _ G) as M. destruct md; cbn in M |- *;
      [by rewrite M|by rewrite M|destruct M as [M _]; by rewrite M|by rewrite M]. }
  change (ram (with_ram s m)) with m. cbn [state prev inputcnt input output outputcnt varname_start]. rewrite Hc, Hq. cbn [expand].
  destruct (negb (is_quoted md) && (c =? 92) && negb (prev v =? 92)) eqn:He.
  - pose proof (go_cnt _ _ _ _ _ _ G) as Hn. cbn [length] in Hn. destruct rest as [|d rest].
    { rewrite (proj2 (Z.eqb_eq (inputcnt v - 1) 0)) by (cbn in Hn; lia). eexists m, _, false. split; [reflexivity|].
      split_and!; [done|done|]. destruct (go_out _ _ _ _ _ _ G). by split. }
    rewrite (proj2 (Z.eqb_neq (inputcnt v - 1) 0)) by (cbn [length] in Hn; lia).
    apply andb_true_iff in He as [[_ ->%Z.eqb_eq]%andb_true_iff _].
    assert (going m (reading v 92) o (escaped md) (pre ++ [92]) (d :: rest)) as G1.
    { pose proof (going_quiet m v o _ (escaped md) _ _ _ 92 (state v) (varname_start v) G) as G1.
      rewrite app_nil_r, take_ge in G1 by (pose proof (wr_len _ _ _ _ (go_out _ _ _ _ _ _ G)); lia). apply G1.
      pose proof (go_mode _ _ _ _ _ _ G) as M. destruct md; cbn in M |- *; try done.
      destruct M as (M & a & -> & Ms). split; [done|]. exists a. by rewrite app_assoc. }
    pose proof (going_char _ _ _ _ _ _ _ G1) as [Hd _]. cbn [reading input] in Hd. rewrite Hd.
    destruct (macro_char_spec m (reading v 92) o _ _ d rest 92 G1 Hl) as (m' & v' & E & G').
    destruct (take_char (value l) (escaped md) 92 d) as [o' md'] eqn:Et. cbn [fst snd] in G'.
    unfold reading in E. cbn [input inputcnt output outputcnt state varname_start] in E. rewrite E.
    cbn [mbind option_bind]. eexists m', _, true. split; [reflexivity|].
    exists o', md', ((pre ++ [92]) ++ [d]), rest. split_and!; [by apply going_prev|cbn; lia|done].
  - destruct (macro_char_spec m v o md pre c rest (prev v) G Hl) as (m' & v' & E & G').
    destruct (take_char (value l) md (prev v) c) as [o' md'] eqn:Et. cbn [fst snd] in G'.
    unfold reading in E. rewrite E. cbn [mbind option_bind]. eexists m', _, true. split; [reflexivity|].
    exists o', md', (pre ++ [c]), rest. split_and!; [by apply going_prev|cbn; lia|done].
Qed.

Lemma take_take_app (n : nat) (x y : list Z) : take n (take n x ++ y) = take n (x ++ y).
Proof.
  destruct (decide (length x <= n)%nat).
  - by rewrite (take_ge x).
  - rewrite !take_app_le by (rewrite ?length_take; lia). rewrite take_take. f_equal. lia.
Qed.

Lemma macro_loop_spec n m v o md pre rest :
  going m v o md pre rest -> (length rest <= n)%nat ->
  exists m' v', macro_loop default_environment envname n fuel (with_ram s m) v = Some (with_ram s m', v') /\
    written m' out v' (take 256 (o ++ expand (value l) md (prev v) rest)) /\ only_buffers (ram s) m' out /\ mem_ok m'.
Proof.
  revert m v o md pre rest. induction n as [|n IH]; intros m v o md pre rest G Hn;
    pose proof (go_cnt _ _ _ _ _ _ G) as Hc; pose proof (go_out _ _ _ _ _ _ G) as W;
    pose proof (wr_cnt _ _ _ _ W) as Ho; pose proof (wr_len _ _ _ _ W) as Hl; unfold CONFIG_SYS_CBSIZE in *.
  - destruct rest; [|cbn in Hn; lia]. cbn [macro_loop]. rewrite Hc. cbn [length Z.of_nat Z.eqb orb expand].
    exists m, v. rewrite app_nil_r, take_ge by done. by destruct G.
  - cbn [macro_loop]. destruct (Z.eqb_spec (inputcnt v) 0) as [H0|H0]; cbn [orb].
    { destruct rest; [|cbn in Hc; lia]. exists m, v. cbn [expand]. rewrite app_nil_r, take_ge by done. by destruct G. }
    destruct (Z.eqb_spec (outputcnt v) 0) as [H1|H1].
    { exists m, v. rewrite take_app_le, take_ge by lia. by destruct G. }
    destruct rest as [|c rest]; [by rewrite Hc in H0|].
    destruct (macro_step_spec m v o md pre c rest G ltac:(lia)) as (m1 & v1 & go & -> & Hgo). cbn [mbind option_bind].
    destruct go.
    + destruct Hgo as (o' & md' & pre' & rest' & G1 & Hlt & ->).
      destruct (IH m1 v1 _ _ _ _ G1 ltac:(lia)) as (m2 & v2 & -> & W2 & F2). exists m2, v2. split; [done|]. split; [|done].
      by rewrite app_assoc, <- take_take_app.
    + destruct Hgo as (-> & -> & W1). exists m, v1. rewrite app_nil_r, take_ge by done. by destruct G.
Qed.
Lemma value_nonzero nm : Forall (fun c => c <> 0) (value l nm).
Proof.
  pose proof (proj2 (eh_text _ _ _ (lo_env _ _ _ _ _ L))) as Hl. unfold value. clear L Hfuel.
  induction Hl as [|e l' [He _] _ IH]; cbn; [done|]. destruct (defines _ e); [|done]. by apply Forall_drop.
Qed.

Lemma expand_nonzero md p t : Forall (fun c => c <> 0) t -> Forall (fun c => c <> 0) (expand (value l) md p t).
Proof.
  assert (forall md p c, c <> 0 -> Forall (fun c => c <> 0) (take_char (value l) md p c).1) as Hc.
  { intros md' p' c Hc. pose proof value_nonzero as V. destruct md'; cbn; repeat case_match; cbn; try apply V; by repeat constructor. }
  remember (length t) as n eqn:Hn. revert t md p Hn.
  induction n as [n IH] using lt_wf_ind; intros [|c t] md p -> Ht; cbn [expand]; [done|].
  apply Forall_cons in Ht as [Hc0 Ht]. destruct (_ && _).
  - destruct t as [|d t]; [done|]. apply Forall_cons in Ht as [Hd Ht].
    specialize (Hc (escaped md) c d Hd). destruct (take_char _ (escaped md) c d) as [o md'].
    apply Forall_app. split; [done|]. eapply IH; [|done|done]. cbn. lia.
  - specialize (Hc md p c Hc0). destruct (take_char _ md p c) as [o md'].
    apply Forall_app. split; [done|]. eapply IH; [|done|done]. cbn. lia.
Qed.

(** The end of the output. *)
Lemma written_end m v o : written m out v (take 256 o) -> Forall (fun c => c <> 0) o ->
  exists e, (if outputcnt v =? 0 then output v - 1 else output v) = out + Z.of_nat e /\ (e <= 255)%nat /\
    cstr_at (upd m (out + Z.of_nat e) 0) out (take 255 o).
Proof.
  intros [W1 W2 W3 W4] Hz. exists (length (take 255 o)). unfold CONFIG_SYS_CBSIZE in W3. rewrite length_take in *.
  split_and!.
  - destruct (Z.eqb_spec (outputcnt v) 0); lia.
  - lia.
  - unfold cstr_at. split; [|by apply Forall_take].
    replace (S (length (take 255 o))) with (length (take 255 o ++ [0])) by (rewrite length_app; cbn; lia).
    apply text_at_app. rewrite length_take. split.
    + rewrite <- (take_drop 255 (take 256 o)), take_take in W1. change (255 `min` 256)%nat with 255%nat in W1.
      apply text_at_app in W1 as [W1 _]. eapply text_at_same; [|exact W1].
      intros q Hq. rewrite length_take in Hq. apply upd_ne. lia.
    + apply text_at_cons. split; [apply upd_eq|done].
Qed.

Lemma process_macros_spec : exists m,
  process_macros default_environment envname fuel s inp out = Some (with_ram s m) /\
  cstr_at m out (take 255 (expand (value l) Plain 0 txt)) /\ only_buffers (ram s) m out /\ mem_ok m.
Proof.
  pose proof (lo_txt _ _ _ _ _ L) as Ht. pose proof (lo_len _ _ _ _ _ L) as Hn. unfold CONFIG_SYS_CBSIZE in Hn.
  unfold process_macros. rewrite (strlen_spec _ _ _ _ Ht) by lia. cbn [mbind option_bind].
  set (v := Macros _ _ _ _ _ _ _).
  assert (going (ram s) v [] Plain [] txt) as G.
  { split; try done; [cbn; lia| |apply (lo_ok _ _ _ _ _ L)].
    split; [done|cbn; lia|unfold v, CONFIG_SYS_CBSIZE; cbn; lia|cbn; lia]. }
  destruct (macro_loop_spec fuel (ram s) v [] Plain [] txt G ltac:(lia)) as (m & v' & E & W & F & Ho).
  cbn [app] in W. change (prev v) with 0 in W. rewrite with_ram_same in E. rewrite E. cbn [mbind option_bind].
  destruct (written_end m v' _ W (expand_nonzero Plain 0 txt (proj2 Ht))) as (e & -> & He & Hc).
  eexists. split; [reflexivity|]. split; [exact Hc|]. split.
  - eapply only_buffers_trans; [exact F|]. intros q Hq _. apply upd_ne. unfold CONFIG_SYS_CBSIZE in Hq. lia.
  - by apply mem_ok_upd.
Qed.
End Over.

(** C10: [process_macros] returns, and leaves at [out] the first 255 characters
    of the expansion of the text, with the values of the variables from the
    environment; it writes only the output and the buffer for names. *)
Theorem process_macros_expands fuel s l inp out txt :
  laid_out s l inp out txt -> (length (image l) + 256 < fuel)%nat ->
  exists m, process_macros default_environment envname fuel s inp out = Some (with_ram s m) /\
    cstr_at m out (take 255 (expand (value l) Plain 0 txt)) /\ only_buffers (ram s) m out.
Proof.
  intros L Hf. destruct (process_macros_spec s l inp out txt fuel L Hf) as (m & E & Hc & F & _). by exists m.
Qed.
End Macros_.

(** ** What a command line does *)

(** The commands of a line; [prev] is the byte before it. *)
Fixpoint pieces (prev : Z) (first inquotes : bool) (s : list Z) : list (list Z) :=
  match s with
  | [] => if first then [] else [[]]
  | c :: t =>
      let inquotes := if (c =? 39) && negb (prev =? 92) then negb inquotes else inquotes in
      if negb inquotes && (c =? 59) && negb first && negb (prev =? 92) then [] :: pieces 0 true false t
      else match pieces c false inquotes t with p :: ps => (c :: p) :: ps | [] => [[c]] end
  end.

Fixpoint first_piece (prev : Z) (first inquotes : bool) (s : list Z) : list Z :=
  match s with
  | [] => []
  | c :: t =>
      let inquotes := if (c =? 39) && negb (prev =? 92) then negb inquotes else inquotes in
      if negb inquotes && (c =? 59) && negb first && negb (prev =? 92) then []
      else c :: first_piece c false inquotes t
  end.

Lemma pieces_first prev first inq s : s <> [] \/ first = false ->
  pieces prev first inq s =
  first_piece prev first inq s :: pieces 0 true false (drop (S (length (first_piece prev first inq s))) s).
Proof.
  revert prev first inq. induction s as [|c s IH]; intros prev first inq H; cbn [pieces first_piece].
  - by destruct H as [?| ->].
  - destruct (_ && _); [done|]. rewrite IH by (by right). done.
Qed.

Lemma first_piece_split prev first inq s : exists r, s = first_piece prev first inq s ++ r /\
  (r = [] \/ exists t, r = 59 :: t) /\ (first = true -> s <> [] -> first_piece prev first inq s <> []).
Proof.
  revert prev first inq. induction s as [|c s IH]; intros prev first inq; cbn [first_piece]; [exists []; by split_and!; try left|].
  set (inq' := if (c =? 39) && negb (prev =? 92) then negb inq else inq). destruct (negb inq' && (c =? 59) && negb first && negb (prev =? 92)) eqn:E.
  - exists (c :: s). split; [done|]. apply andb_true_iff in E as [ [ [_ E]%andb_true_iff Ef]%andb_true_iff _].
    apply Z.eqb_eq in E as ->. split; [right; by exists s|]. by intros ->.
  - destruct (IH c false inq') as (r & Hr & Hr' & _). exists r. split; [|by split].
    cbn [app]. by rewrite <- Hr.
Qed.

Lemma find_sep_spec fuel m str sep inq s :
  cstr_at m sep s -> (length s < fuel)%nat -> str <= sep ->
  find_sep fuel m str sep inq = Some (sep + Z.of_nat (length (first_piece (m (sep - 1)) (sep =? str) inq s))).
Proof.
  revert fuel sep inq. induction s as [|c s IH]; intros [|fuel] sep inq Hs Hf Hle; cbn [length] in Hf; try lia;
    cbn [find_sep first_piece].
  - apply cstr_at_nil in Hs. rewrite Hs. f_equal. cbn. lia.
  - apply cstr_at_cons in Hs as (Hc & Hz & Hs). rewrite Hc, (proj2 (Z.eqb_neq c 0)) by done.
    destruct (_ && _); [f_equal; cbn; lia|]. rewrite (IH fuel (sep + 1)) by (done || lia).
    replace (sep + 1 - 1) with sep by lia. rewrite Hc, (proj2 (Z.eqb_neq (sep + 1) str)) by lia. f_equal. cbn [length]. lia.
Qed.

Section Script.
Context {X : Type} (default_environment cmdbuf finaltoken envname : Z).
Context (table : list (cmd_tbl_t * list Z)) (do_bootd : Z).
Context (exec : cmd_tbl_t -> env_state X -> Z -> Z -> list Z -> option (env_state X * Z)).
Context (clear_ctrlc : X -> X) (had_ctrlc : X -> bool) (fuel : nat).
Abbreviation data_of := (data_of default_environment).
Abbreviation env_holds := (env_holds default_environment).
Implicit Type s : env_state X.

(** The variables and the rest. *)
Abbreviation world := (list (list Z) * X)%type.
Implicit Type w : world.

(** The calls that are known to come back, and what these do: flags,
    arguments, before, result, after. *)
Context (tame : cmd_tbl_t -> list (list Z) -> bool).
Context (does : cmd_tbl_t -> Z -> list (list Z) -> world -> Z -> world -> Prop).

(** The words of one command, after the variables are replaced. *)
Definition arguments (l : list (list Z)) (t : list Z) : list (list Z) :=
  take 16 (words (take 255 (expand (value l) Plain 0 t))).

(** The entry that is called, with the flags it gets. *)
Definition chosen (flag : Z) (args : list (list Z)) : option (cmd_tbl_t * Z) :=
  match args with
  | [] => None
  | a :: _ =>
      match lookup_cmd (stem a) [] table with
      | None => None
      | Some c =>
          if maxargs c <? Z.of_nat (length args) then None
          else if cmd c =? do_bootd then
            if negb (Z.land flag CMD_FLAG_BOOTD =? 0) then None else Some (c, Z.lor flag CMD_FLAG_BOOTD)
          else Some (c, flag)
      end
  end.

(** How a line ends: with a result, or in the call of a command that is not
    known to come back. *)
Inductive ending := Ended (r : Z) (w : world) | Called (c : cmd_tbl_t) (flag : Z) (args : list (list Z)) (w : world).

(** The commands one after the other; a command that is not found, or fails,
    makes the result -1 and does not end the line; an interrupt does. *)
Inductive runs : list (list Z) -> Z -> Z -> Z -> world -> ending -> Prop :=
| runs_end flag rep rc w : runs [] flag rep rc w (Ended (if rc =? 0 then rep else rc) w)
| runs_refused t ts flag rep rc w e :
    chosen flag (arguments w.1 t) = None -> runs ts flag rep (-1) w e -> runs (t :: ts) flag rep rc w e
| runs_called t ts flag rep rc w c flag1 :
    chosen flag (arguments w.1 t) = Some (c, flag1) -> tame c (arguments w.1 t) = false ->
    runs (t :: ts) flag rep rc w (Called c flag1 (arguments w.1 t) w)
| runs_interrupted t ts flag rep rc w c flag1 ret w1 :
    chosen flag (arguments w.1 t) = Some (c, flag1) -> tame c (arguments w.1 t) = true ->
    does c flag1 (arguments w.1 t) w ret w1 ->
    had_ctrlc w1.2 = true -> runs (t :: ts) flag rep rc w (Ended (-1) w1)
| runs_executed t ts flag rep rc w c flag1 ret w1 e :
    chosen flag (arguments w.1 t) = Some (c, flag1) -> tame c (arguments w.1 t) = true ->
    does c flag1 (arguments w.1 t) w ret w1 ->
    had_ctrlc w1.2 = false ->
    runs ts flag1 (Z.land rep (repeatable c)) (if ret =? 0 then rc else -1) w1 e ->
    runs (t :: ts) flag rep rc w e.

Definition off_buffers (p n : Z) : Prop :=
  Forall (fun b => b + CONFIG_SYS_CBSIZE <= p \/ p + n <= b) [cmdbuf; finaltoken; envname].

(** The environment, the buffers and the names of the commands are apart. *)
Record ready s (l : list (list Z)) : Prop := {
  rd_env : env_holds s l;
  rd_ok : mem_ok (ram s);
  rd_block : Forall (fun b => off_block default_environment s b CONFIG_SYS_CBSIZE) [cmdbuf; finaltoken; envname];
  rd_names : Forall (fun e => named (ram s) e /\ (length e.2 < fuel)%nat /\
                              off_buffers (name e.1) (Z.of_nat (length e.2) + 1) /\
                              off_block default_environment s (name e.1) (Z.of_nat (length e.2) + 1)) table
}.

Hypothesis buffers_apart :
  (cmdbuf + CONFIG_SYS_CBSIZE <= finaltoken \/ finaltoken + CONFIG_SYS_CBSIZE <= cmdbuf) /\
  (cmdbuf + CONFIG_SYS_CBSIZE <= envname \/ envname + CONFIG_SYS_CBSIZE <= cmdbuf) /\
  (finaltoken + CONFIG_SYS_CBSIZE <= envname \/ envname + CONFIG_SYS_CBSIZE <= finaltoken).
Hypothesis finaltoken_pos : 0 < finaltoken.
Hypothesis enough_fuel : ENV_SIZE + 256 < Z.of_nat fuel.

(** The words of a call are in [finaltoken]. *)
Definition called_with s (argv : list Z) (args : list (list Z)) : Prop :=
  (length args <= 16)%nat /\ Forall2 (word_in (ram s) finaltoken 255) (take (length args) argv) args.

(** The tame calls come back, leave [run_command]'s copy of the line and what
    it relies on alone, and do what [does] says; of the others nothing is
    assumed. *)
Hypothesis exec_does : forall c s l flag argv args,
  tame c args = true -> ready s l -> called_with s argv args ->
  exists s' l' ret, exec c s flag (Z.of_nat (length args)) argv = Some (s', ret) /\ ready s' l' /\
    same_on (ram s) (ram s') cmdbuf (Z.to_nat CONFIG_SYS_CBSIZE) /\
    does c flag args (l, console s) ret (l', console s').

Lemma ready_ram s l m : ready s l -> mem_ok m -> (forall q, off_buffers q 1 -> m q = ram s q) -> ready (with_ram s m) l.
Proof.
  intros [E O B N] Ho Hm. split; [| done|done|].
  - pose proof E as [E1 E2 [E3 Hl] E4]. apply (env_holds_ram default_environment s s l l m E); [done|done| |done].
    split; [|done]. eapply text_at_same; [|exact E3]. intros q Hq. apply Hm.
    eapply Forall_impl; [exact B|]. unfold off_block, CONFIG_SYS_CBSIZE. cbn beta. intros b Hb. lia.
  - eapply Forall_impl; [exact N|]. intros [c n] (Hn & Hf & Hoff & Hblk). split_and!; [|done|done|done].
    eapply cstr_at_ext; [|exact Hn]. intros q Hq. apply Hm. eapply Forall_impl; [exact Hoff|].
    cbn beta. cbn in Hq |- *. intros b Hb. lia.
Qed.

Lemma expand_line s l str t :
  ready s l -> cstr_at (ram s) str t -> cmdbuf <= str -> str + Z.of_nat (length t) < cmdbuf + CONFIG_SYS_CBSIZE ->
  exists m, process_macros default_environment envname fuel s str finaltoken = Some (with_ram s m) /\
    cstr_at m finaltoken (take 255 (expand (value l) Plain 0 t)) /\ only_buffers envname (ram s) m finaltoken /\ mem_ok m.
Proof.
  intros [E O B N] Ht Hlo Hhi. pose proof (eh_room _ _ _ E) as Hr. apply (process_macros_spec _ _ s l); [|lia].
  rewrite !Forall_cons in B. destruct B as (_ & B2 & B3 & _). unfold CONFIG_SYS_CBSIZE in *.
  split; try done; unfold CONFIG_SYS_CBSIZE; lia.
Qed.

(** The line is expanded and cut into words. *)
Lemma words_ready s l str t :
  ready s l -> cstr_at (ram s) str t -> cmdbuf <= str -> str + Z.of_nat (length t) < cmdbuf + CONFIG_SYS_CBSIZE ->
  exists m m' argv line, process_macros default_environment envname fuel s str finaltoken = Some (with_ram s m) /\
    parse_line fuel m finaltoken = Some (m', argv ++ (if complete 16 line then [NULL] else []), Z.of_nat (length argv)) /\
    Forall2 (word_in m' finaltoken 255) argv (arguments l t) /\
    same_on (ram s) m' cmdbuf (Z.to_nat CONFIG_SYS_CBSIZE) /\ ready (with_ram s m') l.
Proof.
  intros R Ht Hlo Hhi. destruct (expand_line s l str t R Ht Hlo Hhi) as (m & E & Hc & F & Ho).
  set (line := take 255 _) in Hc. assert (length line <= 255)%nat as Hlen by (unfold line; rewrite length_take; lia).
  assert (length line < fuel)%nat as Hlf by (unfold ENV_SIZE, CONFIG_ENV_SIZE in *; lia).
  destruct (parse_args_spec 16 fuel m finaltoken line Ho Hc Hlf) as (m' & argv & Ep & HF & Hx & Ho').
  exists m, m', argv, line. split_and!; [exact E|exact Ep| | |].
  - eapply Forall2_impl; [exact HF|]. intros a w (? & ? & ?). split; [done|lia].
  - intros q Hq. unfold CONFIG_SYS_CBSIZE in *. rewrite Hx by lia. apply F; unfold CONFIG_SYS_CBSIZE; lia.
  - apply ready_ram; [done|done|]. intros q Hq. unfold off_buffers in Hq. rewrite !Forall_cons in Hq.
    unfold CONFIG_SYS_CBSIZE in *. rewrite Hx by lia. apply F; unfold CONFIG_SYS_CBSIZE; lia.
Qed.

(** One command: refused, or its entry is called with its words. *)
Lemma run_one_spec s l str t flag :
  ready s l -> cstr_at (ram s) str t -> cmdbuf <= str -> str + Z.of_nat (length t) < cmdbuf + CONFIG_SYS_CBSIZE ->
  exists s1 argv, ready s1 l /\ console s1 = console s /\ same_on (ram s) (ram s1) cmdbuf (Z.to_nat CONFIG_SYS_CBSIZE) /\
    called_with s1 argv (arguments l t) /\
    run_one default_environment finaltoken envname table.*1 do_bootd exec fuel s str flag =
    match chosen flag (arguments l t) with
    | None => Some (s1, flag, Refused)
    | Some (c, flag1) =>
        '(s', ret) ← exec c s1 flag1 (Z.of_nat (length (arguments l t))) argv; Some (s', flag1, Executed ret (repeatable c))
    end.
Proof.
  intros R Ht Hlo Hhi. destruct (words_ready s l str t R Ht Hlo Hhi) as (m & m' & argv & line & E & Ep & HF & Hs & R').
  set (end' := if complete 16 line then [NULL] else []) in *.
  exists (with_ram s m'), (argv ++ end'). split; [exact R'|]. split; [done|]. split; [exact Hs|].
  pose proof (Forall2_length _ _ _ HF) as HL. split.
  { split; [unfold arguments; rewrite length_take; lia|]. rewrite <- HL, take_app_length. exact HF. }
  unfold run_one. rewrite E. cbn [mbind option_bind]. change (ram (with_ram s m)) with m. rewrite Ep. cbn [mbind option_bind].
  change (with_ram (with_ram s m) m') with (with_ram s m').
  destruct argv as [|a argv], (arguments l t) as [|w args] eqn:Ea; try done; cbn [chosen] in *.
  rewrite (proj2 (Z.eqb_neq (Z.of_nat (length (a :: argv))) 0)) by (cbn; lia).
  pose proof HF as [(Ha & Ha1 & Ha2) _]%Forall2_cons. change (hd NULL ((a :: argv) ++ end')) with a.
  rewrite (find_cmd_spec fuel m' a w table (rd_ok _ _ R') Ha) by
    (first [unfold ENV_SIZE, CONFIG_ENV_SIZE in *; lia | eapply Forall_impl; [apply (rd_names _ _ R')|]; by intros e (? & ? & _)]).
  cbn [mbind option_bind]. destruct (lookup_cmd (stem w) [] table) as [c|]; [|done].
  rewrite HL. set (args' := w :: args) in *. destruct (maxargs c <? _); [done|].
  destruct (cmd c =? do_bootd); cbn [andb]; [|done]. by destruct (negb _).
Qed.

(** Finding the end of a command and terminating it there. *)
Lemma cut_piece s l str rest :
  ready s l -> cstr_at (ram s) str rest -> rest <> [] -> cmdbuf <= str ->
  str + Z.of_nat (length rest) < cmdbuf + CONFIG_SYS_CBSIZE ->
  let p := first_piece (ram s (str - 1)) true false rest in
  exists s1 next, find_sep fuel (ram s) str str false = Some (str + Z.of_nat (length p)) /\
    (if ram s (str + Z.of_nat (length p)) =? 0 then (s, str + Z.of_nat (length p))
     else (with_ram s (upd (ram s) (str + Z.of_nat (length p)) 0), str + Z.of_nat (length p) + 1)) = (s1, next) /\
    ready s1 l /\ console s1 = console s /\ cstr_at (ram s1) str p /\ p <> [] /\
    cstr_at (ram s1) next (drop (S (length p)) rest) /\ str < next /\
    next + Z.of_nat (length (drop (S (length p)) rest)) <= str + Z.of_nat (length rest) /\
    (drop (S (length p)) rest = [] \/ ram s1 (next - 1) = 0) /\ (length (drop (S (length p)) rest) < length rest)%nat.
Proof.
  intros R Hs Hne Hlo Hhi p. unfold CONFIG_SYS_CBSIZE in Hhi.
  assert (length rest < fuel)%nat as Hf by (unfold ENV_SIZE, CONFIG_ENV_SIZE in *; lia).
  rewrite (find_sep_spec fuel (ram s) str str false rest Hs Hf) by lia. rewrite Z.eqb_refl. fold p.
  destruct (first_piece_split (ram s (str - 1)) true false rest) as (r & Hr & Hcase & Hp). fold p in Hr, Hp.
  specialize (Hp eq_refl Hne). assert (0 < length p)%nat as Hp0 by (destruct p; [done|cbn; lia]). rewrite Hr in Hs. pose proof (cstr_at_app_r _ _ _ _ Hs) as Hrest.
  destruct Hcase as [->|[t ->]].
  - rewrite app_nil_r in Hr, Hs. apply cstr_at_nil in Hrest. rewrite Hrest. cbn [Z.eqb].
    exists s, (str + Z.of_nat (length p)). rewrite Hr, drop_ge by lia.
    split_and!; first [done|by apply cstr_at_nil|by left|cbn; lia].
  - pose proof Hrest as (-> & _ & _)%cstr_at_cons. cbn [Z.eqb]. eexists _, _. split; [done|]. split; [reflexivity|].
    destruct (cstr_cut _ _ _ _ _ Hs) as [C1 C2]. rewrite Hr, drop_app_ge, length_app by lia. cbn [length].
    replace (S (length p) - length p)%nat with 1%nat by lia. change (drop 1 (59 :: t)) with t.
    rewrite Hr, length_app in Hhi. cbn [length] in Hhi. split_and!; try done; try lia.
    + apply ready_ram; [done|apply mem_ok_upd; [apply R|done]|]. intros q Hq. apply upd_ne.
      unfold off_buffers, CONFIG_SYS_CBSIZE in Hq. rewrite !Forall_cons in Hq. lia.
    + right. change (upd (ram s) (str + Z.of_nat (length p)) 0 (str + Z.of_nat (length p) + 1 - 1) = 0).
      rewrite Z.add_simpl_r. apply upd_eq.
Qed.

(** What [run_command] does at the end [e]: it returns, or it calls the
    command there, with the words in [argv]; if that does not come back then
    neither does it. *)
Definition ends (res : option (env_state X * Z)) (e : ending) : Prop :=
  match e with
  | Ended r w => exists s', res = Some (s', r) /\ w.2 = console s' /\ ready s' w.1
  | Called c flag args w =>
      exists s1 argv, ready s1 w.1 /\ console s1 = w.2 /\ called_with s1 argv args /\
        (exec c s1 flag (Z.of_nat (length args)) argv = None -> res = None)
  end.

Lemma run_loop_spec n s l str flag rep rc rest :
  ready s l -> cstr_at (ram s) str rest -> cmdbuf <= str ->
  str + Z.of_nat (length rest) < cmdbuf + CONFIG_SYS_CBSIZE -> (length rest <= n)%nat ->
  exists e, runs (pieces (ram s (str - 1)) true false rest) flag rep rc (l, console s) e /\
    ends (run_loop default_environment finaltoken envname table.*1 do_bootd exec had_ctrlc n fuel s str flag rep rc) e.
Proof.
  revert s l str flag rep rc rest. induction n as [|n IH]; intros s l str flag rep rc rest R Hs Hlo Hhi Hn.
  { destruct rest; [|cbn in Hn; lia]. apply cstr_at_nil in Hs. cbn [run_loop]. rewrite Hs. cbn [Z.eqb].
    eexists. split; [constructor|]. by exists s. }
  cbn [run_loop]. destruct rest as [|c rest'] eqn:Er.
  { apply cstr_at_nil in Hs. rewrite Hs. cbn [Z.eqb]. eexists. split; [constructor|]. by exists s. }
  pose proof Hs as (Hc & Hz & _)%cstr_at_cons. rewrite Hc, (proj2 (Z.eqb_neq c 0)) by done. rewrite <- Er in *.
  destruct (cut_piece s l str rest R Hs ltac:(by subst) Hlo Hhi) as
    (s1 & next & -> & E1 & R1 & X1 & C1 & P1 & C2 & L1 & L2 & L3 & L4).
  rewrite pieces_first by (left; by subst). set (p := first_piece _ _ _ _) in *.
  cbn [mbind option_bind]. rewrite E1. unfold CONFIG_SYS_CBSIZE in *.
  pose proof (f_equal length (take_drop (length p) rest)) as Hlen. rewrite length_app, length_take, length_drop in Hlen.
  assert (length p <= length rest)%nat as Hp.
  { destruct (first_piece_split (ram s (str - 1)) true false rest) as (r & Hr & _). rewrite Hr, length_app. unfold p. lia. }
  destruct (run_one_spec s1 l str p flag R1 C1 Hlo ltac:(unfold CONFIG_SYS_CBSIZE; lia)) as
    (s2 & argv & R2 & X2 & S2 & W2 & ->).
  assert (forall s3, same_on (ram s1) (ram s3) cmdbuf (Z.to_nat CONFIG_SYS_CBSIZE) ->
    cstr_at (ram s3) next (drop (S (length p)) rest) /\
    pieces 0 true false (drop (S (length p)) rest) = pieces (ram s3 (next - 1)) true false (drop (S (length p)) rest)) as Hnext.
  { intros s3 S3. split.
    - eapply cstr_at_ext; [|exact C2]. intros q Hq. apply S3. unfold CONFIG_SYS_CBSIZE. lia.
    - destruct L3 as [->|L3]; [done|]. rewrite S3, L3 by (unfold CONFIG_SYS_CBSIZE; lia). done. }
  assert (next + Z.of_nat (length (drop (S (length p)) rest)) < cmdbuf + CONFIG_SYS_CBSIZE) as Hhi' by (unfold CONFIG_SYS_CBSIZE; lia).
  rewrite <- X1, <- X2. destruct (chosen flag (arguments l p)) as [ [c' flag1]|] eqn:Ech; cbn [mbind option_bind].
  - destruct (tame c' (arguments l p)) eqn:Et; cycle 1.
    { eexists. split; [by eapply runs_called|]. exists s2, argv. split; [done|]. split; [done|]. split; [done|]. cbn [fst]. intros Hx. by rewrite Hx. }
    destruct (exec_does c' s2 l flag1 argv (arguments l p) Et R2 W2) as (s3 & l3 & ret & Ex & R3 & S3 & D).
    cbn [fst snd] in Ex |- *. rewrite Ex. cbn [mbind option_bind].
    destruct (had_ctrlc (console s3)) eqn:Hi.
    { eexists. split; [by eapply runs_interrupted|]. by exists s3. }
    destruct (Hnext s3) as [C3 E3]; [by eapply same_on_trans|].
    destruct (IH s3 l3 next flag1 (Z.land rep (repeatable c')) (if ret =? 0 then rc else -1) _ R3 C3) as (e & E4 & D4);
      [lia|done|lia|]. exists e. split; [|exact D4]. rewrite E3. by eapply runs_executed.
  - destruct (Hnext s2 S2) as [C3 E3].
    destruct (IH s2 l next flag rep (-1) _ R2 C3) as (e & E4 & D4); [lia|done|lia|].
    exists e. split; [|exact D4]. rewrite E3. by apply runs_refused.
Qed.

Lemma ready_console s l x : ready s l -> ready (with_console s x) l.
Proof. intros [[E1 E2 E3 E4] O B N]. by split. Qed.

(** The copy of the line. *)
Lemma line_copied s l p cs :
  ready s l -> cstr_at (ram s) p cs -> p + Z.of_nat (length cs) < cmdbuf \/ cmdbuf + CONFIG_SYS_CBSIZE <= p ->
  Z.of_nat (length cs) < CONFIG_SYS_CBSIZE -> (length cs < fuel)%nat ->
  exists m, strcpy fuel (ram s) cmdbuf p = Some m /\ cstr_at m cmdbuf cs /\ ready (with_ram s m) l /\
    m (cmdbuf - 1) = ram s (cmdbuf - 1).
Proof.
  unfold CONFIG_SYS_CBSIZE. intros R Hp Hd Hl Hf. destruct (strcpy_spec fuel (ram s) cmdbuf p cs Hp Hf) as (m & E & Hc & Hx); [lia|].
  exists m. split_and!; [exact E|exact Hc| |apply Hx; lia].
  pose proof (cstr_chars _ _ _ (rd_ok _ _ R) Hp) as Hch. apply ready_ram; [done| |].
  - intros q. destruct (decide (cmdbuf <= q < cmdbuf + Z.of_nat (S (length cs)))) as [Hq|Hq]; [|rewrite Hx by done; apply R].
    destruct Hc as [Hc _]. apply (f_equal (fun x => x !! Z.to_nat (q - cmdbuf))) in Hc.
    rewrite bytes_at_lookup in Hc by lia. replace (cmdbuf + Z.of_nat (Z.to_nat (q - cmdbuf))) with q in Hc by lia.
    symmetry in Hc. apply list_elem_of_lookup_2 in Hc. apply elem_of_app in Hc as [Hc| ->%list_elem_of_singleton]; [|done].
    rewrite Forall_forall in Hch. specialize (Hch _ Hc). unfold is_char in Hch. unfold is_byte. lia.
  - intros q Hq. unfold off_buffers, CONFIG_SYS_CBSIZE in Hq. rewrite !Forall_cons in Hq. apply Hx. lia.
Qed.

End Script.

(** ** [setenv] as a command *)

Section Setting.
Context {X : Type} (console_assign : X -> mem -> Z -> Z -> X * Z) (switch_line : X -> Z -> option X).
Context (default_environment cmdbuf finaltoken envname : Z).
Context (table : list (cmd_tbl_t * list Z)) (setenv_cmd : Z).
Context (others : cmd_tbl_t -> env_state X -> Z -> Z -> list Z -> option (env_state X * Z)) (fuel : nat).
Abbreviation ready := (ready default_environment cmdbuf finaltoken envname table fuel).
Implicit Type s : env_state X.

(** The entries with [setenv_cmd] call [do_setenv]. *)
Definition call_setenv (c : cmd_tbl_t) (s : env_state X) (flag argc : Z) (argv : list Z) : option (env_state X * Z) :=
  if cmd c =? setenv_cmd
  then do_setenv console_assign switch_line default_environment fuel s (take (Z.to_nat argc - 1) (tl argv))
  else others c s flag argc argv.

(** The names that concern no device. *)
Definition plain_setenv (c : cmd_tbl_t) (args : list (list Z)) : bool :=
  (cmd c =? setenv_cmd) &&
  match args with
  | _ :: nm :: _ =>
      negb (existsb (Z.eqb 61) nm) && negb (bool_decide (nm ∈ [n_stdin; n_stdout; n_stderr; n_baudrate]))
  | _ => true
  end.

(** What it does to the variables. *)
Definition setenv_does (_ : cmd_tbl_t) (_ : Z) (args : list (list Z)) (w : list (list Z) * X) (r : Z) (w' : list (list Z) * X) : Prop :=
  match args with
  | _ :: nm :: vs =>
      let l1 := remove_env nm w.1 in
      let l2 := l1 ++ [nm ++ joined 61 vs] in
      if bool_decide (vs = []) then w'.1 = l1 /\ r = 0
      else if Z.of_nat (length (image l2)) <=? ENV_SIZE then w'.1 = l2 /\ r = 0
      else w'.1 = l1 /\ r = 1
  | _ => w' = w /\ r = 1
  end.

Hypothesis enough_fuel : ENV_SIZE + 4096 < Z.of_nat fuel.
Hypothesis finaltoken_pos : 0 < finaltoken.

Lemma length_joined_bound n sep vs :
  Forall (fun v => Z.of_nat (length v) <= n) vs -> Z.of_nat (length (joined sep vs)) <= Z.of_nat (length vs) * (n + 1).
Proof.
  intros H. revert sep. induction H as [|v vs Hv _ IH]; intros sep; cbn [joined length]; [lia|].
  rewrite length_app. specialize (IH 32). lia.
Qed.

Lemma words_args s l ps args :
  ready s l -> Forall2 (word_in (ram s) finaltoken 255) ps args ->
  args_at (ram s) (data_of default_environment s) ps args.
Proof.
  intros R. pose proof (rd_block _ _ _ _ _ _ _ _ R) as B. rewrite !Forall_cons in B. destruct B as (_ & B & _).
  pose proof (eh_null _ _ _ (rd_env _ _ _ _ _ _ _ _ R)). unfold off_block, CONFIG_SYS_CBSIZE in B.
  intros HF. eapply Forall2_impl; [exact HF|]. intros a w (Ha & H1 & H2). split; [done|]. lia.
Qed.

Lemma ready_block_only s s' l l' :
  ready s l -> block_only default_environment s s' -> mem_ok (ram s') -> env_holds default_environment s' l' -> ready s' l'.
Proof.
  intros [E O B N] (D & _ & F) O' E'. pose proof D as D'. unfold off_block in *. split; [done|done| |].
  - unfold off_block. by rewrite D.
  - eapply Forall_impl; [exact N|]. intros [c n] (Hn & Hf & Ho & Hb). unfold off_block in *. rewrite D.
    split_and!; [|done|done|done]. eapply cstr_at_ext; [|exact Hn]. intros q Hq. apply F. cbn in Hb, Hq. lia.
Qed.

(** A [setenv] of such a name is a tame call. *)
Lemma call_setenv_does c s l flag argv args :
  plain_setenv c args = true -> ready s l -> called_with finaltoken s argv args ->
  exists s' l' ret, call_setenv c s flag (Z.of_nat (length args)) argv = Some (s', ret) /\ ready s' l' /\
    same_on (ram s) (ram s') cmdbuf (Z.to_nat CONFIG_SYS_CBSIZE) /\
    setenv_does c flag args (l, console s) ret (l', console s').
Proof.
  intros [Hc Hp]%andb_true_iff R [H16 HF]. unfold call_setenv. rewrite Hc, Nat2Z.id.
  assert (same_on (ram s) (ram s) cmdbuf (Z.to_nat CONFIG_SYS_CBSIZE)) as Hsame by done.
  destruct args as [|a0 [|nm vs]]; [by exists s, l, 1| |].
  { cbn [length]. replace (take (1 - 1) (tl argv)) with (@nil Z) by done. by exists s, l, 1. }
  destruct argv as [|p0 argv]; [by apply Forall2_nil_inv_l in HF|]. cbn [length take tl Nat.sub] in *.
  apply Forall2_cons in HF as [_ HF]. destruct argv as [|p argv]; [by apply Forall2_nil_inv_l in HF|]. cbn [take] in *.
  pose proof (words_args s l _ _ R HF) as Ha.
  apply andb_true_iff in Hp as [Hn%negb_true_iff Hr%negb_true_iff%bool_decide_eq_false].
  assert (is_name nm) as Hname.
  { apply Forall2_cons in Ha as [[[_ Hz] _] _]. split; [exact Hz|]. intros Hi. apply Bool.not_true_iff_false in Hn.
    apply Hn, existsb_exists. by exists 61. }
  assert (Z.of_nat (length nm + length (joined 61 vs)) <= 16 * 256) as Hlen.
  { assert (Forall (fun v => Z.of_nat (length v) <= 255) (nm :: vs)) as Hall.
    { apply Forall_forall. intros v [i Hi]%list_elem_of_lookup.
      destruct (Forall2_lookup_r _ _ _ _ _ HF Hi) as (q & _ & _ & H1 & H2). lia. }
    apply Forall_cons in Hall as [H1 H2]. apply (length_joined_bound 255 61) in H2. lia. }
  destruct (setenv_spec console_assign switch_line default_environment fuel s l p nm (take (length vs) argv) vs
    (rd_env _ _ _ _ _ _ _ _ R) Hname Hr Ha) as (s' & r & E & B & H).
  { pose proof (eh_room _ _ _ (rd_env _ _ _ _ _ _ _ _ R)). lia. }
  { lia. }
  cbn [do_setenv]. pose proof (do_setenv_bytes _ _ _ _ _ _ _ _ _ (rd_ok _ _ _ _ _ _ _ _ R) E) as O'.
  pose proof (fun l' => ready_block_only s s' l l' R B O') as HR.
  assert (same_on (ram s) (ram s') cmdbuf (Z.to_nat CONFIG_SYS_CBSIZE)) as Hs'.
  { pose proof (rd_block _ _ _ _ _ _ _ _ R) as Hb. rewrite !Forall_cons in Hb. destruct Hb as (Hb & _).
    intros q Hq. apply B. unfold off_block, CONFIG_SYS_CBSIZE in *. lia. }
  unfold setenv_does. cbn [fst]. destruct (bool_decide _); [|destruct (_ <=? ENV_SIZE)].
  - destruct H as (E' & _ & ->). exists s', (remove_env nm l), 0. split_and!; [exact E|by apply HR|exact Hs'|done|done].
  - destruct H as (E' & _ & ->). eexists s', _, 0. split_and!; [exact E|by apply HR|exact Hs'|done|done].
  - destruct H as (E' & ->). exists s', (remove_env nm l), 1. split_and!; [exact E|by apply HR|exact Hs'|done|done].
Qed.
End Setting.

(** ** Witnesses *)

(** "echo ${baudrate};boot 1" at 0x100 and the environment of [Env]. *)
Definition sample_line : list Z :=
  [101; 99; 104; 111; 32; 36; 123] ++ n_baudrate ++ [125; 59; 98; 111; 111; 116; 32; 49].
Definition sample_cli : env_state (list Z) :=
  Env (fun q => if q <? 0x1000
        then mem_of 0x100 (sample_line ++ [0]) q
        else mem_of 0x1000 ([22; 244; 187; 10] ++ image default_list) q)
    true true 0x1004 0x1000 1 115200 0 0 [].
Lemma sample_cli_holds : env_holds 0x100 sample_cli default_list.
Proof.
  split; [reflexivity|reflexivity| |by vm_compute]. split; [by vm_compute|].
  constructor; [|constructor; [|constructor]]; (split; [apply (bool_decide_eq_true_1 _); reflexivity|cbn; tauto]).
Qed.

Lemma sample_cli_bytes : mem_ok (ram sample_cli).
Proof.
  intros q. cbn [sample_cli ram]. destruct (q <? 0x1000); apply mem_ok_mem_of; apply (bool_decide_eq_true_1 _); reflexivity.
Qed.

Lemma parse_line_words_witness :
  exists m' argv, parse_line 30 (mem_of 0x100 ([32; 103; 111; 9; 52; 32] ++ [0])) 0x100 =
      Some (m', argv ++ (if complete 16 [32; 103; 111; 9; 52; 32] then [NULL] else []),
        Z.of_nat (length (take 16 (words [32; 103; 111; 9; 52; 32])))) /\
    Forall2 (word_in m' 0x100 6) argv (take 16 (words [32; 103; 111; 9; 52; 32])) /\
    same_except (mem_of 0x100 ([32; 103; 111; 9; 52; 32] ++ [0])) m' 0x100 6.
Proof.
  apply (parse_line_words 30 (mem_of 0x100 ([32; 103; 111; 9; 52; 32] ++ [0])) 0x100 [32; 103; 111; 9; 52; 32]).
  - apply mem_ok_mem_of, (bool_decide_eq_true_1 _). reflexivity.
  - split; [by vm_compute|apply (bool_decide_eq_true_1 _); reflexivity].
  - cbn. lia.
Defined.

Lemma process_macros_expands_witness :
  exists m, process_macros 0x100 0xa000 (Z.to_nat 17000) sample_cli 0x100 0x9000 = Some (with_ram sample_cli m) /\
    cstr_at m 0x9000 (take 255 (expand (value default_list) Plain 0 sample_line)) /\
    only_buffers 0xa000 (ram sample_cli) m 0x9000.
Proof.
  apply (process_macros_expands 0x100 0xa000 (Z.to_nat 17000) sample_cli default_list 0x100 0x9000 sample_line).
  - split; first [exact sample_cli_holds | exact sample_cli_bytes | by vm_compute | left; by vm_compute | right; by vm_compute
      | split; [by vm_compute|apply (bool_decide_eq_true_1 _); reflexivity]].
  - apply Nat2Z.inj_lt. rewrite Z2Nat.id by lia. by vm_compute.
Defined.

(** "setenv a hi;go ${a}" at 0x100, "setenv" at 0x120, "go" at 0x128. *)
Definition run_line : list Z := [115; 101; 116; 101; 110; 118; 32; 97; 32; 104; 105; 59; 103; 111; 32; 36; 123; 97; 125].
Definition n_setenv : list Z := [115; 101; 116; 101; 110; 118].
Definition n_go : list Z := [103; 111].
Definition sample_run : env_state unit :=
  Env (fun q => if q <? 0x1000
        then mem_of 0x100 (run_line ++ replicate 13 0 ++ n_setenv ++ [0; 0] ++ n_go ++ [0]) q
        else mem_of 0x1000 ([22; 244; 187; 10] ++ image default_list) q)
    true true 0x1004 0x1000 1 115200 0 0 tt.
Definition run_table : list (cmd_tbl_t * list Z) := [(Cmd 0x120 16 0 1, n_setenv); (Cmd 0x128 16 1 2, n_go)].

(** [go] does not come back. *)
Definition run_call : cmd_tbl_t -> env_state unit -> Z -> Z -> list Z -> option (env_state unit * Z) :=
  call_setenv no_console no_line 0x100 1 (fun _ _ _ _ _ => None) (Z.to_nat 33000).

Lemma run_ready : ready 0x100 0x8000 0x9000 0xa000 run_table (Z.to_nat 33000) sample_run default_list.
Proof.
  split; [| | |].
  - split; [reflexivity|reflexivity| |by vm_compute]. split; [by vm_compute|].
    constructor; [|constructor; [|constructor]]; (split; [apply (bool_decide_eq_true_1 _); reflexivity|cbn; tauto]).
  - intros q. cbn [sample_run ram]. destruct (q <? 0x1000); apply mem_ok_mem_of; apply (bool_decide_eq_true_1 _); reflexivity.
  - apply (bool_decide_eq_true_1 _). reflexivity.
  - constructor; [|constructor; [|constructor]]; (split_and!;
      [split; [by vm_compute|apply (bool_decide_eq_true_1 _); reflexivity]
      |apply Nat2Z.inj_lt; rewrite Z2Nat.id by lia; by vm_compute
      |apply (bool_decide_eq_true_1 _); reflexivity
      |apply (bool_decide_eq_true_1 _); reflexivity]).
Qed.


(** That line sets "a" and then calls [go] with "hi". *)
Lemma run_line_first ts flag rep rc e :
  runs run_table 3 (fun _ => false) (plain_setenv 1) setenv_does ([115; 101; 116; 101; 110; 118; 32; 97; 32; 104; 105] :: ts) flag rep rc (default_list, tt) e ->
  exists rep rc, runs run_table 3 (fun _ => false) (plain_setenv 1) setenv_does ts flag rep rc
    (default_list ++ [[97; 61; 104; 105]], tt) e.
Proof.
  assert (arguments default_list [115; 101; 116; 101; 110; 118; 32; 97; 32; 104; 105] = [n_setenv; [97]; [104; 105]]) as Ea by by vm_compute.
  assert (chosen run_table 3 flag [n_setenv; [97]; [104; 105]] = Some (Cmd 0x120 16 0 1, flag)) as Ec by reflexivity.
  intros H. inversion H as [|? ? ? ? ? ? ? Hc|? ? ? ? ? ? ? ? Hc Ht|? ? ? ? ? ? ? ? ? ? Hc Ht Hd Hi|? ? ? ? ? ? ? ? ret w1 ? Hc Ht Hd Hi Hr];
    cbn [fst] in *; rewrite Ea, Ec in Hc; try done; injection Hc as <- <-; rewrite Ea in Ht;
    [by vm_compute in Ht|].
  rewrite Ea in Hd. destruct w1 as [l1 []]. destruct Hd as [Hl _]. cbn [fst] in Hl. subst l1. eauto.
Qed.

Example run_line_calls_go e :
  runs run_table 3 (fun _ => false) (plain_setenv 1) setenv_does
    (pieces (ram sample_run (0x8000 - 1)) true false run_line) 0 1 0 (default_list, tt) e ->
  e = Called (Cmd 0x128 16 1 2) 0 [n_go; [104; 105]] (default_list ++ [[97; 61; 104; 105]], tt).
Proof.
  assert (pieces (ram sample_run (0x8000 - 1)) true false run_line = [[115; 101; 116; 101; 110; 118; 32; 97; 32; 104; 105]; [103; 111; 32; 36; 123; 97; 125]]) as -> by by vm_compute.
  intros (rep & rc & H)%run_line_first.
  assert (arguments (default_list ++ [[97; 61; 104; 105]]) [103; 111; 32; 36; 123; 97; 125] = [n_go; [104; 105]]) as Ea by by vm_compute.
  assert (chosen run_table 3 0 [n_go; [104; 105]] = Some (Cmd 0x128 16 1 2, 0)) as Ec by reflexivity.
  inversion H as [|? ? ? ? ? ? ? Hc|? ? ? ? ? ? ? ? Hc Ht|? ? ? ? ? ? ? ? ? ? Hc Ht|? ? ? ? ? ? ? ? ? ? ? Hc Ht];
    cbn [fst] in *; rewrite Ea, Ec in Hc; try done; injection Hc as <- <-; rewrite Ea in *;
    [done|discriminate Ht].
Qed.
