(* ===== verification/NandEcc.v ===== *)
(** * NandEcc: drivers/mtd/nand/nand_ecc.c, the Hamming code of a NAND page

    Three bytes of parity for each 256 bytes of data.  A single flipped bit,
    in the data or in the parity, is corrected; two are detected.  Data and
    code are lists of bytes. *)

From S2P Require Import Prelude.
Local Open Scope Z_scope.

Definition EBADMSG := 74.

(** Pre-calculated 256-way 1 byte column parity. *)
Definition nand_ecc_precalc_table : list Z :=
  [
   0x00; 0x55; 0x56; 0x03; 0x59; 0x0c; 0x0f; 0x5a; 0x5a; 0x0f; 0x0c; 0x59; 0x03; 0x56; 0x55; 0x00;
   0x65; 0x30; 0x33; 0x66; 0x3c; 0x69; 0x6a; 0x3f; 0x3f; 0x6a; 0x69; 0x3c; 0x66; 0x33; 0x30; 0x65;
   0x66; 0x33; 0x30; 0x65; 0x3f; 0x6a; 0x69; 0x3c; 0x3c; 0x69; 0x6a; 0x3f; 0x65; 0x30; 0x33; 0x66;
   0x03; 0x56; 0x55; 0x00; 0x5a; 0x0f; 0x0c; 0x59; 0x59; 0x0c; 0x0f; 0x5a; 0x00; 0x55; 0x56; 0x03;
   0x69; 0x3c; 0x3f; 0x6a; 0x30; 0x65; 0x66; 0x33; 0x33; 0x66; 0x65; 0x30; 0x6a; 0x3f; 0x3c; 0x69;
   0x0c; 0x59; 0x5a; 0x0f; 0x55; 0x00; 0x03; 0x56; 0x56; 0x03; 0x00; 0x55; 0x0f; 0x5a; 0x59; 0x0c;
   0x0f; 0x5a; 0x59; 0x0c; 0x56; 0x03; 0x00; 0x55; 0x55; 0x00; 0x03; 0x56; 0x0c; 0x59; 0x5a; 0x0f;
   0x6a; 0x3f; 0x3c; 0x69; 0x33; 0x66; 0x65; 0x30; 0x30; 0x65; 0x66; 0x33; 0x69; 0x3c; 0x3f; 0x6a;
   0x6a; 0x3f; 0x3c; 0x69; 0x33; 0x66; 0x65; 0x30; 0x30; 0x65; 0x66; 0x33; 0x69; 0x3c; 0x3f; 0x6a;
   0x0f; 0x5a; 0x59; 0x0c; 0x56; 0x03; 0x00; 0x55; 0x55; 0x00; 0x03; 0x56; 0x0c; 0x59; 0x5a; 0x0f;
   0x0c; 0x59; 0x5a; 0x0f; 0x55; 0x00; 0x03; 0x56; 0x56; 0x03; 0x00; 0x55; 0x0f; 0x5a; 0x59; 0x0c;
   0x69; 0x3c; 0x3f; 0x6a; 0x30; 0x65; 0x66; 0x33; 0x33; 0x66; 0x65; 0x30; 0x6a; 0x3f; 0x3c; 0x69;
   0x03; 0x56; 0x55; 0x00; 0x5a; 0x0f; 0x0c; 0x59; 0x59; 0x0c; 0x0f; 0x5a; 0x00; 0x55; 0x56; 0x03;
   0x66; 0x33; 0x30; 0x65; 0x3f; 0x6a; 0x69; 0x3c; 0x3c; 0x69; 0x6a; 0x3f; 0x65; 0x30; 0x33; 0x66;
   0x65; 0x30; 0x33; 0x66; 0x3c; 0x69; 0x6a; 0x3f; 0x3f; 0x6a; 0x69; 0x3c; 0x66; 0x33; 0x30; 0x65;
   0x00; 0x55; 0x56; 0x03; 0x59; 0x0c; 0x0f; 0x5a; 0x5a; 0x0f; 0x0c; 0x59; 0x03; 0x56; 0x55; 0x00
  ].

(** ** The code of 256 bytes *)

(** The loop, from byte [i] on. *)
Fixpoint ecc_loop (i : Z) (dat : list Z) (reg1 reg2 reg3 : Z) : Z * Z * Z :=
  match dat with
  | [] => (reg1, reg2, reg3)
  | d :: dat =>
      let idx := nth (Z.to_nat d) nand_ecc_precalc_table 0 in
      let reg1 := Z.lxor reg1 (Z.land idx 0x3f) in
      if negb (Z.land idx 0x40 =? 0)
      then ecc_loop (i + 1) dat reg1 (u8 (Z.lxor reg2 (Z.lnot (u8 i)))) (Z.lxor reg3 (u8 i))
      else ecc_loop (i + 1) dat reg1 reg2 reg3
  end.

(** The line parities, interleaved: upper and lower half. *)
Definition line_high (reg2 reg3 : Z) : Z :=
  let tmp1 := Z.shiftr (Z.land reg3 0x80) 0 in
  let tmp1 := Z.lor tmp1 (Z.shiftr (Z.land reg2 0x80) 1) in
  let tmp1 := Z.lor tmp1 (Z.shiftr (Z.land reg3 0x40) 1) in
  let tmp1 := Z.lor tmp1 (Z.shiftr (Z.land reg2 0x40) 2) in
  let tmp1 := Z.lor tmp1 (Z.shiftr (Z.land reg3 0x20) 2) in
  let tmp1 := Z.lor tmp1 (Z.shiftr (Z.land reg2 0x20) 3) in
  let tmp1 := Z.lor tmp1 (Z.shiftr (Z.land reg3 0x10) 3) in
  Z.lor tmp1 (Z.shiftr (Z.land reg2 0x10) 4).

Definition line_low (reg2 reg3 : Z) : Z :=
  let tmp2 := Z.shiftl (Z.land reg3 0x08) 4 in
  let tmp2 := Z.lor tmp2 (Z.shiftl (Z.land reg2 0x08) 3) in
  let tmp2 := Z.lor tmp2 (Z.shiftl (Z.land reg3 0x04) 3) in
  let tmp2 := Z.lor tmp2 (Z.shiftl (Z.land reg2 0x04) 2) in
  let tmp2 := Z.lor tmp2 (Z.shiftl (Z.land reg3 0x02) 2) in
  let tmp2 := Z.lor tmp2 (Z.shiftl (Z.land reg2 0x02) 1) in
  let tmp2 := Z.lor tmp2 (Z.shiftl (Z.land reg3 0x01) 1) in
  Z.lor tmp2 (Z.shiftl (Z.land reg2 0x01) 0).

(** The three bytes [ecc_code]. *)
Definition nand_calculate_ecc (dat : list Z) : Z * Z * Z :=
  let '(reg1, reg2, reg3) := ecc_loop 0 (take 256 dat) 0 0 0 in
  (u8 (Z.lnot (line_high reg2 reg3)), u8 (Z.lnot (line_low reg2 reg3)),
   u8 (Z.lor (Z.shiftl (Z.lnot reg1) 2) 0x03)).

(** ** Correction *)

(** [n]: the bits a [uint32_t] has. *)
Fixpoint countbits_loop (n : nat) (byte res : Z) : Z :=
  match n with
  | O => res
  | S n => if byte =? 0 then res else countbits_loop n (Z.shiftr byte 1) (res + Z.land byte 0x01)
  end.
Definition countbits (byte : Z) : Z := countbits_loop 32 byte 0.

(** The differences have one bit set in each pair. *)
Definition single_bit (s0 s1 s2 : Z) : bool :=
  (Z.land (Z.lxor s0 (Z.shiftr s0 1)) 0x55 =? 0x55) &&
  (Z.land (Z.lxor s1 (Z.shiftr s1 1)) 0x55 =? 0x55) &&
  (Z.land (Z.lxor s2 (Z.shiftr s2 1)) 0x54 =? 0x54).

Definition byteoffs (s0 s1 : Z) : Z :=
  let byteoffs := Z.land (Z.shiftl s1 0) 0x80 in
  let byteoffs := Z.lor byteoffs (Z.land (Z.shiftl s1 1) 0x40) in
  let byteoffs := Z.lor byteoffs (Z.land (Z.shiftl s1 2) 0x20) in
  let byteoffs := Z.lor byteoffs (Z.land (Z.shiftl s1 3) 0x10) in
  let byteoffs := Z.lor byteoffs (Z.land (Z.shiftr s0 4) 0x08) in
  let byteoffs := Z.lor byteoffs (Z.land (Z.shiftr s0 3) 0x04) in
  let byteoffs := Z.lor byteoffs (Z.land (Z.shiftr s0 2) 0x02) in
  Z.lor byteoffs (Z.land (Z.shiftr s0 1) 0x01).

Definition bitnum (s2 : Z) : Z :=
  let bitnum := Z.land (Z.shiftr s2 5) 0x04 in
  let bitnum := Z.lor bitnum (Z.land (Z.shiftr s2 4) 0x02) in
  Z.lor bitnum (Z.land (Z.shiftr s2 3) 0x01).

(** [dat[n] ^= (1 << k)] *)
Definition flip (n k : Z) (dat : list Z) : list Z := alter (fun d => u8 (Z.lxor d (Z.shiftl 1 k))) (Z.to_nat n) dat.

Definition nand_correct_data (dat : list Z) (read_ecc calc_ecc : Z * Z * Z) : list Z * Z :=
  let '(r0, r1, r2) := read_ecc in
  let '(c0, c1, c2) := calc_ecc in
  let s1 := Z.lxor c0 r0 in
  let s0 := Z.lxor c1 r1 in
  let s2 := Z.lxor c2 r2 in
  if Z.lor (Z.lor s0 s1) s2 =? 0 then (dat, 0)
  else if single_bit s0 s1 s2 then (flip (byteoffs s0 s1) (bitnum s2) dat, 1)
  else if countbits (Z.lor (Z.lor s0 (Z.shiftl s1 8)) (Z.shiftl s2 16)) =? 1 then (dat, 1)
  else (dat, - EBADMSG).

(** ** The registers are sums over the bytes *)

(** The exclusive or of what each byte gives. *)
Fixpoint xsum (f : Z -> Z -> Z) (i : Z) (l : list Z) : Z :=
  match l with [] => 0 | d :: l => Z.lxor (f i d) (xsum f (i + 1) l) end.

Definition columns (d : Z) : Z := nth (Z.to_nat d) nand_ecc_precalc_table 0.
Definition is_odd (d : Z) : bool := negb (Z.land (columns d) 0x40 =? 0).

Definition cols (_ d : Z) : Z := Z.land (columns d) 0x3f.
Definition lines (i d : Z) : Z := if is_odd d then u8 i else 0.
Definition lines' (i d : Z) : Z := if is_odd d then u8 (Z.lnot i) else 0.

(** Checking all bytes. *)
Definition all_bytes (P : Z -> bool) : bool := forallb (fun n => P (Z.of_nat n)) (seq 0 256).

Lemma all_bytes_spec P : all_bytes P = true -> forall b, is_byte b -> P b = true.
Proof.
  intros H b Hb. unfold all_bytes in H. rewrite forallb_forall in H.
  specialize (H (Z.to_nat b)). rewrite Z2Nat.id in H by apply Hb. apply H, in_seq. unfold is_byte in Hb. lia.
Qed.

Lemma u8_land z : u8 z = Z.land z 0xff.
Proof. unfold u8. by rewrite <- (Z.land_ones z 8). Qed.

Lemma u8_lxor a b : u8 (Z.lxor a b) = Z.lxor (u8 a) (u8 b).
Proof. rewrite !u8_land. apply Z.bits_inj'. intros n _. rewrite !Z.land_spec, !Z.lxor_spec, !Z.land_spec. by destruct (Z.testbit 255 n), (Z.testbit a n), (Z.testbit b n). Qed.

Lemma ecc_loop_spec dat i r1 r2 r3 : is_byte r2 ->
  ecc_loop i dat r1 r2 r3 = (Z.lxor r1 (xsum cols i dat), Z.lxor r2 (xsum lines' i dat), Z.lxor r3 (xsum lines i dat)).
Proof.
  revert i r1 r2 r3. induction dat as [|d dat IH]; intros i r1 r2 r3 H2; cbn [ecc_loop xsum].
  - by rewrite !Z.lxor_0_r.
  - change (nth (Z.to_nat d) nand_ecc_precalc_table 0) with (columns d). fold (is_odd d).
    unfold lines, lines', cols at 1. destruct (is_odd d).
    + rewrite IH by apply u8_range. rewrite u8_lxor, (u8_small r2) by done. rewrite !Z.lxor_assoc.
      replace (u8 (Z.lnot (u8 i))) with (u8 (Z.lnot i)); [done|]. unfold u8, Z.lnot. words.
    + rewrite IH by done. by rewrite !Z.lxor_assoc, !Z.lxor_0_l.
Qed.
Lemma is_byte_lxor a b : is_byte a -> is_byte b -> is_byte (Z.lxor a b).
Proof. unfold is_byte. intros Ha Hb. change 256 with (2 ^ 8) in *. by apply lxor_range. Qed.

Lemma xsum_byte f i l : (forall i d, is_byte (f i d)) -> is_byte (xsum f i l).
Proof. intros Hf. revert i. induction l; intros i; cbn [xsum]; [by unfold is_byte|]. by apply is_byte_lxor. Qed.

Lemma xsum_alter f g e l : forall i n, (n < length l)%nat -> bytes_ok l ->
  (forall d, is_byte d -> f (i + Z.of_nat n) (g d) = Z.lxor (f (i + Z.of_nat n) d) e) ->
  xsum f i (alter g n l) = Z.lxor (xsum f i l) e.
Proof.
  induction l as [|d l IH]; intros i n Hn Hl Hg; cbn [length] in Hn; [lia|]. apply Forall_cons in Hl as [Hd Hl].
  destruct n as [|n]; cbn [alter list_alter xsum].
  - rewrite Z.add_0_r in Hg. rewrite Hg, !Z.lxor_assoc by done. f_equal. apply Z.lxor_comm.
  - rewrite (IH (i + 1) n), Z.lxor_assoc; [done|lia|done|]. intros d' Hd'.
    replace (i + 1 + Z.of_nat n) with (i + Z.of_nat (S n)) by lia. by apply Hg.
Qed.

(** The table is linear: flipping bit [k] of a byte changes the columns by
    those of the bit, and the parity. *)
Lemma columns_flip d k : is_byte d -> 0 <= k < 8 ->
  is_byte (u8 (Z.lxor d (Z.shiftl 1 k))) /\
  Z.land (columns (u8 (Z.lxor d (Z.shiftl 1 k)))) 0x3f = Z.lxor (Z.land (columns d) 0x3f) (Z.land (columns (Z.shiftl 1 k)) 0x3f) /\
  is_odd (u8 (Z.lxor d (Z.shiftl 1 k))) = negb (is_odd d).
Proof.
  intros Hd Hk.
  pose (P := fun d k => let d' := u8 (Z.lxor d (Z.shiftl 1 k)) in (0 <=? d') && (d' <? 256) &&
    (Z.land (columns d') 0x3f =? Z.lxor (Z.land (columns d) 0x3f) (Z.land (columns (Z.shiftl 1 k)) 0x3f)) &&
    Bool.eqb (is_odd d') (negb (is_odd d))).
  assert (all_bytes (fun d => forallb (P d) [0; 1; 2; 3; 4; 5; 6; 7]) = true) as H by (by vm_compute).
  pose proof (all_bytes_spec _ H d Hd) as H1. cbv beta in H1. rewrite forallb_forall in H1.
  specialize (H1 k ltac:(cbn; lia)). unfold P in H1. rewrite !andb_true_iff, !Z.leb_le, !Z.ltb_lt, Z.eqb_eq, Bool.eqb_true_iff in H1.
  unfold is_byte. tauto.
Qed.

(** ** The code of changed data *)

Definition regs (dat : list Z) : Z * Z * Z := (xsum cols 0 dat, xsum lines' 0 dat, xsum lines 0 dat).

Definition lxor3 (a b : Z * Z * Z) : Z * Z * Z :=
  let '(a1, a2, a3) := a in let '(b1, b2, b3) := b in (Z.lxor a1 b1, Z.lxor a2 b2, Z.lxor a3 b3).

(** What flipping bit [k] of byte [n] changes. *)
Definition delta (n k : Z) : Z * Z * Z := (Z.land (columns (Z.shiftl 1 k)) 0x3f, u8 (Z.lnot n), n).

Definition code (r : Z * Z * Z) : Z * Z * Z :=
  let '(reg1, reg2, reg3) := r in
  (u8 (Z.lnot (line_high reg2 reg3)), u8 (Z.lnot (line_low reg2 reg3)), u8 (Z.lor (Z.shiftl (Z.lnot reg1) 2) 0x03)).

Definition bytes3 (r : Z * Z * Z) : Prop := let '(a, b, c) := r in is_byte a /\ is_byte b /\ is_byte c.

Definition good_data (dat : list Z) : Prop := length dat = 256%nat /\ bytes_ok dat.

Lemma calculate_regs dat : good_data dat -> nand_calculate_ecc dat = code (regs dat).
Proof.
  intros [Hl Hd]. unfold nand_calculate_ecc. rewrite take_ge by lia. rewrite ecc_loop_spec by (by unfold is_byte).
  by rewrite !Z.lxor_0_l.
Qed.

Lemma flip_good n k dat : good_data dat -> 0 <= n < 256 -> 0 <= k < 8 -> good_data (flip n k dat).
Proof.
  intros [Hl Hd] Hn Hk. unfold flip. split; [by rewrite length_alter|]. apply Forall_alter; [done|]. intros d _ _. apply u8_range.
Qed.

Lemma regs_flip n k dat : good_data dat -> 0 <= n < 256 -> 0 <= k < 8 ->
  regs (flip n k dat) = lxor3 (regs dat) (delta n k).
Proof.
  intros [Hl Hd] Hn Hk. unfold regs, lxor3, delta, flip.
  assert (forall d, is_byte d -> is_odd (u8 (Z.lxor d (Z.shiftl 1 k))) = negb (is_odd d)) as Ho by (intros d Hb; by apply columns_flip).
  f_equal; [f_equal|]; apply xsum_alter; try done; try lia; intros d Hb; rewrite Z.add_0_l, ?Z2Nat.id by lia.
  - by apply columns_flip.
  - unfold lines'. rewrite Ho by done. destruct (is_odd d); cbn [negb]; [by rewrite Z.lxor_nilpotent|by rewrite Z.lxor_0_l].
  - unfold lines. rewrite Ho by done. rewrite u8_small by done.
    destruct (is_odd d); cbn [negb]; [by rewrite Z.lxor_nilpotent|by rewrite Z.lxor_0_l].
Qed.

Lemma regs_bytes dat : bytes_ok dat -> bytes3 (regs dat).
Proof.
  intros _. split_and!; apply xsum_byte; intros i d.
  - unfold cols, is_byte. change 256 with (2 ^ 8). apply land_range_r; lia.
  - unfold lines'. destruct (is_odd d); [apply u8_range|by unfold is_byte].
  - unfold lines. destruct (is_odd d); [apply u8_range|by unfold is_byte].
Qed.
Lemma all_bytes2_spec P : all_bytes (fun a => all_bytes (P a)) = true -> forall a b, is_byte a -> is_byte b -> P a b = true.
Proof. intros H a b Ha Hb. apply (all_bytes_spec _ (all_bytes_spec _ H a Ha) b Hb). Qed.

(** A function of two bytes that is a sum over their bits. *)
Definition linear2 (f : Z -> Z -> Z) : Prop := forall a b a' b',
  is_byte a -> is_byte b -> is_byte a' -> is_byte b' ->
  f (Z.lxor a a') (Z.lxor b b') = Z.lxor (f a b) (f a' b').

Definition linear2_at (f : Z -> Z -> Z) (a b : Z) : bool :=
    (f a b =? Z.lxor (f a 0) (f 0 b)) && (f (Z.lxor a b) 0 =? Z.lxor (f a 0) (f b 0)) &&
    (f 0 (Z.lxor a b) =? Z.lxor (f 0 a) (f 0 b)) && (0 <=? f a b) && (f a b <? 256).
Definition linear2_test (f : Z -> Z -> Z) : bool := all_bytes (fun a => all_bytes (linear2_at f a)).

Lemma linear2_test_spec f : linear2_test f = true ->
  linear2 f /\ forall a b, is_byte a -> is_byte b -> is_byte (f a b).
Proof.
  intros H. pose proof (all_bytes2_spec (linear2_at f) H) as H2. clear H.
  assert (forall a b, is_byte a -> is_byte b -> (f a b = Z.lxor (f a 0) (f 0 b) /\ f (Z.lxor a b) 0 = Z.lxor (f a 0) (f b 0) /\
    f 0 (Z.lxor a b) = Z.lxor (f 0 a) (f 0 b)) /\ is_byte (f a b)) as H3.
  { intros a b Ha Hb. specialize (H2 a b Ha Hb). unfold linear2_at in H2.
    rewrite !andb_true_iff, !Z.eqb_eq, Z.leb_le, Z.ltb_lt in H2. unfold is_byte. tauto. }
  split; [|intros a b Ha Hb; by apply H3]. intros a b a' b' Ha Hb Ha' Hb'.
  destruct (H3 (Z.lxor a a') (Z.lxor b b')) as [(-> & _) _]; [by apply is_byte_lxor|by apply is_byte_lxor|].
  destruct (H3 a a' Ha Ha') as [(_ & -> & _) _]. destruct (H3 b b' Hb Hb') as [(_ & _ & ->) _].
  destruct (H3 a b Ha Hb) as [(-> & _) _]. destruct (H3 a' b' Ha' Hb') as [(-> & _) _].
  rewrite !Z.lxor_assoc. f_equal. rewrite <- !Z.lxor_assoc. f_equal. apply Z.lxor_comm.
Qed.

Lemma line_high_linear : linear2 line_high /\ forall a b, is_byte a -> is_byte b -> is_byte (line_high a b).
Proof. apply linear2_test_spec. by vm_compute. Qed.

Lemma line_low_linear : linear2 line_low /\ forall a b, is_byte a -> is_byte b -> is_byte (line_low a b).
Proof. apply linear2_test_spec. by vm_compute. Qed.

Lemma not_diff a b : is_byte a -> is_byte b -> Z.lxor (u8 (Z.lnot a)) (u8 (Z.lnot b)) = Z.lxor a b.
Proof.
  intros Ha Hb. rewrite <- u8_lxor. rewrite Z.lxor_lnot_lnot. apply u8_small. by apply is_byte_lxor.
Qed.

Lemma not_shift_diff a b : is_byte a -> is_byte b ->
  Z.lxor (u8 (Z.lor (Z.shiftl (Z.lnot a) 2) 0x03)) (u8 (Z.lor (Z.shiftl (Z.lnot b) 2) 0x03)) = u8 (Z.shiftl (Z.lxor a b) 2).
Proof.
  intros Ha Hb. pose (P := fun a b => Z.lxor (u8 (Z.lor (Z.shiftl (Z.lnot a) 2) 0x03)) (u8 (Z.lor (Z.shiftl (Z.lnot b) 2) 0x03))
    =? u8 (Z.shiftl (Z.lxor a b) 2)).
  apply Z.eqb_eq, (all_bytes2_spec P); [by vm_compute|done|done].
Qed.

(** How two codes differ depends only on how the registers do. *)
Definition syndrome (d : Z * Z * Z) : Z * Z * Z :=
  let '(d1, d2, d3) := d in (line_high d2 d3, line_low d2 d3, u8 (Z.shiftl d1 2)).

Lemma code_diff r r' : bytes3 r -> bytes3 r' -> lxor3 (code r') (code r) = syndrome (lxor3 r' r).
Proof.
  destruct r as [ [r1 r2] r3], r' as [ [r1' r2'] r3']. intros (H1 & H2 & H3) (H1' & H2' & H3').
  destruct line_high_linear as [Lh Bh], line_low_linear as [Ll Bl]. unfold lxor3, code, syndrome.
  by rewrite !not_diff, not_shift_diff, Lh, Ll by auto.
Qed.

(** The decision, from the differences. *)
Definition decide_data (dat : list Z) (s : Z * Z * Z) : list Z * Z := nand_correct_data dat (0, 0, 0) s.

Lemma correct_decide dat r c : nand_correct_data dat r c = decide_data dat (lxor3 c r).
Proof.
  destruct r as [ [r0 r1] r2], c as [ [c0 c1] c2]. unfold decide_data, lxor3, nand_correct_data. by rewrite !Z.lxor_0_r.
Qed.
Definition bits : list Z := [0; 1; 2; 3; 4; 5; 6; 7].

Lemma in_bits k : 0 <= k < 8 -> In k bits.
Proof. cbn. lia. Qed.

(** The decision for the difference [s]: none, a bit of the data, neither. *)
Definition accepts (s : Z * Z * Z) : bool := let '(s1, s0, s2) := s in Z.lor (Z.lor s0 s1) s2 =? 0.
Definition points_at (n k : Z) (s : Z * Z * Z) : bool :=
  let '(s1, s0, s2) := s in single_bit s0 s1 s2 && (byteoffs s0 s1 =? n) && (bitnum s2 =? k).
Definition parity_only (s : Z * Z * Z) : bool :=
  let '(s1, s0, s2) := s in
  negb (single_bit s0 s1 s2) && (countbits (Z.lor (Z.lor s0 (Z.shiftl s1 8)) (Z.shiftl s2 16)) =? 1).
Definition rejects (s : Z * Z * Z) : bool :=
  let '(s1, s0, s2) := s in
  negb (single_bit s0 s1 s2) && negb (countbits (Z.lor (Z.lor s0 (Z.shiftl s1 8)) (Z.shiftl s2 16)) =? 1).

Lemma decide_cases dat s : accepts s = false ->
  (forall n k, points_at n k s = true -> decide_data dat s = (flip n k dat, 1)) /\
  (parity_only s = true -> decide_data dat s = (dat, 1)) /\
  (rejects s = true -> decide_data dat s = (dat, - EBADMSG)).
Proof.
  destruct s as [ [s1 s0] s2]. unfold accepts, points_at, parity_only, rejects, decide_data, nand_correct_data.
  rewrite !Z.lxor_0_r. intros ->. split_and!.
  - intros n k H. rewrite !andb_true_iff, !Z.eqb_eq in H. destruct H as ((-> & ->) & ->). done.
  - intros H. rewrite andb_true_iff, negb_true_iff in H. destruct H as (-> & ->). done.
  - intros H. rewrite andb_true_iff, !negb_true_iff in H. destruct H as (-> & ->). done.
Qed.

Lemma single_flip n k : 0 <= n < 256 -> 0 <= k < 8 ->
  accepts (syndrome (delta n k)) = false /\ points_at n k (syndrome (delta n k)) = true.
Proof.
  intros Hn Hk.
  pose (P := fun n => forallb (fun k => negb (accepts (syndrome (delta n k))) && points_at n k (syndrome (delta n k))) bits).
  assert (all_bytes P = true) as H by (by vm_compute). pose proof (all_bytes_spec _ H n Hn) as H1. unfold P in H1.
  rewrite forallb_forall in H1. specialize (H1 k (in_bits k Hk)). by rewrite andb_true_iff, negb_true_iff in H1.
Qed.

Lemma double_flip n k n' k' : 0 <= n < 256 -> 0 <= k < 8 -> 0 <= n' < 256 -> 0 <= k' < 8 -> (n, k) <> (n', k') ->
  let s := syndrome (lxor3 (delta n k) (delta n' k')) in accepts s = false /\ rejects s = true.
Proof.
  intros Hn Hk Hn' Hk' Hne.
  pose (S := fun x k k' => syndrome (Z.lxor (Z.land (columns (Z.shiftl 1 k)) 0x3f) (Z.land (columns (Z.shiftl 1 k')) 0x3f), x, x)).
  pose (P := fun x => forallb (fun k => forallb (fun k' => ((x =? 0) && (k =? k')) ||
    negb (accepts (S x k k')) && rejects (S x k k')) bits) bits).
  assert (all_bytes P = true) as H by (by vm_compute).
  pose proof (all_bytes_spec _ H (Z.lxor n n') (is_byte_lxor _ _ Hn Hn')) as H1. unfold P in H1.
  rewrite forallb_forall in H1. specialize (H1 k (in_bits k Hk)). rewrite forallb_forall in H1. specialize (H1 k' (in_bits k' Hk')).
  unfold lxor3, delta. rewrite not_diff by done. fold (S (Z.lxor n n') k k').
  apply orb_true_iff in H1 as [H1|H1]; [|by rewrite andb_true_iff, negb_true_iff in H1].
  rewrite andb_true_iff, !Z.eqb_eq, Z.lxor_eq_0_iff in H1. destruct H1 as [-> ->]. exfalso. by apply Hne.
Qed.

(** One bit of the code. *)
Definition parity_bit (j : Z) : Z * Z * Z :=
  if j <? 8 then (Z.shiftl 1 j, 0, 0) else if j <? 16 then (0, Z.shiftl 1 (j - 8), 0) else (0, 0, Z.shiftl 1 (j - 16)).

Lemma parity_flip j : 0 <= j < 24 -> accepts (parity_bit j) = false /\ parity_only (parity_bit j) = true.
Proof.
  intros Hj. assert (forallb (fun j => negb (accepts (parity_bit (Z.of_nat j))) && parity_only (parity_bit (Z.of_nat j))) (seq 0 24) = true) as H
    by (by vm_compute).
  rewrite forallb_forall in H. specialize (H (Z.to_nat j)). rewrite Z2Nat.id, andb_true_iff, negb_true_iff in H by lia.
  apply H, in_seq. lia.
Qed.

Lemma alter_twice (g : Z -> Z) l n : Forall (fun d => g (g d) = d) l -> alter g n (alter g n l) = l.
Proof.
  intros H. revert n. induction H as [|d l Hd _ IH]; intros n; [done|].
  destruct n as [|n]; cbn; [by rewrite Hd|]. f_equal. apply IH.
Qed.

Lemma flip_flip n k dat : good_data dat -> 0 <= n < 256 -> 0 <= k < 8 -> flip n k (flip n k dat) = dat.
Proof.
  intros [_ Hd] Hn Hk. apply alter_twice. eapply Forall_impl; [exact Hd|]. cbv beta. intros d Hb.
  assert (is_byte (Z.shiftl 1 k)) as Hs.
  { rewrite Z.shiftl_1_l. unfold is_byte. change 256 with (2 ^ 8). split; [apply Z.pow_nonneg; lia|apply Z.pow_lt_mono_r; lia]. }
  rewrite (u8_small (Z.lxor d _)) by (by apply is_byte_lxor). rewrite Z.lxor_assoc, Z.lxor_nilpotent, Z.lxor_0_r. by apply u8_small.
Qed.

Lemma lxor3_cancel a b : lxor3 a (lxor3 a b) = b.
Proof. destruct a as [ [a1 a2] a3], b as [ [b1 b2] b3]. cbn. by rewrite <- !Z.lxor_assoc, !Z.lxor_nilpotent, !Z.lxor_0_l. Qed.

Lemma lxor3_self a : lxor3 a a = (0, 0, 0).
Proof. destruct a as [ [a1 a2] a3]. cbn. by rewrite !Z.lxor_nilpotent. Qed.
Lemma lxor3_comm a b : lxor3 a b = lxor3 b a.
Proof. destruct a as [ [a1 a2] a3], b as [ [b1 b2] b3]. cbn. by rewrite (Z.lxor_comm a1), (Z.lxor_comm a2), (Z.lxor_comm a3). Qed.
Lemma lxor3_assoc a b c : lxor3 (lxor3 a b) c = lxor3 a (lxor3 b c).
Proof. destruct a as [ [a1 a2] a3], b as [ [b1 b2] b3], c as [ [c1 c2] c3]. cbn. by rewrite !Z.lxor_assoc. Qed.

(** C18: one flipped bit of 256 bytes, or of their code, is corrected; two
    flipped bits of the data are found out, and nothing is changed. *)
Theorem nand_ecc_corrects dat : good_data dat ->
  nand_correct_data dat (nand_calculate_ecc dat) (nand_calculate_ecc dat) = (dat, 0) /\
  (forall n k, 0 <= n < 256 -> 0 <= k < 8 -> let bad := flip n k dat in
     nand_correct_data bad (nand_calculate_ecc dat) (nand_calculate_ecc bad) = (dat, 1)) /\
  (forall n k n' k', 0 <= n < 256 -> 0 <= k < 8 -> 0 <= n' < 256 -> 0 <= k' < 8 -> (n, k) <> (n', k') ->
     let bad := flip n' k' (flip n k dat) in
     nand_correct_data bad (nand_calculate_ecc dat) (nand_calculate_ecc bad) = (bad, - EBADMSG)) /\
  (forall j, 0 <= j < 24 ->
     nand_correct_data dat (lxor3 (nand_calculate_ecc dat) (parity_bit j)) (nand_calculate_ecc dat) = (dat, 1)).
Proof.
  intros G. pose proof (regs_bytes dat (proj2 G)) as Rb. split_and!.
  - by rewrite correct_decide, lxor3_self.
  - intros n k Hn Hk bad. pose proof (flip_good n k dat G Hn Hk) as G'.
    rewrite correct_decide, !calculate_regs, code_diff by (done || apply regs_bytes, G'). unfold bad. rewrite regs_flip by done.
    rewrite (lxor3_comm _ (regs dat)), lxor3_cancel. destruct (single_flip n k Hn Hk) as [A P].
    destruct (decide_cases (flip n k dat) _ A) as (D & _). rewrite (D _ _ P). by rewrite flip_flip.
  - intros n k n' k' Hn Hk Hn' Hk' Hne bad. pose proof (flip_good n k dat G Hn Hk) as G1.
    pose proof (flip_good n' k' _ G1 Hn' Hk') as G2.
    rewrite correct_decide, !calculate_regs, code_diff by (done || apply regs_bytes, G2). unfold bad. rewrite !regs_flip by done.
    rewrite (lxor3_comm _ (regs dat)), (lxor3_assoc (regs dat)), lxor3_cancel. destruct (double_flip n k n' k' Hn Hk Hn' Hk' Hne) as [A P].
    destruct (decide_cases (flip n' k' (flip n k dat)) _ A) as (_ & _ & D). exact (D P).
  - intros j Hj. rewrite correct_decide, lxor3_cancel. destruct (parity_flip j Hj) as [A P].
    destruct (decide_cases dat _ A) as (_ & D & _). exact (D P).
Qed.

Lemma nand_ecc_corrects_witness :
  let dat := replicate 256 0x5a in
  nand_correct_data dat (nand_calculate_ecc dat) (nand_calculate_ecc dat) = (dat, 0) /\
  (forall n k, 0 <= n < 256 -> 0 <= k < 8 -> let bad := flip n k dat in
     nand_correct_data bad (nand_calculate_ecc dat) (nand_calculate_ecc bad) = (dat, 1)) /\
  (forall n k n' k', 0 <= n < 256 -> 0 <= k < 8 -> 0 <= n' < 256 -> 0 <= k' < 8 -> (n, k) <> (n', k') ->
     let bad := flip n' k' (flip n k dat) in
     nand_correct_data bad (nand_calculate_ecc dat) (nand_calculate_ecc bad) = (bad, - EBADMSG)) /\
  (forall j, 0 <= j < 24 ->
     nand_correct_data dat (lxor3 (nand_calculate_ecc dat) (parity_bit j)) (nand_calculate_ecc dat) = (dat, 1)).
Proof.
  apply (nand_ecc_corrects (replicate 256 0x5a)). split; [by vm_compute|].
  apply Forall_replicate. by unfold is_byte.
Defined.
