(* ===== verification/Layout.v ===== *)
(** * Layout: infotm/strategy/burn/block.c, partitions of a block device

    The sizes of the partitions, configured in megabytes, become sectors
    ([reformat_part_size]); the first three and an extended partition get
    their places ([init_part_location]); the others lie in the extended one,
    behind a chain of partition tables ([init_part_table]).  Writing the
    tables is in [Storage].  The globals of the file are the record [layout];
    [None] is an index outside an array, or a division by zero. *)

From S2P Require Import Prelude.
Local Open Scope Z_scope.

Definition INFO_MAX_PARTITIONS : nat := 8.
Definition INFO_PART_CFG_BASE := 1.

(** [struct part_table] *)
Record part_table := Part {
  bootableflag : Z; startCHS : list Z; parttype : Z; endCHS : list Z; startLBA : Z; sizeinsectors : Z
}.

(** As the record lies in memory. *)
Definition part_bytes (p : part_table) : list Z :=
  bootableflag p :: startCHS p ++ parttype p :: endCHS p ++ le_put 4 (startLBA p) ++ le_put 4 (sizeinsectors p).

Record layout := Layout { sectors : list Z; partnum : Z; spare_area : Z }.

(** ** Sizes *)

(** [while(index > 3)]: room for the extended partition; [index] is [n]. *)
Fixpoint shift_up (n : nat) (sec : list Z) : option (list Z) :=
  match n with
  | O => Some sec
  | S n' =>
      if (3 <? n)%nat then s ← sec !! n'; shift_up n' (<[n := s]> sec) else Some sec
  end.

(** The sum, in an [int], of the [n] sizes from [index] on. *)
Fixpoint add_sizes (sec : list Z) (index n : nat) (count : Z) : option Z :=
  match n with
  | O => Some count
  | S n => s ← sec !! index; add_sizes sec (S index) n (s32 (u32 (count + s)))
  end.

(** The three partitions in front, from the third on. *)
Fixpoint add_down (sec : list Z) (index : nat) (count : Z) : option Z :=
  match index with
  | O => Some count
  | S index => s ← sec !! index; add_down sec index (s32 (u32 (count + s)))
  end.

(** Closing the gap at [index], [n] partitions behind it. *)
Fixpoint close_up (n index : nat) (sec : list Z) : option (list Z) :=
  match n with
  | O => if (index <? length sec)%nat then Some (<[index := 0]> sec) else None
  | S n => s ← sec !! S index; close_up n (S index) (<[index := s]> sec)
  end.

(** The table in front of each logical partition. *)
Fixpoint less_table (n index : nat) (sec : list Z) : option (list Z) :=
  match n with
  | O => Some sec
  | S n => s ← sec !! index;
           less_table n (S index) (if s =? 0 then sec else <[index := u32 (s - 0x10)]> sec)
  end.

(** The last partition that is not empty. *)
Fixpoint last_used (index : nat) (sec : list Z) : option nat :=
  s ← sec !! index;
  if s =? 0 then match index with O => None | S index => last_used index sec end else Some index.

(** The size of the extended partition is known: the rest of it goes to the
    partition "local" if that has no size, or "local" is dropped. *)
Definition give_rest (sec : list Z) (partnum multip : Z) : option (list Z * Z) :=
  s3 ← sec !! 3%nat; s5 ← sec !! 5%nat;
  if negb (s5 =? 0) then Some (sec, 0) else
  count ← add_sizes sec 4 (Z.to_nat (partnum - 4)) 0;
  if s3 <=? u32 count then Some (sec, -1)
  else if (u32 count <? s3) && (u32 (Z.shiftl multip 5) <? u32 (s3 - count))
  then Some (<[5%nat := u32 (s3 - count)]> sec, 0)
  else sec ← close_up (Z.to_nat (partnum - 5)) 5 sec; Some (sec, 0).

Definition reformat_part_size (g : layout) (sectorcount blksz : Z) : option (layout * Z) :=
  if blksz =? 0 then None else
  let multip := Z.quot 0x100000 blksz in
  let spare := s64 (spare_area g * multip + (INFO_PART_CFG_BASE + 1)) in
  let spare := s64 (Z.land (spare + 2) (Z.lnot (0x40 - 1)) + 0x40) in
  let partnum := partnum g + 1 in
  sec ← shift_up (INFO_MAX_PARTITIONS - 1) (map (fun s => u32 (s * multip)) (sectors g));
  count ← add_down sec 3 0;
  if sectorcount <=? count then Some (Layout sec partnum spare, -1) else
  let sec := <[3%nat := u32 (sectorcount - count - spare)]> sec in
  '(sec, r) ← give_rest sec partnum multip;
  if r <? 0 then Some (Layout sec partnum spare, -1) else
  sec ← less_table (Z.to_nat (partnum - 4)) 4 sec;
  index ← last_used (INFO_MAX_PARTITIONS - 1) sec;
  Some (Layout sec (Z.of_nat index + 1) spare, 0).

(** ** Places *)

(** The first loop: type and size of the partitions, up to an empty one.
    Behind the eighth the loop ends whatever is read there. *)
Fixpoint fill_loop (n i : nat) (g : layout) (loc : list part_table) : option (list part_table) :=
  match n with
  | O => Some loc
  | S n =>
      if negb (Z.of_nat i <? partnum g) then Some loc else
      s ← sectors g !! i; p ← loc !! i;
      let p := Part 0 [0x03; 0xd0; 0xff] 0x83 [0x03; 0xd0; 0xff] (startLBA p) s in
      let loc := <[i := p]> loc in
      match sectors g !! S i with
      | Some 0 => Some loc
      | _ => fill_loop n (S i) g loc
      end
  end.

Definition at_lba (p : part_table) (start size : Z) : part_table :=
  Part (bootableflag p) (startCHS p) (parttype p) (endCHS p) start size.

(** Each partition behind the one before, on a multiple of 64 sectors. *)
Definition place_after (prev p : part_table) : part_table :=
  let start := u32 (startLBA prev + sizeinsectors prev) in
  if start mod 0x40 =? 0 then at_lba p start (sizeinsectors p)
  else at_lba p (u32 (start + (0x40 - start mod 0x40))) (u32 (sizeinsectors p - 0x40)).

Fixpoint place_loop (n i : nat) (g : layout) (loc : list part_table) : option (list part_table) :=
  match n with
  | O => Some loc
  | S n =>
      if negb (Z.of_nat i <? partnum g) then Some loc else
      p ← loc !! i;
      if (i <? 4)%nat then prev ← loc !! pred i; place_loop n (S i) g (<[i := place_after prev p]> loc)
      else place_loop n (S i) g (<[i := at_lba p 0x10 (sizeinsectors p)]> loc)
  end.

Definition with_type (p : part_table) (t : Z) : part_table :=
  Part (bootableflag p) (startCHS p) t (endCHS p) (startLBA p) (sizeinsectors p).

(** [loc]: the eight records as [malloc] returned them. *)
Definition init_part_location (g : layout) (loc : list part_table) : option (list part_table) :=
  loc ← fill_loop INFO_MAX_PARTITIONS 0 g loc;
  loc ← (if 4 <? partnum g then p ← loc !! 3%nat; Some (<[3%nat := with_type p 0x05]> loc) else Some loc);
  p ← loc !! O;
  let p := Part (bootableflag p) [0x01; 0x01; 0x00] (parttype p) (endCHS p) (u32 (spare_area g)) (sizeinsectors p) in
  place_loop INFO_MAX_PARTITIONS 1 g (<[O := p]> loc).

(** ** Tables *)

Definition empty_part : part_table := Part 0 [0; 0; 0] 0 [0; 0; 0] 0 0.

(** Where the table behind [step] logical partitions begins, from the start
    of the extended partition. *)
Fixpoint next_table (n i : nat) (loc : list part_table) (lba : Z) : option Z :=
  match n with
  | O => Some lba
  | S n => p ← loc !! (i + 3)%nat; next_table n (S i) loc (u32 (u32 (lba + 0x10) + sizeinsectors p))
  end.

(** The four entries, [*tableaddr] and the result; [last] is
    [lasttableaddr]. *)
Definition init_part_table (g : layout) (loc : list part_table) (last : Z) (step : nat)
    : option (list part_table * Z * Z) :=
  if (step =? 0)%nat then Some (take 4 loc, 0, 0) else
  let k := Z.of_nat step in
  if partnum g - 3 <? k then Some (replicate 4 empty_part, last, -1) else
  p0 ← loc !! (step + 3)%nat;
  p1 ← (if k <? partnum g - 4 then
          p ← loc !! (step + 4)%nat;
          let p := if k + 1 <? partnum g - 3 then with_type p 0x05 else p in
          lba ← next_table step 1 loc 0;
          Some (at_lba p lba (sizeinsectors p))
        else Some empty_part);
  addr ← (if (step =? 1)%nat then p ← loc !! 3%nat; Some (s32 (startLBA p))
          else p ← loc !! (step + 2)%nat; Some (s32 (u32 (last + 0x10 + sizeinsectors p))));
  Some ([p0; p1; empty_part; empty_part], addr, 0).
(** ** The partitions in front *)

(** [p'] is [p] in its place: behind [prev], aligned, and not ending later than
    it would without the alignment. *)
Definition placed (prev p p' : part_table) : Prop :=
  startLBA prev + sizeinsectors prev <= startLBA p' /\ startLBA p' mod 0x40 = 0 /\
  0 <= sizeinsectors p' <= sizeinsectors p /\ sizeinsectors p - 0x40 <= sizeinsectors p' /\
  startLBA p' + sizeinsectors p' <= startLBA prev + sizeinsectors prev + sizeinsectors p /\
  parttype p' = parttype p /\
  ((startLBA prev + sizeinsectors prev) mod 0x40 = 0 ->
   startLBA p' = startLBA prev + sizeinsectors prev /\ sizeinsectors p' = sizeinsectors p).

Lemma place_after_spec prev p :
  0 <= startLBA prev + sizeinsectors prev -> startLBA prev + sizeinsectors prev + sizeinsectors p < 2 ^ 32 ->
  0x40 <= sizeinsectors p -> placed prev p (place_after prev p).
Proof.
  intros H0 H1 H2. unfold placed, place_after. rewrite (u32_small (_ + _)) by lia.
  set (st := startLBA prev + sizeinsectors prev) in *. pose proof (Z.mod_pos_bound st 0x40 ltac:(lia)) as Hm.
  destruct (Z.eqb_spec (st mod 0x40) 0) as [E|E]; cbn [at_lba startLBA sizeinsectors parttype]; [lia|].
  rewrite !u32_small by lia. split_and!; try lia.
  pose proof (Z.div_mod st 0x40 ltac:(lia)) as Hd.
  replace (st + (0x40 - st mod 0x40)) with ((st / 0x40 + 1) * 0x40) by lia. apply Z_mod_mult.
Qed.

(** The four records in front after [init_part_location]. *)
Record in_order (total : Z) (spare : Z) (p0 p1 p2 p3 : part_table) : Prop := {
  io_start : startLBA p0 = spare;
  io_01 : startLBA p0 + sizeinsectors p0 <= startLBA p1;
  io_12 : startLBA p1 + sizeinsectors p1 <= startLBA p2;
  io_23 : startLBA p2 + sizeinsectors p2 <= startLBA p3;
  io_end : startLBA p3 + sizeinsectors p3 <= total;
  io_aligned : Forall (fun p => startLBA p mod 0x40 = 0) [p0; p1; p2; p3];
  io_sizes : Forall (fun p => 0 <= sizeinsectors p) [p0; p1; p2; p3];
  io_types : map parttype [p0; p1; p2; p3] = [0x83; 0x83; 0x83; 0x05]
}.

(** The record of a partition before it has its place. *)
Definition filled (p : part_table) (s : Z) : part_table := Part 0 [0x03; 0xd0; 0xff] 0x83 [0x03; 0xd0; 0xff] (startLBA p) s.
Definition logical (s : Z) : part_table := Part 0 [0x03; 0xd0; 0xff] 0x83 [0x03; 0xd0; 0xff] 0x10 s.

(** The sizes are in the first [partnum] places. *)
Definition used (g : layout) : Prop :=
  length (sectors g) = 8%nat /\ 1 <= partnum g <= 8 /\
  forall j s, Z.of_nat j < partnum g -> sectors g !! j = Some s -> s <> 0.

Lemma fill_location_spec g : used g -> forall n i loc, length loc = 8%nat -> partnum g <= Z.of_nat (n + i) ->
  exists loc', fill_loop n i g loc = Some loc' /\ length loc' = 8%nat /\
    (forall j, Z.of_nat j < partnum g -> (i <= j)%nat -> exists p s, loc !! j = Some p /\ sectors g !! j = Some s /\ loc' !! j = Some (filled p s)) /\
    (forall j, (j < i)%nat \/ partnum g <= Z.of_nat j -> loc' !! j = loc !! j).
Proof.
  intros (Hs & Hp & Hnz). induction n as [|n IH]; intros i loc Hl Hn; cbn [fill_loop].
  { exists loc. split_and!; [done|done| |done]. intros j Hj Hij. lia. }
  destruct (Z.ltb_spec (Z.of_nat i) (partnum g)) as [Hi|Hi]; cbn [negb]; cycle 1.
  { exists loc. split_and!; [done|done| |done]. intros j Hj Hij. lia. }
  destruct (lookup_lt_is_Some_2 (sectors g) i) as [s Es]; [lia|]. destruct (lookup_lt_is_Some_2 loc i) as [p Ep]; [lia|].
  rewrite Es, Ep. cbn [mbind option_bind]. fold (filled p s). set (loc1 := <[i := filled p s]> loc).
  assert (length loc1 = 8%nat) as Hl1 by (unfold loc1; by rewrite length_insert).
  assert (loc1 !! i = Some (filled p s)) as E1 by (apply list_lookup_insert_eq; lia).
  assert (match sectors g !! S i with Some 0 => Some loc1 | _ => fill_loop n (S i) g loc1 end = fill_loop n (S i) g loc1) as ->.
  { destruct (sectors g !! S i) as [ [|z|z]|] eqn:E; try done. destruct (Z.ltb_spec (Z.of_nat (S i)) (partnum g)) as [Hlt|Hge].
    - by elim (Hnz (S i) 0 Hlt E).
    - destruct n; cbn [fill_loop]; [done|]. by rewrite (proj2 (Z.ltb_ge _ _)). }
  destruct (IH (S i) loc1 Hl1 ltac:(lia)) as (loc' & E & Hl' & H1 & H2). exists loc'. split_and!; [exact E|done| |].
  - intros j Hj Hij. destruct (decide (j = i)) as [->|Hne].
    + exists p, s. split_and!; [done|done|]. rewrite H2 by (left; lia). done.
    + destruct (H1 j Hj ltac:(lia)) as (p' & s' & Hp' & Hs' & ?). exists p', s'. split_and!; [|done|done].
      rewrite <- Hp'. symmetry. apply list_lookup_insert_ne. lia.
  - intros j Hj. rewrite H2 by lia. apply list_lookup_insert_ne. lia.
Qed.
Lemma place_loop_logical g : partnum g <= 8 -> forall n i loc, length loc = 8%nat -> (4 <= i)%nat -> partnum g <= Z.of_nat (n + i) ->
  exists loc', place_loop n i g loc = Some loc' /\ length loc' = 8%nat /\
    (forall j, Z.of_nat j < partnum g -> (i <= j)%nat -> exists p, loc !! j = Some p /\ loc' !! j = Some (at_lba p 0x10 (sizeinsectors p))) /\
    (forall j, (j < i)%nat -> loc' !! j = loc !! j).
Proof.
  intros Hp. induction n as [|n IH]; intros i loc Hl Hi4 Hn; cbn [place_loop].
  { exists loc. split_and!; [done|done| |done]. intros j Hj Hij. lia. }
  destruct (Z.ltb_spec (Z.of_nat i) (partnum g)) as [Hi|Hi]; cbn [negb]; cycle 1.
  { exists loc. split_and!; [done|done| |done]. intros j Hj Hij. lia. }
  destruct (lookup_lt_is_Some_2 loc i) as [p Ep]; [lia|]. rewrite Ep. cbn [mbind option_bind].
  rewrite (proj2 (Nat.ltb_ge i 4)) by done. set (loc1 := <[i := _]> loc).
  assert (length loc1 = 8%nat) as Hl1 by (unfold loc1; by rewrite length_insert).
  destruct (IH (S i) loc1 Hl1 ltac:(lia) ltac:(lia)) as (loc' & E & Hl' & H1 & H2). exists loc'. split_and!; [exact E|done| |].
  - intros j Hj Hij. destruct (decide (j = i)) as [->|Hne].
    + exists p. split; [done|]. rewrite H2 by lia. apply list_lookup_insert_eq. lia.
    + destruct (H1 j Hj ltac:(lia)) as (p' & Hp' & ?). exists p'. split; [|done].
      rewrite <- Hp'. symmetry. apply list_lookup_insert_ne. lia.
  - intros j Hj. rewrite H2 by lia. apply list_lookup_insert_ne. lia.
Qed.

Lemma place_step n i g loc prev p : (1 <= i < 4)%nat -> Z.of_nat i < partnum g -> loc !! pred i = Some prev -> loc !! i = Some p ->
  place_loop (S n) i g loc = place_loop n (S i) g (<[i := place_after prev p]> loc).
Proof.
  intros Hi Hp H0 H1. cbn [place_loop]. rewrite (proj2 (Z.ltb_lt _ _)) by done. cbn [negb].
  rewrite H1. cbn [mbind option_bind]. rewrite (proj2 (Nat.ltb_lt i 4)) by lia. by rewrite H0.
Qed.

(** [malloc]'s block: eight records. *)
Lemma eight (l : list part_table) : length l = 8%nat -> exists p0 p1 p2 p3 ls, l = p0 :: p1 :: p2 :: p3 :: ls /\ length ls = 4%nat.
Proof. destruct l as [|p0 [|p1 [|p2 [|p3 ls] ] ] ]; cbn; intros H; try lia. exists p0, p1, p2, p3, ls. split; [done|lia]. Qed.

Lemma lookup_behind {A} (a b c d : A) l j : (4 <= j)%nat -> (a :: b :: c :: d :: l) !! j = l !! (j - 4)%nat.
Proof. intros H. replace j with (4 + (j - 4))%nat at 1 by lia. done. Qed.

Lemma mod_add a b : a mod 0x40 = 0 -> b mod 0x40 = 0 -> (a + b) mod 0x40 = 0.
Proof. intros Ha Hb. by rewrite Z.add_mod, Ha, Hb by lia. Qed.

Definition size_of (g : layout) (i : nat) : Z := nth i (sectors g) 0.

Lemma size_of_lookup g i s : sectors g !! i = Some s -> size_of g i = s.
Proof. unfold size_of. rewrite nth_default_lookup. by intros ->. Qed.

Lemma init_part_location_spec g loc total :
  used g -> 4 < partnum g -> length loc = 8%nat -> 0 <= spare_area g -> spare_area g mod 0x40 = 0 ->
  (forall i, (i < 4)%nat -> 0x40 <= size_of g i) ->
  spare_area g + size_of g 0 + size_of g 1 + size_of g 2 + size_of g 3 <= total -> total < 2 ^ 32 ->
  exists p0 p1 p2 p3 ls, init_part_location g loc = Some (p0 :: p1 :: p2 :: p3 :: ls) /\
    in_order total (spare_area g) p0 p1 p2 p3 /\
    ((forall i, (i < 3)%nat -> size_of g i mod 0x40 = 0) -> startLBA p3 = spare_area g + size_of g 0 + size_of g 1 + size_of g 2) /\
    forall j, (4 <= j)%nat -> Z.of_nat j < partnum g -> ls !! (j - 4)%nat = Some (logical (size_of g j)).
Proof.
  intros U Hp Hl Hs Ha Hsz Ht Hmax. pose proof U as (Hs8 & Hp8 & _).
  destruct (fill_location_spec g U 8 0 loc Hl ltac:(lia)) as (l1 & E1 & Hl1 & H1 & _). unfold init_part_location.
  unfold INFO_MAX_PARTITIONS. rewrite E1. cbn [mbind option_bind]. rewrite (proj2 (Z.ltb_lt 4 _)) by done.
  destruct (eight l1 Hl1) as (q0 & q1 & q2 & q3 & ls & -> & Hls).
  assert (forall i q, (q0 :: q1 :: q2 :: q3 :: ls) !! i = Some q -> Z.of_nat i < partnum g -> exists b, q = filled b (size_of g i)) as Hq.
  { intros i q Hi Hip. destruct (H1 i Hip ltac:(lia)) as (b & s & _ & Es & Ei). exists b. rewrite (size_of_lookup _ _ _ Es). congruence. }
  destruct (Hq 0%nat q0 eq_refl ltac:(lia)) as [b0 ->]. destruct (Hq 1%nat q1 eq_refl ltac:(lia)) as [b1 ->].
  destruct (Hq 2%nat q2 eq_refl ltac:(lia)) as [b2 ->]. destruct (Hq 3%nat q3 eq_refl ltac:(lia)) as [b3 ->].
  cbn [lookup list_lookup mbind option_bind insert list_insert].
  do 3 (erewrite place_step; [|lia|lia|reflexivity|reflexivity]; cbn [insert list_insert]).
  set (f0 := Part _ _ _ _ (u32 (spare_area g)) _). set (f1 := place_after f0 _). set (f2 := place_after f1 _). set (f3 := place_after f2 _).
  pose proof (Hsz 0%nat ltac:(lia)) as S0. pose proof (Hsz 1%nat ltac:(lia)) as S1.
  pose proof (Hsz 2%nat ltac:(lia)) as S2. pose proof (Hsz 3%nat ltac:(lia)) as S3.
  assert (startLBA f0 = spare_area g /\ sizeinsectors f0 = size_of g 0) as [B0 Z0] by (split; [apply u32_small; lia|done]).
  assert (placed f0 (filled b1 (size_of g 1)) f1) as P1 by (apply place_after_spec; cbn [filled sizeinsectors]; lia).
  pose proof P1 as (A1 & _ & C1 & _ & D1 & _). cbn [filled sizeinsectors] in C1, D1.
  assert (placed f1 (filled b2 (size_of g 2)) f2) as P2 by (apply place_after_spec; cbn [filled sizeinsectors]; lia).
  pose proof P2 as (A2 & _ & C2 & _ & D2 & _). cbn [filled sizeinsectors] in C2, D2.
  assert (placed f2 (with_type (filled b3 (size_of g 3)) 0x05) f3) as P3
    by (apply place_after_spec; cbn [with_type filled sizeinsectors]; lia).
  destruct (place_loop_logical g ltac:(lia) 5 4 (f0 :: f1 :: f2 :: f3 :: ls) ltac:(cbn; lia) ltac:(lia) ltac:(lia)) as (l2 & E2 & Hl2 & H3 & H4).
  rewrite E2. destruct (eight l2 Hl2) as (r0 & r1 & r2 & r3 & ls2 & -> & Hls2).
  pose proof (H4 0%nat ltac:(lia)) as R0. pose proof (H4 1%nat ltac:(lia)) as R1. pose proof (H4 2%nat ltac:(lia)) as R2.
  pose proof (H4 3%nat ltac:(lia)) as R3. cbn in R0, R1, R2, R3. injection R0 as ->. injection R1 as ->. injection R2 as ->. injection R3 as ->.
  exists f0, f1, f2, f3, ls2. split; [done|]. split; [|split].
  - destruct P1 as (_ & M1 & _ & _ & _ & T1 & _), P2 as (_ & M2 & _ & _ & _ & T2 & _), P3 as (A3 & M3 & C3 & _ & D3 & T3 & _).
    cbn [with_type filled sizeinsectors parttype] in C3, D3, T1, T2, T3. split; try done; try lia.
    + constructor; [by rewrite B0|by repeat constructor].
    + repeat constructor; lia.
    + cbn [map]. by rewrite T1, T2, T3.
  - intros Hmod. pose proof (Hmod 0%nat ltac:(lia)) as N0. pose proof (Hmod 1%nat ltac:(lia)) as N1. pose proof (Hmod 2%nat ltac:(lia)) as N2.
    destruct P1 as (_ & _ & _ & _ & _ & _ & X1), P2 as (_ & _ & _ & _ & _ & _ & X2), P3 as (_ & _ & _ & _ & _ & _ & X3).
    cbn [with_type filled sizeinsectors] in X1, X2, X3.
    rewrite B0, Z0 in X1. destruct (X1 ltac:(by apply mod_add)) as [F1 G1]. rewrite F1, G1 in X2.
    destruct (X2 ltac:(by repeat apply mod_add)) as [F2 G2]. rewrite F2, G2 in X3.
    destruct (X3 ltac:(by repeat apply mod_add)) as [F3 _]. exact F3.
  - intros j Hj4 Hj. destruct (H3 j Hj Hj4) as (q & Eq & Eq2). rewrite lookup_behind in Eq, Eq2 by done.
    rewrite Eq2. destruct (Hq j q) as [b ->]; [|done|done]. by rewrite lookup_behind.
Qed.
(** ** The chain of tables *)

Definition entry_size (loc : list part_table) (i : nat) : Z :=
  match loc !! i with Some p => sizeinsectors p | None => 0 end.

(** The first [n] logical partitions with their tables. *)
Fixpoint chain_size (loc : list part_table) (n : nat) : Z :=
  match n with O => 0 | S n => chain_size loc n + 0x10 + entry_size loc (S n + 3) end.

Lemma chain_nonneg loc n : (forall i, 0 <= entry_size loc i) -> 0 <= chain_size loc n.
Proof. intros H. induction n as [|n IH]; cbn [chain_size]; [lia|]. specialize (H (S n + 3)%nat). lia. Qed.

Lemma chain_mono loc n k : (forall i, 0 <= entry_size loc i) -> (n <= k)%nat -> chain_size loc n <= chain_size loc k.
Proof.
  intros H Hk. induction Hk as [|k _ IH]; [lia|]. cbn [chain_size]. specialize (H (S k + 3)%nat). lia.
Qed.

Lemma next_table_spec loc k : (forall i, 0 <= entry_size loc i) -> length loc = 8%nat -> (k <= 4)%nat -> chain_size loc k < 2 ^ 32 ->
  forall n i, (n + i = S k)%nat -> (1 <= i)%nat -> next_table n i loc (chain_size loc (i - 1)) = Some (chain_size loc k).
Proof.
  intros H Hl Hk Hc. induction n as [|n IH]; intros i Hn Hi; cbn [next_table].
  { by replace (i - 1)%nat with k by lia. }
  destruct (lookup_lt_is_Some_2 loc (i + 3)) as [p Ep]; [lia|]. rewrite Ep. cbn [mbind option_bind].
  pose proof (chain_mono loc i k H ltac:(lia)) as Hm. pose proof (chain_nonneg loc (i - 1) H) as H0.
  destruct i as [|i]; [lia|]. replace (S i - 1)%nat with i in * by lia. cbn [chain_size] in Hm.
  pose proof (H (S i + 3)%nat) as Hi3. unfold entry_size in Hm, Hi3. rewrite Ep in Hm, Hi3.
  rewrite (u32_small (chain_size loc i + 0x10)), u32_small by lia. replace (chain_size loc i + 0x10 + sizeinsectors p) with (chain_size loc (S (S i) - 1)).
  - by rewrite IH by lia.
  - replace (S (S i) - 1)%nat with (S i) by lia. cbn [chain_size]. unfold entry_size. by rewrite Ep.
Qed.

(** C20: the tables form a chain: the table of a logical partition lies at the
    start of the extended partition and behind the ones before, and its
    second entry leads to the next table. *)
Theorem tables_chain g loc step p3 :
  length loc = 8%nat -> 4 < partnum g <= 8 -> (1 <= step)%nat -> Z.of_nat step <= partnum g - 4 ->
  (forall i, 0 <= entry_size loc i) -> loc !! 3%nat = Some p3 -> 0 <= startLBA p3 ->
  startLBA p3 + chain_size loc (Z.to_nat (partnum g - 4)) < 2 ^ 31 ->
  let table k := startLBA p3 + chain_size loc (k - 1) in
  exists e0 e1, init_part_table g loc (table (step - 1)%nat) step = Some ([e0; e1; empty_part; empty_part], table step, 0) /\
    loc !! (step + 3)%nat = Some e0 /\
    if Z.of_nat step <? partnum g - 4 then exists p, loc !! (step + 4)%nat = Some p /\
      parttype e1 = 0x05 /\ sizeinsectors e1 = sizeinsectors p /\ startLBA p3 + startLBA e1 = table (S step)
    else e1 = empty_part.
Proof.
  intros Hl Hp Hs1 Hs Hsz H3 H0 Hmax table. set (K := Z.to_nat (partnum g - 4)) in *.
  pose proof (chain_mono loc step K Hsz ltac:(lia)) as Hm. pose proof (chain_nonneg loc (step - 1) Hsz) as Hnn.
  pose proof (chain_mono loc (step - 1) step Hsz ltac:(lia)) as Hm1.
  destruct (lookup_lt_is_Some_2 loc (step + 3)) as [e0 E0]; [lia|].
  unfold init_part_table. rewrite (proj2 (Nat.eqb_neq step 0)) by lia. rewrite (proj2 (Z.ltb_ge _ _)) by lia.
  rewrite E0. cbn [mbind option_bind].
  assert ((if (step =? 1)%nat then p ← loc !! 3%nat; Some (s32 (startLBA p))
    else p ← loc !! (step + 2)%nat; Some (s32 (u32 (table (step - 1)%nat + 0x10 + sizeinsectors p)))) = Some (table step)) as Eaddr.
  { destruct (Nat.eqb_spec step 1) as [->|Hne].
    - rewrite H3. cbn [mbind option_bind]. unfold table. cbn [Nat.sub chain_size]. rewrite s32_small by lia. f_equal. lia.
    - destruct (lookup_lt_is_Some_2 loc (step + 2)) as [p Ep]; [lia|]. rewrite Ep. cbn [mbind option_bind].
      replace (table (step - 1)%nat + 0x10 + sizeinsectors p) with (table step).
      + rewrite u32_small, s32_small by (unfold table; lia). done.
      + unfold table. destruct step as [|[|k] ]; [lia|lia|]. replace (S (S k) - 1 - 1)%nat with k by lia.
        replace (S (S k) - 1)%nat with (S k) by lia. cbn [chain_size]. unfold entry_size.
        replace (S k + 3)%nat with (S (S k) + 2)%nat by lia. rewrite Ep. lia. }
  rewrite Eaddr. destruct (Z.ltb_spec (Z.of_nat step) (partnum g - 4)) as [Hlt|Hge].
  - destruct (lookup_lt_is_Some_2 loc (step + 4)) as [p Ep]; [lia|]. rewrite Ep. cbn [mbind option_bind].
    rewrite (proj2 (Z.ltb_lt (Z.of_nat step + 1) _)) by lia.
    pose proof (next_table_spec loc step Hsz Hl ltac:(lia) ltac:(lia) step 1 ltac:(lia) ltac:(lia)) as Hn. cbn [Nat.sub chain_size] in Hn.
    rewrite Hn. cbn [mbind option_bind]. eexists _, _. split; [done|]. split; [done|]. exists p. split_and!; try done.
    unfold table. cbn [at_lba startLBA]. by replace (S step - 1)%nat with step by lia.
  - eexists _, _. split; [done|]. done.
Qed.
(** ** From megabytes to places *)

Lemma mb_sectors z M : 1 <= z -> 0 <= M -> M <= z * M.
Proof. intros Hz HM. rewrite <- (Z.mul_1_l M) at 1. by apply Z.mul_le_mono_nonneg_r. Qed.

(** The sectors kept for the boot images, from megabytes. *)
Definition spare_sectors (mb multip : Z) : Z := Z.land (mb * multip + 4) (Z.lnot 0x3f) + 0x40.

Lemma land_not_63 x : Z.land x (Z.lnot 0x3f) = x - x mod 0x40.
Proof.
  change 0x3f with (Z.ones 6). rewrite <- Z.ldiff_land, Z.ldiff_ones_r by lia. rewrite Z.shiftl_mul_pow2, Z.shiftr_div_pow2 by lia.
  pose proof (Z.div_mod x (2 ^ 6) ltac:(lia)). change (2 ^ 6) with 0x40 in *. lia.
Qed.

Lemma spare_sectors_range mb multip : 0 <= mb -> 0 <= multip ->
  mb * multip + 5 <= spare_sectors mb multip <= mb * multip + 68 /\ spare_sectors mb multip mod 0x40 = 0.
Proof.
  intros H1 H2. unfold spare_sectors. rewrite land_not_63. pose proof (Z.mod_pos_bound (mb * multip + 4) 0x40 ltac:(lia)).
  pose proof (Z.mul_nonneg_nonneg mb multip H1 H2). split; [lia|]. pose proof (Z.div_mod (mb * multip + 4) 0x40 ltac:(lia)) as Hd.
  replace (mb * multip + 4 - (mb * multip + 4) mod 0x40 + 0x40) with (((mb * multip + 4) / 0x40 + 1) * 0x40) by lia.
  apply Z_mod_mult.
Qed.

(** A disk that holds the sizes given, in sectors of [blksz] bytes. *)
Record roomy (m a b c rest total blksz : Z) : Prop := {
  ro_blksz : 0 < blksz <= 0x4000;
  ro_mb : 0 <= m /\ 1 <= a /\ 1 <= b /\ 1 <= c /\ 0 <= rest;
  ro_total : (m + a + b + c + rest + 1) * Z.quot 0x100000 blksz + 68 < total;
  ro_int : total < 2 ^ 31
}.

Lemma multip_range blksz : 0 < blksz <= 0x4000 -> 0x40 <= Z.quot 0x100000 blksz <= 0x100000.
Proof.
  intros H. rewrite Z.quot_div_nonneg by lia. split.
  - apply Z.div_le_lower_bound; lia.
  - apply Z.div_le_upper_bound; lia.
Qed.

Lemma spare_expr m M : 0 <= m -> 0 <= M -> m * M < 2 ^ 31 ->
  s64 (Z.land (s64 (m * M + (INFO_PART_CFG_BASE + 1)) + 2) (Z.lnot (0x40 - 1)) + 0x40) = spare_sectors m M.
Proof.
  intros Hm HM H. pose proof (spare_sectors_range m M Hm HM) as [Hsp _]. pose proof (Z.mul_nonneg_nonneg m M Hm HM).
  rewrite (s64_small (m * M + _)) by (unfold INFO_PART_CFG_BASE; lia). unfold INFO_PART_CFG_BASE. change (0x40 - 1) with 0x3f.
  replace (m * M + (1 + 1) + 2) with (m * M + 4) by lia. fold (spare_sectors m M). apply s64_small. lia.
Qed.

Lemma front_sum a b c M : 0 <= a * M -> 0 <= b * M -> 0 <= c * M -> a * M + b * M + c * M < 2 ^ 31 ->
  s32 (u32 (s32 (u32 (s32 (u32 (0 + c * M)) + b * M)) + a * M)) = c * M + b * M + a * M.
Proof.
  intros Ha Hb Hc H. rewrite (u32_small (0 + _)), (s32_small (0 + _)) by lia.
  rewrite (u32_small (_ + b * M)), (s32_small (_ + b * M)) by lia. rewrite u32_small, s32_small by lia. lia.
Qed.

Lemma reformat_default m a b c u total blksz :
  roomy m a b c (u + 33) total blksz -> 1 <= u ->
  let M := Z.quot 0x100000 blksz in let spare := spare_sectors m M in let S := total - (a + b + c) * M - spare in
  reformat_part_size (Layout [a; b; c; u; 0; 0; 0; 0] 4 m) total blksz =
  Some (Layout [a * M; b * M; c * M; S; u * M - 0x10; S - u * M; 0; 0] 6 spare, 0).
Proof.
  intros [Hb Hmb Ht Hi] Hu M spare S. pose proof (multip_range blksz Hb) as HM. fold M in HM, Ht.
  pose proof (spare_sectors_range m M ltac:(lia) ltac:(lia)) as [Hsp _]. fold spare in Hsp.
  unfold reformat_part_size. rewrite (proj2 (Z.eqb_neq blksz 0)) by lia. fold M.
  assert (0 <= m * M /\ 0 <= a * M /\ 0 <= b * M /\ 0 <= c * M /\ 0 <= u * M) as Hpos
    by (split_and!; apply Z.mul_nonneg_nonneg; lia).
  assert (m * M + a * M + b * M + c * M + u * M + 34 * M + 68 < total) as Hsum by lia.
  assert (s64 (Z.land (s64 (m * M + (INFO_PART_CFG_BASE + 1)) + 2) (Z.lnot (0x40 - 1)) + 0x40) = spare) as Espare by (apply spare_expr; lia).
  cbn [sectors spare_area partnum map]. rewrite Espare. rewrite !(u32_small (_ * M)) by lia.
  cbn [shift_up INFO_MAX_PARTITIONS Nat.sub Nat.ltb Nat.leb lookup list_lookup mbind option_bind insert list_insert add_down].
  rewrite (front_sum a b c M) by lia. change (0 * M) with 0. rewrite (proj2 (Z.leb_gt total _)) by lia.
  replace (u32 (total - (c * M + b * M + a * M) - spare)) with S by (rewrite u32_small; unfold S; lia).
  assert (u * M + 33 * M <= S < 2 ^ 31) as HS by (unfold S; lia).
  unfold give_rest. change (Z.to_nat (4 + 1 - 4)) with 1%nat.
  cbn [lookup list_lookup mbind option_bind add_sizes Z.eqb negb]. rewrite (u32_small (0 + u * M)), s32_small by lia.
  rewrite Z.add_0_l, (u32_small (u * M)) by lia. rewrite (proj2 (Z.leb_gt S _)), (proj2 (Z.ltb_lt _ S)) by lia.
  rewrite Z.shiftl_mul_pow2 by lia. rewrite (u32_small (M * 2 ^ 5)), (u32_small (S - u * M)) by lia.
  rewrite (proj2 (Z.ltb_lt (M * 2 ^ 5) _)) by lia.
  cbn [andb insert list_insert mbind option_bind less_table lookup list_lookup].
  change (0 <? 0) with false. rewrite (proj2 (Z.eqb_neq (u * M) 0)) by lia. rewrite (u32_small (u * M - 0x10)) by lia.
  cbv iota. cbn [last_used lookup list_lookup mbind option_bind Z.eqb insert list_insert].
  rewrite (proj2 (Z.eqb_neq (S - u * M) 0)) by lia. done.
Qed.

Ltac reshape := cbn [less_table last_used lookup list_lookup mbind option_bind insert list_insert Z.eqb INFO_MAX_PARTITIONS Nat.sub].

(** The sizes behind the extended partition, if "local" has one. *)
Definition behind (M : Z) (sz : Z) : Z := if sz =? 0 then 0 else sz * M - 0x10.

Lemma reformat_given m a b c u lo x y total blksz :
  roomy m a b c (u + lo + x + y) total blksz -> 1 <= u -> 1 <= lo -> 0 <= x -> 0 <= y -> (x = 0 -> y = 0) ->
  let M := Z.quot 0x100000 blksz in let spare := spare_sectors m M in let S := total - (a + b + c) * M - spare in
  let k := 5 + b2z (negb (x =? 0)) + b2z (negb (y =? 0)) in
  reformat_part_size (Layout [a; b; c; u; lo; x; y; 0] k m) total blksz =
  Some (Layout [a * M; b * M; c * M; S; behind M u; behind M lo; behind M x; behind M y] (k + 1) spare, 0).
Proof.
  intros [Hb Hmb Ht Hi] Hu Hlo Hx Hy Hxy M spare S k. pose proof (multip_range blksz Hb) as HM. fold M in HM, Ht.
  pose proof (spare_sectors_range m M ltac:(lia) ltac:(lia)) as [Hsp _]. fold spare in Hsp.
  unfold reformat_part_size. rewrite (proj2 (Z.eqb_neq blksz 0)) by lia. fold M.
  assert (0 <= m * M /\ 0 <= a * M /\ 0 <= b * M /\ 0 <= c * M /\ M <= u * M /\ M <= lo * M /\ 0 <= x * M /\ 0 <= y * M) as Hpos
    by (split_and!; first [apply mb_sectors; lia|apply Z.mul_nonneg_nonneg; lia]).
  assert (m * M + a * M + b * M + c * M + u * M + lo * M + x * M + y * M + M + 68 < total) as Hsum by lia.
  assert (s64 (Z.land (s64 (m * M + (INFO_PART_CFG_BASE + 1)) + 2) (Z.lnot (0x40 - 1)) + 0x40) = spare) as Espare by (apply spare_expr; lia).
  cbn [sectors spare_area partnum map]. rewrite Espare. rewrite !(u32_small (_ * M)) by lia.
  cbn [shift_up INFO_MAX_PARTITIONS Nat.sub Nat.ltb Nat.leb lookup list_lookup mbind option_bind insert list_insert add_down].
  rewrite (front_sum a b c M) by lia. rewrite (proj2 (Z.leb_gt total _)) by lia.
  replace (u32 (total - (c * M + b * M + a * M) - spare)) with S by (rewrite u32_small; unfold S; lia).
  unfold give_rest. cbn [lookup list_lookup mbind option_bind]. rewrite (proj2 (Z.eqb_neq (lo * M) 0)) by lia.
  cbn [negb mbind option_bind]. change (0 <? 0) with false. cbv iota.
  assert (forall z, 1 <= z -> z * M < 2 ^ 31 -> u32 (z * M - 0x10) = z * M - 0x10 /\ (z * M =? 0) = false /\
    behind M z = z * M - 0x10 /\ (z * M - 0x10 =? 0) = false) as Hb'.
  { intros z Hz Hzm. pose proof (mb_sectors z M Hz ltac:(lia)). unfold behind. rewrite (proj2 (Z.eqb_neq z 0)), !(proj2 (Z.eqb_neq _ 0)) by lia.
    rewrite u32_small by lia. done. }
  destruct (Hb' u Hu ltac:(lia)) as (U1 & U2 & -> & U4). destruct (Hb' lo Hlo ltac:(lia)) as (L1 & L2 & -> & L4).
  assert (k = 5 + b2z (negb (x =? 0)) + b2z (negb (y =? 0))) as Ek by done. clearbody k.
  destruct (Z.eqb_spec x 0) as [->|Hx0].
  - assert (y = 0) as -> by (by apply Hxy). cbn [negb b2z Z.eqb] in Ek. replace k with 5 by lia. change (0 * M) with 0.
    change (Z.to_nat (5 + 1 - 4)) with 2%nat. reshape. rewrite U2, U1. reshape. rewrite L2, L1. reshape. rewrite L4. done.
  - destruct (Hb' x ltac:(lia) ltac:(lia)) as (X1 & X2 & -> & X4). destruct (Z.eqb_spec y 0) as [->|Hy0]; cbn [negb b2z] in Ek.
    + replace k with 6 by lia. change (0 * M) with 0. change (Z.to_nat (6 + 1 - 4)) with 3%nat.
      reshape. rewrite U2, U1. reshape. rewrite L2, L1. reshape. rewrite X2, X1. reshape. rewrite X4. done.
    + destruct (Hb' y ltac:(lia) ltac:(lia)) as (Y1 & Y2 & -> & Y4). replace k with 7 by lia. change (Z.to_nat (7 + 1 - 4)) with 4%nat.
      reshape. rewrite U2, U1. reshape. rewrite L2, L1. reshape. rewrite X2, X1. reshape. rewrite Y2, Y1. reshape. rewrite Y4. done.
Qed.
(** C19: when system, misc, cache, userdata and local are given sizes, add1
    perhaps, and add2 only together with add1, and the sizes fit the disk:
    the three partitions in front and the extended one do not overlap,
    begin at multiples of 64 sectors behind the area of the boot images and
    end on the disk; the configured partitions behind them get their size
    less the sixteen sectors of their table.  (With local left to be
    computed, as in the table the program is loaded with, the last partition
    does not lose them: [last_partition_overruns].) *)
Theorem partitions_in_order m a b c u lo x y total blksz loc :
  roomy m a b c (u + lo + x + y) total blksz -> 1 <= u -> 1 <= lo -> 0 <= x -> 0 <= y -> (x = 0 -> y = 0) -> length loc = 8%nat ->
  let M := Z.quot 0x100000 blksz in
  let k := 5 + b2z (negb (x =? 0)) + b2z (negb (y =? 0)) in
  exists g p0 p1 p2 p3 ls, reformat_part_size (Layout [a; b; c; u; lo; x; y; 0] k m) total blksz = Some (g, 0) /\
    init_part_location g loc = Some (p0 :: p1 :: p2 :: p3 :: ls) /\
    in_order total (spare_sectors m M) p0 p1 p2 p3 /\ partnum g = k + 1 /\
    forall j sz, [u; lo; x; y] !! j = Some sz -> sz <> 0 -> ls !! j = Some (logical (sz * M - 0x10)).
Proof.
  intros R Hu Hlo Hx Hy Hxy Hl M k. pose proof R as [Hb Hmb Ht Hi]. pose proof (multip_range blksz Hb) as HM. fold M in HM, Ht.
  pose proof (spare_sectors_range m M ltac:(lia) ltac:(lia)) as [Hsp Hal].
  assert (0 <= m * M /\ M <= a * M /\ M <= b * M /\ M <= c * M /\ M <= u * M /\ M <= lo * M /\ 0 <= x * M /\ 0 <= y * M) as Hpos
    by (split_and!; first [apply mb_sectors; lia|apply Z.mul_nonneg_nonneg; lia]).
  assert (forall z, z <> 0 -> 0 <= z -> behind M z = z * M - 0x10 /\ behind M z <> 0) as Hbeh.
  { intros z Hz H0. unfold behind. rewrite (proj2 (Z.eqb_neq z 0)) by done. split; [done|]. pose proof (mb_sectors z M ltac:(lia) ltac:(lia)). lia. }
  assert (5 <= k <= 7) as Hk by (unfold k; destruct (x =? 0), (y =? 0); cbn; lia).
  assert (x <> 0 -> 6 <= k) as Hkx' by (intros H; unfold k; rewrite (proj2 (Z.eqb_neq x 0) H); destruct (y =? 0); cbn; lia).
  assert (y <> 0 -> 7 <= k) as Hky'
    by (intros H; assert (x <> 0) as Hx0 by tauto; unfold k; rewrite (proj2 (Z.eqb_neq x 0) Hx0), (proj2 (Z.eqb_neq y 0) H); done).
  assert (x = 0 -> k = 5) as Hkx by (intros H; unfold k; rewrite (Hxy H), H; done).
  assert (y = 0 -> k <= 6) as Hky by (intros H; unfold k; rewrite H; destruct (x =? 0); cbn; lia).
  pose proof (reformat_given m a b c u lo x y total blksz R Hu Hlo Hx Hy Hxy) as E. cbv zeta in E. fold M in E. fold k in E.
  set (spare := spare_sectors m M) in *. set (S := total - (a + b + c) * M - spare) in *.
  set (g := Layout _ (k + 1) spare) in E.
  assert (used g) as U.
  { split; [done|]. split; [cbn; lia|]. intros j s Hj Hs. cbn [g partnum sectors] in Hj, Hs.
    destruct j as [|[|[|[|[|[|[|[|j] ] ] ] ] ] ] ]; cbn in Hs; try injection Hs as <-; try lia.
    - by apply Hbeh; lia.
    - by apply Hbeh; lia.
    - assert (x <> 0) by (intros H; specialize (Hkx H); lia). by apply Hbeh.
    - assert (y <> 0) by (intros H; specialize (Hky H); lia). by apply Hbeh. }
  assert (g = Layout (sectors g) (k + 1) spare) as Eg by done.
  destruct (init_part_location_spec g loc total U) as (p0 & p1 & p2 & p3 & ls & E2 & O & Hex & Hlog);
    [cbn; lia|done|cbn; lia|done| |cbn; unfold S; lia|lia|].
  { intros [|[|[|[|i] ] ] ] Hi4; cbn; unfold S; lia. }
  exists g, p0, p1, p2, p3, ls. split_and!; [exact E|exact E2|exact O|done|].
  intros j sz Hj Hsz. specialize (Hlog (j + 4)%nat ltac:(lia)). replace (j + 4 - 4)%nat with j in Hlog by lia.
  destruct j as [|[|[|[|j] ] ] ]; cbn in Hj; try done; injection Hj as <-;
    (rewrite Hlog; [f_equal; f_equal; apply Hbeh; lia|cbn [g partnum]; lia]).
Qed.

(** C40: where the partition "local" is not configured it gets the rest of the
    disk, but its table is forgotten: it ends sixteen sectors behind the end
    of the disk, or more. *)
Theorem last_partition_overruns m a b c u total blksz loc :
  roomy m a b c (u + 33) total blksz -> Z.quot 0x100000 blksz mod 0x40 = 0 -> 1 <= u -> length loc = 8%nat ->
  exists g loc' p3 q t, reformat_part_size (Layout [a; b; c; u; 0; 0; 0; 0] 4 m) total blksz = Some (g, 0) /\
    init_part_location g loc = Some loc' /\ loc' !! 3%nat = Some p3 /\
    init_part_table g loc' (startLBA p3) 2 = Some ([q; empty_part; empty_part; empty_part], t, 0) /\
    total + 0x10 <= t + startLBA q + sizeinsectors q.
Proof.
  intros R H64 Hu Hl. pose proof R as [Hb Hmb Ht Hi]. pose proof (multip_range blksz Hb) as HM.
  pose proof (reformat_default m a b c u total blksz R Hu) as E. cbv zeta in E. set (M := Z.quot 0x100000 blksz) in *.
  pose proof (spare_sectors_range m M ltac:(lia) ltac:(lia)) as [Hsp Hal].
  assert (0 <= m * M /\ M <= a * M /\ M <= b * M /\ M <= c * M /\ M <= u * M) as Hpos
    by (split_and!; first [apply mb_sectors; lia|apply Z.mul_nonneg_nonneg; lia]).
  set (spare := spare_sectors m M) in *. set (S := total - (a + b + c) * M - spare) in *. set (g := Layout _ 6 spare) in E.
  assert (u * M + 33 * M <= S) as HS by (unfold S; lia).
  assert (used g) as U.
  { split; [done|]. split; [cbn; lia|]. intros j s Hj Hs. cbn [g partnum sectors] in Hj, Hs.
    destruct j as [|[|[|[|[|[|j] ] ] ] ] ]; cbn in Hs; try injection Hs as <-; lia. }
  destruct (init_part_location_spec g loc total U) as (p0 & p1 & p2 & p3 & ls & E2 & O & Hex & Hlog);
    [cbn; lia|done|cbn; lia|done| |cbn; unfold S; lia|lia|].
  { intros [|[|[|[|i] ] ] ] Hi4; cbn; unfold S; lia. }
  pose proof (Hlog 4%nat ltac:(lia) ltac:(cbn; lia)) as L4. pose proof (Hlog 5%nat ltac:(lia) ltac:(cbn; lia)) as L5.
  assert (startLBA p3 = spare + a * M + b * M + c * M) as H3.
  { apply Hex. intros [|[|[|i] ] ] Hi3; cbn; try lia; by rewrite Z.mul_mod, H64, Z.mul_0_r by lia. }
  exists g, (p0 :: p1 :: p2 :: p3 :: ls), p3, (logical (S - u * M)), (startLBA p3 + 0x10 + (u * M - 0x10)).
  split_and!; [exact E|exact E2|done| |].
  - unfold init_part_table. cbn [Nat.eqb]. change (partnum g) with 6. change (6 - 3 <? Z.of_nat 2) with false.
    change (Z.of_nat 2 <? 6 - 4) with false. cbv iota. rewrite !lookup_behind by lia. cbn [Nat.add Nat.sub] in *. rewrite L5, L4.
    cbn [mbind option_bind]. do 3 f_equal.
    cbn [logical sizeinsectors]. change (size_of g 4) with (u * M - 0x10). rewrite u32_small, s32_small by (unfold S in HS; lia). done.
  - cbn [logical sizeinsectors startLBA]. unfold S. lia.
Qed.

(** ** Witnesses *)

Lemma partitions_in_order_witness :
  exists g p0 p1 p2 p3 ls, reformat_part_size (Layout [256; 20; 64; 512; 100; 0; 0; 0] 5 128) 3850240 512 = Some (g, 0) /\
    init_part_location g (replicate 8 empty_part) = Some (p0 :: p1 :: p2 :: p3 :: ls) /\
    in_order 3850240 (spare_sectors 128 2048) p0 p1 p2 p3 /\ partnum g = 6 /\
    forall j sz, [512; 100; 0; 0] !! j = Some sz -> sz <> 0 -> ls !! j = Some (logical (sz * 2048 - 0x10)).
Proof.
  apply (partitions_in_order 128 256 20 64 512 100 0 0 3850240 512 (replicate 8 empty_part)); try lia; [|done].
  split; [lia|lia|by vm_compute|lia].
Defined.

Lemma last_partition_overruns_witness :
  exists g loc' p3 q t, reformat_part_size (Layout [152; 20; 64; 164; 0; 0; 0; 0] 4 128) 3850240 512 = Some (g, 0) /\
    init_part_location g (replicate 8 empty_part) = Some loc' /\ loc' !! 3%nat = Some p3 /\
    init_part_table g loc' (startLBA p3) 2 = Some ([q; empty_part; empty_part; empty_part], t, 0) /\
    3850240 + 0x10 <= t + startLBA q + sizeinsectors q.
Proof.
  apply (last_partition_overruns 128 152 20 64 164 3850240 512 (replicate 8 empty_part)); [|by vm_compute|lia|done].
  split; [lia|lia|by vm_compute|lia].
Defined.

Definition sample_layout : layout := Layout [1000; 64; 64; 4000; 1008; 496; 0; 0] 6 128.
Definition sample_location : list part_table :=
  [logical 1000; logical 64; logical 64; at_lba (logical 0) 1280 4000; logical 1008; logical 496; empty_part; empty_part].

Lemma sample_sizes i : 0 <= entry_size sample_location i.
Proof.
  assert (Forall (fun p => 0 <= sizeinsectors p) sample_location) as H by (repeat constructor; cbn; lia).
  unfold entry_size. destruct (sample_location !! i) as [p|] eqn:E; [|lia]. exact (Forall_lookup_1 _ _ _ _ H E).
Qed.

Lemma tables_chain_witness :
  let table k := 1280 + chain_size sample_location (k - 1) in
  exists e0 e1, init_part_table sample_layout sample_location (table (1 - 1)%nat) 1 = Some ([e0; e1; empty_part; empty_part], table 1%nat, 0) /\
    sample_location !! (1 + 3)%nat = Some e0 /\
    if Z.of_nat 1 <? partnum sample_layout - 4 then exists p, sample_location !! (1 + 4)%nat = Some p /\
      parttype e1 = 0x05 /\ sizeinsectors e1 = sizeinsectors p /\ 1280 + startLBA e1 = table 2%nat
    else e1 = empty_part.
Proof.
  apply (tables_chain sample_layout sample_location 1 (at_lba (logical 0) 1280 4000)); try done; try (cbn; lia).
  exact sample_sizes.
Defined.
