(* ===== verification/Storage.v ===== *)
(** * Storage: infotm/strategy/burn/storage.c and block.c, the partitions

    The board configuration names the disk and the sizes of its partitions.
    [storage_part] divides a disk by it: the sizes are those of [Layout], and
    the tables and the places of the partitions are written to the disk.
    [storage_offset] and [storage_size] answer where a partition lies.

    The table [default_cfg] is in memory at [cfg], since its names are strings
    for [strcmp] and its records are copied to the disk; [lit s] is the address
    of the string literal [s], the other addresses in the context are those of
    arrays on the stack.  The disk is that of [VStorage]. *)

From S2P Require Import Prelude Mem CString Ctype Vsprintf VStorage Items Layout.
Local Open Scope Z_scope.

Definition INFO_SPARE_IMAGES : Z := 10.
Definition DISK_PARTITIONED := 0x359FC953.

(** [struct part_sz] at [t]. *)
Definition part_sz_size := 20.
Definition part_name (t : Z) : Z := t.
Definition part_offs (m : mem) (t : Z) : Z := s32 (load32 m (t + 12)).
Definition part_size (m : mem) (t : Z) : Z := s32 (load32 m (t + 16)).
Definition set_offs (m : mem) (t v : Z) : mem := store32 m (t + 12) v.
Definition set_size (m : mem) (t v : Z) : mem := store32 m (t + 16) v.

Definition p_uboot0 : list Z := [117; 98; 111; 111; 116; 48].
Definition p_uboot1 : list Z := [117; 98; 111; 111; 116; 49].
Definition p_items : list Z := [105; 116; 101; 109; 115].
Definition p_logo : list Z := [108; 111; 103; 111].
Definition p_ramdisk : list Z := [114; 97; 109; 100; 105; 115; 107].
Definition p_flags : list Z := [102; 108; 97; 103; 115].
Definition p_reserved : list Z := [114; 101; 115; 101; 114; 118; 101; 100].
Definition p_kernel0 : list Z := [107; 101; 114; 110; 101; 108; 48].
Definition p_kernel1 : list Z := [107; 101; 114; 110; 101; 108; 49].
Definition p_recovery_rd : list Z := [114; 101; 99; 111; 118; 101; 114; 121; 45; 114; 100].
Definition p_system : list Z := [115; 121; 115; 116; 101; 109].
Definition p_misc : list Z := [109; 105; 115; 99].
Definition p_cache : list Z := [99; 97; 99; 104; 101].
Definition p_userdata : list Z := [117; 115; 101; 114; 100; 97; 116; 97].
Definition p_local : list Z := [108; 111; 99; 97; 108].
Definition p_add1 : list Z := [97; 100; 100; 49].
Definition p_add2 : list Z := [97; 100; 100; 50].

(** The table as the program is loaded: names, first megabytes, sizes in
    megabytes. *)
Definition default_cfg : list (list Z * Z * Z) :=
  [(p_uboot0, 2, 6); (p_uboot1, 8, 8); (p_items, 16, 8); (p_logo, 24, 8);
   (p_ramdisk, 32, 8); (p_flags, 40, 8); (p_reserved, 48, 8); (p_kernel0, 56, 16);
   (p_kernel1, 72, 16); (p_recovery_rd, 88, 24); (p_system, 0, 152); (p_misc, 0, 20);
   (p_cache, 0, 64); (p_userdata, 0, 164); (p_local, 0, 0); (p_add1, 0, 0);
   (p_add2, 0, 0)].

Definition cfg_bytes (e : list Z * Z * Z) : list Z :=
  let '(name, offs, size) := e in padded 12 name ++ le_put 4 offs ++ le_put 4 size.

Definition s_board_disk : list Z := [98; 111; 97; 114; 100; 46; 100; 105; 115; 107].
(** "part." and "part.%s" *)
Definition s_part : list Z := [112; 97; 114; 116; 46].
Definition s_part_fmt : list Z := s_part ++ [37; 115].
(** "hdisk" *)
Definition n_hdisk : list Z := [104; 100; 105; 115; 107].

(** The array [devs]. *)
Definition devs : list (list Z) :=
  [n_bnd; n_nnd; n_fnd; n_eeprom; n_flash; n_hdisk; n_mmc 0; n_mmc 1; n_mmc 2; n_udisk 0; n_udisk 1; n_udc; n_eth; n_ram].

(** The memory and the devices, [vs_current], the globals of block.c and the
    static [lasttableaddr] of [init_part_table]. *)
Record board (D : Type) := Board {
  wd : world D;
  cur : option (vstorage D);
  parts : layout;
  tablecnt : Z;
  lasttableaddr : Z
}.
Arguments Board {D}. Arguments wd {D}. Arguments cur {D}. Arguments parts {D}.
Arguments tablecnt {D}. Arguments lasttableaddr {D}.

(** ** The configuration *)

Section Config.
Context (lit : list Z -> Z) (items cfg : Z).
(** [buf] of [storage_device], [info] and [part] of
    [storage_get_new_config], [s] of [storage_offset] and [storage_size],
    [buf] of [item_integer]. *)
Context (s_buf s_info s_pname s_s s_int : Z).

(** The record [index] of [default_cfg]. *)
Definition cfg_at (index : Z) : Z := cfg + part_sz_size * index.

Fixpoint devs_loop (m : mem) (devs : list (list Z)) (i : Z) : Z :=
  match devs with
  | [] => DEV_NAND
  | d :: devs => if strncmp m (lit d) s_buf 20 =? 0 then i else devs_loop m devs (i + 1)
  end.

(** [item_string] stores 64 bytes, [buf] has 32: the others fall on what the
    compiler puts behind it. *)
Definition storage_device (fuel : nat) (m : mem) : option (mem * Z) :=
  '(m, r) ← item_string fuel m items s_buf (lit s_board_disk) 0;
  Some (m, if r <? 0 then DEV_NAND else devs_loop m devs 0).

Fixpoint number_loop (fuel : nat) (m : mem) (p val : Z) : option (Z * Z) :=
  match fuel with
  | O => None
  | S fuel =>
      if (m p =? 0) || (m p <? 48) || (57 <? m p) then Some (p, val)
      else number_loop fuel m (p + 1) (s32 (s32 (val * 10) + (m p - 48)))
  end.

Definition item_strtoul (fuel : nat) (m : mem) (info : Z) : option Z :=
  '(p, val) ← number_loop fuel m info 0;
  Some (if (m p =? 71) || (m p =? 103) then s32 (Z.shiftl val 10)
        else if (0 <? val) && (val <? 10) then s32 (Z.shiftl val 10) else val).

(** [sprintf(dst, "part.%s", name)], the format and the name being strings in
    memory. *)
Definition sprint_part (fuel : nat) (m : mem) (dst name : Z) : option mem :=
  '(l, _, m) ← sprintf fuel fuel false s_part_fmt [name] m;
  Some (store m dst (l ++ [0])).

(** One turn: [None] ends the loop with [return 0], [Some false] is the
    [break]. *)
Definition config_step (fuel : nat) (i : Z) (m : mem) (g : layout) : option (mem * layout * option bool) :=
  let m := memset m s_info 0 32 in
  let index := i + INFO_SPARE_IMAGES in
  m ← sprint_part fuel m s_pname (part_name (cfg_at index));
  '(m, _) ← item_string fuel m items s_info s_pname 0;
  n ← strlen fuel m s_info;
  let c := m (s_info + n - 1) in
  let unit := (c =? 77) || (c =? 109) in
  if negb unit && negb ((i <? 4) && (m s_info =? 0)) && (m s_info =? 0) then Some (m, g, None) else
  let m := if unit then upd m (s_info + n - 1) 0 else m in
  size ← item_strtoul fuel m s_info;
  let m := if negb (size =? 0) then set_size m (cfg_at index) size else m in
  let k := Z.to_nat (Layout.partnum g) in
  if negb (k <? length (sectors g))%nat then None else
  let g := Layout (<[k := u32 (part_size m (cfg_at index))]> (sectors g)) (Layout.partnum g + 1) (spare_area g) in
  Some (m, g, Some (negb ((size =? 0) && (3 <=? i) && negb (i =? 4)))).

(** [n]: the partitions left; the result tells whether the loop ended by
    itself or by [break]. *)
Fixpoint config_loop (n : nat) (fuel : nat) (i : Z) (m : mem) (g : layout) : option (mem * layout * bool) :=
  match n with
  | O => Some (m, g, true)
  | S n =>
      '(m, g, r) ← config_step fuel i m g;
      match r with
      | None => Some (m, g, false)
      | Some false => Some (m, g, true)
      | Some true => config_loop n fuel (i + 1) m g
      end
  end.

Definition storage_get_new_config (fuel : nat) (m : mem) (g : layout) : option (mem * layout * Z) :=
  '(m, g, ended) ← config_loop INFO_MAX_PARTITIONS fuel 0 m g;
  Some (m, g, if ended && (Layout.partnum g =? Z.of_nat INFO_MAX_PARTITIONS) then -1 else 0).

(** ** Sizes and places from the configuration *)

Fixpoint size_loop (n : nat) (fuel : nat) (i : Z) (m : mem) (p : Z) : option (mem * Z) :=
  match n with
  | O => Some (m, 0)
  | S n =>
      if strncmp m (part_name (cfg_at i)) p 20 =? 0 then
        m ← sprint_part fuel m s_s p;
        '(m, ret) ← item_integer fuel m items s_int s_s 0;
        let ret := if ret =? ITEMS_EINT then part_size m (cfg_at i) else ret in
        Some (m, s64 (Z.shiftl ret 20))
      else size_loop n fuel (i + 1) m p
  end.

Definition storage_size (fuel : nat) (m : mem) (p : Z) : option (mem * Z) :=
  if p =? NULL then Some (m, 0) else size_loop (length default_cfg) fuel 0 m p.

(** The loop of [storage_offset] for a NAND board: [inr] is the value the
    function returns, [inl] the last value of [parted]. *)
Fixpoint nand_offset_loop (n : nat) (fuel : nat) (i : Z) (m : mem) (p parted : Z) : option (mem * (Z + Z)) :=
  match n with
  | O => Some (m, inl parted)
  | S n =>
      if strncmp m (part_name (cfg_at i)) p 20 =? 0 then Some (m, inr (s64 (Z.shiftl parted 20))) else
      if negb (part_offs m (cfg_at i) =? 0)
      then nand_offset_loop n fuel (i + 1) m p (s32 (part_offs m (cfg_at i) + part_size m (cfg_at i)))
      else
        m ← sprint_part fuel m s_s (part_name (cfg_at i));
        '(m, ret) ← item_integer fuel m items s_int s_s 0;
        nand_offset_loop n fuel (i + 1) m p
          (s64 (parted + (if ret =? ITEMS_EINT then part_size m (cfg_at i) else ret)))
  end.

(** The loop over the images in front of the partitions. *)
Fixpoint spare_offset_loop (n : nat) (fuel : nat) (index : Z) (m : mem) (p : Z) : option Z :=
  match n with
  | O => Some 0
  | S n =>
      r ← strcmp fuel m (part_name (cfg_at index)) p;
      if r =? 0 then Some (s32 (Z.shiftl (part_offs m (cfg_at index)) 20))
      else spare_offset_loop n fuel (index + 1) m p
  end.

End Config.

(** ** block.c: the tables and places on the disk *)

(** [struct part_table] at [p]. *)
Definition part_table_size := 16.
Definition part_at (m : mem) (p : Z) : part_table :=
  Part (m p) (bytes_at m (p + 1) 3) (m (p + 4)) (bytes_at m (p + 5) 3) (load32 m (p + 8)) (load32 m (p + 12)).

Fixpoint parts_at (m : mem) (p : Z) (n : nat) : list part_table :=
  match n with O => [] | S n => part_at m p :: parts_at m (p + part_table_size) n end.

(** A sector with a partition table, at [buffer]: what [init_part_table]
    made of it at 446, the signature at 510. *)
Definition put_table (m : mem) (buffer : Z) (entries : list part_table) : mem :=
  store m (buffer + 446) (concat (map part_bytes entries)).
Definition put_signature (m : mem) (buffer : Z) : mem := upd (upd m (buffer + 510) 0x55) (buffer + 511) 0xaa.

(** [for(i=0;i<4&&i<partnum;i++) imagebase[i]=locationtable[i].startLBA;] *)
Fixpoint base_loop (n i : nat) (g : layout) (loc : list part_table) (imagebase : list Z) : option (list Z) :=
  match n with
  | O => Some imagebase
  | S n =>
      if Z.of_nat i <? Layout.partnum g
      then p ← loc !! i; base_loop n (S i) g loc (<[i := startLBA p]> imagebase)
      else Some imagebase
  end.

(** [n] records from [t] on get the places from [i] on. *)
Fixpoint offs_loop (n i : nat) (m : mem) (t : Z) (imagebase : list Z) : option mem :=
  match n with
  | O => Some m
  | S n => b ← imagebase !! i; offs_loop n (S i) (set_offs m t b) (t + part_sz_size) imagebase
  end.

(** The places of the partitions, in the records from [p] on. *)
Definition record_offsets (m : mem) (p : Z) (g : layout) (imagebase : list Z) : option mem :=
  let at_ i := p + part_sz_size * i in
  m ← offs_loop 3 0 m p imagebase;
  let k := Layout.partnum g in
  if negb (4 <? k) then Some m else
  b ← imagebase !! 4%nat;
  let m := set_offs m (at_ 3) b in
  m ← (if k =? 8 then b ← imagebase !! 6%nat; Some (set_offs m (at_ 5) b) else Some m);
  m ← (if (k =? 8) || (k =? 7) then b ← imagebase !! 5%nat; Some (set_offs m (at_ 4) b) else Some m);
  if (k =? 8) || (k =? 7) || (k =? 6)
  then b ← imagebase !! Z.to_nat (k - 1); Some (set_offs m (at_ (Z.of_nat INFO_MAX_PARTITIONS - 2)) b)
  else Some m.

(** The loop of [block_get_base]: the index and [base] behind it. *)
Fixpoint find_base (n : nat) (fuel : nat) (index : Z) (m : mem) (buffer target : Z) : option (Z * Z) :=
  match n with
  | O => Some (index, 0)
  | S n =>
      r ← strcmp fuel m (part_name buffer) target;
      if r =? 0 then Some (index, part_offs m buffer)
      else find_base n fuel (index + 1) m (buffer + part_sz_size) target
  end.

Definition cfg_records : Z := Z.of_nat INFO_MAX_PARTITIONS + INFO_SPARE_IMAGES.

Section Disk.
Context {D : Type} (dr : drivers D) (CONFIG_ENABLE_UDISK : bool).
Context (lit : list Z -> Z) (items cfg : Z) (s_buf s_info s_pname s_s s_int : Z).
Abbreviation board := (board D).
Implicit Type st : board.

Definition load st : mem := ram (wd st).
Definition set_wd st w : board := Board w (cur st) (parts st) (tablecnt st) (lasttableaddr st).
Definition set_mem st m : board := set_wd st (World m (dev (wd st))).
Definition set_parts st g : board := Board (wd st) (cur st) g (tablecnt st) (lasttableaddr st).
Definition set_tables st n : board := Board (wd st) (cur st) (parts st) n (lasttableaddr st).
Definition set_last st a : board := Board (wd st) (cur st) (parts st) (tablecnt st) a.

Definition assign st (id reset : Z) : board :=
  let '(p, w, _) := vs_assign_by_id dr CONFIG_ENABLE_UDISK (wd st) id reset in
  Board w p (parts st) (tablecnt st) (lasttableaddr st).
Definition write_disk st (buf offs len : Z) : board :=
  set_wd st (vs_write (cur st) (wd st) buf offs len 0).1.
Definition read_disk st (buf offs len : Z) : option board :=
  '(w, _) ← vs_read dr CONFIG_ENABLE_UDISK (cur st) (wd st) buf offs len 0; Some (set_wd st w).
Definition align_of st (id : Z) : board * Z :=
  let '(w, a) := vs_align dr CONFIG_ENABLE_UDISK (cur st) (wd st) id in (set_wd st w, s32 a).
Definition capacity_of st (id : Z) : board * Z :=
  let '(w, c) := vs_capacity dr CONFIG_ENABLE_UDISK (cur st) (wd st) id in (set_wd st w, s64 c).
Definition alloc st (n : Z) : board * Z := let '(w, p) := malloc dr (wd st) n in (set_wd st w, p).
Definition release st (p : Z) : board := set_wd st (free dr (wd st) p).
Definition device st (fuel : nat) : option (board * Z) :=
  '(m, id) ← storage_device lit items s_buf fuel (load st); Some (set_mem st m, id).

(** The tables of the extended partition: [n] from number [i] on. *)
Fixpoint table_loop (n i : nat) st (dev_id blksz buffer : Z) (loc : list part_table) (tableaddr : Z) (imagebase : list Z)
    : option (board * list Z) :=
  match n with
  | O => Some (st, imagebase)
  | S n =>
      let m := memset (load st) buffer 0 blksz in
      '(entries, last, r) ← init_part_table (parts st) loc (lasttableaddr st) i;
      let tableaddr := if r <? 0 then tableaddr else last in
      let st := set_last (set_mem st (put_signature (put_table m buffer entries) buffer)) last in
      let st := write_disk (assign st dev_id 0) buffer (s64 (tableaddr * blksz)) blksz in
      if negb (i + 3 <? length imagebase)%nat then None else
      table_loop n (S i) st dev_id blksz buffer loc tableaddr (<[(i + 3)%nat := s32 (tableaddr + 0x10)]> imagebase)
  end.

(** From the size of the disk on. *)
Definition divide st (dev_id blksz lba psz : Z) : option (board * Z) :=
  let '(st, table) := alloc (assign st dev_id 1) (Z.of_nat INFO_MAX_PARTITIONS * part_table_size) in
  if table =? NULL then Some (st, -1) else
  '(g, _) ← reformat_part_size (parts st) (s32 lba) blksz;
  let st := set_parts st g in
  loc ← init_part_location g (parts_at (load st) table INFO_MAX_PARTITIONS);
  let '(st, buffer) := alloc st blksz in
  if buffer =? NULL then Some (st, -1) else
  let k := Layout.partnum g in
  imagebase ← base_loop 4 0 g loc (replicate (Z.to_nat k) 0);
  let st := set_tables st (if 3 <? k then k - 3 else 1) in
  '(st, imagebase) ← table_loop (Z.to_nat (tablecnt st) - 1) 1 st dev_id blksz buffer loc 0 imagebase;
  let m := memset (load st) buffer 0 blksz in
  '(entries, last, _) ← init_part_table g loc (lasttableaddr st) 0;
  let m := store32 (put_table m buffer entries) (buffer + 4 * 0x48) DISK_PARTITIONED in
  let st := set_last (set_mem st (put_signature m buffer)) last in
  let st := write_disk (assign st dev_id 0) buffer 0 blksz in
  let m := memcpy (load st) buffer psz (cfg_records * part_sz_size) in
  m ← record_offsets m (buffer + part_sz_size * INFO_SPARE_IMAGES) g imagebase;
  let st := write_disk (assign (set_mem st m) dev_id 0) buffer blksz blksz in
  Some (release (release st buffer) table, 0).

Definition block_partition (fuel : nat) st (psz : Z) : option (board * Z) :=
  '(st, dev_id) ← device st fuel;
  let '(st, blksz) := align_of st dev_id in
  let '(st, c) := capacity_of st dev_id in
  if u32 c <=? 0 then Some (st, -1) else divide st dev_id blksz (u32 c) psz.

(** The disk, its block size and a buffer for one block. *)
Definition open_disk (fuel : nat) st : option (board * Z * Z * Z) :=
  '(st, dev_id) ← device st fuel;
  let '(st, blksz) := align_of st dev_id in
  let '(st, buffer) := alloc st blksz in
  Some (st, dev_id, blksz, buffer).

Definition block_get_base (fuel : nat) st (target : Z) : option (board * Z) :=
  '(st, dev_id, blksz, buffer) ← open_disk fuel st;
  if buffer =? NULL then Some (st, -1) else
  st ← read_disk (assign st dev_id 1) buffer blksz blksz;
  '(index, base) ← find_base (Z.to_nat cfg_records) fuel 0 (load st) buffer target;
  let '(st, capacity) := capacity_of st dev_id in
  let base := if index <? INFO_SPARE_IMAGES then s64 (Z.shiftl base 20) else s64 (base * blksz) in
  Some (release st buffer, if s64 (capacity * blksz) <? base then -1 else base).

Definition block_is_parted (fuel : nat) st : option (board * Z) :=
  '(st, dev_id, blksz, buffer) ← open_disk fuel st;
  if buffer =? NULL then Some (st, -1) else
  st ← read_disk (assign st dev_id 1) buffer 0 blksz;
  Some (release st buffer, b2z (s32 (load32 (load st) (buffer + 4 * 0x48)) =? DISK_PARTITIONED)).

Definition block_get_part_info (fuel : nat) st (psz : Z) : option (board * Z) :=
  if psz =? NULL then Some (st, -1) else
  '(st, dev_id, blksz, buffer) ← open_disk fuel st;
  if buffer =? NULL then Some (st, -1) else
  st ← read_disk (assign st dev_id 1) buffer (s32 (INFO_PART_CFG_BASE * blksz)) blksz;
  let m := memcpy (load st) psz buffer ((10 + Z.of_nat INFO_MAX_PARTITIONS) * part_sz_size) in
  Some (release (set_mem st m) buffer, s32 psz).

(** ** storage.c *)

Definition storage_part (fuel : nat) st : option (board * Z) :=
  '(st, dev_id) ← device st fuel;
  if dev_id =? DEV_NAND then Some (st, 0) else
  if (6 <=? dev_id) && (dev_id <=? 10) then
    '(m, g, _) ← storage_get_new_config items cfg s_info s_pname fuel (load st) (parts st);
    block_partition fuel (set_parts (set_mem st m) g) cfg
  else Some (st, 0).


Definition storage_offset (fuel : nat) st (p : Z) : option (board * Z) :=
  if p =? NULL then Some (st, 0) else
  '(st, dev_id) ← device st fuel;
  if dev_id =? DEV_NAND then
    if strncmp (load st) p (lit p_uboot0) 10 =? 0 then Some (st, 0) else
    '(m, r) ← nand_offset_loop items cfg s_s s_int (length default_cfg) fuel 0 (load st) p 0;
    Some (set_mem st m, match r with inl parted => parted | inr offs => offs end)
  else if (6 <=? dev_id) && (dev_id <=? 10) then
    parted ← spare_offset_loop cfg (Z.to_nat INFO_SPARE_IMAGES) fuel 0 (load st) p;
    if parted =? 0 then block_get_base fuel st p else Some (st, parted)
  else Some (st, 0).

End Disk.
(** ** Strings in memory *)

(** [%s] with neither width nor precision copies the string. *)
Lemma string_whole m p s : cstr_at m p s -> p <> NULL -> Z.of_nat (length s) < 2 ^ 31 -> Vsprintf.string m p (-1) (-1) 0 = s.
Proof.
  intros H Hp Hl. unfold Vsprintf.string. rewrite (proj2 (Z.eqb_neq p NULL)) by done.
  assert (strnlen m p (-1) = strnlen m p (2 ^ 32 - 1)) as ->.
  { unfold strnlen. replace (u32 (-1)) with (u32 (2 ^ 32 - 1)) by reflexivity. reflexivity. }
  rewrite (strnlen_spec m p s _ H) by (unfold is_u32; lia).
  rewrite Z.min_r by lia. rewrite Nat2Z.id, (cstr_bytes _ _ _ H). unfold string_body.
  replace (Z.to_nat (-1 - Z.of_nat (length s))) with 0%nat by lia. done.
Qed.

Lemma sprint_part_spec fuel m dst p s : (8 <= fuel)%nat ->
  cstr_at m p s -> p <> NULL -> Z.of_nat (length s) < 2 ^ 31 ->
  sprint_part fuel m dst p = Some (store m dst ((s_part ++ s) ++ [0])).
Proof.
  intros Hf H Hp Hl. unfold sprint_part, sprintf, vsprintf, s_part_fmt, s_part. cbn [app].
  do 8 (destruct fuel as [|fuel]; [lia|]). cbn -[Vsprintf.string]. rewrite (string_whole m p s) by done. done.
Qed.

(** Only the text up to the NUL counts for a number. *)
Lemma digits_nul wrap s r base : forall acc, (digits_loop wrap (s ++ 0 :: r) base acc).1 = (digits_loop wrap s base acc).1.
Proof.
  induction s as [|c s IH]; intros acc; cbn [app digits_loop]; [done|]. case_match; [apply IH|done].
Qed.

Lemma ch_nul s r : ch (s ++ 0 :: r) = ch s.
Proof. by destruct s. Qed.

Lemma strtou_nul wrap s r base : (strtou wrap (s ++ 0 :: r) base).1 = (strtou wrap s base).1.
Proof.
  unfold strtou. rewrite ch_nul. destruct (Z.eqb_spec (ch s) 48) as [E|]; [|apply digits_nul].
  destruct s as [|c s]; [done|]. cbn [app tl]. rewrite ch_nul.
  destruct (Z.eqb_spec (ch s) 120) as [E'|]; cbn [andb]; [|apply digits_nul].
  destruct s as [|c' s]; [done|]. cbn [app tl]. rewrite ch_nul. destruct (isxdigit (ch s)); [apply digits_nul|].
  apply (digits_nul wrap (c' :: s) r).
Qed.

Lemma strtol_nul s r base : (simple_strtol (s ++ 0 :: r) base).1 = (simple_strtol s base).1.
Proof.
  unfold simple_strtol. rewrite ch_nul. destruct (Z.eqb_spec (ch s) 45) as [E|].
  - destruct s as [|c s]; [done|]. cbn [app tl]. unfold simple_strtoul. pose proof (strtou_nul u32 s r base) as H.
    destruct (strtou u32 (s ++ 0 :: r) base), (strtou u32 s base). cbn [fst] in *. by rewrite H.
  - unfold simple_strtoul. pose proof (strtou_nul u32 s r base) as H.
    destruct (strtou u32 (s ++ 0 :: r) base), (strtou u32 s base). cbn [fst] in *. by rewrite H.
Qed.

Lemma bytes_at_cstr m p s n : cstr_at m p s -> (length s < n)%nat -> exists r, bytes_at m p n = s ++ 0 :: r.
Proof.
  intros [E _] Hn. replace n with (S (length s) + (n - S (length s)))%nat by lia. rewrite bytes_at_app, E.
  eexists. by rewrite <- app_assoc.
Qed.

(** ** Lookups through the stack *)

Lemma item_string_ok fuel m items buf k sec m' r : mem_ok m -> item_string fuel m items buf k sec = Some (m', r) -> mem_ok m'.
Proof.
  intros Hm. unfold item_string. destruct (string_loop _ _ _ _ _ _ _) as [s|]; cbn [mbind option_bind]; [|done].
  destruct (s =? NULL); intros [= <- _]; [done|by apply mem_ok_strncpy].
Qed.

Lemma holds_same f g l : forall m m' t n,
  (forall t, t <= f t <= t + ITEM_MAX_LEN) -> (forall t, t <= g t <= t + ITEM_MAX_LEN) -> holds f g m t l ->
  item_size * (Z.of_nat (length l) + 1) <= Z.of_nat n -> same_on m m' t n -> holds f g m' t l.
Proof.
  induction l as [|[k ss] l IH]; intros m m' t n Hf Hg Hl Hn Hs; cbn [holds length] in *.
  - rewrite Hs; [done|]. unfold key, item_size, ITEM_MAX_LEN in *. lia.
  - destruct Hl as [[Ek Es Eu Fk Fs Hss] Hl]. cbn [fst snd] in *. unfold fits, item_size, ITEM_MAX_LEN in *.
    pose proof (Hf t). pose proof (Hg t). split.
    + split; try done; cbn [fst snd].
      * eapply cstr_at_ext; [|exact Ek]. intros q Hq. apply Hs. lia.
      * eapply cstr_at_ext; [|exact Es]. intros q Hq. apply Hs. lia.
      * rewrite Hs; [done|]. unfold key. lia.
    + apply (IH m m' (t + 2 * 64) (n - 128)%nat); try done; [unfold item_size, ITEM_MAX_LEN; lia|]. intros q Hq. apply Hs. lia.
Qed.

(** The number an item has: [-ITEMS_EINT] when there is none. *)
Definition int_value (l : list Items.item) (k : list Z) : Z :=
  match item_lookup l k 0 with Some s => (simple_strtol s 10).1 | None => - ITEMS_EINT end.

Lemma item_integer_spec fuel m items buf kp k l :
  mem_ok m -> cstr_at m kp k -> fits k -> 0 < items -> (length l + 64 < fuel)%nat ->
  buf + ITEM_MAX_LEN <= items \/ items + item_size * Z.of_nat (length l) <= buf ->
  holds key Items.string m items l ->
  exists m', item_integer fuel m items buf kp 0 = Some (m', int_value l k) /\ same_except m m' buf 64 /\ mem_ok m'.
Proof.
  intros Hm Hk Fk Hi Hf Hb Hl. pose proof (item_string_correct fuel m items buf kp 0 k l false Hm Hk Fk ltac:(lia) Hi Hf Hb Hl) as H.
  cbv zeta iota in H. unfold item_integer, int_value.
  destruct (item_lookup l k 0) as [s|] eqn:E.
  - destruct H as (m' & Er & Hs & Hx). pose proof (item_string_ok _ _ _ _ _ _ _ _ Hm Er) as Hm'. rewrite Er. cbn [mbind option_bind Z.eqb negb].
    assert (fits s) as Fs by (eapply item_lookup_fits; [exact Hl|exact E]).
    destruct (bytes_at_cstr m' buf s fuel Hs) as [r Eb]; [unfold fits, ITEM_MAX_LEN in Fs; lia|].
    exists m'. rewrite Eb, strtol_nul. done.
  - rewrite H. exists m. split_and!; [done|intros q _; done|done].
Qed.

(** ** The board *)

Section Board.
Context (lit : list Z -> Z) (items cfg : Z) (s_buf s_info s_pname s_s s_int : Z).
(** The arrays on the stack lie in the [sn] bytes at [sp]. *)
Context (sp : Z) (sn : nat).

Abbreviation cfg_entry := (list Z * Z * Z)%type.

(** The record at [t]. *)
Record cfg_record (m : mem) (t : Z) (e : cfg_entry) : Prop := {
  cr_name : cstr_at m (part_name t) e.1.1;
  cr_short : (length e.1.1 < 12)%nat;
  cr_offs : part_offs m t = e.1.2;
  cr_size : part_size m t = e.2
}.

(** Items [l] and table [ct], and the string literals. *)
Record board_mem (l : list Items.item) (ct : list cfg_entry) (m : mem) : Prop := {
  bm_ok : mem_ok m;
  bm_items : holds key Items.string m items l;
  bm_lits : Forall (fun s => cstr_at m (lit s) s) (s_board_disk :: p_uboot0 :: devs);
  bm_cfg : forall i e, ct !! i = Some e -> cfg_record m (cfg_at cfg (Z.of_nat i)) e
}.

(** Off the stack. *)
Definition clear_of (p n : Z) : Prop := p + n <= sp \/ sp + Z.of_nat sn <= p.
(** On the stack. *)
Definition inside (p n : Z) : Prop := sp <= p /\ p + n <= sp + Z.of_nat sn.

Record placement (l : list Items.item) (ct : list cfg_entry) : Prop := {
  pl_items : 0 < items /\ clear_of items (item_size * (Z.of_nat (length l) + 1));
  pl_lits : Forall (fun s => clear_of (lit s) (Z.of_nat (length s) + 1)) (s_board_disk :: p_uboot0 :: devs);
  pl_cfg : 0 < cfg /\ clear_of cfg (part_sz_size * Z.of_nat (length ct));
  pl_buf : inside s_buf 64;
  pl_s : inside s_s 32;
  pl_int : inside s_int 64
}.

Lemma same_inside m m' p n : inside p (Z.of_nat n) -> same_except m m' p n -> same_except m m' sp sn.
Proof. intros [H1 H2] H. eapply same_except_weaken; [..|exact H]; lia. Qed.

Lemma cstr_clear m m' p s : clear_of p (Z.of_nat (length s) + 1) -> same_except m m' sp sn -> cstr_at m p s -> cstr_at m' p s.
Proof. intros Hc H. apply cstr_at_ext. eapply same_except_on; [exact H|]. unfold clear_of in Hc. lia. Qed.

Lemma cfg_record_same m m' t e : same_on m m' t 20 -> cfg_record m t e -> cfg_record m' t e.
Proof.
  intros Hs [H1 H2 H3 H4]. unfold part_offs, part_size, part_name in *. split; [|done| |].
  - eapply cstr_at_ext; [|exact H1]. intros q Hq. apply Hs. unfold part_name in *. lia.
  - unfold part_offs. rewrite (load32_same m m'); [done|]. intros q Hq. apply Hs. lia.
  - unfold part_size. rewrite (load32_same m m'); [done|]. intros q Hq. apply Hs. lia.
Qed.

(** The [n] bytes at [p] hold none of the tables and literals. *)
Definition off_tables (l : list Items.item) (ct : list cfg_entry) (p n : Z) : Prop :=
  (p + n <= items \/ items + item_size * (Z.of_nat (length l) + 1) <= p) /\
  (p + n <= cfg \/ cfg + part_sz_size * Z.of_nat (length ct) <= p) /\
  Forall (fun s => p + n <= lit s \/ lit s + Z.of_nat (length s) + 1 <= p) (s_board_disk :: p_uboot0 :: devs).

Lemma board_mem_off l ct m m' p n : board_mem l ct m -> mem_ok m' -> 0 < items -> off_tables l ct p (Z.of_nat n) ->
  same_except m m' p n -> board_mem l ct m'.
Proof.
  intros [H1 H2 H3 H4] Hm' Hi (Oi & Oc & Ol) Hs. split; [done| | |].
  - eapply (holds_same key Items.string l m m' items (Z.to_nat (item_size * (Z.of_nat (length l) + 1)))); try done;
      try (intros t; unfold key, Items.string, ITEM_MAX_LEN; lia); [unfold item_size, ITEM_MAX_LEN; lia|].
    eapply same_except_on; [exact Hs|]. unfold item_size, ITEM_MAX_LEN in *. lia.
  - rewrite Forall_forall in Ol, H3 |- *. intros s E. eapply cstr_at_ext; [|by apply H3]. eapply same_except_on; [exact Hs|].
    specialize (Ol s E). lia.
  - intros i e E. eapply cfg_record_same; [|by apply H4]. eapply same_except_on; [exact Hs|].
    pose proof (lookup_lt_Some _ _ _ E) as Hl. unfold cfg_at, part_sz_size in *. lia.
Qed.

Lemma placement_off l ct : placement l ct -> off_tables l ct sp (Z.of_nat sn).
Proof.
  intros [ [_ Pi] Pl [_ Pc] _ _ _]. unfold clear_of in *. split; [lia|]. split; [lia|]. eapply Forall_impl; [exact Pl|].
  intros s Hs. cbn in Hs. lia.
Qed.

Lemma board_mem_same l ct m m' : placement l ct -> mem_ok m' -> same_except m m' sp sn -> board_mem l ct m -> board_mem l ct m'.
Proof. intros P Hm' Hs B. eapply board_mem_off; [exact B|done|by destruct P as [ [? _] ]|by apply placement_off|exact Hs]. Qed.

(** ** The disk *)

(** The number of a device, by its name in the configuration. *)
Fixpoint name_index (names : list (list Z)) (s : list Z) (i : Z) : Z :=
  match names with
  | [] => DEV_NAND
  | d :: names => if bool_decide (d = s) then i else name_index names s (i + 1)
  end.

Definition disk_of (l : list Items.item) : Z :=
  match item_lookup l s_board_disk 0 with Some s => name_index devs s 0 | None => DEV_NAND end.

Lemma take_eq_short (d s : list Z) n : (length d < n)%nat -> take n d = take n s <-> d = s.
Proof.
  intros Hd. split; [|by intros ->]. intros E. rewrite take_ge in E by lia.
  destruct (decide (length s <= n)%nat).
  - by rewrite take_ge in E by lia.
  - apply (f_equal length) in E. rewrite length_take in E. lia.
Qed.

Lemma devs_loop_spec m s : mem_ok m -> cstr_at m s_buf s -> forall names i,
  Forall (fun d => (length d < 20)%nat /\ cstr_at m (lit d) d) names ->
  devs_loop lit s_buf m names i = name_index names s i.
Proof.
  intros Hm Hs. induction names as [|d names IH]; intros i H; cbn [devs_loop name_index]; [done|].
  apply Forall_cons in H as [ [Hd Cd] H]. rewrite IH by done.
  pose proof (strncmp_zero m (lit d) s_buf d s 20 Hm Cd Hs ltac:(unfold is_u32; lia)) as E.
  rewrite take_eq_short in E by (change (Z.to_nat 20) with 20%nat; lia).
  case_bool_decide as Ed; destruct (Z.eqb_spec (strncmp m (lit d) s_buf 20) 0) as [E0|E0]; try done; exfalso; tauto.
Qed.

Lemma devs_short : Forall (fun d => (length d < 20)%nat) devs.
Proof. apply (bool_decide_eq_true_1 _). reflexivity. Qed.

Lemma storage_device_spec fuel l ct m :
  placement l ct -> board_mem l ct m -> (length l + 64 < fuel)%nat ->
  exists m', storage_device lit items s_buf fuel m = Some (m', disk_of l) /\ same_except m m' s_buf 64 /\ mem_ok m'.
Proof.
  intros P B Hf. pose proof P as [ [Hi Pi] Pl _ Pb _ _]. pose proof B as [Hm Hl Ht _].
  pose proof (Forall_inv Ht) as Hk. cbn beta in Hk.
  assert (s_buf + ITEM_MAX_LEN <= items \/ items + item_size * Z.of_nat (length l) <= s_buf) as Hb
    by (unfold clear_of, inside, item_size, ITEM_MAX_LEN in *; lia).
  pose proof (item_string_correct fuel m items s_buf (lit s_board_disk) 0 s_board_disk l false Hm Hk ltac:(by vm_compute) ltac:(lia) Hi Hf Hb Hl) as H.
  cbv zeta iota in H. unfold storage_device, disk_of. destruct (item_lookup l s_board_disk 0) as [s|] eqn:E.
  - destruct H as (m' & Er & Hs & Hx). pose proof (item_string_ok _ _ _ _ _ _ _ _ Hm Er) as Hm'. rewrite Er.
    exists m'. split; [|done]. cbn [mbind option_bind]. change (0 <? 0) with false. cbv iota. do 2 f_equal.
    apply devs_loop_spec; [done|done|]. apply Forall_and. split; [exact devs_short|].
    assert (board_mem l ct m') as [_ _ B' _] by (eapply board_mem_same; [exact P|done| |exact B]; by eapply (same_inside m m' s_buf 64)).
    by apply Forall_cons in B' as [_ [_ ?]%Forall_cons].
  - rewrite H. exists m. split_and!; [done|intros q _; done|done].
Qed.

(** ** Sizes and places on NAND *)

(** What the configuration says of the size of a partition. *)
Definition part_mb (l : list Items.item) (e : cfg_entry) : Z :=
  let v := int_value l (s_part ++ e.1.1) in if v =? ITEMS_EINT then e.2 else v.

Fixpoint size_of_part (l : list Items.item) (ct : list cfg_entry) (name : list Z) : Z :=
  match ct with
  | [] => 0
  | e :: ct => if bool_decide (e.1.1 = name) then s64 (Z.shiftl (part_mb l e) 20) else size_of_part l ct name
  end.

(** The place of the partition [name], [parted] megabytes being passed; [inl]
    where there is none. *)
Fixpoint nand_place (l : list Items.item) (ct : list cfg_entry) (name : list Z) (parted : Z) : Z + Z :=
  match ct with
  | [] => inl parted
  | e :: ct =>
      if bool_decide (e.1.1 = name) then inr (s64 (Z.shiftl parted 20))
      else if negb (e.1.2 =? 0) then nand_place l ct name (s32 (e.1.2 + e.2))
      else nand_place l ct name (s64 (parted + part_mb l e))
  end.

Lemma name_match m t e p name : mem_ok m -> cfg_record m t e -> cstr_at m p name ->
  (strncmp m (part_name t) p 20 =? 0) = bool_decide (e.1.1 = name).
Proof.
  intros Hm [Hn Hs _ _] Hp. pose proof (strncmp_zero m _ _ _ _ 20 Hm Hn Hp ltac:(unfold is_u32; lia)) as E.
  rewrite take_eq_short in E by (change (Z.to_nat 20) with 20%nat; lia).
  case_bool_decide; [apply Z.eqb_eq|apply Z.eqb_neq]; tauto.
Qed.

(** One lookup: print the key, then find the item. *)
Lemma lookup_part fuel l ct m p name : placement l ct -> board_mem l ct m -> (length l + 64 < fuel)%nat ->
  cstr_at m p name -> p <> NULL -> (length name < 12)%nat ->
  exists m1 m2, sprint_part fuel m s_s p = Some m1 /\
    item_integer fuel m1 items s_int s_s 0 = Some (m2, int_value l (s_part ++ name)) /\
    same_except m m2 sp sn /\ board_mem l ct m2.
Proof.
  intros P B Hf Hp Hp0 Hn. pose proof P as [ [Hi Pi] Pl _ _ Ps Pint]. pose proof B as [Hm _ _ _].
  pose proof (sprint_part_spec fuel m s_s p name ltac:(lia) Hp Hp0 ltac:(lia)) as E1.
  set (m1 := store m s_s _) in E1.
  assert (Forall (fun c => c <> 0) (s_part ++ name)) as Hnz.
  { apply Forall_app. split; [apply (bool_decide_eq_true_1 _); reflexivity|by destruct Hp]. }
  assert (cstr_at m1 s_s (s_part ++ name)) as Hk by by apply cstr_at_store.
  assert (mem_ok m1) as Hm1.
  { apply mem_ok_store; [done|]. apply Forall_app. split; [|by repeat constructor]. apply Forall_app. split.
    - apply (bool_decide_eq_true_1 _). reflexivity.
    - rewrite <- (cstr_bytes _ _ _ Hp). by apply bytes_ok_bytes_at. }
  assert (same_except m m1 sp sn) as Hs1.
  { eapply (same_inside _ _ s_s); [|apply same_except_store]. unfold inside in *. rewrite !length_app. change (length s_part) with 5%nat. cbn [length]. lia. }
  assert (board_mem l ct m1) as B1 by by eapply board_mem_same. pose proof B1 as [_ Hl1 _ _].
  destruct (item_integer_spec fuel m1 items s_int s_s (s_part ++ name) l) as (m2 & E2 & Hs2 & Hm2); try done.
  - unfold fits, ITEM_MAX_LEN. rewrite length_app. change (length s_part) with 5%nat. lia.
  - unfold clear_of, inside, item_size, ITEM_MAX_LEN in *. lia.
  - assert (same_except m1 m2 sp sn) as Hs2' by by eapply (same_inside m1 m2 s_int 64).
    exists m1, m2. split_and!; [done|done| |by eapply board_mem_same]. by eapply same_except_trans.
Qed.

Lemma cfg_pos l ct i : placement l ct -> (i < length ct)%nat -> part_name (cfg_at cfg (Z.of_nat i)) <> NULL /\
  clear_of (cfg_at cfg (Z.of_nat i)) 20.
Proof. intros [_ _ [? Pc] _ _ _] Hi. unfold clear_of, part_name, cfg_at, part_sz_size, NULL in *. lia. Qed.

Lemma size_loop_spec fuel l ct m p name : placement l ct -> board_mem l ct m -> (length l + 64 < fuel)%nat ->
  cstr_at m p name -> p <> NULL -> clear_of p (Z.of_nat (length name) + 1) ->
  forall n i, (n + i = length ct)%nat ->
  exists m', size_loop items cfg s_s s_int n fuel (Z.of_nat i) m p = Some (m', size_of_part l (drop i ct) name) /\
    same_except m m' sp sn.
Proof.
  intros P B Hf Hp Hp0 Hc. induction n as [|n IH]; intros i Hn; cbn [size_loop].
  { rewrite drop_ge by lia. exists m. by split; [|intros q _]. }
  destruct (lookup_lt_is_Some_2 ct i) as [e E]; [lia|]. pose proof B as [Hm _ _ Bc]. pose proof (Bc _ _ E) as R.
  rewrite (drop_S _ _ _ E). cbn [size_of_part]. rewrite (name_match m _ e p name) by done.
  case_bool_decide as En.
  - pose proof R as [_ Hs _ _]. rewrite En in Hs.
    destruct (lookup_part fuel l ct m p name P B Hf Hp Hp0 Hs) as (m1 & m2 & E1 & E2 & Hx & [_ _ _ Bc2]).
    rewrite E1. cbn [mbind option_bind]. rewrite E2. cbn [mbind option_bind]. exists m2. split; [|done].
    unfold part_mb. rewrite En. destruct (Bc2 _ _ E) as [_ _ _ Hsz]. by rewrite Hsz.
  - replace (Z.of_nat i + 1) with (Z.of_nat (S i)) by lia. apply IH. lia.
Qed.

Lemma nand_loop_spec fuel l ct p name : placement l ct -> (length l + 64 < fuel)%nat ->
  clear_of p (Z.of_nat (length name) + 1) ->
  forall n i m parted, (n + i = length ct)%nat -> board_mem l ct m -> cstr_at m p name ->
  exists m', nand_offset_loop items cfg s_s s_int n fuel (Z.of_nat i) m p parted = Some (m', nand_place l (drop i ct) name parted).
Proof.
  intros P Hf Hc. induction n as [|n IH]; intros i m parted Hn B Hp; cbn [nand_offset_loop].
  { rewrite drop_ge by lia. by exists m. }
  destruct (lookup_lt_is_Some_2 ct i) as [e E]; [lia|]. pose proof B as [Hm _ _ Bc]. pose proof (Bc _ _ E) as R.
  rewrite (drop_S _ _ _ E). cbn [nand_place]. rewrite (name_match m _ e p name) by done.
  case_bool_decide as En; [by exists m|]. pose proof R as [Rn Rs Ro Rz]. rewrite Ro, Rz.
  replace (Z.of_nat i + 1) with (Z.of_nat (S i)) by lia.
  destruct (e.1.2 =? 0); cbn [negb]; [|apply IH; [lia|done|done]].
  destruct (cfg_pos l ct i P ltac:(lia)) as [H0 _].
  destruct (lookup_part fuel l ct m _ _ P B Hf Rn H0 Rs) as (m1 & m2 & E1 & E2 & Hx & B2).
  rewrite E1. cbn [mbind option_bind]. rewrite E2. cbn [mbind option_bind].
  pose proof B2 as [_ _ _ Bc2]. destruct (Bc2 _ _ E) as [_ _ _ Hsz]. rewrite Hsz.
  apply IH; [lia|done|by eapply cstr_clear].
Qed.

(** The megabytes in front of what follows [ct]. *)
Definition passed_step (l : list Items.item) (parted : Z) (e : cfg_entry) : Z :=
  if negb (e.1.2 =? 0) then s32 (e.1.2 + e.2) else s64 (parted + part_mb l e).
Definition passed (l : list Items.item) (ct : list cfg_entry) : Z := fold_left (passed_step l) ct 0.

Definition names_of (ct : list cfg_entry) : list (list Z) := map (fun e => e.1.1) ct.

Lemma nand_place_at l ct : forall i e parted, NoDup (names_of ct) -> ct !! i = Some e ->
  nand_place l ct e.1.1 parted = inr (s64 (Z.shiftl (fold_left (passed_step l) (take i ct) parted) 20)).
Proof.
  induction ct as [|e0 ct IH]; intros i e parted Hd E; [done|]. cbn [names_of map] in Hd. apply NoDup_cons in Hd as [Hn Hd].
  cbn [nand_place]. destruct i as [|i]; cbn in E.
  - injection E as ->. by rewrite bool_decide_eq_true_2.
  - rewrite bool_decide_eq_false_2.
    + cbn [take fold_left]. rewrite <- (IH i e) by done. unfold passed_step. by destruct (e0.1.2 =? 0).
    + intros H. apply Hn. rewrite H. apply list_elem_of_fmap. exists e. split; [done|]. by eapply list_elem_of_lookup_2.
Qed.

Lemma size_of_part_at l ct : forall i e, NoDup (names_of ct) -> ct !! i = Some e ->
  size_of_part l ct e.1.1 = s64 (Z.shiftl (part_mb l e) 20).
Proof.
  induction ct as [|e0 ct IH]; intros i e Hd E; [done|]. cbn [names_of map] in Hd. apply NoDup_cons in Hd as [Hn Hd].
  cbn [size_of_part]. destruct i as [|i]; cbn in E.
  - injection E as ->. by rewrite bool_decide_eq_true_2.
  - rewrite bool_decide_eq_false_2; [by eapply IH|].
    intros H. apply Hn. rewrite H. apply list_elem_of_fmap. exists e. split; [done|]. by eapply list_elem_of_lookup_2.
Qed.

Lemma default_names : NoDup (names_of default_cfg).
Proof. apply (bool_decide_eq_true_1 _). reflexivity. Qed.

Lemma default_behind i e : default_cfg !! i = Some e -> (10 <= i)%nat -> e.1.2 = 0.
Proof.
  intros E Hi. assert (Forall (fun e => e.1.2 = 0) (drop 10 default_cfg)) as H by (apply (bool_decide_eq_true_1 _); reflexivity).
  apply (Forall_lookup_1 _ _ (i - 10) _ H). rewrite lookup_drop. by replace (10 + (i - 10))%nat with i by lia.
Qed.

(** Sizes that are configured and sane. *)
Definition sized (l : list Items.item) : Prop :=
  forall i e, default_cfg !! i = Some e -> (10 <= i)%nat -> 0 <= part_mb l e < 2 ^ 20.

Lemma passed_range l n : sized l -> (10 + n <= 17)%nat ->
  0 <= passed l (take (10 + n) default_cfg) <= 112 + Z.of_nat n * 2 ^ 20.
Proof.
  intros Hs. induction n as [|n IH]; intros Hn; [vm_compute; intuition congruence|].
  destruct (lookup_lt_is_Some_2 default_cfg (10 + n)) as [e E]; [cbn; lia|].
  replace (10 + S n)%nat with (S (10 + n)) by lia. rewrite (take_S_r _ _ _ E). unfold passed. rewrite fold_left_app. cbn [fold_left].
  fold (passed l (take (10 + n) default_cfg)). specialize (IH ltac:(lia)). pose proof (Hs _ _ E ltac:(lia)) as Hm.
  unfold passed_step. rewrite (default_behind _ _ E) by lia. cbn [Z.eqb negb]. rewrite s64_small by lia. lia.
Qed.

Lemma passed_next l i e : sized l -> default_cfg !! i = Some e -> (10 <= i)%nat ->
  passed l (take (S i) default_cfg) = passed l (take i default_cfg) + part_mb l e.
Proof.
  intros Hs E Hi. pose proof (passed_range l (i - 10) Hs) as H. replace (10 + (i - 10))%nat with i in H by lia.
  pose proof (lookup_lt_Some _ _ _ E) as Hlt. change (length default_cfg) with 17%nat in Hlt. specialize (H ltac:(lia)).
  rewrite (take_S_r _ _ _ E). unfold passed at 1. rewrite fold_left_app. cbn [fold_left]. fold (passed l (take i default_cfg)).
  pose proof (Hs _ _ E Hi). unfold passed_step. rewrite (default_behind _ _ E Hi). cbn [Z.eqb negb]. rewrite s64_small by lia. lia.
Qed.

Lemma megabytes z : 0 <= z < 2 ^ 24 -> s64 (Z.shiftl z 20) = z * 2 ^ 20.
Proof. intros H. rewrite Z.shiftl_mul_pow2 by lia. apply s64_small. lia. Qed.

End Board.

Section Claims.
Context {D : Type} (dr : drivers D) (CONFIG_ENABLE_UDISK : bool).
Context (lit : list Z -> Z) (items cfg : Z) (s_buf s_info s_pname s_s s_int sp : Z) (sn : nat).
Abbreviation placement := (placement lit items cfg s_buf s_s s_int sp sn).
Abbreviation board_mem := (board_mem lit items cfg).
Abbreviation clear_of := (clear_of sp sn).
Abbreviation offset := (storage_offset dr CONFIG_ENABLE_UDISK lit items cfg s_buf s_s s_int).
Abbreviation size := (storage_size items cfg s_s s_int).
Implicit Type st : board D.

Lemma storage_offset_nand fuel st l p name :
  placement l default_cfg -> board_mem l default_cfg (load st) -> (length l + 64 < fuel)%nat -> disk_of l = DEV_NAND ->
  cstr_at (load st) p name -> p <> NULL -> clear_of p (Z.of_nat (length name) + 1) ->
  exists st', offset fuel st p = Some (st', match nand_place l default_cfg name 0 with inl a | inr a => a end).
Proof.
  intros P B Hf Hd Hp Hp0 Hc. unfold storage_offset. rewrite (proj2 (Z.eqb_neq p NULL)) by done.
  destruct (storage_device_spec lit items cfg s_buf s_s s_int sp sn fuel l default_cfg (load st) P B Hf) as (m' & E & Hs & Hm').
  unfold device. rewrite E. cbn [mbind option_bind]. rewrite Hd. change (DEV_NAND =? DEV_NAND) with true. cbv iota.
  change (load (set_mem st m')) with m'.
  assert (same_except (load st) m' sp sn) as Hs' by (eapply (same_inside sp sn _ _ s_buf 64); [|exact Hs]; by destruct P).
  assert (board_mem l default_cfg m') as B' by (eapply board_mem_same; [exact P|done|exact Hs'|done]).
  assert (cstr_at m' p name) as Hp' by (eapply cstr_clear; [exact Hc|exact Hs'|exact Hp]).
  pose proof B' as [_ _ Bl _]. apply Forall_cons in Bl as [_ [Bu _]%Forall_cons].
  pose proof (strncmp_zero m' p (lit p_uboot0) name p_uboot0 10 Hm' Hp' Bu ltac:(unfold is_u32; lia)) as Ez.
  destruct (Z.eqb_spec (strncmp m' p (lit p_uboot0) 10) 0) as [E0|E0].
  - apply Ez in E0. symmetry in E0. apply (take_eq_short p_uboot0 name) in E0; [|vm_compute; lia].
    rewrite <- E0. eexists. done.
  - destruct (nand_loop_spec lit items cfg s_buf s_s s_int sp sn fuel l default_cfg p name P Hf Hc (length default_cfg) 0 m' 0) as [m2 E2];
      [done|exact B'|exact Hp'|]. change (Z.of_nat 0) with 0 in E2. rewrite E2. cbn [mbind option_bind]. eexists. done.
Qed.

(** C25: on a NAND board each partition begins where the one before ends: the
    sizes that [storage_size] reports add up to the places that
    [storage_offset] reports, from 112 megabytes on. *)
Theorem nand_partitions_abut fuel st l i e e' p p' :
  placement l default_cfg -> board_mem l default_cfg (load st) -> (length l + 64 < fuel)%nat -> disk_of l = DEV_NAND -> sized l ->
  default_cfg !! i = Some e -> default_cfg !! S i = Some e' -> (10 <= i)%nat ->
  cstr_at (load st) p e.1.1 -> p <> NULL -> clear_of p (Z.of_nat (length e.1.1) + 1) ->
  cstr_at (load st) p' e'.1.1 -> p' <> NULL -> clear_of p' (Z.of_nat (length e'.1.1) + 1) ->
  exists st1 st2 m o s, offset fuel st p = Some (st1, o) /\ size fuel (load st) p = Some (m, s) /\
    offset fuel st p' = Some (st2, o + s) /\ (i = 10%nat -> o = 112 * 2 ^ 20).
Proof.
  intros P B Hf Hd Hz E E' Hi Hp Hp0 Hc Hp' Hp0' Hc'.
  destruct (storage_offset_nand fuel st l p _ P B Hf Hd Hp Hp0 Hc) as [st1 O1].
  destruct (storage_offset_nand fuel st l p' _ P B Hf Hd Hp' Hp0' Hc') as [st2 O2].
  destruct (size_loop_spec lit items cfg s_buf s_s s_int sp sn fuel l default_cfg (load st) p _ P B Hf Hp Hp0 Hc 17 0 eq_refl) as (m & Es & _).
  rewrite (nand_place_at l default_cfg i e 0 default_names E) in O1. rewrite (nand_place_at l default_cfg (S i) e' 0 default_names E') in O2.
  fold (passed l (take i default_cfg)) in O1. fold (passed l (take (S i) default_cfg)) in O2.
  change (Z.of_nat 0) with 0 in Es. change (drop 0 default_cfg) with default_cfg in Es. rewrite (size_of_part_at l default_cfg i e default_names E) in Es.
  rewrite (passed_next l i e Hz E Hi) in O2. pose proof (lookup_lt_Some _ _ _ E') as Hlt. change (length default_cfg) with 17%nat in Hlt.
  pose proof (passed_range l (i - 10) Hz ltac:(lia)) as Hr. replace (10 + (i - 10))%nat with i in Hr by lia. pose proof (Hz i e E Hi) as Hm.
  rewrite megabytes in O1, O2, Es by lia.
  exists st1, st2, m, (passed l (take i default_cfg) * 2 ^ 20), (part_mb l e * 2 ^ 20). split_and!.
  - exact O1.
  - unfold storage_size. rewrite (proj2 (Z.eqb_neq p NULL)) by done. exact Es.
  - rewrite O2. do 2 f_equal. lia.
  - by intros ->.
Qed.

(** A partition without an entry in the configuration has no size: what
    [item_integer] returns for it is the negative of the number that
    [storage_size] compares with, and its default size is not used. *)
Theorem storage_size_unconfigured fuel m l e p i :
  placement l default_cfg -> board_mem l default_cfg m -> (length l + 64 < fuel)%nat ->
  default_cfg !! i = Some e -> item_lookup l (s_part ++ e.1.1) 0 = None ->
  cstr_at m p e.1.1 -> p <> NULL -> clear_of p (Z.of_nat (length e.1.1) + 1) ->
  exists m', size fuel m p = Some (m', - 9999 * 2 ^ 20).
Proof.
  intros P B Hf E Hn Hp Hp0 Hc.
  destruct (size_loop_spec lit items cfg s_buf s_s s_int sp sn fuel l default_cfg m p _ P B Hf Hp Hp0 Hc 17 0 eq_refl) as (m' & Es & _).
  change (Z.of_nat 0) with 0 in Es. change (drop 0 default_cfg) with default_cfg in Es. rewrite (size_of_part_at l default_cfg i e default_names E) in Es.
  exists m'. unfold storage_size. rewrite (proj2 (Z.eqb_neq p NULL)) by done. change (length default_cfg) with 17%nat. rewrite Es. unfold part_mb, int_value. rewrite Hn. done.
Qed.

End Claims.

(** ** A sample board *)

Definition literals : list (list Z) := s_board_disk :: p_uboot0 :: devs.

Definition sample_lit (s : list Z) : Z := literal_addr literals s 0x10000.

Definition item_bytes (it : Items.item) : list Z := padded 64 it.1 ++ padded 64 (join it.2).

Definition board_image (l : list Items.item) : mem :=
  store (store (store (fun _ => 0) 0x10000 (concat (map (padded 16) literals)))
    0x20000 (concat (map cfg_bytes default_cfg))) 0x30000 (concat (map item_bytes l)).

Lemma board_image_ok l : bytes_ok (concat (map item_bytes l)) -> mem_ok (board_image l).
Proof.
  intros H. unfold board_image. repeat apply mem_ok_store; [intros q; vm_compute; intuition congruence| | |exact H];
    apply (bool_decide_eq_true_1 _); vm_compute; reflexivity.
Qed.

Definition sample_places (l : list Items.item) : Prop :=
  placement sample_lit 0x30000 0x20000 0x50000 0x50080 0x500c0 0x50000 256 l default_cfg.

Lemma sample_placement l : (length l <= 16)%nat -> sample_places l.
Proof.
  intros Hl. unfold sample_places. split; unfold clear_of, inside, item_size, ITEM_MAX_LEN, part_sz_size; try (cbn [length default_cfg]; lia).
  apply (bool_decide_eq_true_1 _). vm_compute. reflexivity.
Qed.

Lemma sample_table l m : mem_ok m -> holds key Items.string m 0x30000 l ->
  forallb (fun s => is_cstr m (sample_lit s) s) literals = true ->
  forallb (fun '(i, e) => is_cstr m (part_name (cfg_at 0x20000 (Z.of_nat i))) e.1.1 &&
    (part_offs m (cfg_at 0x20000 (Z.of_nat i)) =? e.1.2) && (part_size m (cfg_at 0x20000 (Z.of_nat i)) =? e.2))
    (imap pair default_cfg) = true ->
  board_mem sample_lit 0x30000 0x20000 l default_cfg m.
Proof.
  intros Hm Hl H1 H2. split; [done|done| |].
  - apply Forall_forall. intros s Hs. apply is_cstr_spec. rewrite forallb_forall in H1. by apply H1, list_elem_of_In.
  - intros i e E. rewrite forallb_forall in H2. specialize (H2 (i, e)). cbn beta iota in H2.
    assert (In (i, e) (imap pair default_cfg)) as Hin.
    { apply list_elem_of_In. apply (list_elem_of_lookup_2 _ i). by rewrite list_lookup_imap, E. }
    specialize (H2 Hin). apply andb_true_iff in H2 as [ [Hn Ho]%andb_true_iff Hz]. split; [by apply is_cstr_spec| |lia|lia].
    assert (Forall (fun e => (length e.1.1 < 12)%nat) default_cfg) as H12 by (apply (bool_decide_eq_true_1 _); reflexivity).
    exact (Forall_lookup_1 _ _ _ _ H12 E).
Qed.

(** A NAND board: "512", "20", ... for the seven partitions. *)
Definition nand_items : list Items.item :=
  (s_board_disk, [n_nnd]) :: map (fun n => (s_part ++ n, [[53; 49; 50]])) [p_system; p_misc; p_cache; p_userdata; p_local; p_add1; p_add2].

Lemma holds_entry m t it l :
  is_cstr m (key t) it.1 && is_cstr m (Items.string t) (join it.2) && negb (m (key t) =? 0) = true ->
  fits it.1 -> fits (join it.2) -> sections_ok it.2 -> holds key Items.string m (t + item_size) l -> holds key Items.string m t (it :: l).
Proof.
  intros [ [H1 H2]%andb_true_iff H3]%andb_true_iff F1 F2 Hs Hl. split; [|exact Hl].
  split; [by apply is_cstr_spec|by apply is_cstr_spec| |done|done|done]. intros E. by rewrite E in H3.
Qed.

Ltac hold_items := repeat (apply holds_entry;
  [vm_compute; reflexivity|apply (bool_decide_eq_true_1 _); reflexivity|apply (bool_decide_eq_true_1 _); reflexivity
  |split; [done|repeat constructor; done]|]); vm_compute; reflexivity.

Lemma nand_holds : holds key Items.string (board_image nand_items) 0x30000 nand_items.
Proof. unfold nand_items at 2. cbn [map]. hold_items. Qed.

Lemma nand_board : board_mem sample_lit 0x30000 0x20000 nand_items default_cfg (board_image nand_items).
Proof.
  apply sample_table; [|exact nand_holds|vm_compute; reflexivity|vm_compute; reflexivity].
  apply board_image_ok. apply (bool_decide_eq_true_1 _). vm_compute. reflexivity.
Qed.

Definition sample_station (l : list Items.item) : board unit := Board (World (board_image l) tt) None (Layout [] 0 128) 0 0.

Lemma nand_sized : sized nand_items.
Proof.
  intros i e E Hi. assert (Forall (fun e => 0 <= part_mb nand_items e < 2 ^ 20) (drop 10 default_cfg)) as H
    by (apply (bool_decide_eq_true_1 _); vm_compute; reflexivity).
  apply (Forall_lookup_1 _ _ (i - 10) _ H). rewrite lookup_drop. by replace (10 + (i - 10))%nat with i by lia.
Qed.

Lemma nand_partitions_abut_witness :
  exists st1 st2 m o s,
    storage_offset sample_drivers true sample_lit 0x30000 0x20000 0x50000 0x50080 0x500c0 100 (sample_station nand_items) (cfg_at 0x20000 10) = Some (st1, o) /\
    storage_size 0x30000 0x20000 0x50080 0x500c0 100 (load (sample_station nand_items)) (cfg_at 0x20000 10) = Some (m, s) /\
    storage_offset sample_drivers true sample_lit 0x30000 0x20000 0x50000 0x50080 0x500c0 100 (sample_station nand_items) (cfg_at 0x20000 11) = Some (st2, o + s) /\
    (10%nat = 10%nat -> o = 112 * 2 ^ 20).
Proof.
  apply (nand_partitions_abut sample_drivers true sample_lit 0x30000 0x20000 0x50000 0x50080 0x500c0 0x50000 256 100
    (sample_station nand_items) nand_items 10 (p_system, 0, 152) (p_misc, 0, 20)).
  - apply sample_placement. cbn. lia.
  - exact nand_board.
  - cbn. lia.
  - vm_compute. reflexivity.
  - exact nand_sized.
  - reflexivity.
  - reflexivity.
  - lia.
  - apply is_cstr_spec. vm_compute. reflexivity.
  - vm_compute. discriminate.
  - left. by vm_compute.
  - apply is_cstr_spec. vm_compute. reflexivity.
  - vm_compute. discriminate.
  - left. by vm_compute.
Defined.

Lemma storage_size_unconfigured_witness :
  exists m', storage_size 0x30000 0x20000 0x50080 0x500c0 100 (board_image [(s_board_disk, [n_mmc 1])]) (cfg_at 0x20000 10) = Some (m', - 9999 * 2 ^ 20).
Proof.
  apply (storage_size_unconfigured sample_lit 0x30000 0x20000 0x50000 0x50080 0x500c0 0x50000 256 100
    (board_image [(s_board_disk, [n_mmc 1])]) [(s_board_disk, [n_mmc 1])] (p_system, 0, 152) (cfg_at 0x20000 10) 10).
  - apply sample_placement. cbn. lia.
  - apply sample_table; [|hold_items|vm_compute; reflexivity|vm_compute; reflexivity].
    apply board_image_ok. apply (bool_decide_eq_true_1 _). vm_compute. reflexivity.
  - cbn. lia.
  - reflexivity.
  - vm_compute. reflexivity.
  - apply is_cstr_spec. vm_compute. reflexivity.
  - vm_compute. discriminate.
  - left. by vm_compute.
Defined.
