(* ===== verification/Parted.v ===== *)
(** * Parted: the places of the partitions on the disk

    Theorems about the block device side of [Storage]: what stands in the
    second sector is what [block_get_base] and [storage_offset] find there,
    on any device that keeps [VStorage]'s contract [BlockDevice]; and, on a
    buffer, which record the loops of [block_partition] leave for a partition
    and the loop of [block_get_base] then finds. *)

From S2P Require Import Prelude Mem CString VStorage Items Layout Storage.
Local Open Scope Z_scope.

(** ** The places on the disk *)

Lemma set_offs_self m t v : part_offs (set_offs m t v) t = s32 v.
Proof. unfold part_offs, set_offs. rewrite load32_store32. apply s32_u32. Qed.

Lemma set_offs_except m t v : same_except m (set_offs m t v) (t + 12) 4.
Proof. intros q Hq. unfold set_offs, store32. apply store_outside. rewrite length_le_put. lia. Qed.

Lemma part_offs_same m m' t : same_on m m' (t + 12) 4 -> part_offs m' t = part_offs m t.
Proof. intros H. unfold part_offs. by rewrite (load32_same m m'). Qed.

(** The stores of [record_offsets]: records by number, and places. *)
Definition put_places (m : mem) (p : Z) (l : list (nat * Z)) : mem :=
  fold_left (fun m '(j, v) => set_offs m (p + part_sz_size * Z.of_nat j) v) l m.

Lemma put_places_other p l : forall m q, (forall j, In j (map fst l) -> ~ p + part_sz_size * Z.of_nat j + 12 <= q < p + part_sz_size * Z.of_nat j + 16) ->
  put_places m p l q = m q.
Proof.
  induction l as [|[j v] l IH]; intros m q H; [done|]. cbn [put_places fold_left]. fold (put_places (set_offs m (p + part_sz_size * Z.of_nat j) v) p l).
  rewrite IH by (intros i Hi; apply H; by right). apply set_offs_except. specialize (H j (or_introl eq_refl)). lia.
Qed.

Lemma put_places_out p l m j : ~ In j (map fst l) ->
  part_offs (put_places m p l) (p + part_sz_size * Z.of_nat j) = part_offs m (p + part_sz_size * Z.of_nat j).
Proof.
  intros Hj. apply part_offs_same. intros q Hq. apply put_places_other. intros i Hi.
  assert (i <> j) by congruence. unfold part_sz_size in *. lia.
Qed.

Lemma put_places_in p l j v : forall m, NoDup (map fst l) -> In (j, v) l ->
  part_offs (put_places m p l) (p + part_sz_size * Z.of_nat j) = s32 v.
Proof.
  induction l as [|[i u] l IH]; intros m Hd H; [done|]. cbn [map fst] in Hd. apply NoDup_cons in Hd as [Hn Hd].
  cbn [put_places fold_left]. fold (put_places (set_offs m (p + part_sz_size * Z.of_nat i) u) p l).
  destruct H as [[= -> ->]|H]; [|by apply IH]. rewrite list_elem_of_In in Hn. rewrite put_places_out by done. apply set_offs_self.
Qed.

(** The record that gets the place of the table entry [k - 1] and its like:
    what is recorded for partition [j] of seven when [k] are in use. *)
Definition slot (k : Z) (j : nat) : option nat :=
  match j with
  | 0%nat | 1%nat | 2%nat => Some j
  | 3%nat => if 4 <? k then Some 4%nat else None
  | 4%nat => if 7 <=? k then Some 5%nat else None
  | 5%nat => if k =? 8 then Some 6%nat else None
  | 6%nat => if 6 <=? k then Some (Z.to_nat (k - 1)) else None
  | _ => None
  end.

Definition places (k : Z) (imagebase : list Z) : list (nat * Z) :=
  omap (fun j => i ← slot k j; b ← imagebase !! i; Some (j, b)) [0; 1; 2; 3; 5; 4; 6]%nat.

Lemma record_offsets_eq m p g imagebase : 3 <= Layout.partnum g <= 8 -> length imagebase = Z.to_nat (Layout.partnum g) ->
  record_offsets m p g imagebase = Some (put_places m p (places (Layout.partnum g) imagebase)).
Proof.
  intros Hk Hl. unfold record_offsets. assert (Layout.partnum g = 3 \/ Layout.partnum g = 4 \/ Layout.partnum g = 5 \/
    Layout.partnum g = 6 \/ Layout.partnum g = 7 \/ Layout.partnum g = 8) as H by lia.
  destruct H as [H|[H|[H|[H|[H|H] ] ] ] ]; rewrite H in *;
    repeat (destruct imagebase as [|? imagebase]; cbn in Hl; try discriminate Hl; try lia);
    cbn -[set_offs Z.mul Z.add]; unfold part_sz_size; rewrite ?Z.mul_0_r, ?Z.add_0_r, <- ?Z.add_assoc; done.
Qed.

(** Names at their records: [names_from m t l] from the record at [t] on. *)
Definition names_from (m : mem) (t : Z) (l : list (list Z)) : Prop :=
  forall i s, l !! i = Some s -> cstr_at m (part_name (t + part_sz_size * Z.of_nat i)) s /\ (length s < 12)%nat.

Lemma find_base_spec fuel m target name : mem_ok m -> cstr_at m target name -> (12 < fuel)%nat ->
  forall l n t index i, names_from m t l -> l !! i = Some name -> NoDup l -> (length l <= n)%nat ->
  find_base n fuel index m t target = Some (index + Z.of_nat i, part_offs m (t + part_sz_size * Z.of_nat i)).
Proof.
  intros Hm Ht Hf. induction l as [|s l IH]; intros n t index i Hn Hi Hd Hl; [done|].
  destruct n as [|n]; [cbn in Hl; lia|]. cbn [find_base].
  destruct (Hn 0%nat s eq_refl) as [Hs Hs12]. change (Z.of_nat 0) with 0 in Hs. rewrite Z.mul_0_r, Z.add_0_r in Hs.
  destruct (strcmp_correct fuel m (part_name t) target s name Hm Hs Ht ltac:(lia)) as (r & -> & Hr & _). cbn [mbind option_bind].
  destruct i as [|i]; cbn in Hi.
  - injection Hi as ->. rewrite (proj2 (Z.eqb_eq r 0)) by tauto. change (Z.of_nat 0) with 0. by rewrite Z.mul_0_r, !Z.add_0_r.
  - apply NoDup_cons in Hd as [Hnot Hd].
    rewrite (proj2 (Z.eqb_neq r 0)) by (intros Er; apply Hnot; rewrite (proj1 Hr Er); by eapply list_elem_of_lookup_2).
    rewrite (IH n (t + part_sz_size) (index + 1) i); [do 2 f_equal; [lia|f_equal; lia]| |done|done|cbn in Hl; lia].
    intros j s' Hj. specialize (Hn (S j) s' Hj). by replace (t + part_sz_size + part_sz_size * Z.of_nat j) with (t + part_sz_size * Z.of_nat (S j)) by lia.
Qed.

Lemma places_nodup k imagebase : NoDup (map fst (places k imagebase)).
Proof.
  unfold places. assert (NoDup [0; 1; 2; 3; 5; 4; 6]%nat) as Hd by (apply (bool_decide_eq_true_1 _); reflexivity).
  induction Hd as [|j l Hj Hd IH]; [constructor|]. cbn [omap list_omap].
  destruct (slot k j) as [i|]; cbn [mbind option_bind]; [|exact IH]. destruct (imagebase !! i) as [b|]; cbn [mbind option_bind]; [|exact IH].
  cbn [map fst]. constructor; [|exact IH]. intros H. apply Hj. apply list_elem_of_fmap in H as ([j' b'] & -> & H).
  apply list_elem_of_omap in H as (j2 & Hj2 & E). cbn [fst]. destruct (slot k j2) as [i2|]; cbn in E; [|done].
  destruct (imagebase !! i2); cbn in E; [|done]. injection E as <- _. done.
Qed.

Lemma places_elem k imagebase j v : In (j, v) (places k imagebase) <-> (j < 7)%nat /\ exists i, slot k j = Some i /\ imagebase !! i = Some v.
Proof.
  unfold places. rewrite <- list_elem_of_In, list_elem_of_omap. split.
  - intros (j' & Hj & E). destruct (slot k j') as [i|] eqn:Es; cbn in E; [|done]. destruct (imagebase !! i) as [b|] eqn:Eb; cbn in E; [|done].
    injection E as -> ->. split; [|eauto]. rewrite list_elem_of_In in Hj. cbn in Hj. lia.
  - intros (Hj & i & Es & Eb). exists j. rewrite Es. cbn. rewrite Eb. split; [|done]. rewrite list_elem_of_In. cbn. lia.
Qed.

Lemma slot_range k j i : 3 <= k <= 8 -> slot k j = Some i -> (i < Z.to_nat k)%nat.
Proof.
  intros Hk. do 7 (destruct j as [|j]; [cbn [slot]; repeat case_match; intros [= <-]; lia|]). done.
Qed.

(** What is recorded for partition [j]. *)
Definition recorded (m : mem) (p k : Z) (imagebase : list Z) (j : nat) : Z :=
  match slot k j with
  | Some i => s32 (nth i imagebase 0)
  | None => part_offs m (p + part_sz_size * Z.of_nat j)
  end.

Lemma put_places_recorded m p k imagebase j : 3 <= k <= 8 -> length imagebase = Z.to_nat k -> (j < 7)%nat ->
  part_offs (put_places m p (places k imagebase)) (p + part_sz_size * Z.of_nat j) = recorded m p k imagebase j.
Proof.
  intros Hk Hl Hj. unfold recorded. destruct (slot k j) as [i|] eqn:Es.
  - pose proof (slot_range k j i Hk Es). destruct (lookup_lt_is_Some_2 imagebase i) as [v Ev]; [lia|].
    rewrite nth_default_lookup, Ev. apply put_places_in; [apply places_nodup|]. apply places_elem. eauto.
  - apply put_places_out. intros H. apply in_map_iff in H as ([j' v] & <- & H). apply places_elem in H as (_ & i & Es' & _). cbn in Es. congruence.
Qed.

Lemma put_places_names m p k imagebase q : (forall j, (j < 7)%nat -> ~ p + part_sz_size * Z.of_nat j + 12 <= q < p + part_sz_size * Z.of_nat j + 16) ->
  put_places m p (places k imagebase) q = m q.
Proof.
  intros H. apply put_places_other. intros j Hj. apply in_map_iff in Hj as ([j' v] & <- & Hj). apply places_elem in Hj as [Hj _]. by apply H.
Qed.

Lemma mem_ok_put_places p l : forall m, mem_ok m -> mem_ok (put_places m p l).
Proof.
  induction l as [|[j v] l IH]; intros m Hm; [done|]. cbn [put_places fold_left]. apply IH. apply mem_ok_store; [done|]. apply bytes_ok_le_put.
Qed.

(** In a buffer filled by the stores of [block_partition], the search of
    [block_get_base] finds for each partition the record of its name.  It
    holds the place of its entry for the first three, and for the logical ones
    except the last: its place is recorded under "add2" whatever its name is,
    and its own record keeps the place it had in the table of the program.
    (The sector the buffer is written to and read from, and the conversion of
    the place to bytes, are not in this statement.) *)
Theorem places_recorded fuel m buffer target g imagebase j name :
  mem_ok m -> names_from m buffer (names_of default_cfg) -> 3 <= Layout.partnum g <= 8 -> length imagebase = Z.to_nat (Layout.partnum g) ->
  names_of default_cfg !! (10 + j)%nat = Some name -> cstr_at m target name ->
  target + Z.of_nat (length name) < buffer \/ buffer + 360 <= target -> (12 < fuel)%nat ->
  let p := buffer + part_sz_size * INFO_SPARE_IMAGES in
  exists m', record_offsets m p g imagebase = Some m' /\
    find_base (Z.to_nat cfg_records) fuel 0 m' buffer target = Some (10 + Z.of_nat j, recorded m p (Layout.partnum g) imagebase j).
Proof.
  intros Hm Hn Hk Hl Hj Ht Hd Hf p. rewrite record_offsets_eq by done. eexists. split; [reflexivity|].
  pose proof (lookup_lt_Some _ _ _ Hj) as Hj7. change (length (names_of default_cfg)) with 17%nat in Hj7.
  set (m' := put_places _ _ _).
  assert (forall q, (forall i, (i < 7)%nat -> ~ p + part_sz_size * Z.of_nat i + 12 <= q < p + part_sz_size * Z.of_nat i + 16) -> m' q = m q) as Hsame
    by (intros q Hq; by apply put_places_names).
  rewrite (find_base_spec fuel m' target name) with (l := names_of default_cfg) (i := (10 + j)%nat).
  - do 2 f_equal; [lia|]. rewrite <- (put_places_recorded m p (Layout.partnum g) imagebase j) by (done || lia).
    f_equal. unfold p, INFO_SPARE_IMAGES. lia.
  - by apply mem_ok_put_places.
  - eapply cstr_at_ext; [|exact Ht]. intros q Hq. apply Hsame. intros i Hi. unfold p, part_sz_size, INFO_SPARE_IMAGES. lia.
  - done.
  - intros i s Hi. destruct (Hn i s Hi) as [Hs Hs12]. split; [|done]. eapply cstr_at_ext; [|exact Hs].
    intros q Hq. apply Hsame. intros i' Hi'. unfold p, part_name, part_sz_size, INFO_SPARE_IMAGES in *. lia.
  - done.
  - exact default_names.
  - vm_compute. lia.
Qed.

(** ** Reading the places back *)

Section On_disk.
Context {D : Type} (dr : drivers D) (CONFIG_ENABLE_UDISK : bool) (rd : io_fn D) (disk : world D -> mem).
Context (apart : Z -> Z -> Prop) (k lo hi h hn : Z).
Context `{BD : !BlockDevice rd disk apart k lo hi} `{HP : !Heap dr h hn}.
Implicit Type w : world D.

(** The disk of the board: an entry of the table of devices, with a reset
    that leaves memory and data alone; the allocator stores bytes. *)
Record disk_entry (id : Z) (pv : vstorage D) (cap : Z) : Prop := {
  de_valid : id_valid dr CONFIG_ENABLE_UDISK id = true;
  de_entry : entry dr CONFIG_ENABLE_UDISK id = Some pv;
  de_read : entry_of rd k pv;
  de_reset w : exists f w' r, reset pv = Some f /\ f w = (w', r) /\ ram w' = ram w /\ forall x, lo <= x < hi -> disk w' x = disk w x;
  de_capacity w : exists f, capacity pv = Some f /\ f w = (w, cap);
  de_malloc w n : mem_ok (ram w) -> mem_ok (ram (malloc dr w n).1)
}.

(** A request in whole blocks goes to the driver as it is. *)
Lemma aligned_read pv w buf start len : entry_of rd k pv ->
  start mod 2 ^ k = 0 -> len mod 2 ^ k = 0 -> 0 < len -> len + 2 * 2 ^ k < 2 ^ 31 ->
  0 <= start -> lo <= start -> start + len <= hi -> apart buf len ->
  exists w' r, vs_read dr CONFIG_ENABLE_UDISK (Some pv) w buf start len 0 = Some (w', r) /\ r = (rd w buf start len 0).2 /\
    bytes_at (ram w') buf (Z.to_nat len) = bytes_at (disk w) start (Z.to_nat len) /\
    same_except (ram w) (ram w') buf (Z.to_nat len) /\ (forall x, lo <= x < hi -> disk w' x = disk w x).
Proof.
  intros He Hs Hl Hlen Hmax H0 Hlo Hhi Hap. pose proof bd_align as Hk. pose proof (pow_k rd disk apart k lo hi) as Hpk. pose proof bd_range.
  rewrite (vs_read_eq dr rd disk apart k lo hi pv CONFIG_ENABLE_UDISK w buf start len 0 He Hlen Hmax).
  assert (eff_len k pv len = len) as ->.
  { unfold eff_len. destruct (strncmp_eq _ _ _); [|done].
    rewrite <- (Z.add_mod_idemp_l len), Hl, Z.add_0_l, (Z.mod_small (2 ^ k - 1)) by lia. lia. }
  unfold vs_read_split. rewrite (u32_small (2 ^ k - 1)) by lia.
  assert (forall x, Z.land x (2 ^ k - 1) = x mod 2 ^ k) as Hland
    by (intros x; replace (2 ^ k - 1) with (Z.ones k) by (rewrite Z.ones_equiv; lia); apply Z.land_ones; lia).
  rewrite !Hland, Hs. change (u32 0) with 0. cbn [Z.eqb]. rewrite Z.sub_0_r, (u32_small len), Hl by lia. cbn [Z.eqb andb negb].
  rewrite !Z.add_0_r, !Z.sub_0_r, (s32_small len), (s32_small len), (s64_small start) by lia.
  cbn [first_block middle_blocks Z.eqb]. rewrite (proj2 (Z.eqb_neq len 0)) by lia.
  destruct (bd_read w buf start len 0 Hs Hl ltac:(lia) Hlo Hhi Hap) as (w' & r & -> & Hr & Hb & Hx & Hd).
  rewrite (proj2 (Z.ltb_ge r 0)) by lia. cbn [last_block Z.eqb]. exists w', (s32 (0 + r)). rewrite s32_small by lia. done.
Qed.

(** ** A block of the disk of the board *)

Context (lit : list Z -> Z) (items cfg : Z) (s_buf s_info s_pname s_s s_int sp : Z) (sn : nat).
Abbreviation placement := (placement lit items cfg s_buf s_s s_int sp sn).
Abbreviation board_mem := (board_mem lit items cfg).
Implicit Type st : board D.

(** The configuration names the disk; stack and heap are not the driver's. *)
Record on_disk (l : list Items.item) (pv : vstorage D) (cap : Z) : Prop := {
  od_places : placement l default_cfg;
  od_disk : disk_entry (disk_of l) pv cap;
  od_block : 9 <= k;
  od_apart : apart sp (Z.of_nat sn) /\ apart h hn
}.

Lemma disk_same m w : same_except (ram w) m sp sn -> apart sp (Z.of_nat sn) -> forall x, lo <= x < hi -> disk (World m (dev w)) x = disk w x.
Proof. intros Hs Ha x Hx. eapply bd_frame; [exact Ha|by rewrite Nat2Z.id|done|done]. Qed.

Lemma read_block fuel st l pv cap start : on_disk l pv cap -> board_mem l default_cfg (load st) -> (length l + 64 < fuel)%nat ->
  (forall x, lo <= x < hi -> is_byte (disk (wd st) x)) ->
  start mod 2 ^ k = 0 -> 0 <= start -> lo <= start -> start + 2 ^ k <= hi ->
  exists st1 st2 buffer, open_disk dr CONFIG_ENABLE_UDISK lit items s_buf fuel st = Some (st1, disk_of l, 2 ^ k, buffer) /\
    buffer <> NULL /\ h <= buffer /\ buffer + 2 ^ k <= h + hn /\
    read_disk dr CONFIG_ENABLE_UDISK (assign dr CONFIG_ENABLE_UDISK st1 (disk_of l) 1) buffer start (2 ^ k) = Some st2 /\
    mem_ok (load st2) /\
    (forall j, 0 <= j < 2 ^ k -> load st2 (buffer + j) = disk (wd st) (start + j)) /\
    (forall q, ~ sp <= q < sp + Z.of_nat sn -> ~ h <= q < h + hn -> load st2 q = load st q).
Proof.
  intros [P De Hk [Ha Hh] ] B Hf Hbytes Hs H0 Hlo Hhi. pose proof De as [Hv He Hr Hreset Hcap Hmal].
  pose proof bd_align as Hk20. assert (2 ^ 9 <= 2 ^ k <= 2 ^ 20) as Hpk by (split; apply Z.pow_le_mono_r; lia).
  destruct (storage_device_spec lit items cfg s_buf s_s s_int sp sn fuel l default_cfg (load st) P B Hf) as (m1 & E1 & Hs1 & Hm1).
  assert (same_except (load st) m1 sp sn) as Hs1' by (eapply (same_inside sp sn _ _ s_buf 64); [|exact Hs1]; by destruct P).
  set (w1 := World m1 (dev (wd st))). assert (forall x, lo <= x < hi -> disk w1 x = disk (wd st) x) as Hd1 by (by apply disk_same).
  destruct (malloc dr w1 (2 ^ k)) as [w2 buffer] eqn:Em.
  destruct (heap_malloc (dr := dr) (h := h) (hn := hn) w1 (2 ^ k) w2 buffer ltac:(lia) Em) as (Hb0 & Hb1 & Hb2 & Hs2 & Hdev2).
  pose proof (heap_size (dr := dr) (h := h) (hn := hn)) as Hn0.
  assert (forall x, lo <= x < hi -> disk w2 x = disk (wd st) x) as Hd2.
  { intros x Hx. rewrite <- Hd1 by done. eapply bd_frame; [exact Hh|exact Hs2|done|done]. }
  assert (mem_ok (ram w2)) as Hm2 by (specialize (Hmal w1 (2 ^ k) Hm1); by rewrite Em in Hmal).
  destruct (Hreset w2) as (fr & w3 & rr & Er & Efr & Hram3 & Hd3).
  destruct (aligned_read pv w3 buffer start (2 ^ k)) as (w4 & r4 & E4 & _ & Hb4 & Hs4 & Hd4); try done;
    [apply Z_mod_same_full|lia|lia|eapply bd_sub; [exact Hh|done|lia|lia]|].
  assert (forall j, 0 <= j < 2 ^ k -> ram w4 (buffer + j) = disk (wd st) (start + j)) as Hcopy.
  { intros j Hj. apply (f_equal (fun b => b !! Z.to_nat j)) in Hb4. rewrite !bytes_at_lookup in Hb4 by lia.
    rewrite Z2Nat.id in Hb4 by lia. injection Hb4 as ->. rewrite Hd3 by lia. apply Hd2. lia. }
  set (st1 := Board w2 (cur st) (parts st) (tablecnt st) (lasttableaddr st)).
  exists st1, (Board w4 (Some pv) (parts st) (tablecnt st) (lasttableaddr st)), buffer. split.
  { unfold open_disk, device. rewrite E1. cbn [mbind option_bind]. unfold align_of, vs_align. rewrite Hv, He.
    change (wd (set_mem st m1)) with w1. destruct (eo_align rd k pv Hr w1) as (al & -> & ->).
    unfold alloc. change (wd (set_wd (set_mem st m1) w1)) with w1. rewrite s32_small, Em by lia. done. }
  do 3 (split; [lia||done|]). split.
  { unfold assign, vs_assign_by_id. rewrite Hv, He. change (1 =? 0) with false. cbv iota. unfold vs_reset. rewrite Er.
    change (wd st1) with w2. rewrite Efr. unfold read_disk. cbn [cur wd]. rewrite E4. done. }
  split; [|split; [exact Hcopy|]].
  - intros q. cbn [load wd]. unfold load. cbn [wd]. destruct (decide (buffer <= q < buffer + 2 ^ k)) as [Hq|Hq].
    + replace q with (buffer + (q - buffer)) by lia. rewrite Hcopy by lia. apply Hbytes. lia.
    + rewrite (Hs4 q) by (rewrite Z2Nat.id by lia; lia). rewrite Hram3. apply Hm2.
  - intros q Hq1 Hq2. unfold load. cbn [wd]. rewrite (Hs4 q) by (rewrite Z2Nat.id by lia; lia). rewrite Hram3.
    rewrite (Hs2 q) by (rewrite Z2Nat.id by lia; lia). cbn [ram w1]. by apply Hs1'.
Qed.

Lemma capacity_of_spec l pv cap st : on_disk l pv cap -> exists st', capacity_of dr CONFIG_ENABLE_UDISK st (disk_of l) = (st', s64 cap) /\ st' = set_wd st (wd st).
Proof.
  intros [_ [Hv He _ _ Hcap _] _ _]. unfold capacity_of, vs_capacity. rewrite Hv, He.
  destruct (Hcap (wd st)) as (f & -> & ->). by eexists.
Qed.

(** What the block at offset [2 ^ k] of the disk records for record [i]. *)
Definition on_disk_offs st (i : nat) : Z := part_offs (disk (wd st)) (2 ^ k + part_sz_size * Z.of_nat i).

Lemma bytes_at_shift m m' p p' j n : (forall i, j <= i < j + Z.of_nat n -> m' (p' + i) = m (p + i)) ->
  bytes_at m' (p' + j) n = bytes_at m (p + j) n.
Proof. intros H. apply bytes_at_eq_iff. intros i Hi. rewrite <- !Z.add_assoc. apply H. lia. Qed.

Lemma block_get_base_spec fuel st l pv cap target i name : on_disk l pv cap -> board_mem l default_cfg (load st) -> (length l + 64 < fuel)%nat ->
  (forall x, lo <= x < hi -> is_byte (disk (wd st) x)) -> lo <= 2 ^ k -> 2 * 2 ^ k <= hi ->
  names_from (disk (wd st)) (2 ^ k) (names_of default_cfg) -> names_of default_cfg !! i = Some name -> (10 <= i)%nat ->
  cstr_at (load st) target name -> (forall q, target <= q <= target + Z.of_nat (length name) -> ~ sp <= q < sp + Z.of_nat sn /\ ~ h <= q < h + hn) ->
  let base := s64 (on_disk_offs st i * 2 ^ k) in
  exists st', block_get_base dr CONFIG_ENABLE_UDISK lit items s_buf fuel st target =
    Some (st', if s64 (s64 cap * 2 ^ k) <? base then -1 else base).
Proof.
  intros O B Hf Hbytes Hlo Hhi Hn Hi Hi10 Ht Hq base. pose proof bd_align as Hk20. pose proof (od_block _ _ _ O) as Hk9.
  assert (2 ^ 9 <= 2 ^ k <= 2 ^ 20) as Hpk by (split; apply Z.pow_le_mono_r; lia).
  destruct (read_block fuel st l pv cap (2 ^ k) O B Hf Hbytes) as (st1 & st2 & buffer & E1 & Hb0 & _ & _ & E2 & Hm2 & Hcopy & Hsame);
    [apply Z_mod_same_full|lia|lia|lia|].
  pose proof (lookup_lt_Some _ _ _ Hi) as Hi17. change (length (names_of default_cfg)) with 17%nat in Hi17.
  unfold block_get_base. rewrite E1. cbn [mbind option_bind]. rewrite (proj2 (Z.eqb_neq buffer NULL)) by done. rewrite E2. cbn [mbind option_bind].
  assert (forall r, 0 <= r -> forall n, r + Z.of_nat n <= 2 ^ k -> bytes_at (load st2) (buffer + r) n = bytes_at (disk (wd st)) (2 ^ k + r) n) as Hsh.
  { intros r Hr n Hrn. apply bytes_at_shift. intros j Hj. apply Hcopy. lia. }
  rewrite (find_base_spec fuel (load st2) target name) with (l := names_of default_cfg) (i := i).
  - cbn [mbind option_bind]. rewrite (proj2 (Z.ltb_ge _ INFO_SPARE_IMAGES)) by (unfold INFO_SPARE_IMAGES; lia).
    assert (part_offs (load st2) (buffer + part_sz_size * Z.of_nat i) = on_disk_offs st i) as ->.
    { unfold on_disk_offs, part_offs, load32, part_sz_size. rewrite <- !Z.add_assoc. by rewrite Hsh by lia. }
    destruct (capacity_of_spec l pv cap st2 O) as (st3 & -> & _). eexists. done.
  - done.
  - eapply cstr_at_ext; [|exact Ht]. intros q Hq'. destruct (Hq q ltac:(lia)) as [Hq1 Hq2]. exact (Hsame q Hq1 Hq2).
  - lia.
  - intros j s Hj. destruct (Hn j s Hj) as [ [Hs Hnz] Hs12]. split; [|done]. split; [|done]. unfold part_name, part_sz_size in *.
    pose proof (lookup_lt_Some _ _ _ Hj) as Hj17. change (length (names_of default_cfg)) with 17%nat in Hj17.
    rewrite Hsh by lia. exact Hs.
  - done.
  - exact default_names.
  - vm_compute. lia.
Qed.

Lemma spare_loop_none fuel l m p name i : board_mem l default_cfg m -> cstr_at m p name -> (12 < fuel)%nat ->
  names_of default_cfg !! i = Some name -> (10 <= i)%nat ->
  forall n index, (index + n = 10)%nat -> spare_offset_loop cfg n fuel (Z.of_nat index) m p = Some 0.
Proof.
  intros [Hm _ _ Hc] Hp Hf Hi Hi10. induction n as [|n IH]; intros index Hx; cbn [spare_offset_loop]; [done|].
  destruct (lookup_lt_is_Some_2 default_cfg index) as [e E]; [cbn; lia|]. destruct (Hc _ _ E) as [Hs Hs12 _ _].
  destruct (strcmp_correct fuel m _ p _ name Hm Hs Hp ltac:(lia)) as (r & -> & Hr & _). cbn [mbind option_bind].
  rewrite (proj2 (Z.eqb_neq r 0)).
  - replace (Z.of_nat index + 1) with (Z.of_nat (S index)) by lia. apply IH. lia.
  - intros Er. apply Hr in Er. assert (names_of default_cfg !! index = Some name) as E' by (unfold names_of; rewrite list_lookup_fmap, E; cbn; congruence).
    pose proof (NoDup_lookup _ _ _ _ default_names Hi E'). lia.
Qed.

(** C24: on a board with a block device [storage_offset] gives for a partition
    the place that is recorded on the disk, in bytes, or -1 when that lies
    behind its end. *)
Theorem storage_offset_on_disk fuel st l pv cap p i name : on_disk l pv cap -> board_mem l default_cfg (load st) -> (length l + 64 < fuel)%nat ->
  6 <= disk_of l <= 10 -> (forall x, lo <= x < hi -> is_byte (disk (wd st) x)) -> lo <= 2 ^ k -> 2 * 2 ^ k <= hi ->
  names_from (disk (wd st)) (2 ^ k) (names_of default_cfg) -> names_of default_cfg !! i = Some name -> (10 <= i)%nat ->
  cstr_at (load st) p name -> p <> NULL ->
  (forall q, p <= q <= p + Z.of_nat (length name) -> ~ sp <= q < sp + Z.of_nat sn /\ ~ h <= q < h + hn) ->
  let base := s64 (on_disk_offs st i * 2 ^ k) in
  exists st', storage_offset dr CONFIG_ENABLE_UDISK lit items cfg s_buf s_s s_int fuel st p =
    Some (st', if s64 (s64 cap * 2 ^ k) <? base then -1 else base).
Proof.
  intros O B Hf Hd Hbytes Hlo Hhi Hn Hi Hi10 Hp Hp0 Hq base. pose proof O as [P De Hk9 [Ha Hh] ].
  destruct (storage_device_spec lit items cfg s_buf s_s s_int sp sn fuel l default_cfg (load st) P B Hf) as (m1 & E1 & Hs1 & Hm1).
  assert (same_except (load st) m1 sp sn) as Hs1' by (eapply (same_inside sp sn _ _ s_buf 64); [|exact Hs1]; by destruct P).
  unfold storage_offset. rewrite (proj2 (Z.eqb_neq p NULL)) by done. unfold device. rewrite E1. cbn [mbind option_bind].
  rewrite (proj2 (Z.eqb_neq (disk_of l) DEV_NAND)) by (unfold DEV_NAND; lia).
  rewrite (proj2 (Z.leb_le 6 _)), (proj2 (Z.leb_le _ 10)) by lia. cbn [andb].
  set (st1 := set_mem st m1). change (load st1) with m1.
  assert (board_mem l default_cfg m1) as B1 by (eapply board_mem_same; [exact P|exact Hm1|exact Hs1'|exact B]).
  assert (cstr_at m1 p name) as Hp1.
  { eapply cstr_at_ext; [|exact Hp]. intros q Hq'. apply Hs1'. apply Hq. lia. }
  pose proof (spare_loop_none fuel l m1 p name i B1 Hp1 ltac:(lia) Hi Hi10 10 0 eq_refl) as E2.
  change (Z.to_nat INFO_SPARE_IMAGES) with 10%nat. change (Z.of_nat 0) with 0 in E2. rewrite E2. cbn [mbind option_bind Z.eqb].
  assert (forall x, lo <= x < hi -> disk (wd st1) x = disk (wd st) x) as Hd1 by (by apply disk_same).
  destruct (block_get_base_spec fuel st1 l pv cap p i name O B1 Hf) as [st' E']; try done.
  - intros x Hx. rewrite Hd1 by done. by apply Hbytes.
  - intros j s Hj. destruct (Hn j s Hj) as [Hs Hs12]. split; [|done]. eapply cstr_at_ext; [|exact Hs].
    pose proof (lookup_lt_Some _ _ _ Hj) as Hj17. change (length (names_of default_cfg)) with 17%nat in Hj17.
    assert (2 ^ 9 <= 2 ^ k) by (apply Z.pow_le_mono_r; lia). intros q Hq'. unfold part_name, part_sz_size in *. apply Hd1. lia.
  - exists st'. rewrite E'. assert (on_disk_offs st1 i = on_disk_offs st i) as ->; [|done].
    pose proof (lookup_lt_Some _ _ _ Hi) as Hi17. change (length (names_of default_cfg)) with 17%nat in Hi17.
    assert (2 ^ 9 <= 2 ^ k) by (apply Z.pow_le_mono_r; lia). unfold on_disk_offs. apply part_offs_same. intros q Hq'. unfold part_sz_size in *. apply Hd1. lia.
Qed.

Lemma s32_eqb v c : 0 <= v < 2 ^ 32 -> 0 <= c < 2 ^ 31 -> (s32 v =? c) = (v =? c).
Proof.
  intros Hv Hc. destruct (Z.ltb_spec v (2 ^ 31)); [by rewrite s32_small by lia|].
  rewrite (proj2 (Z.eqb_neq v c)) by lia. apply Z.eqb_neq. unfold s32.
  replace (v + 2 ^ 31) with (v - 2 ^ 31 + 1 * 2 ^ 32) by lia. rewrite Z_mod_plus_full, Z.mod_small by lia. lia.
Qed.

(** [block_is_parted] tells whether word 0x48 of the first sector, which
    the partition tables leave free, holds the mark of [block_partition]. *)
Theorem block_is_parted_spec fuel st l pv cap : on_disk l pv cap -> board_mem l default_cfg (load st) -> (length l + 64 < fuel)%nat ->
  (forall x, lo <= x < hi -> is_byte (disk (wd st) x)) -> lo <= 0 -> 2 ^ k <= hi ->
  exists st', block_is_parted dr CONFIG_ENABLE_UDISK lit items s_buf fuel st =
    Some (st', b2z (load32 (disk (wd st)) 0x120 =? DISK_PARTITIONED)).
Proof.
  intros O B Hf Hbytes Hlo Hhi. pose proof (od_block _ _ _ O) as Hk9. assert (2 ^ 9 <= 2 ^ k) as Hpk by (apply Z.pow_le_mono_r; lia).
  destruct (read_block fuel st l pv cap 0 O B Hf Hbytes) as (st1 & st2 & buffer & E1 & Hb0 & _ & _ & E2 & Hm2 & Hcopy & _);
    [apply Z.mod_0_l; lia|lia|lia|lia|].
  unfold block_is_parted. rewrite E1. cbn [mbind option_bind]. rewrite (proj2 (Z.eqb_neq buffer NULL)) by done. rewrite E2. cbn [mbind option_bind].
  eexists. do 3 f_equal. change (4 * 0x48) with 0x120.
  assert (load32 (load st2) (buffer + 0x120) = load32 (disk (wd st)) 0x120) as E.
  { unfold load32. f_equal. change (bytes_at (disk (wd st)) 0x120 4) with (bytes_at (disk (wd st)) (0 + 0x120) 4).
    apply bytes_at_shift. intros j Hj. apply Hcopy. lia. }
  rewrite E. pose proof (load32_range (load st2) (buffer + 0x120) Hm2) as Hr. rewrite E in Hr. unfold is_u32 in Hr.
  apply s32_eqb; [exact Hr|unfold DISK_PARTITIONED; lia].
Qed.

End On_disk.

(** ** A sample disk *)

(** The state of the device is its contents. *)
Definition flat_read (w : world mem) (buf start len extra : Z) : world mem * Z :=
  (World (store (ram w) buf (bytes_at (dev w) start (Z.to_nat len))) (dev w), len).
Definition flat_write (w : world mem) (buf start len extra : Z) : world mem * Z :=
  (World (ram w) (store (dev w) start (bytes_at (ram w) buf (Z.to_nat len))), len).

#[export] Instance flat_disk : BlockDevice flat_read dev (fun _ _ => True) 9 0 (2 ^ 30).
Proof.
  split; [lia|lia|done| |].
  - by intros w w' p n x _ _ -> _.
  - intros w buf start len extra Hs Hl Hr Hlo Hi _. unfold flat_read. eexists _, len. split; [done|]. split; [lia|]. cbn [ram dev].
    split_and!; [| |done].
    + pose proof (bytes_at_store (ram w) buf (bytes_at (dev w) start (Z.to_nat len))) as E. by rewrite length_bytes_at in E.
    + pose proof (same_except_store (ram w) buf (bytes_at (dev w) start (Z.to_nat len))) as E. by rewrite length_bytes_at in E.
Qed.

Definition flat_drivers : drivers mem :=
  Drivers mem (fun _ w => (w, 0x200)) (fun _ => flat_read) (fun _ => flat_write)
    (fun _ w => (w, 0)) (fun _ w _ _ => (w, 0)) (fun _ w _ _ => (w, 0))
    (fun _ w _ => (w, 0)) (fun _ w => (w, 0x200000)) (fun w _ => (w, 0x100000)) (fun w _ => w).

#[export] Instance flat_heap : Heap flat_drivers 0x100000 0x100000.
Proof.
  split; [lia| |done].
  intros w n w' p Hn [= <- <-]. split_and!; [done|lia|lia|done|done].
Qed.

Definition mmc_items : list Items.item := [(s_board_disk, [n_mmc 1])].

(** The second sector: the table, with "system" at sector 0x40080. *)
Definition sample_disk : mem :=
  mem_of 512 (concat (map cfg_bytes (<[10%nat := (p_system, 0x40080, 152)]> default_cfg))).

Definition mmc_station : board mem := Board (World (board_image mmc_items) sample_disk) None (Layout [] 0 128) 0 0.

Lemma mmc_board : board_mem sample_lit 0x30000 0x20000 mmc_items default_cfg (board_image mmc_items).
Proof.
  apply sample_table; [|unfold mmc_items; hold_items|vm_compute; reflexivity|vm_compute; reflexivity].
  apply board_image_ok. apply (bool_decide_eq_true_1 _). vm_compute. reflexivity.
Qed.

Lemma mmc_on_disk : exists pv,
  on_disk flat_drivers true flat_read dev (fun _ _ => True) 9 0 (2 ^ 30) 0x100000 0x100000
    sample_lit 0x30000 0x20000 0x50000 0x50080 0x500c0 0x50000 256 mmc_items pv 0x200000.
Proof.
  eexists. split; [apply sample_placement; cbn; lia| |lia|done].
  split; [reflexivity|reflexivity|split|..].
  - reflexivity.
  - intros w. by eexists.
  - reflexivity.
  - intros w. eexists _, _, _. done.
  - intros w. by eexists.
  - done.
Qed.

Lemma names_from_test m t l : forallb (fun '(i, s) => is_cstr m (part_name (t + part_sz_size * Z.of_nat i)) s && (length s <? 12)%nat) (imap pair l) = true ->
  names_from m t l.
Proof.
  intros H i s E. rewrite forallb_forall in H. specialize (H (i, s)). cbn beta iota in H.
  assert (In (i, s) (imap pair l)) as Hin.
  { apply list_elem_of_In. apply (list_elem_of_lookup_2 _ i). by rewrite list_lookup_imap, E. }
  specialize (H Hin). apply andb_true_iff in H as [Hn Hl%Nat.ltb_lt]. split; [by apply is_cstr_spec|done].
Qed.

Lemma storage_offset_on_disk_witness :
  exists st', storage_offset flat_drivers true sample_lit 0x30000 0x20000 0x50000 0x50080 0x500c0 100 mmc_station (cfg_at 0x20000 10) =
    Some (st', if s64 (s64 0x200000 * 2 ^ 9) <? s64 (on_disk_offs dev 9 mmc_station 10 * 2 ^ 9) then -1
               else s64 (on_disk_offs dev 9 mmc_station 10 * 2 ^ 9)).
Proof.
  destruct mmc_on_disk as [pv O].
  apply (storage_offset_on_disk flat_drivers true flat_read dev (fun _ _ => True) 9 0 (2 ^ 30) 0x100000 0x100000
    sample_lit 0x30000 0x20000 0x50000 0x50080 0x500c0 0x50000 256 100 mmc_station mmc_items pv 0x200000 (cfg_at 0x20000 10) 10 p_system).
  - exact O.
  - exact mmc_board.
  - cbn. lia.
  - vm_compute. split; discriminate.
  - intros x _. apply (mem_ok_mem_of 512). apply (bool_decide_eq_true_1 _). vm_compute. reflexivity.
  - lia.
  - lia.
  - apply names_from_test. vm_compute. reflexivity.
  - reflexivity.
  - lia.
  - apply is_cstr_spec. vm_compute. reflexivity.
  - vm_compute. discriminate.
  - intros q Hq. unfold cfg_at, part_sz_size, p_system in Hq. cbn [length] in Hq. lia.
Defined.

(** A buffer at 512, and a name at 0x1000. *)
Definition sample_memory : mem := store sample_disk 0x1000 (p_userdata ++ [0]).

Lemma places_recorded_witness :
  exists m', record_offsets sample_memory (512 + part_sz_size * INFO_SPARE_IMAGES) (Layout [] 6 128) [64; 1000; 2000; 3000; 3016; 9000] = Some m' /\
    find_base (Z.to_nat cfg_records) 13 0 m' 512 0x1000 =
    Some (10 + Z.of_nat 3, recorded sample_memory (512 + part_sz_size * INFO_SPARE_IMAGES) 6 [64; 1000; 2000; 3000; 3016; 9000] 3).
Proof.
  apply (places_recorded 13 sample_memory 512 0x1000 (Layout [] 6 128) [64; 1000; 2000; 3000; 3016; 9000] 3 p_userdata).
  - apply mem_ok_store; [|apply (bool_decide_eq_true_1 _); vm_compute; reflexivity].
    apply (mem_ok_mem_of 512). apply (bool_decide_eq_true_1 _). vm_compute. reflexivity.
  - apply names_from_test. vm_compute. reflexivity.
  - cbn. lia.
  - reflexivity.
  - reflexivity.
  - apply is_cstr_spec. vm_compute. reflexivity.
  - right. vm_compute. discriminate.
  - lia.
Defined.
