(* ===== verification/Uimage.v ===== *)
(** * Uimage: the images of bootm, include/image.h and common/image.c

    A legacy image is a header of 64 bytes, big-endian, and its data.  A header
    is the list of its bytes: [header m p] for the one in memory at [p]; the
    accessors are those the macros of image.h generate.  A multi image has a
    table of sizes in front of its components. *)

From S2P Require Import Prelude Mem CString Crc.
Import Crc32.
Local Open Scope Z_scope.

Definition IH_MAGIC := 0x27051956.
Definition IH_OS_NETBSD := 2.
Definition IH_OS_LINUX := 5.
Definition IH_OS_RTEMS := 18.
Definition IH_ARCH_ARM := 2.
Definition IH_TYPE_STANDALONE := 1.
Definition IH_TYPE_KERNEL := 2.
Definition IH_TYPE_RAMDISK := 3.
Definition IH_TYPE_MULTI := 4.
Definition IH_COMP_NONE := 0.
Definition IH_COMP_GZIP := 1.
Definition CHUNKSZ_CRC32 : nat := 64 * 1024.

Definition IMAGE_FORMAT_INVALID := 0.
Definition IMAGE_FORMAT_LEGACY := 1.

(** [image_get_header_size] *)
Definition header_size : Z := 64.

Definition header (m : mem) (p : Z) : list Z := bytes_at m p (Z.to_nat header_size).

(** [image_get_hdr_l], [image_get_hdr_b], [image_set_hdr_l]: the field at an
    offset. *)
Definition get_l (off : nat) (h : list Z) : Z := be_get (slice h off 4).
Definition get_b (off : nat) (h : list Z) : Z := nth off h 0.
Definition set_l (off : nat) (h : list Z) (v : Z) : list Z := splice h off (be_put 4 v).

Definition image_get_magic := get_l 0.
Definition image_get_hcrc := get_l 4.
Definition image_get_size := get_l 12.
Definition image_get_load := get_l 16.
Definition image_get_ep := get_l 20.
Definition image_get_dcrc := get_l 24.
Definition image_get_os := get_b 28.
Definition image_get_arch := get_b 29.
Definition image_get_type := get_b 30.
Definition image_get_comp := get_b 31.
Definition image_set_hcrc := set_l 4.

Definition image_get_data_size (h : list Z) : Z := image_get_size h.
Definition image_get_data (hdr : Z) : Z := u32 (hdr + header_size).
Definition image_get_image_size (h : list Z) : Z := u32 (image_get_size h + header_size).
Definition image_get_image_end (m : mem) (hdr : Z) : Z := u32 (hdr + image_get_image_size (header m hdr)).

Definition image_check_magic (h : list Z) : bool := image_get_magic h =? IH_MAGIC.
Definition image_check_type (h : list Z) (type : Z) : bool := image_get_type h =? type.
Definition image_check_arch (h : list Z) (arch : Z) : bool := image_get_arch h =? arch.
Definition image_check_os (h : list Z) (os : Z) : bool := image_get_os h =? os.
Definition image_check_target_arch (h : list Z) : bool := image_check_arch h IH_ARCH_ARM.

(** The checksum of the header is that of a copy whose own field is 0. *)
Definition image_check_hcrc (m : mem) (hdr : Z) : bool :=
  crc32 0 (image_set_hcrc (header m hdr) 0) =? image_get_hcrc (header m hdr).

(** The board has no watchdog. *)
Definition image_check_dcrc (m : mem) (hdr : Z) : bool :=
  let h := header m hdr in
  match crc32_wd false 0 0 (bytes_at m (image_get_data hdr) (Z.to_nat (image_get_data_size h))) CHUNKSZ_CRC32 with
  | Some dcrc => dcrc =? image_get_dcrc h
  | None => false
  end.

(** ** Multi images *)

(** [for (i = 0; size[i]; ++i) count++;] *)
Fixpoint count_loop (fuel : nat) (m : mem) (size count : Z) : option Z :=
  match fuel with
  | O => None
  | S fuel => if load32 m size =? 0 then Some count else count_loop fuel m (u32 (size + 4)) (u32 (count + 1))
  end.

Definition image_multi_count (fuel : nat) (m : mem) (hdr : Z) : option Z :=
  count_loop fuel m (image_get_data hdr) 0.

(** [uimage_to_cpu (size[i])] for the [i]th word at [size]. *)
Definition component_size (m : mem) (size i : Z) : Z := be_get (bytes_at m (u32 (size + 4 * i)) 4).

(** The [n] components from [i] on. *)
Fixpoint offset_loop (n : nat) (m : mem) (size i offset : Z) : Z :=
  match n with
  | O => offset
  | S n => offset_loop n m size (i + 1)
             (u32 (offset + Z.land (u32 (component_size m size i + 3)) (u32 (Z.lnot 3))))
  end.

(** The address and the size of the component. *)
Definition image_multi_getimg (fuel : nat) (m : mem) (hdr idx : Z) : option (Z * Z) :=
  count ← image_multi_count fuel m hdr;
  let size := image_get_data hdr in
  let img_data := u32 (image_get_data hdr + u32 (u32 (count + 1) * 4)) in
  Some (if idx <? count
        then (u32 (img_data + offset_loop (Z.to_nat idx) m size 0 0), component_size m size idx)
        else (0, 0)).

(** ** What kind of image there is *)

(** Without FIT and flat device trees. *)
Definition genimg_get_format (m : mem) (img_addr : Z) : Z :=
  if image_check_magic (header m img_addr) then IMAGE_FORMAT_LEGACY else IMAGE_FORMAT_INVALID.

(** No data flash. *)
Definition genimg_get_image (img_addr : Z) : Z := img_addr.
Definition genimg_has_config : bool := false.

(** A ramdisk for the architecture [arch]; [verify]: with its data. *)
Definition image_get_ramdisk (m : mem) (rd_addr arch : Z) (verify : bool) : Z :=
  let h := header m rd_addr in
  if negb (image_check_magic h) then NULL else
  if negb (image_check_hcrc m rd_addr) then NULL else
  if verify && negb (image_check_dcrc m rd_addr) then NULL else
  if negb (image_check_os h IH_OS_LINUX) || negb (image_check_arch h arch) || negb (image_check_type h IH_TYPE_RAMDISK)
  then NULL else rd_addr.

(** common/cmd_bootm.c: a kernel, or a program, for this machine. *)
Definition image_get_kernel (m : mem) (img_addr : Z) (verify : bool) : Z :=
  let h := header m img_addr in
  if negb (image_check_magic h) then NULL else
  if negb (image_check_hcrc m img_addr) then NULL else
  if verify && negb (image_check_dcrc m img_addr) then NULL else
  if negb (image_check_target_arch h) then NULL else img_addr.

(** ** Damage *)

Lemma length_header m p : length (header m p) = 64%nat.
Proof. apply length_bytes_at. Qed.

Lemma header_one m m' p i y : (i < 64)%nat -> same_except m m' (p + Z.of_nat i) 1 -> m' (p + Z.of_nat i) = y ->
  header m' p = <[i := y]> (header m p).
Proof.
  intros Hi Hs Hy. apply list_eq. intros j. destruct (decide (j < 64)%nat) as [Hj|Hj].
  - unfold header. rewrite bytes_at_lookup by done. destruct (decide (j = i)) as [->|Hne].
    + rewrite list_lookup_insert_eq by (rewrite length_bytes_at; done). by rewrite Hy.
    + rewrite list_lookup_insert_ne, bytes_at_lookup by done. f_equal. apply Hs. lia.
  - rewrite !lookup_ge_None_2; [done|rewrite length_insert, length_header; lia|rewrite length_header; lia].
Qed.

Lemma splice_insert_in (h : list Z) off s i y : (off + length s <= length h)%nat -> (off <= i < off + length s)%nat ->
  splice (<[i := y]> h) off s = splice h off s.
Proof.
  intros Hl Hi. unfold splice. rewrite take_insert, decide_False, drop_insert_lt by lia. done.
Qed.

Lemma insert_split (h : list Z) i x y : h !! i = Some x -> h = take i h ++ x :: drop (S i) h /\ <[i := y]> h = take i h ++ y :: drop (S i) h.
Proof.
  intros E. split; [symmetry; by apply take_drop_middle|]. apply insert_take_drop. by eapply lookup_lt_Some.
Qed.

Lemma splice_insert_out (h : list Z) off s i y : (off + length s <= length h)%nat -> (i < length h)%nat -> ~ (off <= i < off + length s)%nat ->
  splice (<[i := y]> h) off s = <[i := y]> (splice h off s).
Proof.
  intros Hl Hi Ho. unfold splice. destruct (decide (i < off)%nat).
  - rewrite take_insert, decide_True, drop_insert_lt by lia. rewrite !insert_app_l by (rewrite ?length_app, ?length_take; lia). done.
  - rewrite take_insert, decide_False, drop_insert_ge by lia. rewrite insert_app_r_alt by (rewrite ?length_take; lia). rewrite length_take.
    rewrite insert_app_r_alt by lia. do 3 f_equal. lia.
Qed.

Lemma crc32_one l i y crc : 0 <= crc < 2 ^ 32 -> bytes_ok l -> is_byte y -> (exists x, l !! i = Some x /\ x <> y) ->
  crc32 crc (<[i := y]> l) <> crc32 crc l.
Proof.
  intros Hc Hl Hy (x & Ex & Hne). destruct (insert_split l i x y Ex) as [E1 E2]. rewrite E2. intros E. rewrite E1 in Hl.
  apply (Crc32Proofs.crc32_detects_byte crc (take i l) x y (drop (S i) l)); [done|done|done|done|]. rewrite <- E1. done.
Qed.

Lemma be_get_inj l l' : bytes_ok l -> bytes_ok l' -> length l = length l' -> be_get l = be_get l' -> l = l'.
Proof.
  intros Hl Hl' Hn E. unfold be_get in E. apply (f_equal (le_put (length (rev l)))) in E.
  rewrite le_put_get in E by by apply Forall_rev. rewrite length_rev, Hn, <- length_rev, le_put_get in E by by apply Forall_rev.
  apply (f_equal (@rev Z)) in E. by rewrite !rev_involutive in E.
Qed.

Lemma insert_ne (l : list Z) i x y : l !! i = Some x -> x <> y -> <[i := y]> l <> l.
Proof.
  intros Ex Hne E. apply (f_equal (fun l => l !! i)) in E. rewrite list_lookup_insert_eq in E by (by eapply lookup_lt_Some). congruence.
Qed.

Lemma slice_insert_in (h : list Z) off n i y : (off <= i < off + n)%nat -> slice (<[i := y]> h) off n = <[(i - off)%nat := y]> (slice h off n).
Proof. intros Hi. unfold slice. rewrite drop_insert_ge, take_insert, decide_True by lia. done. Qed.

Lemma slice_insert_out (h : list Z) off n i y : ~ (off <= i < off + n)%nat -> slice (<[i := y]> h) off n = slice h off n.
Proof.
  intros Hi. unfold slice. destruct (decide (i < off)%nat); [by rewrite drop_insert_lt by lia|].
  rewrite drop_insert_ge, take_insert, decide_False by lia. done.
Qed.

Lemma slice_lookup (h : list Z) off n j : (j < n)%nat -> slice h off n !! j = h !! (off + j)%nat.
Proof. intros Hj. unfold slice. by rewrite lookup_take_lt, lookup_drop by lia. Qed.

Lemma bytes_ok_slice l off n : bytes_ok l -> bytes_ok (slice l off n).
Proof. intros H. by apply Forall_take, Forall_drop. Qed.

Lemma bytes_ok_splice l off s : bytes_ok l -> bytes_ok s -> bytes_ok (splice l off s).
Proof. intros H Hs. repeat apply Forall_app_2; [by apply Forall_take|done|by apply Forall_drop]. Qed.

(** One other byte in a text with a field: a checksum [f] that sees every
    single change differs from the field, or the field does. *)
Lemma field_damage (f : list Z -> Z) (h z : list Z) off i x y :
  (forall l j v w, bytes_ok l -> l !! j = Some v -> is_byte w -> v <> w -> f (<[j := w]> l) <> f l) ->
  bytes_ok h -> bytes_ok z -> length z = 4%nat -> (off + 4 <= length h)%nat -> h !! i = Some x -> is_byte y -> x <> y ->
  f (splice h off z) = be_get (slice h off 4) -> f (splice (<[i := y]> h) off z) <> be_get (slice (<[i := y]> h) off 4).
Proof.
  intros Hf Hb Hz Hz4 Hl Ex Hy Hne Hc. pose proof (lookup_lt_Some _ _ _ Ex) as Hi.
  destruct (decide (off <= i < off + 4)%nat) as [Hin|Hout].
  - rewrite splice_insert_in by lia. rewrite Hc, slice_insert_in by lia. intros E. apply be_get_inj in E.
    + symmetry in E. revert E. eapply insert_ne; [|exact Hne]. rewrite slice_lookup by lia. by replace (off + (i - off))%nat with i by lia.
    + by apply bytes_ok_slice.
    + apply Forall_insert; [by apply bytes_ok_slice|done].
    + by rewrite length_insert.
  - rewrite splice_insert_out, slice_insert_out by lia. rewrite <- Hc. apply (Hf _ _ x); [|  |done|done].
    + by apply bytes_ok_splice.
    + rewrite <- Ex. unfold splice. destruct (decide (i < off)%nat).
      * rewrite lookup_app_l by (rewrite length_take; lia). by rewrite lookup_take_lt by lia.
      * rewrite lookup_app_r, length_take, lookup_app_r, Hz4, lookup_drop by (rewrite ?length_take; lia). f_equal. lia.
Qed.

Lemma hcrc_eq m hdr : image_check_hcrc m hdr = (crc32 0 (splice (header m hdr) 4 (be_put 4 0)) =? be_get (slice (header m hdr) 4 4)).
Proof. reflexivity. Qed.

(** A header with one other byte is refused. *)
Lemma hcrc_damage m m' hdr i : mem_ok m -> mem_ok m' -> image_check_hcrc m hdr = true -> (i < 64)%nat ->
  same_except m m' (hdr + Z.of_nat i) 1 -> m' (hdr + Z.of_nat i) <> m (hdr + Z.of_nat i) -> image_check_hcrc m' hdr = false.
Proof.
  intros Hm Hm' Hc Hi Hs Hne. rewrite hcrc_eq in Hc |- *. rewrite (header_one m m' hdr i _ Hi Hs eq_refl).
  apply Z.eqb_eq in Hc. apply Z.eqb_neq. apply (field_damage (crc32 0) (header m hdr) _ 4 i (m (hdr + Z.of_nat i))).
  - intros l j v w Hl Ev Hw Hvw. apply crc32_one; [lia|exact Hl|exact Hw|by exists v].
  - by apply bytes_ok_bytes_at.
  - apply Forall_rev, bytes_ok_le_put.
  - reflexivity.
  - rewrite length_header. lia.
  - by apply bytes_at_lookup.
  - apply Hm'.
  - by apply not_eq_sym.
  - exact Hc.
Qed.

Lemma dcrc_damage m m' hdr i : mem_ok m -> mem_ok m' -> 0 <= hdr -> hdr + header_size + image_get_size (header m hdr) <= 2 ^ 32 ->
  image_check_dcrc m hdr = true -> 0 <= i < image_get_size (header m hdr) ->
  same_except m m' (hdr + header_size + i) 1 -> m' (hdr + header_size + i) <> m (hdr + header_size + i) -> image_check_dcrc m' hdr = false.
Proof.
  intros Hm Hm' H0 Hmax Hc Hi Hs Hne. unfold header_size in *.
  assert (header m' hdr = header m hdr) as Eh by (apply bytes_at_ext; intros q Hq; apply Hs; unfold header_size in Hq; lia).
  unfold image_check_dcrc, image_get_data_size, image_get_data, crc32_wd, header_size in *. rewrite Eh.
  rewrite u32_small in * by lia. set (n := Z.to_nat (image_get_size (header m hdr))) in *.
  apply Z.eqb_eq in Hc. apply Z.eqb_neq. rewrite <- Hc.
  assert (bytes_at m' (hdr + 64) n = <[Z.to_nat i := m' (hdr + 64 + i)]> (bytes_at m (hdr + 64) n)) as ->.
  { apply list_eq. intros j. destruct (decide (j < n)%nat) as [Hj|Hj].
    - rewrite bytes_at_lookup by done. destruct (decide (j = Z.to_nat i)) as [->|Hnj].
      + rewrite list_lookup_insert_eq by (rewrite length_bytes_at; lia). do 2 f_equal. lia.
      + rewrite list_lookup_insert_ne, bytes_at_lookup by done. f_equal. apply Hs. lia.
    - rewrite !lookup_ge_None_2; [done|rewrite length_insert, length_bytes_at; lia|rewrite length_bytes_at; lia]. }
  apply crc32_one; [lia|by apply bytes_ok_bytes_at|apply Hm'|].
  exists (m (hdr + 64 + i)). rewrite bytes_at_lookup by lia. rewrite Z2Nat.id by lia. done.
Qed.

(** C22: an image that [bootm] accepts with its checksums is not accepted any
    more when a single byte of it, in the header or in the data, is another:
    [image_get_kernel] and [image_get_ramdisk] return NULL. *)
Theorem damaged_image_refused m m' img q : mem_ok m -> mem_ok m' -> 0 < img ->
  img + header_size + image_get_size (header m img) <= 2 ^ 32 ->
  img <= q < img + header_size + image_get_size (header m img) -> same_except m m' q 1 -> m' q <> m q ->
  (image_get_kernel m img true = img -> image_get_kernel m' img true = NULL) /\
  (forall arch, image_get_ramdisk m img arch true = img -> image_get_ramdisk m' img arch true = NULL).
Proof.
  intros Hm Hm' H0 Hmax Hq Hs Hne.
  assert (image_check_hcrc m img = true -> image_check_dcrc m img = true -> image_check_hcrc m' img && image_check_dcrc m' img = false) as H.
  { intros Hh Hd. unfold header_size in *. destruct (Z.ltb_spec q (img + 64)).
    - replace q with (img + Z.of_nat (Z.to_nat (q - img))) in Hs, Hne by lia. by rewrite (hcrc_damage m m' img (Z.to_nat (q - img))) by (done || lia).
    - replace q with (img + 64 + (q - img - 64)) in Hs, Hne by lia. rewrite (dcrc_damage m m' img (q - img - 64)) by (done || unfold header_size; lia).
      apply andb_false_r. }
  split; [|intros arch]; unfold image_get_kernel, image_get_ramdisk; cbn [andb].
  - destruct (image_check_magic (header m img)), (image_check_hcrc m img), (image_check_dcrc m img); cbn [negb]; try (unfold NULL; lia).
    intros _. specialize (H eq_refl eq_refl). destruct (image_check_magic _), (image_check_hcrc m' img), (image_check_dcrc m' img); done.
  - destruct (image_check_magic (header m img)), (image_check_hcrc m img), (image_check_dcrc m img); cbn [negb]; try (unfold NULL; lia).
    intros _. specialize (H eq_refl eq_refl). destruct (image_check_magic _), (image_check_hcrc m' img), (image_check_dcrc m' img); done.
Qed.

(** ** Multi images *)

(** How the components lie behind the header: the table, ended by 0, then each
    component filled up to a multiple of four. *)
Definition aligned (c : list Z) : list Z := c ++ replicate (Z.to_nat (- Z.of_nat (length c) mod 4)) 0.
Definition multi_data (cs : list (list Z)) : list Z :=
  concat (map (fun c => be_put 4 (Z.of_nat (length c))) cs) ++ [0; 0; 0; 0] ++ concat (map aligned cs).

(** The bytes in front of component [i], from the first one on. *)
Definition aligned_size (cs : list (list Z)) : Z := Z.of_nat (length (concat (map aligned cs))).

Lemma length_aligned c : Z.of_nat (length (aligned c)) = Z.land (Z.of_nat (length c) + 3) (Z.lnot 3).
Proof.
  unfold aligned. rewrite length_app, length_replicate.
  change 3 with (Z.ones 2) at 2. rewrite <- Z.ldiff_land, Z.ldiff_ones_r by lia. rewrite Z.shiftl_mul_pow2, Z.shiftr_div_pow2 by lia.
  change (2 ^ 2) with 4. rewrite Nat2Z.inj_add, Z2Nat.id by (apply Z.mod_pos_bound; lia). Z.div_mod_to_equations. lia.
Qed.

Lemma round_up n : 0 <= n < 2 ^ 32 - 4 -> Z.land (u32 (n + 3)) (u32 (Z.lnot 3)) = Z.land (n + 3) (Z.lnot 3).
Proof.
  intros Hn. rewrite u32_small by lia. unfold u32. rewrite <- (Z.land_ones (Z.lnot 3)) by lia.
  rewrite (Z.land_comm (Z.lnot 3)), Z.land_assoc, Z.land_ones, Z.mod_small by lia. done.
Qed.

Lemma aligned_size_snoc cs c : aligned_size (cs ++ [c]) = aligned_size cs + Z.land (Z.of_nat (length c) + 3) (Z.lnot 3).
Proof. unfold aligned_size. rewrite map_app, concat_app, length_app. cbn [map concat]. rewrite app_nil_r, <- length_aligned. lia. Qed.

Lemma length_table cs : length (concat (map (fun c : list Z => be_put 4 (Z.of_nat (length c))) cs)) = (4 * length cs)%nat.
Proof. induction cs as [|c cs IH]; cbn [map concat length]; [done|]. rewrite length_app, length_be_put, IH. lia. Qed.

Lemma be_get_put v : 0 <= v < 2 ^ 32 -> be_get (be_put 4 v) = v.
Proof. intros Hv. unfold be_get, be_put. rewrite rev_involutive, le_get_put. by apply Z.mod_small. Qed.

(** A word of zeros is zero in either order, and no other word is. *)
Lemma load_be_zero m p v : text_at m p (be_put 4 v) -> 0 <= v < 2 ^ 32 -> (load32 m p =? 0) = (v =? 0).
Proof.
  intros Ht Hv. unfold load32. unfold text_at in Ht. rewrite length_be_put in Ht. rewrite Ht.
  destruct (Z.eqb_spec v 0) as [->|Hne]; [done|]. apply Z.eqb_neq. intros E. apply Hne.
  apply (f_equal (le_put (length (be_put 4 v)))) in E.
  rewrite le_put_get in E by apply Forall_rev, bytes_ok_le_put. rewrite length_be_put in E.
  rewrite <- (be_get_put v Hv), E. done.
Qed.

Section Multi.
Context (m : mem) (hdr : Z) (cs : list (list Z)).
Abbreviation data := (hdr + header_size).
Context (H0 : 0 <= hdr) (Hmax : data + Z.of_nat (length (multi_data cs)) < 2 ^ 32).
Context (Ht : text_at m data (multi_data cs)) (Hne : Forall (fun c => c <> []) cs).

Lemma data_eq : image_get_data hdr = data.
Proof. apply u32_small. unfold header_size in *. lia. Qed.

Lemma length_multi : Z.of_nat (length (multi_data cs)) = 4 * Z.of_nat (length cs) + 4 + aligned_size cs.
Proof. unfold multi_data, aligned_size. rewrite !length_app, length_table. cbn [length]. lia. Qed.

Lemma parts_in_text : text_at m data (concat (map (fun c => be_put 4 (Z.of_nat (length c))) cs)) /\
  text_at m (data + 4 * Z.of_nat (length cs)) [0; 0; 0; 0] /\
  text_at m (data + 4 * (Z.of_nat (length cs) + 1)) (concat (map aligned cs)).
Proof.
  unfold multi_data in Ht. apply text_at_app in Ht as [H1 H2]. apply text_at_app in H2 as [H2 H3].
  rewrite length_table in H2, H3. cbn [length] in H3. split; [exact H1|].
  split; [by replace (data + 4 * Z.of_nat (length cs)) with (data + Z.of_nat (4 * length cs)) by lia|].
  by replace (data + 4 * (Z.of_nat (length cs) + 1)) with (data + Z.of_nat (4 * length cs) + Z.of_nat 4) by lia.
Qed.

Lemma component_fits c : In c cs -> 0 < Z.of_nat (length c) <= aligned_size cs.
Proof.
  intros Hc. rewrite Forall_forall in Hne. split.
  - apply list_elem_of_In, Hne in Hc. destruct c; [done|cbn; lia].
  - unfold aligned_size. clear H0 Hmax Ht Hne. induction cs as [|c' cs' IH]; [done|]. cbn [map concat]. rewrite length_app.
    destruct Hc as [->|Hc]; [unfold aligned; rewrite length_app; lia|]. specialize (IH Hc). lia.
Qed.

(** The entry of component [i]. *)
Lemma entry_at i c : cs !! i = Some c -> text_at m (data + 4 * Z.of_nat i) (be_put 4 (Z.of_nat (length c))).
Proof.
  intros E. destruct parts_in_text as [H1 _]. rewrite <- (take_drop_middle _ _ _ E), map_app, concat_app in H1.
  apply text_at_app in H1 as [_ H1]. rewrite length_table, length_take in H1. cbn [map concat] in H1. apply text_at_app in H1 as [H1 _].
  pose proof (lookup_lt_Some _ _ _ E). by replace (data + Z.of_nat (4 * (i `min` length cs))) with (data + 4 * Z.of_nat i) in H1 by lia.
Qed.

Lemma component_size_spec i c : cs !! i = Some c -> component_size m data (Z.of_nat i) = Z.of_nat (length c).
Proof.
  intros E. pose proof (entry_at i c E) as H. unfold text_at in H. rewrite length_be_put in H.
  pose proof (lookup_lt_Some _ _ _ E). pose proof length_multi. assert (In c cs) as Hc by (apply list_elem_of_In; by eapply list_elem_of_lookup_2).
  pose proof (component_fits c Hc). unfold component_size. rewrite u32_small by (unfold header_size in *; lia). rewrite H. apply be_get_put. unfold header_size in *. lia.
Qed.

Lemma count_loop_spec : forall n i fuel, (n + i = length cs)%nat -> (n < fuel)%nat ->
  count_loop fuel m (data + 4 * Z.of_nat i) (Z.of_nat i) = Some (Z.of_nat (length cs)).
Proof.
  pose proof length_multi as Hlm. unfold header_size in *.
  induction n as [|n IH]; intros i fuel Hn Hf; (destruct fuel as [|fuel]; [lia|]); cbn [count_loop].
  - replace i with (length cs) by lia. destruct parts_in_text as (_ & H2 & _). change [0; 0; 0; 0] with (be_put 4 0) in H2. unfold header_size in H2.
    by rewrite (load_be_zero _ _ _ H2) by lia.
  - destruct (lookup_lt_is_Some_2 cs i) as [c E]; [lia|].
    assert (In c cs) as Hc by (apply list_elem_of_In; by eapply list_elem_of_lookup_2). pose proof (component_fits c Hc).
    pose proof (entry_at i c E) as He. unfold header_size in He. rewrite (load_be_zero _ _ _ He) by lia. rewrite (proj2 (Z.eqb_neq (Z.of_nat (length c)) 0)) by lia.
    rewrite !u32_small by lia. specialize (IH (S i) fuel ltac:(lia) ltac:(lia)).
    replace (hdr + 64 + 4 * Z.of_nat i + 4) with (hdr + 64 + 4 * Z.of_nat (S i)) by lia. by replace (Z.of_nat i + 1) with (Z.of_nat (S i)) by lia.
Qed.

Lemma offset_loop_spec : forall n i, (n + i <= length cs)%nat ->
  offset_loop n m data (Z.of_nat i) (aligned_size (take i cs)) = aligned_size (take (n + i) cs).
Proof.
  pose proof length_multi as Hlm. unfold header_size in *.
  induction n as [|n IH]; intros i Hn; cbn [offset_loop]; [done|].
  destruct (lookup_lt_is_Some_2 cs i) as [c E]; [lia|]. pose proof (component_size_spec i c E) as Es. unfold header_size in Es. rewrite Es.
  assert (In c cs) as Hc by (apply list_elem_of_In; by eapply list_elem_of_lookup_2). pose proof (component_fits c Hc).
  rewrite round_up by lia. rewrite <- aligned_size_snoc, <- (take_S_r _ _ _ E).
  assert (0 <= aligned_size (take (S i) cs) <= aligned_size cs) as Hle.
  { rewrite <- (take_drop (S i) cs) at 3. unfold aligned_size. rewrite map_app, concat_app, length_app. lia. }
  rewrite u32_small by lia. replace (Z.of_nat i + 1) with (Z.of_nat (S i)) by lia. rewrite IH by lia. do 2 f_equal. lia.
Qed.

Lemma component_in_place i c : cs !! i = Some c ->
  text_at m (data + 4 * (Z.of_nat (length cs) + 1) + aligned_size (take i cs)) c.
Proof.
  intros E. destruct parts_in_text as (_ & _ & H3). assert (concat (map aligned cs) = concat (map aligned (take i cs)) ++ aligned c ++ concat (map aligned (drop (S i) cs))) as Ea.
  { rewrite <- (take_drop_middle _ _ _ E) at 1. by rewrite map_app, concat_app. }
  rewrite Ea in H3. apply text_at_app in H3 as [_ H3]. apply text_at_app in H3 as [H3 _]. unfold aligned at 2 in H3.
  apply text_at_app in H3 as [H3 _]. exact H3.
Qed.
End Multi.

(** C23: [image_multi_getimg] finds each component of a multi image, with its
    size, where the image has it; there is no component behind the last. *)
Theorem multi_getimg_finds fuel m hdr cs i : 0 <= hdr -> hdr + header_size + Z.of_nat (length (multi_data cs)) < 2 ^ 32 ->
  text_at m (hdr + header_size) (multi_data cs) -> Forall (fun c => c <> []) cs -> (length cs < fuel)%nat ->
  image_multi_count fuel m hdr = Some (Z.of_nat (length cs)) /\
  match cs !! i with
  | Some c => exists data, image_multi_getimg fuel m hdr (Z.of_nat i) = Some (data, Z.of_nat (length c)) /\
      text_at m data c /\ hdr < data /\ data + Z.of_nat (length c) <= hdr + header_size + Z.of_nat (length (multi_data cs))
  | None => image_multi_getimg fuel m hdr (Z.of_nat i) = Some (0, 0)
  end.
Proof.
  intros H0 Hmax Ht Hne Hf. pose proof (data_eq hdr cs H0 Hmax) as Hd. pose proof (length_multi cs) as Hlm.
  pose proof (count_loop_spec m hdr cs H0 Hmax Ht Hne (length cs) 0 fuel ltac:(lia) Hf) as Hc.
  change (Z.of_nat 0) with 0 in Hc. rewrite Z.mul_0_r, Z.add_0_r in Hc.
  assert (image_multi_count fuel m hdr = Some (Z.of_nat (length cs))) as Ec by (unfold image_multi_count; by rewrite Hd).
  split; [exact Ec|]. unfold image_multi_getimg. rewrite Ec, Hd. cbn [mbind option_bind]. unfold header_size in *.
  destruct (cs !! i) as [c|] eqn:E.
  - pose proof (lookup_lt_Some _ _ _ E). rewrite (proj2 (Z.ltb_lt _ _)) by lia.
    pose proof (component_size_spec m hdr cs H0 Hmax Ht Hne i c E) as Es. unfold header_size in Es. rewrite Es.
    pose proof (offset_loop_spec m hdr cs H0 Hmax Ht Hne i 0 ltac:(lia)) as Eo. unfold header_size in Eo.
    change (Z.of_nat 0) with 0 in Eo. change (aligned_size (take 0 cs)) with 0 in Eo. rewrite Nat2Z.id, Eo, Nat.add_0_r.
    assert (aligned_size (take i cs) + Z.of_nat (length c) <= aligned_size cs /\ 0 <= aligned_size (take i cs)) as [Hle Hge].
    { rewrite <- (take_drop_middle _ _ _ E) at 2. unfold aligned_size. rewrite map_app, concat_app. cbn [map concat]. rewrite !length_app.
      unfold aligned at 3. rewrite length_app. lia. }
    rewrite (u32_small (Z.of_nat (length cs) + 1)), (u32_small (_ * 4)), (u32_small (hdr + 64 + _)), u32_small by lia.
    eexists. split; [reflexivity|]. split; [|lia].
    pose proof (component_in_place m hdr cs Ht i c E) as Hp. unfold header_size in Hp.
    by replace (hdr + 64 + (Z.of_nat (length cs) + 1) * 4 + aligned_size (take i cs)) with (hdr + 64 + 4 * (Z.of_nat (length cs) + 1) + aligned_size (take i cs)) by lia.
  - apply lookup_ge_None_1 in E. by rewrite (proj2 (Z.ltb_ge _ _)) by lia.
Qed.

(** ** A sample image *)

(** As mkimage builds it: both checksums over the other fields. *)
Definition make_image (type comp load ep os arch : Z) (data : list Z) : list Z :=
  let h := be_put 4 IH_MAGIC ++ replicate 8 0 ++ be_put 4 (Z.of_nat (length data)) ++ be_put 4 load ++ be_put 4 ep ++
    be_put 4 (crc32 0 data) ++ [os; arch; type; comp] ++ replicate 32 0 in
  image_set_hcrc h (crc32 0 h) ++ data.

Definition sample_image : list Z := make_image IH_TYPE_KERNEL IH_COMP_NONE 0x8000 0x8000 IH_OS_LINUX IH_ARCH_ARM [1; 2; 3; 4; 5; 6; 7; 8; 9].
Definition image_mem : mem := mem_of 0x1000 sample_image.

Lemma image_mem_ok : mem_ok image_mem.
Proof. apply mem_ok_mem_of. apply (bool_decide_eq_true_1 _). vm_compute. reflexivity. Qed.

Lemma damaged_image_refused_witness :
  (image_get_kernel image_mem 0x1000 true = 0x1000 -> image_get_kernel (upd image_mem 0x1042 77) 0x1000 true = NULL) /\
  (forall arch, image_get_ramdisk image_mem 0x1000 arch true = 0x1000 -> image_get_ramdisk (upd image_mem 0x1042 77) 0x1000 arch true = NULL).
Proof.
  apply (damaged_image_refused image_mem (upd image_mem 0x1042 77) 0x1000 0x1042).
  - exact image_mem_ok.
  - apply mem_ok_upd; [exact image_mem_ok|unfold is_byte; lia].
  - lia.
  - vm_compute. discriminate.
  - vm_compute. split; [discriminate|reflexivity].
  - intros r Hr. apply upd_ne. lia.
  - vm_compute. discriminate.
Defined.

Example sample_accepted : image_get_kernel image_mem 0x1000 true = 0x1000.
Proof. vm_compute. reflexivity. Qed.

Definition multi_mem : mem := mem_of (0x1000 + header_size) (multi_data [[1; 2; 3; 4; 5]; [6; 7]]).

Lemma multi_getimg_finds_witness :
  image_multi_count 3 multi_mem 0x1000 = Some 2 /\
  exists data, image_multi_getimg 3 multi_mem 0x1000 1 = Some (data, 2) /\
    text_at multi_mem data [6; 7] /\ 0x1000 < data /\ data + 2 <= 0x1000 + header_size + 24.
Proof.
  apply (multi_getimg_finds 3 multi_mem 0x1000 [[1; 2; 3; 4; 5]; [6; 7]] 1).
  - lia.
  - by vm_compute.
  - vm_compute. reflexivity.
  - repeat constructor; done.
  - cbn. lia.
Defined.
