(* ===== verification/Atag.v ===== *)
(** * Atag: lib_arm/bootm.c, the parameters of a Linux kernel

    A list of tagged records in memory, from [bi_boot_params] on: each begins
    with its size in words and its kind.  [params] is the static of the file;
    [tag_next] reads the size back from memory. *)

From S2P Require Import Prelude Mem CString.
Local Open Scope Z_scope.

Definition ATAG_NONE := 0x00000000.
Definition ATAG_CORE := 0x54410001.
Definition ATAG_MEM := 0x54410002.
Definition ATAG_INITRD2 := 0x54420005.
Definition ATAG_CMDLINE := 0x54410009.

(** Stores through [struct tag *]: the header, and the words behind it. *)
Definition put_header (m : mem) (params tag size : Z) : mem := store32 (store32 m (params + 4) tag) params size.
Definition put_word (m : mem) (params i v : Z) : mem := store32 m (params + 8 + 4 * i) v.
Definition tag_next (m : mem) (params : Z) : Z := params + 4 * load32 m params.
(** [tag_size], for a record of [n] bytes behind the header. *)
Definition tag_size (n : Z) : Z := Z.shiftr (8 + n) 2.

Definition setup_start_tag (m : mem) (bi_boot_params : Z) : mem * Z :=
  let params := bi_boot_params in
  let m := put_header m params ATAG_CORE (tag_size 12) in
  let m := put_word (put_word (put_word m params 0 0) params 1 0) params 2 0 in
  (m, tag_next m params).

(** [bi_dram]: starts and sizes. *)
Fixpoint setup_memory_tags (m : mem) (params : Z) (bi_dram : list (Z * Z)) : mem * Z :=
  match bi_dram with
  | [] => (m, params)
  | (start, size) :: bi_dram =>
      let m := put_header m params ATAG_MEM (tag_size 8) in
      let m := put_word (put_word m params 1 start) params 0 size in
      setup_memory_tags m (tag_next m params) bi_dram
  end.

(** [for (p = commandline; *p == ' '; p++);] *)
Fixpoint skip_spaces (fuel : nat) (m : mem) (p : Z) : option Z :=
  match fuel with
  | O => None
  | S fuel => if m p =? 32 then skip_spaces fuel m (p + 1) else Some p
  end.

Definition setup_commandline_tag (fuel : nat) (m : mem) (params commandline : Z) : option (mem * Z) :=
  if commandline =? NULL then Some (m, params) else
  p ← skip_spaces fuel m commandline;
  if m p =? 0 then Some (m, params) else
  let m := store32 m (params + 4) ATAG_CMDLINE in
  n ← strlen fuel m p;
  let m := store32 m params (Z.shiftr (u32 (8 + n + 1 + 4)) 2) in
  m ← strcpy fuel m (params + 8) p;
  Some (m, tag_next m params).

Definition setup_initrd_tag (m : mem) (params initrd_start initrd_end : Z) : mem * Z :=
  let m := put_header m params ATAG_INITRD2 (tag_size 8) in
  let m := put_word (put_word m params 0 initrd_start) params 1 (u32 (initrd_end - initrd_start)) in
  (m, tag_next m params).

Definition setup_end_tag (m : mem) (params : Z) : mem := put_header m params ATAG_NONE 0.

(** The tags that [do_bootm_linux] sets up on this board: [CONFIG_SETUP_MEMORY_TAGS],
    [CONFIG_CMDLINE_TAG] and [CONFIG_INITRD_TAG] are defined. *)
Definition setup_tags (fuel : nat) (m : mem) (bi_boot_params : Z) (bi_dram : list (Z * Z)) (commandline rd_start rd_end : Z)
    : option mem :=
  let '(m, params) := setup_start_tag m bi_boot_params in
  let '(m, params) := setup_memory_tags m params bi_dram in
  '(m, params) ← setup_commandline_tag fuel m params commandline;
  let '(m, params) := if negb (rd_start =? 0) && negb (rd_end =? 0) then setup_initrd_tag m params rd_start rd_end else (m, params) in
  Some (setup_end_tag m params).

(** ** What the kernel reads *)

Inductive tag := Core (flags pagesize rootdev : Z) | Mem (size start : Z) | Initrd (start size : Z) | Cmdline (s : list Z).

(** The record at [p]; [None] where it is none of these. *)
Definition read_tag (fuel : nat) (m : mem) (p : Z) : option tag :=
  let word i := load32 m (p + 8 + 4 * i) in
  let kind := load32 m (p + 4) in
  if kind =? ATAG_CORE then Some (Core (word 0) (word 1) (word 2))
  else if kind =? ATAG_MEM then Some (Mem (word 0) (word 1))
  else if kind =? ATAG_INITRD2 then Some (Initrd (word 0) (word 1))
  else if kind =? ATAG_CMDLINE then n ← strlen fuel m (p + 8); Some (Cmdline (bytes_at m (p + 8) (Z.to_nat n)))
  else None.

(** [for_each_tag] (setup.h) *)
Fixpoint read_tags (n : nat) (fuel : nat) (m : mem) (p : Z) : option (list tag) :=
  match n with
  | O => None
  | S n =>
      if load32 m p =? 0 then Some [] else
      t ← read_tag fuel m p; l ← read_tags n fuel m (tag_next m p); Some (t :: l)
  end.

(** ** The list that was set up *)

Definition words (t : tag) : Z :=
  match t with
  | Core _ _ _ => 5 | Mem _ _ => 4 | Initrd _ _ => 4
  | Cmdline s => Z.shiftr (u32 (8 + Z.of_nat (length s) + 1 + 4)) 2
  end.

Definition tag_ok (t : tag) : Prop := match t with Cmdline s => Z.of_nat (length s) < 2 ^ 30 | _ => True end.

(** [t] at [p]. *)
Definition tag_at (m : mem) (p : Z) (t : tag) : Prop :=
  load32 m p = words t /\
  match t with
  | Core a b c => load32 m (p + 4) = ATAG_CORE /\ load32 m (p + 8) = a /\ load32 m (p + 12) = b /\ load32 m (p + 16) = c
  | Mem a b => load32 m (p + 4) = ATAG_MEM /\ load32 m (p + 8) = a /\ load32 m (p + 12) = b
  | Initrd a b => load32 m (p + 4) = ATAG_INITRD2 /\ load32 m (p + 8) = a /\ load32 m (p + 12) = b
  | Cmdline s => load32 m (p + 4) = ATAG_CMDLINE /\ cstr_at m (p + 8) s
  end.

Fixpoint tags_at (m : mem) (p : Z) (l : list tag) (q : Z) : Prop :=
  match l with
  | [] => p = q
  | t :: l => tag_ok t /\ tag_at m p t /\ tags_at m (p + 4 * words t) l q
  end.

Lemma cmdline_words s : Z.of_nat (length s) < 2 ^ 30 -> 8 + Z.of_nat (length s) + 1 <= 4 * words (Cmdline s) <= 13 + Z.of_nat (length s).
Proof.
  intros Hl. cbn [words]. rewrite u32_small, Z.shiftr_div_pow2 by lia. change (2 ^ 2) with 4. Z.div_mod_to_equations. lia.
Qed.

Lemma words_pos t : tag_ok t -> 2 <= words t < 2 ^ 29.
Proof.
  destruct t as [a b c|a b|a b|s]; cbn [tag_ok]; intros H; [cbn; lia|cbn; lia|cbn; lia|].
  pose proof (cmdline_words s H). lia.
Qed.

Lemma load32_on m m' p q : (forall r, p <= r < q -> m' r = m r) -> forall x, p <= x -> x + 4 <= q -> load32 m' x = load32 m x.
Proof. intros H x H1 H2. apply load32_same. intros r Hr. apply H. lia. Qed.

Lemma tag_at_same m m' p t : tag_ok t -> (forall r, p <= r < p + 4 * words t -> m' r = m r) -> tag_at m p t -> tag_at m' p t.
Proof.
  intros Ho Hs [Hw Ht]. pose proof (words_pos t Ho) as Hp. pose proof (load32_on m m' p _ Hs) as L. split; [rewrite L by lia; exact Hw|].
  destruct t as [a b c|a b|a b|s]; cbn [words] in *.
  - rewrite !L by lia. exact Ht.
  - rewrite !L by lia. exact Ht.
  - rewrite !L by lia. exact Ht.
  - destruct Ht as [Hk Hc]. pose proof (cmdline_words s Ho) as H2. cbn [words] in H2. rewrite L by lia. split; [exact Hk|]. eapply cstr_at_ext; [|exact Hc].
    intros r Hr. apply Hs. lia.
Qed.

Lemma tags_at_le m l : forall p q, tags_at m p l q -> p <= q.
Proof.
  induction l as [|t l IH]; intros p q H; cbn [tags_at] in H; [lia|]. destruct H as (Ho & _ & H). apply IH in H. pose proof (words_pos t Ho). lia.
Qed.

Lemma tags_at_same m m' l : forall p q, (forall r, p <= r < q -> m' r = m r) -> tags_at m p l q -> tags_at m' p l q.
Proof.
  induction l as [|t l IH]; intros p q Hs H; cbn [tags_at] in *; [done|]. destruct H as (Ho & Ht & H).
  pose proof (tags_at_le _ _ _ _ H). pose proof (words_pos t Ho). split; [done|]. split.
  - eapply tag_at_same; [done| |exact Ht]. intros r Hr. apply Hs. lia.
  - apply IH; [|exact H]. intros r Hr. apply Hs. lia.
Qed.

Lemma tags_snoc m l t : forall p q, tag_ok t -> tags_at m p l q -> tag_at m q t -> tags_at m p (l ++ [t]) (q + 4 * words t).
Proof.
  induction l as [|t' l IH]; intros p q Ho H Ht; cbn [tags_at app] in *; [by subst q|]. destruct H as (Ho' & Ht' & H).
  split; [done|]. split; [done|]. by apply IH.
Qed.

(** One more tag behind [q]. *)
Lemma tags_add m m' l t p q : tag_ok t -> tags_at m p l q -> (forall r, r < q -> m' r = m r) -> tag_at m' q t ->
  tags_at m' p (l ++ [t]) (tag_next m' q) /\ tag_next m' q = q + 4 * words t.
Proof.
  intros Ho H Hs Ht. assert (tag_next m' q = q + 4 * words t) as -> by (unfold tag_next; by rewrite (proj1 Ht)).
  split; [|done]. apply tags_snoc; [done| |done]. eapply tags_at_same; [|exact H]. intros r Hr. apply Hs. lia.
Qed.

Lemma store32_other m p v r : r < p \/ p + 4 <= r -> store32 m p v r = m r.
Proof. intros H. apply store_outside. rewrite length_le_put. lia. Qed.

Ltac loads := repeat first [rewrite load32_store32 | rewrite load32_store32_ne by lia].
Ltac others := repeat rewrite store32_other by lia.

Lemma start_tag m p : let '(m', q) := setup_start_tag m p in
  tags_at m' p [Core 0 0 0] q /\ q = p + 20 /\ same_except m m' p 20.
Proof.
  unfold setup_start_tag, put_word, put_header, tag_next. change (tag_size 12) with 5.
  set (m' := store32 _ (p + 8 + 4 * 2) 0).
  assert (load32 m' p = 5) as E by (unfold m'; loads; done). rewrite E. split; [|split; [lia|]].
  - cbn [tags_at]. split; [done|]. split; [|cbn; lia]. split; [done|]. unfold m'. split_and!.
    + loads. done.
    + replace (p + 8) with (p + 8 + 4 * 0) at 4 by lia. loads. done.
    + replace (p + 12) with (p + 8 + 4 * 1) by lia. loads. done.
    + replace (p + 16) with (p + 8 + 4 * 2) by lia. loads. done.
  - intros r Hr. unfold m'. others. done.
Qed.

Lemma memory_tags bi_dram : forall m p l q, Forall (fun b => is_u32 b.1 /\ is_u32 b.2) bi_dram -> tags_at m p l q ->
  let '(m', q') := setup_memory_tags m q bi_dram in
  tags_at m' p (l ++ map (fun '(start, size) => Mem size start) bi_dram) q' /\ q' = q + 16 * Z.of_nat (length bi_dram) /\
  same_except m m' q (16 * length bi_dram).
Proof.
  induction bi_dram as [|[start size] bi_dram IH]; intros m p l q Hu H; cbn [setup_memory_tags map length].
  { rewrite app_nil_r. split; [done|]. split; [lia|]. intros r _. done. }
  apply Forall_cons in Hu as [ [U1 U2] Hu]. cbn [fst snd] in U1, U2. set (m' := put_word _ q 0 size).
  destruct (tags_add m m' l (Mem size start) p q I H) as [H' E].
  - intros r Hr. unfold m', put_word, put_header. others. done.
  - unfold m', put_word, put_header. change (tag_size 8) with 4. split; [|split_and!].
    + loads. done.
    + loads. done.
    + replace (q + 8) with (q + 8 + 4 * 0) at 3 by lia. loads. by apply Z.mod_small.
    + replace (q + 12) with (q + 8 + 4 * 1) by lia. loads. by apply Z.mod_small.
  - specialize (IH m' p (l ++ [Mem size start]) (tag_next m' q) Hu H'). destruct (setup_memory_tags m' (tag_next m' q) bi_dram) as [m2 q2].
    destruct IH as (IH1 & IH2 & IH3). rewrite <- app_assoc in IH1. rewrite E in IH2, IH3. cbn [words] in IH2, IH3. split; [exact IH1|]. split; [lia|].
    intros r Hr. rewrite IH3 by lia. unfold m', put_word, put_header. others. done.
Qed.

(** The command line without its leading spaces; none if it is blank. *)
Fixpoint strip (s : list Z) : list Z := match s with c :: s' => if c =? 32 then strip s' else s | [] => [] end.
Definition cmdline_tags (cmd : option (list Z)) : list tag :=
  match cmd with Some s => match strip s with [] => [] | s => [Cmdline s] end | None => [] end.

Lemma skip_spaces_spec m s : forall fuel p, cstr_at m p s -> (length s < fuel)%nat ->
  exists q, skip_spaces fuel m p = Some q /\ cstr_at m q (strip s) /\ q + Z.of_nat (length (strip s)) = p + Z.of_nat (length s).
Proof.
  induction s as [|c s IH]; intros [|fuel] p H Hf; cbn [length] in Hf; try lia; cbn [skip_spaces strip].
  - rewrite (proj1 (cstr_at_nil _ _) H). exists p. done.
  - pose proof (proj1 (cstr_at_cons _ _ _ _) H) as (Hc & _ & H'). rewrite Hc. destruct (c =? 32); [|by exists p].
    destruct (IH fuel (p + 1) H' ltac:(lia)) as (q & E & Hq & El). exists q. split; [done|]. split; [done|]. cbn [length]. lia.
Qed.

Lemma length_strip s : (length (strip s) <= length s)%nat.
Proof. induction s as [|c s IH]; cbn [strip]; [lia|]. destruct (c =? 32); cbn [length]; lia. Qed.

(** Where a command line lies: [commandline] is NULL without one. *)
Definition cmdline_at (m : mem) (commandline : Z) (cmd : option (list Z)) : Prop :=
  match cmd with Some s => commandline <> NULL /\ cstr_at m commandline s | None => commandline = NULL end.
Definition cmdline_length (cmd : option (list Z)) : nat := match cmd with Some s => length s | None => 0 end.

Lemma commandline_tag fuel m p l q commandline cmd : tags_at m p l q -> cmdline_at m commandline cmd ->
  (cmdline_length cmd < fuel)%nat -> Z.of_nat (cmdline_length cmd) < 2 ^ 30 ->
  commandline + Z.of_nat (cmdline_length cmd) < q \/ q + 13 + Z.of_nat (cmdline_length cmd) <= commandline ->
  exists m' q', setup_commandline_tag fuel m q commandline = Some (m', q') /\ tags_at m' p (l ++ cmdline_tags cmd) q' /\
    q <= q' <= q + 13 + Z.of_nat (cmdline_length cmd) /\ same_except m m' q (13 + cmdline_length cmd).
Proof.
  intros H Hc Hf Hl Hd. unfold setup_commandline_tag. destruct cmd as [s|]; cbn [cmdline_at cmdline_length cmdline_tags] in *.
  2:{ subst commandline. change (NULL =? NULL) with true. cbv iota. exists m, q. rewrite app_nil_r. split_and!; [done|done|lia|lia|by intros r _]. }
  destruct Hc as [H0 Hc]. rewrite (proj2 (Z.eqb_neq commandline NULL)) by done.
  destruct (skip_spaces_spec m s fuel commandline Hc Hf) as (a & -> & Ha & El). cbn [mbind option_bind]. pose proof (length_strip s) as Hls.
  destruct (strip s) as [|c s'] eqn:Es.
  { rewrite (proj1 (cstr_at_nil _ _) Ha). exists m, q. rewrite app_nil_r. split_and!; [done|done|lia|lia|by intros r _]. }
  pose proof (proj1 (cstr_at_cons _ _ _ _) Ha) as (Hac & Hnz & _). rewrite Hac, (proj2 (Z.eqb_neq c 0)) by done. set (s1 := c :: s') in *.
  set (m1 := store32 m (q + 4) ATAG_CMDLINE). assert (cstr_at m1 a s1) as Ha1.
  { eapply cstr_at_ext; [|exact Ha]. intros r Hr. unfold m1. others. done. }
  rewrite (strlen_spec fuel m1 a s1 Ha1) by lia. cbn [mbind option_bind]. set (m2 := store32 m1 q _). assert (cstr_at m2 a s1) as Ha2.
  { eapply cstr_at_ext; [|exact Ha1]. intros r Hr. unfold m2. others. done. }
  assert (q + 8 <= a \/ a + Z.of_nat (length s1) < q + 8) as Hq8 by lia.
  destruct (strcpy_spec fuel m2 (q + 8) a s1 Ha2 ltac:(lia) Hq8) as (m3 & -> & Hs3 & Hx3).
  cbn [mbind option_bind]. pose proof (cmdline_words s1 ltac:(lia)) as Hw.
  assert (forall x, x + 4 <= q + 8 -> load32 m3 x = load32 m2 x) as L3 by (intros x Hx; apply load32_same; intros r Hr; apply Hx3; lia).
  destruct (tags_add m m3 l (Cmdline s1) p q) as [H' E]; [cbn [tag_ok]; lia|exact H| | |].
  - intros r Hr. rewrite Hx3 by lia. unfold m2, m1. others. done.
  - split; [|split].
    + rewrite L3 by lia. unfold m2. rewrite load32_store32. apply Z.mod_small. cbn [words] in Hw |- *. lia.
    + rewrite L3 by lia. unfold m2, m1. loads. done.
    + exact Hs3.
  - eexists _, _. split; [reflexivity|]. split; [exact H'|]. rewrite E. split; [lia|].
    intros r Hr. rewrite Hx3 by lia. unfold m2, m1. others. done.
Qed.

Lemma initrd_tag m p l q rd_start rd_end : tags_at m p l q -> is_u32 rd_start ->
  let '(m', q') := setup_initrd_tag m q rd_start rd_end in
  tags_at m' p (l ++ [Initrd rd_start (u32 (rd_end - rd_start))]) q' /\ q' = q + 16 /\ same_except m m' q 16.
Proof.
  intros H U. unfold setup_initrd_tag. set (m' := put_word _ q 1 _).
  destruct (tags_add m m' l (Initrd rd_start (u32 (rd_end - rd_start))) p q I H) as [H' E].
  - intros r Hr. unfold m', put_word, put_header. others. done.
  - unfold m', put_word, put_header. change (tag_size 8) with 4. split; [|split_and!].
    + loads. done.
    + loads. done.
    + replace (q + 8) with (q + 8 + 4 * 0) at 3 by lia. loads. by apply Z.mod_small.
    + replace (q + 12) with (q + 8 + 4 * 1) by lia. loads. apply Z.mod_mod. lia.
  - split; [exact H'|]. split; [exact E|]. intros r Hr. unfold m', put_word, put_header. others. done.
Qed.

Lemma read_tag_spec fuel m p t : tag_at m p t -> (match t with Cmdline s => (length s < fuel)%nat | _ => True end) ->
  read_tag fuel m p = Some t /\ load32 m p = words t.
Proof.
  intros [Hw Ht] Hf. split; [|exact Hw]. unfold read_tag. replace (p + 8 + 4 * 0) with (p + 8) by lia. replace (p + 8 + 4 * 1) with (p + 12) by lia.
  replace (p + 8 + 4 * 2) with (p + 16) by lia.
  destruct t as [a b c|a b|a b|s].
  - destruct Ht as (-> & -> & -> & ->). done.
  - destruct Ht as (-> & -> & ->). done.
  - destruct Ht as (-> & -> & ->). done.
  - destruct Ht as (-> & Hc). change (ATAG_CMDLINE =? ATAG_CORE) with false. change (ATAG_CMDLINE =? ATAG_MEM) with false.
    change (ATAG_CMDLINE =? ATAG_INITRD2) with false. change (ATAG_CMDLINE =? ATAG_CMDLINE) with true. cbv iota.
    rewrite (strlen_spec fuel m (p + 8) s Hc Hf). cbn [mbind option_bind]. by rewrite Nat2Z.id, (cstr_bytes _ _ _ Hc).
Qed.

Lemma read_tags_spec fuel m q l : forall n p, tags_at m p l q -> load32 m q = 0 ->
  Forall (fun t => match t with Cmdline s => (length s < fuel)%nat | _ => True end) l -> (length l < n)%nat -> read_tags n fuel m p = Some l.
Proof.
  induction l as [|t l IH]; intros [|n] p H Hq Hf Hn; cbn [length] in Hn; try lia; cbn [read_tags tags_at] in *.
  - subst p. by rewrite Hq.
  - destruct H as (Ho & Ht & H). apply Forall_cons in Hf as [Hft Hf]. destruct (read_tag_spec fuel m p t Ht Hft) as [Er Ew].
    pose proof (words_pos t Ho). rewrite Ew, (proj2 (Z.eqb_neq (words t) 0)) by lia. rewrite Er. cbn [mbind option_bind].
    unfold tag_next. rewrite Ew, (IH n) by (done || lia). done.
Qed.

(** The tags the kernel is meant to find. *)
Definition boot_tags (bi_dram : list (Z * Z)) (cmd : option (list Z)) (rd_start rd_end : Z) : list tag :=
  Core 0 0 0 :: map (fun '(start, size) => Mem size start) bi_dram ++ cmdline_tags cmd ++
  (if negb (rd_start =? 0) && negb (rd_end =? 0) then [Initrd rd_start (u32 (rd_end - rd_start))] else []).

(** The memory the tags take, at most. *)
Definition tags_room (bi_dram : list (Z * Z)) (cmd : option (list Z)) : nat := 57 + 16 * length bi_dram + cmdline_length cmd.

(** What a kernel walking the list with [for_each_tag] from [bi_boot_params]
    reads, with the command line anywhere off the room of the list; nothing
    outside that room is written. *)
Lemma setup_tags_spec fuel m p bi_dram commandline cmd rd_start rd_end :
  Forall (fun b => is_u32 b.1 /\ is_u32 b.2) bi_dram -> is_u32 rd_start -> cmdline_at m commandline cmd ->
  (cmdline_length cmd < fuel)%nat -> Z.of_nat (cmdline_length cmd) < 2 ^ 30 ->
  commandline + Z.of_nat (cmdline_length cmd) < p \/ p + Z.of_nat (tags_room bi_dram cmd) <= commandline ->
  exists m', setup_tags fuel m p bi_dram commandline rd_start rd_end = Some m' /\
    read_tags (5 + length bi_dram) fuel m' p = Some (boot_tags bi_dram cmd rd_start rd_end) /\
    same_except m m' p (tags_room bi_dram cmd).
Proof.
  intros Hu U Hc Hf Hl Hd. unfold setup_tags, tags_room in *. pose proof (start_tag m p) as S1. destruct (setup_start_tag m p) as [m1 q1].
  destruct S1 as (T1 & E1 & X1). pose proof (memory_tags bi_dram m1 p _ q1 Hu T1) as S2. destruct (setup_memory_tags m1 q1 bi_dram) as [m2 q2].
  destruct S2 as (T2 & E2 & X2). assert (cmdline_at m2 commandline cmd) as Hc2.
  { destruct cmd as [s|]; [|exact Hc]. cbn [cmdline_at cmdline_length] in *. destruct Hc as [H0 Hc]. split; [exact H0|].
    eapply cstr_at_ext; [|exact Hc]. intros r Hr. rewrite X2, X1; [done|lia|lia]. }
  destruct (commandline_tag fuel m2 p _ q2 commandline cmd T2 Hc2 Hf Hl ltac:(lia)) as (m3 & q3 & -> & T3 & E3 & X3).
  cbn [mbind option_bind]. set (rd := negb (rd_start =? 0) && negb (rd_end =? 0)). unfold boot_tags. fold rd.
  assert (exists m4 q4, (if rd then setup_initrd_tag m3 q3 rd_start rd_end else (m3, q3)) = (m4, q4) /\
    tags_at m4 p (boot_tags bi_dram cmd rd_start rd_end) q4 /\ q3 <= q4 <= q3 + 16 /\ same_except m3 m4 q3 16) as (m4 & q4 & -> & T4 & E4 & X4).
  { unfold boot_tags. fold rd. rewrite !app_assoc, app_comm_cons. rewrite <- (app_assoc [Core 0 0 0]) in T3. cbn [app] in T3.
    destruct rd.
    - pose proof (initrd_tag m3 p _ q3 rd_start rd_end T3 U) as S4. destruct (setup_initrd_tag m3 q3 rd_start rd_end) as [m4 q4].
      destruct S4 as (T4 & E4 & X4). exists m4, q4. split; [done|]. split; [exact T4|]. split; [lia|exact X4].
    - exists m3, q3. rewrite app_nil_r. split; [done|]. split; [exact T3|]. split; [lia|by intros r _]. }
  eexists. split; [reflexivity|]. split.
  - apply (read_tags_spec fuel _ q4).
    + eapply tags_at_same; [|exact T4]. intros r Hr. unfold setup_end_tag, put_header. others. done.
    + unfold setup_end_tag, put_header. loads. done.
    + unfold boot_tags. constructor; [done|]. repeat apply Forall_app_2.
      * apply Forall_forall. intros t Ht. apply list_elem_of_fmap in Ht as ([a b] & -> & _). done.
      * destruct cmd as [s|]; cbn [cmdline_tags cmdline_length] in *; [|done]. pose proof (length_strip s).
        destruct (strip s) as [|c s'] eqn:Es; [done|]. repeat constructor. lia.
      * fold rd. destruct rd; repeat constructor.
    + unfold boot_tags. cbn [length]. rewrite !length_app, length_map.
      assert (length (cmdline_tags cmd) <= 1)%nat by (destruct cmd as [s|]; cbn; [destruct (strip s)|]; cbn; lia). fold rd. destruct rd; cbn [length]; lia.
  - intros r Hr. unfold setup_end_tag, put_header. others. rewrite X4, X3, X2, X1 by lia. done.
Qed.
