(* ===== verification/Gunzip.v ===== *)
(** * Gunzip: lib_generic/gunzip.c, the packed kernels

    [gunzip] skips the header of a gzip member (RFC 1952) and leaves the rest
    to zlib, which is third-party code and a parameter here: [inflateInit2],
    [inflate], [inflateEnd], with the contract [Inflater] that zlib.h
    documents.  [gzalloc] and [gzfree] are called by zlib only. *)

From S2P Require Import Prelude Mem.
Local Open Scope Z_scope.

Definition HEAD_CRC := 2.
Definition EXTRA_FIELD := 4.
Definition ORIG_NAME := 8.
Definition COMMENT := 0x10.
Definition RESERVED := 0xe0.
Definition DEFLATED := 8.

Definition MAX_WBITS := 15.
Definition Z_OK := 0.
Definition Z_STREAM_END := 1.
Definition Z_BUF_ERROR := -5.
Definition Z_FINISH := 4.

(** The fields of a [z_stream] that [zunzip] uses, and zlib's own state. *)
Record z_stream (S : Type) := Stream {
  next_in : Z; avail_in : Z; next_out : Z; avail_out : Z; zstate : S
}.
Arguments Stream {S}. Arguments next_in {S}. Arguments avail_in {S}.
Arguments next_out {S}. Arguments avail_out {S}. Arguments zstate {S}.

Section Gunzip.
Context {S : Type}.
(** Memory, as zlib allocates its state there; the result. *)
Context (inflateInit2 : mem -> Z -> mem * S * Z).
Context (inflate : mem -> z_stream S -> Z -> mem * z_stream S * Z).
Context (inflateEnd : mem -> z_stream S -> mem).

(** The memory, [*lenp] and the result. *)
Fixpoint zunzip_loop (fuel : nat) (m : mem) (s : z_stream S) (dst dstlen len stoponerr offset : Z) : option (mem * Z * Z) :=
  match fuel with
  | O => None
  | Datatypes.S fuel =>
      let '(m, s, r) := inflate m s Z_FINISH in
      if negb (r =? Z_STREAM_END) && negb (r =? Z_BUF_ERROR) && (stoponerr =? 1) then Some (inflateEnd m s, len, -1) else
      let s := Stream (next_in s) (u32 (len - offset - s32 (next_out s - dst))) (next_out s) (u32 dstlen) (zstate s) in
      if r =? Z_BUF_ERROR then zunzip_loop fuel m s dst dstlen len stoponerr offset
      else Some (inflateEnd m s, u32 (next_out s - dst), 0)
  end.

Definition zunzip (fuel : nat) (m : mem) (dst dstlen src len stoponerr offset : Z) : option (mem * Z * Z) :=
  let '(m, z, r) := inflateInit2 m (- MAX_WBITS) in
  if negb (r =? Z_OK) then Some (m, len, -1) else
  zunzip_loop fuel m (Stream (u32 (src + offset)) (u32 (len - offset)) dst (u32 dstlen) z) dst dstlen len stoponerr offset.

(** [while (src[i++] != 0);] *)
Fixpoint skip_string (fuel : nat) (m : mem) (src i : Z) : option Z :=
  match fuel with
  | O => None
  | Datatypes.S fuel => if m (src + i) =? 0 then Some (i + 1) else skip_string fuel m src (i + 1)
  end.

Definition gunzip (fuel : nat) (m : mem) (dst dstlen src len : Z) : option (mem * Z * Z) :=
  let flags := m (src + 3) in
  if negb (m (src + 2) =? DEFLATED) || negb (Z.land flags RESERVED =? 0) then Some (m, len, -1) else
  let i := if negb (Z.land flags EXTRA_FIELD =? 0) then 12 + m (src + 10) + Z.shiftl (m (src + 11)) 8 else 10 in
  i ← (if negb (Z.land flags ORIG_NAME =? 0) then skip_string fuel m src i else Some i);
  i ← (if negb (Z.land flags COMMENT =? 0) then skip_string fuel m src i else Some i);
  let i := if negb (Z.land flags HEAD_CRC =? 0) then i + 2 else i in
  if len <=? i then Some (m, len, -1) else zunzip fuel m dst dstlen src len 1 i.

(** ** The header *)

(** A string that is there, with its NUL. *)
Definition field (s : option (list Z)) : list Z := match s with Some s => s ++ [0] | None => [] end.
Definition flag (b : bool) (v : Z) : Z := if b then v else 0.

(** The header of a member, as RFC 1952 lays it out: the optional parts are
    an extra field, a name, a comment and a checksum of the header; [text]
    marks a text file. *)
Definition gz_flags (text : bool) (extra name comment crc : option (list Z)) : Z :=
  flag text 1 + flag (bool_decide (is_Some crc)) HEAD_CRC + flag (bool_decide (is_Some extra)) EXTRA_FIELD +
  flag (bool_decide (is_Some name)) ORIG_NAME + flag (bool_decide (is_Some comment)) COMMENT.

Definition gz_extra (extra : option (list Z)) : list Z :=
  match extra with Some e => le_put 2 (Z.of_nat (length e)) ++ e | None => [] end.

Definition gz_header (text : bool) (mtime xfl os : Z) (extra name comment crc : option (list Z)) : list Z :=
  [31; 139; DEFLATED; gz_flags text extra name comment crc] ++ le_put 4 mtime ++ [xfl; os] ++
  gz_extra extra ++ field name ++ field comment ++ default [] crc.

Definition is_text (s : option (list Z)) : Prop := match s with Some s => Forall (fun c => c <> 0) s | None => True end.

Lemma skip_string_spec m src s : forall fuel i, text_at m (src + i) (s ++ [0]) -> Forall (fun c => c <> 0) s -> (length s < fuel)%nat ->
  skip_string fuel m src i = Some (i + Z.of_nat (length s) + 1).
Proof.
  induction s as [|c s IH]; intros [|fuel] i H Hs Hf; cbn [length] in Hf; try lia; cbn [app] in H;
    apply text_at_cons in H as [Hc H]; cbn [skip_string]; rewrite Hc.
  - f_equal. cbn [length]. lia.
  - apply Forall_cons in Hs as [Hz Hs]. rewrite (proj2 (Z.eqb_neq c 0)) by done.
    rewrite (IH fuel (i + 1)); [f_equal; cbn [length]; lia|by rewrite Z.add_assoc|done|lia].
Qed.

Lemma skip_field m src s fuel i : text_at m (src + i) (field s) -> is_text s ->
  (match s with Some s => length s | None => 0 end < fuel)%nat ->
  (if bool_decide (is_Some s) then skip_string fuel m src i else Some i) = Some (i + Z.of_nat (length (field s))).
Proof.
  intros H Hs Hf. destruct s as [s|]; cbn [field] in *.
  - rewrite bool_decide_true by done. rewrite (skip_string_spec m src s) by done. rewrite length_app. f_equal. cbn [length]. lia.
  - rewrite bool_decide_false by (intros [? ?]; done). f_equal. cbn [length]. lia.
Qed.

Lemma gz_flags_bits text extra name comment crc : let f := gz_flags text extra name comment crc in
  Z.land f RESERVED = 0 /\
  negb (Z.land f EXTRA_FIELD =? 0) = bool_decide (is_Some extra) /\ negb (Z.land f ORIG_NAME =? 0) = bool_decide (is_Some name) /\
  negb (Z.land f COMMENT =? 0) = bool_decide (is_Some comment) /\ negb (Z.land f HEAD_CRC =? 0) = bool_decide (is_Some crc).
Proof.
  unfold gz_flags. destruct text; repeat case_bool_decide; by vm_compute.
Qed.

Lemma extra_length m src e : text_at m (src + 10) (gz_extra (Some e)) -> Z.of_nat (length e) < 2 ^ 16 ->
  12 + m (src + 10) + Z.shiftl (m (src + 11)) 8 = 10 + Z.of_nat (length (gz_extra (Some e))).
Proof.
  intros H Hl. unfold gz_extra in *. apply text_at_app in H as [H _]. cbn [le_put] in H.
  apply text_at_cons in H as [H1 [H2 _]%text_at_cons]. rewrite H1. replace (src + 11) with (src + 10 + 1) by lia. rewrite H2.
  rewrite Z.shiftl_mul_pow2, length_app, length_le_put by lia. change (2 ^ 8) with 256.
  rewrite (Z.mod_small (_ / 256)) by (split; [apply Z.div_pos; lia|apply Z.div_lt_upper_bound; lia]).
  Z.div_mod_to_equations. lia.
Qed.

(** C26: [gunzip] skips exactly the header of a member, whichever of its
    optional parts are there, and leaves the rest to [zunzip]; a member that
    ends with its header is refused. *)
Theorem gunzip_skips_header fuel m dst dstlen src len text mtime xfl os extra name comment crc :
  let h := gz_header text mtime xfl os extra name comment crc in
  text_at m src h -> is_text name -> is_text comment ->
  Z.of_nat (length (default [] extra)) < 2 ^ 16 -> match crc with Some c => length c = 2%nat | None => True end ->
  (length h < fuel)%nat ->
  gunzip fuel m dst dstlen src len =
    if len <=? Z.of_nat (length h) then Some (m, len, -1) else zunzip fuel m dst dstlen src len 1 (Z.of_nat (length h)).
Proof.
  intros h Hm Hn Hc He Hr Hf. unfold h, gz_header in Hm, Hf |- *.
  apply text_at_app in Hm as [Hm H]. do 2 apply text_at_cons in Hm as [_ Hm]. apply text_at_cons in Hm as [E2 [E3 _]%text_at_cons].
  rewrite (app_assoc (le_put 4 mtime)) in H. apply text_at_app in H as [_ H]. rewrite length_app, length_le_put in H. cbn [length Nat.add] in H.
  apply text_at_app in H as [He' [Hn' [Hc' _]%text_at_app]%text_at_app].
  unfold gunzip. replace (src + 2) with (src + 1 + 1) by lia. replace (src + 3) with (src + 1 + 1 + 1) by lia. rewrite E2, E3, Z.eqb_refl.
  destruct (gz_flags_bits text extra name comment crc) as (-> & -> & -> & -> & ->). cbn [Z.eqb negb orb].
  assert ((if bool_decide (is_Some extra) then 12 + m (src + 10) + Z.shiftl (m (src + 11)) 8 else 10) = 10 + Z.of_nat (length (gz_extra extra))) as ->.
  { destruct extra as [e|]; [|by rewrite bool_decide_false by (intros [? ?]; done)]. rewrite bool_decide_true by done.
    apply extra_length; [|done]. eapply (eq_ind _ (fun a => text_at m a _) He'). lia. }
  set (n := Z.of_nat (length (gz_extra extra))) in *.
  rewrite (skip_field m src name); [|eapply (eq_ind _ (fun a => text_at m a _) Hn'); unfold n; lia|done|].
  2:{ destruct name; [|lia]. cbn [field] in Hf. rewrite !length_app in Hf. lia. }
  cbn [mbind option_bind]. rewrite (skip_field m src comment); [|eapply (eq_ind _ (fun a => text_at m a _) Hc'); unfold n; lia|done|].
  2:{ destruct comment; [|lia]. cbn [field] in Hf. rewrite !length_app in Hf. lia. }
  cbn [mbind option_bind].
  replace (if bool_decide (is_Some crc) then _ else _) with
    (Z.of_nat (length ([31; 139; DEFLATED; gz_flags text extra name comment crc] ++ le_put 4 mtime ++ [xfl; os] ++
       gz_extra extra ++ field name ++ field comment ++ default [] crc))); [done|].
  rewrite !length_app, length_le_put. destruct crc as [c|].
  - rewrite bool_decide_true by done. change (default [] (Some c)) with c. rewrite Hr. cbn [length]. lia.
  - rewrite bool_decide_false by (intros [? ?]; done). change (default (@nil Z) None) with (@nil Z). cbn [length]. lia.
Qed.

(** ** Unpacking *)

(** What zlib.h promises.  [packed m s out need]: the stream [s] has the bytes
    [out] still to come and needs [need] more bytes of input for them; [used]
    are the addresses it reads and those of its own state. *)
Class Inflater (used : Z -> Prop) (packed : mem -> z_stream S -> list Z -> Z -> Prop) := {
  packed_counts m s out need a b :
    packed m s out need -> packed m (Stream (next_in s) a (next_out s) b (zstate s)) out need;
  inflate_step m s out need :
    packed m s out need -> need <= avail_in s -> 0 < avail_out s ->
    (forall q, next_out s <= q < next_out s + avail_out s -> q < next_out s + Z.of_nat (length out) -> ~ used q) ->
    let n := Z.to_nat (avail_out s) in
    exists m' s', inflate m s Z_FINISH = (m', s', if (length out <=? n)%nat then Z_STREAM_END else Z_BUF_ERROR) /\
      next_out s' = next_out s + Z.of_nat (length (take n out)) /\
      (forall q, ~ used q -> m' q = store m (next_out s) (take n out) q) /\
      ((n < length out)%nat -> exists need', need' <= need /\ packed m' s' (drop n out) need');
  inflateEnd_frame m s q : ~ used q -> inflateEnd m s q = m q
}.
Arguments packed_counts {used packed _}. Arguments inflate_step {used packed _}. Arguments inflateEnd_frame {used packed _}.

Section Unpack.
Context (used : Z -> Prop) (packed : mem -> z_stream S -> list Z -> Z -> Prop) {HI : Inflater used packed}.
Context (dst dstlen len offset : Z).
Hypothesis Hlen : 0 <= len - offset < dstlen.
Hypothesis Hdst : 0 <= dst /\ dstlen < 2 ^ 31.

Lemma zunzip_loop_spec fuel : forall m s out need j,
  packed m s out need -> need <= len - offset ->
  next_out s = dst + j -> 0 <= j -> (j = 0 /\ avail_in s = len - offset) \/ (dstlen <= j /\ avail_in s = u32 (len - offset - j)) ->
  avail_out s = dstlen -> j + Z.of_nat (length out) < 2 ^ 31 ->
  (forall q, next_out s <= q < next_out s + Z.of_nat (length out) -> ~ used q) -> (length out < fuel)%nat ->
  exists m', zunzip_loop fuel m s dst dstlen len 1 offset = Some (m', j + Z.of_nat (length out), 0) /\
    forall q, ~ used q -> m' q = store m (next_out s) out q.
Proof.
  induction fuel as [|fuel IH]; intros m s out need j Hp Hn Hj Hj0 Hi Ho Hl Hu Hf; [lia|]. cbn [zunzip_loop].
  assert (need <= avail_in s) as Hin.
  { destruct Hi as [ [_ ->]|[Hj1 ->] ]; [done|]. replace (u32 (len - offset - j)) with (len - offset - j + 2 ^ 32); [lia|].
    unfold u32. rewrite <- (Z.mod_small (len - offset - j + 2 ^ 32) (2 ^ 32)) by lia. rewrite <- (Z_mod_plus_full (len - offset - j) 1 (2 ^ 32)).
    f_equal. }
  destruct (inflate_step (used := used) (packed := packed) m s out need Hp Hin ltac:(lia) ltac:(intros q H1 H2; apply Hu; lia)) as (m' & s' & -> & En & Em & Hmore).
  rewrite Ho in *. rewrite length_take in En. destruct (Nat.leb_spec (length out) (Z.to_nat dstlen)) as [Hle|Hgt].
  - change (negb (Z_STREAM_END =? Z_STREAM_END)) with false. cbn [andb]. change (Z_STREAM_END =? Z_BUF_ERROR) with false. cbv iota.
    cbn [next_out]. eexists. split.
    + rewrite En, Nat.min_r by lia. do 3 f_equal. rewrite u32_small by lia. lia.
    + intros q Hq. rewrite inflateEnd_frame, Em, take_ge by done. done.
  - change (negb (Z_BUF_ERROR =? Z_STREAM_END)) with true. change (negb (Z_BUF_ERROR =? Z_BUF_ERROR)) with false. cbn [andb].
    change (Z_BUF_ERROR =? Z_BUF_ERROR) with true. cbv iota.
    rewrite Nat.min_l in En by lia. rewrite (u32_small dstlen), (s32_small (next_out s' - dst)) by lia.
    replace (next_out s' - dst) with (j + dstlen) by lia. destruct (Hmore Hgt) as (need' & Hn' & Hp').
    destruct (IH m' (Stream (next_in s') (u32 (len - offset - (j + dstlen))) (next_out s') dstlen (zstate s')) (drop (Z.to_nat dstlen) out) need' (j + dstlen))
      as (m2 & -> & E2).
    + by apply packed_counts.
    + lia.
    + cbn. lia.
    + lia.
    + right. cbn. split; [lia|done].
    + done.
    + rewrite length_drop. lia.
    + cbn [next_out]. rewrite length_drop. intros q Hq. apply Hu. lia.
    + rewrite length_drop. lia.
    + exists m2. rewrite length_drop. split; [do 3 f_equal; lia|]. intros q Hq. rewrite E2 by done. cbn [next_out].
      rewrite <- (take_drop (Z.to_nat dstlen) out) at 2. rewrite store_app, length_take, Nat.min_l, En, Z2Nat.id by lia.
      destruct (decide (next_out s + dstlen <= q < next_out s + dstlen + Z.of_nat (length (drop (Z.to_nat dstlen) out)))) as [Hin'|Hout].
      * rewrite !(store_inside _ _ _ _ 0) by done. done.
      * rewrite !store_outside by done. by apply Em.
Qed.
End Unpack.

(** C34: [zunzip] unpacks all there is, however long: [dstlen] bounds one call
    of [inflate] but not the loop, which goes on with a new count when the
    buffer is full, so that a member longer than [dstlen] is written past the
    end of the buffer, with success.  It is enough that the packed data is
    shorter than [dstlen], that what is written, and all that zlib uses, lie
    apart, and that 2 GB are not reached. *)
Theorem zunzip_ignores_dstlen used packed {HI : Inflater used packed} fuel m dst dstlen src len offset m0 z out need :
  inflateInit2 m (- MAX_WBITS) = (m0, z, Z_OK) -> (forall q, ~ used q -> m0 q = m q) ->
  packed m0 (Stream (u32 (src + offset)) (len - offset) dst dstlen z) out need -> need <= len - offset ->
  0 <= len - offset < dstlen -> dstlen < 2 ^ 31 -> 0 <= dst -> Z.of_nat (length out) < 2 ^ 31 ->
  (forall q, dst <= q < dst + Z.of_nat (length out) -> ~ used q) -> (length out < fuel)%nat ->
  exists m', zunzip fuel m dst dstlen src len 1 offset = Some (m', Z.of_nat (length out), 0) /\
    bytes_at m' dst (length out) = out /\ (forall q, ~ used q -> ~ dst <= q < dst + Z.of_nat (length out) -> m' q = m q).
Proof.
  intros Ei E0 Hp Hn Hl Hd Hs Ho Hu Hf. unfold zunzip. rewrite Ei. change (negb (Z_OK =? Z_OK)) with false. cbv iota.
  rewrite (u32_small (len - offset)), (u32_small dstlen) by (unfold is_u32; lia).
  destruct (zunzip_loop_spec used packed dst dstlen len offset Hl (conj Hs Hd) fuel m0 _ out need 0 Hp Hn) as (m' & -> & Em);
    try (done || (cbn; lia)).
  exists m'. split; [done|]. cbn [next_out] in Em. split.
  - rewrite <- (bytes_at_store m0 dst out) at 2. apply bytes_at_ext. intros q Hq. by apply Em, Hu.
  - intros q Hq Hqo. rewrite Em, store_outside by done. by apply E0.
Qed.
End Gunzip.

(** ** A sample *)

(** A run-length coder in the place of zlib: the input is a count and a byte,
    the state what is still to come of the run. *)
Section Runs.
Definition run_init (m : mem) (_ : Z) : mem * option (Z * Z) * Z := (m, None, Z_OK).
Definition run_inflate (m : mem) (s : z_stream (option (Z * Z))) (_ : Z) : mem * z_stream (option (Z * Z)) * Z :=
  let '(n, b, i) := match zstate s with Some (n, b) => (n, b, 0) | None => (load32 m (next_in s), m (next_in s + 4), 5) end in
  let k := Z.min n (avail_out s) in
  (store m (next_out s) (replicate (Z.to_nat k) b),
   Stream (next_in s + i) (avail_in s - i) (next_out s + k) (avail_out s - k) (Some (n - k, b)),
   if n <=? avail_out s then Z_STREAM_END else Z_BUF_ERROR).
Definition run_end (m : mem) (_ : z_stream (option (Z * Z))) : mem := m.

Definition run_packed (m : mem) (s : z_stream (option (Z * Z))) (out : list Z) (need : Z) : Prop :=
  match zstate s with
  | None => load32 m (next_in s) = Z.of_nat (length out) /\ out = replicate (length out) (m (next_in s + 4)) /\ need = 5
  | Some (n, b) => n = Z.of_nat (length out) /\ out = replicate (length out) b /\ need = 0
  end.

#[export] Instance runs used : Inflater run_inflate run_end used run_packed.
Proof.
  split; [|intros m s out need Hp Hi Ho Hu|done].
  { intros m s out need a b. unfold run_packed. by destruct (zstate s). }
  assert (exists b i, run_inflate m s Z_FINISH =
    (store m (next_out s) (replicate (Z.to_nat (Z.min (Z.of_nat (length out)) (avail_out s))) b),
     Stream (next_in s + i) (avail_in s - i) (next_out s + Z.min (Z.of_nat (length out)) (avail_out s))
       (avail_out s - Z.min (Z.of_nat (length out)) (avail_out s)) (Some (Z.of_nat (length out) - Z.min (Z.of_nat (length out)) (avail_out s), b)),
     if Z.of_nat (length out) <=? avail_out s then Z_STREAM_END else Z_BUF_ERROR) /\ out = replicate (length out) b /\ 0 <= need)
    as (b & i & -> & Eo & Hn).
  { unfold run_packed in Hp. unfold run_inflate. destruct (zstate s) as [ [n b]|].
    - destruct Hp as (-> & Eo & ->). by exists b, 0.
    - destruct Hp as (-> & Eo & ->). by exists (m (next_in s + 4)), 5. }
  set (k := Z.to_nat (avail_out s)). eexists _, _. split_and!.
  - f_equal. destruct (Nat.leb_spec (length out) k), (Z.leb_spec (Z.of_nat (length out)) (avail_out s)); unfold k in *; try done; lia.
  - cbn [next_out]. rewrite length_take. unfold k. lia.
  - intros q Hq. rewrite Eo at 2. rewrite take_replicate. do 2 f_equal. unfold k. lia.
  - intros Hk. exists 0. split; [done|]. unfold run_packed. cbn [zstate]. rewrite length_drop. split; [unfold k in *; lia|].
    split; [|done]. rewrite Eo at 1. rewrite drop_replicate. done.
Qed.
End Runs.

(** "AAAA..." at 0x1000, in a member with a name and a header checksum; the
    buffer has 16 bytes. *)
Definition sample_gz : mem :=
  mem_of 0x1000 ([31; 139; 8; 10] ++ le_put 4 77 ++ [0; 3] ++ [107; 0] ++ [1; 2] ++ le_put 4 40 ++ [65]).

Lemma gunzip_skips_header_witness :
  gunzip run_init run_inflate run_end 50 sample_gz 0x2000 16 0x1000 19 =
  zunzip run_init run_inflate run_end 50 sample_gz 0x2000 16 0x1000 19 1 14.
Proof.
  apply (gunzip_skips_header run_init run_inflate run_end 50 sample_gz 0x2000 16 0x1000 19 false 77 0 3 None (Some [107]) None (Some [1; 2])).
  - vm_compute. reflexivity.
  - repeat constructor. discriminate.
  - exact I.
  - reflexivity.
  - reflexivity.
  - cbn. lia.
Defined.

Lemma zunzip_ignores_dstlen_witness :
  exists m', zunzip run_init run_inflate run_end 50 sample_gz 0x2000 16 0x1000 19 1 14 = Some (m', 40, 0) /\
    bytes_at m' 0x2000 40 = replicate 40 65 /\ (forall q, ~ False -> ~ 0x2000 <= q < 0x2000 + 40 -> m' q = sample_gz q).
Proof.
  apply (zunzip_ignores_dstlen run_init run_inflate run_end (fun _ => False) run_packed 50 sample_gz 0x2000 16 0x1000 19 14 sample_gz None
    (replicate 40 65) 5).
  - reflexivity.
  - done.
  - split; [by vm_compute|]. split; [by vm_compute|reflexivity].
  - lia.
  - lia.
  - lia.
  - lia.
  - cbn. lia.
  - intros q _ [].
  - cbn. lia.
Defined.
