(* ===== verification/Bootm.v ===== *)
(** * Bootm: common/cmd_bootm.c, starting an image

    [do_bootm] checks an image in memory, unpacks or moves it to its load
    address and gives control to it; with the name of a stage as its first
    argument it does one stage only ([do_bootm_subcommand]).  The state is
    that of the environment (memory, [load_addr]) and the static [images].
    The operating systems of the configuration are Linux (lib_arm/bootm.c),
    NetBSD and RTEMS; there are no FIT images, no device trees, no other
    packers than gzip, no watchdog and no interrupts.

    A boot ends with an [outcome]: the command returns, or control is given
    away.  What a standalone program does is its own: if it returns, so does
    the command, with 0. *)

From stdpp Require Import sorting.
From S2P Require Import Prelude Mem CString Crc Vsprintf Lmb Env Cli Uimage Atag Gunzip.
Local Open Scope Z_scope.

Definition CONFIG_SYS_SDRAM_BASE := 0x80000000.
Definition CONFIG_SYS_BOOTM_LEN := 0xA00000.

Definition BOOTM_STATE_START := 0x01.
Definition BOOTM_STATE_LOADOS := 0x02.
Definition BOOTM_STATE_OS_CMDLINE := 0x10.
Definition BOOTM_STATE_OS_BD_T := 0x20.
Definition BOOTM_STATE_OS_PREP := 0x40.
Definition BOOTM_STATE_OS_GO := 0x80.

Definition BOOTM_ERR_RESET := -1.
Definition BOOTM_ERR_OVERLAP := -2.
Definition BOOTM_ERR_UNIMPLEMENTED := -3.

(** The names of variables and stages, "no", "-" and "%lX". *)
Definition n_verify := [118; 101; 114; 105; 102; 121].
Definition n_bootm_low := [98; 111; 111; 116; 109; 95; 108; 111; 119].
Definition n_bootm_size := [98; 111; 111; 116; 109; 95; 115; 105; 122; 101].
Definition n_bootargs := [98; 111; 111; 116; 97; 114; 103; 115].
Definition n_machid := [109; 97; 99; 104; 105; 100].
Definition n_autostart := [97; 117; 116; 111; 115; 116; 97; 114; 116].
Definition n_filesize := [102; 105; 108; 101; 115; 105; 122; 101].
Definition s_no := [110; 111].
Definition s_dash := [45].
Definition s_lX := [37; 108; 88].
Definition s_start := [115; 116; 97; 114; 116].
Definition s_loados := [108; 111; 97; 100; 111; 115].
Definition s_bdt := [98; 100; 116].
Definition s_cmdline := [99; 109; 100; 108; 105; 110; 101].
Definition s_prep := [112; 114; 101; 112].
Definition s_go := [103; 111].

Record image_info := Info {
  start : Z; end_ : Z; image_start : Z; image_len : Z; load : Z; comp : Z; type : Z; os : Z
}.

(** The fields of [struct bootm_headers] of this configuration that are used. *)
Record bootm_headers := Images {
  legacy_hdr_os : Z;
  legacy_hdr_os_copy : list Z;
  legacy_hdr_valid : bool;
  os_info : image_info;
  ep : Z;
  rd_start : Z; rd_end : Z;
  verify : bool;
  state : Z;
  images_lmb : Lmb.lmb
}.

(** [memset (&images, 0, sizeof (images))] *)
Definition no_region : Lmb.lmb_region := Lmb.Region 0 0 (replicate 9 (Lmb.Prop_ 0 0)).
Definition no_images : bootm_headers :=
  Images 0 (replicate 64 0) false (Info 0 0 0 0 0 0 0 0) 0 0 0 false 0 (Lmb.Lmb no_region no_region).

Definition set_verify (i : bootm_headers) (v : bool) (l : Lmb.lmb) : bootm_headers :=
  Images (legacy_hdr_os i) (legacy_hdr_os_copy i) (legacy_hdr_valid i) (os_info i) (ep i) (rd_start i) (rd_end i) v (state i) l.
Definition set_legacy (i : bootm_headers) (hdr : Z) (copy : list Z) : bootm_headers :=
  Images hdr copy true (os_info i) (ep i) (rd_start i) (rd_end i) (verify i) (state i) (images_lmb i).
Definition set_os (i : bootm_headers) (o : image_info) : bootm_headers :=
  Images (legacy_hdr_os i) (legacy_hdr_os_copy i) (legacy_hdr_valid i) o (ep i) (rd_start i) (rd_end i) (verify i) (state i) (images_lmb i).
Definition set_ep (i : bootm_headers) (e : Z) : bootm_headers :=
  Images (legacy_hdr_os i) (legacy_hdr_os_copy i) (legacy_hdr_valid i) (os_info i) e (rd_start i) (rd_end i) (verify i) (state i) (images_lmb i).
Definition set_rd (i : bootm_headers) (a b : Z) : bootm_headers :=
  Images (legacy_hdr_os i) (legacy_hdr_os_copy i) (legacy_hdr_valid i) (os_info i) (ep i) a b (verify i) (state i) (images_lmb i).
Definition set_state (i : bootm_headers) (s : Z) : bootm_headers :=
  Images (legacy_hdr_os i) (legacy_hdr_os_copy i) (legacy_hdr_valid i) (os_info i) (ep i) (rd_start i) (rd_end i) (verify i) s (images_lmb i).
Definition set_lmb (i : bootm_headers) (l : Lmb.lmb) : bootm_headers :=
  Images (legacy_hdr_os i) (legacy_hdr_os_copy i) (legacy_hdr_valid i) (os_info i) (ep i) (rd_start i) (rd_end i) (verify i) (state i) l.

(** The board information that is used: the machine, where the parameters of
    the kernel go, the banks of memory with start and size. *)
Record bd_t := Bd { bi_arch_number : Z; bi_boot_params : Z; bi_dram : list (Z * Z) }.

(** How a command ends: it returns; the board is reset; [theKernel (0,
    machid, params)]; the NetBSD loader with the header, the console and the
    command line; RTEMS; a program with its arguments. *)
Inductive outcome :=
| Returned (ret : Z)
| Reset
| Linux (entry machid params : Z)
| Netbsd (entry os_hdr cmdline : Z)
| Rtems (entry : Z)
| Standalone (entry : Z) (args : list Z).

Record machine (X : Type) := Machine { env : env_state X; images : bootm_headers }.
Arguments Machine {X}. Arguments env {X}. Arguments images {X}.

Section Bootm.
Context {X S : Type}.
Context (console_assign : X -> mem -> Z -> Z -> X * Z) (switch_line : X -> Z -> option X) (default_environment : Z).
Context (inflateInit2 : mem -> Z -> mem * S * Z) (inflate : mem -> z_stream S -> Z -> mem * z_stream S * Z)
  (inflateEnd : mem -> z_stream S -> mem).
(** The heap; where the string literals are; [gd->bd]; [buf] of
    [bootm_start_standalone]. *)
Context (malloc : mem -> Z -> mem * Z) (lit : list Z -> Z) (bd : bd_t) (s_buf : Z).
Abbreviation env_state := (env_state X).
Abbreviation machine := (machine X).
Abbreviation getenv := (getenv default_environment).
Abbreviation boot_os_fn := (nat -> machine -> Z -> list Z -> option (machine * outcome)).

Definition set_ram (st : machine) (m : mem) : machine := Machine (with_ram (env st) m) (images st).
Definition set_images (st : machine) (i : bootm_headers) : machine := Machine (env st) i.

(** [simple_strtoul (p, &endp, 16)]: the number and [*endp]. *)
Definition strtoul16 (fuel : nat) (m : mem) (p : Z) : option (Z * Z) :=
  l ← chars_at fuel m p; Some ((simple_strtoul l 16).1, hd 0 (simple_strtoul l 16).2).

(** ** common/image.c *)

Definition getenv_yesno (fuel : nat) (s : env_state) (var : Z) : option bool :=
  a ← getenv fuel s var; Some (negb (negb (a =? NULL) && (ram s a =? 110))).

Definition getenv_bootm_low (fuel : nat) (s : env_state) : option Z :=
  a ← getenv fuel s (lit n_bootm_low);
  if negb (a =? NULL) then '(tmp, _) ← strtoul16 fuel (ram s) a; Some tmp else Some CONFIG_SYS_SDRAM_BASE.

Definition getenv_bootm_size (fuel : nat) (s : env_state) : option Z :=
  a ← getenv fuel s (lit n_bootm_size);
  if negb (a =? NULL) then '(tmp, _) ← strtoul16 fuel (ram s) a; Some tmp else Some (hd (0, 0) (bi_dram bd)).2.

Definition memmove_wd (m : mem) (to from len : Z) : mem := memmove m to from len.

(** The start and the end of the RAM disk, and the result. *)
Definition boot_get_ramdisk (fuel : nat) (m : mem) (i : bootm_headers) (argv : list Z) (arch : Z) : option (Z * Z * Z) :=
  skip ← (if (3 <=? length argv)%nat then r ← strcmp fuel m (nth 2 argv 0) (lit s_dash); Some (r =? 0) else Some false);
  r ← (if skip : bool then Some (inl (0, 0))
       else if (3 <=? length argv)%nat || genimg_has_config then
         '(rd_addr, _) ← strtoul16 fuel m (nth 2 argv 0);
         let rd_addr := genimg_get_image rd_addr in
         if genimg_get_format m rd_addr =? IMAGE_FORMAT_LEGACY then
           let rd_hdr := image_get_ramdisk m rd_addr arch (verify i) in
           Some (if rd_hdr =? NULL then inr 1 else inl (image_get_data rd_hdr, image_get_data_size (header m rd_hdr)))
         else Some (inr 1)
       else if legacy_hdr_valid i && image_check_type (legacy_hdr_os_copy i) IH_TYPE_MULTI then
         '(rd_data, rd_len) ← image_multi_getimg fuel m (legacy_hdr_os i) 1; Some (inl (rd_data, rd_len))
       else Some (inl (0, 0)));
  match r with
  | inr ret => Some (0, 0, ret)
  | inl (rd_data, rd_len) => Some (if rd_data =? 0 then (0, 0, 0) else (rd_data, u32 (rd_data + rd_len), 0))
  end.

(** ** Finding and checking the image *)

(** The memory, [images], the header, the data and its length; a header of
    NULL when there is none. *)
Definition boot_get_kernel (fuel : nat) (s : env_state) (i : bootm_headers) (argv : list Z)
    : option (mem * bootm_headers * Z * Z * Z) :=
  let m := ram s in
  img_addr ← (if (length argv <? 2)%nat then Some (load_addr s) else '(a, _) ← strtoul16 fuel m (nth 1 argv 0); Some a);
  let img_addr := genimg_get_image img_addr in
  if negb (genimg_get_format m img_addr =? IMAGE_FORMAT_LEGACY) then Some (m, i, NULL, 0, 0) else
  let hdr := image_get_kernel m img_addr (verify i) in
  if hdr =? NULL then Some (m, i, NULL, 0, 0) else
  let type := image_get_type (header m hdr) in
  r ← (if type =? IH_TYPE_KERNEL then Some (Some (m, image_get_data hdr, image_get_data_size (header m hdr)))
       else if type =? IH_TYPE_MULTI then '(d, n) ← image_multi_getimg fuel m hdr 0; Some (Some (m, d, n))
       else if type =? IH_TYPE_STANDALONE then
         m ← (if (2 <? length argv)%nat
              then '(a, _) ← strtoul16 fuel m (nth 2 argv 0); Some (store32 m (hdr + 16) (htonl a)) else Some m);
         Some (Some (m, image_get_data hdr, image_get_data_size (header m hdr)))
       else Some None);
  Some (match r with
        | Some (m, os_data, os_len) => (m, set_legacy i hdr (header m hdr), img_addr, os_data, os_len)
        | None => (m, i, NULL, 0, 0)
        end).

Definition bootm_start (fuel : nat) (st : machine) (argv : list Z) : option (machine * Z) :=
  let s := env st in
  v ← getenv_yesno fuel s (lit n_verify);
  mem_start ← getenv_bootm_low fuel s;
  mem_size ← getenv_bootm_size fuel s;
  '(_, l) ← Lmb.lmb_add (Lmb.lmb_init (images_lmb no_images)) mem_start mem_size;
  '(m, i, os_hdr, os_data, os_len) ← boot_get_kernel fuel s (set_verify no_images v l) argv;
  let s := with_ram s m in
  let i := set_os i (Info 0 0 os_data os_len 0 0 0 0) in
  if os_len =? 0 then Some (Machine s i, 1) else
  if negb (genimg_get_format m os_hdr =? IMAGE_FORMAT_LEGACY) then Some (Machine s i, 1) else
  let h := header m os_hdr in
  let o := Info 0 (image_get_image_end m os_hdr) os_data os_len (image_get_load h) (image_get_comp h)
             (image_get_type h) (image_get_os h) in
  let i := set_os i o in
  if negb (legacy_hdr_valid i) then Some (Machine s i, 1) else
  let i := set_ep i (image_get_ep (legacy_hdr_os_copy i)) in
  '(i, ret) ← (if os o =? IH_OS_LINUX
               then '(a, b, ret) ← boot_get_ramdisk fuel m i argv IH_ARCH_ARM; Some (set_rd i a b, ret)
               else Some (i, 0));
  if negb (ret =? 0) then Some (Machine s i, 1) else
  let i := set_os i (Info os_hdr (end_ o) (image_start o) (image_len o) (load o) (comp o) (type o) (os o)) in
  Some (Machine s (set_state i BOOTM_STATE_START), 0).

(** ** Loading *)

(** The memory, [*load_end] and the result. *)
Definition bootm_load_os (fuel : nat) (m : mem) (o : image_info) (load_end : Z) : option (mem * Z * Z) :=
  r ← (if comp o =? IH_COMP_NONE then
         let m := if load o =? start o then m
                  else if negb (load o =? image_start o) then memmove_wd m (load o) (image_start o) (image_len o) else m in
         Some (inl (m, u32 (load o + image_len o)))
       else if comp o =? IH_COMP_GZIP then
         '(m, n, r) ← gunzip inflateInit2 inflate inflateEnd fuel m (load o) CONFIG_SYS_BOOTM_LEN (image_start o) (image_len o);
         Some (if negb (r =? 0) then inr (m, BOOTM_ERR_RESET) else inl (m, u32 (load o + n)))
       else Some (inr (m, BOOTM_ERR_UNIMPLEMENTED)));
  Some (match r with
        | inr (m, ret) => (m, load_end, ret)
        | inl (m, load_end) =>
            (m, load_end, if (load o <? end_ o) && (start o <? load_end) then BOOTM_ERR_OVERLAP else 0)
        end).

(** The program that is started, if one is. *)
Definition bootm_start_standalone (fuel : nat) (st : machine) (argv : list Z) : option (machine * option outcome) :=
  let s := env st in
  a ← getenv fuel s (lit n_autostart);
  no ← (if negb (a =? NULL) then r ← strcmp fuel (ram s) a (lit s_no); Some (r =? 0) else Some false);
  if no : bool then
    '(l, _, m) ← sprintf fuel fuel false s_lX [image_len (os_info (images st))] (ram s);
    '(s, _) ← setenv console_assign switch_line default_environment fuel
                (with_ram s (store m s_buf (l ++ [0]))) (lit n_filesize) s_buf;
    Some (Machine s (images st), None)
  else Some (st, Some (Standalone (htonl (ep (images st))) (tl argv))).

(** ** The operating systems *)

(** lib_arm/bootm.c *)
Definition do_bootm_linux (fuel : nat) (st : machine) (flag : Z) (argv : list Z) : option (machine * outcome) :=
  let s := env st in
  commandline ← getenv fuel s (lit n_bootargs);
  if negb (flag =? 0) && negb (flag =? BOOTM_STATE_OS_GO) then Some (st, Returned 1) else
  let theKernel := ep (images st) in
  a ← getenv fuel s (lit n_machid);
  machid ← (if negb (a =? NULL) then '(v, _) ← strtoul16 fuel (ram s) a; Some (s32 v) else Some (s32 (bi_arch_number bd)));
  m ← setup_tags fuel (ram s) (bi_boot_params bd) (bi_dram bd) commandline (rd_start (images st)) (rd_end (images st));
  Some (set_ram st m, Linux theKernel machid (bi_boot_params bd)).

(** [for (i = 2, len = 0; i < argc; i += 1) len += strlen (argv[i]) + 1;] *)
Fixpoint args_len (fuel : nat) (m : mem) (args : list Z) (len : Z) : option Z :=
  match args with
  | [] => Some len
  | a :: args => n ← strlen fuel m a; args_len fuel m args (u32 (len + n + 1))
  end.

(** The arguments with blanks between them. *)
Fixpoint join_args (fuel : nat) (m : mem) (cmdline len : Z) (first : bool) (args : list Z) : option mem :=
  match args with
  | [] => Some m
  | a :: args =>
      let '(m, len) := if first then (m, len) else (upd m (cmdline + len) 32, u32 (len + 1)) in
      m ← strcpy fuel m (cmdline + len) a;
      n ← strlen fuel m a;
      join_args fuel m cmdline (u32 (len + n)) false args
  end.

Definition do_bootm_netbsd (fuel : nat) (st : machine) (flag : Z) (argv : list Z) : option (machine * outcome) :=
  if negb (flag =? 0) && negb (flag =? BOOTM_STATE_OS_GO) then Some (st, Returned 1) else
  let m := ram (env st) in
  let hdr := legacy_hdr_os (images st) in
  os_hdr ← (if image_check_type (legacy_hdr_os_copy (images st)) IH_TYPE_MULTI
            then '(_, kernel_len) ← image_multi_getimg fuel m hdr 1; Some (if negb (kernel_len =? 0) then hdr else NULL)
            else Some NULL);
  '(m, cmdline) ← (if (2 <? length argv)%nat then
                     len ← args_len fuel m (drop 2 argv) 0;
                     let '(m, cmdline) := malloc m len in
                     m ← join_args fuel m cmdline 0 true (drop 2 argv); Some (m, cmdline)
                   else
                     a ← getenv fuel (env st) (lit n_bootargs); Some (m, if a =? NULL then lit [] else a));
  Some (set_ram st m, Netbsd (ep (images st)) os_hdr cmdline).

Definition do_bootm_rtems (fuel : nat) (st : machine) (flag : Z) (argv : list Z) : option (machine * outcome) :=
  if negb (flag =? 0) && negb (flag =? BOOTM_STATE_OS_GO) then Some (st, Returned 1) else
  Some (st, Rtems (ep (images st))).

(** By number: up to [IH_OS_RTEMS].  Nothing is read behind the array in C
    without leaving it undefined. *)
Definition boot_os : list (option boot_os_fn) :=
  [None; None; Some do_bootm_netbsd; None; None; Some do_bootm_linux; None; None; None; None;
   None; None; None; None; None; None; None; None; Some do_bootm_rtems].

Definition boot_fn (st : machine) : option (option boot_os_fn) := boot_os !! Z.to_nat (os (os_info (images st))).

(** ** The stages *)

Definition cmd_bootm_sub : list Cli.cmd_tbl_t :=
  [Cli.Cmd (lit s_start) 0 1 BOOTM_STATE_START; Cli.Cmd (lit s_loados) 0 1 BOOTM_STATE_LOADOS;
   Cli.Cmd (lit s_bdt) 0 1 BOOTM_STATE_OS_BD_T; Cli.Cmd (lit s_cmdline) 0 1 BOOTM_STATE_OS_CMDLINE;
   Cli.Cmd (lit s_prep) 0 1 BOOTM_STATE_OS_PREP; Cli.Cmd (lit s_go) 0 1 BOOTM_STATE_OS_GO].

(** A stage after the first, that is in order. *)
Definition do_stage (fuel : nat) (st : machine) (stage : Z) (argv : list Z) : option (machine * outcome) :=
  if stage =? BOOTM_STATE_LOADOS then
    let o := os_info (images st) in
    '(m, load_end, ret) ← bootm_load_os fuel (ram (env st)) o 0;
    let st := set_ram st m in
    if negb (ret =? 0) then Some (st, Returned ret) else
    '(_, l) ← Lmb.lmb_reserve (images_lmb (images st)) (load o) (u32 (load_end - load o));
    Some (set_images st (set_lmb (images st) l), Returned 0)
  else
    f ← boot_fn st; fn ← f;
    '(st, r) ← (fn : boot_os_fn) fuel st stage argv;
    Some (st, match r with Returned ret => Returned (if stage =? BOOTM_STATE_OS_GO then 0 else ret) | r => r end).

Definition do_bootm_subcommand (fuel : nat) (st : machine) (argv : list Z) : option (machine * outcome) :=
  c ← Cli.find_cmd_tbl fuel (ram (env st)) (nth 1 argv 0) cmd_bootm_sub;
  match c with
  | None => Some (st, Returned 1)
  | Some c =>
      let stage := s32 (Cli.cmd c) in
      if stage =? BOOTM_STATE_START then '(st, ret) ← bootm_start fuel st (tl argv); Some (st, Returned ret) else
      if stage <=? state (images st) then Some (st, Returned 1) else
      do_stage fuel (set_images st (set_state (images st) (Z.lor (state (images st)) stage))) stage argv
  end.

(** ** The whole *)

(** Behind [bootm_start]. *)
Definition bootm_go (fuel : nat) (st : machine) (argv : list Z) : option (machine * outcome) :=
  let o := os_info (images st) in
  '(m, load_end, ret) ← bootm_load_os fuel (ram (env st)) o 0;
  let st := set_ram st m in
  if ret =? BOOTM_ERR_RESET then Some (st, Reset) else
  if (ret =? BOOTM_ERR_OVERLAP) && negb (legacy_hdr_valid (images st)) then Some (st, Reset) else
  if ret =? BOOTM_ERR_UNIMPLEMENTED then Some (st, Returned 1) else
  '(_, l) ← Lmb.lmb_reserve (images_lmb (images st)) (load o) (u32 (load_end - load o));
  let st := set_images st (set_lmb (images st) l) in
  if type o =? IH_TYPE_STANDALONE then
    '(st, r) ← bootm_start_standalone fuel st argv; Some (st, default (Returned 0) r)
  else
    f ← boot_fn st;
    match f with
    | None => Some (st, Returned 1)
    | Some fn =>
        '(st, r) ← (fn : boot_os_fn) fuel st 0 argv;
        Some (st, match r with Returned _ => Reset | r => r end)
    end.

(** Whether the first argument is a number, or a number before ':' or '#'. *)
Definition is_address (fuel : nat) (m : mem) (p : Z) : option bool :=
  '(_, c) ← strtoul16 fuel m p; Some ((c =? 0) || (c =? 58) || (c =? 35)).

Definition do_bootm (fuel : nat) (st : machine) (argv : list Z) : option (machine * outcome) :=
  whole ← (if (1 <? length argv)%nat then is_address fuel (ram (env st)) (nth 1 argv 0) else Some true);
  if negb whole then do_bootm_subcommand fuel st argv else
  '(st, ret) ← bootm_start fuel st argv;
  if negb (ret =? 0) then Some (st, Returned 1) else bootm_go fuel st argv.

(** ** iminfo *)

Definition image_info_ (m : mem) (addr : Z) : Z :=
  if genimg_get_format m addr =? IMAGE_FORMAT_LEGACY then
    if negb (image_check_magic (header m addr)) then 1 else
    if negb (image_check_hcrc m addr) then 1 else
    if negb (image_check_dcrc m addr) then 1 else 0
  else 1.

Fixpoint iminfo_loop (fuel : nat) (m : mem) (args : list Z) (rcode : Z) : option Z :=
  match args with
  | [] => Some rcode
  | a :: args => '(addr, _) ← strtoul16 fuel m a; iminfo_loop fuel m args (if negb (image_info_ m addr =? 0) then 1 else rcode)
  end.

Definition do_iminfo (fuel : nat) (s : env_state) (argv : list Z) : option Z :=
  if (length argv <? 2)%nat then Some (image_info_ (ram s) (load_addr s)) else iminfo_loop fuel (ram s) (drop 1 argv) 0.

(** ** What starts Linux *)

(** The header at [img] was accepted: [v] says whether its data was checked. *)
Definition accepted (m : mem) (img : Z) (v : bool) : Prop := image_get_kernel m img v = img /\ img <> NULL.

Lemma accepted_checks m img v : accepted m img v ->
  image_check_magic (header m img) = true /\ image_check_hcrc m img = true /\
  (v = true -> image_check_dcrc m img = true) /\ image_get_arch (header m img) = IH_ARCH_ARM.
Proof.
  intros [E Hn]. unfold image_get_kernel in E.
  destruct (image_check_magic _); [|by destruct Hn]. destruct (image_check_hcrc _ _); [|by destruct Hn].
  destruct (v && negb (image_check_dcrc m img)) eqn:Ev; [by destruct Hn|].
  destruct (image_check_target_arch _) eqn:Ea; [|by destruct Hn]. split_and!; try done.
  - intros ->. by destruct (image_check_dcrc m img).
  - unfold image_check_target_arch, image_check_arch in Ea. lia.
Qed.

Lemma image_get_kernel_cases m img v : image_get_kernel m img v = img \/ image_get_kernel m img v = NULL.
Proof. unfold image_get_kernel. repeat case_match; by (left + right). Qed.

(** The copy of the header that is kept: it is the one accepted, but for the
    load address. *)
Definition kept (m : mem) (img : Z) (i : bootm_headers) : Prop :=
  legacy_hdr_valid i = true -> accepted m img (verify i) /\
    image_get_ep (legacy_hdr_os_copy i) = image_get_ep (header m img) /\
    image_get_os (legacy_hdr_os_copy i) = image_get_os (header m img).

Lemma header_load m p v : image_get_ep (header (store32 m (p + 16) v) p) = image_get_ep (header m p) /\
  image_get_os (header (store32 m (p + 16) v) p) = image_get_os (header m p).
Proof.
  assert (forall i, (i < 16)%nat \/ (20 <= i)%nat -> (i < 64)%nat -> header (store32 m (p + 16) v) p !! i = header m p !! i) as H.
  { intros i Hi H64. unfold header. rewrite !bytes_at_lookup by done. f_equal. apply store_outside. rewrite length_le_put. lia. }
  split.
  - unfold image_get_ep, get_l. f_equal. apply list_eq. intros j. destruct (decide (j < 4)%nat).
    + rewrite !slice_lookup by done. apply H; lia.
    + rewrite !lookup_ge_None_2; [done| |]; unfold slice; rewrite length_take; lia.
  - unfold image_get_os, get_b. rewrite !nth_default_lookup, H by lia. done.
Qed.

Lemma bind_Some {A B : Type} (x : option A) (f : A -> option B) y : x ≫= f = Some y -> exists a, x = Some a /\ f a = Some y.
Proof. destruct x as [a|]; [by exists a|done]. Qed.

Ltac step H := let a := fresh "a" in let E := fresh "E" in apply bind_Some in H as (a & E & H); cbn beta in H.

Lemma boot_get_kernel_kept fuel s i argv m i' hdr d n :
  legacy_hdr_valid i = false -> boot_get_kernel fuel s i argv = Some (m, i', hdr, d, n) ->
  verify i' = verify i /\ (exists img, kept (ram s) img i' /\ (legacy_hdr_valid i' = true -> hdr = img /\ header m img = legacy_hdr_os_copy i')) /\
  state i' = state i /\ os_info i' = os_info i /\ (legacy_hdr_valid i' = false -> n = 0).
Proof.
  intros Hi H. unfold boot_get_kernel in H. step H. unfold genimg_get_image in H. cbv zeta in H.
  assert (forall P, kept (ram s) a i /\ (legacy_hdr_valid i = true -> P)) as Hno by (intros P; unfold kept; rewrite Hi; done).
  destruct (negb _) in H; [injection H as <- <- <- <- <-; split_and!; try done; by exists a|].
  destruct (_ =? NULL) eqn:E0 in H; [injection H as <- <- <- <- <-; split_and!; try done; by exists a|].
  assert (accepted (ram s) a (verify i) /\ image_get_kernel (ram s) a (verify i) = a) as [Ha Ehd].
  { destruct (image_get_kernel_cases (ram s) a (verify i)) as [Ea|Ea]; rewrite Ea in E0; [|done].
    split; [split; [done|]|done]. intros ->. done. }
  rewrite Ehd in *. step H. destruct a0 as [ [ [m1 d1] n1]|]; injection H as <- <- <- <- <-;
    [|split_and!; try done; by exists a].
  split_and!; try done. exists a. split; [|done]. intros _. cbn [verify legacy_hdr_os_copy set_legacy]. split; [done|].
  destruct (_ =? IH_TYPE_KERNEL) in E1; [injection E1 as <- <- <-; done|].
  destruct (_ =? IH_TYPE_MULTI) in E1; [step E1; destruct a0 as [? ?]; injection E1 as <- <- <-; done|].
  destruct (_ =? IH_TYPE_STANDALONE) in E1; [|done]. step E1. injection E1 as <- <- <-.
  destruct (2 <? length argv)%nat; [|injection E2 as <-; done]. step E2. destruct a1 as [? ?]. injection E2 as <-. apply header_load.
Qed.

(** Linux can only be started with the entry point of an accepted header. *)
Definition linux_ok (m : mem) (i : bootm_headers) : Prop :=
  os (os_info i) = IH_OS_LINUX -> exists img, accepted m img (verify i) /\
    image_get_os (header m img) = IH_OS_LINUX /\ ep i = image_get_ep (header m img).

Lemma bootm_start_inv fuel st argv st' r : bootm_start fuel st argv = Some (st', r) ->
  linux_ok (ram (env st)) (images st') /\ state (images st') = (if r =? 0 then BOOTM_STATE_START else 0).
Proof.
  intros H. unfold bootm_start in H. do 3 step H. step H. destruct a2 as [rc l]. step H. destruct a2 as [ [ [ [m i] hdr] d] n].
  apply boot_get_kernel_kept in E3 as (_ & (img & Hk & Hh) & Hst & Hos & Hv); [|done]. cbn [state os_info] in Hst, Hos. clear E E0 E1 E2.
  assert (forall d n, linux_ok (ram (env st)) (set_os i (Info 0 0 d n 0 0 0 0))) as Hno by (intros ?? [=]).
  destruct (Z.eqb_spec n 0) as [|Hn]; [injection H as <- <-; by split|]. destruct (negb _) in H; [injection H as <- <-; by split|].
  cbn [legacy_hdr_valid set_os] in H. destruct (legacy_hdr_valid i) eqn:Ev; cbn [negb] in H; [|by rewrite Hv in Hn].
  destruct (Hk Ev) as (Ha & Hep & Ho). destruct (Hh eq_refl) as [-> Hc]. rewrite Hc in H. step H. destruct a2 as [i2 ret].
  assert (verify i2 = verify i /\ ep i2 = image_get_ep (header (ram (env st)) img) /\
    os (os_info i2) = image_get_os (header (ram (env st)) img) /\ state i2 = 0) as (E1 & E2 & E3 & E4).
  { cbn [os] in E. destruct (_ =? IH_OS_LINUX) in E.
    - step E. destruct a2 as [ [a' b'] ret']. injection E as <- <-. cbn. rewrite Hst. done.
    - injection E as <- <-. cbn. rewrite Hst. done. }
  assert (forall o s, os o = os (os_info i2) -> linux_ok (ram (env st)) (set_state (set_os i2 o) s)) as Hok.
  { intros o s Eo Hl. cbn in Hl. exists img. cbn. rewrite E1, E2. split_and!; [done|congruence|done]. }
  destruct (Z.eqb_spec ret 0) as [->|Hr]; cbn [negb] in H; injection H as <- <-.
  - split; [|done]. apply Hok. cbn. by rewrite E3, Ho.
  - split; [|by cbn; rewrite E4]. intros Hl. exists img. cbn in *. rewrite E1, E2. split_and!; [done|congruence|done].
Qed.

(** An operating system's function leaves [images] alone; only Linux's
    starts Linux. *)
Lemma boot_os_inv n f fuel st flag argv st' o : boot_os !! n = Some (Some f) -> f fuel st flag argv = Some (st', o) ->
  images st' = images st /\ match o with Linux e _ p => n = 5%nat /\ e = ep (images st) /\ p = bi_boot_params bd | _ => True end.
Proof.
  intros Hn H. unfold boot_os in Hn. do 19 (try (destruct n as [|n]; [cbn in Hn; try done|])); [| | |done]; injection Hn as <-.
  - unfold do_bootm_netbsd in H. destruct (_ && _) in H; [by injection H as <- <-|]. step H. step H. destruct a0 as [m c]. by injection H as <- <-.
  - unfold do_bootm_linux in H. step H. destruct (_ && _) in H; [by injection H as <- <-|]. do 3 step H. by injection H as <- <-.
  - unfold do_bootm_rtems in H. destruct (_ && _) in H; by injection H as <- <-.
Qed.

Lemma boot_fn_inv st f fuel flag argv st' o : boot_fn st = Some (Some f) -> f fuel st flag argv = Some (st', o) ->
  images st' = images st /\
  match o with Linux e _ p => os (os_info (images st)) = IH_OS_LINUX /\ e = ep (images st) /\ p = bi_boot_params bd | _ => True end.
Proof.
  intros Hf H. destruct (boot_os_inv _ _ _ _ _ _ _ _ Hf H) as [Hi Ho]. split; [exact Hi|]. destruct o; try done.
  destruct Ho as (E & He & Hp). split; [|done]. unfold IH_OS_LINUX. lia.
Qed.

Lemma standalone_inv fuel st argv st' o : bootm_start_standalone fuel st argv = Some (st', o) ->
  images st' = images st /\ match o with Some (Linux _ _ _) => False | _ => True end.
Proof.
  intros H. unfold bootm_start_standalone in H. do 2 step H. destruct a0; [|by injection H as <- <-].
  step H. destruct a0 as [ [l b] m]. step H. destruct a0 as [s z]. by injection H as <- <-.
Qed.

(** A stage keeps what the start found; Linux gets the entry point kept. *)
Definition same_start (i i' : bootm_headers) : Prop :=
  os_info i' = os_info i /\ ep i' = ep i /\ verify i' = verify i.

Lemma linux_ok_same m i i' : same_start i i' -> linux_ok m i -> linux_ok m i'.
Proof. intros (E1 & E2 & E3). unfold linux_ok. by rewrite E1, E2, E3. Qed.

Definition linux_started (st : machine) (o : outcome) : Prop :=
  match o with Linux e _ p => os (os_info (images st)) = IH_OS_LINUX /\ e = ep (images st) /\ p = bi_boot_params bd | _ => True end.

Lemma do_stage_inv fuel st stage argv st' o : do_stage fuel st stage argv = Some (st', o) ->
  same_start (images st) (images st') /\ linux_started st' o /\ state (images st') = state (images st).
Proof.
  intros H. unfold do_stage in H. destruct (_ =? BOOTM_STATE_LOADOS) in H.
  - step H. destruct a as [ [m e] ret]. destruct (negb _) in H; [injection H as <- <-; by repeat split|].
    step H. destruct a as [rc l]. injection H as <- <-. by repeat split.
  - step H. step H. step H. destruct a1 as [st1 o1]. injection H as <- <-. subst a.
    destruct (boot_fn_inv _ _ _ _ _ _ _ E E1) as [Ei Ho]. unfold linux_started. rewrite Ei. split; [by repeat split|]. split; [by destruct o1|done].
Qed.

Lemma bootm_go_inv fuel st argv st' o : bootm_go fuel st argv = Some (st', o) ->
  same_start (images st) (images st') /\ linux_started st' o.
Proof.
  intros H. unfold bootm_go in H. step H. destruct a as [ [m e] ret]. destruct (ret =? BOOTM_ERR_RESET); [injection H as <- <-; by repeat split|].
  destruct (_ && _) in H; [injection H as <- <-; by repeat split|]. destruct (ret =? BOOTM_ERR_UNIMPLEMENTED); [injection H as <- <-; by repeat split|].
  step H. destruct a as [rc l]. set (st1 := set_images _ _) in H.
  assert (same_start (images st) (images st1)) as Hs by (by repeat split). clearbody st1.
  destruct (_ =? IH_TYPE_STANDALONE) in H.
  - step H. destruct a as [st2 r]. injection H as <- <-. destruct (standalone_inv _ _ _ _ _ E1) as [Ei Ho]. rewrite Ei.
    split; [done|]. unfold linux_started. by destruct r as [ []|].
  - step H. destruct a as [f|]; [|injection H as <- <-; done]. step H. destruct a as [st2 o2]. injection H as <- <-.
    destruct (boot_fn_inv _ _ _ _ _ _ _ E1 E2) as [Ei Ho]. unfold linux_started. rewrite Ei. split; [done|]. by destruct o2.
Qed.

Lemma do_bootm_inv fuel st argv st' o : do_bootm fuel st argv = Some (st', o) ->
  (linux_ok (ram (env st)) (images st') \/ same_start (images st) (images st')) /\ linux_started st' o.
Proof.
  intros H. unfold do_bootm in H. step H. destruct (negb a).
  - unfold do_bootm_subcommand in H. step H. destruct a0 as [c|]; [|injection H as <- <-; split; [by right|done]].
    destruct (_ =? BOOTM_STATE_START) in H.
    { step H. destruct a0 as [st1 r]. injection H as <- <-. apply bootm_start_inv in E1 as [? _]. split; [by left|done]. }
    destruct (_ <=? _) in H; [injection H as <- <-; split; [by right|done]|].
    apply do_stage_inv in H as (Hs & Ho & _). split; [by right|exact Ho].
  - step H. destruct a0 as [st1 r]. apply bootm_start_inv in E0 as [Hok _].
    destruct (negb _) in H; [injection H as <- <-; split; [by left|done]|].
    apply bootm_go_inv in H as [Hs Ho]. split; [|exact Ho]. left. by eapply linux_ok_same.
Qed.

(** The board between commands: [bootm] ran and returned, from a memory that is
    put in the list, or something else did, which does not touch [images].  A
    standalone program, which may do anything, is left out. *)
Inductive run : list mem -> machine -> Prop :=
| run_reset s : run [] (Machine s no_images)
| run_bootm past st fuel argv st' ret :
    run past st -> do_bootm fuel st argv = Some (st', Returned ret) -> run (ram (env st) :: past) st'
| run_other past st s : run past st -> run past (Machine s (images st)).

Lemma run_ok past st : run past st -> Exists (fun m => linux_ok m (images st)) past \/ os (os_info (images st)) <> IH_OS_LINUX.
Proof.
  induction 1 as [s|past st fuel argv st' ret _ IH H|past st s _ IH]; [by right| |exact IH].
  apply do_bootm_inv in H as [ [Hok|Hok] _]; [by left; left|].
  destruct IH as [IH|IH]; [|by right; destruct Hok as (-> & _)].
  left. right. eapply Exists_impl; [exact IH|]. intros m. by apply linux_ok_same.
Qed.

(** C1: however [bootm] is used, as a whole or in stages, and whatever runs
    in between: when it starts Linux, then at the entry point of a header that
    was in memory when some [bootm] command began; its magic number and its
    checksum were right, it is for Linux on ARM, and its data was checked too
    unless the variable [verify] said no. *)
Theorem linux_only_if_checked past st fuel argv st' entry machid params :
  run past st -> do_bootm fuel st argv = Some (st', Linux entry machid params) ->
  exists m img, m ∈ ram (env st) :: past /\ entry = image_get_ep (header m img) /\ params = bi_boot_params bd /\
    image_check_magic (header m img) = true /\ image_check_hcrc m img = true /\
    image_get_arch (header m img) = IH_ARCH_ARM /\ image_get_os (header m img) = IH_OS_LINUX /\
    (verify (images st') = true -> image_check_dcrc m img = true).
Proof.
  intros Hr H. apply do_bootm_inv in H as [Hok (Hl & -> & ->)]. apply run_ok in Hr.
  assert (Exists (fun m => linux_ok m (images st')) (ram (env st) :: past)) as (m & Hm & Hlo)%Exists_exists.
  { destruct Hok as [Hok|Hs]; [by left|]. right. destruct Hr as [Hr|Hr]; [|by destruct Hs as (Es & _); rewrite Es in Hl].
    eapply Exists_impl; [exact Hr|]. intros m. by apply linux_ok_same. }
  destruct (Hlo Hl) as (img & Ha & Ho & ->). destruct (accepted_checks _ _ _ Ha) as (H1 & H2 & H3 & H4).
  exists m, img. done.
Qed.

(** ** The order of the stages *)

(** Commands with the name of a stage other than "start".  A command was
    refused when it did nothing at all and returned 1; every other one counts
    as an execution of its stage. *)
Inductive stages : machine -> list Z -> machine -> Prop :=
| stages_nil st : stages st [] st
| stages_other st s l st' : stages (Machine s (images st)) l st' -> stages st l st'
| stages_refused st fuel argv c l st' :
    Cli.find_cmd_tbl fuel (ram (env st)) (nth 1 argv 0) cmd_bootm_sub = Some (Some c) -> Cli.cmd c <> BOOTM_STATE_START ->
    do_bootm_subcommand fuel st argv = Some (st, Returned 1) ->
    stages st l st' -> stages st l st'
| stages_done st fuel argv c st1 o l st' :
    Cli.find_cmd_tbl fuel (ram (env st)) (nth 1 argv 0) cmd_bootm_sub = Some (Some c) -> Cli.cmd c <> BOOTM_STATE_START ->
    do_bootm_subcommand fuel st argv = Some (st1, o) -> (st1, o) <> (st, Returned 1) ->
    stages st1 l st' -> stages st (Cli.cmd c :: l) st'.

Lemma find_loop_in fuel m p len t : forall temp n c, Cli.find_loop fuel m p len t temp n = Some (Some c) ->
  (forall c, temp = Some c -> c ∈ cmd_bootm_sub) -> (forall c, c ∈ t -> c ∈ cmd_bootm_sub) -> c ∈ cmd_bootm_sub.
Proof.
  induction t as [|e t IH]; intros temp n c H Ht Hin; cbn [Cli.find_loop] in H.
  - destruct (_ =? 1) in H; [|done]. injection H as ->. by apply Ht.
  - assert (e ∈ cmd_bootm_sub) as He by (apply Hin; left). assert (forall c, c ∈ t -> c ∈ cmd_bootm_sub) as Hin' by (intros; apply Hin; by right).
    destruct (_ =? 0) in H.
    + step H. destruct (_ =? _) in H; [by injection H as <-|]. eapply IH; [exact H| |done]. by intros ? [= <-].
    + eapply IH; [exact H|done|done].
Qed.

Lemma stage_range fuel m p c : Cli.find_cmd_tbl fuel m p cmd_bootm_sub = Some (Some c) -> 0 < Cli.cmd c < 0x100.
Proof.
  intros H. unfold Cli.find_cmd_tbl in H. do 2 step H. apply find_loop_in in H; [|by intros ?|done].
  unfold cmd_bootm_sub in H. rewrite !elem_of_cons in H. destruct H as [->|[->|[->|[->|[->|[->|H] ] ] ] ] ]; try (split; reflexivity).
  by apply elem_of_nil in H.
Qed.

Lemma lor_ge a b : 0 <= a -> 0 <= b -> a <= Z.lor a b.
Proof.
  intros Ha Hb. pose proof (Z.add_lor_land a b). assert (Z.land a b <= b); [|lia].
  assert (Z.ldiff (Z.land a b) b = 0) as E.
  { apply Z.bits_inj'. intros i Hi. rewrite Z.ldiff_spec, Z.land_spec, Z.bits_0. by destruct (Z.testbit a i), (Z.testbit b i). }
  apply Z.sub_nocarry_ldiff in E. pose proof (proj2 (Z.ldiff_nonneg b (Z.land a b)) ltac:(by left)). lia.
Qed.

(** A stage is refused, or [images.state] has it afterwards. *)
Lemma subcommand_state fuel st argv c st1 o : 0 <= state (images st) ->
  Cli.find_cmd_tbl fuel (ram (env st)) (nth 1 argv 0) cmd_bootm_sub = Some (Some c) -> Cli.cmd c <> BOOTM_STATE_START ->
  do_bootm_subcommand fuel st argv = Some (st1, o) ->
  (st1, o) = (st, Returned 1) \/ state (images st) < Cli.cmd c <= state (images st1).
Proof.
  intros H0 Ec Hc H. pose proof (stage_range _ _ _ _ Ec) as Hr. unfold do_bootm_subcommand in H. rewrite Ec in H. cbn [mbind option_bind] in H.
  rewrite s32_small in H by lia. rewrite (proj2 (Z.eqb_neq _ _) Hc) in H. destruct (Z.leb_spec (Cli.cmd c) (state (images st))) as [Hle|Hlt].
  - injection H as <- <-. by left.
  - right. apply do_stage_inv in H as (_ & _ & ->). cbn [state images set_images set_state]. split; [lia|].
    rewrite Z.lor_comm. apply lor_ge; lia.
Qed.

(** C21: between two starts each stage is executed at most once, and only in
    the order of their numbers: loados, cmdline, bdt, prep, go; stages may be
    left out, and a command that is not executed has no effect whatever and
    returns 1.  The order that the help text of the command gives, bdt before
    cmdline, is refused. *)
Theorem stages_in_order st l st' : 0 <= state (images st) -> stages st l st' ->
  StronglySorted Z.lt l /\ Forall (fun s => state (images st) < s) l /\
  ~ (exists l1 l2, l = l1 ++ BOOTM_STATE_OS_BD_T :: l2 /\ BOOTM_STATE_OS_CMDLINE ∈ l2).
Proof.
  intros H0 H. assert (StronglySorted Z.lt l /\ Forall (fun s => state (images st) < s) l) as [Hs Hf].
  { induction H as [st|st s l st' _ IH|st fuel argv c l st' Ec Hc H _ IH|st fuel argv c st1 o l st' Ec Hc H E _ IH].
    - by repeat constructor.
    - exact (IH H0).
    - exact (IH H0).
    - destruct (subcommand_state _ _ _ _ _ _ H0 Ec Hc H) as [?|Hlt]; [done|]. destruct (IH ltac:(lia)) as [Hs Hf]. split.
      + constructor; [done|]. eapply Forall_impl; [exact Hf|]. cbn. lia.
      + constructor; [lia|]. eapply Forall_impl; [exact Hf|]. cbn. lia. }
  split_and!; [done|done|]. intros (l1 & l2 & -> & Hin). apply StronglySorted_app in Hs as (_ & _ & Hs). apply StronglySorted_inv in Hs as [_ Hs].
  rewrite Forall_forall in Hs. specialize (Hs _ Hin). by vm_compute in Hs.
Qed.

(** ** Booting a good image *)

(** The variables [bootm] asks for, and "no". *)
Definition boot_words : list (list Z) := [n_verify; n_bootm_low; n_bootm_size; n_bootargs; n_machid; n_autostart; s_no].

Lemma boot_words_names : Forall (fun w => is_name w /\ (length w < 16)%nat) boot_words.
Proof. repeat constructor; try (by apply name_dec); cbn; lia. Qed.

Record boot_env (s : env_state) (l : list (list Z)) : Prop := {
  be_holds : env_holds default_environment s l;
  be_lits : Forall (fun w => cstr_at (ram s) (lit w) w) boot_words
}.

(** Addresses off the block and the literals. *)
Definition off_env (s : env_state) (p n : Z) : Prop :=
  (p + n <= data_of default_environment s - 4 \/ data_of default_environment s + ENV_SIZE <= p) /\
  Forall (fun w => p + n <= lit w \/ lit w + Z.of_nat (length w) + 1 <= p) boot_words.

Lemma boot_env_same s l m p n : boot_env s l -> off_env s p (Z.of_nat n) -> same_except (ram s) m p n -> boot_env (with_ram s m) l.
Proof.
  intros [ [H1 H2 [H3 H4] H5] Hl] [Ho1 Ho2] Hs. split.
  - split; [done|done| |done]. split; [|done]. apply (text_at_same (ram s)); [|done].
    eapply same_except_on; [exact Hs|]. change (data_of default_environment (with_ram s m)) with (data_of default_environment s).
    lia.
  - rewrite Forall_forall in Hl, Ho2 |- *. intros w Hw. eapply cstr_at_ext; [|by apply Hl].
    eapply same_except_on; [exact Hs|]. specialize (Ho2 w Hw). lia.
Qed.

Section Good.
Context (fuel : nat) (l : list (list Z)).
Hypothesis Hfuel : (length (Env.image l) + 16 < fuel)%nat.

Lemma getenv_word s w : boot_env s l -> w ∈ boot_words ->
  exists a, getenv fuel s (lit w) = Some a /\ points_to (ram s) a (lookup_env w l) /\
    forall v, lookup_env w l = Some v -> data_of default_environment s <= a /\
      a + Z.of_nat (length v) < data_of default_environment s + ENV_SIZE /\ (length v < fuel)%nat.
Proof.
  intros [He Hl] Hw. pose proof boot_words_names as Hn. rewrite Forall_forall in Hl, Hn. destruct (Hn w Hw) as [Hname Hlen].
  destruct (getenv_at default_environment fuel s l (lit w) w He (Hl w Hw) ltac:(lia)) as (a & Ea & Hp & Hb).
  rewrite key_name in Hp, Hb by done. exists a. split_and!; [done|done|]. intros v Hv. destruct (Hb v Hv).
  pose proof (eh_room _ _ _ He) as Hr. rewrite length_image in Hr, Hfuel by apply He. lia.
Qed.

(** [verify]: anything that does not begin with an n. *)
Definition wants_check : bool :=
  match lookup_env n_verify l with Some (c :: _) => negb (c =? 110) | _ => true end.

Lemma getenv_yesno_verify s : boot_env s l -> getenv_yesno fuel s (lit n_verify) = Some wants_check.
Proof.
  intros He. unfold getenv_yesno, wants_check. destruct (getenv_word s n_verify He ltac:(by left)) as (a & -> & Hp & _).
  cbn [mbind option_bind]. destruct (lookup_env n_verify l) as [v|]; cbn [points_to] in Hp.
  - destruct Hp as [Hv Ha]. rewrite (proj2 (Z.eqb_neq a NULL) Ha). destruct v as [|c v].
    + apply cstr_at_nil in Hv. by rewrite Hv.
    + apply cstr_at_cons in Hv as (-> & _). by destruct (c =? 110).
  - by subst a.
Qed.

(** A number in a variable. *)
Lemma number_var s w : boot_env s l -> w ∈ boot_words -> exists a, getenv fuel s (lit w) = Some a /\
  match lookup_env w l with
  | Some v => (a =? NULL) = false /\ strtoul16 fuel (ram s) a = Some ((simple_strtoul v 16).1, hd 0 (simple_strtoul v 16).2)
  | None => (a =? NULL) = true
  end.
Proof.
  intros He Hw. destruct (getenv_word s w He Hw) as (a & Ea & Hp & Hb). exists a. split; [done|].
  destruct (lookup_env w l) as [v|]; cbn [points_to] in Hp; [|by subst a].
  destruct Hp as [Hv Ha]. split; [by apply Z.eqb_neq|]. unfold strtoul16. destruct (Hb v eq_refl) as (_ & _ & Hf).
  by rewrite (chars_at_spec fuel (ram s) a v Hv Hf).
Qed.

Lemma bootm_memory s : boot_env s l -> exists b z, getenv_bootm_low fuel s = Some b /\ getenv_bootm_size fuel s = Some z.
Proof.
  intros He. unfold getenv_bootm_low, getenv_bootm_size.
  destruct (number_var s n_bootm_low He) as (a & -> & Ha); [by right; left|].
  destruct (number_var s n_bootm_size He) as (a' & -> & Ha'); [by right; right; left|]. cbn [mbind option_bind].
  destruct (lookup_env n_bootm_low l), (lookup_env n_bootm_size l);
    repeat match goal with H : _ /\ _ |- _ => destruct H as [-> ->] | H : (_ =? NULL) = true |- _ => rewrite H end; cbn; eauto.
Qed.

(** The address of the image: the first argument, or [load_addr]. *)
Definition image_address (s : env_state) (argv : list Z) (img : Z) : Prop :=
  match argv with
  | [] | [_] => load_addr s = img
  | [_; a] => exists c, strtoul16 fuel (ram s) a = Some (img, c) /\ (c = 0 \/ c = 58 \/ c = 35)
  | _ => False
  end.

Lemma address_is s argv img : image_address s argv img ->
  (length argv <= 2)%nat /\
  (if (1 <? length argv)%nat then is_address fuel (ram s) (nth 1 argv 0) else Some true) = Some true /\
  (if (length argv <? 2)%nat then Some (load_addr s) else '(a, _) ← strtoul16 fuel (ram s) (nth 1 argv 0); Some a) = Some img.
Proof.
  destruct argv as [|a0 [|a [|? ?] ] ]; cbn [image_address]; try done; intros H.
  - cbn. split_and!; [lia|done|by rewrite H].
  - cbn. split_and!; [lia|done|by rewrite H].
  - destruct H as (c & E & Hc). cbn [length nth Nat.ltb Nat.leb]. unfold is_address. rewrite E. cbn.
    split_and!; [lia| |done]. f_equal. destruct Hc as [->|[->| ->] ]; reflexivity.
Qed.

(** What [bootm_start] makes of an accepted kernel or program. *)
Definition started_images (m : mem) (img : Z) (lm : Lmb.lmb) : bootm_headers :=
  let h := header m img in
  Images img h true
    (Info img (image_get_image_end m img) (image_get_data img) (image_get_size h) (image_get_load h) (image_get_comp h)
       (image_get_type h) (image_get_os h))
    (image_get_ep h) 0 0 wants_check BOOTM_STATE_START lm.

Definition fresh_lmb (lm : Lmb.lmb) : Prop := forall a b, exists lm', Lmb.lmb_reserve lm a b = Some (0, lm').

Lemma bootm_start_good st argv img : boot_env (env st) l -> image_address (env st) argv img ->
  accepted (ram (env st)) img wants_check -> image_get_size (header (ram (env st)) img) <> 0 ->
  image_get_type (header (ram (env st)) img) = IH_TYPE_KERNEL \/ image_get_type (header (ram (env st)) img) = IH_TYPE_STANDALONE ->
  exists lm, bootm_start fuel st argv = Some (Machine (env st) (started_images (ram (env st)) img lm), 0) /\ fresh_lmb lm.
Proof.
  intros He Ha Hc Hsz Hty. destruct (address_is _ _ _ Ha) as (Hlen & _ & Eimg). unfold bootm_start.
  rewrite (getenv_yesno_verify _ He). cbn [mbind option_bind]. destruct (bootm_memory _ He) as (b & z & -> & ->). cbn [mbind option_bind].
  set (lm := Lmb.Lmb (Lmb.put (Lmb.Region 1 0 (Lmb.Prop_ 0 0 :: replicate 8 (Lmb.Prop_ 0 0))) 0 (Lmb.Prop_ b z))
               (Lmb.Region 1 0 (Lmb.Prop_ 0 0 :: replicate 8 (Lmb.Prop_ 0 0)))).
  change (Lmb.lmb_add _ b z) with (Some (0, lm)). cbn [mbind option_bind]. exists lm. split; [|by intros a c; eexists].
  assert (genimg_get_format (ram (env st)) img = IMAGE_FORMAT_LEGACY) as Hfmt.
  { unfold genimg_get_format. destruct (accepted_checks _ _ _ Hc) as (-> & _). done. }
  assert (boot_get_kernel fuel (env st) (set_verify no_images wants_check lm) argv =
    Some (ram (env st), set_legacy (set_verify no_images wants_check lm) img (header (ram (env st)) img), img,
          image_get_data img, image_get_size (header (ram (env st)) img))) as ->.
  { unfold boot_get_kernel. rewrite Eimg. cbn [mbind option_bind]. unfold genimg_get_image. cbv zeta. rewrite Hfmt.
    change (negb (IMAGE_FORMAT_LEGACY =? IMAGE_FORMAT_LEGACY)) with false. cbv iota. cbn [verify set_verify].
    destruct Hc as [-> Hn]. rewrite (proj2 (Z.eqb_neq img NULL) Hn).
    destruct Hty as [-> | ->]; [done|]. change (IH_TYPE_STANDALONE =? IH_TYPE_KERNEL) with false.
    change (IH_TYPE_STANDALONE =? IH_TYPE_MULTI) with false. change (IH_TYPE_STANDALONE =? IH_TYPE_STANDALONE) with true. cbv iota.
    by rewrite (proj2 (Nat.ltb_ge 2 (length argv)) Hlen). }
  cbn [mbind option_bind]. rewrite (proj2 (Z.eqb_neq _ 0) Hsz). rewrite Hfmt. change (negb (IMAGE_FORMAT_LEGACY =? IMAGE_FORMAT_LEGACY)) with false.
  cbv iota. cbn [legacy_hdr_valid set_os set_legacy negb os].
  assert (forall i, legacy_hdr_valid i = true -> legacy_hdr_os_copy i = header (ram (env st)) img ->
    boot_get_ramdisk fuel (ram (env st)) i argv IH_ARCH_ARM = Some (0, 0, 0)) as Hrd.
  { intros i Hv Hcp. unfold boot_get_ramdisk. assert ((3 <=? length argv)%nat = false) as -> by (apply Nat.leb_gt; lia).
    cbn [mbind option_bind orb genimg_has_config]. rewrite Hv, Hcp. unfold image_check_type.
    destruct Hty as [-> | ->]; reflexivity. }
  destruct (_ =? IH_OS_LINUX); [rewrite Hrd by done|]; cbn [mbind option_bind]; destruct (env st); reflexivity.
Qed.

Lemma mem_ok_moved m m' d s n : moved m m' d s n -> mem_ok m -> mem_ok m'.
Proof.
  intros [H1 H2] Hm q. destruct (decide (d <= q < d + Z.of_nat n)) as [Hq|Hq]; [|by rewrite H2].
  pose proof (proj1 (bytes_at_eq_iff m' m d s n) H1 (q - d) ltac:(lia)) as E. replace (d + (q - d)) with q in E by lia. by rewrite E.
Qed.

Lemma load_plain m o e : comp o = IH_COMP_NONE -> is_u32 (image_len o) ->
  exists m' ret, bootm_load_os fuel m o e = Some (m', u32 (load o + image_len o), ret) /\ (ret = 0 \/ ret = BOOTM_ERR_OVERLAP) /\
    (mem_ok m -> mem_ok m') /\ same_except m m' (load o) (Z.to_nat (image_len o)) /\
    (load o <> start o -> bytes_at m' (load o) (Z.to_nat (image_len o)) = bytes_at m (image_start o) (Z.to_nat (image_len o))).
Proof.
  intros Hc Hl. unfold bootm_load_os. rewrite Hc. change (IH_COMP_NONE =? IH_COMP_NONE) with true. cbn [mbind option_bind].
  set (m' := if load o =? start o then m else _). exists m'. eexists. split; [reflexivity|]. split; [case_match; tauto|].
  unfold m', memmove_wd. destruct (Z.eqb_spec (load o) (start o)) as [E|E]; [by split_and!; [|intros q _|]|].
  destruct (Z.eqb_spec (load o) (image_start o)) as [E'|E']; cbn [negb].
  - split_and!; [done|by intros q _|]. intros _. by rewrite E'.
  - destruct (memmove_correct m (load o) (image_start o) (image_len o) Hl) as [H1 H2]. split_and!; [intros Hm; by eapply mem_ok_moved|done|done].
Qed.

Lemma size_u32 m img : mem_ok m -> is_u32 (image_get_size (header m img)).
Proof.
  intros Hm. unfold image_get_size, get_l, be_get. pose proof (le_get_range (rev (slice (header m img) 12 4))) as H.
  assert (length (rev (slice (header m img) 12 4)) = 4%nat) as E.
  { rewrite length_rev. unfold slice. rewrite length_take, length_drop, length_header. done. }
  rewrite E in H. apply H. apply Forall_rev, bytes_ok_slice, bytes_ok_bytes_at, Hm.
Qed.

(** [bootm] up to the program or the kernel, for an unpacked image. *)
Record good_image (st : machine) (argv : list Z) (img : Z) : Prop := {
  gi_ok : mem_ok (ram (env st));
  gi_env : boot_env (env st) l;
  gi_addr : image_address (env st) argv img;
  gi_checked : accepted (ram (env st)) img wants_check;
  gi_size : image_get_size (header (ram (env st)) img) <> 0;
  gi_plain : image_get_comp (header (ram (env st)) img) = IH_COMP_NONE;
  gi_load : off_env (env st) (image_get_load (header (ram (env st)) img)) (image_get_size (header (ram (env st)) img))
}.

Lemma bootm_loads st argv img : good_image st argv img -> let m := ram (env st) in let h := header m img in
  image_get_type h = IH_TYPE_KERNEL \/ image_get_type h = IH_TYPE_STANDALONE ->
  exists m' lm, do_bootm fuel st argv =
      (let st' := Machine (with_ram (env st) m') (started_images m img lm) in
       if image_get_type h =? IH_TYPE_STANDALONE
       then '(st, r) ← bootm_start_standalone fuel st' argv; Some (st, default (Returned 0) r)
       else f ← boot_fn st'; match f with
            | None => Some (st', Returned 1)
            | Some fn => '(st, r) ← (fn : boot_os_fn) fuel st' 0 argv; Some (st, match r with Returned _ => Reset | r => r end)
            end) /\
    mem_ok m' /\ boot_env (with_ram (env st) m') l /\ same_except m m' (image_get_load h) (Z.to_nat (image_get_size h)) /\
    (image_get_load h <> img ->
     bytes_at m' (image_get_load h) (Z.to_nat (image_get_size h)) = bytes_at m (image_get_data img) (Z.to_nat (image_get_size h))).
Proof.
  intros [Hok He Ha Hc Hsz Hp Hload] m h Hty. destruct (bootm_start_good st argv img He Ha Hc Hsz Hty) as (lm & Es & Hlm).
  pose proof (size_u32 m img Hok) as Hu. set (o := os_info (started_images m img lm)).
  destruct (load_plain m o 0 Hp Hu) as (m' & ret & El & Hret & Hmo & Hx & Hb).
  destruct (Hlm (load o) (u32 (u32 (load o + image_len o) - load o))) as (lm' & Er).
  exists m', lm'. split_and!; [|exact (Hmo Hok)| |exact Hx|exact Hb].
  - unfold do_bootm. destruct (address_is _ _ _ Ha) as (_ & -> & _). cbn [mbind option_bind negb]. rewrite Es. cbn [mbind option_bind].
    change (negb (0 =? 0)) with false. cbv iota. unfold bootm_go. cbn [images env]. fold m. fold o. rewrite El. cbn [mbind option_bind].
    assert ((ret =? BOOTM_ERR_RESET) = false /\ (ret =? BOOTM_ERR_UNIMPLEMENTED) = false) as [-> ->] by (by destruct Hret as [-> | ->]).
    cbn [images set_ram legacy_hdr_valid started_images negb]. rewrite andb_false_r. cbn [images_lmb].
    change (images_lmb (started_images m img lm)) with lm. rewrite Er. cbn [mbind option_bind]. reflexivity.
  - eapply boot_env_same; [exact He| |exact Hx]. rewrite Z2Nat.id by apply Hu. exact Hload.
Qed.
End Good.

(** C2: [bootm] of an accepted, unpacked Linux kernel starts it, at the entry
    point of its header, for the machine that [machid] says (or the board),
    with its data at the load address (unless it is executed in place) and
    with parameters in which the kernel finds the banks of memory and
    [bootargs], if that is set and not blank. *)
Theorem linux_boots fuel l st argv img :
  let m := ram (env st) in let h := header m img in
  let p := bi_boot_params bd in let room := Z.of_nat (tags_room (bi_dram bd) (lookup_env n_bootargs l)) in
  (length (Env.image l) + 16 < fuel)%nat -> good_image fuel l st argv img ->
  image_get_type h = IH_TYPE_KERNEL -> image_get_os h = IH_OS_LINUX ->
  Forall (fun b => is_u32 b.1 /\ is_u32 b.2) (bi_dram bd) -> 0 < p -> off_env (env st) p room ->
  p + room <= image_get_load h \/ image_get_load h + image_get_size h <= p ->
  exists st', do_bootm fuel st argv = Some (st', Linux (image_get_ep h)
      (match lookup_env n_machid l with Some v => s32 (simple_strtoul v 16).1 | None => s32 (bi_arch_number bd) end) p) /\
    read_tags (5 + length (bi_dram bd)) fuel (ram (env st')) p = Some (boot_tags (bi_dram bd) (lookup_env n_bootargs l) 0 0) /\
    (image_get_load h <> img ->
     bytes_at (ram (env st')) (image_get_load h) (Z.to_nat (image_get_size h)) = bytes_at m (image_get_data img) (Z.to_nat (image_get_size h))).
Proof.
  intros m h p room Hf G Hty Hos Hd H0 Hp Hap. destruct (bootm_loads fuel l Hf st argv img G (or_introl Hty)) as (m' & lm & -> & _ & He & Hx & Hb).
  fold m h in Hx, Hb |- *. rewrite Hty. change (IH_TYPE_KERNEL =? IH_TYPE_STANDALONE) with false. cbv iota zeta.
  unfold boot_fn. cbn [images started_images os_info os]. fold h. rewrite Hos. change (boot_os !! Z.to_nat IH_OS_LINUX) with (Some (Some do_bootm_linux)).
  cbn [mbind option_bind]. unfold do_bootm_linux. cbn [env images ep started_images rd_start rd_end].
  destruct (getenv_word fuel l Hf _ n_bootargs He) as (c & -> & Hpt & Hbound); [by do 3 right; left|]. cbn [mbind option_bind].
  change (negb (0 =? 0) && negb (0 =? BOOTM_STATE_OS_GO)) with false. cbv iota.
  destruct (number_var fuel l Hf _ n_machid He) as (a & -> & Ha); [by do 4 right; left|]. cbn [mbind option_bind].
  assert ((if negb (a =? NULL) then '(v, _) ← strtoul16 fuel (ram (with_ram (env st) m')) a; Some (s32 v) else Some (s32 (bi_arch_number bd))) =
    Some (match lookup_env n_machid l with Some v => s32 (simple_strtoul v 16).1 | None => s32 (bi_arch_number bd) end)) as ->.
  { destruct (lookup_env n_machid l); [destruct Ha as [-> ->]; done|by rewrite Ha]. }
  cbn [mbind option_bind].
  destruct (setup_tags_spec fuel m' p (bi_dram bd) c (lookup_env n_bootargs l) 0 0) as (m2 & E2 & Hr & Hx2); try done.
  - destruct (lookup_env n_bootargs l) as [v|]; [|done]. destruct Hpt. done.
  - destruct (lookup_env n_bootargs l) as [v|]; cbn [cmdline_length]; [apply (Hbound v eq_refl)|lia].
  - destruct (lookup_env n_bootargs l) as [v|]; cbn [cmdline_length]; [|lia]. destruct (Hbound v eq_refl) as (? & ? & _).
    unfold ENV_SIZE, CONFIG_ENV_SIZE in *. lia.
  - destruct Hp as [Hp _]. destruct (lookup_env n_bootargs l) as [v|]; cbn [cmdline_length points_to] in *; [|left; unfold NULL in *; lia].
    destruct (Hbound v eq_refl) as (? & ? & _). change (data_of default_environment (with_ram (env st) m')) with (data_of default_environment (env st)) in *.
    unfold room in *. lia.
  - change (ram (with_ram (env st) m')) with m'. fold p. rewrite E2. cbn [mbind option_bind]. eexists. split; [reflexivity|]. split; [exact Hr|].
    intros Hne. rewrite <- (Hb Hne). apply bytes_at_ext. intros q Hq. apply Hx2. unfold room in *. pose proof (size_u32 m img (gi_ok _ _ _ _ _ G)) as Hu.
    fold h in Hu. unfold is_u32 in Hu. lia.
Qed.

Lemma htonl_be_get b : bytes_ok b -> length b = 4%nat -> htonl (be_get b) = le_get b.
Proof.
  intros Hb Hl. unfold htonl, be_put, be_get. f_equal. rewrite <- (rev_involutive b) at 2. f_equal.
  rewrite <- (le_put_get (rev b)) at 2 by by apply Forall_rev. by rewrite length_rev, Hl.
Qed.

(** C37: [bootm] of an accepted, unpacked standalone program loads it like a
    kernel, but starts it at the entry point read from the header in
    little-endian order, as [ntohl] swaps what [image_get_ep] has already
    swapped: the header of an image is big-endian. *)
Theorem standalone_entry_swapped fuel l st argv img :
  let m := ram (env st) in let h := header m img in
  (length (Env.image l) + 16 < fuel)%nat -> good_image fuel l st argv img ->
  image_get_type h = IH_TYPE_STANDALONE -> lookup_env n_autostart l <> Some s_no ->
  exists st', do_bootm fuel st argv = Some (st', Standalone (le_get (slice h 20 4)) (tl argv)) /\
    image_get_ep h = be_get (slice h 20 4) /\
    (image_get_load h <> img ->
     bytes_at (ram (env st')) (image_get_load h) (Z.to_nat (image_get_size h)) = bytes_at m (image_get_data img) (Z.to_nat (image_get_size h))).
Proof.
  intros m h Hf G Hty Hno. destruct (bootm_loads fuel l Hf st argv img G (or_intror Hty)) as (m' & lm & -> & Hok & He & Hx & Hb).
  fold m h in Hx, Hb |- *. rewrite Hty. change (IH_TYPE_STANDALONE =? IH_TYPE_STANDALONE) with true. cbv iota zeta.
  unfold bootm_start_standalone. cbn [env].
  destruct (getenv_word fuel l Hf _ n_autostart He) as (a & -> & Hpt & Hbound); [by do 5 right; left|]. cbn [mbind option_bind].
  assert ((if negb (a =? NULL) then r ← strcmp fuel (ram (with_ram (env st) m')) a (lit s_no); Some (r =? 0) else Some false) = Some false) as ->.
  { destruct (lookup_env n_autostart l) as [v|]; cbn [points_to] in Hpt; [|by subst a]. destruct Hpt as [Hv Ha].
    rewrite (proj2 (Z.eqb_neq a NULL) Ha). cbn [negb]. destruct He as [_ Hl]. rewrite Forall_forall in Hl.
    destruct (strcmp_correct fuel m' a (lit s_no) v s_no Hok Hv (Hl s_no ltac:(by do 6 right; left)) (proj2 (proj2 (Hbound v eq_refl)))) as (r & Er & Hr & _).
    change (ram (with_ram (env st) m')) with m'. rewrite Er. cbn [mbind option_bind]. f_equal. apply Z.eqb_neq. intros E. apply Hno. f_equal. tauto. }
  cbn [mbind option_bind default images ep started_images]. fold h.
  exists (Machine (with_ram (env st) m') (started_images l m img lm)). split; [|split; [reflexivity|exact Hb] ].
  unfold image_get_ep, get_l. rewrite htonl_be_get; [done|apply bytes_ok_slice, bytes_ok_bytes_at, (gi_ok _ _ _ _ _ G)|].
  unfold slice. rewrite length_take, length_drop. unfold h. rewrite length_header. done.
Qed.
End Bootm.

(** ** A sample board *)

Definition boot_literals : list (list Z) :=
  boot_words ++ [n_bootm_low; n_filesize; s_dash; s_lX; s_start; s_loados; s_bdt; s_cmdline; s_prep; s_go; []].
Definition boot_lit (s : list Z) : Z := literal_addr boot_literals s 0x100.

(** "bootargs= quiet" *)
Definition boot_list : list (list Z) := [n_bootargs ++ [61; 32; 113; 117; 105; 101; 116]].

(** The literals, "loados" and "cmdline" among them; the environment; an
    image that [load_addr] points to. *)
Definition boot_mem (image : list Z) : mem :=
  store (store (store (fun _ => 0) 0x100 (concat (map (padded 16) boot_literals))) 0x1004 (Env.image boot_list)) 0x6000 image.
Definition sample_kernel : list Z :=
  make_image IH_TYPE_KERNEL IH_COMP_NONE 0x8000 0x8004 IH_OS_LINUX IH_ARCH_ARM [1; 2; 3; 4; 5; 6; 7; 8; 9].
Definition sample_program : list Z :=
  make_image IH_TYPE_STANDALONE IH_COMP_NONE 0x8000 0x8004 IH_OS_LINUX IH_ARCH_ARM [1; 2; 3; 4; 5; 6; 7; 8; 9].

Definition boot_machine (image : list Z) : machine unit :=
  Machine (Env.Env (boot_mem image) true true 0x1004 0x1000 1 115200 0 0x6000 tt) no_images.
Definition sample_bd : bd_t := Bd 2297 0x7000 [(0x80000000, 0x8000000)].
Definition sample_malloc (m : mem) (n : Z) : mem * Z := (m, 0x9000).

Abbreviation sample_bootm := (
  do_bootm no_console no_line 0x80 run_init run_inflate run_end sample_malloc boot_lit sample_bd 0xA000).
Abbreviation sample_sub :=
  (do_bootm_subcommand 0x80 run_init run_inflate run_end sample_malloc boot_lit sample_bd).

Lemma boot_mem_ok image : bytes_ok image -> mem_ok (boot_mem image).
Proof.
  intros H. unfold boot_mem. repeat apply mem_ok_store; [intros q; vm_compute; intuition congruence| | |exact H];
    apply (bool_decide_eq_true_1 _); vm_compute; reflexivity.
Qed.

Lemma sample_boot_env image : forallb (fun w => is_cstr (boot_mem image) (boot_lit w) w) boot_words = true ->
  bytes_at (boot_mem image) 0x1004 (length (Env.image boot_list)) = Env.image boot_list ->
  boot_env 0x80 boot_lit (env (boot_machine image)) boot_list.
Proof.
  intros Hl He. split.
  - split; [reflexivity|reflexivity| |by vm_compute]. split; [exact He|].
    constructor; [|constructor]. split; [apply (bool_decide_eq_true_1 _); reflexivity|cbn; tauto].
  - apply Forall_forall. intros w Hw. apply is_cstr_spec. rewrite forallb_forall in Hl. by apply Hl, list_elem_of_In.
Qed.

Lemma sample_off image p n : (p + n <= 0x1000 \/ 0x5000 <= p) -> p + n <= 0x100 \/ 0x1000 <= p -> off_env 0x80 boot_lit (env (boot_machine image)) p n.
Proof.
  intros H1 H2. split; [cbn; unfold ENV_SIZE, CONFIG_ENV_SIZE; lia|].
  assert (Forall (fun w => 0x100 <= boot_lit w /\ boot_lit w + Z.of_nat (length w) + 1 <= 0x1000) boot_words) as H
    by (apply (bool_decide_eq_true_1 _); vm_compute; reflexivity).
  eapply Forall_impl; [exact H|]. cbn. lia.
Qed.

Lemma kernel_good : good_image 0x80 boot_lit 200 boot_list (boot_machine sample_kernel) [0x100] 0x6000.
Proof.
  split.
  - apply boot_mem_ok, (bool_decide_eq_true_1 _). vm_compute. reflexivity.
  - apply sample_boot_env; vm_compute; reflexivity.
  - reflexivity.
  - split; [vm_compute; reflexivity|discriminate].
  - vm_compute. discriminate.
  - vm_compute. reflexivity.
  - apply sample_off; vm_compute; right; discriminate.
Qed.

Lemma program_good : good_image 0x80 boot_lit 200 boot_list (boot_machine sample_program) [0x100] 0x6000.
Proof.
  split.
  - apply boot_mem_ok, (bool_decide_eq_true_1 _). vm_compute. reflexivity.
  - apply sample_boot_env; vm_compute; reflexivity.
  - reflexivity.
  - split; [vm_compute; reflexivity|discriminate].
  - vm_compute. discriminate.
  - vm_compute. reflexivity.
  - apply sample_off; vm_compute; right; discriminate.
Qed.

Lemma linux_boots_witness : exists st', sample_bootm 200 (boot_machine sample_kernel) [0x100] = Some (st', Linux 0x8004 2297 0x7000) /\
  read_tags 6 200 (ram (env st')) 0x7000 = Some [Core 0 0 0; Mem 0x8000000 0x80000000; Cmdline [113; 117; 105; 101; 116]] /\
  (0x8000 <> 0x6000 -> bytes_at (ram (env st')) 0x8000 9 = [1; 2; 3; 4; 5; 6; 7; 8; 9]).
Proof.
  apply (linux_boots no_console no_line 0x80 run_init run_inflate run_end sample_malloc boot_lit sample_bd 0xA000 200 boot_list
    (boot_machine sample_kernel) [0x100] 0x6000).
  - cbn. lia.
  - exact kernel_good.
  - vm_compute. reflexivity.
  - vm_compute. reflexivity.
  - repeat constructor; cbn; lia.
  - reflexivity.
  - apply sample_off; vm_compute; right; discriminate.
  - vm_compute. left. discriminate.
Defined.

Lemma standalone_entry_swapped_witness : exists st', sample_bootm 200 (boot_machine sample_program) [0x100] = Some (st', Standalone 0x04800000 []) /\
  image_get_ep (header (boot_mem sample_program) 0x6000) = 0x8004 /\
  (0x8000 <> 0x6000 -> bytes_at (ram (env st')) 0x8000 9 = [1; 2; 3; 4; 5; 6; 7; 8; 9]).
Proof.
  apply (standalone_entry_swapped no_console no_line 0x80 run_init run_inflate run_end sample_malloc boot_lit sample_bd 0xA000 200 boot_list
    (boot_machine sample_program) [0x100] 0x6000).
  - cbn. lia.
  - exact program_good.
  - vm_compute. reflexivity.
  - vm_compute. discriminate.
Defined.

(** A result that starts Linux, without looking at the memory it leaves. *)
Definition starts_linux {X : Type} (r : option (machine X * outcome)) (entry machid params : Z) : bool :=
  match r with Some (_, Linux e i p) => (e =? entry) && (i =? machid) && (p =? params) | _ => false end.

Lemma starts_linux_spec {X : Type} (r : option (machine X * outcome)) entry machid params :
  starts_linux r entry machid params = true -> exists st', r = Some (st', Linux entry machid params).
Proof.
  destruct r as [ [st' o]|]; [|done]. destruct o; try done. cbn. intros [ [->%Z.eqb_eq ->%Z.eqb_eq]%andb_true_iff ->%Z.eqb_eq]%andb_true_iff. by exists st'.
Qed.

Lemma linux_only_if_checked_witness :
  exists st', sample_bootm 200 (boot_machine sample_kernel) [0x100] = Some (st', Linux 0x8004 2297 0x7000) /\
  exists m img, m ∈ [boot_mem sample_kernel] /\ 0x8004 = image_get_ep (header m img) /\ 0x7000 = 0x7000 /\
    image_check_magic (header m img) = true /\ image_check_hcrc m img = true /\
    image_get_arch (header m img) = IH_ARCH_ARM /\ image_get_os (header m img) = IH_OS_LINUX /\
    (verify (images st') = true -> image_check_dcrc m img = true).
Proof.
  destruct (starts_linux_spec (sample_bootm 200 (boot_machine sample_kernel) [0x100]) 0x8004 2297 0x7000) as [st' E]; [vm_compute; reflexivity|].
  exists st'. split; [exact E|].
  apply (linux_only_if_checked no_console no_line 0x80 run_init run_inflate run_end sample_malloc boot_lit sample_bd 0xA000
    [] (boot_machine sample_kernel) 200 [0x100] st' 0x8004 2297 0x7000).
  - constructor.
  - exact E.
Defined.

(** The board after a sub-command. *)
Definition after (fuel : nat) (st : machine unit) (argv : list Z) : machine unit :=
  match sample_sub fuel st argv with Some (st', _) => st' | None => st end.

Lemma after_done fuel st argv c : Cli.find_cmd_tbl fuel (ram (env st)) (nth 1 argv 0) (cmd_bootm_sub boot_lit) = Some (Some c) ->
  Cli.cmd c <> BOOTM_STATE_START ->
  match sample_sub fuel st argv with Some (st', _) => negb (state (images st') =? state (images st)) | None => false end = true ->
  forall l st', stages 0x80 run_init run_inflate run_end sample_malloc boot_lit sample_bd (after fuel st argv) l st' ->
  stages 0x80 run_init run_inflate run_end sample_malloc boot_lit sample_bd st (Cli.cmd c :: l) st'.
Proof.
  intros Ec Hc H l st' Hs. unfold after in Hs. destruct (sample_sub fuel st argv) as [ [st1 o]|] eqn:E; [|done].
  eapply stages_done; [exact Ec|exact Hc|exact E| |exact Hs].
  intros [= -> _]. by rewrite Z.eqb_refl in H.
Qed.

(** After "start": "loados", "cmdline". *)
Definition sample_started : machine unit := after 200 (boot_machine sample_kernel) [0x100; boot_lit s_start].
Abbreviation sample_loaded := (after 200 sample_started [0x100; boot_lit s_loados]).

Lemma sample_stages : stages 0x80 run_init run_inflate run_end sample_malloc boot_lit sample_bd sample_started
  [BOOTM_STATE_LOADOS; BOOTM_STATE_OS_CMDLINE] (after 200 sample_loaded [0x100; boot_lit s_cmdline]).
Proof.
  apply (after_done 200 sample_started [0x100; boot_lit s_loados] (Cli.Cmd (boot_lit s_loados) 0 1 BOOTM_STATE_LOADOS));
    [vm_compute; reflexivity|discriminate|vm_compute; reflexivity|].
  apply (after_done 200 sample_loaded [0x100; boot_lit s_cmdline] (Cli.Cmd (boot_lit s_cmdline) 0 1 BOOTM_STATE_OS_CMDLINE));
    [vm_compute; reflexivity|discriminate|vm_compute; reflexivity|]. constructor.
Qed.

Lemma stages_in_order_witness : 0 <= state (images sample_started) /\
  StronglySorted Z.lt [BOOTM_STATE_LOADOS; BOOTM_STATE_OS_CMDLINE] /\
  Forall (fun s => state (images sample_started) < s) [BOOTM_STATE_LOADOS; BOOTM_STATE_OS_CMDLINE] /\
  ~ (exists l1 l2, [BOOTM_STATE_LOADOS; BOOTM_STATE_OS_CMDLINE] = l1 ++ BOOTM_STATE_OS_BD_T :: l2 /\ BOOTM_STATE_OS_CMDLINE ∈ l2).
Proof.
  split; [vm_compute; discriminate|].
  apply (stages_in_order 0x80 run_init run_inflate run_end sample_malloc boot_lit sample_bd sample_started _
    (after 200 sample_loaded [0x100; boot_lit s_cmdline])).
  - vm_compute. discriminate.
  - exact sample_stages.
Defined.
