(* ===== verification/Bootl.v ===== *)
(** * Bootl: infotm/strategy/boots, starting the system of the disk

    [bootl] loads the logo, the RAM disk and the kernel from the disk of the
    board, each with a second choice, and runs [bootm] on them; the command
    [load] (infotm/commands/cmd_load.c) loads one image.  boot.c tells from
    the pins and fuses which device the chip itself was started from.

    The state is the board of [Storage] with the environment of [Env] in the
    same memory.  Reading a register of the chip and the assembler routine
    [cfg_mmu_table] are parameters.  The disk is a stick or a card of [Disks]:
    what [load_image] does differs ([Stick_board], [Card_board]). *)

From S2P Require Import Prelude Mem CString Vsprintf Env Cli Uimage Bootm VStorage Disks Items Layout Storage Parted.

Local Open Scope Z_scope.

(** ** boot.c *)

Definition TOID (x : Z) : Z := Z.shiftl (Z.land x 0xf) 12.
Definition TON (a b c d e f : Z) : Z :=
  Z.lor (Z.lor (Z.lor (Z.land a 0x1) (Z.shiftl (Z.land b 0x1) 1))
    (Z.lor (Z.shiftl (Z.land c 0x3) 2) (Z.shiftl (Z.land d 0x7) 4)))
    (Z.lor (Z.shiftl (Z.land e 0x1) 7) (Z.shiftl (Z.land f 0xf) 8)).
Definition TOF (a : Z) : Z := Z.land a 0x1f.
Definition TOE (a b : Z) : Z := Z.lor (Z.land a 0x7f) (Z.shiftl (Z.land b 0x3) 7).
Definition BI_RESERVED := 0xffff.
Definition boot_info_to_id (x : Z) : Z := Z.land (Z.shiftr x 12) 0xf.

Definition boot_info_irom_x15 : list Z :=
  [5; TOID (DEV_MMC 0); Z.lor (TOID DEV_BND) (TON 1 5 0 0 1 15); Z.lor (TOID DEV_BND) (TON 1 5 0 1 1 15);
   TOID DEV_FLASH; Z.lor (TOID DEV_BND) (TON 1 5 2 0 1 15)].

(** The NAND chips the ROM knows, in the order of the pins. *)
Definition nand_irom : list Z :=
  [TON 0 0 0 0 0 0; TON 0 1 0 1 0 0; TON 0 1 0 1 1 2; TON 1 1 0 1 1 15; TON 0 1 0 2 1 3; TON 0 1 0 2 1 4;
   TON 1 1 0 2 1 15; TON 1 1 2 2 1 15; TON 1 1 0 3 1 4; TON 1 1 2 3 1 6; TON 1 1 0 5 0 0; TON 1 1 2 5 0 0;
   TON 0 1 0 5 1 2; TON 1 1 0 5 1 2; TON 1 1 2 5 1 2; TON 1 1 0 5 1 15; TON 1 1 2 5 1 15; TON 1 1 0 6 1 3].

Definition boot_info_irom : list Z :=
  [TOID DEV_NONE; TOID (DEV_MMC 0); TOID (DEV_MMC 1); TOID (DEV_MMC 2);
   Z.lor (TOID DEV_FLASH) (TOF 22); Z.lor (TOID DEV_FLASH) (TOF 28); Z.lor (TOID DEV_FLASH) (TOF 31);
   TOID (DEV_UDISK 0); TOID DEV_HD; Z.lor (TOID DEV_EEPROM) (TOE 0x50 0)] ++
  map (Z.lor (TOID DEV_BND)) nand_irom ++ [BI_RESERVED; BI_RESERVED; BI_RESERVED; BI_RESERVED].

Definition IX_CPUID_X15 := 0x3c00aca0.
Definition ECFG_DEFAULT_BINFO : Z := 2 ^ 10.
Definition CONFIG_RESERVED_SKIP_BUFFER := 0x87000000.

(** The registers: the identity in the ROM, two groups of pads.  [skip] is
    what the first stage left for the X15. *)
Definition get_xom (identity pads17 pads18 skip xom_info mode : Z) : Z :=
  if negb (mode =? 0) then xom_info
  else if identity =? IX_CPUID_X15 then s32 skip
  else Z.land (Z.lor (Z.shiftl (u8 pads18) 1) (Z.shiftr (u8 pads17) 7)) 0x1f.

Definition set_xom (xom : Z) : Z := Z.land xom 0x1f.

Definition init_xom (identity pads17 pads18 skip xom_info : Z) : Z :=
  u16 (get_xom identity pads17 pads18 skip xom_info 0).

(** [efuses]: the flags, and the array [binfo] of twelve. *)
Definition boot_info (identity eflags : Z) (binfo : list Z) (xom_info : Z) : option Z :=
  if identity =? IX_CPUID_X15 then boot_info_irom_x15 !! Z.to_nat (xom_info mod (nth 0 boot_info_irom_x15 0 + 1))
  else if negb (Z.land eflags ECFG_DEFAULT_BINFO =? 0) then boot_info_irom !! Z.to_nat (Z.land xom_info 0x1f)
  else if (xom_info <? 16) || (27 <? xom_info) then boot_info_irom !! Z.to_nat (Z.land xom_info 0x1f)
  else binfo !! Z.to_nat (xom_info - 16).

Definition boot_device (identity eflags : Z) (binfo : list Z) (xom_info : Z) : option Z :=
  boot_info_to_id <$> boot_info identity eflags binfo xom_info.

(** ** bootl.c *)

Definition BOOT_NORMAL := 0x0.
Definition BOOT_FACTORY_INIT := 0x1.
Definition BOOT_CHARGER := 0x2.
Definition BOOT_HALT_SYSTEM := 0xff.

Definition CONFIG_SYS_PHY_LK_BASE := CONFIG_SYS_SDRAM_BASE + 0x8000 - 0x40.
Definition CONFIG_SYS_PHY_RD_BASE := CONFIG_SYS_SDRAM_BASE + 0x1000000 - 0x40.
Definition CONFIG_RESERVED_LOGO_BUFFER := CONFIG_SYS_SDRAM_BASE + 0x10800000 + 0xA000000.
Definition CONFIG_RESERVED_UBOOT0_BUFFER := CONFIG_SYS_SDRAM_BASE + 0x10800000 + 0xB000000.
Definition CONFIG_MAX_LOGO_SIZE := 0x400000.

(** "boottype", "serialno", "%d", "bootm %x %x" and the ends of
    the format of the arguments. *)
Definition n_boottype := [98; 111; 111; 116; 116; 121; 112; 101].
Definition n_serialno := [115; 101; 114; 105; 97; 108; 110; 111].
Definition s_d := [37; 100].
Definition s_bootm := [98; 111; 111; 116; 109; 32; 37; 120; 32; 37; 120].
Definition s_mem := [37; 115; 32; 109; 101; 109; 61; 37; 100; 77; 32].
Definition s_mode := [97; 110; 100; 114; 111; 105; 100; 98; 111; 111; 116; 46; 109; 111; 100; 101; 61].
Definition s_recovery := [114; 101; 99; 111; 118; 101; 114; 121].
Definition s_charger := [99; 104; 97; 114; 103; 101; 114].
Definition s_serial := [97; 110; 100; 114; 111; 105; 100; 98; 111; 111; 116; 46; 115; 101; 114; 105; 97; 108; 110; 111; 61; 37; 115].
(** "memory.size", ".cscount", ".density", ".io_width", ".reduce_en" *)
Definition s_memory := [109; 101; 109; 111; 114; 121; 46].
Definition s_size := s_memory ++ [115; 105; 122; 101].
Definition s_cscount := s_memory ++ [99; 115; 99; 111; 117; 110; 116].
Definition s_density := s_memory ++ [100; 101; 110; 115; 105; 116; 121].
Definition s_io_width := s_memory ++ [105; 111; 95; 119; 105; 100; 116; 104].
Definition s_reduce_en := s_memory ++ [114; 101; 100; 117; 99; 101; 95; 101; 110].

(** The calculation of the size of the memory in bytes, [ca << 17] and
    [ca << 27] being of type [int]. *)
Definition dram_bytes (cs ch ca rd : Z) : Z :=
  let sz := u64 (if 20 <? ca then s32 (Z.shiftl ca 17) else s32 (Z.shiftl ca 27)) in
  let sz := u64 (sz * (if ch =? 8 then 4 else 2)) in
  let sz := Z.shiftr sz (b2z (negb (rd =? 0))) in
  u64 (sz * cs).

(** [(int)((sz >> 20) - 1)] *)
Definition dram_result (sz : Z) : Z := s32 (u64 (Z.shiftr sz 20 - 1)).

Section Dram.
Context (lit : list Z -> Z) (items s_int : Z).

(** [item_exist (a) && ...] *)
Fixpoint all_exist (fuel : nat) (m : mem) (ks : list (list Z)) : option bool :=
  match ks with
  | [] => Some true
  | k :: ks => r ← item_exist fuel m items (lit k); if r =? 0 then Some false else all_exist fuel m ks
  end.

Definition calc_dram_M (fuel : nat) (m : mem) : option (mem * Z) :=
  let sz := load32 m (CONFIG_RESERVED_SKIP_BUFFER + 8) in
  if negb (sz =? 0) then Some (m, dram_result sz) else
  r ← item_exist fuel m items (lit s_size);
  if negb (r =? 0) then
    '(m, v) ← item_integer fuel m items s_int (lit s_size) 0;
    Some (m, dram_result (u64 (Z.shiftl (u64 v) 20)))
  else
    all ← all_exist fuel m [s_cscount; s_density; s_io_width; s_reduce_en];
    '(m, cs, ch, ca, rd) ←
      (if all : bool then
         '(m, cs) ← item_integer fuel m items s_int (lit s_cscount) 0;
         '(m, ch) ← item_integer fuel m items s_int (lit s_io_width) 0;
         '(m, rd) ← item_integer fuel m items s_int (lit s_reduce_en) 0;
         '(m, ca) ← item_integer fuel m items s_int (lit s_density) 0;
         Some (m, if cs =? 3 then 2 else 1, ch, ca, rd)
       else Some (m, 1, 8, 1, 0));
    Some (m, dram_result (dram_bytes cs ch ca rd)).
End Dram.

(** How [bootl] ends: it returns, or stays in [for (;;);]. *)
Inductive fate := Halted | Ended (ret : Z).

Record system (D X : Type) := System { on : board D; es : env_state X }.
Arguments System {D X}. Arguments on {D X}. Arguments es {D X}.

Section Bootl.
Context {D X : Type} (dr : drivers D) (CONFIG_ENABLE_UDISK : bool).
Context (lit : list Z -> Z) (items cfg s_buf s_s s_int : Z).
(** lib_arm/_mmu.S *)
Context (cfg_mmu_table : world D -> world D).
Abbreviation board := (board D).
Abbreviation system := (system D X).
Abbreviation storage_offset := (storage_offset dr CONFIG_ENABLE_UDISK lit items cfg s_buf s_s s_int).
Abbreviation vs_read := (vs_read dr CONFIG_ENABLE_UDISK).
Implicit Type st : board.

(** One attempt; no address is [goto failed]. *)
Definition load_once (fuel : nat) st (imagename rambase : Z) : option (board * option Z) :=
  '(st, image) ← storage_offset fuel st imagename;
  r ← strcmp fuel (load st) (lit p_logo) imagename;
  if r =? 0 then
    '(w, _) ← vs_read (cur st) (wd st) rambase image CONFIG_MAX_LOGO_SIZE 0;
    Some (set_wd st w, Some rambase)
  else
    '(w, ret) ← vs_read (cur st) (wd st) rambase image 0x1000 0;
    let st := set_wd st w in
    if ret <? 0x1000 then Some (st, None) else
    if negb (image_check_hcrc (load st) rambase) then Some (st, None) else
    let h := header (load st) rambase in
    let l := image_get_size h in
    let '(st, dst) := if image_get_comp h =? 1
      then (set_wd st (cfg_mmu_table (wd st)), u32 (rambase + 0x6000000)) else (st, rambase) in
    '(w, ret) ← vs_read (cur st) (wd st) dst image (s32 (l + header_size)) 0;
    Some (set_wd st w, if u32 ret <? u32 (l + header_size) then None else Some dst).

Definition load_image (fuel : nat) st (name alternate rambase : Z) : option (board * Z) :=
  '(st, r) ← load_once fuel st name rambase;
  match r with
  | Some dst => Some (st, dst)
  | None =>
      if alternate =? NULL then Some (st, NULL) else
      '(st, r) ← load_once fuel st alternate rambase; Some (st, default NULL r)
  end.

(** [storage_device], the test of its flags and [vs_assign_by_id]: common to
    [bootl] and [do_load]. *)
Definition open_system (fuel : nat) st : option (board * bool) :=
  '(st, bootdev) ← device lit items s_buf st fuel;
  if vs_device_burndst dr CONFIG_ENABLE_UDISK bootdev =? 0 then Some (st, false) else
  let '(p, w, ret) := vs_assign_by_id dr CONFIG_ENABLE_UDISK (wd st) bootdev 1 in
  Some (Board w p (parts st) (tablecnt st) (lasttableaddr st), ret =? 0).

(** ** The command load *)

(** "recovery" is not a name of [default_cfg]. *)
Definition do_load (fuel : nat) (RESV_START : Z) st (argv : list Z) : option (board * Z) :=
  if (length argv <? 2)%nat then Some (st, 1) else
  '(st, ok) ← open_system fuel st;
  if negb ok then Some (st, -1) else
  let m := load st in
  membase ← (if (2 <? length argv)%nat
             then l ← chars_at fuel m (nth 2 argv 0); Some (simple_strtoul l 16).1 else Some NULL);
  if (2 <? length argv)%nat && ((membase <=? CONFIG_SYS_SDRAM_BASE) || (RESV_START <=? membase)) then Some (st, 1) else
  let imgname := nth 1 argv 0 in
  k0 ← strcmp fuel m imgname (lit p_kernel0);
  k1 ← strcmp fuel m imgname (lit p_kernel1);
  rd ← strcmp fuel m imgname (lit p_ramdisk);
  rc ← strcmp fuel m imgname (lit s_recovery);
  let base d := if membase =? NULL then d else membase in
  let load alternate d :=
    '(st, a) ← load_image fuel st imgname alternate (base d); Some (st, if a =? NULL then 0 else 1) in
  if (k0 =? 0) || (k1 =? 0) then load (if k0 =? 0 then lit p_kernel1 else lit p_kernel0) CONFIG_SYS_PHY_LK_BASE
  else if (rd =? 0) || (rc =? 0) then load (if rd =? 0 then lit s_recovery else NULL) CONFIG_SYS_PHY_RD_BASE
  else Some (st, 1).

(** ** With the environment *)

Context (console_assign : X -> mem -> Z -> Z -> X * Z) (switch_line : X -> Z -> option X) (default_environment : Z).
(** The parameters of [Cli]'s [run_command]; where [env] of [set_boot_type],
    [args] and [cmd] of [do_boot] and CONFIG_LINUX_DEFAULT_BOOTARGS are. *)
Context (cmdbuf finaltoken envname : Z) (table : list cmd_tbl_t) (do_bootd : Z).
Context (exec : cmd_tbl_t -> env_state X -> Z -> Z -> list Z -> option (env_state X * Z)).
Context (clear_ctrlc : X -> X) (had_ctrlc : X -> bool).
Context (s_env s_args s_cmd bootargs : Z).
Abbreviation run_command := (run_command default_environment cmdbuf finaltoken envname table do_bootd exec clear_ctrlc had_ctrlc).
Abbreviation setenv := (setenv console_assign switch_line default_environment).
Abbreviation getenv := (getenv default_environment).
Implicit Type y : system.

Definition env_of y : env_state X := with_ram (es y) (load (on y)).
Definition of_env y (e : env_state X) : system := System (set_mem (on y) (Env.ram e)) e.

(** [sprintf (dst, fmt, ...)] *)
Definition print_to (fuel : nat) (m : mem) (dst : Z) (fmt : list Z) (args : list Z) : option mem :=
  '(l, _, m) ← sprintf fuel fuel false fmt args m; Some (store m dst (l ++ [0])).

Definition set_boot_type (fuel : nat) (e : env_state X) (type : Z) : option (env_state X * Z) :=
  m ← print_to fuel (Env.ram e) s_env s_d [u32 type];
  '(e, _) ← setenv fuel (with_ram e m) (lit n_boottype) s_env;
  Some (e, type).

Definition got_boot_type (fuel : nat) (e : env_state X) : option Z :=
  s ← getenv fuel e (lit n_boottype);
  if negb (s =? NULL) then l ← chars_at fuel (Env.ram e) s; Some (s32 (simple_strtoul l 10).1) else Some 0.

(** The format of the arguments of the kernel. *)
Definition args_fmt (boottype : Z) : option (list Z) :=
  if boottype =? BOOT_NORMAL then Some (s_mem ++ s_serial)
  else if boottype =? BOOT_FACTORY_INIT then Some (s_mem ++ s_mode ++ s_recovery ++ [32] ++ s_serial)
  else if boottype =? BOOT_CHARGER then Some (s_mem ++ s_mode ++ s_charger ++ [32] ++ s_serial)
  else None.

(** Up to [run_command]. *)
Definition prepare (fuel : nat) (e : env_state X) (kernel ramdisk : Z) : option (env_state X) :=
  let m := memset (Env.ram e) s_args 0 1024 in
  '(m, mm) ← calc_dram_M lit items s_int fuel m;
  let e := with_ram e m in
  boottype ← got_boot_type fuel e;
  m ← match args_fmt boottype with
      | Some fmt => serial ← getenv fuel e (lit n_serialno); print_to fuel (Env.ram e) s_args fmt [bootargs; u32 mm; serial]
      | None => Some (Env.ram e)
      end;
  '(e, _) ← setenv fuel (with_ram e m) (lit n_bootargs) s_args;
  m ← print_to fuel (memset (Env.ram e) s_cmd 0 64) s_cmd s_bootm [kernel; ramdisk];
  Some (with_ram e m).

Definition do_boot (fuel : nat) (e : env_state X) (kernel ramdisk : Z) : option (env_state X * fate) :=
  e ← prepare fuel e kernel ramdisk;
  '(e, _) ← run_command fuel e s_cmd 0;
  Some (e, Halted).

(** The RAM disk, its second choice, the kernel, its second choice. *)
Definition system_images (boottype : Z) : Z * Z * Z * Z :=
  if (boottype =? BOOT_NORMAL) || (boottype =? BOOT_CHARGER)
  then (lit p_ramdisk, lit p_recovery_rd, lit p_kernel0, lit p_kernel1)
  else (lit p_recovery_rd, NULL, lit p_kernel1, lit p_kernel0).

Definition bootl (fuel : nat) y : option (system * fate) :=
  boottype ← got_boot_type fuel (env_of y);
  if boottype =? BOOT_HALT_SYSTEM then Some (y, Halted) else
  '(st, ok) ← open_system fuel (on y);
  if negb ok then Some (System st (es y), Ended (-1)) else
  let '(ramdisk, alternatedisk, kernel, alternatekernel) := system_images boottype in
  '(st, _) ← load_image fuel st (lit p_logo) NULL CONFIG_RESERVED_LOGO_BUFFER;
  '(st, ramdiskadd) ← load_image fuel st ramdisk alternatedisk CONFIG_SYS_PHY_RD_BASE;
  if ramdiskadd =? NULL then Some (System st (es y), Halted) else
  '(st, kerneladd) ← load_image fuel st kernel alternatekernel CONFIG_SYS_PHY_LK_BASE;
  if kerneladd =? NULL then Some (System st (es y), Halted) else
  let '(p, w, ret) := vs_assign_by_id dr CONFIG_ENABLE_UDISK (wd st) DEV_BND 1 in
  let st := Board w p (parts st) (tablecnt st) (lasttableaddr st) in
  st ← (if negb (ret =? 0) then Some st
        else '(w, _) ← vs_read (cur st) (wd st) CONFIG_RESERVED_UBOOT0_BUFFER 0 0x8000 0; Some (set_wd st w));
  let y := System st (es y) in
  '(e, r) ← do_boot fuel (env_of y) kerneladd ramdiskadd;
  Some (of_env y e, r).

End Bootl.

(** ** Images in front of the partitions *)

(** Where image [i] of the table begins. *)
Definition place (i : nat) : Z := match default_cfg !! i with Some e => e.1.2 * 2 ^ 20 | None => 0 end.

Lemma place_range i : (i < 10)%nat -> 2 ^ 21 <= place i < 2 ^ 27 /\ place i mod 2 ^ 20 = 0.
Proof.
  intros Hi. assert (forallb (fun i => (2 ^ 21 <=? place i) && (place i <? 2 ^ 27) && (place i mod 2 ^ 20 =? 0)) (seq 0 10) = true) as H
    by (vm_compute; reflexivity).
  rewrite forallb_forall in H. specialize (H i ltac:(apply in_seq; lia)). lia.
Qed.

Lemma place_aligned i k : (i < 10)%nat -> 0 <= k <= 20 -> place i mod 2 ^ k = 0.
Proof.
  intros Hi Hk. destruct (place_range i Hi) as [_ H]. apply Z.mod_divide in H; [|lia]. apply Z.mod_divide; [lia|].
  eapply Z.divide_trans; [|exact H]. exists (2 ^ (20 - k)). rewrite <- Z.pow_add_r by lia. f_equal. lia.
Qed.

Section Attempts.
Context {D : Type} (dr : drivers D) (CONFIG_ENABLE_UDISK : bool).
Context (lit : list Z -> Z) (items cfg : Z) (s_buf s_s s_int sp : Z) (sn : nat).
Context (cfg_mmu_table : world D -> world D).
Abbreviation board_mem := (board_mem lit items cfg).
Abbreviation placement := (placement lit items cfg s_buf s_s s_int sp sn).
Abbreviation off_tables := (off_tables lit items cfg).
Abbreviation storage_offset := (storage_offset dr CONFIG_ENABLE_UDISK lit items cfg s_buf s_s s_int).
Abbreviation load_once := (load_once dr CONFIG_ENABLE_UDISK lit items cfg s_buf s_s s_int cfg_mmu_table).
Abbreviation load_image := (load_image dr CONFIG_ENABLE_UDISK lit items cfg s_buf s_s s_int cfg_mmu_table).
Implicit Type st : board D.

Lemma spare_loop_found fuel l m p name i : board_mem l default_cfg m -> cstr_at m p name -> (12 < fuel)%nat ->
  names_of default_cfg !! i = Some name ->
  forall n index, (index <= i < index + n)%nat -> (index + n <= 10)%nat -> spare_offset_loop cfg n fuel (Z.of_nat index) m p = Some (place i).
Proof.
  intros [Hm _ _ Hc] Hp Hf Hi. induction n as [|n IH]; intros index Hx H10; [lia|]. cbn [spare_offset_loop].
  destruct (lookup_lt_is_Some_2 default_cfg index) as [e E]; [change (length default_cfg) with 17%nat; lia|]. destruct (Hc _ _ E) as [Hs Hs12 Ho _].
  destruct (strcmp_correct fuel m _ p _ name Hm Hs Hp ltac:(lia)) as (r & -> & Hr & _). cbn [mbind option_bind].
  assert (names_of default_cfg !! index = Some e.1.1) as En by (unfold names_of; by rewrite list_lookup_fmap, E).
  destruct (decide (index = i)) as [->|Hne].
  - rewrite (proj2 (Z.eqb_eq r 0)) by (apply Hr; congruence). rewrite Ho, Z.shiftl_mul_pow2 by lia.
    destruct (place_range i ltac:(lia)) as [Hp' _]. unfold place in *. rewrite E in *. by rewrite s32_small by lia.
  - rewrite (proj2 (Z.eqb_neq r 0)).
    + replace (Z.of_nat index + 1) with (Z.of_nat (S index)) by lia. apply IH; lia.
    + intros Er. apply Hr in Er. subst name. apply Hne. exact (NoDup_lookup _ _ _ _ default_names En Hi).
Qed.

Lemma storage_offset_image fuel st l p name i : placement l default_cfg -> board_mem l default_cfg (load st) -> (length l + 64 < fuel)%nat ->
  6 <= disk_of l <= 10 -> names_of default_cfg !! i = Some name -> (i < 10)%nat ->
  cstr_at (load st) p name -> p <> NULL -> clear_of sp sn p (Z.of_nat (length name) + 1) ->
  exists m', storage_offset fuel st p = Some (set_mem st m', place i) /\ same_except (load st) m' sp sn /\ mem_ok m'.
Proof.
  intros P B Hf Hd Hi Hi10 Hp Hp0 Hc.
  destruct (storage_device_spec lit items cfg s_buf s_s s_int sp sn fuel l default_cfg (load st) P B Hf) as (m' & E & Hs & Hm').
  assert (same_except (load st) m' sp sn) as Hs' by (eapply (same_inside sp sn _ _ s_buf 64); [|exact Hs]; by destruct P).
  exists m'. split; [|done]. unfold Storage.storage_offset. rewrite (proj2 (Z.eqb_neq p NULL)) by done.
  unfold device. rewrite E. cbn [mbind option_bind]. rewrite (proj2 (Z.eqb_neq _ DEV_NAND)) by (unfold DEV_NAND; lia).
  rewrite (proj2 (Z.leb_le 6 _)), (proj2 (Z.leb_le _ 10)) by lia. cbn [andb]. change (load (set_mem st m')) with m'.
  assert (board_mem l default_cfg m') as B' by (eapply board_mem_same; [exact P|done|exact Hs'|exact B]).
  assert (cstr_at m' p name) as Hp' by (eapply cstr_clear; [exact Hc|exact Hs'|exact Hp]).
  pose proof (spare_loop_found fuel l m' p name i B' Hp' ltac:(lia) Hi 10 0 ltac:(lia) ltac:(lia)) as E2.
  change (Z.of_nat 0) with 0 in E2. change (Z.to_nat INFO_SPARE_IMAGES) with 10%nat. rewrite E2.
  cbn [mbind option_bind]. destruct (place_range i Hi10). by rewrite (proj2 (Z.eqb_neq _ 0)) by lia.
Qed.

Context (fuel : nat) (l : list Items.item) (pv : vstorage D) (rambase : Z).
Hypothesis P : placement l default_cfg.
Hypothesis Hdisk : 6 <= disk_of l <= 10.
Hypothesis Hf : (length l + 64 < fuel)%nat.

(** The disk is current, and the tables are there. *)
Record standing st : Prop := {
  sd_cur : cur st = Some pv;
  sd_mem : board_mem l default_cfg (load st);
  sd_logo : cstr_at (load st) (lit p_logo) p_logo
}.

(** The name of image [i], not the logo, at [p]. *)
Record image_name (m : mem) (p : Z) (i : nat) (name : list Z) : Prop := {
  in_name : names_of default_cfg !! i = Some name;
  in_image : (i < 10)%nat /\ i <> 3%nat;
  in_at : cstr_at m p name;
  in_null : p <> NULL;
  in_stack : clear_of sp sn p (Z.of_nat (length name) + 1);
  in_buffer : p + Z.of_nat (length name) + 1 <= rambase \/ rambase + 0x1000 <= p
}.

(** The header can be read to [rambase], the image 0x6000000 above. *)
Record buffer_ok : Prop := {
  bo_range : 0 < rambase /\ rambase + 0x6000000 < 2 ^ 32;
  bo_tables : off_tables l default_cfg rambase 0x1000;
  bo_literal : rambase + 0x1000 <= lit p_logo \/ lit p_logo + Z.of_nat (length p_logo) + 1 <= rambase;
  bo_logo : clear_of sp sn (lit p_logo) (Z.of_nat (length p_logo) + 1)
}.
Hypothesis Hb : buffer_ok.

(** Up to the first read: the place is known, only the stack has changed. *)
Lemma attempt_begins st p i name : standing st -> image_name (load st) p i name ->
  exists m1 r, storage_offset fuel st p = Some (set_mem st m1, place i) /\ strcmp fuel m1 (lit p_logo) p = Some r /\ r <> 0 /\
    standing (set_mem st m1) /\ same_except (load st) m1 sp sn /\
    (forall q j name', image_name (load st) q j name' -> image_name m1 q j name').
Proof.
  intros [R1 R2 R3] [N1 [N2 N3] N4 N5 N6 N7]. destruct Hb as [B1 B2 B3 B4].
  destruct (storage_offset_image fuel st l p name i P R2 Hf Hdisk N1 N2 N4 N5 N6) as (m1 & E1 & Hs1 & Hm1).
  assert (cstr_at m1 (lit p_logo) p_logo) as Hlogo by (eapply cstr_clear; [exact B4|exact Hs1|exact R3]).
  destruct (strcmp_correct fuel m1 (lit p_logo) p p_logo name Hm1 Hlogo ltac:(by eapply cstr_clear) ltac:(cbn; lia)) as (r & Er & Hr & _).
  exists m1, r. split_and!; [exact E1|exact Er| | |exact Hs1|].
  - intros E. apply Hr in E. subst name. apply N3. assert (names_of default_cfg !! 3%nat = Some p_logo) as E3 by reflexivity.
    exact (NoDup_lookup _ _ _ _ default_names N1 E3).
  - split; [exact R1| |exact Hlogo]. by eapply (board_mem_same lit items cfg s_buf s_s s_int sp sn); [exact P| |exact Hs1|].
  - intros q j name' [M1 M2 M3 M4 M5 M6]. split; try done. eapply cstr_clear; [exact M5|exact Hs1|exact M3].
Qed.

(** The header that is read to [rambase] is in nobody's way. *)
Lemma header_read st w : standing st -> mem_ok (ram w) -> same_except (load st) (ram w) rambase (Z.to_nat 0x1000) ->
  standing (set_wd st w) /\ forall q j name, image_name (load st) q j name -> image_name (ram w) q j name.
Proof.
  intros [R1 R2 R3] Hm Hs. destruct Hb as [B1 B2 B3 B4]. split.
  - split; [exact R1| |].
    + eapply (board_mem_off lit items cfg l default_cfg (load st) _ rambase (Z.to_nat 0x1000)); try done; by destruct P as [ [? _] ].
    + eapply cstr_at_ext; [|exact R3]. eapply same_except_on; [exact Hs|]. cbn [length p_logo] in *. lia.
  - intros q j name' [M1 M2 M3 M4 M5 M6]. split; try done. eapply cstr_at_ext; [|exact M3].
    eapply same_except_on; [exact Hs|]. rewrite Z2Nat.id by lia. lia.
Qed.

(** *** A driver that reports less than it reads *)

(** The driver of the disk, with its [align]; 4 KiB are read to the buffer
    only, but a smaller number is reported. *)
Context (rd : io_fn D) (k : Z).
Hypothesis He : entry_of rd k pv.
Hypothesis Hk : 0 <= k <= 12.
Hypothesis short : forall w i, mem_ok (ram w) -> (i < 10)%nat -> exists w' r, rd w rambase (place i) 0x1000 0 = (w', r) /\ 0 <= r < 0x1000 /\
  mem_ok (ram w') /\ same_except (ram w) (ram w') rambase (Z.to_nat 0x1000).

(** Nothing is in the way of such a read. *)
Lemma vs_read_header w i : (i < 10)%nat ->
  vs_read dr CONFIG_ENABLE_UDISK (Some pv) w rambase (place i) 0x1000 0 =
  (let '(w', r) := rd w rambase (place i) 0x1000 0 in Some (w', if r <? 0 then r else s32 r)).
Proof.
  intros Hi. destruct (place_range i Hi) as [Hp _]. destruct He as [Hr Ha Hn]. destruct (Ha w) as (al & Eal & Ew).
  assert (0 < 2 ^ k <= 2 ^ 12) as Hpk by (split; [|apply Z.pow_le_mono_r]; lia).
  assert (0x1000 mod 2 ^ k = 0) as H12.
  { apply Z.mod_divide; [lia|]. exists (2 ^ (12 - k)). rewrite <- Z.pow_add_r by lia. by replace (12 - k + k) with 12 by lia. }
  assert (forall x, Z.land x (2 ^ k - 1) = x mod 2 ^ k) as Hland
    by (intros x; replace (2 ^ k - 1) with (Z.ones k) by (rewrite Z.ones_equiv; lia); apply Z.land_ones; lia).
  unfold vs_read. rewrite Hr, Hn. change (0x1000 =? 0) with false. cbv iota. unfold vs_align.
  change (id_valid dr CONFIG_ENABLE_UDISK DEV_CURRENT) with false. cbv iota. rewrite Z.eqb_refl, Eal, Ew, (u32_small (2 ^ k)) by lia.
  assert ((if strncmp_eq (name pv) n_nnd 3 then s32 (Z.land (u32 (0x1000 + u32 (2 ^ k - 1))) (u32 (Z.lnot (u32 (2 ^ k - 1))))) else 0x1000) = 0x1000) as ->.
  { destruct (strncmp_eq (name pv) n_nnd 3); [|done]. rewrite align_mask; [|lia|apply u32_range]. rewrite (u32_small (2 ^ k - 1)), u32_small by lia.
    rewrite <- (Z.add_mod_idemp_l 0x1000), H12, Z.add_0_l, (Z.mod_small (2 ^ k - 1)) by lia. rewrite s32_small; lia. }
  unfold vs_read_split. rewrite (u32_small (2 ^ k - 1)) by lia. rewrite !Hland, (place_aligned i k Hi) by lia.
  change (u32 0) with 0. cbn [Z.eqb]. change (u32 (0x1000 - 0)) with 0x1000. rewrite H12. cbn [Z.eqb andb negb].
  change (s32 (s32 (0x1000 - 0) - 0)) with 0x1000. rewrite !Z.add_0_r, (s64_small (place i)) by lia.
  cbn [first_block middle_blocks Z.eqb]. destruct (rd w rambase (place i) 0x1000 0) as [w' r].
  destruct (r <? 0); cbn [last_block Z.eqb]; [done|]. by rewrite Z.add_0_l.
Qed.

(** An attempt fails, and leaves everything for another. *)
Lemma load_once_short st p i name : standing st -> image_name (load st) p i name ->
  exists st', load_once fuel st p rambase = Some (st', None) /\ standing st' /\
    forall q j name', image_name (load st) q j name' -> image_name (load st') q j name'.
Proof.
  intros R N. destruct (attempt_begins st p i name R N) as (m1 & r & E1 & Er & Hr & R1 & _ & Hn1). pose proof (in_image _ _ _ _ N) as [Hi _].
  destruct (short (wd (set_mem st m1)) i ltac:(by destruct R1 as [_ [Hm _ _ _] _]) Hi) as (w2 & r2 & E2 & Hr2 & Hm2 & Hs2).
  destruct (header_read (set_mem st m1) w2 R1 Hm2 Hs2) as [R2 Hn2]. exists (set_wd (set_mem st m1) w2). split; [|split; [exact R2|] ].
  - unfold Bootl.load_once. rewrite E1. cbn [mbind option_bind]. change (load (set_mem st m1)) with m1. rewrite Er. cbn [mbind option_bind].
    rewrite (proj2 (Z.eqb_neq r 0)) by done. rewrite (sd_cur _ R1), vs_read_header, E2 by done. cbn [mbind option_bind].
    rewrite (proj2 (Z.ltb_ge r2 0)), s32_small, (proj2 (Z.ltb_lt r2 _)) by lia. done.
  - intros q j name' H'. apply Hn2. by apply Hn1.
Qed.

Lemma load_image_short st p i name q alt : standing st -> image_name (load st) p i name ->
  match alt with None => q = NULL | Some (j, name') => image_name (load st) q j name' end ->
  exists st', load_image fuel st p q rambase = Some (st', NULL) /\ standing st'.
Proof.
  intros R N Ha. destruct (load_once_short st p i name R N) as (st1 & E1 & R1 & Hn). unfold Bootl.load_image. rewrite E1. cbn [mbind option_bind].
  destruct alt as [ [j name']|]; [|subst q; by exists st1].
  rewrite (proj2 (Z.eqb_neq q NULL)) by exact (in_null _ _ _ _ Ha).
  destruct (load_once_short st1 q j name' R1 (Hn _ _ _ Ha)) as (st2 & E2 & R2 & _). rewrite E2. cbn [mbind option_bind]. by exists st2.
Qed.
End Attempts.

(** *** An MMC board *)

Section Card_board.
Context {D : Type} (dr : drivers D) (CONFIG_ENABLE_UDISK : bool).
Context (lit : list Z -> Z) (items cfg : Z) (s_buf s_s s_int sp : Z) (sn : nat) (cfg_mmu_table : world D -> world D).
Context (send_cmd : mmc -> mmc_cmd -> option mmc_data -> world D -> option (world D * Z * Z)) (card : world D -> mem).
Context (mmc_devices : list mmc) (c : Z) (m : mmc) `{!Card send_cmd card m}.

(** The card of slot [c] is initialised, and its three functions in
    [vs_list] are those of mmc.c. *)
Record card_slot : Prop := {
  cs_slot : 0 <= c <= 2;
  cs_device : find_mmc_device mmc_devices c = Some m;
  cs_block : read_bl_len m = 512 /\ blksz m = 512;
  cs_pieces : 0 < b_max m < 2 ^ 31;
  cs_read w buf start length x : exists n,
    mmc_vs_read send_cmd mmc_devices n c w buf start length x = Some (vs_read_of dr (d_mmc c) w buf start length x);
  cs_align w : vs_align_of dr (d_mmc c) w = (w, mmc_blksz mmc_devices c)
}.
Hypothesis S : card_slot.

Lemma card_reads w buf start : 0 <= start < 2 ^ 40 -> start mod 512 = 0 ->
  exists w' r, vs_read_of dr (d_mmc c) w buf start 0x1000 0 = (w', r) /\ moved card w w' buf 0x1000 /\ 0 <= r <= 64.
Proof.
  intros Hs Hm. destruct S as [_ Hfind [Hl _] Hb Hrd _]. destruct (Hrd w buf start 0x1000 0) as [n En].
  destruct (mmc_reports_short send_cmd card m Hl mmc_devices c (Nat.max n 8) w buf start 0) as (w' & r & E & M & Hr); [done|done|lia|done|done|].
  rewrite (mmc_vs_read_mono send_cmd m mmc_devices c n (Nat.max n 8) _ _ _ _ _ _ Hfind ltac:(lia) En) in E. injection E as E. by exists w', r.
Qed.

Lemma card_entry : exists pv, entry dr CONFIG_ENABLE_UDISK (DEV_MMC c) = Some pv /\ entry_of (vs_read_of dr (d_mmc c)) 9 pv.
Proof.
  destruct S as [Hc Hfind [_ Hbs] _ _ Ha]. assert (mmc_blksz mmc_devices c = 2 ^ 9) as Eb by (unfold mmc_blksz; by rewrite Hfind, Hbs).
  assert (c = 0 \/ c = 1 \/ c = 2) as H by lia.
  destruct H as [H|[H|H] ]; rewrite H in Ha, Eb |- *; (eexists; split; [reflexivity|]; split; [reflexivity| |reflexivity]);
    (intros w; eexists; split; [reflexivity|]; cbv beta; by rewrite Ha, Eb).
Qed.

(** C35: on a board with an initialised card, of blocks of 512 bytes, that
    answers every command, [load_image] never finds an image, good or not, in
    either place (the logo apart, whose read is not checked):
    [mmcN_vs_read] reports the square of the number of blocks, 64 for the 4096
    bytes of the header, which is taken for a failed read.  (Names and tables
  are not in the 4096 bytes the header is read to.) *)
Theorem mmc_loads_nothing fuel l st rambase p i name q alt :
  placement lit items cfg s_buf s_s s_int sp sn l default_cfg -> disk_of l = DEV_MMC c -> (length l + 64 < fuel)%nat ->
  buffer_ok lit items cfg sp sn l rambase ->
  cur st = entry dr CONFIG_ENABLE_UDISK (DEV_MMC c) -> board_mem lit items cfg l default_cfg (load st) -> cstr_at (load st) (lit p_logo) p_logo ->
  image_name sp sn rambase (load st) p i name ->
  match alt with None => q = NULL | Some (j, name') => image_name sp sn rambase (load st) q j name' end ->
  exists st', load_image dr CONFIG_ENABLE_UDISK lit items cfg s_buf s_s s_int cfg_mmu_table fuel st p q rambase = Some (st', NULL).
Proof.
  intros P Hd Hf Hb Hcur Hm Hlogo N Ha. destruct card_entry as (pv & Ee & He). rewrite Ee in Hcur.
  destruct (load_image_short dr CONFIG_ENABLE_UDISK lit items cfg s_buf s_s s_int sp sn cfg_mmu_table fuel l pv rambase P
    ltac:(rewrite Hd; destruct S; unfold DEV_MMC; lia) Hf Hb (vs_read_of dr (d_mmc c)) 9 He ltac:(lia)) with (st := st) (p := p) (i := i) (name := name)
    (q := q) (alt := alt) as (st' & E & _); try done; [|by exists st'].
  intros w i' Hok Hi'. destruct (place_range i' Hi') as [Hp _].
  destruct (card_reads w rambase (place i') ltac:(lia) ltac:(apply (place_aligned i' 9 Hi'); lia)) as (w' & r & E & [Mr Mo _] & Hr).
  exists w', r. split_and!; [done|lia|lia|by apply Mo|done].
Qed.
End Card_board.

(** *** A driver that reports what it was asked for *)

Section On_disk.
Context {D : Type} (dr : drivers D) (CONFIG_ENABLE_UDISK : bool) (rd : io_fn D) (disk : world D -> mem).
Context (apart : Z -> Z -> Prop) (k lo hi h hn : Z).
Context `{BD : !BlockDevice rd disk apart k lo hi} `{HP : !Heap dr h hn}.
Context (lit : list Z -> Z) (items cfg : Z) (s_buf s_info s_pname s_s s_int sp : Z) (sn : nat).
Context (cfg_mmu_table : world D -> world D).
Abbreviation board_mem := (board_mem lit items cfg).
Abbreviation storage_offset := (storage_offset dr CONFIG_ENABLE_UDISK lit items cfg s_buf s_s s_int).
Abbreviation on_disk := (on_disk dr CONFIG_ENABLE_UDISK rd disk apart k lo hi h hn lit items cfg s_buf s_s s_int sp sn).
Abbreviation load_once := (load_once dr CONFIG_ENABLE_UDISK lit items cfg s_buf s_s s_int cfg_mmu_table).
Abbreviation load_image := (load_image dr CONFIG_ENABLE_UDISK lit items cfg s_buf s_s s_int cfg_mmu_table).
Implicit Type st : board D.

(** Such a disk is not "nnd", whose requests are rounded up. *)
Lemma disk_name l pv cap : on_disk l pv cap -> 6 <= disk_of l <= 10 -> strncmp_eq (name pv) n_nnd 3 = false.
Proof.
  intros [_ [_ He _ _ _ _] _ _] Hd. unfold entry, vs_list in He.
  assert (disk_of l = 6 \/ disk_of l = 7 \/ disk_of l = 8 \/ disk_of l = 9 \/ disk_of l = 10) as H by lia.
  destruct H as [H|[H|[H|[H|H] ] ] ]; rewrite H in He; destruct CONFIG_ENABLE_UDISK; cbn in He; injection He as <-; reflexivity.
Qed.

(** What the driver says of whole blocks: that it read them. *)
Context (full : forall w buf start len extra, 0 < len < 2 ^ 31 -> len mod 2 ^ k = 0 -> (rd w buf start len extra).2 = len).

Lemma whole_blocks n b : 0 < b -> (n - n mod b) mod b = 0.
Proof. intros Hb. rewrite Zminus_mod_idemp_r, Z.sub_diag. apply Z.mod_0_l. lia. Qed.

(** [vs_read] then reports no less than what was asked for: a block of which
    only a part is copied counts as a whole. *)
Lemma vs_read_count pv w buf start len w' r : entry_of rd k pv -> strncmp_eq (name pv) n_nnd 3 = false ->
  start mod 2 ^ k = 0 -> 0 < len -> len + 2 * 2 ^ k < 2 ^ 31 ->
  vs_read dr CONFIG_ENABLE_UDISK (Some pv) w buf start len 0 = Some (w', r) -> len <= r < 2 ^ 31.
Proof.
  intros He Hn Hs Hl Hmax H. pose proof bd_align as Hk. pose proof (pow_k rd disk apart k lo hi) as Hpk.
  rewrite (vs_read_eq dr rd disk apart k lo hi pv CONFIG_ENABLE_UDISK w buf start len 0 He Hl Hmax) in H.
  unfold eff_len in H. rewrite Hn in H. unfold vs_read_split in H. rewrite (u32_small (2 ^ k - 1)) in H by lia.
  assert (forall x, Z.land x (2 ^ k - 1) = x mod 2 ^ k) as Hland
    by (intros x; replace (2 ^ k - 1) with (Z.ones k) by (rewrite Z.ones_equiv; lia); apply Z.land_ones; lia).
  rewrite !Hland, Hs in H. change (u32 0) with 0 in H. cbn [Z.eqb andb] in H. rewrite Z.sub_0_r, (u32_small len) in H by lia.
  pose proof (Z.mod_pos_bound len (2 ^ k)) as Hmod. pose proof (Z.mod_le len (2 ^ k)) as Hmle.
  rewrite (s32_small len), (s32_small (len - len mod 2 ^ k)) in H by lia.
  destruct (if negb (len mod 2 ^ k =? 0) then malloc dr w (2 ^ k) else (w, NULL)) as [w0 tmp].
  destruct (_ && _) in H; [done|]. cbn [first_block middle_blocks last_block Z.eqb] in H.
  assert (exists w2, middle_blocks rd (Next w0 0) (buf + 0) (s64 (start + 0)) (len - len mod 2 ^ k) 0 = Next w2 (len - len mod 2 ^ k)) as [w2 E2].
  { cbn [middle_blocks]. destruct (Z.eqb_spec (len - len mod 2 ^ k) 0) as [->|H0]; [by exists w0|].
    specialize (full w0 (buf + 0) (s64 (start + 0)) (len - len mod 2 ^ k) 0 ltac:(lia) (whole_blocks len (2 ^ k) ltac:(lia))).
    destruct (rd w0 _ _ _ _) as [w2 r2]. cbn in full. subst r2. rewrite (proj2 (Z.ltb_ge _ 0)) by lia. exists w2. f_equal. rewrite s32_small; lia. }
  cbn [middle_blocks] in E2. rewrite E2 in H. cbn [last_block] in H. destruct (Z.eqb_spec (len mod 2 ^ k) 0) as [H0|H0].
  - injection H as _ <-. lia.
  - rewrite (s32_small (2 ^ k)) in H by lia. specialize (full w2 tmp (s64 (s64 (start + 0) + (len - len mod 2 ^ k))) (2 ^ k) 0 ltac:(lia) ltac:(by apply Z_mod_same_full)).
    destruct (rd w2 _ _ _ _) as [w3 r3]. cbn in full. subst r3. rewrite (proj2 (Z.ltb_ge _ 0)) in H by lia.
    injection H as _ <-. rewrite s32_small; lia.
Qed.

(** Where the image at [o] of the disk [d] is put. *)
Definition destination (d : mem) (o rambase : Z) : Z :=
  if image_get_comp (header d o) =? 1 then rambase + 0x6000000 else rambase.
Definition whole (d : mem) (o : Z) : Z := image_get_size (header d o) + header_size.

Section Images.
Context (fuel : nat) (l : list Items.item) (pv : vstorage D) (cap : Z) (d : mem) (rambase : Z).
Hypothesis OD : on_disk l pv cap.
Hypothesis Hdisk : 6 <= disk_of l <= 10.
Hypothesis Hk : k <= 12.
Hypothesis Hf : (length l + 64 < fuel)%nat.
Hypothesis Hd : forall x, lo <= x < hi -> is_byte (d x).
(** Page tables are not on the disk. *)
Hypothesis Hmmu : forall w x, lo <= x < hi -> disk (cfg_mmu_table w) x = disk w x.
Abbreviation standing := (standing lit items cfg l pv).
Abbreviation image_name := (image_name sp sn rambase).

(** The disk is current and has the contents [d]. *)
Record ready st : Prop := {
  rd_standing : standing st;
  rd_disk x : lo <= x < hi -> disk (wd st) x = d x
}.

(** Room for its header, and for all of it if that is right. *)
Record image_room (i : nat) : Prop := {
  ir_lo : lo <= place i;
  ir_header : place i + 0x1000 <= hi;
  ir_size : image_check_hcrc d (place i) = true -> whole d (place i) + 2 * 2 ^ k < 2 ^ 31 /\ place i + whole d (place i) + 2 ^ k <= hi;
  ir_apart : image_check_hcrc d (place i) = true -> apart (destination d (place i) rambase) (whole d (place i)) /\
    (destination d (place i) rambase + whole d (place i) <= h \/ h + hn <= destination d (place i) rambase)
}.

Hypothesis Hb : buffer_ok lit items cfg sp sn l rambase.
Hypothesis Hap : apart rambase 0x1000.

(** The header of the image arrives, and nothing is disturbed. *)
Lemma read_header st p i name : ready st -> image_name (load st) p i name -> image_room i ->
  exists st1 r w2, storage_offset fuel st p = Some (st1, place i) /\ strcmp fuel (load st1) (lit p_logo) p = Some r /\ r <> 0 /\
    vs_read dr CONFIG_ENABLE_UDISK (cur st1) (wd st1) rambase (place i) 0x1000 0 = Some (w2, 0x1000) /\
    ready (set_wd st1 w2) /\ bytes_at (ram w2) rambase (Z.to_nat 0x1000) = bytes_at d (place i) (Z.to_nat 0x1000) /\
    (forall q j name', image_name (load st) q j name' -> image_name (load (set_wd st1 w2)) q j name').
Proof.
  intros [R1 R3] N [I1 I2 _ _]. pose proof (in_image _ _ _ _ _ _ _ N) as [N2 _].
  pose proof OD as [P De _ [Ha _] ]. pose proof bd_align as Hk0.
  destruct (attempt_begins dr CONFIG_ENABLE_UDISK lit items cfg s_buf s_s s_int sp sn fuel l pv rambase P Hdisk Hf Hb st p i name R1 N)
    as (m1 & r & E1 & Er & Hr & Rm & Hs1 & Hn1).
  set (st1 := set_mem st m1) in *. exists st1.
  assert (forall x, lo <= x < hi -> disk (wd st1) x = d x) as Hd1.
  { intros x Hx. rewrite <- R3 by done. unfold st1. cbn. eapply bd_frame; [exact Ha|by rewrite Nat2Z.id|done|done]. }
  destruct (place_range i N2) as [Hpl _]. assert (2 ^ k <= 2 ^ 12) by (apply Z.pow_le_mono_r; lia).
  assert (0x1000 mod 2 ^ k = 0) as H12.
  { apply Z.mod_divide; [lia|]. exists (2 ^ (12 - k)). rewrite <- Z.pow_add_r by lia. by replace (12 - k + k) with 12 by lia. }
  destruct (aligned_read dr CONFIG_ENABLE_UDISK rd disk apart k lo hi pv (wd st1) rambase (place i) 0x1000) as (w2 & r2 & E2 & Er2 & Hb2 & Hs2 & Hd2);
    [exact (de_read _ _ _ _ _ _ _ _ _ _ De)|by apply place_aligned|done|lia|lia|lia|exact I1|exact I2|exact Hap|].
  rewrite full in Er2 by (done || lia). subst r2. exists r, w2.
  assert (bytes_at (ram w2) rambase (Z.to_nat 0x1000) = bytes_at d (place i) (Z.to_nat 0x1000)) as Hbytes.
  { rewrite Hb2. apply bytes_at_ext. intros x Hx. apply Hd1. lia. }
  pose proof (sd_mem _ _ _ _ _ _ Rm) as [Hm1 _ _ _]. change (load st1) with m1 in Hm1.
  assert (mem_ok (ram w2)) as Hm2.
  { intros q. destruct (decide (rambase <= q < rambase + 0x1000)) as [Hq|Hq]; [|rewrite (Hs2 q) by lia; apply Hm1].
    apply (f_equal (fun b => b !! Z.to_nat (q - rambase))) in Hbytes. rewrite !bytes_at_lookup in Hbytes by lia.
    rewrite Z2Nat.id in Hbytes by lia. replace (rambase + (q - rambase)) with q in Hbytes by lia. injection Hbytes as ->. apply Hd. lia. }
  destruct (header_read lit items cfg s_buf s_s s_int sp sn fuel l pv rambase P Hf Hb st1 w2 Rm Hm2 Hs2) as [R2 Hn2].
  split_and!; [exact E1|exact Er|exact Hr| | |exact Hbytes|].
  - rewrite (sd_cur _ _ _ _ _ _ Rm). exact E2.
  - split; [exact R2|]. intros x Hx. cbn. rewrite Hd2 by done. by apply Hd1.
  - intros q j name' H'. apply Hn2. by apply Hn1.
Qed.

(** One attempt gives the whole image, or leaves everything for another. *)
Lemma load_once_spec st p i name : ready st -> image_name (load st) p i name -> image_room i ->
  exists st', load_once fuel st p rambase = Some (st', if image_check_hcrc d (place i) then Some (destination d (place i) rambase) else None) /\
    if image_check_hcrc d (place i)
    then bytes_at (load st') (destination d (place i) rambase) (Z.to_nat (whole d (place i))) = bytes_at d (place i) (Z.to_nat (whole d (place i)))
    else ready st' /\ forall q j name', image_name (load st) q j name' -> image_name (load st') q j name'.
Proof.
  intros R N I. destruct (read_header st p i name R N I) as (st1 & r & w2 & E1 & Er & Hr & E2 & R2 & Hbytes & Hn).
  pose proof I as [I1 I2 I3 I4]. destruct (in_image _ _ _ _ _ _ _ N) as [N2 _]. destruct (place_range i N2) as [Hpl _].
  assert (forall n, (n <= 64)%nat -> bytes_at (ram w2) rambase n = bytes_at d (place i) n) as Hpre.
  { intros n Hn64. apply (f_equal (take n)) in Hbytes. by rewrite !take_bytes_at in Hbytes by lia. }
  clear Hbytes.
  assert (header (ram w2) rambase = header d (place i)) as Eh by (unfold header; apply Hpre; change (Z.to_nat header_size) with 64%nat; lia).
  assert (image_check_hcrc (ram w2) rambase = image_check_hcrc d (place i)) as Ec by (unfold image_check_hcrc; by rewrite Eh).
  unfold Bootl.load_once. rewrite E1. cbn [mbind option_bind]. rewrite Er. cbn [mbind option_bind].
  rewrite (proj2 (Z.eqb_neq r 0)) by done. rewrite E2. cbn [mbind option_bind Z.ltb Z.compare Pos.compare Pos.compare_cont].
  change (0x1000 <? 0x1000) with false. cbv iota. change (load (set_wd st1 w2)) with (ram w2). rewrite Ec, Eh.
  destruct (image_check_hcrc d (place i)) eqn:Eg; cbn [negb]; [|eexists; by split].
  destruct (I3 eq_refl) as [Hz Hhi]. destruct (I4 eq_refl) as [Haw Hheap]. unfold whole, destination in *.
  set (len := image_get_size (header d (place i)) + header_size) in *.
  assert (0 <= image_get_size (header d (place i)) < 2 ^ 32) as Hsz.
  { rewrite <- Eh. apply size_u32. destruct R2 as [ [_ [Hm _ _ _] _] _]. exact Hm. }
  set (c := image_get_comp (header d (place i)) =? 1) in *.
  destruct (if c then (_, _) else (_, _)) as [st3 dst] eqn:E3.
  assert (dst = if c then rambase + 0x6000000 else rambase) as ->.
  { destruct Hb as [ [? ?] _ _ _]. destruct c; injection E3 as <- <-; [apply u32_small; lia|done]. }
  assert (cur st3 = Some pv /\ forall x, lo <= x < hi -> disk (wd st3) x = d x) as [Ecur Hd3].
  { destruct R2 as [ [Rc _ _] Rd]. destruct c; injection E3 as <-; (split; [exact Rc|]); intros x Hx; [|by apply Rd].
    cbn [wd set_wd]. rewrite Hmmu by done. by apply Rd. }
  pose proof OD as [_ De _ _]. pose proof bd_align as Hk0. pose proof (pow_k rd disk apart k lo hi) as Hpk.
  pose proof (de_read _ _ _ _ _ _ _ _ _ _ De) as He. pose proof (disk_name l pv cap OD Hdisk) as Hnm.
  pose proof (place_aligned i k N2 Hk0) as Hal. assert (head_len k (place i) = 0) as Hh by (unfold head_len; by rewrite Hal).
  assert (eff_len k pv len = len) as Hel by (unfold eff_len; by rewrite Hnm).
  unfold header_size in len. assert (64 <= len) by (unfold len; lia).
  rewrite Ecur, (s32_small len) by lia.
  assert (request apart k lo hi h hn (if c then rambase + 0x6000000 else rambase) (place i) len) as Hreq.
  { split; try rewrite Hh; try done; try lia. unfold body_len, tail_len. rewrite Hh, Z.sub_0_r.
    pose proof (Z.mod_pos_bound len (2 ^ k)). destruct (_ =? 0); lia. }
  destruct (vs_read_serves dr rd disk apart k lo hi h hn (proj2 (od_apart _ _ _ _ _ _ _ _ _ _ _ _ _ _ _ _ _ _ _ _ _ OD)) pv CONFIG_ENABLE_UDISK (wd st3)
    (if c then rambase + 0x6000000 else rambase) (place i) len 0 He ltac:(lia)) as (w4 & r4 & E4 & _ & Hb4 & _); [by rewrite Hel|].
  rewrite Hel, (head_and_rest rd disk apart k lo hi h hn _ _ _ _ Hreq) in Hb4 by (by left). rewrite length_bytes_at in Hb4.
  rewrite E4. cbn [mbind option_bind].
  assert (len <= r4 < 2 ^ 31) as Hr4 by (eapply vs_read_count; [exact He|exact Hnm|exact Hal|lia|lia|exact E4]).
  rewrite (proj2 (Z.ltb_ge (u32 r4) _)) by (rewrite !u32_small by lia; lia). eexists. split; [reflexivity|].
  unfold load. cbn [wd set_wd]. rewrite Hb4. apply bytes_at_ext. intros x Hx. apply Hd3. lia.
Qed.

(** The places that are tried. *)
Definition tried (i : nat) (alt : option (nat * list Z)) : list Z :=
  place i :: match alt with Some (j, _) => [place j] | None => [] end.
Definition chosen (ps : list Z) : option Z := List.find (image_check_hcrc d) ps.

Lemma load_image_first st p i name q alt :
  ready st -> image_name (load st) p i name -> image_room i ->
  match alt with None => q = NULL | Some (j, name') => image_name (load st) q j name' /\ image_room j end ->
  exists st', load_image fuel st p q rambase =
      Some (st', match chosen (tried i alt) with Some o => destination d o rambase | None => NULL end) /\
    forall o, chosen (tried i alt) = Some o ->
      bytes_at (load st') (destination d o rambase) (Z.to_nat (whole d o)) = bytes_at d o (Z.to_nat (whole d o)).
Proof.
  intros R N I Ha. destruct (load_once_spec st p i name R N I) as (st1 & E1 & H1).
  unfold Bootl.load_image, chosen, tried. rewrite E1. cbn [mbind option_bind List.find].
  destruct (image_check_hcrc d (place i)); [by exists st1; split; [|intros o [= <-] ]|].
  destruct H1 as [R1 Hn]. destruct alt as [ [j name']|].
  - destruct Ha as [Nj Ij]. pose proof (in_null _ _ _ _ _ _ _ Nj) as Hq. rewrite (proj2 (Z.eqb_neq q NULL)) by done.
    destruct (load_once_spec st1 q j name' R1 (Hn _ _ _ Nj) Ij) as (st2 & E2 & H2). rewrite E2. cbn [mbind option_bind List.find].
    exists st2. destruct (image_check_hcrc d (place j)); (split; [done|]); [by intros o [= <-]|done].
  - subst q. exists st1. by split.
Qed.

End Images.
End On_disk.

(** *** A board that starts from a stick *)

Section Stick_board.
Context {D : Type} (dr : drivers D) (lit : list Z -> Z) (items cfg : Z) (s_buf s_s s_int sp : Z) (sn : nat) (cfg_mmu_table : world D -> world D).
Context (disk : world D -> mem) (apart : Z -> Z -> Prop) (hi h hn : Z) `{HP : !Heap dr h hn}.
Context (u : usb D) (stick : block_dev_desc D) (Hstick : udisk_dev u = Some stick) `{!Stick disk apart hi stick}.

End Stick_board.

(** ** A read that fails *)

Section Failure.
Context {D : Type} (dr : drivers D) (CONFIG_ENABLE_UDISK : bool) (lit : list Z -> Z) (items cfg s_buf s_s s_int : Z) (mmu : world D -> world D).

(** C36: after a good header the image itself is accepted whether it can be
    read or not: a negative result of [vs_read] is compared as an unsigned
    number and passes for more than was asked.  The second choice is not
    tried. *)
Theorem failed_read_accepted fuel (st : board D) name alternate rambase st1 o r w2 n w3 e :
  storage_offset dr CONFIG_ENABLE_UDISK lit items cfg s_buf s_s s_int fuel st name = Some (st1, o) ->
  strcmp fuel (load st1) (lit p_logo) name = Some r -> r <> 0 ->
  vs_read dr CONFIG_ENABLE_UDISK (cur st1) (wd st1) rambase o 0x1000 0 = Some (w2, n) -> 0x1000 <= n ->
  image_check_hcrc (ram w2) rambase = true -> image_get_comp (header (ram w2) rambase) <> 1 ->
  0 <= image_get_size (header (ram w2) rambase) < 2 ^ 31 - header_size ->
  vs_read dr CONFIG_ENABLE_UDISK (cur st1) w2 rambase o (image_get_size (header (ram w2) rambase) + header_size) 0 = Some (w3, e) ->
  - 2 ^ 31 <= e < 0 ->
  load_image dr CONFIG_ENABLE_UDISK lit items cfg s_buf s_s s_int mmu fuel st name alternate rambase = Some (set_wd (set_wd st1 w2) w3, rambase).
Proof.
  intros E1 Er Hr E2 Hn Hc Hm Hs E3 He. unfold load_image, load_once. rewrite E1. cbn [mbind option_bind]. rewrite Er. cbn [mbind option_bind].
  rewrite (proj2 (Z.eqb_neq r 0)) by done. rewrite E2. cbn [mbind option_bind]. rewrite (proj2 (Z.ltb_ge n _)) by done.
  change (load (set_wd st1 w2)) with (ram w2). rewrite Hc, (proj2 (Z.eqb_neq _ 1)) by done. cbn [negb]. unfold header_size in *.
  rewrite s32_small by lia. change (cur (set_wd st1 w2)) with (cur st1). change (wd (set_wd st1 w2)) with w2. rewrite E3. cbn [mbind option_bind].
  rewrite (u32_small (_ + 64)) by lia. replace (u32 e) with (e + 2 ^ 32).
  - rewrite (proj2 (Z.ltb_ge _ _)) by lia. done.
  - unfold u32. replace e with (e + 2 ^ 32 + (-1) * 2 ^ 32) at 2 by lia. rewrite Z_mod_plus_full. symmetry. apply Z.mod_small. lia.
Qed.
End Failure.

(** ** A sample disk *)

(** A damaged first kernel, a second one. *)
Definition boot_disk : mem :=
  store (store (fun _ => 0) (place 7) (<[40%nat := 1]> sample_image)) (place 8) sample_image.
Definition ram_with (l : list Items.item) : mem := store (board_image l) (sample_lit p_logo) (p_logo ++ [0]).
Definition boot_ram : mem := ram_with mmc_items.
Definition stick_items : list Items.item := [(s_board_disk, [n_udisk 0])].

(** The sample disk as a card in slot 1 or as the first stick. *)
Definition cards : list mmc := (mmc_register (mmc_register [] 0 (Mmc 0 0 512 false 0 512 512 0 0)).1 1 (Mmc 0 0x200000 512 true 1 512 512 0 0)).1.
Definition sample_card : mmc := nth 1 cards (Mmc 0 0 0 false 0 0 0 0 0).
Definition card_drivers : drivers mem :=
  Drivers mem (fun _ w => (w, mmc_blksz cards 1)) (fun _ => mmc_read soft_card cards 1) (fun _ => flat_write)
    (fun _ w => (w, 0)) (fun _ w _ _ => (w, 0)) (fun _ w _ _ => (w, 0))
    (fun _ w _ => (w, 0)) (fun _ w => (w, mmc_capacity cards 1)) (fun w _ => (w, 0x100000)) (fun w _ => w).
Definition stick_call (f : (world mem -> world mem) -> (world mem -> world mem * Z) -> (world mem -> world mem * Z) ->
    (world mem -> Z -> option (block_dev_desc mem)) -> usb mem -> world mem -> Z -> usb mem * world mem * Z) (w : world mem) : world mem * Z :=
  let '(_, w, r) := f (fun w => w) (fun w => (w, 0)) (fun w => (w, 0)) (fun _ _ => Some soft_stick) plugged w 0 in (w, r).
Definition stick_drivers : drivers mem :=
  Drivers mem (fun _ => stick_call udisk_vs_align) (fun _ => udisk_read plugged) (fun _ => flat_write)
    (fun _ => stick_call udisk_reset) (fun _ w _ _ => (w, 0)) (fun _ w _ _ => (w, 0))
    (fun _ w _ => (w, 0)) (fun _ => stick_call udisk_vs_capacity) (fun w _ => (w, 0x100000)) (fun w _ => w).
#[export] Instance stick_heap : Heap stick_drivers 0x100000 0x100000.
Proof.
  split; [lia| |done].
  intros w n w' p Hn [= <- <-]. split_and!; [done|lia|lia|done|done].
Qed.
Definition card_station : board mem := Board (World boot_ram boot_disk) (entry card_drivers true (DEV_MMC 1)) (Layout [] 0 128) 0 0.
Definition stick_station : board mem := Board (World (ram_with stick_items) boot_disk) (entry stick_drivers true (DEV_UDISK 0)) (Layout [] 0 128) 0 0.

Lemma boot_disk_ok : mem_ok boot_disk.
Proof. repeat apply mem_ok_store; [intros q; unfold is_byte; lia| |]; apply (bool_decide_eq_true_1 _); vm_compute; reflexivity. Qed.

Lemma ram_with_ok l : bytes_ok (concat (map item_bytes l)) -> mem_ok (ram_with l).
Proof. intros H. apply mem_ok_store; [by apply board_image_ok|apply (bool_decide_eq_true_1 _); vm_compute; reflexivity]. Qed.

Lemma boot_board : board_mem sample_lit 0x30000 0x20000 mmc_items default_cfg boot_ram.
Proof.
  apply sample_table; [|unfold mmc_items; hold_items|vm_compute; reflexivity|vm_compute; reflexivity].
  apply ram_with_ok, (bool_decide_eq_true_1 _). vm_compute. reflexivity.
Qed.

Lemma stick_board : board_mem sample_lit 0x30000 0x20000 stick_items default_cfg (ram_with stick_items).
Proof.
  apply sample_table; [|unfold stick_items; hold_items|vm_compute; reflexivity|vm_compute; reflexivity].
  apply ram_with_ok, (bool_decide_eq_true_1 _). vm_compute. reflexivity.
Qed.

Lemma stick_on_disk : exists pv, entry stick_drivers true (DEV_UDISK 0) = Some pv /\
  on_disk stick_drivers true (udisk_read plugged) dev (fun _ _ => True) 9 0 (2 ^ 30) 0x100000 0x100000
    sample_lit 0x30000 0x20000 0x50000 0x50080 0x500c0 0x50000 256 stick_items pv 0x200000.
Proof.
  eexists. split; [reflexivity|]. split; [apply sample_placement; cbn; lia| |lia|done].
  split; [reflexivity|reflexivity|split|..].
  - reflexivity.
  - intros w. by eexists.
  - reflexivity.
  - intros w. eexists _, _, _. done.
  - intros w. by eexists.
  - done.
Qed.

Example sample_choice : chosen boot_disk (tried 7 (Some (8%nat, p_kernel1))) = Some (place 8) /\
  destination boot_disk (place 8) CONFIG_SYS_PHY_LK_BASE = CONFIG_SYS_PHY_LK_BASE /\ whole boot_disk (place 8) = 73.
Proof. vm_compute. repeat split. Qed.

Lemma sample_buffer l : length l = 1%nat -> buffer_ok sample_lit 0x30000 0x20000 0x50000 256 l CONFIG_SYS_PHY_LK_BASE.
Proof.
  intros Hl. split; [vm_compute; split; [reflexivity|by intros]| |by right; vm_compute|by left; vm_compute].
  unfold off_tables. rewrite Hl. split; [by right; vm_compute|]. split; [by right; vm_compute|].
  apply (bool_decide_eq_true_1 _). vm_compute. reflexivity.
Qed.

Lemma sample_name m i name : names_of default_cfg !! i = Some name -> (i < 10)%nat -> i <> 3%nat ->
  is_cstr m (cfg_at 0x20000 (Z.of_nat i)) name = true -> (length name < 12)%nat ->
  image_name 0x50000 256 CONFIG_SYS_PHY_LK_BASE m (cfg_at 0x20000 (Z.of_nat i)) i name.
Proof.
  intros H1 H2 H3 H4 H5. split; [done|done|by apply is_cstr_spec| | |]; unfold cfg_at, part_sz_size, NULL, clear_of, CONFIG_SYS_PHY_LK_BASE, Bootm.CONFIG_SYS_SDRAM_BASE; lia.
Qed.

Lemma sample_room i : (i < 10)%nat -> (if image_check_hcrc boot_disk (place i) then whole boot_disk (place i) =? 73 else true) = true ->
  (image_get_comp (header boot_disk (place i)) =? 1) = false ->
  image_room (fun _ _ => True) 9 0 (2 ^ 30) 0x100000 0x100000 boot_disk CONFIG_SYS_PHY_LK_BASE i.
Proof.
  intros Hi H Hc. destruct (place_range i Hi) as [Hp _]. split; [lia|lia| |]; intros E; rewrite E in H; apply Z.eqb_eq in H; rewrite H.
  - split; lia.
  - split; [done|]. unfold destination. rewrite Hc. right. vm_compute. discriminate.
Qed.


(** The same disk as a card: nothing is found, and it is not that the disk
    could not be read. *)
Lemma mmc_loads_nothing_witness :
  image_check_hcrc boot_disk (place 8) = true /\
  exists st, load_image card_drivers true sample_lit 0x30000 0x20000 0x50000 0x50080 0x500c0 (fun w => w) 100
      card_station (cfg_at 0x20000 7) (cfg_at 0x20000 8) CONFIG_SYS_PHY_LK_BASE = Some (st, NULL).
Proof.
  split; [vm_compute; reflexivity|].
  apply (mmc_loads_nothing card_drivers true sample_lit 0x30000 0x20000 0x50000 0x50080 0x500c0 0x50000 256 (fun w => w)
    soft_card contents cards 1 sample_card) with (l := mmc_items) (i := 7%nat) (name := p_kernel0) (alt := Some (8%nat, p_kernel1)).
  - split; [lia|reflexivity|done|vm_compute; split; reflexivity| |done]. intros w buf start length x. eexists.
    apply (mmc_read_is soft_card contents sample_card); [reflexivity|reflexivity|vm_compute; split; reflexivity].
  - apply sample_placement. cbn. lia.
  - vm_compute. reflexivity.
  - cbn. lia.
  - by apply sample_buffer.
  - reflexivity.
  - exact boot_board.
  - apply is_cstr_spec. vm_compute. reflexivity.
  - apply (sample_name _ 7); try reflexivity; cbn; lia.
  - apply (sample_name _ 8); try reflexivity; cbn; lia.
Defined.

(** A disk with a bad sector behind the first 4 KiB of the first kernel. *)
Definition big_disk : mem := store (fun _ => 0) (place 7) (make_image IH_TYPE_KERNEL IH_COMP_NONE 0x8000 0x8000 IH_OS_LINUX IH_ARCH_ARM (replicate 5000 7)).
Definition flaky_read (w : world mem) (buf start len extra : Z) : world mem * Z :=
  if (start <=? place 7 + 0x1000) && (place 7 + 0x1000 <? start + len) then (w, -1) else flat_read w buf start len extra.
Definition flaky_drivers : drivers mem :=
  Drivers mem (fun _ w => (w, 0x200)) (fun _ => flaky_read) (fun _ => flat_write)
    (fun _ w => (w, 0)) (fun _ w _ _ => (w, 0)) (fun _ w _ _ => (w, 0))
    (fun _ w _ => (w, 0)) (fun _ w => (w, 0x200000)) (fun w _ => (w, 0x100000)) (fun w _ => w).
Definition flaky_station : board mem := Board (World boot_ram big_disk) (entry flaky_drivers true (DEV_MMC 1)) (Layout [] 0 128) 0 0.
Definition flaky_found : board mem * Z :=
  default (flaky_station, 0) (storage_offset flaky_drivers true sample_lit 0x30000 0x20000 0x50000 0x50080 0x500c0 100 flaky_station (cfg_at 0x20000 7)).
Definition flaky_vs_read (w : world mem) (len : Z) : option (world mem * Z) :=
  vs_read flaky_drivers true (cur flaky_found.1) w CONFIG_SYS_PHY_LK_BASE flaky_found.2 len 0.
Definition flaky_header : world mem * Z := default (wd flaky_station, 0) (flaky_vs_read (wd flaky_found.1) 0x1000).
Definition flaky_image : world mem * Z := default (wd flaky_station, 0) (flaky_vs_read flaky_header.1 5064).

Lemma some_pair {A B} (x : option (A * B)) d : bool_decide (is_Some x) = true -> x = Some ((default d x).1, (default d x).2).
Proof. intros H%bool_decide_eq_true_1. destruct x as [ [a b]|]; [done|by destruct H]. Qed.

Lemma failed_read_accepted_witness :
  flaky_image.2 = -1 /\
  load_image flaky_drivers true sample_lit 0x30000 0x20000 0x50000 0x50080 0x500c0 (fun w => w) 100
    flaky_station (cfg_at 0x20000 7) (cfg_at 0x20000 8) CONFIG_SYS_PHY_LK_BASE =
  Some (set_wd (set_wd flaky_found.1 flaky_header.1) flaky_image.1, CONFIG_SYS_PHY_LK_BASE).
Proof.
  split; [vm_compute; reflexivity|].
  assert (image_get_size (header (VStorage.ram flaky_header.1) CONFIG_SYS_PHY_LK_BASE) = 5000) as Es by (vm_compute; reflexivity).
  apply (failed_read_accepted flaky_drivers true sample_lit 0x30000 0x20000 0x50000 0x50080 0x500c0 (fun w => w) 100
    flaky_station (cfg_at 0x20000 7) (cfg_at 0x20000 8) CONFIG_SYS_PHY_LK_BASE
    flaky_found.1 flaky_found.2 (default 0 (strcmp 100 (load flaky_found.1) (sample_lit p_logo) (cfg_at 0x20000 7)))
    flaky_header.1 flaky_header.2 flaky_image.1 flaky_image.2).
  - apply some_pair. vm_compute. reflexivity.
  - vm_compute. reflexivity.
  - vm_compute. discriminate.
  - apply some_pair. vm_compute. reflexivity.
  - vm_compute. discriminate.
  - vm_compute. reflexivity.
  - vm_compute. discriminate.
  - rewrite Es. unfold header_size. lia.
  - rewrite Es. apply some_pair. vm_compute. reflexivity.
  - vm_compute. split; [discriminate|reflexivity].
Defined.

(** ** The kind of boot *)

Definition boot_types : list Z := [BOOT_NORMAL; BOOT_FACTORY_INIT; BOOT_CHARGER; BOOT_HALT_SYSTEM].
Definition type_text (t : Z) : list Z := if t =? 255 then [50; 53; 53] else [48 + t].

Lemma print_type fuel m t : (22 <= fuel)%nat -> t ∈ boot_types ->
  exists n, sprintf fuel fuel false s_d [u32 t] m = Some (type_text t, n, m).
Proof.
  intros Hf. replace fuel with (22 + (fuel - 22))%nat by lia. generalize (fuel - 22)%nat as f. clear. intros f.
  unfold boot_types. rewrite !elem_of_cons. intros [->|[->|[->|[->|H] ] ] ]; [..|by apply elem_of_nil in H]; eexists; vm_compute; reflexivity.
Qed.

Lemma read_type t : t ∈ boot_types -> s32 (simple_strtoul (type_text t) 10).1 = t /\ (length (type_text t) <= 3)%nat /\ Forall (fun c => c <> 0) (type_text t).
Proof.
  unfold boot_types. rewrite !elem_of_cons. intros [->|[->|[->|[->|H] ] ] ]; [..|by apply elem_of_nil in H];
    (split; [reflexivity|]; split; [cbn; lia|]); apply (bool_decide_eq_true_1 _); reflexivity.
Qed.

Lemma cstr_stored m p s : Forall (fun c => c <> 0) s -> cstr_at (store m p (s ++ [0])) p s.
Proof.
  intros Hs. split; [|done]. pose proof (bytes_at_store m p (s ++ [0])) as H. rewrite length_app in H. cbn [length] in H.
  by replace (length s + 1)%nat with (S (length s)) in H by lia.
Qed.

Section Types.
Context {X : Type} (lit : list Z -> Z) (console_assign : X -> mem -> Z -> Z -> X * Z) (switch_line : X -> Z -> option X).
Context (default_environment s_env : Z).

(** The kind of boot that is set is the one that is got: if the environment
    has room for it. *)
Theorem boot_type_roundtrip fuel e l t :
  env_holds default_environment e l -> uniq l -> t ∈ boot_types ->
  args_at (store (Env.ram e) s_env (type_text t ++ [0])) (data_of default_environment e) [lit n_boottype; s_env] [n_boottype; type_text t] ->
  data_of default_environment e + ENV_SIZE <= s_env \/ s_env + 4 <= data_of default_environment e ->
  Env.fits (set_env n_boottype (type_text t) l) = true -> ENV_SIZE + 32 < Z.of_nat fuel ->
  exists e', set_boot_type lit console_assign switch_line default_environment s_env fuel e t = Some (e', t) /\
    got_boot_type lit default_environment fuel e' = Some t.
Proof.
  intros He Hu Ht Ha Hd Hfit Hf. destruct (read_type t Ht) as (Hv & Hlen & Hnz).
  assert (ENV_SIZE = 0x3ffc) as Hsize by reflexivity.
  destruct (print_type fuel (Env.ram e) t ltac:(lia) Ht) as [n Ep].
  set (m := store (Env.ram e) s_env (type_text t ++ [0])) in *.
  assert (env_holds default_environment (with_ram e m) l) as He'.
  { apply (env_holds_ram default_environment e e l l m); try done; [|by destruct He]. destruct He as [_ _ [Hx Hl] Hr].
    split; [|exact Hl]. apply (text_at_same (Env.ram e)); [|exact Hx]. eapply same_except_on; [apply same_except_store|].
    rewrite length_app. cbn [length]. lia. }
  apply Forall2_cons in Ha as [Hn [Hs _]%Forall2_cons].
  assert (is_name n_boottype) as Hname by (by apply name_dec).
  assert (~ reserved n_boottype) as Hres by (unfold reserved; apply (bool_decide_eq_false_1 _); by vm_compute).
  destruct (setenv_cases console_assign switch_line default_environment fuel (with_ram e m) l (lit n_boottype) n_boottype s_env (type_text t)
    (lit n_boottype) n_boottype He' Hname Hname Hres) as (e' & a & Es & Eg & Hpt); [|cbn [length n_boottype]; lia|cbn [length n_boottype]; lia|].
  { constructor; [exact Hn|]. constructor; [exact Hs|]. constructor; [exact Hn|constructor]. }
  rewrite Hfit in Es, Hpt. exists e'. split.
  - unfold set_boot_type, print_to. rewrite Ep. cbn [mbind option_bind]. fold m. rewrite Es. done.
  - unfold got_boot_type. rewrite Eg. cbn [mbind option_bind]. pose proof (lookup_set n_boottype n_boottype l (type_text t) [] Hname Hname Hu) as Hl.
    cbn [joined] in Hl. rewrite bool_decide_true, app_nil_r in Hl by done. unfold set_env in Hpt. rewrite Hl in Hpt. destruct Hpt as [Hc Ha0].
    rewrite (proj2 (Z.eqb_neq a NULL)) by done. cbn [negb]. rewrite (chars_at_spec fuel _ _ _ Hc) by lia. cbn [mbind option_bind]. by rewrite Hv.
Qed.
End Types.

(** ** The memory of the board *)

(** For chips of up to 8 units of 128 megabytes the sizes are those of the
    configuration, and all the memory but one megabyte is given to Linux. *)
Theorem dram_bytes_exact cs ch ca rd : cs = 1 \/ cs = 2 -> 1 <= ca <= 8 ->
  dram_bytes cs ch ca rd = ca * 2 ^ 27 * (if ch =? 8 then 4 else 2) / (if rd =? 0 then 1 else 2) * cs /\
  dram_result (dram_bytes cs ch ca rd) = ca * 128 * (if ch =? 8 then 4 else 2) / (if rd =? 0 then 1 else 2) * cs - 1.
Proof.
  intros Hcs Hca. assert (ca = 1 \/ ca = 2 \/ ca = 3 \/ ca = 4 \/ ca = 5 \/ ca = 6 \/ ca = 7 \/ ca = 8) as H by lia.
  destruct Hcs as [-> | ->]; repeat (destruct H as [->|H]); try subst ca; unfold dram_bytes; destruct (ch =? 8), (rd =? 0); by vm_compute.
Qed.

(** With 16 the shift of an [int] overflows: Linux is told mem=-8193M. *)
Example dram_overflow : dram_result (dram_bytes 1 8 16 0) = -8193.
Proof. reflexivity. Qed.

(** ** The boot device *)

(** The chip's own table knows a device for each position of the pins, or
    says that there is none. *)
Theorem boot_device_known identity eflags binfo xom : 0 <= xom < 32 -> identity <> IX_CPUID_X15 ->
  Z.land eflags ECFG_DEFAULT_BINFO <> 0 \/ xom < 16 \/ 27 < xom ->
  exists id, boot_device identity eflags binfo xom = Some id /\
    (id = DEV_NONE \/ id = DEV_BND \/ id = DEV_EEPROM \/ id = DEV_FLASH \/ id = DEV_HD \/ DEV_MMC 0 <= id <= DEV_UDISK 0).
Proof.
  intros Hx Hi Hc. assert (boot_info identity eflags binfo xom = boot_info_irom !! Z.to_nat xom) as E.
  { assert (Z.land xom 0x1f = xom) as El by (change 0x1f with (Z.ones 5); rewrite Z.land_ones by lia; apply Z.mod_small; lia).
    unfold boot_info. rewrite (proj2 (Z.eqb_neq identity _)) by done. rewrite El. destruct (Z.eqb_spec (Z.land eflags ECFG_DEFAULT_BINFO) 0); [|done].
    destruct Hc as [Hc|Hc]; [done|]. by rewrite (proj2 (orb_true_iff _ _)) by lia. }
  unfold boot_device. rewrite E.
  assert (Forall (fun x => boot_info_to_id x ∈ [DEV_NONE; DEV_BND; DEV_EEPROM; DEV_FLASH; DEV_HD; DEV_MMC 0; DEV_MMC 1; DEV_MMC 2; DEV_UDISK 0]) boot_info_irom) as H
    by (apply (bool_decide_eq_true_1 _); vm_compute; reflexivity).
  destruct (lookup_lt_is_Some_2 boot_info_irom (Z.to_nat xom)) as [x Ex]; [change (length boot_info_irom) with 32%nat; lia|].
  rewrite Ex. exists (boot_info_to_id x). split; [done|]. apply (Forall_lookup_1 _ _ _ _ H) in Ex. rewrite !elem_of_cons in Ex.
  unfold DEV_MMC, DEV_UDISK, DEV_NONE, DEV_BND, DEV_EEPROM, DEV_FLASH, DEV_HD in *.
  destruct Ex as [?|[?|[?|[?|[?|[?|[?|[?|[?|Ex] ] ] ] ] ] ] ] ]; [lia..|by apply elem_of_nil in Ex].
Qed.

(** Position 0 of the pins of an X15 is not "irom debug": the number of
    devices, which is in front of its table, is taken for a NAND chip. *)
Example x15_position_0 : boot_device IX_CPUID_X15 0 [] 0 = Some DEV_BND.
Proof. reflexivity. Qed.
